(* ===== verification/_CoqProject ===== *)
-Q . S2P
Prelude.v
Bits.v
Hash.v
Inode.v
NodePath.v
Counts.v
Journal.v
Nat.v
FreeNid.v
NatFlush.v
FreeSeg.v
Sit.v
Segment.v
Gc.v
Discard.v
SitFlush.v
Prefree.v
Mount.v
Blocks.v
Super.v
Ckpt.v
Orphan.v
Summary.v
CkptWrite.v
CkptMount.v
Dir.v
DirOps.v
DirMap.v
DirRead.v
RbTree.v
Extent.v
ExtentWf.v
ExtentUpdate.v
ExtentSafe.v
ExtentReach.v
