(* ===== verification/Prelude.v ===== *)
(** * A verification development for the f2fs file system

    The sources under src/ are the f2fs file system of the Linux kernel (as of
    version 4.16): a log-structured file system.  Files are modified out of
    place: blocks are appended to six logs, one per temperature of data and of
    nodes; cleaning frees the segments the logs leave half empty; a checkpoint
    makes a consistent state durable.

    ** The program and the files of this development

    - Bit maps (f2fs.h, segment.c): [Bits].  Bits are numbered from the most
      significant bit of each byte; the searches work word by word.
    - Names (hash.c): [Hash], the TEA hash of directory entries.
    - Inodes (inode.c, f2fs.h, f2fs_fs.h): [Inode], the in-memory inode, its
      flags and dirty tracking, its on-disk form; (node.c, gc.c) [NodePath],
      the index tree from block indices to node blocks and back.
    - Space (f2fs.h, super.c, sysfs.c): [Counts], the counters of valid blocks,
      nodes and inodes, with reservations and quota.
    - The node address table (node.c, node.h), from node ids to block addresses:
      [Nat] (the cache, the lookup through journal and blocks, the versions),
      [FreeNid] (allocation of node ids), [NatFlush] (the flush at checkpoint),
      over the journals of the summary blocks, [Journal] (f2fs.h, f2fs_fs.h).
    - Segments (segment.c, segment.h): [FreeSeg] (free segments and sections,
      the search for one), [Sit] (the segment information table: valid-block
      maps now and at the last checkpoint), [Segment] (the six logs, the
      allocation of blocks, the dirty lists), [Gc] (gc.c, gc.h: the choice of a
      victim, the pace of the thread), [Discard] (which blocks may be
      discarded), [SitFlush] (the flush of the table at checkpoint), [Prefree]
      (the reuse of emptied segments), [Mount] (reading the tables back).
    - Blocks on disk: [Blocks], a block as a list of bytes, its little-endian
      fields, and the device as a map from addresses to blocks.
    - The super block (super.c): [Super], its checks, the choice between its two
      copies, their repair, the geometry taken from it.
    - The checkpoint (checkpoint.c, segment.c, super.c): [Ckpt] (the checkpoint
      block, the choice between the two packs at mount, the sanity checks),
      [Orphan] (the inode lists and the orphan blocks), [Summary] (the summaries
      and journals of the logs, compacted or not, written and restored),
      [CkptWrite] (write_checkpoint with all its exits), [CkptMount] (what the
      next mount finds, after a crash too).
    - Directories (dir.c, inline.c): [Dir] (one dentry block or inline area),
      [DirOps] (every operation on a directory: search, adding with the child's
      metadata, removing, relinking, emptiness, listing, the conversion of
      inline directories), [DirMap] (the directory as a finite map from names),
      [DirRead] (the layout of the levels, emptiness).
    - The extent cache (extent_cache.c): [RbTree] (the range lookups on
      red-black trees, which the discard commands use too), [Extent] (the trees
      of the inodes with their nodes, the list of least recent use, the zombies;
      lookup, update, merging, shrinker, set-up and destruction), [ExtentWf]
      (the invariant, what each primitive may change), [ExtentUpdate] (the
      update loop and merging), [ExtentSafe] (every operation keeps the
      invariant), [ExtentReach] (the operations as steps, the properties).

    A definition has the name of the C function it translates.  A function that
    changes state takes and returns the structures it changes; a loop whose
    termination is not structural has fuel; locks are left out, a definition is
    the whole of what its function does while it holds them.  Unsigned C
    integers are the integers they denote, reduced ([u32], ...) where the code
    can wrap; a [f2fs_bug_on] sets a flag that theorems show to stay unset.
    Pages and blocks on disk are finite maps from block addresses.

    ** How the parts interact

    [Segment.allocate_data_block] uses [Sit.update_sit_entry],
    [FreeSeg.get_new_segment] and, for slack space recycling, the victim
    selection of [Gc], through the interface [Segment.VictimOps] whose laws
    [Segment.VictimLaws] the theorems on [Segment] assume and
    [Gc.default_victim_laws] proves.  [NatFlush] and [SitFlush] write through
    [Journal]; [Prefree.checkpoint_segments] composes [SitFlush], [Discard] and
    [FreeSeg] in the order of a checkpoint, [Mount.build_segment_manager] those
    of a mount.  The invariant that ties the segment tables together is
    [Segment.seg_inv]: every operation on segments, the checkpoint and the mount
    establish it again.  The extent cache is over the interface
    [RbTree.RbOps] of the balanced trees, with the laws [RbTree.RbLaws]
    ([RbTree.plain_laws] satisfies them without balancing), and takes the first
    block of a node page from [NodePath.start_bidx_of_node].

    ** What the theorems show

    - Nothing is lost: a block is written to a place that holds no block valid
      now or in the last checkpoint ([Segment.allocate_data_block_correct]); the
      flushes leave on disk what the running system sees and do not touch the
      copies the previous checkpoint uses ([NatFlush.flush_nat_entries_durable],
      [SitFlush.flush_sit_entries_durable]); a checkpoint frees only what it may
      and discards no valid block ([Prefree.checkpoint_segments_correct]); a
      mount after it finds the same state ([Mount.build_segment_manager_correct]).
    - Bookkeeping: the counters and the lists agree with the maps they
      summarise ([Counts.counts_invariant], except that a remount may reserve
      more for root than there is, [FreeSeg.free_marks_correct],
      [Sit.update_sit_entry_correct], [Inode.dirty_tracking_consistent],
      [Nat.set_node_addr_correct]), and node ids are handed out once
      ([FreeNid.alloc_nid_unused]).
    - A checkpoint is atomic: however much of it has reached the device, a mount
      finds the old one or, head and tail being there, the new one
      ([CkptMount.checkpoint_crash_safe]); a completed one is found with its
      counters, bit maps, logs and orphans ([CkptMount.checkpoint_then_mount],
      [Summary.logs_roundtrip], [Orphan.orphans_roundtrip]); the packs alternate
      ([CkptMount.checkpoints_alternate]); so do the copies of the super block
      ([Super.super_block_survives]), and what the mount takes from them is in
      order ([Super.read_super_block_layout], up to a wrap-around of the end of
      the main area the code lets pass).
    - A directory refines a finite map from names to inode numbers and types:
      [DirMap.find_entry_is_lookup], [DirMap.add_link_is_insert],
      [DirMap.found_entry_delete_relink], [DirMap.new_directory_holds_dots],
      [DirRead.empty_dir_has_only_dots]; the
      buckets of its levels tile its blocks ([DirRead.dir_levels_tile]).
    - A cache never lies: whatever was updated, dropped, shrunk or forgotten, a
      lookup of the extent cache that answers gives the address last recorded
      for the block ([ExtentReach.cache_never_stale]); an update is learned
      ([ExtentReach.update_is_learned]); trees, list and counters agree
      ([ExtentReach.extent_cache_consistent]).
    - Searches and codecs: [NodePath.node_path_roundtrip],
      [Inode.inode_update_read_roundtrip], [Bits.find_rev_next_correct],
      [Hash.dentry_hash_correct], [FreeSeg.get_new_segment_correct],
      [Gc.ssr_victim_cheapest] (as long as the search is not cut short),
      [Gc.gc_victim_correct].
    - Errors and bounds: [Counts.inc_valid_block_count_correct],
      [Sit.update_sit_entry_wrong], [Gc.gc_sleep_bounds] and others; theorems that
      exhibit a defect of the code say so in their comment
      ([Counts.root_reservation_underflow], [FreeSeg.left_search_ignores_zones],
      [Prefree.prefree_segment_skipped]).

    ** Fuel

    The victim search has fuel 2 * MAIN_SEGS + 2: its offset grows and wraps once
    ([Gc.get_victim_terminates]).  A search in the map of a segment has 513
    steps for 512 bits.  The loops over prefree segments, over the segments in
    use and over the SIT blocks advance by at least one of MAIN_SEGS segments or
    SIT_BLK_CNT blocks and have one step more.  The theorems about these
    functions are about the results with this fuel, so that it is enough.
    The search for room in a directory has 64 levels, one more than the depth a
    directory can have; the loops over the blocks of a bucket and of a directory
    have their number of blocks plus one.
    The update of a range of the extent cache visits each node of the tree at
    most once and has one step more than nodes; freeing a tree has its number of
    nodes.

    ** Assumptions

    The checksum is an argument of the definitions with values of 32 bits;
    nothing else is asked of it, so that the theorems on crashes hold for the
    worst one.  A write reaches the device whole or not at all, in any order
    within one flush.  At a checkpoint no orphan slot is reserved but not yet
    used, which block_operations waits for.  What a directory operation asks of
    the rest of the system (reading a block, a new block, a new inode page, the
    child's inode number) is the record [DirOps.dir_env], and its laws are
    [DirMap.env_ok].  Rotation and recolouring of red-black trees (lib/rbtree.c)
    are [RbTree.RbOps]; whether the memory for a node is there is an argument.

    ** What is not modelled

    The page cache, bios and the block layer (data.c, and the parts of the other
    files that move pages); the node blocks behind [NodePath] and the truncation
    of files; extended attributes and ACLs (xattr.c, acl.c); roll-forward recovery
    after fsync (recovery.c); the VFS entry points (file.c, namei.c, most of
    super.c and inode.c); moving blocks in cleaning; locking and the interleaving
    of threads; the discard command tree, behind a log of the commands; several
    devices; sysfs, debugfs and tracing. *)

From Stdlib Require Import ZArith Lia.
From stdpp Require Import base numbers option gmap list.

Open Scope Z_scope.

(** ** Notations for the C bit operators *)

Declare Scope c_scope.
Delimit Scope c_scope with c.
Notation "x .& y" := (Z.land x y) (at level 40, left associativity) : c_scope.
Notation "x .^ y" := (Z.lxor x y) (at level 45, left associativity) : c_scope.
Notation "x .| y" := (Z.lor x y) (at level 50, left associativity) : c_scope.
#[global] Open Scope c_scope.

(** ** Machine words *)

(** A value of an unsigned w-bit C type is the integer it denotes; every
    operation that can wrap is written with the reduction of its type. *)
Definition u8 (x : Z) : Z := x mod 2 ^ 8.
Definition u16 (x : Z) : Z := x mod 2 ^ 16.
Definition u32 (x : Z) : Z := x mod 2 ^ 32.
Definition u64 (x : Z) : Z := x mod 2 ^ 64.

(** Conversion to a signed type (two's complement, as gcc defines it). *)
Definition s32 (x : Z) : Z := (x + 2 ^ 31) mod 2 ^ 32 - 2 ^ 31.
Definition s64 (x : Z) : Z := (x + 2 ^ 63) mod 2 ^ 64 - 2 ^ 63.

(** The C truth value of an integer, and the integer of a truth value. *)
Definition c_true (x : Z) : bool := negb (x =? 0).
Definition c_int (b : bool) : Z := if b then 1 else 0.

(** ** Error codes (include/uapi/asm-generic/errno-base.h) *)

Definition ENOENT : Z := 2.
Definition EIO : Z := 5.
Definition E2BIG : Z := 7.
Definition EAGAIN : Z := 11.
Definition ENOMEM : Z := 12.
Definition EFAULT : Z := 14.
Definition EEXIST : Z := 17.
Definition EINVAL : Z := 22.
Definition ENOSPC : Z := 28.
Definition ERANGE : Z := 34.
Definition ENODATA : Z := 61.
Definition EOPNOTSUPP : Z := 95.

(** ** Block addresses (f2fs_fs.h) *)

Definition NULL_ADDR : Z := 0.
Definition NEW_ADDR : Z := 2 ^ 32 - 1.

(** ** Tactics *)

(** Arithmetic with divisions and remainders by constants. *)
Ltac zdiv := Z.to_euclidean_division_equations; (lia || nia).

(** Turn the boolean comparisons of the hypotheses into propositions. *)
Ltac zbool :=
  repeat match goal with
  | H : (_ && _)%bool = true |- _ => apply andb_true_iff in H; destruct H
  | H : (_ || _)%bool = false |- _ => apply orb_false_iff in H; destruct H
  | H : negb _ = true |- _ => apply negb_true_iff in H
  | H : negb _ = false |- _ => apply negb_false_iff in H
  | H : (_ =? _) = true |- _ => apply Z.eqb_eq in H
  | H : (_ =? _) = false |- _ => apply Z.eqb_neq in H
  | H : (_ <? _) = true |- _ => apply Z.ltb_lt in H
  | H : (_ <? _) = false |- _ => apply Z.ltb_ge in H
  | H : (_ <=? _) = true |- _ => apply Z.leb_le in H
  | H : (_ <=? _) = false |- _ => apply Z.leb_gt in H
  | H : (_ >? _) = _ |- _ => rewrite Z.gtb_ltb in H
  | H : (_ >=? _) = _ |- _ => rewrite Z.geb_leb in H
  end.

(** Case analysis on the outermost [if] of the goal. *)
Ltac case_if :=
  match goal with
  | |- context [if ?b then _ else _] =>
      lazymatch b with
      | context [if _ then _ else _] => fail
      | _ => let E := fresh "E" in destruct b eqn:E
      end
  end; zbool.

Ltac case_if_in H :=
  match type of H with
  | context [if ?b then _ else _] =>
      lazymatch b with
      | context [if _ then _ else _] => fail
      | _ => let E := fresh "E" in destruct b eqn:E
      end
  end; zbool.

(** ** Words: the lemmas the components share *)

Create HintDb words.
Create Rewrite HintDb words.
Create Rewrite HintDb zlist.

Lemma u8_small x : 0 <= x < 2 ^ 8 -> u8 x = x.
Proof. apply Z.mod_small. Qed.
Lemma u16_small x : 0 <= x < 2 ^ 16 -> u16 x = x.
Proof. apply Z.mod_small. Qed.
Lemma u32_small x : 0 <= x < 2 ^ 32 -> u32 x = x.
Proof. apply Z.mod_small. Qed.
Lemma u64_small x : 0 <= x < 2 ^ 64 -> u64 x = x.
Proof. apply Z.mod_small. Qed.
Lemma u8_range x : 0 <= u8 x < 2 ^ 8.
Proof. apply Z.mod_pos_bound. lia. Qed.
Lemma u16_range x : 0 <= u16 x < 2 ^ 16.
Proof. apply Z.mod_pos_bound. lia. Qed.
Lemma u32_range x : 0 <= u32 x < 2 ^ 32.
Proof. apply Z.mod_pos_bound. lia. Qed.
Lemma u64_range x : 0 <= u64 x < 2 ^ 64.
Proof. apply Z.mod_pos_bound. lia. Qed.
Lemma s32_small x : - 2 ^ 31 <= x < 2 ^ 31 -> s32 x = x.
Proof. intros H. unfold s32. rewrite Z.mod_small; lia. Qed.
Lemma s64_small x : - 2 ^ 63 <= x < 2 ^ 63 -> s64 x = x.
Proof. intros H. unfold s64. rewrite Z.mod_small; lia. Qed.
Lemma s32_range x : - 2 ^ 31 <= s32 x < 2 ^ 31.
Proof.
  unfold s32. pose proof (Z.mod_pos_bound (x + 2 ^ 31) (2 ^ 32)). lia.
Qed.

#[export] Hint Resolve u8_range u16_range u32_range u64_range s32_range : words.
#[export] Hint Rewrite u8_small u16_small u32_small u64_small s32_small s64_small
  using lia : words.

(** Remove the wrap-around of every word operation that cannot overflow. *)
Ltac nowrap := repeat (autorewrite with words).
Ltac nowrap_in H := repeat (autorewrite with words in H).

Lemma c_true_true x : c_true x = true <-> x <> 0.
Proof. unfold c_true. rewrite negb_true_iff, Z.eqb_neq. done. Qed.
Lemma c_true_false x : c_true x = false <-> x = 0.
Proof. unfold c_true. rewrite negb_false_iff, Z.eqb_eq. done. Qed.

(** A number with all bits above p clear is below 2^p, and conversely. *)
Lemma testbit_high x p i : 0 <= x < 2 ^ p -> p <= i -> Z.testbit x i = false.
Proof.
  intros Hx Hi. destruct (decide (0 <= p)) as [Hp|Hp].
  - rewrite <- (Z.mod_small x (2 ^ p)) by lia. apply Z.mod_pow2_bits_high. lia.
  - rewrite Z.pow_neg_r in Hx by lia. lia.
Qed.

Lemma bits_below x p :
  0 <= p -> 0 <= x -> (forall i, p <= i -> Z.testbit x i = false) -> x < 2 ^ p.
Proof.
  intros Hp Hx Hb.
  destruct (decide (x = 0)) as [->|Hn]; [lia|].
  apply Z.log2_lt_pow2; [lia|].
  destruct (Z.lt_ge_cases (Z.log2 x) p) as [|Hge]; [done|].
  specialize (Hb _ Hge). rewrite Z.bit_log2 in Hb by lia. done.
Qed.

Lemma land_pow2 x k : 0 <= k -> x .& 2 ^ k = (if Z.testbit x k then 2 ^ k else 0).
Proof.
  intros Hk. apply Z.bits_inj'. intros i Hi.
  rewrite Z.land_spec, Z.pow2_bits_eqb by done.
  destruct (Z.testbit x k) eqn:E.
  - rewrite Z.pow2_bits_eqb by done. destruct (Z.eqb_spec k i) as [->|]; [by rewrite E|].
    by rewrite andb_false_r.
  - rewrite Z.bits_0. destruct (Z.eqb_spec k i) as [->|]; [by rewrite E|].
    by rewrite andb_false_r.
Qed.

Lemma lor_below a b n :
  0 <= n -> 0 <= a < 2 ^ n -> 0 <= b < 2 ^ n -> 0 <= a .| b < 2 ^ n.
Proof.
  intros Hn Ha Hb. assert (0 <= a .| b) by (apply Z.lor_nonneg; lia).
  split; [done|]. apply bits_below; [lia..|]. intros i Hi.
  by rewrite Z.lor_spec, (testbit_high a n), (testbit_high b n).
Qed.

Lemma land_below a b n : 0 <= n -> 0 <= a < 2 ^ n -> 0 <= a .& b < 2 ^ n.
Proof.
  intros Hn Ha. assert (0 <= a .& b) by (apply Z.land_nonneg; lia).
  split; [done|]. apply bits_below; [lia..|]. intros i Hi.
  by rewrite Z.land_spec, (testbit_high a n).
Qed.

Lemma shiftr_below a n k : 0 <= k -> 0 <= a < 2 ^ n -> 0 <= Z.shiftr a k < 2 ^ n.
Proof.
  intros Hk Ha. rewrite Z.shiftr_div_pow2 by lia.
  assert (0 < 2 ^ k) by (apply Z.pow_pos_nonneg; lia).
  split; [apply Z.div_pos; lia|]. apply Z.div_lt_upper_bound; nia.
Qed.

Lemma shiftl_1_pow2 k : 0 <= k -> Z.shiftl 1 k = 2 ^ k.
Proof. intros. rewrite Z.shiftl_mul_pow2 by done. lia. Qed.

(** ** Arrays: lists indexed by integers *)

(** C arrays are lists; an index outside the array is undefined behaviour in
    C.  Here such a read gives the default and such a write changes nothing,
    and the theorems state the bounds under which no such access happens. *)
Definition zlen {A} (l : list A) : Z := Z.of_nat (length l).

Definition zget {A} (d : A) (l : list A) (i : Z) : A :=
  if 0 <=? i then nth (Z.to_nat i) l d else d.

Definition zset {A} (l : list A) (i : Z) (v : A) : list A :=
  if 0 <=? i then <[Z.to_nat i := v]> l else l.

Abbreviation byte_at := (zget 0).

Lemma zlen_nonneg {A} (l : list A) : 0 <= zlen l.
Proof. unfold zlen. lia. Qed.

Lemma zlen_zset {A} (l : list A) i v : zlen (zset l i v) = zlen l.
Proof. unfold zlen, zset. case_if; [by rewrite length_insert|done]. Qed.

Lemma zget_lookup {A} (d : A) l i :
  0 <= i -> zget d l i = default d (l !! Z.to_nat i).
Proof.
  intros Hi. unfold zget. case_if; [|lia]. clear.
  generalize (Z.to_nat i). induction l as [|x l IH]; intros [|n]; simpl; auto.
Qed.

Lemma lookup_zget {A} (d : A) l i :
  0 <= i < zlen l -> l !! Z.to_nat i = Some (zget d l i).
Proof.
  unfold zlen. intros Hi. rewrite zget_lookup by lia.
  destruct (lookup_lt_is_Some_2 l (Z.to_nat i)) as [x Hx]; [lia|]. by rewrite Hx.
Qed.

Lemma zget_ge {A} (d : A) l i : zlen l <= i -> zget d l i = d.
Proof.
  unfold zlen. intros Hi. rewrite zget_lookup by lia.
  by rewrite lookup_ge_None_2 by lia.
Qed.

Lemma zget_replicate {A} (d : A) n i : zget d (replicate n d) i = d.
Proof.
  unfold zget. case_if; [|done]. destruct (nth_in_or_default (Z.to_nat i) (replicate n d) d) as [H|H]; [|done].
  apply list_elem_of_In, elem_of_replicate in H. apply H.
Qed.

Lemma zget_zset_eq {A} (d : A) l i v : 0 <= i < zlen l -> zget d (zset l i v) i = v.
Proof.
  unfold zlen. intros Hi. rewrite zget_lookup by lia. unfold zset. case_if; [|lia].
  by rewrite list_lookup_insert_eq by lia.
Qed.

Lemma zget_zset_ne {A} (d : A) l i j v : i <> j -> zget d (zset l i v) j = zget d l j.
Proof.
  intros Hij. unfold zset. case_if; [|done].
  destruct (Z.lt_ge_cases j 0).
  - unfold zget. case_if; [lia|done].
  - rewrite !zget_lookup by lia. rewrite list_lookup_insert_ne by lia. done.
Qed.

Lemma zget_zset {A} (d : A) l i j v :
  0 <= i < zlen l -> zget d (zset l i v) j = if i =? j then v else zget d l j.
Proof.
  intros Hi. destruct (Z.eqb_spec i j) as [->|Hn].
  - by apply zget_zset_eq.
  - by apply zget_zset_ne.
Qed.

Lemma zset_zget {A} (d : A) l i : 0 <= i < zlen l -> zset l i (zget d l i) = l.
Proof.
  intros Hi. unfold zset. case_if; [|lia]. apply list_insert_id. by apply lookup_zget.
Qed.

Lemma zset_zset {A} (l : list A) i v w : zset (zset l i v) i w = zset l i w.
Proof. unfold zset. case_if; [|done]. apply list_insert_insert_eq. Qed.

Lemma zlist_ext {A} (d : A) l1 l2 :
  zlen l1 = zlen l2 ->
  (forall i, 0 <= i < zlen l1 -> zget d l1 i = zget d l2 i) -> l1 = l2.
Proof.
  unfold zlen. intros Hl H. apply list_eq. intros n.
  destruct (decide (n < length l1)%nat) as [Hn|Hn].
  - specialize (H (Z.of_nat n)). rewrite !zget_lookup, !Nat2Z.id in H by lia.
    destruct (lookup_lt_is_Some_2 l1 n) as [x Hx]; [lia|].
    destruct (lookup_lt_is_Some_2 l2 n) as [y Hy]; [lia|].
    rewrite Hx, Hy in *. simpl in H. f_equal. apply H. lia.
  - rewrite !lookup_ge_None_2 by lia. done.
Qed.

Lemma Forall_zset {A} (P : A -> Prop) l i v : Forall P l -> P v -> Forall P (zset l i v).
Proof. intros Hl Hv. unfold zset. case_if; [by apply Forall_insert|done]. Qed.

Lemma Forall_zget {A} (P : A -> Prop) (d : A) l i : Forall P l -> P d -> P (zget d l i).
Proof.
  intros Hl Hd. unfold zget. case_if; [|done].
  destruct (decide (Z.to_nat i < length l)%nat).
  - eapply List.Forall_forall; [exact Hl|]. apply nth_In. lia.
  - rewrite nth_overflow by lia. done.
Qed.

#[export] Hint Rewrite @zlen_zset : zlist.
#[export] Hint Rewrite @zget_zset_eq @zget_zset_ne using (rewrite ?zlen_zset; lia) : zlist.
#[export] Hint Resolve Forall_zset zlen_nonneg : words.

(** A byte string: every element is a byte. *)
Definition is_byte (b : Z) : Prop := 0 <= b < 256.
Abbreviation bytes_ok := (Forall is_byte).

Lemma is_byte_0 : is_byte 0.
Proof. unfold is_byte. lia. Qed.
#[export] Hint Resolve is_byte_0 : words.

Lemma byte_at_range l i : bytes_ok l -> 0 <= byte_at l i < 256.
Proof. intros Hl. apply (Forall_zget is_byte); [done|apply is_byte_0]. Qed.
#[export] Hint Resolve byte_at_range : words.

(** ** Finite sets of integers *)

Lemma range_size (X : gset Z) n : 0 <= n -> (forall x, x ∈ X -> 0 <= x < n) -> Z.of_nat (size X) <= n.
Proof.
  intros Hn HX. replace n with (Z.of_nat (size (list_to_set (seqZ 0 n) : gset Z))).
  - apply Nat2Z.inj_le, subseteq_size. intros x Hx. apply elem_of_list_to_set, elem_of_seqZ. specialize (HX x Hx). lia.
  - rewrite size_list_to_set by apply NoDup_seqZ. rewrite length_seqZ. lia.
Qed.

Lemma size_add (X : gset Z) x : x ∉ X -> size ({[x]} ∪ X) = S (size X).
Proof. intros Hx. rewrite size_union by set_solver. by rewrite size_singleton. Qed.
Lemma size_remove (X : gset Z) x : x ∈ X -> size X = S (size (X ∖ {[x]})).
Proof.
  intros Hx. rewrite <- (size_add (X ∖ {[x]}) x) by set_solver. f_equal. apply set_eq. intros y.
  destruct (decide (y = x)); set_solver.
Qed.
