(* ===== verification/Bits.v ===== *)
(** * Bitmaps with the most significant bit first (f2fs.h, segment.c)

    [f2fs_test_bit] and its siblings (f2fs.h) number the bits of a byte from
    its most significant end.  This file holds these operations on byte
    arrays, the word-at-a-time searches [__find_rev_next_bit] and
    [__find_rev_next_zero_bit] of segment.c, the abstract view [bm_get] of a
    bitmap as a boolean array, and the lemmas that connect them. *)

From S2P Require Import Prelude.
From Stdlib Require Import ZArith Lia Btauto.
From stdpp Require Import base numbers option list.
#[local] Open Scope Z_scope.
#[local] Open Scope c_scope.

(** ** Operations *)

(** The mask of bit [nr] within its byte: [1 << (7 - (nr & 0x07))]. *)
Definition rev_mask (nr : Z) : Z := Z.shiftl 1 (7 - (nr .& 7)).

Definition f2fs_test_bit (nr : Z) (addr : list Z) : Z :=
  rev_mask nr .& byte_at addr (Z.shiftr nr 3).

Definition f2fs_set_bit (nr : Z) (addr : list Z) : list Z :=
  let i := Z.shiftr nr 3 in
  zset addr i (u8 (byte_at addr i .| rev_mask nr)).

Definition f2fs_clear_bit (nr : Z) (addr : list Z) : list Z :=
  let i := Z.shiftr nr 3 in
  zset addr i (u8 (byte_at addr i .& Z.lnot (rev_mask nr))).

Definition f2fs_test_and_set_bit (nr : Z) (addr : list Z) : Z * list Z :=
  let i := Z.shiftr nr 3 in
  let mask := rev_mask nr in
  let ret := mask .& byte_at addr i in
  (ret, zset addr i (u8 (byte_at addr i .| mask))).

Definition f2fs_test_and_clear_bit (nr : Z) (addr : list Z) : Z * list Z :=
  let i := Z.shiftr nr 3 in
  let mask := rev_mask nr in
  let ret := mask .& byte_at addr i in
  (ret, zset addr i (u8 (byte_at addr i .& Z.lnot mask))).

Definition f2fs_change_bit (nr : Z) (addr : list Z) : list Z :=
  let i := Z.shiftr nr 3 in
  zset addr i (u8 (byte_at addr i .^ rev_mask nr)).

(** [BITS_PER_LONG == 64]: an unsigned long of the array, as the (little
    endian) machine loads it. *)
Definition BITS_PER_LONG : Z := 64.

Fixpoint load_le (addr : list Z) (i : Z) (n : nat) : Z :=
  match n with
  | O => 0
  | S n' => byte_at addr i .| Z.shiftl (load_le addr (i + 1) n') 8
  end.

Definition load_ulong (addr : list Z) (p : Z) : Z := load_le addr (8 * p) 8.

(** The loop of [__reverse_ulong]: [idx] counts up while [shift] counts down. *)
Fixpoint reverse_ulong_loop (str : list Z) (p idx shift : Z) (n : nat) (tmp : Z) : Z :=
  match n with
  | O => tmp
  | S n' =>
      reverse_ulong_loop str p (idx + 1) (shift - 8) n'
        (tmp .| u64 (Z.shiftl (byte_at str (p + idx)) shift))
  end.

Definition __reverse_ulong (str : list Z) (p : Z) : Z :=
  reverse_ulong_loop str p 0 56 8 0.

Definition __reverse_ffs (word : Z) : Z :=
  let num := 0 in
  let '(num, word) := if word .& 0xffffffff00000000 =? 0 then (num + 32, word)
                      else (num, Z.shiftr word 32) in
  let '(num, word) := if word .& 0xffff0000 =? 0 then (num + 16, word)
                      else (num, Z.shiftr word 16) in
  let '(num, word) := if word .& 0xff00 =? 0 then (num + 8, word)
                      else (num, Z.shiftr word 8) in
  let '(num, word) := if word .& 0xf0 =? 0 then (num + 4, word)
                      else (num, Z.shiftr word 4) in
  let '(num, word) := if word .& 0xc =? 0 then (num + 2, word)
                      else (num, Z.shiftr word 2) in
  if word .& 0x2 =? 0 then num + 1 else num.

Definition __reverse_ffz (x : Z) : Z := __reverse_ffs (u64 (Z.lnot x)).

Definition ULONG_MAX : Z := 2 ^ 64 - 1.

(** The [while (1)] loops, with the number of words as fuel. *)
Fixpoint find_rev_next_bit_loop (fuel : nat) (addr : list Z) (p result size offset : Z) : Z :=
  match fuel with
  | O => result
  | S fuel' =>
      let pass :=
        if size <=? BITS_PER_LONG then result
        else find_rev_next_bit_loop fuel' addr (p + 1) result (size - BITS_PER_LONG) 0 in
      if load_ulong addr p =? 0 then pass
      else
        let tmp := __reverse_ulong addr (8 * p) in
        let tmp := tmp .& Z.shiftr ULONG_MAX offset in
        let tmp := if size <? BITS_PER_LONG
                   then tmp .& u64 (Z.shiftl ULONG_MAX (BITS_PER_LONG - size))
                   else tmp in
        if c_true tmp then result - size + __reverse_ffs tmp else pass
  end.

Definition __find_rev_next_bit (addr : list Z) (size offset : Z) : Z :=
  let p := offset / BITS_PER_LONG in
  let result := size in
  if size <=? offset then size
  else
    let size := size - (offset .& Z.lnot (BITS_PER_LONG - 1)) in
    let offset := offset mod BITS_PER_LONG in
    find_rev_next_bit_loop (S (Z.to_nat (size / BITS_PER_LONG))) addr p result size offset.

Fixpoint find_rev_next_zero_bit_loop (fuel : nat) (addr : list Z) (p result size offset : Z) : Z :=
  match fuel with
  | O => result
  | S fuel' =>
      let pass :=
        if size <=? BITS_PER_LONG then result
        else find_rev_next_zero_bit_loop fuel' addr (p + 1) result (size - BITS_PER_LONG) 0 in
      if load_ulong addr p =? ULONG_MAX then pass
      else
        let tmp := __reverse_ulong addr (8 * p) in
        let tmp := if c_true offset
                   then tmp .| u64 (Z.shiftl ULONG_MAX (BITS_PER_LONG - offset))
                   else tmp in
        let tmp := if size <? BITS_PER_LONG then tmp .| Z.shiftr ULONG_MAX size else tmp in
        if negb (tmp =? ULONG_MAX) then result - size + __reverse_ffz tmp else pass
  end.

Definition __find_rev_next_zero_bit (addr : list Z) (size offset : Z) : Z :=
  let p := offset / BITS_PER_LONG in
  let result := size in
  if size <=? offset then size
  else
    let size := size - (offset .& Z.lnot (BITS_PER_LONG - 1)) in
    let offset := offset mod BITS_PER_LONG in
    find_rev_next_zero_bit_loop (S (Z.to_nat (size / BITS_PER_LONG))) addr p result size offset.

(** ** The abstract view of a bitmap *)

(** Bit [nr] of a bitmap, and the number of bits it has. *)
Definition bm_get (addr : list Z) (nr : Z) : bool :=
  Z.testbit (byte_at addr (nr / 8)) (7 - nr mod 8).

Definition bm_bits (addr : list Z) : Z := 8 * zlen addr.

(** A reference search: the first position of [s, s + n) where [P] holds,
    or [s + n]. *)
Fixpoint scan_from (P : Z -> bool) (s : Z) (n : nat) : Z :=
  match n with
  | O => s
  | S n' => if P s then s else scan_from P (s + 1) n'
  end.

(** ** Lemmas on single bits *)

Create Rewrite HintDb bits.

Lemma rev_mask_pow2 nr : rev_mask nr = 2 ^ (7 - nr mod 8).
Proof.
  unfold rev_mask. change 7 with (Z.ones 3) at 2. rewrite Z.land_ones by lia.
  change (2 ^ 3) with 8. apply shiftl_1_pow2. pose proof (Z.mod_pos_bound nr 8). lia.
Qed.

Lemma shiftr_3 nr : Z.shiftr nr 3 = nr / 8.
Proof. by rewrite Z.shiftr_div_pow2. Qed.

Lemma testbit_u8 x k : 0 <= k < 8 -> Z.testbit (u8 x) k = Z.testbit x k.
Proof. intros. unfold u8. by rewrite Z.mod_pow2_bits_low by lia. Qed.

Lemma testbit_u64 x k : 0 <= k < 64 -> Z.testbit (u64 x) k = Z.testbit x k.
Proof. intros. unfold u64. by rewrite Z.mod_pow2_bits_low by lia. Qed.

Lemma bm_get_zset addr nr v m :
  0 <= nr < bm_bits addr ->
  bm_get (zset addr (nr / 8) v) m =
  if m / 8 =? nr / 8 then Z.testbit v (7 - m mod 8) else bm_get addr m.
Proof.
  unfold bm_bits, bm_get. intros Hn.
  rewrite zget_zset by zdiv. rewrite (Z.eqb_sym (m / 8)). by case_if.
Qed.

Lemma same_bit nr m : (m / 8 =? nr / 8) && (7 - m mod 8 =? 7 - nr mod 8) = (nr =? m).
Proof.
  destruct (Z.eqb_spec nr m) as [->|Hne]; [by rewrite !Z.eqb_refl|].
  destruct (Z.eqb_spec (m / 8) (nr / 8)); [|done].
  apply Z.eqb_neq. zdiv.
Qed.

Ltac bit_op :=
  intros; rewrite ?rev_mask_pow2, ?shiftr_3, bm_get_zset by done;
  match goal with
  | |- context [?a / 8 =? ?b / 8] =>
      pose proof (Z.mod_pos_bound a 8 eq_refl); pose proof (Z.mod_pos_bound b 8 eq_refl);
      rewrite <- (same_bit b a), testbit_u8 by lia;
      rewrite ?Z.lor_spec, ?Z.land_spec, ?Z.lxor_spec, ?Z.lnot_spec, Z.pow2_bits_eqb by lia;
      rewrite (Z.eqb_sym (7 - b mod 8));
      destruct (Z.eqb_spec (a / 8) (b / 8)) as [e|]; simpl;
      [unfold bm_get; rewrite e; by destruct (Z.testbit _ _), (_ =? _)
      |match goal with |- context [bm_get ?l ?i] => by destruct (bm_get l i) end]
  end.

(** The test reads the bit of the abstract bitmap. *)
Lemma test_bit_get nr addr : c_true (f2fs_test_bit nr addr) = bm_get addr nr.
Proof.
  unfold f2fs_test_bit, bm_get. rewrite rev_mask_pow2, shiftr_3.
  pose proof (Z.mod_pos_bound nr 8 eq_refl).
  rewrite Z.land_comm, land_pow2 by lia.
  destruct (Z.testbit _ _); [|done]. apply c_true_true.
  pose proof (Z.pow_pos_nonneg 2 (7 - nr mod 8)). lia.
Qed.

Lemma set_bit_get nr addr m :
  0 <= nr < bm_bits addr ->
  bm_get (f2fs_set_bit nr addr) m = bm_get addr m || (nr =? m).
Proof. unfold f2fs_set_bit. cbv zeta. bit_op. Qed.

Lemma clear_bit_get nr addr m :
  0 <= nr < bm_bits addr ->
  bm_get (f2fs_clear_bit nr addr) m = bm_get addr m && negb (nr =? m).
Proof. unfold f2fs_clear_bit. cbv zeta. bit_op. Qed.

Lemma change_bit_get nr addr m :
  0 <= nr < bm_bits addr ->
  bm_get (f2fs_change_bit nr addr) m = xorb (bm_get addr m) (nr =? m).
Proof. unfold f2fs_change_bit. cbv zeta. bit_op. Qed.

Lemma test_and_set_split nr addr :
  f2fs_test_and_set_bit nr addr = (f2fs_test_bit nr addr, f2fs_set_bit nr addr).
Proof. done. Qed.

Lemma test_and_clear_split nr addr :
  f2fs_test_and_clear_bit nr addr = (f2fs_test_bit nr addr, f2fs_clear_bit nr addr).
Proof. done. Qed.

Lemma bm_bits_zset addr i v : bm_bits (zset addr i v) = bm_bits addr.
Proof. unfold bm_bits. by rewrite zlen_zset. Qed.

Lemma set_bit_bits nr addr : bm_bits (f2fs_set_bit nr addr) = bm_bits addr.
Proof. apply bm_bits_zset. Qed.
Lemma clear_bit_bits nr addr : bm_bits (f2fs_clear_bit nr addr) = bm_bits addr.
Proof. apply bm_bits_zset. Qed.
Lemma change_bit_bits nr addr : bm_bits (f2fs_change_bit nr addr) = bm_bits addr.
Proof. apply bm_bits_zset. Qed.

Lemma bytes_zset_u8 addr i v : bytes_ok addr -> bytes_ok (zset addr i (u8 v)).
Proof. intros. apply Forall_zset; [done|]. apply u8_range. Qed.

#[export] Hint Resolve bytes_zset_u8 : words.
#[export] Hint Rewrite test_bit_get bm_bits_zset set_bit_bits clear_bit_bits change_bit_bits : bits.
#[export] Hint Rewrite set_bit_get clear_bit_get change_bit_get
  using (rewrite ?set_bit_bits, ?clear_bit_bits, ?change_bit_bits; lia) : bits.

(** Two bitmaps with the same bits are the same bytes. *)
Lemma bm_ext a1 a2 :
  bytes_ok a1 -> bytes_ok a2 -> zlen a1 = zlen a2 ->
  (forall nr, 0 <= nr < bm_bits a1 -> bm_get a1 nr = bm_get a2 nr) -> a1 = a2.
Proof.
  intros H1 H2 Hl Hb. apply (zlist_ext 0); [done|]. intros i Hi.
  pose proof (byte_at_range a1 i H1). pose proof (byte_at_range a2 i H2).
  apply Z.bits_inj'. intros k Hk.
  destruct (Z.lt_ge_cases k 8).
  - specialize (Hb (8 * i + (7 - k))). unfold bm_get, bm_bits in Hb.
    replace ((8 * i + (7 - k)) / 8) with i in Hb by zdiv.
    replace ((8 * i + (7 - k)) mod 8) with (7 - k) in Hb by zdiv.
    replace (7 - (7 - k)) with k in Hb by lia. apply Hb. lia.
  - rewrite !(testbit_high _ 8) by (change (2 ^ 8) with 256; lia). done.
Qed.

(** ** Lemmas on the word-at-a-time searches *)

Lemma log2_shiftr w k :
  0 <= k -> 2 ^ k <= w -> Z.log2 (Z.shiftr w k) = Z.log2 w - k.
Proof.
  intros Hk Hw. assert (0 < 2 ^ k) by (apply Z.pow_pos_nonneg; lia).
  rewrite Z.log2_shiftr by lia.
  pose proof (Z.log2_le_pow2 w k ltac:(lia)). lia.
Qed.

(** One halving step of [__reverse_ffs]: the mask covers bits k .. 2k-1. *)
Lemma high_half_zero w k :
  0 < k -> 0 <= w < 2 ^ (2 * k) ->
  w .& Z.shiftl (Z.ones k) k = 0 <-> w < 2 ^ k.
Proof.
  intros Hk Hw. split.
  - intros H0. apply bits_below; [lia..|]. intros i Hi.
    destruct (Z.lt_ge_cases i (2 * k)).
    + assert (Hb : Z.testbit (w .& Z.shiftl (Z.ones k) k) i = false)
        by (rewrite H0; apply Z.bits_0).
      rewrite Z.land_spec, Z.shiftl_spec, Z.ones_spec_low, andb_true_r in Hb by lia. done.
    + by apply (testbit_high w (2 * k)).
  - intros Hlt. apply Z.bits_inj'. intros i Hi.
    rewrite Z.land_spec, Z.bits_0, Z.shiftl_spec by lia.
    destruct (Z.lt_ge_cases i k).
    + rewrite (Z.testbit_neg_r _ (i - k)) by lia. apply andb_false_r.
    + by rewrite (testbit_high w k) by lia.
Qed.

Lemma ffs_step k mask num w (f : Z -> Z -> Z) :
  0 < k -> mask = Z.shiftl (Z.ones k) k -> 0 < w < 2 ^ (2 * k) ->
  (forall n w', 0 < w' < 2 ^ k -> f n w' = n + (k - 1 - Z.log2 w')) ->
  (let '(n, w') := if w .& mask =? 0 then (num + k, w) else (num, Z.shiftr w k) in f n w') =
  num + (2 * k - 1 - Z.log2 w).
Proof.
  intros Hk -> Hw Hf. pose proof (high_half_zero w k Hk ltac:(lia)) as Hh.
  destruct (Z.eqb_spec (w .& Z.shiftl (Z.ones k) k) 0) as [E|E].
  - rewrite Hf by tauto || lia. lia.
  - assert (2 ^ k <= w) by lia. rewrite Hf.
    + rewrite log2_shiftr by lia. lia.
    + rewrite Z.shiftr_div_pow2 by lia.
      assert (0 < 2 ^ k) by (apply Z.pow_pos_nonneg; lia).
      split; [apply Z.div_str_pos; lia|].
      apply Z.div_lt_upper_bound; [lia|]. rewrite <- Z.pow_add_r by lia.
      replace (k + k) with (2 * k) by lia. lia.
Qed.

(** [__reverse_ffs] is the distance of the highest set bit from bit 63. *)
Lemma reverse_ffs_log2 w : 0 < w < 2 ^ 64 -> __reverse_ffs w = 63 - Z.log2 w.
Proof.
  intros Hw. unfold __reverse_ffs. cbv zeta.
  rewrite (ffs_step 32); [lia|lia|done|done|]. intros n1 w1 H1.
  rewrite (ffs_step 16); [lia|lia|done|done|]. intros n2 w2 H2.
  rewrite (ffs_step 8); [lia|lia|done|done|]. intros n3 w3 H3.
  rewrite (ffs_step 4); [lia|lia|done|done|]. intros n4 w4 H4.
  rewrite (ffs_step 2); [lia|lia|done|done|]. intros n5 w5 H5.
  pose proof (high_half_zero w5 1 ltac:(lia) ltac:(lia)) as Hh.
  change (Z.shiftl (Z.ones 1) 1) with 2 in Hh.
  assert (w5 = 1 \/ w5 = 2 \/ w5 = 3) as [->|[->| ->]] by lia; simpl; lia.
Qed.

(** Bit [63 - i] of a reversed word is bit [i] of the bitmap from its start. *)
Lemma reverse_ulong_bit addr p i :
  bytes_ok addr -> 0 <= p -> 0 <= i < 64 ->
  Z.testbit (__reverse_ulong addr p) (63 - i) = bm_get addr (8 * p + i).
Proof.
  intros Hb Hp Hi. unfold __reverse_ulong, bm_get. cbn [reverse_ulong_loop Z.add Z.sub].
  rewrite !Z.lor_spec, Z.bits_0, !testbit_u64, !Z.shiftl_spec by lia.
  replace ((8 * p + i) mod 8) with (i mod 8) by zdiv.
  replace ((8 * p + i) / 8) with (p + i / 8) by zdiv.
  assert (Hout : forall q k, k < 0 \/ 8 <= k -> Z.testbit (byte_at addr q) k = false).
  { intros q k [Hk|Hk]; [by apply Z.testbit_neg_r|].
    apply (testbit_high _ 8); [apply (byte_at_range addr q Hb)|lia]. }
  assert (Hq : i / 8 = 0 \/ i / 8 = 1 \/ i / 8 = 2 \/ i / 8 = 3 \/ i / 8 = 4 \/ i / 8 = 5
               \/ i / 8 = 6 \/ i / 8 = 7) by zdiv.
  pose proof (Z.div_mod i 8 ltac:(lia)) as Hdm. pose proof (Z.mod_pos_bound i 8 eq_refl).
  repeat destruct Hq as [Hq|Hq]; rewrite Hq in *;
    repeat match goal with
    | |- context [Z.testbit (byte_at addr ?q) (63 - i - ?s)] =>
        first [ rewrite (Hout q (63 - i - s)) by lia
              | replace (63 - i - s) with (7 - i mod 8) by lia ]
    | |- context [Z.testbit (byte_at addr ?q) (63 - i)] => rewrite (Hout q (63 - i)) by lia
    end; rewrite ?orb_false_r, ?orb_false_l; try done;
    f_equal; f_equal; lia.
Qed.

Lemma reverse_ulong_range addr p : 0 <= __reverse_ulong addr p < 2 ^ 64.
Proof.
  unfold __reverse_ulong. cbn [reverse_ulong_loop].
  repeat (apply lor_below; [lia| |apply u64_range]). lia.
Qed.

Lemma load_le_byte addr i n :
  bytes_ok addr -> 0 <= i ->
  load_le addr i (S n) = byte_at addr i + 256 * load_le addr (i + 1) n.
Proof.
  intros Hb Hi. cbn [load_le].
  assert (Hd : byte_at addr i .& Z.shiftl (load_le addr (i + 1) n) 8 = 0).
  { apply Z.bits_inj'. intros k Hk. rewrite Z.land_spec, Z.bits_0, Z.shiftl_spec by done.
    destruct (Z.lt_ge_cases k 8).
    - rewrite (Z.testbit_neg_r _ (k - 8)) by lia. apply andb_false_r.
    - by rewrite (testbit_high _ 8) by (apply (byte_at_range addr i Hb) || lia). }
  rewrite <- Z.lxor_lor, <- Z.add_nocarry_lxor, Z.shiftl_mul_pow2 by (done || lia). lia.
Qed.

(** A loaded word is 0 (all ones) only if each of its bytes is. *)
Lemma load_le_extreme addr n i :
  bytes_ok addr -> 0 <= i ->
  0 <= load_le addr i n < 256 ^ Z.of_nat n /\
  (load_le addr i n = 0 -> forall j, i <= j < i + Z.of_nat n -> byte_at addr j = 0) /\
  (load_le addr i n = 256 ^ Z.of_nat n - 1 ->
     forall j, i <= j < i + Z.of_nat n -> byte_at addr j = 255).
Proof.
  intros Hb. revert i. induction n as [|n IH]; intros i Hi.
  - simpl. split; [lia|]. split; intros; lia.
  - rewrite load_le_byte by done. destruct (IH (i + 1) ltac:(lia)) as (Hr & H0 & H1).
    pose proof (byte_at_range addr i Hb).
    rewrite Nat2Z.inj_succ, Z.pow_succ_r by lia.
    split; [lia|]. split.
    + intros He j Hj. destruct (decide (j = i)) as [->|]; [lia|].
      apply H0; lia.
    + intros He j Hj. destruct (decide (j = i)) as [->|]; [lia|]. apply H1; lia.
Qed.

Lemma load_ulong_zero addr p i :
  bytes_ok addr -> 0 <= p -> load_ulong addr p = 0 -> 64 * p <= i < 64 * p + 64 ->
  bm_get addr i = false.
Proof.
  intros Hb Hp H0 Hi. unfold bm_get.
  destruct (load_le_extreme addr 8 (8 * p) Hb ltac:(lia)) as (_ & Hz & _).
  rewrite Hz by (done || zdiv). apply Z.bits_0.
Qed.

Lemma load_ulong_ones addr p i :
  bytes_ok addr -> 0 <= p -> load_ulong addr p = ULONG_MAX -> 64 * p <= i < 64 * p + 64 ->
  bm_get addr i = true.
Proof.
  intros Hb Hp H0 Hi. unfold bm_get.
  destruct (load_le_extreme addr 8 (8 * p) Hb ltac:(lia)) as (_ & _ & Hz).
  rewrite Hz by (done || zdiv). change 255 with (Z.ones 8). apply Z.ones_spec_low. zdiv.
Qed.

Lemma ulong_max_bit k : 0 <= k -> Z.testbit ULONG_MAX k = (k <? 64).
Proof.
  intros Hk. change ULONG_MAX with (Z.ones 64).
  destruct (Z.ltb_spec k 64); [by apply Z.ones_spec_low|by apply Z.ones_spec_high].
Qed.

(** [scan_from] finds what the search it specifies has to find. *)
Lemma scan_from_unique P s n r :
  s <= r <= s + Z.of_nat n -> (forall i, s <= i < r -> P i = false) ->
  (r < s + Z.of_nat n -> P r = true) -> scan_from P s n = r.
Proof.
  revert s. induction n as [|n IH]; intros s Hr Hlo Hhi; simpl; [lia|].
  destruct (decide (r = s)) as [->|].
  - by rewrite Hhi by lia.
  - rewrite Hlo by lia. apply IH; [lia| |].
    + intros. apply Hlo. lia.
    + intros. apply Hhi. lia.
Qed.

Lemma scan_from_skip P s n k :
  (k <= n)%nat -> (forall i, s <= i < s + Z.of_nat k -> P i = false) ->
  scan_from P s n = scan_from P (s + Z.of_nat k) (n - k).
Proof.
  revert s n. induction k as [|k IH]; intros s n Hk Hf.
  - f_equal; lia.
  - destruct n as [|n]; [lia|]. simpl scan_from at 1. rewrite Hf by lia.
    rewrite IH; [f_equal; lia|lia|]. intros; apply Hf; lia.
Qed.

Lemma scan_from_ext P Q s n :
  (forall i, s <= i < s + Z.of_nat n -> P i = Q i) -> scan_from P s n = scan_from Q s n.
Proof.
  revert s. induction n as [|n IH]; intros s H; simpl; [done|].
  rewrite H by lia. destruct (Q s); [done|]. apply IH. intros; apply H; lia.
Qed.

(** The answer of a search inside one reversed word. *)
Lemma word_first w (Q : Z -> bool) :
  0 <= w < 2 ^ 64 -> (forall i, 0 <= i < 64 -> Z.testbit w (63 - i) = Q i) ->
  (w = 0 -> forall i, 0 <= i < 64 -> Q i = false) /\
  (w <> 0 -> 0 <= 63 - Z.log2 w < 64 /\ Q (63 - Z.log2 w) = true /\
             forall i, 0 <= i < 63 - Z.log2 w -> Q i = false).
Proof.
  intros Hw HQ. split.
  - intros -> i Hi. rewrite <- HQ by done. apply Z.bits_0.
  - intros Hn. pose proof (Z.log2_nonneg w).
    assert (Z.log2 w < 64) by (apply Z.log2_lt_pow2; lia).
    split; [lia|]. split.
    + rewrite <- HQ by lia. replace (63 - (63 - Z.log2 w)) with (Z.log2 w) by lia.
      apply Z.bit_log2. lia.
    + intros i Hi. rewrite <- HQ by lia. apply Z.bits_above_log2; lia.
Qed.

(** One iteration of a search: skip the rest of word [p], or find in it. *)
Lemma search_skip P p size offset :
  0 <= offset < 64 -> offset < size ->
  (forall i, offset <= i < 64 -> i < size -> P (64 * p + i) = false) ->
  scan_from P (64 * p + offset) (Z.to_nat (size - offset)) =
  if size <=? 64 then 64 * p + size
  else scan_from P (64 * (p + 1) + 0) (Z.to_nat (size - 64 - 0)).
Proof.
  intros Ho Hs HP.
  assert (HP' : forall j, 64 * p + offset <= j < 64 * p + Z.min 64 size -> P j = false).
  { intros j Hj. replace j with (64 * p + (j - 64 * p)) by lia. apply HP; lia. }
  case_if.
  - apply scan_from_unique; [lia| |lia]. intros i Hi. apply HP'. lia.
  - rewrite (scan_from_skip _ _ _ (Z.to_nat (64 - offset))) by (lia || intros; apply HP'; lia).
    f_equal; lia.
Qed.

Lemma search_word P p size offset w :
  0 <= offset < 64 -> offset < size -> 0 <= w < 2 ^ 64 ->
  (forall i, 0 <= i < 64 ->
     Z.testbit w (63 - i) = (offset <=? i) && (i <? size) && P (64 * p + i)) ->
  scan_from P (64 * p + offset) (Z.to_nat (size - offset)) =
  if c_true w then 64 * p + (63 - Z.log2 w)
  else if size <=? 64 then 64 * p + size
  else scan_from P (64 * (p + 1) + 0) (Z.to_nat (size - 64 - 0)).
Proof.
  intros Ho Hs Hw Hbits. destruct (word_first w _ Hw Hbits) as [Hz Hnz].
  destruct (c_true w) eqn:Hc.
  - apply c_true_true in Hc. destruct (Hnz Hc) as (Hr & Hhit & Hmiss). clear Hnz Hz.
    zbool. apply scan_from_unique; [lia| |].
    + intros j Hj. specialize (Hmiss (j - 64 * p) ltac:(lia)).
      rewrite (proj2 (Z.leb_le _ _)), (proj2 (Z.ltb_lt _ _)) in Hmiss by lia.
      simpl in Hmiss. rewrite <- Hmiss. f_equal. lia.
    + done.
  - apply c_true_false in Hc. apply search_skip; [done..|]. intros i Hi1 Hi2.
    specialize (Hz Hc i ltac:(lia)).
    by rewrite (proj2 (Z.leb_le _ _)), (proj2 (Z.ltb_lt _ _)) in Hz by lia.
Qed.

(** The masks that cut a word at a bit position. *)
Lemma mask_from k i :
  0 <= k -> 0 <= i < 64 -> Z.testbit (Z.shiftr ULONG_MAX k) (63 - i) = (k <=? i).
Proof.
  intros Hk Hi. rewrite Z.shiftr_spec, ulong_max_bit by lia.
  destruct (Z.leb_spec k i), (Z.ltb_spec (63 - i + k) 64); (done || lia).
Qed.

Lemma mask_below k i :
  0 < k < 64 -> 0 <= i < 64 ->
  Z.testbit (u64 (Z.shiftl ULONG_MAX (64 - k))) (63 - i) = (i <? k).
Proof.
  intros Hk Hi. rewrite testbit_u64, Z.shiftl_spec by lia.
  destruct (Z.ltb_spec i k).
  - rewrite ulong_max_bit by lia. apply Z.ltb_lt. lia.
  - apply Z.testbit_neg_r. lia.
Qed.

(** The two search loops compute the reference search. *)
Ltac search_pass E IH :=
  rewrite <- IH by zdiv; f_equal; lia.

Lemma find_rev_next_bit_loop_scan fuel addr p size offset :
  bytes_ok addr -> 0 <= p -> 0 <= offset < 64 -> offset < size ->
  size / 64 < Z.of_nat fuel ->
  find_rev_next_bit_loop fuel addr p (64 * p + size) size offset =
  scan_from (bm_get addr) (64 * p + offset) (Z.to_nat (size - offset)).
Proof.
  intros Hb. revert p size offset. induction fuel as [|fuel IH]; [intros; zdiv|].
  intros p size offset Hp Ho Hs Hf. cbn [find_rev_next_bit_loop]. unfold BITS_PER_LONG.
  replace (if size <=? 64 then _ else _) with
    (if size <=? 64 then 64 * p + size
     else scan_from (bm_get addr) (64 * (p + 1) + 0) (Z.to_nat (size - 64 - 0)))
    by (case_if; [done|search_pass E IH]).
  destruct (Z.eqb_spec (load_ulong addr p) 0) as [E|E].
  - symmetry. apply search_skip; [done..|]. intros i Hi _.
    apply (load_ulong_zero addr p); (done || lia).
  - match goal with |- (if c_true ?w then _ else _) = _ => set (tmp := w) end.
    pose proof (reverse_ulong_range addr (8 * p)) as Hr.
    assert (Ht : 0 <= tmp < 2 ^ 64).
    { unfold tmp. case_if; repeat (apply land_below; [lia|]); done. }
    symmetry. rewrite (search_word (bm_get addr) p size offset tmp); [|done..|].
    + destruct (c_true tmp) eqn:Hc; [|done]. apply c_true_true in Hc.
      rewrite reverse_ffs_log2 by lia. lia.
    + intros i Hi. unfold tmp. replace (64 * p + i) with (8 * (8 * p) + i) by lia.
      case_if; rewrite !Z.land_spec, mask_from, reverse_ulong_bit by (done || lia).
      * rewrite mask_below by lia. btauto.
      * rewrite (proj2 (Z.ltb_lt i size)) by lia. btauto.
Qed.

Lemma find_rev_next_zero_bit_loop_scan fuel addr p size offset :
  bytes_ok addr -> 0 <= p -> 0 <= offset < 64 -> offset < size ->
  size / 64 < Z.of_nat fuel ->
  find_rev_next_zero_bit_loop fuel addr p (64 * p + size) size offset =
  scan_from (fun i => negb (bm_get addr i)) (64 * p + offset) (Z.to_nat (size - offset)).
Proof.
  intros Hb. revert p size offset. induction fuel as [|fuel IH]; [intros; zdiv|].
  intros p size offset Hp Ho Hs Hf. cbn [find_rev_next_zero_bit_loop]. unfold BITS_PER_LONG.
  set (P := fun i => negb (bm_get addr i)) in *.
  replace (if size <=? 64 then _ else _) with
    (if size <=? 64 then 64 * p + size
     else scan_from P (64 * (p + 1) + 0) (Z.to_nat (size - 64 - 0)))
    by (case_if; [done|search_pass E IH]).
  destruct (Z.eqb_spec (load_ulong addr p) ULONG_MAX) as [E|E].
  - symmetry. apply search_skip; [done..|]. intros i Hi _. unfold P.
    by rewrite (load_ulong_ones addr p) by (done || lia).
  - match goal with |- (if negb (?w =? _) then _ else _) = _ => set (tmp := w) end.
    pose proof (reverse_ulong_range addr (8 * p)) as Hr.
    assert (Hm : 0 <= ULONG_MAX < 2 ^ 64) by (unfold ULONG_MAX; lia).
    assert (Ht : 0 <= tmp < 2 ^ 64).
    { unfold tmp. repeat case_if; repeat (apply lor_below; [lia| |]);
        (done || apply u64_range || apply shiftr_below; (done || lia)). }
    assert (Hinv : forall i, 0 <= i < 64 ->
              Z.testbit (u64 (Z.lnot tmp)) i = negb (Z.testbit tmp i)).
    { intros i Hi. by rewrite testbit_u64, Z.lnot_spec by lia. }
    assert (Hz : c_true (u64 (Z.lnot tmp)) = negb (tmp =? ULONG_MAX)).
    { unfold c_true, u64. f_equal.
      replace (Z.lnot tmp) with (- tmp - 1) by (unfold Z.lnot; lia).
      unfold ULONG_MAX in *. destruct (Z.eqb_spec ((- tmp - 1) mod 2 ^ 64) 0),
        (Z.eqb_spec tmp (2 ^ 64 - 1)); zdiv. }
    symmetry. rewrite (search_word P p size offset (u64 (Z.lnot tmp)));
      [|done|done|apply u64_range|].
    + rewrite <- Hz. destruct (c_true (u64 (Z.lnot tmp))) eqn:Hc; [|done].
      apply c_true_true in Hc. unfold __reverse_ffz.
      pose proof (u64_range (Z.lnot tmp)). rewrite reverse_ffs_log2 by lia. lia.
    + intros i Hi. rewrite Hinv by lia. unfold tmp, P.
      replace (64 * p + i) with (8 * (8 * p) + i) by lia.
      destruct (c_true offset) eqn:Hco;
        [apply c_true_true in Hco|apply c_true_false in Hco; subst offset];
        case_if; rewrite ?Z.lor_spec, ?mask_from, ?mask_below, reverse_ulong_bit
          by (done || lia);
        rewrite ?Z.leb_antisym, ?(proj2 (Z.ltb_lt i size)), ?(proj2 (Z.ltb_ge i 0)) by lia;
        btauto.
Qed.

(** ** Properties *)

Lemma align_down offset : offset .& Z.lnot (BITS_PER_LONG - 1) = 64 * (offset / 64).
Proof.
  change (BITS_PER_LONG - 1) with (Z.ones 6).
  rewrite <- Z.ldiff_land, Z.ldiff_ones_r, Z.shiftl_mul_pow2, Z.shiftr_div_pow2 by lia.
  change (2 ^ 6) with 64. lia.
Qed.

(** The searches equal the bit-by-bit reference search. *)
Lemma find_rev_next_bit_scan addr size offset :
  bytes_ok addr -> 0 <= offset ->
  __find_rev_next_bit addr size offset =
  if size <=? offset then size
  else scan_from (bm_get addr) offset (Z.to_nat (size - offset)).
Proof.
  intros Hb Ho. unfold __find_rev_next_bit. case_if; [done|].
  rewrite align_down. unfold BITS_PER_LONG.
  assert (Hd : offset = 64 * (offset / 64) + offset mod 64) by (apply Z.div_mod; lia).
  replace size with (64 * (offset / 64) + (size - 64 * (offset / 64))) at 2 by lia.
  rewrite find_rev_next_bit_loop_scan by (done || zdiv). f_equal; lia.
Qed.

Lemma find_rev_next_zero_bit_scan addr size offset :
  bytes_ok addr -> 0 <= offset ->
  __find_rev_next_zero_bit addr size offset =
  if size <=? offset then size
  else scan_from (fun i => negb (bm_get addr i)) offset (Z.to_nat (size - offset)).
Proof.
  intros Hb Ho. unfold __find_rev_next_zero_bit. case_if; [done|].
  rewrite align_down. unfold BITS_PER_LONG.
  assert (Hd : offset = 64 * (offset / 64) + offset mod 64) by (apply Z.div_mod; lia).
  replace size with (64 * (offset / 64) + (size - 64 * (offset / 64))) at 2 by lia.
  rewrite find_rev_next_zero_bit_loop_scan by (done || zdiv). f_equal; lia.
Qed.

Lemma scan_from_spec P s n :
  let r := scan_from P s n in
  s <= r <= s + Z.of_nat n /\ (forall i, s <= i < r -> P i = false) /\
  (r < s + Z.of_nat n -> P r = true).
Proof.
  cbv zeta. revert s. induction n as [|n IH]; intros s; simpl scan_from.
  - split; [lia|]. split; intros; lia.
  - destruct (P s) eqn:E; [split; [lia|]; split; [lia|done]|].
    destruct (IH (s + 1)) as (H1 & H2 & H3). split; [lia|]. split.
    + intros i Hi. destruct (decide (i = s)) as [->|]; [done|]. apply H2; lia.
    + intros Hr. apply H3. lia.
Qed.

(** C39. The word-at-a-time searches of the MSB-first bitmaps return the first
    set (zero) bit at or after [offset] and below [size], or [size] if there is
    none. *)
Theorem find_rev_next_correct addr size offset :
  bytes_ok addr -> 0 <= offset < size ->
  let r := __find_rev_next_bit addr size offset in
  let z := __find_rev_next_zero_bit addr size offset in
  (offset <= r <= size /\ (forall i, offset <= i < r -> bm_get addr i = false) /\
   (r < size -> bm_get addr r = true)) /\
  (offset <= z <= size /\ (forall i, offset <= i < z -> bm_get addr i = true) /\
   (z < size -> bm_get addr z = false)).
Proof.
  intros Hb Ho. cbv zeta. rewrite find_rev_next_bit_scan, find_rev_next_zero_bit_scan by (done || lia).
  rewrite (proj2 (Z.leb_gt _ _)) by lia.
  pose proof (scan_from_spec (bm_get addr) offset (Z.to_nat (size - offset))) as (A1 & A2 & A3).
  pose proof (scan_from_spec (fun i => negb (bm_get addr i)) offset (Z.to_nat (size - offset)))
    as (B1 & B2 & B3).
  split; (split; [lia|split]); intros.
  - by apply A2.
  - apply A3. lia.
  - apply negb_false_iff. by apply B2.
  - apply negb_true_iff, B3. lia.
Qed.

Lemma find_rev_next_correct_witness :
  let m := [0; 0; 0; 0; 0; 0; 0; 0; 0; 0x20] in
  __find_rev_next_bit m 80 3 = 74 /\ bm_get m (__find_rev_next_bit m 80 3) = true.
Proof.
  intros m. split; [vm_compute; reflexivity|].
  destruct (find_rev_next_correct m 80 3) as ((_ & _ & H) & _); [|lia|].
  - repeat (apply Forall_cons; split; [unfold is_byte; lia|]). by apply Forall_nil.
  - apply H. vm_compute. reflexivity.
Defined.
