(* ===== verification/Hash.v ===== *)
(** * The directory hash (hash.c)

    The TEA based hash that places a file name in a bucket of its directory:
    [TEA_transform], [str2hashbuf] and [f2fs_dentry_hash], with the qstr test
    [is_dot_dotdot] of f2fs.h.  The reference definitions state what one hash
    buffer word holds and which 16-byte chunks of the name the loop hashes. *)

From S2P Require Import Prelude.
From Stdlib Require Import ZArith Lia.
From stdpp Require Import base numbers option list.
#[local] Open Scope Z_scope.
#[local] Open Scope c_scope.

(** ** Data *)

Definition DELTA : Z := 0x9E3779B9.
Definition F2FS_HASH_COL_BIT : Z := Z.shiftl 1 63.

(** The name and length of a [struct qstr] (linux/dcache.h). *)
Record qstr := mk_qstr { q_name : list Z; q_len : Z }.

(** The fields of [struct fscrypt_name] (linux/fscrypt.h) that the hash reads:
    [disk_name.name] is NULL for an encrypted name too long to be stored. *)
Record fscrypt_name := mk_fname { disk_name : option (list Z); fn_hash : Z; fn_minor_hash : Z }.

(** ** Operations *)

(** One round of the [do .. while (--n)] loop. *)
Definition TEA_round (a b c d : Z) (st : Z * Z * Z) : Z * Z * Z :=
  let '(sum, b0, b1) := st in
  let sum := u32 (sum + DELTA) in
  let b0 := u32 (b0 + (u32 (u32 (Z.shiftl b1 4) + a) .^ u32 (b1 + sum)
                       .^ u32 (Z.shiftr b1 5 + b))) in
  let b1 := u32 (b1 + (u32 (u32 (Z.shiftl b0 4) + c) .^ u32 (b0 + sum)
                       .^ u32 (Z.shiftr b0 5 + d))) in
  (sum, b0, b1).

Definition TEA_transform (buf inw : list Z) : list Z :=
  let a := zget 0 inw 0 in
  let b := zget 0 inw 1 in
  let c := zget 0 inw 2 in
  let d := zget 0 inw 3 in
  let '(_, b0, b1) := Nat.iter 16 (TEA_round a b c d) (0, zget 0 buf 0, zget 0 buf 1) in
  let buf := zset buf 0 (u32 (zget 0 buf 0 + b0)) in
  zset buf 1 (u32 (zget 0 buf 1 + b1)).

(** The loop of [str2hashbuf] from index [i], with [n] iterations left; [out]
    is what has been written through [buf]. *)
Fixpoint str2hashbuf_loop (msg : list Z) (p pad i : Z) (n : nat) (val num : Z) (out : list Z)
  : Z * Z * list Z :=
  match n with
  | O => (val, num, out)
  | S n' =>
      let val := if i mod 4 =? 0 then pad else val in
      let val := u32 (byte_at msg (p + i) + u32 (Z.shiftl val 8)) in
      if i mod 4 =? 3 then str2hashbuf_loop msg p pad (i + 1) n' pad (num - 1) (out ++ [val])
      else str2hashbuf_loop msg p pad (i + 1) n' val num out
  end.

(** [while (--num >= 0) *buf++ = pad;] *)
Fixpoint pad_loop (pad : Z) (fuel : nat) (num : Z) (out : list Z) : list Z :=
  match fuel with
  | O => out
  | S fuel' => if 0 <=? num - 1 then pad_loop pad fuel' (num - 1) (out ++ [pad]) else out
  end.

Definition str2hashbuf (msg : list Z) (p len num : Z) : list Z :=
  let pad := u32 len .| u32 (Z.shiftl (u32 len) 8) in
  let pad := pad .| u32 (Z.shiftl pad 16) in
  let len := if num * 4 <? len then num * 4 else len in
  let '(val, num, out) := str2hashbuf_loop msg p pad 0 (Z.to_nat len) pad num [] in
  let num := num - 1 in
  let out := if 0 <=? num then out ++ [val] else out in
  pad_loop pad (Z.to_nat num) num out.

Definition is_dot_dotdot (str : qstr) : bool :=
  ((q_len str =? 1) && (byte_at (q_name str) 0 =? 46)) ||
  ((q_len str =? 2) && (byte_at (q_name str) 0 =? 46) && (byte_at (q_name str) 1 =? 46)).

(** The [while (1)] loop: [p] is the offset in the name, [len] what is left. *)
Fixpoint dentry_hash_loop (fuel : nat) (nm : list Z) (p len : Z) (buf : list Z) : list Z :=
  match fuel with
  | O => buf
  | S fuel' =>
      let buf := TEA_transform buf (str2hashbuf nm p len 4) in
      let p := p + 16 in
      if len <=? 16 then buf else dentry_hash_loop fuel' nm p (len - 16) buf
  end.

Definition hash_seed : list Z := [0x67452301; 0xefcdab89; 0x98badcfe; 0x10325476].

Definition f2fs_dentry_hash (name_info : qstr) (fname : option fscrypt_name) : Z :=
  let bigname := match fname with
                 | Some f => match disk_name f with None => Some (fn_hash f) | Some _ => None end
                 | None => None
                 end in
  match bigname with
  | Some h => h
  | None =>
      if is_dot_dotdot name_info then 0
      else
        let l := q_len name_info in
        let buf := dentry_hash_loop (S (Z.to_nat (l / 16))) (q_name name_info) 0 l hash_seed in
        u32 (zget 0 buf 0 .& Z.lnot F2FS_HASH_COL_BIT)
  end.

(** ** Reference definitions *)

(** The padding word: the length in each byte (as far as it fits). *)
Definition hash_pad (len : Z) : Z :=
  let pad := u32 len .| u32 (Z.shiftl (u32 len) 8) in pad .| u32 (Z.shiftl pad 16).

(** Word [k] of the hash buffer of [l]: the bytes 4k .. 4k+3 shifted in from
    the right over the padding word. *)
Definition hash_word (pad : Z) (l : list Z) (k : nat) : Z :=
  foldl (fun v b => u32 (b + u32 (Z.shiftl v 8))) pad (take 4 (drop (4 * k) l)).

Definition hash_words (len : Z) (l : list Z) : list Z :=
  hash_word (hash_pad len) l <$> seq 0 4.

(** The chunks of a name: one per 16 bytes, at least one. *)
Fixpoint name_chunks (fuel : nat) (l : list Z) : list (list Z) :=
  match fuel with
  | O => []
  | S fuel' => if (length l <=? 16)%nat then [l] else l :: name_chunks fuel' (drop 16 l)
  end.

Definition dentry_hash_ref (l : list Z) : Z :=
  zget 0 (foldl (fun buf c => TEA_transform buf (hash_words (zlen c) (take 16 c)))
            hash_seed (name_chunks (S (length l / 16)) l)) 0.

Example hash_a : f2fs_dentry_hash (mk_qstr [97] 1) None = dentry_hash_ref [97].
Proof. vm_compute. reflexivity. Qed.
Example hash_long : let l := seqZ 33 40 in
  f2fs_dentry_hash (mk_qstr l 40) None = dentry_hash_ref l.
Proof. vm_compute. reflexivity. Qed.

(** ** Lemmas *)

Lemma str2hashbuf_loop_ext msg msg' p p' pad n i val num out :
  (forall j, i <= j < i + Z.of_nat n -> byte_at msg (p + j) = byte_at msg' (p' + j)) ->
  str2hashbuf_loop msg p pad i n val num out = str2hashbuf_loop msg' p' pad i n val num out.
Proof.
  revert i val num out. induction n as [|n IH]; intros i val num out H; [done|].
  cbn [str2hashbuf_loop]. rewrite (H i) by lia.
  case_if; apply IH; intros; apply H; lia.
Qed.

(** The loop over at most 16 bytes, followed by the padding, writes the four
    words of [hash_word]. *)
Lemma str2hashbuf_words bs pad :
  (length bs <= 16)%nat ->
  (let '(val, num, out) := str2hashbuf_loop bs 0 pad 0 (length bs) pad 4 [] in
   let num := num - 1 in
   let out := if 0 <=? num then out ++ [val] else out in
   pad_loop pad (Z.to_nat num) num out) = hash_word pad bs <$> seq 0 4.
Proof.
  intros Hl. do 16 (destruct bs as [|? bs]; [reflexivity|]).
  destruct bs; [reflexivity|simpl in Hl; lia].
Qed.

Lemma byte_at_take_drop l p n j :
  0 <= p -> 0 <= j < Z.of_nat n ->
  byte_at (take n (drop (Z.to_nat p) l)) j = byte_at l (p + j).
Proof.
  intros Hp Hj. rewrite !zget_lookup, lookup_take_lt, lookup_drop by lia.
  do 2 f_equal. lia.
Qed.

Lemma str2hashbuf_ref nm p len :
  0 <= p -> p + len = zlen nm -> 0 <= len ->
  str2hashbuf nm p len 4 = hash_words len (take 16 (drop (Z.to_nat p) nm)).
Proof.
  intros Hp Hlen Hl. unfold str2hashbuf, hash_words, hash_pad.
  set (pad := u32 len .| _). set (pad' := pad .| _). change (4 * 4) with 16.
  set (bs := take 16 (drop (Z.to_nat p) nm)).
  assert (Hbs : length bs = Z.to_nat (if 16 <? len then 16 else len)).
  { unfold bs, zlen in *. rewrite length_take, length_drop. case_if; lia. }
  rewrite <- (str2hashbuf_words bs) by (rewrite Hbs; case_if; lia).
  rewrite <- Hbs, (str2hashbuf_loop_ext nm bs p 0); [done|].
  intros j Hj. unfold bs. rewrite byte_at_take_drop by (case_if_in Hbs; lia). done.
Qed.

Lemma name_chunks_loop fuel nm p buf :
  0 <= p <= zlen nm -> (Z.to_nat (zlen nm - p) < 16 * fuel)%nat \/ zlen nm = p ->
  (0 < fuel)%nat ->
  dentry_hash_loop fuel nm p (zlen nm - p) buf =
  foldl (fun buf c => TEA_transform buf (hash_words (zlen c) (take 16 c))) buf
    (name_chunks fuel (drop (Z.to_nat p) nm)).
Proof.
  revert p buf. induction fuel as [|fuel IH]; intros p buf Hp Hf H0; [lia|].
  cbn [dentry_hash_loop name_chunks]. rewrite str2hashbuf_ref by lia.
  assert (Hd : zlen (drop (Z.to_nat p) nm) = zlen nm - p).
  { unfold zlen in *. rewrite length_drop. lia. }
  assert (Hd' : length (drop (Z.to_nat p) nm) = Z.to_nat (zlen nm - p))
    by (unfold zlen in Hd at 1; lia).
  destruct (Z.leb_spec (zlen nm - p) 16), (Nat.leb_spec (length (drop (Z.to_nat p) nm)) 16);
    try lia; cbn [foldl]; rewrite Hd; [done|].
  rewrite drop_drop. replace (Z.to_nat p + 16)%nat with (Z.to_nat (p + 16)) by lia.
  replace (zlen nm - p - 16) with (zlen nm - (p + 16)) by lia. apply IH; lia.
Qed.

(** C38. For a name whose bytes are all there, [f2fs_dentry_hash] is the hash of
    its chunks: every 16-byte piece is absorbed once, in order, each word of a
    piece holding its bytes over the length padding; dot names hash to 0 and an
    encrypted big name keeps the hash it carries.  The loop always ends. *)
Theorem dentry_hash_correct nm fname :
  f2fs_dentry_hash (mk_qstr nm (zlen nm)) fname =
  match fname with
  | Some (mk_fname None h _) => h
  | _ => if is_dot_dotdot (mk_qstr nm (zlen nm)) then 0 else u32 (dentry_hash_ref nm)
  end.
Proof.
  assert (Hm : forall h, u32 (h .& Z.lnot F2FS_HASH_COL_BIT) = u32 h).
  { intros h. unfold u32. rewrite <- !Z.land_ones, <- Z.land_assoc by lia. f_equal. }
  assert (Hl : zget 0 (dentry_hash_loop (S (Z.to_nat (zlen nm / 16))) nm 0 (zlen nm) hash_seed) 0
               = dentry_hash_ref nm).
  { unfold dentry_hash_ref. pose proof (zlen_nonneg nm).
    replace (zlen nm) with (zlen nm - 0) at 2 by lia.
    rewrite name_chunks_loop by (lia || unfold zlen in *; left; zdiv).
    change (drop (Z.to_nat 0) nm) with nm. unfold zlen at 2.
    rewrite <- (Nat2Z.inj_div _ 16), Nat2Z.id. done. }
  unfold f2fs_dentry_hash. cbn [q_len q_name]. rewrite Hm, Hl.
  destruct fname as [[[?|] ? ?]|]; done.
Qed.
