(* ===== verification/Inode.v ===== *)
(** * Inodes: flags, geometry, dirty tracking, the on-disk form (inode.c, f2fs.h)

    The in-memory inode ([struct inode] with its [struct f2fs_inode_info]) and
    the on-disk [struct f2fs_inode]; the FI_xxx flags and i_advise bits; the
    address-array geometry that the node path and the inline formats depend
    on; the dirty-inode list; [update_inode] and [do_read_inode]. *)

From S2P Require Import Prelude.
From Stdlib Require Import ZArith Lia.
From stdpp Require Import base numbers option list.
#[local] Open Scope Z_scope.
#[local] Open Scope c_scope.

(** ** Data *)

(** The fields of [struct inode] (linux/fs.h) and of [struct f2fs_inode_info]
    the development uses, and a setter for each. *)
Record inode := mk_inode {
  i_ino : Z;  (* inode number *)
  i_mode : Z;  (* umode_t *)
  i_uid : Z;
  i_gid : Z;
  i_nlink : Z;  (* unsigned int *)
  i_size : Z;  (* loff_t *)
  i_blocks : Z;  (* 512-byte sectors *)
  i_atime_sec : Z;
  i_ctime_sec : Z;
  i_mtime_sec : Z;
  i_atime_nsec : Z;
  i_ctime_nsec : Z;
  i_mtime_nsec : Z;
  i_generation : Z;
  i_rdev : Z;
  i_state_flags : Z;  (* S_xxx flags of inode->i_flags *)
  i_flags : Z;  (* f2fs_inode_info.i_flags: FS_xxx_FL *)
  i_advise : Z;
  i_dir_level : Z;
  i_current_depth : Z;  (* the union with i_gc_failures *)
  i_pino : Z;
  i_acl_mode : Z;
  flags : Z;  (* FI_xxx bits *)
  i_xattr_nid : Z;
  last_disk_size : Z;
  i_extra_isize : Z;  (* int, bytes *)
  i_projid : Z;
  i_inline_xattr_size : Z;  (* int, 4-byte units *)
  i_crtime_sec : Z;
  i_crtime_nsec : Z;
  gdirty : bool;  (* gdirty_list is linked *)
  i_reserved_quota : Z  (* bytes *)
}.

Definition set_i_ino (x : Z) (r : inode) : inode :=
  mk_inode x (i_mode r) (i_uid r) (i_gid r) (i_nlink r) (i_size r) (i_blocks r) (i_atime_sec r) (i_ctime_sec r) (i_mtime_sec r) (i_atime_nsec r) (i_ctime_nsec r) (i_mtime_nsec r) (i_generation r) (i_rdev r) (i_state_flags r) (i_flags r) (i_advise r) (i_dir_level r) (i_current_depth r) (i_pino r) (i_acl_mode r) (flags r) (i_xattr_nid r) (last_disk_size r) (i_extra_isize r) (i_projid r) (i_inline_xattr_size r) (i_crtime_sec r) (i_crtime_nsec r) (gdirty r) (i_reserved_quota r).
Definition set_i_mode (x : Z) (r : inode) : inode :=
  mk_inode (i_ino r) x (i_uid r) (i_gid r) (i_nlink r) (i_size r) (i_blocks r) (i_atime_sec r) (i_ctime_sec r) (i_mtime_sec r) (i_atime_nsec r) (i_ctime_nsec r) (i_mtime_nsec r) (i_generation r) (i_rdev r) (i_state_flags r) (i_flags r) (i_advise r) (i_dir_level r) (i_current_depth r) (i_pino r) (i_acl_mode r) (flags r) (i_xattr_nid r) (last_disk_size r) (i_extra_isize r) (i_projid r) (i_inline_xattr_size r) (i_crtime_sec r) (i_crtime_nsec r) (gdirty r) (i_reserved_quota r).
Definition set_i_uid (x : Z) (r : inode) : inode :=
  mk_inode (i_ino r) (i_mode r) x (i_gid r) (i_nlink r) (i_size r) (i_blocks r) (i_atime_sec r) (i_ctime_sec r) (i_mtime_sec r) (i_atime_nsec r) (i_ctime_nsec r) (i_mtime_nsec r) (i_generation r) (i_rdev r) (i_state_flags r) (i_flags r) (i_advise r) (i_dir_level r) (i_current_depth r) (i_pino r) (i_acl_mode r) (flags r) (i_xattr_nid r) (last_disk_size r) (i_extra_isize r) (i_projid r) (i_inline_xattr_size r) (i_crtime_sec r) (i_crtime_nsec r) (gdirty r) (i_reserved_quota r).
Definition set_i_gid (x : Z) (r : inode) : inode :=
  mk_inode (i_ino r) (i_mode r) (i_uid r) x (i_nlink r) (i_size r) (i_blocks r) (i_atime_sec r) (i_ctime_sec r) (i_mtime_sec r) (i_atime_nsec r) (i_ctime_nsec r) (i_mtime_nsec r) (i_generation r) (i_rdev r) (i_state_flags r) (i_flags r) (i_advise r) (i_dir_level r) (i_current_depth r) (i_pino r) (i_acl_mode r) (flags r) (i_xattr_nid r) (last_disk_size r) (i_extra_isize r) (i_projid r) (i_inline_xattr_size r) (i_crtime_sec r) (i_crtime_nsec r) (gdirty r) (i_reserved_quota r).
Definition set_i_nlink (x : Z) (r : inode) : inode :=
  mk_inode (i_ino r) (i_mode r) (i_uid r) (i_gid r) x (i_size r) (i_blocks r) (i_atime_sec r) (i_ctime_sec r) (i_mtime_sec r) (i_atime_nsec r) (i_ctime_nsec r) (i_mtime_nsec r) (i_generation r) (i_rdev r) (i_state_flags r) (i_flags r) (i_advise r) (i_dir_level r) (i_current_depth r) (i_pino r) (i_acl_mode r) (flags r) (i_xattr_nid r) (last_disk_size r) (i_extra_isize r) (i_projid r) (i_inline_xattr_size r) (i_crtime_sec r) (i_crtime_nsec r) (gdirty r) (i_reserved_quota r).
Definition set_i_size (x : Z) (r : inode) : inode :=
  mk_inode (i_ino r) (i_mode r) (i_uid r) (i_gid r) (i_nlink r) x (i_blocks r) (i_atime_sec r) (i_ctime_sec r) (i_mtime_sec r) (i_atime_nsec r) (i_ctime_nsec r) (i_mtime_nsec r) (i_generation r) (i_rdev r) (i_state_flags r) (i_flags r) (i_advise r) (i_dir_level r) (i_current_depth r) (i_pino r) (i_acl_mode r) (flags r) (i_xattr_nid r) (last_disk_size r) (i_extra_isize r) (i_projid r) (i_inline_xattr_size r) (i_crtime_sec r) (i_crtime_nsec r) (gdirty r) (i_reserved_quota r).
Definition set_i_blocks (x : Z) (r : inode) : inode :=
  mk_inode (i_ino r) (i_mode r) (i_uid r) (i_gid r) (i_nlink r) (i_size r) x (i_atime_sec r) (i_ctime_sec r) (i_mtime_sec r) (i_atime_nsec r) (i_ctime_nsec r) (i_mtime_nsec r) (i_generation r) (i_rdev r) (i_state_flags r) (i_flags r) (i_advise r) (i_dir_level r) (i_current_depth r) (i_pino r) (i_acl_mode r) (flags r) (i_xattr_nid r) (last_disk_size r) (i_extra_isize r) (i_projid r) (i_inline_xattr_size r) (i_crtime_sec r) (i_crtime_nsec r) (gdirty r) (i_reserved_quota r).
Definition set_i_atime_sec (x : Z) (r : inode) : inode :=
  mk_inode (i_ino r) (i_mode r) (i_uid r) (i_gid r) (i_nlink r) (i_size r) (i_blocks r) x (i_ctime_sec r) (i_mtime_sec r) (i_atime_nsec r) (i_ctime_nsec r) (i_mtime_nsec r) (i_generation r) (i_rdev r) (i_state_flags r) (i_flags r) (i_advise r) (i_dir_level r) (i_current_depth r) (i_pino r) (i_acl_mode r) (flags r) (i_xattr_nid r) (last_disk_size r) (i_extra_isize r) (i_projid r) (i_inline_xattr_size r) (i_crtime_sec r) (i_crtime_nsec r) (gdirty r) (i_reserved_quota r).
Definition set_i_ctime_sec (x : Z) (r : inode) : inode :=
  mk_inode (i_ino r) (i_mode r) (i_uid r) (i_gid r) (i_nlink r) (i_size r) (i_blocks r) (i_atime_sec r) x (i_mtime_sec r) (i_atime_nsec r) (i_ctime_nsec r) (i_mtime_nsec r) (i_generation r) (i_rdev r) (i_state_flags r) (i_flags r) (i_advise r) (i_dir_level r) (i_current_depth r) (i_pino r) (i_acl_mode r) (flags r) (i_xattr_nid r) (last_disk_size r) (i_extra_isize r) (i_projid r) (i_inline_xattr_size r) (i_crtime_sec r) (i_crtime_nsec r) (gdirty r) (i_reserved_quota r).
Definition set_i_mtime_sec (x : Z) (r : inode) : inode :=
  mk_inode (i_ino r) (i_mode r) (i_uid r) (i_gid r) (i_nlink r) (i_size r) (i_blocks r) (i_atime_sec r) (i_ctime_sec r) x (i_atime_nsec r) (i_ctime_nsec r) (i_mtime_nsec r) (i_generation r) (i_rdev r) (i_state_flags r) (i_flags r) (i_advise r) (i_dir_level r) (i_current_depth r) (i_pino r) (i_acl_mode r) (flags r) (i_xattr_nid r) (last_disk_size r) (i_extra_isize r) (i_projid r) (i_inline_xattr_size r) (i_crtime_sec r) (i_crtime_nsec r) (gdirty r) (i_reserved_quota r).
Definition set_i_atime_nsec (x : Z) (r : inode) : inode :=
  mk_inode (i_ino r) (i_mode r) (i_uid r) (i_gid r) (i_nlink r) (i_size r) (i_blocks r) (i_atime_sec r) (i_ctime_sec r) (i_mtime_sec r) x (i_ctime_nsec r) (i_mtime_nsec r) (i_generation r) (i_rdev r) (i_state_flags r) (i_flags r) (i_advise r) (i_dir_level r) (i_current_depth r) (i_pino r) (i_acl_mode r) (flags r) (i_xattr_nid r) (last_disk_size r) (i_extra_isize r) (i_projid r) (i_inline_xattr_size r) (i_crtime_sec r) (i_crtime_nsec r) (gdirty r) (i_reserved_quota r).
Definition set_i_ctime_nsec (x : Z) (r : inode) : inode :=
  mk_inode (i_ino r) (i_mode r) (i_uid r) (i_gid r) (i_nlink r) (i_size r) (i_blocks r) (i_atime_sec r) (i_ctime_sec r) (i_mtime_sec r) (i_atime_nsec r) x (i_mtime_nsec r) (i_generation r) (i_rdev r) (i_state_flags r) (i_flags r) (i_advise r) (i_dir_level r) (i_current_depth r) (i_pino r) (i_acl_mode r) (flags r) (i_xattr_nid r) (last_disk_size r) (i_extra_isize r) (i_projid r) (i_inline_xattr_size r) (i_crtime_sec r) (i_crtime_nsec r) (gdirty r) (i_reserved_quota r).
Definition set_i_mtime_nsec (x : Z) (r : inode) : inode :=
  mk_inode (i_ino r) (i_mode r) (i_uid r) (i_gid r) (i_nlink r) (i_size r) (i_blocks r) (i_atime_sec r) (i_ctime_sec r) (i_mtime_sec r) (i_atime_nsec r) (i_ctime_nsec r) x (i_generation r) (i_rdev r) (i_state_flags r) (i_flags r) (i_advise r) (i_dir_level r) (i_current_depth r) (i_pino r) (i_acl_mode r) (flags r) (i_xattr_nid r) (last_disk_size r) (i_extra_isize r) (i_projid r) (i_inline_xattr_size r) (i_crtime_sec r) (i_crtime_nsec r) (gdirty r) (i_reserved_quota r).
Definition set_i_generation (x : Z) (r : inode) : inode :=
  mk_inode (i_ino r) (i_mode r) (i_uid r) (i_gid r) (i_nlink r) (i_size r) (i_blocks r) (i_atime_sec r) (i_ctime_sec r) (i_mtime_sec r) (i_atime_nsec r) (i_ctime_nsec r) (i_mtime_nsec r) x (i_rdev r) (i_state_flags r) (i_flags r) (i_advise r) (i_dir_level r) (i_current_depth r) (i_pino r) (i_acl_mode r) (flags r) (i_xattr_nid r) (last_disk_size r) (i_extra_isize r) (i_projid r) (i_inline_xattr_size r) (i_crtime_sec r) (i_crtime_nsec r) (gdirty r) (i_reserved_quota r).
Definition set_i_rdev (x : Z) (r : inode) : inode :=
  mk_inode (i_ino r) (i_mode r) (i_uid r) (i_gid r) (i_nlink r) (i_size r) (i_blocks r) (i_atime_sec r) (i_ctime_sec r) (i_mtime_sec r) (i_atime_nsec r) (i_ctime_nsec r) (i_mtime_nsec r) (i_generation r) x (i_state_flags r) (i_flags r) (i_advise r) (i_dir_level r) (i_current_depth r) (i_pino r) (i_acl_mode r) (flags r) (i_xattr_nid r) (last_disk_size r) (i_extra_isize r) (i_projid r) (i_inline_xattr_size r) (i_crtime_sec r) (i_crtime_nsec r) (gdirty r) (i_reserved_quota r).
Definition set_i_state_flags (x : Z) (r : inode) : inode :=
  mk_inode (i_ino r) (i_mode r) (i_uid r) (i_gid r) (i_nlink r) (i_size r) (i_blocks r) (i_atime_sec r) (i_ctime_sec r) (i_mtime_sec r) (i_atime_nsec r) (i_ctime_nsec r) (i_mtime_nsec r) (i_generation r) (i_rdev r) x (i_flags r) (i_advise r) (i_dir_level r) (i_current_depth r) (i_pino r) (i_acl_mode r) (flags r) (i_xattr_nid r) (last_disk_size r) (i_extra_isize r) (i_projid r) (i_inline_xattr_size r) (i_crtime_sec r) (i_crtime_nsec r) (gdirty r) (i_reserved_quota r).
Definition set_i_flags (x : Z) (r : inode) : inode :=
  mk_inode (i_ino r) (i_mode r) (i_uid r) (i_gid r) (i_nlink r) (i_size r) (i_blocks r) (i_atime_sec r) (i_ctime_sec r) (i_mtime_sec r) (i_atime_nsec r) (i_ctime_nsec r) (i_mtime_nsec r) (i_generation r) (i_rdev r) (i_state_flags r) x (i_advise r) (i_dir_level r) (i_current_depth r) (i_pino r) (i_acl_mode r) (flags r) (i_xattr_nid r) (last_disk_size r) (i_extra_isize r) (i_projid r) (i_inline_xattr_size r) (i_crtime_sec r) (i_crtime_nsec r) (gdirty r) (i_reserved_quota r).
Definition set_i_advise (x : Z) (r : inode) : inode :=
  mk_inode (i_ino r) (i_mode r) (i_uid r) (i_gid r) (i_nlink r) (i_size r) (i_blocks r) (i_atime_sec r) (i_ctime_sec r) (i_mtime_sec r) (i_atime_nsec r) (i_ctime_nsec r) (i_mtime_nsec r) (i_generation r) (i_rdev r) (i_state_flags r) (i_flags r) x (i_dir_level r) (i_current_depth r) (i_pino r) (i_acl_mode r) (flags r) (i_xattr_nid r) (last_disk_size r) (i_extra_isize r) (i_projid r) (i_inline_xattr_size r) (i_crtime_sec r) (i_crtime_nsec r) (gdirty r) (i_reserved_quota r).
Definition set_i_dir_level (x : Z) (r : inode) : inode :=
  mk_inode (i_ino r) (i_mode r) (i_uid r) (i_gid r) (i_nlink r) (i_size r) (i_blocks r) (i_atime_sec r) (i_ctime_sec r) (i_mtime_sec r) (i_atime_nsec r) (i_ctime_nsec r) (i_mtime_nsec r) (i_generation r) (i_rdev r) (i_state_flags r) (i_flags r) (i_advise r) x (i_current_depth r) (i_pino r) (i_acl_mode r) (flags r) (i_xattr_nid r) (last_disk_size r) (i_extra_isize r) (i_projid r) (i_inline_xattr_size r) (i_crtime_sec r) (i_crtime_nsec r) (gdirty r) (i_reserved_quota r).
Definition set_i_current_depth (x : Z) (r : inode) : inode :=
  mk_inode (i_ino r) (i_mode r) (i_uid r) (i_gid r) (i_nlink r) (i_size r) (i_blocks r) (i_atime_sec r) (i_ctime_sec r) (i_mtime_sec r) (i_atime_nsec r) (i_ctime_nsec r) (i_mtime_nsec r) (i_generation r) (i_rdev r) (i_state_flags r) (i_flags r) (i_advise r) (i_dir_level r) x (i_pino r) (i_acl_mode r) (flags r) (i_xattr_nid r) (last_disk_size r) (i_extra_isize r) (i_projid r) (i_inline_xattr_size r) (i_crtime_sec r) (i_crtime_nsec r) (gdirty r) (i_reserved_quota r).
Definition set_i_pino (x : Z) (r : inode) : inode :=
  mk_inode (i_ino r) (i_mode r) (i_uid r) (i_gid r) (i_nlink r) (i_size r) (i_blocks r) (i_atime_sec r) (i_ctime_sec r) (i_mtime_sec r) (i_atime_nsec r) (i_ctime_nsec r) (i_mtime_nsec r) (i_generation r) (i_rdev r) (i_state_flags r) (i_flags r) (i_advise r) (i_dir_level r) (i_current_depth r) x (i_acl_mode r) (flags r) (i_xattr_nid r) (last_disk_size r) (i_extra_isize r) (i_projid r) (i_inline_xattr_size r) (i_crtime_sec r) (i_crtime_nsec r) (gdirty r) (i_reserved_quota r).
Definition set_i_acl_mode (x : Z) (r : inode) : inode :=
  mk_inode (i_ino r) (i_mode r) (i_uid r) (i_gid r) (i_nlink r) (i_size r) (i_blocks r) (i_atime_sec r) (i_ctime_sec r) (i_mtime_sec r) (i_atime_nsec r) (i_ctime_nsec r) (i_mtime_nsec r) (i_generation r) (i_rdev r) (i_state_flags r) (i_flags r) (i_advise r) (i_dir_level r) (i_current_depth r) (i_pino r) x (flags r) (i_xattr_nid r) (last_disk_size r) (i_extra_isize r) (i_projid r) (i_inline_xattr_size r) (i_crtime_sec r) (i_crtime_nsec r) (gdirty r) (i_reserved_quota r).
Definition set_flags (x : Z) (r : inode) : inode :=
  mk_inode (i_ino r) (i_mode r) (i_uid r) (i_gid r) (i_nlink r) (i_size r) (i_blocks r) (i_atime_sec r) (i_ctime_sec r) (i_mtime_sec r) (i_atime_nsec r) (i_ctime_nsec r) (i_mtime_nsec r) (i_generation r) (i_rdev r) (i_state_flags r) (i_flags r) (i_advise r) (i_dir_level r) (i_current_depth r) (i_pino r) (i_acl_mode r) x (i_xattr_nid r) (last_disk_size r) (i_extra_isize r) (i_projid r) (i_inline_xattr_size r) (i_crtime_sec r) (i_crtime_nsec r) (gdirty r) (i_reserved_quota r).
Definition set_i_xattr_nid (x : Z) (r : inode) : inode :=
  mk_inode (i_ino r) (i_mode r) (i_uid r) (i_gid r) (i_nlink r) (i_size r) (i_blocks r) (i_atime_sec r) (i_ctime_sec r) (i_mtime_sec r) (i_atime_nsec r) (i_ctime_nsec r) (i_mtime_nsec r) (i_generation r) (i_rdev r) (i_state_flags r) (i_flags r) (i_advise r) (i_dir_level r) (i_current_depth r) (i_pino r) (i_acl_mode r) (flags r) x (last_disk_size r) (i_extra_isize r) (i_projid r) (i_inline_xattr_size r) (i_crtime_sec r) (i_crtime_nsec r) (gdirty r) (i_reserved_quota r).
Definition set_last_disk_size (x : Z) (r : inode) : inode :=
  mk_inode (i_ino r) (i_mode r) (i_uid r) (i_gid r) (i_nlink r) (i_size r) (i_blocks r) (i_atime_sec r) (i_ctime_sec r) (i_mtime_sec r) (i_atime_nsec r) (i_ctime_nsec r) (i_mtime_nsec r) (i_generation r) (i_rdev r) (i_state_flags r) (i_flags r) (i_advise r) (i_dir_level r) (i_current_depth r) (i_pino r) (i_acl_mode r) (flags r) (i_xattr_nid r) x (i_extra_isize r) (i_projid r) (i_inline_xattr_size r) (i_crtime_sec r) (i_crtime_nsec r) (gdirty r) (i_reserved_quota r).
Definition set_i_extra_isize (x : Z) (r : inode) : inode :=
  mk_inode (i_ino r) (i_mode r) (i_uid r) (i_gid r) (i_nlink r) (i_size r) (i_blocks r) (i_atime_sec r) (i_ctime_sec r) (i_mtime_sec r) (i_atime_nsec r) (i_ctime_nsec r) (i_mtime_nsec r) (i_generation r) (i_rdev r) (i_state_flags r) (i_flags r) (i_advise r) (i_dir_level r) (i_current_depth r) (i_pino r) (i_acl_mode r) (flags r) (i_xattr_nid r) (last_disk_size r) x (i_projid r) (i_inline_xattr_size r) (i_crtime_sec r) (i_crtime_nsec r) (gdirty r) (i_reserved_quota r).
Definition set_i_projid (x : Z) (r : inode) : inode :=
  mk_inode (i_ino r) (i_mode r) (i_uid r) (i_gid r) (i_nlink r) (i_size r) (i_blocks r) (i_atime_sec r) (i_ctime_sec r) (i_mtime_sec r) (i_atime_nsec r) (i_ctime_nsec r) (i_mtime_nsec r) (i_generation r) (i_rdev r) (i_state_flags r) (i_flags r) (i_advise r) (i_dir_level r) (i_current_depth r) (i_pino r) (i_acl_mode r) (flags r) (i_xattr_nid r) (last_disk_size r) (i_extra_isize r) x (i_inline_xattr_size r) (i_crtime_sec r) (i_crtime_nsec r) (gdirty r) (i_reserved_quota r).
Definition set_i_inline_xattr_size (x : Z) (r : inode) : inode :=
  mk_inode (i_ino r) (i_mode r) (i_uid r) (i_gid r) (i_nlink r) (i_size r) (i_blocks r) (i_atime_sec r) (i_ctime_sec r) (i_mtime_sec r) (i_atime_nsec r) (i_ctime_nsec r) (i_mtime_nsec r) (i_generation r) (i_rdev r) (i_state_flags r) (i_flags r) (i_advise r) (i_dir_level r) (i_current_depth r) (i_pino r) (i_acl_mode r) (flags r) (i_xattr_nid r) (last_disk_size r) (i_extra_isize r) (i_projid r) x (i_crtime_sec r) (i_crtime_nsec r) (gdirty r) (i_reserved_quota r).
Definition set_i_crtime_sec (x : Z) (r : inode) : inode :=
  mk_inode (i_ino r) (i_mode r) (i_uid r) (i_gid r) (i_nlink r) (i_size r) (i_blocks r) (i_atime_sec r) (i_ctime_sec r) (i_mtime_sec r) (i_atime_nsec r) (i_ctime_nsec r) (i_mtime_nsec r) (i_generation r) (i_rdev r) (i_state_flags r) (i_flags r) (i_advise r) (i_dir_level r) (i_current_depth r) (i_pino r) (i_acl_mode r) (flags r) (i_xattr_nid r) (last_disk_size r) (i_extra_isize r) (i_projid r) (i_inline_xattr_size r) x (i_crtime_nsec r) (gdirty r) (i_reserved_quota r).
Definition set_i_crtime_nsec (x : Z) (r : inode) : inode :=
  mk_inode (i_ino r) (i_mode r) (i_uid r) (i_gid r) (i_nlink r) (i_size r) (i_blocks r) (i_atime_sec r) (i_ctime_sec r) (i_mtime_sec r) (i_atime_nsec r) (i_ctime_nsec r) (i_mtime_nsec r) (i_generation r) (i_rdev r) (i_state_flags r) (i_flags r) (i_advise r) (i_dir_level r) (i_current_depth r) (i_pino r) (i_acl_mode r) (flags r) (i_xattr_nid r) (last_disk_size r) (i_extra_isize r) (i_projid r) (i_inline_xattr_size r) (i_crtime_sec r) x (gdirty r) (i_reserved_quota r).
Definition set_gdirty (x : bool) (r : inode) : inode :=
  mk_inode (i_ino r) (i_mode r) (i_uid r) (i_gid r) (i_nlink r) (i_size r) (i_blocks r) (i_atime_sec r) (i_ctime_sec r) (i_mtime_sec r) (i_atime_nsec r) (i_ctime_nsec r) (i_mtime_nsec r) (i_generation r) (i_rdev r) (i_state_flags r) (i_flags r) (i_advise r) (i_dir_level r) (i_current_depth r) (i_pino r) (i_acl_mode r) (flags r) (i_xattr_nid r) (last_disk_size r) (i_extra_isize r) (i_projid r) (i_inline_xattr_size r) (i_crtime_sec r) (i_crtime_nsec r) x (i_reserved_quota r).
Definition set_i_reserved_quota (x : Z) (r : inode) : inode :=
  mk_inode (i_ino r) (i_mode r) (i_uid r) (i_gid r) (i_nlink r) (i_size r) (i_blocks r) (i_atime_sec r) (i_ctime_sec r) (i_mtime_sec r) (i_atime_nsec r) (i_ctime_nsec r) (i_mtime_nsec r) (i_generation r) (i_rdev r) (i_state_flags r) (i_flags r) (i_advise r) (i_dir_level r) (i_current_depth r) (i_pino r) (i_acl_mode r) (flags r) (i_xattr_nid r) (last_disk_size r) (i_extra_isize r) (i_projid r) (i_inline_xattr_size r) (i_crtime_sec r) (i_crtime_nsec r) (gdirty r) x.

(** [struct f2fs_inode], the on-disk inode (f2fs_fs.h), values in CPU order. *)
Record f2fs_inode := mk_raw {
  ri_mode : Z;
  ri_advise : Z;
  ri_inline : Z;
  ri_uid : Z;
  ri_gid : Z;
  ri_links : Z;
  ri_size : Z;
  ri_blocks : Z;
  ri_atime : Z;
  ri_ctime : Z;
  ri_mtime : Z;
  ri_atime_nsec : Z;
  ri_ctime_nsec : Z;
  ri_mtime_nsec : Z;
  ri_generation : Z;
  ri_current_depth : Z;
  ri_xattr_nid : Z;
  ri_flags : Z;
  ri_pino : Z;
  ri_namelen : Z;
  ri_name : list Z;
  ri_dir_level : Z;
  ri_ext : (Z * Z * Z)%type;  (* fofs, blk, len *)
  ri_addr : list Z;  (* i_addr, the extra attributes overlaid on its first words *)
  ri_nid : list Z  (* i_nid *)
}.

Definition set_ri_mode (x : Z) (r : f2fs_inode) : f2fs_inode :=
  mk_raw x (ri_advise r) (ri_inline r) (ri_uid r) (ri_gid r) (ri_links r) (ri_size r) (ri_blocks r) (ri_atime r) (ri_ctime r) (ri_mtime r) (ri_atime_nsec r) (ri_ctime_nsec r) (ri_mtime_nsec r) (ri_generation r) (ri_current_depth r) (ri_xattr_nid r) (ri_flags r) (ri_pino r) (ri_namelen r) (ri_name r) (ri_dir_level r) (ri_ext r) (ri_addr r) (ri_nid r).
Definition set_ri_advise (x : Z) (r : f2fs_inode) : f2fs_inode :=
  mk_raw (ri_mode r) x (ri_inline r) (ri_uid r) (ri_gid r) (ri_links r) (ri_size r) (ri_blocks r) (ri_atime r) (ri_ctime r) (ri_mtime r) (ri_atime_nsec r) (ri_ctime_nsec r) (ri_mtime_nsec r) (ri_generation r) (ri_current_depth r) (ri_xattr_nid r) (ri_flags r) (ri_pino r) (ri_namelen r) (ri_name r) (ri_dir_level r) (ri_ext r) (ri_addr r) (ri_nid r).
Definition set_ri_inline (x : Z) (r : f2fs_inode) : f2fs_inode :=
  mk_raw (ri_mode r) (ri_advise r) x (ri_uid r) (ri_gid r) (ri_links r) (ri_size r) (ri_blocks r) (ri_atime r) (ri_ctime r) (ri_mtime r) (ri_atime_nsec r) (ri_ctime_nsec r) (ri_mtime_nsec r) (ri_generation r) (ri_current_depth r) (ri_xattr_nid r) (ri_flags r) (ri_pino r) (ri_namelen r) (ri_name r) (ri_dir_level r) (ri_ext r) (ri_addr r) (ri_nid r).
Definition set_ri_uid (x : Z) (r : f2fs_inode) : f2fs_inode :=
  mk_raw (ri_mode r) (ri_advise r) (ri_inline r) x (ri_gid r) (ri_links r) (ri_size r) (ri_blocks r) (ri_atime r) (ri_ctime r) (ri_mtime r) (ri_atime_nsec r) (ri_ctime_nsec r) (ri_mtime_nsec r) (ri_generation r) (ri_current_depth r) (ri_xattr_nid r) (ri_flags r) (ri_pino r) (ri_namelen r) (ri_name r) (ri_dir_level r) (ri_ext r) (ri_addr r) (ri_nid r).
Definition set_ri_gid (x : Z) (r : f2fs_inode) : f2fs_inode :=
  mk_raw (ri_mode r) (ri_advise r) (ri_inline r) (ri_uid r) x (ri_links r) (ri_size r) (ri_blocks r) (ri_atime r) (ri_ctime r) (ri_mtime r) (ri_atime_nsec r) (ri_ctime_nsec r) (ri_mtime_nsec r) (ri_generation r) (ri_current_depth r) (ri_xattr_nid r) (ri_flags r) (ri_pino r) (ri_namelen r) (ri_name r) (ri_dir_level r) (ri_ext r) (ri_addr r) (ri_nid r).
Definition set_ri_links (x : Z) (r : f2fs_inode) : f2fs_inode :=
  mk_raw (ri_mode r) (ri_advise r) (ri_inline r) (ri_uid r) (ri_gid r) x (ri_size r) (ri_blocks r) (ri_atime r) (ri_ctime r) (ri_mtime r) (ri_atime_nsec r) (ri_ctime_nsec r) (ri_mtime_nsec r) (ri_generation r) (ri_current_depth r) (ri_xattr_nid r) (ri_flags r) (ri_pino r) (ri_namelen r) (ri_name r) (ri_dir_level r) (ri_ext r) (ri_addr r) (ri_nid r).
Definition set_ri_size (x : Z) (r : f2fs_inode) : f2fs_inode :=
  mk_raw (ri_mode r) (ri_advise r) (ri_inline r) (ri_uid r) (ri_gid r) (ri_links r) x (ri_blocks r) (ri_atime r) (ri_ctime r) (ri_mtime r) (ri_atime_nsec r) (ri_ctime_nsec r) (ri_mtime_nsec r) (ri_generation r) (ri_current_depth r) (ri_xattr_nid r) (ri_flags r) (ri_pino r) (ri_namelen r) (ri_name r) (ri_dir_level r) (ri_ext r) (ri_addr r) (ri_nid r).
Definition set_ri_blocks (x : Z) (r : f2fs_inode) : f2fs_inode :=
  mk_raw (ri_mode r) (ri_advise r) (ri_inline r) (ri_uid r) (ri_gid r) (ri_links r) (ri_size r) x (ri_atime r) (ri_ctime r) (ri_mtime r) (ri_atime_nsec r) (ri_ctime_nsec r) (ri_mtime_nsec r) (ri_generation r) (ri_current_depth r) (ri_xattr_nid r) (ri_flags r) (ri_pino r) (ri_namelen r) (ri_name r) (ri_dir_level r) (ri_ext r) (ri_addr r) (ri_nid r).
Definition set_ri_atime (x : Z) (r : f2fs_inode) : f2fs_inode :=
  mk_raw (ri_mode r) (ri_advise r) (ri_inline r) (ri_uid r) (ri_gid r) (ri_links r) (ri_size r) (ri_blocks r) x (ri_ctime r) (ri_mtime r) (ri_atime_nsec r) (ri_ctime_nsec r) (ri_mtime_nsec r) (ri_generation r) (ri_current_depth r) (ri_xattr_nid r) (ri_flags r) (ri_pino r) (ri_namelen r) (ri_name r) (ri_dir_level r) (ri_ext r) (ri_addr r) (ri_nid r).
Definition set_ri_ctime (x : Z) (r : f2fs_inode) : f2fs_inode :=
  mk_raw (ri_mode r) (ri_advise r) (ri_inline r) (ri_uid r) (ri_gid r) (ri_links r) (ri_size r) (ri_blocks r) (ri_atime r) x (ri_mtime r) (ri_atime_nsec r) (ri_ctime_nsec r) (ri_mtime_nsec r) (ri_generation r) (ri_current_depth r) (ri_xattr_nid r) (ri_flags r) (ri_pino r) (ri_namelen r) (ri_name r) (ri_dir_level r) (ri_ext r) (ri_addr r) (ri_nid r).
Definition set_ri_mtime (x : Z) (r : f2fs_inode) : f2fs_inode :=
  mk_raw (ri_mode r) (ri_advise r) (ri_inline r) (ri_uid r) (ri_gid r) (ri_links r) (ri_size r) (ri_blocks r) (ri_atime r) (ri_ctime r) x (ri_atime_nsec r) (ri_ctime_nsec r) (ri_mtime_nsec r) (ri_generation r) (ri_current_depth r) (ri_xattr_nid r) (ri_flags r) (ri_pino r) (ri_namelen r) (ri_name r) (ri_dir_level r) (ri_ext r) (ri_addr r) (ri_nid r).
Definition set_ri_atime_nsec (x : Z) (r : f2fs_inode) : f2fs_inode :=
  mk_raw (ri_mode r) (ri_advise r) (ri_inline r) (ri_uid r) (ri_gid r) (ri_links r) (ri_size r) (ri_blocks r) (ri_atime r) (ri_ctime r) (ri_mtime r) x (ri_ctime_nsec r) (ri_mtime_nsec r) (ri_generation r) (ri_current_depth r) (ri_xattr_nid r) (ri_flags r) (ri_pino r) (ri_namelen r) (ri_name r) (ri_dir_level r) (ri_ext r) (ri_addr r) (ri_nid r).
Definition set_ri_ctime_nsec (x : Z) (r : f2fs_inode) : f2fs_inode :=
  mk_raw (ri_mode r) (ri_advise r) (ri_inline r) (ri_uid r) (ri_gid r) (ri_links r) (ri_size r) (ri_blocks r) (ri_atime r) (ri_ctime r) (ri_mtime r) (ri_atime_nsec r) x (ri_mtime_nsec r) (ri_generation r) (ri_current_depth r) (ri_xattr_nid r) (ri_flags r) (ri_pino r) (ri_namelen r) (ri_name r) (ri_dir_level r) (ri_ext r) (ri_addr r) (ri_nid r).
Definition set_ri_mtime_nsec (x : Z) (r : f2fs_inode) : f2fs_inode :=
  mk_raw (ri_mode r) (ri_advise r) (ri_inline r) (ri_uid r) (ri_gid r) (ri_links r) (ri_size r) (ri_blocks r) (ri_atime r) (ri_ctime r) (ri_mtime r) (ri_atime_nsec r) (ri_ctime_nsec r) x (ri_generation r) (ri_current_depth r) (ri_xattr_nid r) (ri_flags r) (ri_pino r) (ri_namelen r) (ri_name r) (ri_dir_level r) (ri_ext r) (ri_addr r) (ri_nid r).
Definition set_ri_generation (x : Z) (r : f2fs_inode) : f2fs_inode :=
  mk_raw (ri_mode r) (ri_advise r) (ri_inline r) (ri_uid r) (ri_gid r) (ri_links r) (ri_size r) (ri_blocks r) (ri_atime r) (ri_ctime r) (ri_mtime r) (ri_atime_nsec r) (ri_ctime_nsec r) (ri_mtime_nsec r) x (ri_current_depth r) (ri_xattr_nid r) (ri_flags r) (ri_pino r) (ri_namelen r) (ri_name r) (ri_dir_level r) (ri_ext r) (ri_addr r) (ri_nid r).
Definition set_ri_current_depth (x : Z) (r : f2fs_inode) : f2fs_inode :=
  mk_raw (ri_mode r) (ri_advise r) (ri_inline r) (ri_uid r) (ri_gid r) (ri_links r) (ri_size r) (ri_blocks r) (ri_atime r) (ri_ctime r) (ri_mtime r) (ri_atime_nsec r) (ri_ctime_nsec r) (ri_mtime_nsec r) (ri_generation r) x (ri_xattr_nid r) (ri_flags r) (ri_pino r) (ri_namelen r) (ri_name r) (ri_dir_level r) (ri_ext r) (ri_addr r) (ri_nid r).
Definition set_ri_xattr_nid (x : Z) (r : f2fs_inode) : f2fs_inode :=
  mk_raw (ri_mode r) (ri_advise r) (ri_inline r) (ri_uid r) (ri_gid r) (ri_links r) (ri_size r) (ri_blocks r) (ri_atime r) (ri_ctime r) (ri_mtime r) (ri_atime_nsec r) (ri_ctime_nsec r) (ri_mtime_nsec r) (ri_generation r) (ri_current_depth r) x (ri_flags r) (ri_pino r) (ri_namelen r) (ri_name r) (ri_dir_level r) (ri_ext r) (ri_addr r) (ri_nid r).
Definition set_ri_flags (x : Z) (r : f2fs_inode) : f2fs_inode :=
  mk_raw (ri_mode r) (ri_advise r) (ri_inline r) (ri_uid r) (ri_gid r) (ri_links r) (ri_size r) (ri_blocks r) (ri_atime r) (ri_ctime r) (ri_mtime r) (ri_atime_nsec r) (ri_ctime_nsec r) (ri_mtime_nsec r) (ri_generation r) (ri_current_depth r) (ri_xattr_nid r) x (ri_pino r) (ri_namelen r) (ri_name r) (ri_dir_level r) (ri_ext r) (ri_addr r) (ri_nid r).
Definition set_ri_pino (x : Z) (r : f2fs_inode) : f2fs_inode :=
  mk_raw (ri_mode r) (ri_advise r) (ri_inline r) (ri_uid r) (ri_gid r) (ri_links r) (ri_size r) (ri_blocks r) (ri_atime r) (ri_ctime r) (ri_mtime r) (ri_atime_nsec r) (ri_ctime_nsec r) (ri_mtime_nsec r) (ri_generation r) (ri_current_depth r) (ri_xattr_nid r) (ri_flags r) x (ri_namelen r) (ri_name r) (ri_dir_level r) (ri_ext r) (ri_addr r) (ri_nid r).
Definition set_ri_namelen (x : Z) (r : f2fs_inode) : f2fs_inode :=
  mk_raw (ri_mode r) (ri_advise r) (ri_inline r) (ri_uid r) (ri_gid r) (ri_links r) (ri_size r) (ri_blocks r) (ri_atime r) (ri_ctime r) (ri_mtime r) (ri_atime_nsec r) (ri_ctime_nsec r) (ri_mtime_nsec r) (ri_generation r) (ri_current_depth r) (ri_xattr_nid r) (ri_flags r) (ri_pino r) x (ri_name r) (ri_dir_level r) (ri_ext r) (ri_addr r) (ri_nid r).
Definition set_ri_name (x : list Z) (r : f2fs_inode) : f2fs_inode :=
  mk_raw (ri_mode r) (ri_advise r) (ri_inline r) (ri_uid r) (ri_gid r) (ri_links r) (ri_size r) (ri_blocks r) (ri_atime r) (ri_ctime r) (ri_mtime r) (ri_atime_nsec r) (ri_ctime_nsec r) (ri_mtime_nsec r) (ri_generation r) (ri_current_depth r) (ri_xattr_nid r) (ri_flags r) (ri_pino r) (ri_namelen r) x (ri_dir_level r) (ri_ext r) (ri_addr r) (ri_nid r).
Definition set_ri_dir_level (x : Z) (r : f2fs_inode) : f2fs_inode :=
  mk_raw (ri_mode r) (ri_advise r) (ri_inline r) (ri_uid r) (ri_gid r) (ri_links r) (ri_size r) (ri_blocks r) (ri_atime r) (ri_ctime r) (ri_mtime r) (ri_atime_nsec r) (ri_ctime_nsec r) (ri_mtime_nsec r) (ri_generation r) (ri_current_depth r) (ri_xattr_nid r) (ri_flags r) (ri_pino r) (ri_namelen r) (ri_name r) x (ri_ext r) (ri_addr r) (ri_nid r).
Definition set_ri_ext (x : (Z * Z * Z)%type) (r : f2fs_inode) : f2fs_inode :=
  mk_raw (ri_mode r) (ri_advise r) (ri_inline r) (ri_uid r) (ri_gid r) (ri_links r) (ri_size r) (ri_blocks r) (ri_atime r) (ri_ctime r) (ri_mtime r) (ri_atime_nsec r) (ri_ctime_nsec r) (ri_mtime_nsec r) (ri_generation r) (ri_current_depth r) (ri_xattr_nid r) (ri_flags r) (ri_pino r) (ri_namelen r) (ri_name r) (ri_dir_level r) x (ri_addr r) (ri_nid r).
Definition set_ri_addr (x : list Z) (r : f2fs_inode) : f2fs_inode :=
  mk_raw (ri_mode r) (ri_advise r) (ri_inline r) (ri_uid r) (ri_gid r) (ri_links r) (ri_size r) (ri_blocks r) (ri_atime r) (ri_ctime r) (ri_mtime r) (ri_atime_nsec r) (ri_ctime_nsec r) (ri_mtime_nsec r) (ri_generation r) (ri_current_depth r) (ri_xattr_nid r) (ri_flags r) (ri_pino r) (ri_namelen r) (ri_name r) (ri_dir_level r) (ri_ext r) x (ri_nid r).
Definition set_ri_nid (x : list Z) (r : f2fs_inode) : f2fs_inode :=
  mk_raw (ri_mode r) (ri_advise r) (ri_inline r) (ri_uid r) (ri_gid r) (ri_links r) (ri_size r) (ri_blocks r) (ri_atime r) (ri_ctime r) (ri_mtime r) (ri_atime_nsec r) (ri_ctime_nsec r) (ri_mtime_nsec r) (ri_generation r) (ri_current_depth r) (ri_xattr_nid r) (ri_flags r) (ri_pino r) (ri_namelen r) (ri_name r) (ri_dir_level r) (ri_ext r) (ri_addr r) x.

(** [enum] of f2fs_inode_info->flags (f2fs.h). *)
Definition FI_NEW_INODE : Z := 0.
Definition FI_DIRTY_INODE : Z := 1.
Definition FI_AUTO_RECOVER : Z := 2.
Definition FI_ACL_MODE : Z := 5.
Definition FI_NO_EXTENT : Z := 8.
Definition FI_INLINE_XATTR : Z := 9.
Definition FI_INLINE_DATA : Z := 10.
Definition FI_INLINE_DENTRY : Z := 11.
Definition FI_FIRST_BLOCK_WRITTEN : Z := 18.
Definition FI_DATA_EXIST : Z := 20.
Definition FI_INLINE_DOTS : Z := 21.
Definition FI_EXTRA_ATTR : Z := 26.
Definition FI_PROJ_INHERIT : Z := 27.
Definition FI_PIN_FILE : Z := 28.

(** File type bits of [i_mode] (linux/stat.h). *)
Definition S_IFMT : Z := 0xf000.
Definition is_ifmt (t m : Z) : bool := (m .& S_IFMT) =? t.
Definition S_ISLNK (m : Z) : bool := is_ifmt 0xa000 m.
Definition S_ISREG (m : Z) : bool := is_ifmt 0x8000 m.
Definition S_ISDIR (m : Z) : bool := is_ifmt 0x4000 m.
Definition S_ISCHR (m : Z) : bool := is_ifmt 0x2000 m.
Definition S_ISBLK (m : Z) : bool := is_ifmt 0x6000 m.
Definition S_ISFIFO (m : Z) : bool := is_ifmt 0x1000 m.
Definition S_ISSOCK (m : Z) : bool := is_ifmt 0xc000 m.

(** On-disk inline flags and features (f2fs_fs.h, f2fs.h). *)
Definition F2FS_INLINE_XATTR : Z := 0x01.
Definition F2FS_INLINE_DATA : Z := 0x02.
Definition F2FS_INLINE_DENTRY : Z := 0x04.
Definition F2FS_DATA_EXIST : Z := 0x08.
Definition F2FS_INLINE_DOTS : Z := 0x10.
Definition F2FS_EXTRA_ATTR : Z := 0x20.
Definition F2FS_PIN_FILE : Z := 0x40.

Definition F2FS_FEATURE_PRJQUOTA : Z := 0x0010.
Definition F2FS_FEATURE_INODE_CHKSUM : Z := 0x0020.
Definition F2FS_FEATURE_FLEXIBLE_INLINE_XATTR : Z := 0x0040.
Definition F2FS_FEATURE_INODE_CRTIME : Z := 0x0100.

Definition DEF_ADDRS_PER_INODE : Z := 923.
Definition DEF_NIDS_PER_INODE : Z := 5.
Definition ADDRS_PER_BLOCK : Z := 1018.
Definition NIDS_PER_BLOCK : Z := 1018.
Definition DEFAULT_INLINE_XATTR_ADDRS : Z := 50.
Definition DEF_INLINE_RESERVED_SIZE : Z := 1.
Definition FS_PROJINHERIT_FL : Z := 0x20000000.

(** ** Flags *)

Definition is_inode_flag_set (i : inode) (flag : Z) : bool := Z.testbit (flags i) flag.

(** [inline_xattr_size] counts 4-byte units, [i_extra_isize] bytes. *)
Definition get_extra_isize (i : inode) : Z := s32 (u64 (i_extra_isize i) / 4).
Definition get_inline_xattr_addrs (i : inode) : Z := i_inline_xattr_size i.
Definition CUR_ADDRS_PER_INODE (i : inode) : Z := DEF_ADDRS_PER_INODE - get_extra_isize i.
Definition addrs_per_inode (i : inode) : Z :=
  u32 (CUR_ADDRS_PER_INODE i - get_inline_xattr_addrs i).
Definition MAX_INLINE_DATA (i : inode) : Z :=
  u64 (4 * (CUR_ADDRS_PER_INODE i - get_inline_xattr_addrs i - DEF_INLINE_RESERVED_SIZE)).

Definition f2fs_has_extra_attr (i : inode) : bool := is_inode_flag_set i FI_EXTRA_ATTR.
Definition f2fs_has_inline_xattr (i : inode) : bool := is_inode_flag_set i FI_INLINE_XATTR.
Definition f2fs_has_inline_data (i : inode) : bool := is_inode_flag_set i FI_INLINE_DATA.
Definition f2fs_has_inline_dentry (i : inode) : bool := is_inode_flag_set i FI_INLINE_DENTRY.
Definition f2fs_exist_data (i : inode) : bool := is_inode_flag_set i FI_DATA_EXIST.

Lemma get_extra_isize_small i :
  0 <= i_extra_isize i < 2 ^ 31 -> get_extra_isize i = i_extra_isize i / 4.
Proof. intros H. unfold get_extra_isize. rewrite u64_small, s32_small by zdiv. done. Qed.

(** ** Dirty tracking (inode.c, super.c, f2fs.h) *)

(** One inode with the parts of [f2fs_sb_info] its dirtying touches: the dirty
    meta inode list (as inode numbers, oldest first), its page counter, the
    [s_flag] bits, the dirty-inode statistic, and the VFS dirty state. *)
Record dirty_ctx := mk_dirty {
  dc_inode : inode;
  dc_list : list Z;        (* sbi->inode_list[DIRTY_META] *)
  dc_nr_imeta : Z;         (* sbi->nr_pages[F2FS_DIRTY_IMETA] *)
  dc_s_flag : Z;           (* sbi->s_flag *)
  dc_ndirty : Z;           (* sbi->ndirty_inode[DIRTY_META] *)
  dc_vfs_dirty : bool      (* mark_inode_dirty_sync was called *)
}.

Definition SBI_IS_DIRTY : Z := 0.

Definition with_inode (f : inode -> inode) (s : dirty_ctx) : dirty_ctx :=
  mk_dirty (f (dc_inode s)) (dc_list s) (dc_nr_imeta s) (dc_s_flag s) (dc_ndirty s) (dc_vfs_dirty s).

Definition set_flag_bit (flag : Z) (i : inode) : inode := set_flags (Z.setbit (flags i) flag) i.
Definition clear_flag_bit (flag : Z) (i : inode) : inode := set_flags (Z.clearbit (flags i) flag) i.

(** [inc_page_count(sbi, F2FS_DIRTY_IMETA)] and its inverse. *)
Definition inc_imeta (s : dirty_ctx) : dirty_ctx :=
  mk_dirty (dc_inode s) (dc_list s) (dc_nr_imeta s + 1) (Z.setbit (dc_s_flag s) SBI_IS_DIRTY)
    (dc_ndirty s) (dc_vfs_dirty s).
Definition dec_imeta (s : dirty_ctx) : dirty_ctx :=
  mk_dirty (dc_inode s) (dc_list s) (dc_nr_imeta s - 1) (dc_s_flag s) (dc_ndirty s) (dc_vfs_dirty s).

Definition add_ndirty (d : Z) (s : dirty_ctx) : dirty_ctx :=
  mk_dirty (dc_inode s) (dc_list s) (dc_nr_imeta s) (dc_s_flag s) (u32 (dc_ndirty s + d)) (dc_vfs_dirty s).

Definition link_gdirty (s : dirty_ctx) : dirty_ctx :=
  mk_dirty (set_gdirty true (dc_inode s)) (dc_list s ++ [i_ino (dc_inode s)]) (dc_nr_imeta s)
    (dc_s_flag s) (dc_ndirty s) (dc_vfs_dirty s).
Definition unlink_gdirty (s : dirty_ctx) : dirty_ctx :=
  mk_dirty (set_gdirty false (dc_inode s)) (filter (fun n => n <> i_ino (dc_inode s)) (dc_list s))
    (dc_nr_imeta s) (dc_s_flag s) (dc_ndirty s) (dc_vfs_dirty s).

(** The [set_inode_flag(inode, FI_DIRTY_INODE)] inside sets the bit only:
    [__mark_inode_dirty_flag] ignores that flag ([set_dirty_flag_only]). *)
Definition f2fs_inode_dirtied (sync : bool) (s : dirty_ctx) : bool * dirty_ctx :=
  let '(ret, s) :=
    if is_inode_flag_set (dc_inode s) FI_DIRTY_INODE then (true, s)
    else (false, add_ndirty 1 (with_inode (set_flag_bit FI_DIRTY_INODE) s)) in
  let s := if sync && negb (gdirty (dc_inode s)) then inc_imeta (link_gdirty s) else s in
  (ret, s).

Definition f2fs_inode_synced (s : dirty_ctx) : dirty_ctx :=
  if negb (is_inode_flag_set (dc_inode s) FI_DIRTY_INODE) then s
  else
    let s := if gdirty (dc_inode s) then dec_imeta (unlink_gdirty s) else s in
    let s := with_inode (clear_flag_bit FI_DIRTY_INODE) s in
    let s := with_inode (clear_flag_bit FI_AUTO_RECOVER) s in
    add_ndirty (-1) s.

(** The node and meta inode numbers; [sanity_check_raw_super] admits no other. *)
Definition F2FS_NODE_INO : Z := 1.
Definition F2FS_META_INO : Z := 2.

(** The [dirty_inode] handler; [time_only] is [flags == I_DIRTY_TIME].  Its
    [clear_inode_flag] clears the bit only ([clear_auto_recover_only]). *)
Definition f2fs_dirty_inode (time_only : bool) (s : dirty_ctx) : dirty_ctx :=
  if (i_ino (dc_inode s) =? F2FS_NODE_INO) || (i_ino (dc_inode s) =? F2FS_META_INO) then s
  else if time_only then s
  else
    let s := if is_inode_flag_set (dc_inode s) FI_AUTO_RECOVER
             then with_inode (clear_flag_bit FI_AUTO_RECOVER) s else s in
    (f2fs_inode_dirtied false s).2.

(** [mark_inode_dirty_sync] (linux/fs.h) marks the inode dirty for the VFS and
    calls the [dirty_inode] handler of the file system. *)
Definition mark_inode_dirty_sync (s : dirty_ctx) : dirty_ctx :=
  let s := f2fs_dirty_inode false s in
  mk_dirty (dc_inode s) (dc_list s) (dc_nr_imeta s) (dc_s_flag s) (dc_ndirty s) true.

Definition f2fs_mark_inode_dirty_sync (sync : bool) (s : dirty_ctx) : dirty_ctx :=
  if is_inode_flag_set (dc_inode s) FI_NEW_INODE then s
  else
    let '(ret, s) := f2fs_inode_dirtied sync s in
    if ret then s else mark_inode_dirty_sync s.

(** The [switch], with its fall-through. *)
Definition __mark_inode_dirty_flag (flag : Z) (set : bool) (s : dirty_ctx) : dirty_ctx :=
  if (flag =? FI_INLINE_XATTR) || (flag =? FI_INLINE_DATA) || (flag =? FI_INLINE_DENTRY)
     || (flag =? FI_NEW_INODE)
  then if set then s else f2fs_mark_inode_dirty_sync true s
  else if (flag =? FI_DATA_EXIST) || (flag =? FI_INLINE_DOTS) || (flag =? FI_PIN_FILE)
  then f2fs_mark_inode_dirty_sync true s
  else s.

Definition set_inode_flag (flag : Z) (s : dirty_ctx) : dirty_ctx :=
  let s := if negb (is_inode_flag_set (dc_inode s) flag) then with_inode (set_flag_bit flag) s else s in
  __mark_inode_dirty_flag flag true s.

Definition clear_inode_flag (flag : Z) (s : dirty_ctx) : dirty_ctx :=
  let s := if is_inode_flag_set (dc_inode s) flag then with_inode (clear_flag_bit flag) s else s in
  __mark_inode_dirty_flag flag false s.

Definition set_acl_inode (mode : Z) (s : dirty_ctx) : dirty_ctx :=
  let s := with_inode (set_i_acl_mode mode) s in
  let s := set_inode_flag FI_ACL_MODE s in
  f2fs_mark_inode_dirty_sync false s.

Definition get_inode_mode (i : inode) : Z :=
  if is_inode_flag_set i FI_ACL_MODE then i_acl_mode i else i_mode i.

Definition f2fs_i_size_write (size : Z) (s : dirty_ctx) : dirty_ctx :=
  let clean := negb (is_inode_flag_set (dc_inode s) FI_DIRTY_INODE) in
  let recover := is_inode_flag_set (dc_inode s) FI_AUTO_RECOVER in
  if i_size (dc_inode s) =? size then s
  else
    let s := with_inode (set_i_size size) s in
    let s := f2fs_mark_inode_dirty_sync true s in
    if clean || recover then set_inode_flag FI_AUTO_RECOVER s else s.

(** [inc_nlink] and [drop_nlink] (linux/fs.h) count the unsigned [i_nlink]. *)
Definition f2fs_i_links_write (inc : bool) (s : dirty_ctx) : dirty_ctx :=
  f2fs_mark_inode_dirty_sync true
    (with_inode (fun i => set_i_nlink (u32 (i_nlink i + (if inc then 1 else -1))) i) s).

Definition f2fs_i_depth_write (depth : Z) (s : dirty_ctx) : dirty_ctx :=
  f2fs_mark_inode_dirty_sync true (with_inode (set_i_current_depth depth) s).

(** [i_gc_failures] is the low half of the union with [i_current_depth]. *)
Definition i_gc_failures (i : inode) : Z := i_current_depth i mod 2 ^ 16.
Definition f2fs_i_gc_failures_write (count : Z) (s : dirty_ctx) : dirty_ctx :=
  f2fs_mark_inode_dirty_sync true
    (with_inode (fun i => set_i_current_depth
                   (i_current_depth i - i_current_depth i mod 2 ^ 16 + u16 count) i) s).

Definition f2fs_i_xnid_write (xnid : Z) (s : dirty_ctx) : dirty_ctx :=
  f2fs_mark_inode_dirty_sync true (with_inode (set_i_xattr_nid xnid) s).
Definition f2fs_i_pino_write (pino : Z) (s : dirty_ctx) : dirty_ctx :=
  f2fs_mark_inode_dirty_sync true (with_inode (set_i_pino pino) s).

Definition is_file (i : inode) (type : Z) : Z := i_advise i .& type.
Definition set_file (type : Z) (s : dirty_ctx) : dirty_ctx :=
  f2fs_mark_inode_dirty_sync true (with_inode (fun i => set_i_advise (u8 (i_advise i .| type)) i) s).
Definition clear_file (type : Z) (s : dirty_ctx) : dirty_ctx :=
  f2fs_mark_inode_dirty_sync true
    (with_inode (fun i => set_i_advise (u8 (i_advise i .& Z.lnot type)) i) s).

Definition FADVISE_KEEP_SIZE_BIT : Z := 0x10.
Definition PAGE_MASK : Z := - 4096.

(** [gdirty_list] is read under the lock when [dsync]. *)
Definition f2fs_skip_inode_update (i : inode) (dsync : bool) : bool :=
  if dsync then negb (gdirty i)
  else if negb (is_inode_flag_set i FI_AUTO_RECOVER) || c_true (is_file i FADVISE_KEEP_SIZE_BIT)
          || c_true (i_size i .& PAGE_MASK)
  then false
  else last_disk_size i =? i_size i.

(** The quota layer (linux/quotaops.h), called with a number of blocks. *)
Class QuotaOps := {
  dquot_reserve_block : Z -> dirty_ctx -> Z * dirty_ctx;
  dquot_release_reservation_block : Z -> dirty_ctx -> dirty_ctx;
  dquot_claim_block : Z -> dirty_ctx -> dirty_ctx;
  dquot_alloc_block_nofail : Z -> dirty_ctx -> dirty_ctx;
  dquot_free_block : Z -> dirty_ctx -> dirty_ctx
}.

Definition add_reserved (n : Z) (i : inode) : inode :=
  set_i_reserved_quota (i_reserved_quota i + 4096 * n) i.
Definition add_blocks (n : Z) (i : inode) : inode := set_i_blocks (i_blocks i + 8 * n) i.

(** What f2fs relies on: a reservation that succeeds is accounted to the
    inode, one that fails changes nothing; a claim turns reserved blocks into
    blocks of the inode; claims and frees mark the inode dirty. *)
Class QuotaLaws `{QuotaOps} : Prop := {
  reserve_ok n s : (dquot_reserve_block n s).1 = 0 ->
    (dquot_reserve_block n s).2 = with_inode (add_reserved n) s;
  reserve_err n s : (dquot_reserve_block n s).1 <> 0 -> (dquot_reserve_block n s).2 = s;
  release_eq n s : dquot_release_reservation_block n s = with_inode (add_reserved (- n)) s;
  claim_eq n s : dquot_claim_block n s =
    mark_inode_dirty_sync (with_inode (fun i => add_blocks n (add_reserved (- n) i)) s);
  alloc_eq n s : dquot_alloc_block_nofail n s = mark_inode_dirty_sync (with_inode (add_blocks n) s);
  free_eq n s : dquot_free_block n s = mark_inode_dirty_sync (with_inode (add_blocks (- n)) s)
}.

Section quota.
Context `{QuotaOps}.

Definition f2fs_i_blocks_write (diff : Z) (add claim : bool) (s : dirty_ctx) : dirty_ctx :=
  let clean := negb (is_inode_flag_set (dc_inode s) FI_DIRTY_INODE) in
  let recover := is_inode_flag_set (dc_inode s) FI_AUTO_RECOVER in
  let s :=
    if add then
      if claim then dquot_claim_block diff s else dquot_alloc_block_nofail diff s
    else dquot_free_block diff s in
  let s := f2fs_mark_inode_dirty_sync true s in
  if clean || recover then set_inode_flag FI_AUTO_RECOVER s else s.
End quota.

(** ** The on-disk form (inode.c, f2fs.h) *)

(** The extra attributes overlay the first words of [i_addr]. *)
Definition ri_word (ri : f2fs_inode) (k : Z) : Z := zget 0 (ri_addr ri) k.
Definition set_ri_word (k v : Z) (ri : f2fs_inode) : f2fs_inode :=
  set_ri_addr (zset (ri_addr ri) k v) ri.

Definition ri_extra_isize (ri : f2fs_inode) : Z := ri_word ri 0 mod 2 ^ 16.
Definition ri_inline_xattr_size (ri : f2fs_inode) : Z := ri_word ri 0 / 2 ^ 16.
Definition ri_projid (ri : f2fs_inode) : Z := ri_word ri 1.
Definition ri_inode_checksum (ri : f2fs_inode) : Z := ri_word ri 2.
Definition ri_crtime (ri : f2fs_inode) : Z := ri_word ri 3 + 2 ^ 32 * ri_word ri 4.
Definition ri_crtime_nsec (ri : f2fs_inode) : Z := ri_word ri 5.

Definition set_ri_extra_isize (v : Z) (ri : f2fs_inode) : f2fs_inode :=
  set_ri_word 0 (ri_inline_xattr_size ri * 2 ^ 16 + u16 v) ri.
Definition set_ri_inline_xattr_size (v : Z) (ri : f2fs_inode) : f2fs_inode :=
  set_ri_word 0 (u16 v * 2 ^ 16 + ri_extra_isize ri) ri.
Definition set_ri_projid (v : Z) (ri : f2fs_inode) : f2fs_inode := set_ri_word 1 (u32 v) ri.
Definition set_ri_crtime (v : Z) (ri : f2fs_inode) : f2fs_inode :=
  set_ri_word 4 (u64 v / 2 ^ 32) (set_ri_word 3 (u64 v mod 2 ^ 32) ri).
Definition set_ri_crtime_nsec (v : Z) (ri : f2fs_inode) : f2fs_inode := set_ri_word 5 (u32 v) ri.

(** [F2FS_FITS_IN_INODE] for a field that ends at byte [field_end] of the
    extra attributes. *)
Definition F2FS_FITS_IN_INODE (extra_isize field_end : Z) : bool := field_end <=? extra_isize.
Definition projid_end : Z := 8.
Definition checksum_end : Z := 12.
Definition crtime_end : Z := 20.

Definition F2FS_HAS_FEATURE (features mask : Z) : bool := c_true (features .& mask).

(** [if (ri->i_inline & disk) set_bit(bit, &fi->flags);] *)
Definition get_inline_bit (ri : f2fs_inode) (disk bit : Z) (i : inode) : inode :=
  if c_true (ri_inline ri .& disk) then set_flag_bit bit i else i.

Definition get_inline_info (ri : f2fs_inode) (i : inode) : inode :=
  let i := get_inline_bit ri F2FS_INLINE_XATTR FI_INLINE_XATTR i in
  let i := get_inline_bit ri F2FS_INLINE_DATA FI_INLINE_DATA i in
  let i := get_inline_bit ri F2FS_INLINE_DENTRY FI_INLINE_DENTRY i in
  let i := get_inline_bit ri F2FS_DATA_EXIST FI_DATA_EXIST i in
  let i := get_inline_bit ri F2FS_INLINE_DOTS FI_INLINE_DOTS i in
  let i := get_inline_bit ri F2FS_EXTRA_ATTR FI_EXTRA_ATTR i in
  get_inline_bit ri F2FS_PIN_FILE FI_PIN_FILE i.

(** [if (is_inode_flag_set(inode, bit)) ri->i_inline |= disk;] *)
Definition set_raw_bit (i : inode) (bit disk : Z) (ri : f2fs_inode) : f2fs_inode :=
  if is_inode_flag_set i bit then set_ri_inline (ri_inline ri .| disk) ri else ri.

Definition set_raw_inline (i : inode) (ri : f2fs_inode) : f2fs_inode :=
  let ri := set_ri_inline 0 ri in
  let ri := set_raw_bit i FI_INLINE_XATTR F2FS_INLINE_XATTR ri in
  let ri := set_raw_bit i FI_INLINE_DATA F2FS_INLINE_DATA ri in
  let ri := set_raw_bit i FI_INLINE_DENTRY F2FS_INLINE_DENTRY ri in
  let ri := set_raw_bit i FI_DATA_EXIST F2FS_DATA_EXIST ri in
  let ri := set_raw_bit i FI_INLINE_DOTS F2FS_INLINE_DOTS ri in
  let ri := set_raw_bit i FI_EXTRA_ATTR F2FS_EXTRA_ATTR ri in
  set_raw_bit i FI_PIN_FILE F2FS_PIN_FILE ri.

Definition offset_in_addr (ri : f2fs_inode) : Z :=
  if c_true (ri_inline ri .& F2FS_EXTRA_ATTR) then ri_extra_isize ri / 4 else 0.

Definition __written_first_block (ri : f2fs_inode) : bool :=
  let addr := ri_word ri (offset_in_addr ri) in
  negb (addr =? NEW_ADDR) && negb (addr =? NULL_ADDR).

(** [while (start < end) if ( *start++ ) ...] over the inline data words. *)
Fixpoint any_word (l : list Z) (start : Z) (n : nat) : bool :=
  match n with
  | O => false
  | S n' => if c_true (zget 0 l start) then true else any_word l (start + 1) n'
  end.

Definition inline_data_start (i : inode) : Z := get_extra_isize i + DEF_INLINE_RESERVED_SIZE.

(** The inode and raw inode after the scan; [dirty] tells [set_page_dirty]. *)
Definition __recover_inline_status (s : dirty_ctx) (ri : f2fs_inode) : dirty_ctx * f2fs_inode * bool :=
  let i := dc_inode s in
  if any_word (ri_addr ri) (inline_data_start i) (Z.to_nat (MAX_INLINE_DATA i / 4)) then
    let s := set_inode_flag FI_DATA_EXIST s in
    (s, set_raw_inline (dc_inode s) ri, true)
  else (s, ri, false).

Definition SECTOR_FROM_BLOCK (b : Z) : Z := u64 (Z.shiftl b 3).
Definition SECTOR_TO_BLOCK (s : Z) : Z := Z.shiftr s 3.

Section codec.
(** Device number encodings of linux/kdev_t.h. *)
Context (old_valid_dev : Z -> bool).
Context (old_encode_dev new_encode_dev old_decode_dev new_decode_dev : Z -> Z).
(** The features of the superblock. *)
Context (features : Z).

Definition __get_inode_rdev (ri : f2fs_inode) (i : inode) : inode :=
  let extra_size := get_extra_isize i in
  if S_ISCHR (i_mode i) || S_ISBLK (i_mode i) || S_ISFIFO (i_mode i) || S_ISSOCK (i_mode i) then
    if c_true (ri_word ri extra_size)
    then set_i_rdev (old_decode_dev (ri_word ri extra_size)) i
    else set_i_rdev (new_decode_dev (ri_word ri (extra_size + 1))) i
  else i.

Definition __set_inode_rdev (i : inode) (ri : f2fs_inode) : f2fs_inode :=
  let extra_size := get_extra_isize i in
  if S_ISCHR (i_mode i) || S_ISBLK (i_mode i) then
    if old_valid_dev (i_rdev i) then
      set_ri_word (extra_size + 1) 0 (set_ri_word extra_size (u32 (old_encode_dev (i_rdev i))) ri)
    else
      set_ri_word (extra_size + 2) 0
        (set_ri_word (extra_size + 1) (u32 (new_encode_dev (i_rdev i)))
           (set_ri_word extra_size 0 ri))
  else ri.

(** The extra attributes of [update_inode]. *)
Definition update_inode_extra (i : inode) (ri : f2fs_inode) : f2fs_inode :=
  if f2fs_has_extra_attr i then
    let ri := set_ri_extra_isize (i_extra_isize i) ri in
    let ri := if F2FS_HAS_FEATURE features F2FS_FEATURE_FLEXIBLE_INLINE_XATTR
              then set_ri_inline_xattr_size (i_inline_xattr_size i) ri else ri in
    let ri := if F2FS_HAS_FEATURE features F2FS_FEATURE_PRJQUOTA
                 && F2FS_FITS_IN_INODE (i_extra_isize i) projid_end
              then set_ri_projid (i_projid i) ri else ri in
    if F2FS_HAS_FEATURE features F2FS_FEATURE_INODE_CRTIME
       && F2FS_FITS_IN_INODE (i_extra_isize i) crtime_end
    then set_ri_crtime_nsec (i_crtime_nsec i) (set_ri_crtime (i_crtime_sec i) ri)
    else ri
  else ri.

(** What [update_inode] writes to the raw inode; [et] is the extent tree's
    largest extent, if the inode has a tree. *)
Definition update_raw_inode (et : option (Z * Z * Z)) (i : inode) (ri : f2fs_inode) : f2fs_inode :=
  let ri := set_ri_mode (u16 (i_mode i)) ri in
  let ri := set_ri_advise (i_advise i) ri in
  let ri := set_ri_uid (u32 (i_uid i)) ri in
  let ri := set_ri_gid (u32 (i_gid i)) ri in
  let ri := set_ri_links (u32 (i_nlink i)) ri in
  let ri := set_ri_size (u64 (i_size i)) ri in
  let ri := set_ri_blocks (u64 (SECTOR_TO_BLOCK (i_blocks i) + 1)) ri in
  let ri := match et with
            | Some largest => set_ri_ext largest ri
            | None => set_ri_ext (0, 0, 0) ri
            end in
  let ri := set_raw_inline i ri in
  let ri := set_ri_atime (u64 (i_atime_sec i)) ri in
  let ri := set_ri_ctime (u64 (i_ctime_sec i)) ri in
  let ri := set_ri_mtime (u64 (i_mtime_sec i)) ri in
  let ri := set_ri_atime_nsec (u32 (i_atime_nsec i)) ri in
  let ri := set_ri_ctime_nsec (u32 (i_ctime_nsec i)) ri in
  let ri := set_ri_mtime_nsec (u32 (i_mtime_nsec i)) ri in
  let ri := set_ri_current_depth (u32 (i_current_depth i)) ri in
  let ri := set_ri_xattr_nid (u32 (i_xattr_nid i)) ri in
  let ri := set_ri_flags (u32 (i_flags i)) ri in
  let ri := set_ri_pino (u32 (i_pino i)) ri in
  let ri := set_ri_generation (u32 (i_generation i)) ri in
  let ri := set_ri_dir_level (i_dir_level i) ri in
  let ri := update_inode_extra i ri in
  __set_inode_rdev i ri.

(** The node page of an inode: the raw inode, [footer.flag], and the page's
    dirty bit and PageChecked, the mark of an inode with inline data to write
    ([is_inline_node]). *)
Record inode_page := mk_ipage {
  ip_raw : f2fs_inode;
  ip_flag : Z;
  ip_checked : bool;
  ip_dirty : bool
}.

Definition COLD_BIT_SHIFT : Z := 0.
Definition set_cold_node (i : inode) (p : inode_page) : inode_page :=
  let flag := if S_ISDIR (i_mode i) then ip_flag p .& Z.lnot (Z.shiftl 1 COLD_BIT_SHIFT)
              else ip_flag p .| Z.shiftl 1 COLD_BIT_SHIFT in
  mk_ipage (ip_raw p) flag (ip_checked p) (ip_dirty p).
Definition clear_inline_node (p : inode_page) : inode_page :=
  mk_ipage (ip_raw p) (ip_flag p) false (ip_dirty p).

Definition update_inode (et : option (Z * Z * Z)) (s : dirty_ctx) (p : inode_page) : dirty_ctx * inode_page :=
  let p := mk_ipage (ip_raw p) (ip_flag p) (ip_checked p) true in
  let s := f2fs_inode_synced s in
  let i := dc_inode s in
  let p := mk_ipage (update_raw_inode et i (ip_raw p)) (ip_flag p) (ip_checked p) (ip_dirty p) in
  let p := set_cold_node i p in
  (s, if i_nlink i =? 0 then clear_inline_node p else p).

(** The plain fields; a loff_t and the seconds of a time are signed. *)
Definition read_raw_fields (ri : f2fs_inode) (i : inode) : inode :=
  let i := set_i_mode (ri_mode ri) i in
  let i := set_i_uid (ri_uid ri) i in
  let i := set_i_gid (ri_gid ri) i in
  let i := set_i_nlink (ri_links ri) i in
  let i := set_i_size (s64 (ri_size ri)) i in
  let i := set_i_blocks (SECTOR_FROM_BLOCK (u64 (ri_blocks ri - 1))) i in
  let i := set_i_atime_sec (s64 (ri_atime ri)) i in
  let i := set_i_ctime_sec (s64 (ri_ctime ri)) i in
  let i := set_i_mtime_sec (s64 (ri_mtime ri)) i in
  let i := set_i_atime_nsec (ri_atime_nsec ri) i in
  let i := set_i_ctime_nsec (ri_ctime_nsec ri) i in
  let i := set_i_mtime_nsec (ri_mtime_nsec ri) i in
  let i := set_i_generation (ri_generation ri) i in
  let i := set_i_current_depth (ri_current_depth ri) i in
  let i := set_i_xattr_nid (ri_xattr_nid ri) i in
  let i := set_i_flags (ri_flags ri) i in
  let i := set_flags 0 i in
  let i := set_i_advise (ri_advise ri) i in
  let i := set_i_pino (ri_pino ri) i in
  set_i_dir_level (ri_dir_level ri) i.

(** The sizes of the extra attributes and of the inline xattr space. *)
Definition read_layout_sizes (ri : f2fs_inode) (i : inode) : inode :=
  let i := set_i_extra_isize (if f2fs_has_extra_attr i then ri_extra_isize ri else 0) i in
  set_i_inline_xattr_size
    (if F2FS_HAS_FEATURE features F2FS_FEATURE_FLEXIBLE_INLINE_XATTR
     then ri_inline_xattr_size ri
     else if f2fs_has_inline_xattr i || f2fs_has_inline_dentry i
     then DEFAULT_INLINE_XATTR_ADDRS else 0) i.

Definition read_extra_fields (ri : f2fs_inode) (i : inode) : inode :=
  let i := set_i_projid
             (if f2fs_has_extra_attr i && F2FS_HAS_FEATURE features F2FS_FEATURE_PRJQUOTA
                 && F2FS_FITS_IN_INODE (i_extra_isize i) projid_end
              then ri_projid ri else 0) i in
  if f2fs_has_extra_attr i && F2FS_HAS_FEATURE features F2FS_FEATURE_INODE_CRTIME
     && F2FS_FITS_IN_INODE (i_extra_isize i) crtime_end
  then set_i_crtime_nsec (ri_crtime_nsec ri) (set_i_crtime_sec (s64 (ri_crtime ri)) i)
  else i.

(** [do_read_inode]: [nid_ok] is [!check_nid_range], [page] the result of
    [get_node_page], [iblk_update] that of [need_inode_block_update]; the last
    result is whether the [f2fs_bug_on] fires.  The extent tree is set up by
    [Extent.f2fs_init_extent_tree]. *)
Definition do_read_inode (nid_ok : bool) (page : Z + f2fs_inode) (iblk_update : bool)
    (s : dirty_ctx) : Z * dirty_ctx * option f2fs_inode * bool :=
  if negb nid_ok then (- EINVAL, s, None, false)
  else match page with
  | inl err => (err, s, None, false)
  | inr ri =>
    let s := with_inode (read_raw_fields ri) s in
    let s := with_inode (get_inline_info ri) s in
    let bug := F2FS_HAS_FEATURE features F2FS_FEATURE_FLEXIBLE_INLINE_XATTR
               && negb (f2fs_has_extra_attr (dc_inode s)) in
    let s := with_inode (read_layout_sizes ri) s in
    let '(s, ri) :=
      if f2fs_has_inline_data (dc_inode s) && negb (f2fs_exist_data (dc_inode s))
      then (__recover_inline_status s ri).1 else (s, ri) in
    let s := with_inode (__get_inode_rdev ri) s in
    let s := if __written_first_block ri then set_inode_flag FI_FIRST_BLOCK_WRITTEN s else s in
    let s := if negb iblk_update
             then with_inode (fun i => set_last_disk_size (i_size i) i) s else s in
    let s := if c_true (i_flags (dc_inode s) .& FS_PROJINHERIT_FL)
             then set_inode_flag FI_PROJ_INHERIT s else s in
    (0, with_inode (read_extra_fields ri) s, Some ri, bug)
  end.
End codec.

Definition f2fs_enable_inode_chksum (features : Z) (is_inode : bool) (ri : f2fs_inode) : bool :=
  let extra_isize := ri_extra_isize ri in
  if negb (F2FS_HAS_FEATURE features F2FS_FEATURE_INODE_CHKSUM) then false
  else if negb is_inode || negb (c_true (ri_inline ri .& F2FS_EXTRA_ATTR)) then false
  else if negb (F2FS_FITS_IN_INODE extra_isize checksum_end) then false
  else true.

(** [f2fs_set_inode_flags]: the FS_xxx_FL bits and the S_xxx bits. *)
Definition FS_SYNC_FL : Z := 0x8.
Definition FS_IMMUTABLE_FL : Z := 0x10.
Definition FS_APPEND_FL : Z := 0x20.
Definition FS_NOATIME_FL : Z := 0x80.
Definition FS_DIRSYNC_FL : Z := 0x10000.
Definition S_SYNC : Z := 1.
Definition S_NOATIME : Z := 2.
Definition S_APPEND : Z := 4.
Definition S_IMMUTABLE : Z := 8.
Definition S_DIRSYNC : Z := 64.
Definition S_ENCRYPTED : Z := 16384.
Definition FADVISE_ENCRYPT_BIT : Z := 0x04.

Definition f2fs_set_inode_flags (i : inode) : inode :=
  let fl := u32 (i_flags i) in
  let pick m s := if c_true (fl .& m) then s else 0 in
  let new_fl := pick FS_SYNC_FL S_SYNC .| pick FS_APPEND_FL S_APPEND
                .| pick FS_IMMUTABLE_FL S_IMMUTABLE .| pick FS_NOATIME_FL S_NOATIME
                .| pick FS_DIRSYNC_FL S_DIRSYNC
                .| (if c_true (is_file i FADVISE_ENCRYPT_BIT) then S_ENCRYPTED else 0) in
  let mask := S_SYNC .| S_APPEND .| S_IMMUTABLE .| S_NOATIME .| S_DIRSYNC .| S_ENCRYPTED in
  set_i_state_flags ((i_state_flags i .& Z.lnot mask) .| new_fl) i.

(** ** Lemmas: dirty tracking *)

#[global] Arguments is_inode_flag_set : simpl never.
#[global] Arguments set_flag_bit : simpl never.
#[global] Arguments clear_flag_bit : simpl never.

(** The dirty inode list and the inode agree. *)
Definition dirty_wf (s : dirty_ctx) : Prop :=
  (gdirty (dc_inode s) = true <-> i_ino (dc_inode s) ∈ dc_list s) /\
  NoDup (dc_list s) /\ dc_nr_imeta s = zlen (dc_list s) /\
  (gdirty (dc_inode s) = true -> is_inode_flag_set (dc_inode s) FI_DIRTY_INODE = true).

(** An update of the inode that dirty tracking does not see. *)
Definition keeps_dirty (f : inode -> inode) : Prop :=
  forall i, i_ino (f i) = i_ino i /\ gdirty (f i) = gdirty i /\
    is_inode_flag_set (f i) FI_DIRTY_INODE = is_inode_flag_set i FI_DIRTY_INODE.

Lemma with_inode_wf f s : keeps_dirty f -> dirty_wf s -> dirty_wf (with_inode f s).
Proof.
  intros Hf (H1 & H2 & H3 & H4). destruct (Hf (dc_inode s)) as (E1 & E2 & E3).
  unfold dirty_wf. simpl. rewrite E1, E2, E3. done.
Qed.

Lemma flag_setbit i f g : 0 <= g ->
  is_inode_flag_set (set_flag_bit g i) f = (f =? g) || is_inode_flag_set i f.
Proof.
  intros Hg. unfold is_inode_flag_set, set_flag_bit. cbn [flags set_flags].
  rewrite Z.setbit_eqb by done. by rewrite Z.eqb_sym.
Qed.

Lemma flag_clearbit i f g :
  is_inode_flag_set (clear_flag_bit g i) f = is_inode_flag_set i f && negb (f =? g).
Proof.
  unfold is_inode_flag_set, clear_flag_bit. cbn [flags set_flags].
  rewrite Z.clearbit_eqb. by rewrite Z.eqb_sym.
Qed.

Lemma flag_gdirty b i f : is_inode_flag_set (set_gdirty b i) f = is_inode_flag_set i f.
Proof. done. Qed.

Lemma keeps_set_flag f : 0 <= f -> f <> FI_DIRTY_INODE -> keeps_dirty (set_flag_bit f).
Proof.
  intros Hf Hn i. rewrite flag_setbit by done. rewrite (proj2 (Z.eqb_neq _ _)) by done. done.
Qed.

Lemma keeps_clear_flag f : f <> FI_DIRTY_INODE -> keeps_dirty (clear_flag_bit f).
Proof.
  intros Hn i. rewrite flag_clearbit, (proj2 (Z.eqb_neq _ _)) by done. by rewrite andb_true_r.
Qed.

Lemma inode_dirtied_wf sync s :
  dirty_wf s -> dirty_wf (f2fs_inode_dirtied sync s).2 /\
  is_inode_flag_set (dc_inode (f2fs_inode_dirtied sync s).2) FI_DIRTY_INODE = true /\
  (sync = true -> gdirty (dc_inode (f2fs_inode_dirtied sync s).2) = true).
Proof.
  intros Hwf. unfold f2fs_inode_dirtied.
  assert (Hs : exists s' ret, (if is_inode_flag_set (dc_inode s) FI_DIRTY_INODE then (true, s)
     else (false, add_ndirty 1 (with_inode (set_flag_bit FI_DIRTY_INODE) s))) = (ret, s') /\
     dirty_wf s' /\ is_inode_flag_set (dc_inode s') FI_DIRTY_INODE = true).
  { case_if; do 2 eexists; (split; [reflexivity|]); [done|].
    destruct Hwf as (H1 & H2 & H3 & H4). unfold dirty_wf. simpl.
    rewrite flag_setbit by done. done. }
  destruct Hs as (s' & ret & -> & (H1 & H2 & H3 & H4) & Hd). simpl.
  destruct sync, (gdirty (dc_inode s')) eqn:Hg; simpl;
    try (split; [by unfold dirty_wf; rewrite Hg|by rewrite ?Hg]).
  split; [|done]. unfold dirty_wf. simpl. split_and!; [|..|done].
  - split; [|done]. intros _. apply elem_of_app. right. by apply list_elem_of_singleton.
  - apply NoDup_app. split; [done|]. split; [|apply NoDup_singleton].
    intros x Hx Hx'. apply list_elem_of_singleton in Hx' as ->. by apply H1 in Hx.
  - unfold zlen in *. rewrite length_app. simpl. lia.
Qed.

Lemma filter_out_one (x : Z) l :
  NoDup l -> x ∈ l -> zlen (filter (fun n => n <> x) l) = zlen l - 1.
Proof.
  intros Hnd Hx. unfold zlen. induction Hnd as [|y l Hy Hnd IH]; [by apply elem_of_nil in Hx|].
  rewrite filter_cons. destruct (decide (y <> x)) as [Hyx|Hyx].
  - apply elem_of_cons in Hx as [->|Hx]; [done|]. simpl. specialize (IH Hx). lia.
  - destruct (decide (y = x)) as [->|]; [|done]. simpl.
    assert (filter (fun n => n <> x) l = l) as ->; [|lia].
    clear -Hy. induction l as [|z l IH]; [done|]. rewrite filter_cons.
    rewrite decide_True by (intros ->; apply Hy; left). f_equal. apply IH.
    intros Hx. apply Hy. by right.
Qed.

Lemma inode_synced_wf s : dirty_wf s -> dirty_wf (f2fs_inode_synced s).
Proof.
  intros (H1 & H2 & H3 & H4). unfold f2fs_inode_synced. case_if; [done|].
  destruct (gdirty (dc_inode s)) eqn:Hg; unfold dirty_wf; simpl.
  - split_and!.
    + split; [done|]. intros Hin. apply list_elem_of_filter in Hin as [Hin _]. done.
    + by apply NoDup_filter.
    + rewrite filter_out_one by (done || by apply H1). lia.
    + done.
  - rewrite Hg. split_and!; done.
Qed.

Lemma dirty_inode_wf t s : dirty_wf s -> dirty_wf (f2fs_dirty_inode t s).
Proof.
  intros Hwf. unfold f2fs_dirty_inode. repeat case_if; try done; apply inode_dirtied_wf; [|done].
  apply with_inode_wf; [by apply keeps_clear_flag|done].
Qed.

Lemma mark_dirty_wf sync s : dirty_wf s -> dirty_wf (f2fs_mark_inode_dirty_sync sync s).
Proof.
  intros Hwf. unfold f2fs_mark_inode_dirty_sync. case_if; [done|].
  pose proof (inode_dirtied_wf sync s Hwf) as (H & _).
  destruct (f2fs_inode_dirtied sync s) as [[] s']; simpl in *; [done|].
  apply (dirty_inode_wf false) in H. exact H.
Qed.

Lemma mark_flag_wf flag b s : dirty_wf s -> dirty_wf (__mark_inode_dirty_flag flag b s).
Proof.
  intros Hwf. unfold __mark_inode_dirty_flag. repeat case_if; auto using mark_dirty_wf.
Qed.

Lemma set_inode_flag_wf flag s :
  0 <= flag -> flag <> FI_DIRTY_INODE -> dirty_wf s -> dirty_wf (set_inode_flag flag s).
Proof.
  intros H0 Hn Hwf. unfold set_inode_flag. apply mark_flag_wf. case_if; [|done].
  apply with_inode_wf; [by apply keeps_set_flag|done].
Qed.

Lemma clear_inode_flag_wf flag s :
  flag <> FI_DIRTY_INODE -> dirty_wf s -> dirty_wf (clear_inode_flag flag s).
Proof.
  intros Hn Hwf. unfold clear_inode_flag. apply mark_flag_wf. case_if; [|done].
  apply with_inode_wf; [by apply keeps_clear_flag|done].
Qed.

(** [__mark_inode_dirty_flag] ignores FI_DIRTY_INODE, so the recursion of
    [f2fs_inode_dirtied] through [set_inode_flag] stops at once. *)
Lemma set_dirty_flag_only s :
  is_inode_flag_set (dc_inode s) FI_DIRTY_INODE = false ->
  set_inode_flag FI_DIRTY_INODE s = with_inode (set_flag_bit FI_DIRTY_INODE) s.
Proof. intros H. unfold set_inode_flag. by rewrite H. Qed.

Lemma clear_auto_recover_only s :
  is_inode_flag_set (dc_inode s) FI_AUTO_RECOVER = true ->
  clear_inode_flag FI_AUTO_RECOVER s = with_inode (clear_flag_bit FI_AUTO_RECOVER) s.
Proof. intros H. unfold clear_inode_flag. by rewrite H. Qed.

#[export] Hint Resolve mark_dirty_wf inode_synced_wf set_inode_flag_wf clear_inode_flag_wf
  with_inode_wf : dirty.

(** A block count change keeps the dirty state consistent, whatever quota
    implementation is behind it. *)
Lemma vfs_mark_dirty_wf s : dirty_wf s -> dirty_wf (mark_inode_dirty_sync s).
Proof. intros Hwf. exact (dirty_inode_wf false s Hwf). Qed.

Lemma keeps_add_reserved n : keeps_dirty (add_reserved n).
Proof. by intros i. Qed.
Lemma keeps_add_blocks n : keeps_dirty (add_blocks n).
Proof. by intros i. Qed.

Lemma i_blocks_write_wf `{QuotaLaws} diff add claim s :
  dirty_wf s -> dirty_wf (f2fs_i_blocks_write diff add claim s).
Proof.
  intros Hwf. unfold f2fs_i_blocks_write. rewrite claim_eq, alloc_eq, free_eq. cbv zeta.
  assert (Hm : dirty_wf (f2fs_mark_inode_dirty_sync true
    (if add then if claim
       then mark_inode_dirty_sync (with_inode (fun i => add_blocks diff (add_reserved (- diff) i)) s)
       else mark_inode_dirty_sync (with_inode (add_blocks diff) s)
     else mark_inode_dirty_sync (with_inode (add_blocks (- diff)) s)))).
  { apply mark_dirty_wf. repeat case_if; apply vfs_mark_dirty_wf, with_inode_wf; done. }
  case_if; [|done]. by apply set_inode_flag_wf.
Qed.

(** The dirty tracking changes the FI flags and the list link of an inode,
    and nothing else of it. *)
Definition only_state (i j : inode) : Prop := exists f g, j = set_flags f (set_gdirty g i).

#[global] Instance only_state_preorder : PreOrder only_state.
Proof.
  split.
  - intros i. exists (flags i), (gdirty i). by destruct i.
  - intros i j k (f & g & ->) (f' & g' & ->). by exists f', g'.
Qed.

Lemma only_state_eq {A} (get : inode -> A) i j :
  (forall f g i, get (set_flags f (set_gdirty g i)) = get i) -> only_state i j -> get j = get i.
Proof. intros H (f & g & ->). apply H. Qed.

Lemma only_state_flags f i : only_state i (set_flags f i).
Proof. exists f, (gdirty i). by destruct i. Qed.

Lemma dirtied_only_state sync s :
  only_state (dc_inode s) (dc_inode (f2fs_inode_dirtied sync s).2).
Proof.
  unfold f2fs_inode_dirtied. destruct (is_inode_flag_set (dc_inode s) FI_DIRTY_INODE); simpl;
    case_if; simpl; try apply only_state_flags; try reflexivity.
  - exists (flags (dc_inode s)), true. by destruct (dc_inode s).
  - exists (Z.setbit (flags (dc_inode s)) FI_DIRTY_INODE), true. by destruct (dc_inode s).
Qed.

Lemma vfs_mark_only_state s : only_state (dc_inode s) (dc_inode (mark_inode_dirty_sync s)).
Proof.
  unfold mark_inode_dirty_sync, f2fs_dirty_inode. cbn [dc_inode]. repeat case_if; try reflexivity;
    (etrans; [|apply dirtied_only_state]); try apply only_state_flags; reflexivity.
Qed.

Lemma mark_only_state sync s :
  only_state (dc_inode s) (dc_inode (f2fs_mark_inode_dirty_sync sync s)).
Proof.
  unfold f2fs_mark_inode_dirty_sync. case_if; [reflexivity|].
  pose proof (dirtied_only_state sync s) as Hd.
  destruct (f2fs_inode_dirtied sync s) as [[] s']; simpl in *; [done|].
  etrans; [exact Hd|apply vfs_mark_only_state].
Qed.

Lemma set_flag_only_state f s : only_state (dc_inode s) (dc_inode (set_inode_flag f s)).
Proof.
  unfold set_inode_flag, __mark_inode_dirty_flag.
  assert (only_state (dc_inode s) (dc_inode
    (if negb (is_inode_flag_set (dc_inode s) f) then with_inode (set_flag_bit f) s else s)))
    by (case_if; [apply only_state_flags|reflexivity]).
  repeat case_if; try done; (etrans; [done|apply mark_only_state]).
Qed.

(** The blocks and the reservation after a block count change. *)
Lemma i_blocks_write_blocks `{QuotaLaws} diff add claim s :
  i_blocks (dc_inode (f2fs_i_blocks_write diff add claim s)) =
    i_blocks (dc_inode s) + 8 * (if add then diff else - diff) /\
  i_reserved_quota (dc_inode (f2fs_i_blocks_write diff add claim s)) =
    i_reserved_quota (dc_inode s) - (if add && claim then 4096 * diff else 0).
Proof.
  unfold f2fs_i_blocks_write. rewrite claim_eq, alloc_eq, free_eq. cbv zeta.
  match goal with |- context [f2fs_mark_inode_dirty_sync true ?x] => set (s1 := x) end.
  set (s2 := if _ || _ then _ else _).
  assert (H12 : only_state (dc_inode s1) (dc_inode s2)).
  { unfold s2. case_if; [|apply mark_only_state].
    etrans; [apply mark_only_state|apply set_flag_only_state]. }
  rewrite (only_state_eq i_blocks _ _ ltac:(done) H12).
  rewrite (only_state_eq i_reserved_quota _ _ ltac:(done) H12). clear H12 s2.
  unfold s1. repeat case_if;
    rewrite !(only_state_eq i_blocks _ _ ltac:(done) (vfs_mark_only_state _)),
      !(only_state_eq i_reserved_quota _ _ ltac:(done) (vfs_mark_only_state _));
    cbn -[Z.mul]; lia.
Qed.

(** ** Properties of dirty tracking *)

(** The operations of the file system on the dirty state of an inode. *)
Inductive dirty_op :=
  | OpSetFlag (flag : Z) | OpClearFlag (flag : Z) | OpDirty (sync : bool)
  | OpVfsDirty (time_only : bool) | OpSynced | OpSize (size : Z) | OpDepth (depth : Z)
  | OpGcFailures (count : Z) | OpXnid (nid : Z) | OpPino (pino : Z)
  | OpSetFile (type : Z) | OpClearFile (type : Z) | OpAcl (mode : Z)
  | OpLinks (inc : bool).

Definition dirty_step (s : dirty_ctx) (op : dirty_op) : dirty_ctx :=
  match op with
  | OpSetFlag f => set_inode_flag f s
  | OpClearFlag f => clear_inode_flag f s
  | OpDirty sync => f2fs_mark_inode_dirty_sync sync s
  | OpVfsDirty t => f2fs_dirty_inode t s
  | OpSynced => f2fs_inode_synced s
  | OpSize n => f2fs_i_size_write n s
  | OpDepth d => f2fs_i_depth_write d s
  | OpGcFailures n => f2fs_i_gc_failures_write n s
  | OpXnid n => f2fs_i_xnid_write n s
  | OpPino n => f2fs_i_pino_write n s
  | OpSetFile t => set_file t s
  | OpClearFile t => clear_file t s
  | OpAcl m => set_acl_inode m s
  | OpLinks inc => f2fs_i_links_write inc s
  end.

(** The dirty flag itself is changed by the dirty tracking only. *)
Definition dirty_op_ok (op : dirty_op) : Prop :=
  match op with
  | OpSetFlag f | OpClearFlag f => 0 <= f /\ f <> FI_DIRTY_INODE
  | _ => True
  end.

Lemma keeps_dirty_plain (f : inode -> inode) :
  (forall i, i_ino (f i) = i_ino i /\ gdirty (f i) = gdirty i /\ flags (f i) = flags i) ->
  keeps_dirty f.
Proof.
  intros H i. destruct (H i) as (-> & -> & Hf). unfold is_inode_flag_set. by rewrite Hf.
Qed.

Lemma dirty_step_wf s op : dirty_op_ok op -> dirty_wf s -> dirty_wf (dirty_step s op).
Proof.
  intros Hok Hwf. destruct op; simpl in *; try destruct Hok;
    auto using mark_dirty_wf, inode_synced_wf, set_inode_flag_wf, clear_inode_flag_wf, dirty_inode_wf.
  2-7: apply mark_dirty_wf, with_inode_wf; [by apply keeps_dirty_plain|done].
  - unfold f2fs_i_size_write. case_if; [done|].
    assert (dirty_wf (f2fs_mark_inode_dirty_sync true (with_inode (set_i_size size) s)))
      by (apply mark_dirty_wf, with_inode_wf; [by apply keeps_dirty_plain|done]).
    case_if; [|done]. by apply set_inode_flag_wf.
  - apply mark_dirty_wf, set_inode_flag_wf; [done..|].
    apply with_inode_wf; [by apply keeps_dirty_plain|done].
  - apply mark_dirty_wf, with_inode_wf; [by apply keeps_dirty_plain|done].
Qed.

Lemma dirty_run_wf ops s :
  Forall dirty_op_ok ops -> dirty_wf s -> dirty_wf (foldl dirty_step s ops).
Proof.
  revert s. induction ops as [|op ops IH]; intros s Hok Hwf; [done|].
  apply Forall_cons in Hok as [? ?]. apply IH; [done|]. by apply dirty_step_wf.
Qed.

(** C25. Whatever the file system does to an inode, the dirty meta list stays
    consistent: the inode is linked exactly if its number is on the list, once,
    the page counter is the length of the list, a linked inode is flagged
    dirty; [f2fs_skip_inode_update] for fdatasync tells whether it is on the
    list, and after [f2fs_inode_synced] it is not. *)
Theorem dirty_tracking_consistent ops s :
  Forall dirty_op_ok ops -> dirty_wf s ->
  let s' := foldl dirty_step s ops in
  dirty_wf s' /\
  f2fs_skip_inode_update (dc_inode s') true = bool_decide (i_ino (dc_inode s') ∉ dc_list s') /\
  i_ino (dc_inode (f2fs_inode_synced s')) ∉ dc_list (f2fs_inode_synced s').
Proof.
  intros Hok Hwf. cbv zeta. pose proof (dirty_run_wf ops s Hok Hwf) as Hwf'.
  generalize dependent (foldl dirty_step s ops). intros s' Hwf'. split; [done|].
  pose proof (inode_synced_wf s' Hwf') as (S1 & _ & _ & S4). destruct Hwf' as (H1 & _ & _ & H4).
  split.
  - simpl. destruct (gdirty (dc_inode s')) eqn:Hg; symmetry.
    + apply bool_decide_eq_false. intros Hn. by apply Hn, H1.
    + apply bool_decide_eq_true. intros Hn. by apply H1 in Hn.
  - intros Hn. apply S1 in Hn. revert Hn. unfold f2fs_inode_synced.
    case_if; [|destruct (gdirty (dc_inode s')) eqn:Hg; simpl; [done|by rewrite Hg]].
    intros Hg. rewrite H4 in E by done. done.
Qed.

Lemma dirty_tracking_consistent_witness :
  let i := mk_inode 7 0x81a4 0 0 1 100 8 0 0 0 0 0 0 0 0 0 0 0 0 0 3 0 0 0 0 0 0 0 0 0 false 0 in
  let s := mk_dirty i [5] 1 0 0 false in
  dc_list (foldl dirty_step s [OpSize 200; OpSetFlag FI_DATA_EXIST; OpXnid 9]) = [5; 7] /\
  dirty_wf (foldl dirty_step s [OpSize 200; OpSetFlag FI_DATA_EXIST; OpXnid 9]).
Proof.
  intros i s. split; [vm_compute; reflexivity|].
  apply (dirty_tracking_consistent [OpSize 200; OpSetFlag FI_DATA_EXIST; OpXnid 9] s).
  - repeat (apply Forall_cons; split; [simpl; unfold FI_DATA_EXIST, FI_DIRTY_INODE; try split; done|]).
    apply Forall_nil. done.
  - split_and!; try done.
    + split; [done|]. simpl. intros H. apply list_elem_of_singleton in H. done.
    + apply NoDup_singleton.
Defined.

(** What marking a non-new inode dirty does to its fields and flags. *)
Lemma mark_dirty_effect s :
  is_inode_flag_set (dc_inode s) FI_NEW_INODE = false ->
  let s' := f2fs_mark_inode_dirty_sync true s in
  i_size (dc_inode s') = i_size (dc_inode s) /\
  last_disk_size (dc_inode s') = last_disk_size (dc_inode s) /\
  i_advise (dc_inode s') = i_advise (dc_inode s) /\
  gdirty (dc_inode s') = true /\
  is_inode_flag_set (dc_inode s') FI_DIRTY_INODE = true.
Proof.
  intros Hnew. cbv zeta. unfold f2fs_mark_inode_dirty_sync. rewrite Hnew.
  unfold f2fs_inode_dirtied. destruct (is_inode_flag_set (dc_inode s) FI_DIRTY_INODE) eqn:Hd.
  - simpl. destruct (gdirty (dc_inode s)) eqn:Hg; simpl; split_and!; try done.
  - simpl. destruct (gdirty (dc_inode s)) eqn:Hg; simpl;
      unfold mark_inode_dirty_sync, f2fs_dirty_inode, f2fs_inode_dirtied; cbn [dc_inode negb];
      repeat case_if; simpl; split_and!; try done;
      rewrite ?flag_gdirty, ?flag_setbit by done; done.
Qed.

(** [f2fs_i_size_write] of a new size to an inode that is not being created
    sets the size, flags the inode dirty and links it to the dirty list; and
    when the inode was clean, or its only changes since the last write-back
    were recoverable ones, it is flagged FI_AUTO_RECOVER. *)
Theorem size_write_effect size s :
  is_inode_flag_set (dc_inode s) FI_NEW_INODE = false -> i_size (dc_inode s) <> size ->
  let i' := dc_inode (f2fs_i_size_write size s) in
  i_size i' = size /\ is_inode_flag_set i' FI_DIRTY_INODE = true /\ gdirty i' = true /\
  last_disk_size i' = last_disk_size (dc_inode s) /\
  (negb (is_inode_flag_set (dc_inode s) FI_DIRTY_INODE) ||
   is_inode_flag_set (dc_inode s) FI_AUTO_RECOVER = true ->
     is_inode_flag_set i' FI_AUTO_RECOVER = true).
Proof.
  intros Hnew Hsz. cbv zeta. unfold f2fs_i_size_write. rewrite (proj2 (Z.eqb_neq _ _) Hsz).
  pose proof (mark_dirty_effect (with_inode (set_i_size size) s) Hnew) as (E1 & E2 & _ & E4 & E5).
  cbv zeta in *. revert E1 E2 E4 E5.
  generalize (f2fs_mark_inode_dirty_sync true (with_inode (set_i_size size) s)).
  intros s' E1 E2 E4 E5.
  destruct (negb (is_inode_flag_set (dc_inode s) FI_DIRTY_INODE) ||
            is_inode_flag_set (dc_inode s) FI_AUTO_RECOVER); [|by split_and!].
  unfold set_inode_flag. destruct (is_inode_flag_set (dc_inode s') FI_AUTO_RECOVER) eqn:Ha; simpl;
    [by split_and!|].
  split_and!; try done; by rewrite flag_setbit, ?Ha, ?E5.
Qed.

Lemma size_write_effect_witness :
  let i := mk_inode 7 0x81a4 0 0 1 100 8 0 0 0 0 0 0 0 0 0 0 0 0 0 3 0 0 0 0 0 0 0 0 0 false 0 in
  let s := mk_dirty i [] 0 0 0 false in
  let i' := dc_inode (f2fs_i_size_write 200 s) in
  i_size i' = 200 /\ is_inode_flag_set i' FI_DIRTY_INODE = true /\ gdirty i' = true /\
  last_disk_size i' = 0 /\ is_inode_flag_set i' FI_AUTO_RECOVER = true.
Proof.
  intros i s. destruct (size_write_effect 200 s) as (A & B & C & D & E); [done|done|].
  split_and!; [done..|]. apply E. reflexivity.
Defined.

Lemma land_page_mask x : 0 <= x -> c_true (x .& PAGE_MASK) = (4096 <=? x).
Proof.
  intros Hx. assert (x .& PAGE_MASK = x / 4096 * 4096) as ->.
  { change PAGE_MASK with (Z.lnot (Z.ones 12)). rewrite <- Z.ldiff_land, Z.ldiff_ones_r by lia.
    by rewrite Z.shiftr_div_pow2, Z.shiftl_mul_pow2 by lia. }
  destruct (4096 <=? x) eqn:E; zbool; [apply c_true_true|apply c_true_false]; zdiv.
Qed.

(** Without [dsync], [f2fs_skip_inode_update] skips the write-back of an
    auto-recoverable inode exactly when its size is below one page and equal to
    the size on disk: [i_size & PAGE_MASK] holds for every size of at least a
    page, so no larger file is ever skipped, aligned or not, although an
    unaligned small one is. *)
Theorem skip_inode_update_spec i :
  0 <= i_size i ->
  f2fs_skip_inode_update i false =
    is_inode_flag_set i FI_AUTO_RECOVER && negb (c_true (is_file i FADVISE_KEEP_SIZE_BIT))
    && (i_size i <? 4096) && (last_disk_size i =? i_size i).
Proof.
  intros Hs. unfold f2fs_skip_inode_update. cbv beta iota. rewrite land_page_mask by done.
  rewrite Z.ltb_antisym.
  destruct (is_inode_flag_set i FI_AUTO_RECOVER), (c_true (is_file i FADVISE_KEEP_SIZE_BIT)),
    (4096 <=? i_size i), (last_disk_size i =? i_size i); reflexivity.
Qed.

Lemma skip_inode_update_spec_witness :
  let i sz := mk_inode 7 0x81a4 0 0 1 sz 8 0 0 0 0 0 0 0 0 0 0 0 0 0 3 0 (2 ^ 2) 0 sz 0 0 0 0 0 false 0 in
  f2fs_skip_inode_update (i 8192) false = false /\ f2fs_skip_inode_update (i 100) false = true.
Proof.
  intros i. split; (rewrite (skip_inode_update_spec (i _)); [reflexivity|simpl; lia]).
Defined.

(** ** Lemmas: the codec *)

(** The inline byte of an inode. *)
Definition inline_byte (i : inode) : Z :=
  let b f d := if is_inode_flag_set i f then d else 0 in
  b FI_INLINE_XATTR F2FS_INLINE_XATTR .| b FI_INLINE_DATA F2FS_INLINE_DATA
  .| b FI_INLINE_DENTRY F2FS_INLINE_DENTRY .| b FI_DATA_EXIST F2FS_DATA_EXIST
  .| b FI_INLINE_DOTS F2FS_INLINE_DOTS .| b FI_EXTRA_ATTR F2FS_EXTRA_ATTR
  .| b FI_PIN_FILE F2FS_PIN_FILE.

Definition inline_pairs : list (Z * Z) :=
  [(FI_INLINE_XATTR, F2FS_INLINE_XATTR); (FI_INLINE_DATA, F2FS_INLINE_DATA);
   (FI_INLINE_DENTRY, F2FS_INLINE_DENTRY); (FI_DATA_EXIST, F2FS_DATA_EXIST);
   (FI_INLINE_DOTS, F2FS_INLINE_DOTS); (FI_EXTRA_ATTR, F2FS_EXTRA_ATTR);
   (FI_PIN_FILE, F2FS_PIN_FILE)].

Lemma in_pairs_extra : (FI_EXTRA_ATTR, F2FS_EXTRA_ATTR) ∈ inline_pairs.
Proof. unfold inline_pairs. rewrite !elem_of_cons. tauto. Qed.
Lemma in_pairs_xattr : (FI_INLINE_XATTR, F2FS_INLINE_XATTR) ∈ inline_pairs.
Proof. unfold inline_pairs. rewrite !elem_of_cons. tauto. Qed.
Lemma in_pairs_data : (FI_INLINE_DATA, F2FS_INLINE_DATA) ∈ inline_pairs.
Proof. unfold inline_pairs. rewrite !elem_of_cons. tauto. Qed.
Lemma in_pairs_dentry : (FI_INLINE_DENTRY, F2FS_INLINE_DENTRY) ∈ inline_pairs.
Proof. unfold inline_pairs. rewrite !elem_of_cons. tauto. Qed.
Lemma in_pairs_exist : (FI_DATA_EXIST, F2FS_DATA_EXIST) ∈ inline_pairs.
Proof. unfold inline_pairs. rewrite !elem_of_cons. tauto. Qed.

Lemma in_pairs_bound bit disk :
  (bit, disk) ∈ inline_pairs -> bit <> FI_FIRST_BLOCK_WRITTEN /\ bit <> FI_PROJ_INHERIT.
Proof.
  intros Hin. apply list_elem_of_In in Hin.
  repeat (destruct Hin as [Hin|Hin]; [injection Hin as <- <-; done|]). destruct Hin.
Qed.

Lemma set_raw_inline_eq i ri : set_raw_inline i ri = set_ri_inline (inline_byte i) ri.
Proof.
  unfold set_raw_inline, set_raw_bit, inline_byte. destruct ri.
  repeat match goal with
  | |- context [is_inode_flag_set i ?f] => destruct (is_inode_flag_set i f)
  end; reflexivity.
Qed.

(** Each persistent flag is one bit of the byte. *)
Lemma inline_byte_bit i bit disk :
  (bit, disk) ∈ inline_pairs -> c_true (inline_byte i .& disk) = is_inode_flag_set i bit.
Proof.
  intros Hin. unfold inline_byte, inline_pairs in *.
  repeat (apply elem_of_cons in Hin as [Hin|Hin]; [injection Hin as -> ->|]);
    try by apply elem_of_nil in Hin.
  all: repeat match goal with
  | |- context [is_inode_flag_set ?j ?f] => destruct (is_inode_flag_set j f)
  end; reflexivity.
Qed.

(** The flags [get_inline_info] sets on a fresh inode. *)
Definition inline_flags (x : Z) : Z :=
  let b f d := if c_true (x .& d) then 2 ^ f else 0 in
  b FI_INLINE_XATTR F2FS_INLINE_XATTR .| b FI_INLINE_DATA F2FS_INLINE_DATA
  .| b FI_INLINE_DENTRY F2FS_INLINE_DENTRY .| b FI_DATA_EXIST F2FS_DATA_EXIST
  .| b FI_INLINE_DOTS F2FS_INLINE_DOTS .| b FI_EXTRA_ATTR F2FS_EXTRA_ATTR
  .| b FI_PIN_FILE F2FS_PIN_FILE.

Lemma get_inline_info_eq ri i :
  flags i = 0 -> get_inline_info ri i = set_flags (inline_flags (ri_inline ri)) i.
Proof.
  intros H0. unfold get_inline_info, get_inline_bit, inline_flags. destruct i. simpl in H0. subst.
  repeat match goal with
  | |- context [c_true ?x] => destruct (c_true x)
  end; reflexivity.
Qed.

Lemma inline_flags_bit x bit disk :
  (bit, disk) ∈ inline_pairs -> Z.testbit (inline_flags x) bit = c_true (x .& disk).
Proof.
  intros Hin. unfold inline_flags, inline_pairs in *.
  repeat (apply elem_of_cons in Hin as [Hin|Hin]; [injection Hin as -> ->|]);
    try by apply elem_of_nil in Hin.
  all: repeat match goal with
  | |- context [c_true ?y] => destruct (c_true y)
  end; reflexivity.
Qed.

(** What an in-memory inode satisfies when it is written back: values in the
    range of their on-disk fields, the layout fields consistent with the flags
    (as [f2fs_new_inode] and [do_read_inode] set them). *)
Record inode_wf (features : Z) (i : inode) : Prop := {
  wf_mode : 0 <= i_mode i < 2 ^ 16;
  wf_u32 : Forall (fun x => 0 <= x < 2 ^ 32)
    [i_uid i; i_gid i; i_nlink i; i_atime_nsec i; i_ctime_nsec i; i_mtime_nsec i;
     i_generation i; i_current_depth i; i_xattr_nid i; i_flags i; i_pino i; i_projid i;
     i_crtime_nsec i; i_rdev i];
  wf_s64 : Forall (fun x => - 2 ^ 63 <= x < 2 ^ 63)
    [i_size i; i_atime_sec i; i_ctime_sec i; i_mtime_sec i; i_crtime_sec i];
  wf_blocks : 0 <= i_blocks i < 2 ^ 63 /\ i_blocks i mod 8 = 0;
  wf_extra : i_extra_isize i = if f2fs_has_extra_attr i then 24 else 0;
  wf_xattr : if F2FS_HAS_FEATURE features F2FS_FEATURE_FLEXIBLE_INLINE_XATTR
             then f2fs_has_extra_attr i = true /\ 0 <= i_inline_xattr_size i < 2 ^ 16
             else i_inline_xattr_size i =
                  if f2fs_has_inline_xattr i || f2fs_has_inline_dentry i then 50 else 0;
  wf_projid : f2fs_has_extra_attr i && F2FS_HAS_FEATURE features F2FS_FEATURE_PRJQUOTA = false ->
              i_projid i = 0;
  wf_data : f2fs_has_inline_data i = true -> f2fs_exist_data i = true
}.

(** The fields stored in every inode. *)
Definition plain_fields (i : inode) : list Z :=
  [i_mode i; i_uid i; i_gid i; i_nlink i; i_size i; i_blocks i; i_atime_sec i; i_ctime_sec i;
   i_mtime_sec i; i_atime_nsec i; i_ctime_nsec i; i_mtime_nsec i; i_generation i;
   i_current_depth i; i_xattr_nid i; i_flags i; i_advise i; i_pino i; i_dir_level i;
   i_extra_isize i; i_inline_xattr_size i].

Definition same_flags (i j : inode) : Prop :=
  forall bit disk, (bit, disk) ∈ inline_pairs -> is_inode_flag_set i bit = is_inode_flag_set j bit.

(** [j] has the persistent fields of [i]: the plain fields, the project id, the
    inline flags, for a device its number, and where the volume and the inode
    store it the creation time. *)
Definition is_device (i : inode) : bool := S_ISCHR (i_mode i) || S_ISBLK (i_mode i).
Record same_persistent (features : Z) (j i : inode) : Prop := {
  sp_plain : plain_fields j = plain_fields i;
  sp_projid : i_projid j = i_projid i;
  sp_flags : same_flags j i;
  sp_rdev : is_device i = true -> i_rdev j = i_rdev i;
  sp_crtime : f2fs_has_extra_attr i && F2FS_HAS_FEATURE features F2FS_FEATURE_INODE_CRTIME = true ->
              i_crtime_sec j = i_crtime_sec i /\ i_crtime_nsec j = i_crtime_nsec i
}.

(** [ri'] is [ri] up to the address array. *)
Definition only_addr (ri' ri : f2fs_inode) : Prop := ri' = set_ri_addr (ri_addr ri') ri.

Lemma only_addr_refl ri : only_addr ri ri.
Proof. by destruct ri. Qed.
Lemma only_addr_word k v ri' ri : only_addr ri' ri -> only_addr (set_ri_word k v ri') ri.
Proof. unfold only_addr, set_ri_word. intros ->. reflexivity. Qed.

Lemma s64_u64 x : - 2 ^ 63 <= x < 2 ^ 63 -> s64 (u64 x) = x.
Proof.
  intros Hx. unfold s64, u64. rewrite Zplus_mod_idemp_l, Z.mod_small by lia. lia.
Qed.

Section roundtrip.
Context (old_valid_dev : Z -> bool).
Context (old_encode_dev new_encode_dev old_decode_dev new_decode_dev : Z -> Z).
Context (features : Z).

Notation update_raw_inode := (update_raw_inode old_valid_dev old_encode_dev new_encode_dev features).
Notation update_inode := (update_inode old_valid_dev old_encode_dev new_encode_dev features).
Notation do_read_inode := (do_read_inode old_decode_dev new_decode_dev features).

(** What the encodings of device numbers promise (linux/kdev_t.h): what one
    writes the other reads, 0 in the first word being no number. *)
Hypothesis old_dev_ok : forall d, 0 <= d < 2 ^ 32 -> old_valid_dev d = true ->
  0 <= old_encode_dev d < 2 ^ 32 /\
  if old_encode_dev d =? 0 then new_decode_dev 0 = d else old_decode_dev (old_encode_dev d) = d.
Hypothesis new_dev_ok : forall d, 0 <= d < 2 ^ 32 ->
  0 <= new_encode_dev d < 2 ^ 32 /\ new_decode_dev (new_encode_dev d) = d.

Lemma only_addr_extra i ri' ri :
  only_addr ri' ri -> only_addr (update_inode_extra features i ri') ri.
Proof.
  intros H. unfold update_inode_extra. repeat case_if; repeat apply only_addr_word; done.
Qed.

Lemma only_addr_rdev i ri' ri :
  only_addr ri' ri ->
  only_addr (__set_inode_rdev old_valid_dev old_encode_dev new_encode_dev i ri') ri.
Proof.
  intros H. unfold __set_inode_rdev. cbv zeta. repeat case_if; repeat apply only_addr_word; done.
Qed.

(** Everything of the written inode but its address array. *)
Lemma update_inode_fields et i ri :
  update_raw_inode et i ri =
  mk_raw (u16 (i_mode i)) (i_advise i) (inline_byte i) (u32 (i_uid i)) (u32 (i_gid i))
    (u32 (i_nlink i)) (u64 (i_size i)) (u64 (SECTOR_TO_BLOCK (i_blocks i) + 1))
    (u64 (i_atime_sec i)) (u64 (i_ctime_sec i)) (u64 (i_mtime_sec i))
    (u32 (i_atime_nsec i)) (u32 (i_ctime_nsec i)) (u32 (i_mtime_nsec i))
    (u32 (i_generation i)) (u32 (i_current_depth i)) (u32 (i_xattr_nid i)) (u32 (i_flags i))
    (u32 (i_pino i)) (ri_namelen ri) (ri_name ri) (i_dir_level i)
    (default (0, 0, 0) et) (ri_addr (update_raw_inode et i ri)) (ri_nid ri).
Proof.
  unfold Inode.update_raw_inode at 1. cbv zeta.
  etrans; [apply only_addr_rdev, only_addr_extra, only_addr_refl|].
  rewrite set_raw_inline_eq. unfold Inode.update_raw_inode. rewrite set_raw_inline_eq.
  by destruct et.
Qed.
Lemma ri_word_set k v ri j :
  0 <= k < zlen (ri_addr ri) -> ri_word (set_ri_word k v ri) j = if k =? j then v else ri_word ri j.
Proof. intros Hk. unfold ri_word, set_ri_word. simpl. by apply zget_zset. Qed.

Lemma zlen_set_word k v ri : zlen (ri_addr (set_ri_word k v ri)) = zlen (ri_addr ri).
Proof. unfold set_ri_word. simpl. apply zlen_zset. Qed.

(** The device words lie behind the extra attributes. *)
Lemma ri_word_rdev i ri k :
  zlen (ri_addr ri) = DEF_ADDRS_PER_INODE -> 0 <= get_extra_isize i < 900 ->
  k < get_extra_isize i ->
  ri_word (__set_inode_rdev old_valid_dev old_encode_dev new_encode_dev i ri) k = ri_word ri k.
Proof.
  intros Hl He Hk. unfold DEF_ADDRS_PER_INODE in Hl. unfold __set_inode_rdev. cbv zeta.
  repeat case_if; rewrite ?ri_word_set by (rewrite ?zlen_set_word; lia);
    repeat (rewrite (proj2 (Z.eqb_neq _ _)) by lia); done.
Qed.

Lemma zlen_update_extra i ri : zlen (ri_addr (update_inode_extra features i ri)) = zlen (ri_addr ri).
Proof.
  unfold update_inode_extra. repeat case_if; cbv zeta;
    unfold set_ri_crtime_nsec, set_ri_crtime, set_ri_projid, set_ri_inline_xattr_size,
      set_ri_extra_isize; rewrite ?zlen_set_word; done.
Qed.

Lemma extra_isize_range i : inode_wf features i -> 0 <= get_extra_isize i < 900.
Proof.
  intros Hwf. pose proof (wf_extra _ _ Hwf) as He.
  rewrite get_extra_isize_small; rewrite He; destruct (f2fs_has_extra_attr i); zdiv.
Qed.

(** The device number is read back from the words written. *)
Lemma rdev_words i ri :
  zlen (ri_addr ri) = DEF_ADDRS_PER_INODE -> 0 <= get_extra_isize i < 900 ->
  0 <= i_rdev i < 2 ^ 32 -> is_device i = true ->
  let ri' := __set_inode_rdev old_valid_dev old_encode_dev new_encode_dev i ri in
  let e := get_extra_isize i in
  (if c_true (ri_word ri' e) then old_decode_dev (ri_word ri' e) else new_decode_dev (ri_word ri' (e + 1)))
  = i_rdev i.
Proof.
  intros Hl He Hr Hd. unfold DEF_ADDRS_PER_INODE in Hl. unfold is_device in Hd.
  cbv zeta. unfold __set_inode_rdev. rewrite Hd. destruct (old_valid_dev (i_rdev i)) eqn:Ev.
  - destruct (old_dev_ok _ Hr Ev) as [Hrange Hdec]. rewrite u32_small by done.
    rewrite !ri_word_set by (rewrite ?zlen_set_word; lia).
    rewrite (proj2 (Z.eqb_neq (_ + 1) _)), !Z.eqb_refl by lia.
    unfold c_true. destruct (old_encode_dev (i_rdev i) =? 0); exact Hdec.
  - destruct (new_dev_ok _ Hr) as [Hrange Hdec]. rewrite u32_small by done.
    rewrite !ri_word_set by (rewrite ?zlen_set_word; lia).
    rewrite (proj2 (Z.eqb_neq (_ + 2) _)), (proj2 (Z.eqb_neq (_ + 1) (get_extra_isize i))),
      (proj2 (Z.eqb_neq (_ + 2) (_ + 1))), !Z.eqb_refl by lia. exact Hdec.
Qed.

Lemma update_raw_rdev et i ri : exists ri0,
  update_raw_inode et i ri = __set_inode_rdev old_valid_dev old_encode_dev new_encode_dev i ri0 /\
  zlen (ri_addr ri0) = zlen (ri_addr ri).
Proof.
  eexists. split; [reflexivity|]. rewrite zlen_update_extra, set_raw_inline_eq. by destruct et.
Qed.

Lemma update_extra_words et i ri :
  inode_wf features i -> zlen (ri_addr ri) = DEF_ADDRS_PER_INODE ->
  f2fs_has_extra_attr i = true ->
  let ri' := update_raw_inode et i ri in
  ri_extra_isize ri' = 24 /\
  (F2FS_HAS_FEATURE features F2FS_FEATURE_FLEXIBLE_INLINE_XATTR = true ->
     ri_inline_xattr_size ri' = i_inline_xattr_size i) /\
  (F2FS_HAS_FEATURE features F2FS_FEATURE_PRJQUOTA = true -> ri_projid ri' = i_projid i) /\
  (F2FS_HAS_FEATURE features F2FS_FEATURE_INODE_CRTIME = true ->
     ri_crtime ri' = u64 (i_crtime_sec i) /\ ri_crtime_nsec ri' = i_crtime_nsec i).
Proof.
  intros Hwf Hl Hx. cbv zeta. pose proof (wf_extra _ _ Hwf) as He. rewrite Hx in He.
  assert (Hg : get_extra_isize i = 6) by (rewrite get_extra_isize_small; rewrite He; done).
  pose proof (wf_xattr _ _ Hwf) as Hxa. pose proof (wf_u32 _ _ Hwf) as H32.
  assert (Hp : 0 <= i_projid i < 2 ^ 32 /\ 0 <= i_crtime_nsec i < 2 ^ 32)
    by (repeat (apply Forall_cons in H32 as [? H32]); done).
  pose proof (u64_range (i_crtime_sec i)) as Hc.
  unfold Inode.update_raw_inode. cbv zeta.
  match goal with |- context [update_inode_extra features i ?r] => set (ri0 := r) end.
  assert (Hl0 : zlen (ri_addr ri0) = 923).
  { unfold ri0. rewrite set_raw_inline_eq. by destruct et. }
  assert (Hle : zlen (ri_addr (update_inode_extra features i ri0)) = 923).
  { by rewrite zlen_update_extra. }
  unfold ri_extra_isize, ri_inline_xattr_size, ri_projid, ri_crtime, ri_crtime_nsec.
  rewrite !ri_word_rdev by (done || lia).
  unfold update_inode_extra. rewrite Hx, He. cbv zeta.
  unfold F2FS_FITS_IN_INODE, projid_end, crtime_end. simpl.
  unfold set_ri_crtime_nsec, set_ri_crtime, set_ri_projid, set_ri_inline_xattr_size,
    set_ri_extra_isize, ri_extra_isize, ri_inline_xattr_size. rewrite !andb_true_r.
  repeat case_if; rewrite ?ri_word_set by (rewrite ?zlen_set_word; lia); simpl;
    change (u16 24) with 24; rewrite ?(u16_small (i_inline_xattr_size i)), ?u32_small by lia;
    (split; [zdiv|split; [|split]; intros; (done || zdiv)]).
Qed.
(** The layout fields as read back agree with the written inode. *)
Lemma read_layout et i ri :
  inode_wf features i -> zlen (ri_addr ri) = DEF_ADDRS_PER_INODE ->
  (if f2fs_has_extra_attr i then ri_extra_isize (update_raw_inode et i ri) else 0) = i_extra_isize i /\
  (if F2FS_HAS_FEATURE features F2FS_FEATURE_FLEXIBLE_INLINE_XATTR
   then ri_inline_xattr_size (update_raw_inode et i ri)
   else if f2fs_has_inline_xattr i || f2fs_has_inline_dentry i
   then DEFAULT_INLINE_XATTR_ADDRS else 0) = i_inline_xattr_size i /\
  (if f2fs_has_extra_attr i && F2FS_HAS_FEATURE features F2FS_FEATURE_PRJQUOTA
      && F2FS_FITS_IN_INODE (i_extra_isize i) projid_end
   then ri_projid (update_raw_inode et i ri) else 0) = i_projid i.
Proof.
  intros Hwf Hl. pose proof (wf_extra _ _ Hwf) as He. pose proof (wf_xattr _ _ Hwf) as Hx.
  pose proof (wf_projid _ _ Hwf) as Hp.
  pose proof (update_extra_words et i ri Hwf Hl) as Hw. cbv zeta in Hw.
  destruct (f2fs_has_extra_attr i) eqn:Hxa; simpl in *.
  - destruct (Hw eq_refl) as (-> & W2 & W3 & _). rewrite He. split; [done|].
    destruct (F2FS_HAS_FEATURE features F2FS_FEATURE_FLEXIBLE_INLINE_XATTR) eqn:F1,
      (F2FS_HAS_FEATURE features F2FS_FEATURE_PRJQUOTA) eqn:F2; simpl in *;
      (split; [first [by apply W2|symmetry; apply Hx]|first [by apply W3|symmetry; by apply Hp]]).
  - split; [done|]. split; [|symmetry; by apply Hp].
    destruct (F2FS_HAS_FEATURE features F2FS_FEATURE_FLEXIBLE_INLINE_XATTR) eqn:F1;
      [by destruct Hx|symmetry; apply Hx].
Qed.

(** Setting a flag the dirty tracking ignores changes that flag only. *)
Lemma set_plain_flag f s :
  f = FI_FIRST_BLOCK_WRITTEN \/ f = FI_PROJ_INHERIT ->
  exists n, set_inode_flag f s = with_inode (set_flags n) s /\
    forall g, g <> f -> Z.testbit n g = is_inode_flag_set (dc_inode s) g.
Proof.
  intros Hf. destruct s as [i l n1 n2 n3 b]. unfold set_inode_flag. simpl.
  destruct (is_inode_flag_set i f) eqn:E; simpl.
  - exists (flags i). split; [|done]. destruct Hf as [-> | ->], i; done.
  - exists (Z.setbit (flags i) f). split; [destruct Hf as [-> | ->]; done|].
    intros g Hg. rewrite Z.setbit_eqb by (destruct Hf; subst; done).
    by rewrite (proj2 (Z.eqb_neq _ _)) by done.
Qed.

(** The flags a read recovers are the persistent flags that were written. *)
Lemma read_flag et i ri bit disk :
  (bit, disk) ∈ inline_pairs ->
  Z.testbit (inline_flags (ri_inline (update_raw_inode et i ri))) bit = is_inode_flag_set i bit.
Proof.
  intros Hin. rewrite (inline_flags_bit _ _ _ Hin), update_inode_fields. simpl.
  by apply inline_byte_bit.
Qed.
Lemma read_crtime et i ri :
  inode_wf features i -> zlen (ri_addr ri) = DEF_ADDRS_PER_INODE ->
  f2fs_has_extra_attr i && F2FS_HAS_FEATURE features F2FS_FEATURE_INODE_CRTIME = true ->
  s64 (ri_crtime (update_raw_inode et i ri)) = i_crtime_sec i /\
  ri_crtime_nsec (update_raw_inode et i ri) = i_crtime_nsec i.
Proof.
  intros Hwf Hl [Hx Hf]%andb_true_iff.
  destruct (update_extra_words et i ri Hwf Hl Hx) as (_ & _ & _ & W). destruct (W Hf) as [-> ->].
  pose proof (wf_s64 _ _ Hwf) as H64. repeat (apply Forall_cons in H64 as [? H64]).
  split; [by apply s64_u64|done].
Qed.

(** The steps of a read after the layout change neither. *)
Definition keeps_read (j : inode) (s : dirty_ctx) : Prop :=
  plain_fields (dc_inode s) = plain_fields j /\ same_flags (dc_inode s) j.

Lemma keeps_read_rdev j ri s :
  keeps_read j s ->
  keeps_read j (with_inode (__get_inode_rdev old_decode_dev new_decode_dev ri) s).
Proof.
  intros H. unfold with_inode, __get_inode_rdev. cbv zeta.
  unfold keeps_read in *. simpl. repeat case_if; exact H.
Qed.

Lemma keeps_read_flag j f s :
  f = FI_FIRST_BLOCK_WRITTEN \/ f = FI_PROJ_INHERIT -> keeps_read j s ->
  keeps_read j (set_inode_flag f s).
Proof.
  intros Hf [H1 H2]. destruct (set_plain_flag f s Hf) as (n & -> & Hn).
  split; [exact H1|]. intros bit disk Hin. rewrite <- (H2 bit disk Hin).
  unfold is_inode_flag_set at 1. simpl. apply Hn. intros ->.
  destruct (in_pairs_bound _ _ Hin), Hf; done.
Qed.

Lemma keeps_read_disk_size j s :
  keeps_read j s -> keeps_read j (with_inode (fun i => set_last_disk_size (i_size i) i) s).
Proof. done. Qed.

(** The inode after the first steps of a read, its layout in terms of the
    inline flags [fl]. *)
Lemma read_layout_eq ri fl i0 :
  read_layout_sizes features ri (set_flags fl (read_raw_fields ri i0)) =
  set_i_inline_xattr_size
    (if F2FS_HAS_FEATURE features F2FS_FEATURE_FLEXIBLE_INLINE_XATTR
     then ri_inline_xattr_size ri
     else if Z.testbit fl FI_INLINE_XATTR || Z.testbit fl FI_INLINE_DENTRY
     then DEFAULT_INLINE_XATTR_ADDRS else 0)
    (set_i_extra_isize (if Z.testbit fl FI_EXTRA_ATTR then ri_extra_isize ri else 0)
       (set_flags fl (read_raw_fields ri i0))).
Proof. reflexivity. Qed.

Lemma plain_read ri fl i0 x e :
  plain_fields (set_i_inline_xattr_size x (set_i_extra_isize e
                (set_flags fl (read_raw_fields ri i0)))) =
  [ri_mode ri; ri_uid ri; ri_gid ri; ri_links ri; s64 (ri_size ri);
   SECTOR_FROM_BLOCK (u64 (ri_blocks ri - 1)); s64 (ri_atime ri); s64 (ri_ctime ri); s64 (ri_mtime ri);
   ri_atime_nsec ri; ri_ctime_nsec ri; ri_mtime_nsec ri; ri_generation ri;
   ri_current_depth ri; ri_xattr_nid ri; ri_flags ri; ri_advise ri; ri_pino ri;
   ri_dir_level ri; e; x].
Proof. reflexivity. Qed.

(** The sector count survives the conversion to blocks, for whole blocks. *)
Lemma sector_roundtrip b :
  0 <= b < 2 ^ 63 -> b mod 8 = 0 ->
  SECTOR_FROM_BLOCK (u64 (u64 (SECTOR_TO_BLOCK b + 1) - 1)) = b.
Proof.
  intros Hb Hm. unfold SECTOR_FROM_BLOCK, SECTOR_TO_BLOCK.
  rewrite Z.shiftr_div_pow2, Z.shiftl_mul_pow2 by lia. change (2 ^ 3) with 8.
  pose proof (Z.div_mod b 8 ltac:(lia)).
  rewrite (u64_small (b / 8 + 1)) by lia. rewrite (u64_small (_ - 1)) by lia.
  rewrite u64_small by lia. lia.
Qed.

Lemma plain_fields_read et i ri x e i0 fl :
  inode_wf features i -> i_extra_isize i = e -> i_inline_xattr_size i = x ->
  plain_fields (set_i_inline_xattr_size x (set_i_extra_isize e
    (set_flags fl (read_raw_fields (update_raw_inode et i ri) i0)))) = plain_fields i.
Proof.
  intros Hwf He Hx. rewrite plain_read, update_inode_fields. unfold plain_fields.
  cbn [ri_mode ri_uid ri_gid ri_links ri_size ri_blocks ri_atime ri_ctime ri_mtime
   ri_atime_nsec ri_ctime_nsec ri_mtime_nsec ri_generation
   ri_current_depth ri_xattr_nid ri_flags ri_advise ri_pino ri_dir_level].
  destruct (wf_blocks _ _ Hwf). rewrite sector_roundtrip by done.
  pose proof (wf_u32 _ _ Hwf) as H32. pose proof (wf_s64 _ _ Hwf) as H64.
  repeat (apply Forall_cons in H32 as [? H32]).
  repeat (apply Forall_cons in H64 as [? H64]).
  rewrite u16_small by apply (wf_mode _ _ Hwf).
  rewrite !u32_small, !s64_u64 by assumption. by rewrite He, Hx.
Qed.

(** A step of the read that changes neither the flags it is asked about nor
    the persistent fields. *)
Lemma keeps_read_start et i ri s :
  inode_wf features i -> zlen (ri_addr ri) = DEF_ADDRS_PER_INODE ->
  let ri' := update_raw_inode et i ri in
  keeps_read i (with_inode (read_layout_sizes features ri')
    (with_inode (get_inline_info ri') (with_inode (read_raw_fields ri') s))).
Proof.
  intros Hwf Hl. cbv zeta.
  pose proof (read_layout et i ri Hwf Hl) as (L1 & L2 & _).
  pose proof (read_flag et i ri) as Hfl.
  unfold with_inode, keeps_read. cbn [dc_inode]. rewrite get_inline_info_eq by reflexivity.
  generalize dependent (inline_flags (ri_inline (update_raw_inode et i ri))). intros fl Hfl.
  rewrite read_layout_eq, (Hfl _ _ in_pairs_extra), (Hfl _ _ in_pairs_xattr),
    (Hfl _ _ in_pairs_dentry). split.
  - by apply plain_fields_read.
  - intros bit disk Hin. apply (Hfl _ _ Hin).
Qed.

Lemma keeps_read_extra j ri s :
  keeps_read j s -> keeps_read j (with_inode (read_extra_fields features ri) s) /\
  i_projid (dc_inode (with_inode (read_extra_fields features ri) s)) =
    (if f2fs_has_extra_attr (dc_inode s) && F2FS_HAS_FEATURE features F2FS_FEATURE_PRJQUOTA
        && F2FS_FITS_IN_INODE (i_extra_isize (dc_inode s)) projid_end
     then ri_projid ri else 0) /\
  i_rdev (dc_inode (with_inode (read_extra_fields features ri) s)) = i_rdev (dc_inode s) /\
  (f2fs_has_extra_attr (dc_inode s) && F2FS_HAS_FEATURE features F2FS_FEATURE_INODE_CRTIME
     && F2FS_FITS_IN_INODE (i_extra_isize (dc_inode s)) crtime_end = true ->
   i_crtime_sec (dc_inode (with_inode (read_extra_fields features ri) s)) = s64 (ri_crtime ri) /\
   i_crtime_nsec (dc_inode (with_inode (read_extra_fields features ri) s)) = ri_crtime_nsec ri).
Proof.
  unfold with_inode, read_extra_fields, keeps_read. cbv zeta. cbn [dc_inode]. intros H.
  match goal with |- context [set_i_projid ?x] => generalize x end. intros x.
  change (f2fs_has_extra_attr (set_i_projid x (dc_inode s))) with (f2fs_has_extra_attr (dc_inode s)).
  change (i_extra_isize (set_i_projid x (dc_inode s))) with (i_extra_isize (dc_inode s)).
  case_if; (split; [exact H|]; split; [reflexivity|]; split; [reflexivity|]); [done|].
  intros Hc. exfalso. congruence.
Qed.

Lemma read_layout_flags ri f i : is_inode_flag_set (read_layout_sizes features ri i) f = is_inode_flag_set i f.
Proof. reflexivity. Qed.

(** What [f2fs_inode_synced] changes of the inode. *)
Lemma synced_inode s : exists n g,
  dc_inode (f2fs_inode_synced s) = set_gdirty g (set_flags n (dc_inode s)) /\
  (forall bit disk, (bit, disk) ∈ inline_pairs -> Z.testbit n bit = is_inode_flag_set (dc_inode s) bit) /\
  is_inode_flag_set (dc_inode (f2fs_inode_synced s)) FI_DIRTY_INODE = false.
Proof.
  unfold f2fs_inode_synced. destruct (is_inode_flag_set (dc_inode s) FI_DIRTY_INODE) eqn:E; cbn [negb].
  - exists (Z.clearbit (Z.clearbit (flags (dc_inode s)) FI_DIRTY_INODE) FI_AUTO_RECOVER), false.
    split; [destruct s as [[] ? ? ? ? ?]; simpl; by case_if; subst|].
    split.
    + intros bit disk Hin. apply list_elem_of_In in Hin.
      assert (bit <> FI_DIRTY_INODE /\ bit <> FI_AUTO_RECOVER) as [H1 H2].
      { repeat (destruct Hin as [Hin|Hin]; [injection Hin as <- <-; done|]). destruct Hin. }
      rewrite !Z.clearbit_neq by congruence. done.
    + assert (Hc : forall fl, Z.testbit (Z.clearbit (Z.clearbit fl FI_DIRTY_INODE) FI_AUTO_RECOVER) FI_DIRTY_INODE = false)
        by (intros fl; by rewrite Z.clearbit_neq, Z.clearbit_eq by done).
      destruct (gdirty (dc_inode s)); apply Hc.
  - exists (flags (dc_inode s)), (gdirty (dc_inode s)). split; [by destruct (dc_inode s)|]. by split.
Qed.

Lemma synced_same i n g :
  (forall bit disk, (bit, disk) ∈ inline_pairs -> Z.testbit n bit = is_inode_flag_set i bit) ->
  (inode_wf features i -> inode_wf features (set_gdirty g (set_flags n i))) /\
  (forall j, same_persistent features j (set_gdirty g (set_flags n i)) -> same_persistent features j i).
Proof.
  intros Hn.
  assert (Hf : forall bit disk, (bit, disk) ∈ inline_pairs ->
    is_inode_flag_set (set_gdirty g (set_flags n i)) bit = is_inode_flag_set i bit) by exact Hn.
  pose proof (Hf _ _ in_pairs_extra) as F1. pose proof (Hf _ _ in_pairs_xattr) as F2.
  pose proof (Hf _ _ in_pairs_dentry) as F3. pose proof (Hf _ _ in_pairs_data) as F4.
  pose proof (Hf _ _ in_pairs_exist) as F5.
  split.
  - intros []. unfold f2fs_has_extra_attr, f2fs_has_inline_xattr, f2fs_has_inline_dentry,
      f2fs_has_inline_data, f2fs_exist_data in *.
    split; unfold f2fs_has_extra_attr, f2fs_has_inline_xattr, f2fs_has_inline_dentry,
      f2fs_has_inline_data, f2fs_exist_data in *; rewrite ?F1, ?F2, ?F3, ?F4, ?F5; assumption.
  - intros j [H1 H2 H3 H4 H5]. unfold f2fs_has_extra_attr in *. rewrite F1 in H5.
    split; [exact H1|exact H2| |exact H4|exact H5].
    intros bit disk Hin. rewrite (H3 _ _ Hin). by apply (Hf _ _ Hin).
Qed.

Lemma keeps_read_mode j s :
  keeps_read j s -> i_mode (dc_inode s) = i_mode j /\ get_extra_isize (dc_inode s) = get_extra_isize j.
Proof.
  intros [H1 _]. unfold get_extra_isize. injection H1. intros. split; congruence.
Qed.

(** The device number is read into the inode and stays. *)
Lemma read_rdev et i ri s :
  inode_wf features i -> zlen (ri_addr ri) = DEF_ADDRS_PER_INODE -> is_device i = true -> keeps_read i s ->
  i_rdev (dc_inode (with_inode (__get_inode_rdev old_decode_dev new_decode_dev (update_raw_inode et i ri)) s))
  = i_rdev i.
Proof.
  intros Hwf Hl Hd Hk. destruct (keeps_read_mode _ _ Hk) as [Hm He].
  pose proof (wf_u32 _ _ Hwf) as H32. repeat (apply Forall_cons in H32 as [? H32]).
  destruct (update_raw_rdev et i ri) as (ri0 & -> & Hl0).
  rewrite <- (rdev_words i ri0); [|congruence|by apply extra_isize_range|done|done].
  unfold with_inode, __get_inode_rdev. cbn [dc_inode]. unfold is_device in Hd. rewrite Hm, He, Hd.
  cbn [orb]. cbv zeta. by case_if.
Qed.

Lemma set_flag_rdev f s :
  f = FI_FIRST_BLOCK_WRITTEN \/ f = FI_PROJ_INHERIT ->
  i_rdev (dc_inode (set_inode_flag f s)) = i_rdev (dc_inode s).
Proof. intros Hf. by destruct (set_plain_flag f s Hf) as (n & -> & _). Qed.

Lemma disk_size_rdev s :
  i_rdev (dc_inode (with_inode (fun i => set_last_disk_size (i_size i) i) s)) = i_rdev (dc_inode s).
Proof. done. Qed.

Lemma keeps_read_layout j s :
  keeps_read j s ->
  f2fs_has_extra_attr (dc_inode s) = f2fs_has_extra_attr j /\
  f2fs_has_inline_data (dc_inode s) = f2fs_has_inline_data j /\
  f2fs_exist_data (dc_inode s) = f2fs_exist_data j /\
  i_extra_isize (dc_inode s) = i_extra_isize j.
Proof.
  intros [H1 H2]. split_and!.
  - apply (H2 _ _ in_pairs_extra).
  - apply (H2 _ _ in_pairs_data).
  - apply (H2 _ _ in_pairs_exist).
  - by injection H1.
Qed.

Lemma read_back_ok et i ri upd s :
  inode_wf features i -> zlen (ri_addr ri) = DEF_ADDRS_PER_INODE ->
  let '(err, s', _, bug) := do_read_inode true (inr (update_raw_inode et i ri)) upd s in
  err = 0 /\ bug = false /\ same_persistent features (dc_inode s') i.
Proof.
  intros Hwf Hl. pose proof (read_layout et i ri Hwf Hl) as (_ & _ & L3).
  pose proof (keeps_read_start et i ri s Hwf Hl) as H1. cbv zeta in H1.
  pose proof (fun s => read_rdev et i ri s Hwf Hl) as Hrd. pose proof (read_crtime et i ri Hwf Hl) as Hcr.
  unfold Inode.do_read_inode. cbv beta iota zeta delta [negb].
  assert (Hbug : (F2FS_HAS_FEATURE features F2FS_FEATURE_FLEXIBLE_INLINE_XATTR &&
    negb (f2fs_has_extra_attr (dc_inode (with_inode (get_inline_info (update_raw_inode et i ri))
       (with_inode (read_raw_fields (update_raw_inode et i ri)) s))))) = false).
  { destruct (keeps_read_layout _ _ H1) as (Hx & _). unfold with_inode, f2fs_has_extra_attr in *.
    cbn [dc_inode] in *. rewrite read_layout_flags in Hx. rewrite Hx.
    pose proof (wf_xattr _ _ Hwf) as Hxa. unfold f2fs_has_extra_attr in Hxa.
    destruct (F2FS_HAS_FEATURE features F2FS_FEATURE_FLEXIBLE_INLINE_XATTR); [by rewrite (proj1 Hxa)|done]. }
  unfold negb in Hbug. rewrite Hbug. clear Hbug.
  revert H1. generalize (with_inode (read_layout_sizes features (update_raw_inode et i ri))
    (with_inode (get_inline_info (update_raw_inode et i ri))
       (with_inode (read_raw_fields (update_raw_inode et i ri)) s))).
  intros s1 H1. specialize (fun Hd => Hrd s1 Hd H1).
  destruct (keeps_read_layout _ _ H1) as (_ & -> & -> & _).
  destruct (f2fs_has_inline_data i) eqn:Hd.
  1: rewrite (wf_data _ _ Hwf Hd).
  all: cbn [andb negb]; cbv beta iota.
  all: match goal with |- context [with_inode (read_extra_fields features ?r) ?s2] =>
    assert (Hs : keeps_read i s2) by
      (repeat case_if; auto 6 using keeps_read_rdev, keeps_read_flag, keeps_read_disk_size);
    assert (Hr2 : is_device i = true -> i_rdev (dc_inode s2) = i_rdev i) by
      (intros Hdev; rewrite <- (Hrd Hdev); repeat case_if;
        repeat first [rewrite set_flag_rdev by auto|rewrite disk_size_rdev]; reflexivity);
    destruct (keeps_read_extra i r s2 Hs) as ([K1 K2] & K3 & K4 & K5);
    destruct (keeps_read_layout _ _ Hs) as (Hx & _ & _ & Hes) end.
  all: rewrite Hx, Hes in K3; split; [done|]; split; [done|]; split.
  all: first [exact K1|rewrite K3; exact L3|exact K2|intros Hdev; rewrite K4; by apply Hr2|idtac].
  all: intros Hc; pose proof Hc as [Hxa Hf]%andb_true_iff; destruct K5 as [-> ->]; [|by apply Hcr].
  all: rewrite Hx, Hes, Hc, (wf_extra _ _ Hwf), Hxa; reflexivity.
Qed.

End roundtrip.

(** Device numbers with 12 bits for the major and 20 for the minor number, in the
    two encodings of linux/kdev_t.h. *)
Definition kdev_major (d : Z) : Z := d / 2 ^ 20.
Definition kdev_minor (d : Z) : Z := d mod 2 ^ 20.
Definition kdev_old_valid (d : Z) : bool := (kdev_major d <? 256) && (kdev_minor d <? 256).
Definition kdev_old_encode (d : Z) : Z := kdev_major d * 256 + kdev_minor d.
Definition kdev_old_decode (v : Z) : Z := (v / 256) mod 256 * 2 ^ 20 + v mod 256.
Definition kdev_new_encode (d : Z) : Z :=
  kdev_minor d mod 256 + kdev_major d * 256 + kdev_minor d / 256 * 2 ^ 20.
Definition kdev_new_decode (v : Z) : Z := (v / 256) mod 4096 * 2 ^ 20 + (v mod 256 + v / 2 ^ 20 * 256).

Lemma kdev_old_ok d : 0 <= d < 2 ^ 32 -> kdev_old_valid d = true ->
  0 <= kdev_old_encode d < 2 ^ 32 /\
  if kdev_old_encode d =? 0 then kdev_new_decode 0 = d else kdev_old_decode (kdev_old_encode d) = d.
Proof.
  unfold kdev_old_valid, kdev_old_encode, kdev_old_decode, kdev_major, kdev_minor.
  intros Hd Hv. zbool. change (2 ^ 20) with 1048576 in *.
  pose proof (Z.div_mod d 1048576 ltac:(lia)) as Hm. pose proof (Z.mod_pos_bound d 1048576 ltac:(lia)) as Hb.
  assert (0 <= d / 1048576) by zdiv. revert Hm Hb H H0 H1.
  generalize (d / 1048576), (d mod 1048576). intros a b Hm Hb Ha1 Hb1 Ha. split; [lia|].
  destruct (Z.eqb_spec (a * 256 + b) 0); [change (kdev_new_decode 0) with 0; lia|].
  rewrite (Z.add_comm (a * 256)), Z.div_add, Z.mod_add, (Z.div_small b), !(Z.mod_small b) by lia.
  rewrite Z.add_0_l, Z.mod_small by lia. lia.
Qed.

Lemma kdev_new_ok d : 0 <= d < 2 ^ 32 ->
  0 <= kdev_new_encode d < 2 ^ 32 /\ kdev_new_decode (kdev_new_encode d) = d.
Proof.
  unfold kdev_new_encode, kdev_new_decode, kdev_major, kdev_minor. intros Hd.
  change (2 ^ 20) with 1048576 in *.
  pose proof (Z.div_mod d 1048576 ltac:(lia)) as Hm. pose proof (Z.mod_pos_bound d 1048576 ltac:(lia)) as Hb.
  assert (0 <= d / 1048576 < 4096) by zdiv. revert Hm Hb H.
  generalize (d / 1048576), (d mod 1048576). intros a b Hm Hb Ha. zdiv.
Qed.

Definition blockdev0 : inode :=
  mk_inode 7 0x61a4 1000 1000 1 0 8 (-11) 12 13 1 2 3 99 (259 * 2 ^ 20 + 300) 0 0x20 4 0 1 3 0
    (2 ^ FI_DIRTY_INODE + 2 ^ FI_INLINE_XATTR + 2 ^ FI_EXTRA_ATTR + 2 ^ FI_PIN_FILE) 8 0 24 77 50 (-5) 6 false 0.
Definition blockdev_features : Z := F2FS_FEATURE_PRJQUOTA .| F2FS_FEATURE_INODE_CRTIME.

