(* ===== verification/NodePath.v ===== *)
(** * The index tree of a file (node.c, gc.c, super.c, node.h)

    A file's blocks hang off its inode through direct, indirect and double
    indirect node blocks.  [get_node_path] turns a block index into the offsets
    to follow and the node offsets met on the way; [start_bidx_of_node] turns a
    direct node's offset back into its first block index; [IS_DNODE] tells the
    direct nodes by their offset; [get_next_page_offset] skips a missing
    subtree; [max_file_blocks] bounds a file. *)

From S2P Require Import Prelude Inode.
From Stdlib Require Import ZArith Lia.
From stdpp Require Import base numbers option list.
#[local] Open Scope Z_scope.
#[local] Open Scope c_scope.

(** ** Operations *)

Definition NODE_DIR1_BLOCK : Z := DEF_ADDRS_PER_INODE + 1.
Definition NODE_DIR2_BLOCK : Z := DEF_ADDRS_PER_INODE + 2.
Definition NODE_IND1_BLOCK : Z := DEF_ADDRS_PER_INODE + 3.
Definition NODE_IND2_BLOCK : Z := DEF_ADDRS_PER_INODE + 4.
Definition NODE_DIND_BLOCK : Z := DEF_ADDRS_PER_INODE + 5.

(** The level reached with the filled prefixes of [offset] (int) and [noffset]
    (unsigned int), or [-E2BIG].  [block] is a long. *)
Definition get_node_path (i : inode) (block : Z) : Z + (Z * list Z * list Z) :=
  let direct_index := addrs_per_inode i in
  let direct_blks := ADDRS_PER_BLOCK in
  let dptrs_per_blk := NIDS_PER_BLOCK in
  let indirect_blks := ADDRS_PER_BLOCK * NIDS_PER_BLOCK in
  let dindirect_blks := indirect_blks * NIDS_PER_BLOCK in
  if block <? direct_index then inr (0, [s32 block], [0])
  else
  let block := block - direct_index in
  if block <? direct_blks then inr (1, [NODE_DIR1_BLOCK; s32 block], [0; 1])
  else
  let block := block - direct_blks in
  if block <? direct_blks then inr (1, [NODE_DIR2_BLOCK; s32 block], [0; 2])
  else
  let block := block - direct_blks in
  if block <? indirect_blks then
    let o1 := s32 (Z.quot block direct_blks) in
    inr (2, [NODE_IND1_BLOCK; o1; s32 (Z.rem block direct_blks)],
            [0; 3; u32 (4 + o1)])
  else
  let block := block - indirect_blks in
  if block <? indirect_blks then
    let o1 := s32 (Z.quot block direct_blks) in
    inr (2, [NODE_IND2_BLOCK; o1; s32 (Z.rem block direct_blks)],
            [0; u32 (4 + dptrs_per_blk); u32 (5 + dptrs_per_blk + o1)])
  else
  let block := block - indirect_blks in
  if block <? dindirect_blks then
    let o1 := s32 (Z.quot block indirect_blks) in
    let o2 := s32 (Z.rem (Z.quot block direct_blks) dptrs_per_blk) in
    inr (3, [NODE_DIND_BLOCK; o1; o2; s32 (Z.rem block direct_blks)],
            [0; u32 (5 + dptrs_per_blk * 2);
             u32 (6 + dptrs_per_blk * 2 + o1 * (dptrs_per_blk + 1));
             u32 (7 + dptrs_per_blk * 2 + o1 * (dptrs_per_blk + 1) + o2)])
  else inl (- E2BIG).

Definition start_bidx_of_node (node_ofs : Z) (i : inode) : Z :=
  let indirect_blks := 2 * NIDS_PER_BLOCK + 4 in
  if node_ofs =? 0 then 0
  else
    let bidx :=
      if node_ofs <=? 2 then u32 (node_ofs - 1)
      else if node_ofs <=? indirect_blks then
        let dec := s32 (u32 (node_ofs - 4) / (NIDS_PER_BLOCK + 1)) in
        u32 (node_ofs - 2 - dec)
      else
        let dec := s32 (u32 (node_ofs - indirect_blks - 3) / (NIDS_PER_BLOCK + 1)) in
        u32 (node_ofs - 5 - dec) in
    u32 (bidx * ADDRS_PER_BLOCK + addrs_per_inode i).

(** [XATTR_NODE_OFFSET], and the test on node offsets. *)
Definition OFFSET_BIT_SHIFT : Z := 3.
Definition XATTR_NODE_OFFSET : Z := Z.shiftr (u32 (Z.shiftl (2 ^ 32 - 1) OFFSET_BIT_SHIFT)) OFFSET_BIT_SHIFT.
Definition f2fs_has_xattr_block (ofs : Z) : bool := ofs =? XATTR_NODE_OFFSET.

Definition IS_DNODE (ofs : Z) : bool :=
  if f2fs_has_xattr_block ofs then true
  else if (ofs =? 3) || (ofs =? 4 + NIDS_PER_BLOCK) || (ofs =? 5 + 2 * NIDS_PER_BLOCK) then false
  else if 6 + 2 * NIDS_PER_BLOCK <=? ofs then
    let ofs := u32 (ofs - (6 + 2 * NIDS_PER_BLOCK)) in
    negb (Z.rem ofs (NIDS_PER_BLOCK + 1) =? 0)
  else true.

(** [while (max_level-- > cur_level) skipped_unit *= NIDS_PER_BLOCK;] *)
Definition skipped_unit (cur_level max_level : Z) : Z :=
  Nat.iter (Z.to_nat (max_level - cur_level)) (fun u => u32 (u * NIDS_PER_BLOCK)) ADDRS_PER_BLOCK.

(** pgoff_t is unsigned long; the [default] case is [f2fs_bug_on]. *)
Definition get_next_page_offset (i : inode) (cur_level max_level pgofs : Z) : option Z :=
  let direct_index := addrs_per_inode i in
  let indirect_blks := ADDRS_PER_BLOCK * NIDS_PER_BLOCK in
  let unit := skipped_unit cur_level max_level in
  if max_level =? 0 then Some (u64 (pgofs + 1))
  else
    let base :=
      if max_level =? 3 then Some (2 * indirect_blks + 2 * ADDRS_PER_BLOCK + direct_index)
      else if max_level =? 2 then Some (2 * ADDRS_PER_BLOCK + direct_index)
      else if max_level =? 1 then Some direct_index
      else None in
    match base with
    | None => None
    | Some base => Some (u64 (u64 ((u64 (pgofs - base) / unit + 1) * unit) + base))
    end.

Definition max_file_blocks : Z :=
  let result := 0 in
  let leaf_count := ADDRS_PER_BLOCK in
  let result := result + leaf_count * 2 in
  let leaf_count := leaf_count * NIDS_PER_BLOCK in
  let result := result + leaf_count * 2 in
  let leaf_count := leaf_count * NIDS_PER_BLOCK in
  result + leaf_count.

(** ** Specification *)

(** The layout of [i_addr] leaves room for addresses. *)
Definition geom_ok (i : inode) : Prop :=
  0 <= i_extra_isize i /\ 0 <= i_inline_xattr_size i /\
  i_extra_isize i / 4 + i_inline_xattr_size i <= DEF_ADDRS_PER_INODE.

(** Two block indices lie under the same node at depth [k] of the tree. *)
Definition same_node_at (i : inode) (k : Z) (b1 b2 : Z) : Prop :=
  match get_node_path i b1, get_node_path i b2 with
  | inr (l1, _, n1), inr (l2, _, n2) => l1 = l2 /\ zget 0 n1 k = zget 0 n2 k
  | _, _ => False
  end.

(** ** Lemmas *)

Lemma addrs_per_inode_ok i :
  geom_ok i ->
  addrs_per_inode i = DEF_ADDRS_PER_INODE - i_extra_isize i / 4 - i_inline_xattr_size i /\
  0 <= addrs_per_inode i <= DEF_ADDRS_PER_INODE.
Proof.
  intros (He & Hx & Hs). unfold DEF_ADDRS_PER_INODE in Hs.
  unfold addrs_per_inode, CUR_ADDRS_PER_INODE, get_inline_xattr_addrs, DEF_ADDRS_PER_INODE.
  rewrite get_extra_isize_small by zdiv.
  assert (0 <= i_extra_isize i / 4) by zdiv. rewrite u32_small by lia. lia.
Qed.

(** The six shapes a path has, without machine arithmetic. *)
Inductive node_path (a : Z) : Z -> Z -> list Z -> list Z -> Prop :=
| path_inode b : 0 <= b < a -> node_path a b 0 [b] [0]
| path_dir1 o : 0 <= o < 1018 -> node_path a (a + o) 1 [924; o] [0; 1]
| path_dir2 o : 0 <= o < 1018 -> node_path a (a + 1018 + o) 1 [925; o] [0; 2]
| path_ind1 x o : 0 <= x < 1018 -> 0 <= o < 1018 ->
    node_path a (a + 2 * 1018 + x * 1018 + o) 2 [926; x; o] [0; 3; 4 + x]
| path_ind2 x o : 0 <= x < 1018 -> 0 <= o < 1018 ->
    node_path a (a + 2 * 1018 + 1018 * 1018 + x * 1018 + o) 2
      [927; x; o] [0; 1022; 1023 + x]
| path_dind x y o : 0 <= x < 1018 -> 0 <= y < 1018 -> 0 <= o < 1018 ->
    node_path a (a + 2 * 1018 + 2 * (1018 * 1018) + (x * 1018 + y) * 1018 + o) 3
      [928; x; y; o] [0; 2041; 2042 + x * 1019; 2043 + x * 1019 + y].

Ltac path_consts :=
  unfold NODE_DIR1_BLOCK, NODE_DIR2_BLOCK, NODE_IND1_BLOCK, NODE_IND2_BLOCK, NODE_DIND_BLOCK,
    DEF_ADDRS_PER_INODE, ADDRS_PER_BLOCK, NIDS_PER_BLOCK, NULL_ADDR, E2BIG in *.

(** Decide the range tests of a path function on a known shape. *)
Ltac decide_ifs :=
  repeat match goal with
  | |- context [?x <? ?y] =>
      first [rewrite (proj2 (Z.ltb_lt x y)) by lia | rewrite (proj2 (Z.ltb_ge x y)) by lia]
  | |- context [?x <=? ?y] =>
      first [rewrite (proj2 (Z.leb_le x y)) by lia | rewrite (proj2 (Z.leb_gt x y)) by lia]
  | |- context [?x =? ?y] =>
      first [rewrite (proj2 (Z.eqb_eq x y)) by lia | rewrite (proj2 (Z.eqb_neq x y)) by lia]
  end.

Lemma s32_eq x y : x = y -> - 2 ^ 31 <= y < 2 ^ 31 -> s32 x = y.
Proof. intros -> H. by apply s32_small. Qed.
Lemma u32_eq x y : x = y -> 0 <= y < 2 ^ 32 -> u32 x = y.
Proof. intros -> H. by apply u32_small. Qed.

Lemma node_path_get a b lvl off noff i :
  addrs_per_inode i = a -> 0 <= a <= 923 -> node_path a b lvl off noff ->
  get_node_path i b = inr (lvl, off, noff).
Proof.
  intros Hi Ha Hp. unfold get_node_path. rewrite Hi. path_consts.
  destruct Hp as [b Hb|o Ho|o Ho|x o Hx Ho|x o Hx Ho|x y o Hx Hy Ho]; simpl Z.mul;
    decide_ifs; cbv zeta.
  - by rewrite s32_small by lia.
  - rewrite (s32_eq _ o) by lia. done.
  - rewrite (s32_eq _ o) by lia. done.
  - rewrite (s32_eq (Z.quot _ _) x), (s32_eq (Z.rem _ _) o) by zdiv.
    rewrite (u32_eq (_ + x) (4 + x)) by lia. done.
  - rewrite (s32_eq (Z.quot _ _) x), (s32_eq (Z.rem _ _) o) by zdiv.
    rewrite (u32_eq (_ + x) (1023 + x)) by lia. done.
  - rewrite (s32_eq (Z.quot _ 1036324) x) by zdiv.
    rewrite (s32_eq (Z.rem (Z.quot _ _) _) y), (s32_eq (Z.rem _ _) o) by zdiv.
    rewrite (u32_eq (_ + x * _) (2042 + x * 1019)), (u32_eq (_ + y) (2043 + x * 1019 + y)) by lia.
    done.
Qed.

Lemma node_path_exists a b :
  0 <= a <= 923 -> 0 <= b < a + max_file_blocks ->
  exists lvl off noff, node_path a b lvl off noff.
Proof.
  unfold max_file_blocks. path_consts. simpl Z.mul. intros Ha Hb.
  destruct (Z.lt_ge_cases b a); [do 3 eexists; apply path_inode; lia|].
  destruct (Z.lt_ge_cases b (a + 1018)).
  { replace b with (a + (b - a)) by lia. do 3 eexists. apply path_dir1. lia. }
  destruct (Z.lt_ge_cases b (a + 2036)).
  { replace b with (a + 1018 + (b - a - 1018)) by lia. do 3 eexists. apply path_dir2. lia. }
  destruct (Z.lt_ge_cases b (a + 2036 + 1036324)).
  { replace b with (a + 2 * 1018 + (b - a - 2036) / 1018 * 1018 + (b - a - 2036) mod 1018) by zdiv.
    do 3 eexists. apply path_ind1; zdiv. }
  destruct (Z.lt_ge_cases b (a + 2036 + 2072648)).
  { set (c := b - a - 2036 - 1036324).
    replace b with (a + 2 * 1018 + 1018 * 1018 + c / 1018 * 1018 + c mod 1018) by (unfold c; zdiv).
    do 3 eexists. apply path_ind2; unfold c; zdiv. }
  set (c := b - a - 2036 - 2072648).
  replace b with (a + 2 * 1018 + 2 * (1018 * 1018)
                  + (c / 1036324 * 1018 + (c / 1018) mod 1018) * 1018 + c mod 1018)
    by (unfold c; zdiv).
  do 3 eexists. apply path_dind; unfold c; zdiv.
Qed.

(** Beyond the last block there is no path. *)
Lemma get_node_path_big i b :
  0 <= addrs_per_inode i <= 923 -> addrs_per_inode i + max_file_blocks <= b ->
  get_node_path i b = inl (- E2BIG).
Proof.
  unfold get_node_path, max_file_blocks. path_consts. simpl Z.mul. intros Ha Hb.
  decide_ifs. done.
Qed.

Lemma node_path_start a b lvl off noff i :
  addrs_per_inode i = a -> 0 <= a <= 923 -> node_path a b lvl off noff ->
  start_bidx_of_node (zget 0 noff lvl) i + zget 0 off lvl = b.
Proof.
  intros Hi Ha Hp. unfold start_bidx_of_node. rewrite Hi. path_consts.
  destruct Hp as [b Hb|o Ho|o Ho|x o Hx Ho|x o Hx Ho|x y o Hx Hy Ho];
    unfold zget; simpl; decide_ifs; cbv zeta.
  - lia.
  - rewrite (u32_eq (u32 (1 - 1) * 1018 + a) a) by (unfold u32; zdiv). lia.
  - rewrite (u32_eq (u32 (2 - 1) * 1018 + a) (1018 + a)) by (unfold u32; zdiv). lia.
  - rewrite (u32_eq (4 + x - 4) x), (s32_eq (x / _) 0) by zdiv.
    rewrite (u32_eq (_ - _ - _) (x + 2)), u32_small by lia. lia.
  - rewrite (u32_eq (1023 + x - 4) (x + 1019)), (s32_eq ((x + 1019) / _) 1) by zdiv.
    rewrite (u32_eq (_ - _ - _) (x + 1020)), u32_small by lia. lia.
  - rewrite (u32_eq (_ - 2040 - 3) (x * 1019 + y)), (s32_eq (_ / _) x) by zdiv.
    rewrite (u32_eq (_ - _ - _) (2038 + x * 1018 + y)), u32_small by lia. lia.
Qed.

Lemma node_path_dnode a b lvl off noff :
  node_path a b lvl off noff ->
  IS_DNODE (zget 0 noff lvl) = true /\
  forall j, 0 < j < lvl -> IS_DNODE (zget 0 noff j) = false.
Proof.
  intros Hp. unfold IS_DNODE, f2fs_has_xattr_block.
  change XATTR_NODE_OFFSET with 536870911. path_consts.
  destruct Hp as [b Hb|o Ho|o Ho|x o Hx Ho|x o Hx Ho|x y o Hx Hy Ho];
    (split; [|intros j Hj]).
  all: try (exfalso; lia).
  all: try (assert (j = 1) as -> by lia).
  all: try (unfold zget; simpl; decide_ifs; done).
  - unfold zget; simpl. decide_ifs. simpl.
    rewrite (u32_eq _ (x * 1019 + (y + 1))) by lia.
    rewrite (proj2 (Z.eqb_neq _ 0)) by zdiv. done.
  - assert (j = 1 \/ j = 2) as [-> | ->] by lia; [done|].
    unfold zget; simpl. decide_ifs. simpl.
    rewrite (u32_eq _ (x * 1019)) by lia.
    rewrite (proj2 (Z.eqb_eq _ 0)) by zdiv. done.
Qed.

Lemma same_node_paths i a b c k l1 o1 n1 l2 o2 n2 :
  addrs_per_inode i = a -> 0 <= a <= 923 ->
  node_path a b l1 o1 n1 -> node_path a c l2 o2 n2 ->
  same_node_at i k b c <-> l1 = l2 /\ zget 0 n1 k = zget 0 n2 k.
Proof.
  intros Hi Ha H1 H2. unfold same_node_at.
  by rewrite (node_path_get a b l1 o1 n1), (node_path_get a c l2 o2 n2).
Qed.

(** The first block and the span of the subtrees at depth [cur] of level [lvl]. *)
Definition level_base (a lvl : Z) : Z :=
  if lvl =? 3 then 2 * 1036324 + 2 * 1018 + a else if lvl =? 2 then 2 * 1018 + a else a.
Definition subtree_span (lvl cur : Z) : Z := 1018 ^ (lvl - cur + 1).

(** Blocks of level [lvl] lie under the same depth-[cur] node iff they fall
    into the same span. *)
Lemma same_subtree a b c l1 o1 n1 l2 o2 n2 cur :
  0 <= a <= 923 -> node_path a b l1 o1 n1 -> node_path a c l2 o2 n2 -> 1 <= cur <= l1 ->
  let base := level_base a l1 in let unit := subtree_span l1 cur in
  l1 = l2 /\ zget 0 n1 cur = zget 0 n2 cur <->
  base <= c /\ (b - base) / unit = (c - base) / unit.
Proof.
  intros Ha H1 H2 Hcur. cbv zeta.
  assert (Hc : l1 = 1 /\ cur = 1 \/ l1 = 2 /\ cur = 1 \/ l1 = 2 /\ cur = 2
               \/ l1 = 3 /\ cur = 1 \/ l1 = 3 /\ cur = 2 \/ l1 = 3 /\ cur = 3)
    by (destruct H1; lia).
  repeat destruct Hc as [Hc|Hc]; destruct Hc as [Hl Hc]; subst l1 cur;
    unfold level_base, subtree_span; simpl;
    inversion H1; subst; destruct H2; unfold zget; simpl; split; intros; zdiv.
Qed.

Lemma skipped_unit_span lvl cur :
  1 <= cur <= lvl -> lvl <= 3 -> skipped_unit cur lvl = subtree_span lvl cur.
Proof.
  intros Hc Hl.
  assert (H : lvl = 1 /\ cur = 1 \/ lvl = 2 /\ cur = 1 \/ lvl = 2 /\ cur = 2
              \/ lvl = 3 /\ cur = 1 \/ lvl = 3 /\ cur = 2 \/ lvl = 3 /\ cur = 3) by lia.
  repeat destruct H as [H|H]; destruct H as [-> ->]; done.
Qed.

Lemma next_page_offset_value i a b lvl off noff cur :
  addrs_per_inode i = a -> 0 <= a <= 923 -> node_path a b lvl off noff -> 1 <= cur <= lvl ->
  let base := level_base a lvl in let unit := subtree_span lvl cur in
  0 <= b - base /\ get_next_page_offset i cur lvl b = Some (((b - base) / unit + 1) * unit + base).
Proof.
  intros Hi Ha Hp Hcur. cbv zeta. unfold get_next_page_offset. rewrite Hi.
  assert (Hl : lvl <= 3) by (destruct Hp; lia).
  rewrite skipped_unit_span by done.
  assert (Hr : 0 <= b - level_base a lvl < 2 ^ 31 /\ 0 <= level_base a lvl < 2 ^ 31).
  { inversion Hp; subst; unfold level_base; simpl; lia. }
  assert (Hu : 1 <= subtree_span lvl cur < 2 ^ 31).
  { unfold subtree_span. assert (E : lvl - cur + 1 = 1 \/ lvl - cur + 1 = 2 \/ lvl - cur + 1 = 3) by lia.
    destruct E as [-> |[-> | ->]]; lia. }
  split; [lia|]. rewrite (proj2 (Z.eqb_neq lvl 0)) by lia. path_consts.
  replace (if lvl =? 3 then _ else _) with (Some (level_base a lvl)).
  2: { unfold level_base. assert (E : lvl = 1 \/ lvl = 2 \/ lvl = 3) by lia.
       destruct E as [-> |[-> | ->]]; done. }
  set (u := subtree_span lvl cur) in *. set (base := level_base a lvl) in *.
  rewrite (u64_small (b - base)) by lia.
  assert (0 <= (b - base) / u) by (apply Z.div_pos; lia).
  assert ((b - base) / u * u <= b - base) by (rewrite Z.mul_comm; apply Z.mul_div_le; lia).
  rewrite (u64_small (_ * u)), u64_small by nia. done.
Qed.

(** ** Properties *)

(** C23. [get_node_path] and [start_bidx_of_node] are inverse: for every block
    index a file can have, [get_node_path] succeeds, its last offset is inside
    the last node, the node it ends in is a direct node (or the inode) by
    [IS_DNODE] and those before it are not, and the first block of that node
    plus the offset gives the index back; beyond the file limit it returns
    [-E2BIG]. *)
Theorem node_path_roundtrip i b :
  geom_ok i -> 0 <= b ->
  if b <? addrs_per_inode i + max_file_blocks then
    exists lvl off noff, get_node_path i b = inr (lvl, off, noff) /\
      0 <= lvl <= 3 /\ zlen off = lvl + 1 /\ zlen noff = lvl + 1 /\
      0 <= zget 0 off lvl < (if lvl =? 0 then addrs_per_inode i else ADDRS_PER_BLOCK) /\
      IS_DNODE (zget 0 noff lvl) = true /\
      (forall j, 0 < j < lvl -> IS_DNODE (zget 0 noff j) = false) /\
      start_bidx_of_node (zget 0 noff lvl) i + zget 0 off lvl = b
  else get_node_path i b = inl (- E2BIG).
Proof.
  intros Hg Hb. destruct (addrs_per_inode_ok i Hg) as [_ Ha].
  case_if; [|by apply get_node_path_big].
  destruct (node_path_exists (addrs_per_inode i) b) as (lvl & off & noff & Hp); [done|lia|].
  exists lvl, off, noff. pose proof (node_path_dnode _ _ _ _ _ Hp) as [Hd1 Hd2].
  split; [by eapply node_path_get|].
  split; [destruct Hp; lia|]. split; [destruct Hp; done|]. split; [destruct Hp; done|].
  split; [destruct Hp; unfold zget, ADDRS_PER_BLOCK; simpl; lia|].
  split; [done|]. split; [done|]. by eapply node_path_start.
Qed.

Definition inode0 : inode :=
  mk_inode 4 0x81a4 0 0 1 0 8 0 0 0 0 0 0 0 0 0 0 0 0 0 3 0 0 0 0 0 0 0 0 0 false 0.

Lemma node_path_roundtrip_witness :
  geom_ok inode0 /\ 0 <= 2000000 /\
  exists lvl off noff, get_node_path inode0 2000000 = inr (lvl, off, noff) /\ lvl = 2.
Proof.
  assert (Hg : geom_ok inode0) by (split; [|split]; vm_compute; congruence).
  split; [exact Hg|]. split; [lia|].
  pose proof (node_path_roundtrip inode0 2000000 Hg ltac:(lia)) as H.
  change (2000000 <? addrs_per_inode inode0 + max_file_blocks) with true in H.
  destruct H as (lvl & off & noff & H & _).
  exists lvl, off, noff. split; [exact H|]. vm_compute in H. congruence.
Defined.

(** When the lookup of block [b] finds a hole at depth [cur] of its path,
    [get_next_page_offset] is the first block that does not lie under the
    missing node: every block it skips has the same node at that depth. *)
Theorem next_page_offset_skips_hole i b lvl off noff cur :
  geom_ok i -> 0 <= b -> get_node_path i b = inr (lvl, off, noff) -> 1 <= cur <= lvl ->
  exists r, get_next_page_offset i cur lvl b = Some r /\ b < r /\
    (forall c, b <= c < r -> same_node_at i cur b c) /\ ~ same_node_at i cur b r.
Proof.
  intros Hg Hb Hget Hcur. destruct (addrs_per_inode_ok i Hg) as [_ Ha].
  set (a := addrs_per_inode i) in *.
  assert (Hlt : b < a + max_file_blocks).
  { destruct (Z.lt_ge_cases b (a + max_file_blocks)) as [|Hge]; [done|].
    rewrite get_node_path_big in Hget by done. done. }
  destruct (node_path_exists a b) as (l & o & n & Hp); [done|lia|].
  rewrite (node_path_get a b l o n) in Hget by done.
  injection Hget as -> -> ->.
  destruct (next_page_offset_value i a b lvl off noff cur eq_refl Ha Hp Hcur) as [Hb0 Hv].
  set (base := level_base a lvl) in *. set (u := subtree_span lvl cur) in *.
  assert (Hu : 1 <= u) by (unfold u, subtree_span; apply Z.lt_pred_le, Z.pow_pos_nonneg; lia).
  pose proof (Z.div_mod (b - base) u ltac:(lia)) as Hdm.
  pose proof (Z.mod_pos_bound (b - base) u ltac:(lia)) as Hm.
  set (q := (b - base) / u) in *.
  exists ((q + 1) * u + base). split; [done|]. split; [nia|].
  assert (Hsame : forall c, b <= c -> c < a + max_file_blocks ->
            same_node_at i cur b c <-> q = (c - base) / u).
  { intros c Hc1 Hc2. destruct (node_path_exists a c) as (l2 & o2 & n2 & Hp2); [done|lia|].
    rewrite (same_node_paths i a b c cur _ _ _ _ _ _ eq_refl Ha Hp Hp2).
    rewrite (same_subtree a b c _ _ _ _ _ _ cur Ha Hp Hp2 Hcur). fold base u q.
    split; [tauto|]. split; [lia|done]. }
  assert (Htop : (q + 1) * u + base <= a + max_file_blocks).
  { clear -Hp Hm Hdm Hcur. unfold u, q, base, level_base, subtree_span, max_file_blocks in *.
    path_consts. inversion Hp; subst; simpl in *;
      assert (E : cur = 1 \/ cur = 2 \/ cur = 3) by lia;
      destruct E as [-> |[-> | ->]]; try lia; simpl in *; zdiv. }
  split.
  - intros c Hc. apply Hsame; [lia|lia|].
    apply (Z.div_unique _ _ _ (c - base - u * q)); lia.
  - intros Hs. destruct (Z.lt_ge_cases ((q + 1) * u + base) (a + max_file_blocks)).
    + apply Hsame in Hs; [|nia|done].
      replace ((q + 1) * u + base - base) with ((q + 1) * u) in Hs by lia.
      rewrite Z.div_mul in Hs by lia. lia.
    + unfold same_node_at in Hs. rewrite (get_node_path_big i ((q + 1) * u + base)) in Hs by done.
      destruct (get_node_path i b) as [|[[? ?] ?]]; done.
Qed.

Lemma next_page_offset_skips_hole_witness :
  exists r, get_next_page_offset inode0 1 2 5000 = Some r /\ 5000 < r /\
    (forall c, 5000 <= c < r -> same_node_at inode0 1 5000 c) /\ ~ same_node_at inode0 1 5000 r.
Proof.
  eapply (next_page_offset_skips_hole inode0 5000 2).
  - split; [|split]; vm_compute; congruence.
  - lia.
  - vm_compute. reflexivity.
  - lia.
Defined.
