(* ===== verification/Counts.v ===== *)
(** * Space accounting: valid blocks, valid nodes, reservations (f2fs.h, sysfs.c, super.c)

    [inc_valid_block_count] and its relatives charge and release blocks and
    node ids against the user space of the volume, the reserved blocks and the
    quota of the inode. *)

From S2P Require Import Prelude Inode.
From Stdlib Require Import ZArith Lia.
From stdpp Require Import base numbers option relations list.
#[local] Open Scope Z_scope.
#[local] Open Scope c_scope.

(** ** Data *)

(** The block and node counters of [struct f2fs_sb_info]. *)
Record counts := mk_counts {
  user_block_count : Z;  (* block_t *)
  total_valid_block_count : Z;  (* block_t *)
  current_reserved_blocks : Z;  (* block_t *)
  reserved_blocks : Z;  (* block_t *)
  root_reserved_blocks : Z;  (* block_t *)
  total_node_count : Z;
  total_valid_node_count : Z;
  alloc_valid_block_count : Z;  (* percpu counter, s64 *)
  total_valid_inode_count : Z  (* percpu counter, s64 *)
}.

Definition set_total_valid_block_count (x : Z) (r : counts) : counts :=
  mk_counts (user_block_count r) x (current_reserved_blocks r) (reserved_blocks r) (root_reserved_blocks r) (total_node_count r) (total_valid_node_count r) (alloc_valid_block_count r) (total_valid_inode_count r).
Definition set_current_reserved_blocks (x : Z) (r : counts) : counts :=
  mk_counts (user_block_count r) (total_valid_block_count r) x (reserved_blocks r) (root_reserved_blocks r) (total_node_count r) (total_valid_node_count r) (alloc_valid_block_count r) (total_valid_inode_count r).
Definition set_reserved_blocks (x : Z) (r : counts) : counts :=
  mk_counts (user_block_count r) (total_valid_block_count r) (current_reserved_blocks r) x (root_reserved_blocks r) (total_node_count r) (total_valid_node_count r) (alloc_valid_block_count r) (total_valid_inode_count r).
Definition set_root_reserved_blocks (x : Z) (r : counts) : counts :=
  mk_counts (user_block_count r) (total_valid_block_count r) (current_reserved_blocks r) (reserved_blocks r) x (total_node_count r) (total_valid_node_count r) (alloc_valid_block_count r) (total_valid_inode_count r).
Definition set_total_valid_node_count (x : Z) (r : counts) : counts :=
  mk_counts (user_block_count r) (total_valid_block_count r) (current_reserved_blocks r) (reserved_blocks r) (root_reserved_blocks r) (total_node_count r) x (alloc_valid_block_count r) (total_valid_inode_count r).
Definition set_alloc_valid_block_count (x : Z) (r : counts) : counts :=
  mk_counts (user_block_count r) (total_valid_block_count r) (current_reserved_blocks r) (reserved_blocks r) (root_reserved_blocks r) (total_node_count r) (total_valid_node_count r) x (total_valid_inode_count r).
Definition set_total_valid_inode_count (x : Z) (r : counts) : counts :=
  mk_counts (user_block_count r) (total_valid_block_count r) (current_reserved_blocks r) (reserved_blocks r) (root_reserved_blocks r) (total_node_count r) (total_valid_node_count r) (alloc_valid_block_count r) x.

(** The caller, for the reserved blocks of root: the answers of the VFS. *)
Record cred := mk_cred {
  no_inode : bool;         (* inode == NULL *)
  opt_reserve_root : bool; (* test_opt(sbi, RESERVE_ROOT) *)
  is_noquota : bool;       (* IS_NOQUOTA(inode) *)
  cap_sys_resource : bool; (* capable(CAP_SYS_RESOURCE) *)
  resuid_eq : bool;        (* uid_eq(sbi->s_resuid, current_fsuid()) *)
  resgid_root : bool;      (* gid_eq(sbi->s_resgid, GLOBAL_ROOT_GID) *)
  in_resgid : bool         (* in_group_p(sbi->s_resgid) *)
}.

(** ** Operations *)

Definition F2FS_LOG_SECTORS_PER_BLOCK : Z := 3.

Definition __allow_reserved_blocks (u : cred) : bool :=
  if no_inode u then true
  else if negb (opt_reserve_root u) then false
  else if is_noquota u then true
  else if cap_sys_resource u then true
  else if resuid_eq u then true
  else if negb (resgid_root u) && in_resgid u then true
  else false.

Definition valid_user_blocks (c : counts) : Z := total_valid_block_count c.

Section ops.
Context `{QuotaOps}.

(** [inject] is [time_to_inject(sbi, FAULT_BLOCK)], false when fault injection
    is not configured.  The result is the return value, the final [*count],
    and the states. *)
Definition inc_valid_block_count (inject : bool) (u : cred) (count : Z) (c : counts) (s : dirty_ctx)
    : Z * Z * counts * dirty_ctx :=
  let '(ret, s) := dquot_reserve_block count s in
  if c_true ret then (ret, count, c, s)
  else if inject then (- ENOSPC, count, c, dquot_release_reservation_block count s)
  else
    let c := set_alloc_valid_block_count (alloc_valid_block_count c + count) c in
    let c := set_total_valid_block_count (u32 (total_valid_block_count c + u32 count)) c in
    let avail := u32 (user_block_count c - current_reserved_blocks c) in
    let avail := if negb (__allow_reserved_blocks u) then u32 (avail - root_reserved_blocks c) else avail in
    if total_valid_block_count c >? avail then
      let diff := u32 (total_valid_block_count c - avail) in
      let diff := if diff >? count then count else diff in
      let count := count - diff in
      let c := set_total_valid_block_count (u32 (total_valid_block_count c - diff)) c in
      if count =? 0 then
        let c := set_alloc_valid_block_count (alloc_valid_block_count c - diff) c in
        (- ENOSPC, count, c, dquot_release_reservation_block diff s)
      else
        let s := if c_true diff then dquot_release_reservation_block diff s else s in
        (0, count, c, f2fs_i_blocks_write (u32 count) true true s)
    else (0, count, c, f2fs_i_blocks_write (u32 count) true true s).

(** The last result is whether a [f2fs_bug_on] fires; [count] is a block_t. *)
Definition dec_valid_block_count (count : Z) (c : counts) (s : dirty_ctx) : counts * dirty_ctx * bool :=
  let sectors := u32 (Z.shiftl count F2FS_LOG_SECTORS_PER_BLOCK) in
  let bug := (total_valid_block_count c <? count) || (i_blocks (dc_inode s) <? sectors) in
  let c := set_total_valid_block_count (u32 (total_valid_block_count c - count)) c in
  let c := if c_true (reserved_blocks c) && (current_reserved_blocks c <? reserved_blocks c)
           then set_current_reserved_blocks
                  (Z.min (reserved_blocks c) (u32 (current_reserved_blocks c + count))) c
           else c in
  (c, f2fs_i_blocks_write count false true s, bug).

(** [no_inode u] tells whether [inode] is NULL; [s] is its state if not. *)
Definition inc_valid_node_count (inject : bool) (u : cred) (is_inode : bool) (c : counts) (s : dirty_ctx)
    : Z * counts * dirty_ctx :=
  let quota := negb (no_inode u) && negb is_inode in
  let '(ret, s) := if quota then dquot_reserve_block 1 s else (0, s) in
  if c_true ret then (ret, c, s)
  else
    let enospc := (- ENOSPC, c, if quota then dquot_release_reservation_block 1 s else s) in
    if inject then enospc
    else
      let valid_block_count := u32 (total_valid_block_count c + current_reserved_blocks c + 1) in
      let valid_block_count := if negb (__allow_reserved_blocks u)
                               then u32 (valid_block_count + root_reserved_blocks c)
                               else valid_block_count in
      if valid_block_count >? user_block_count c then enospc
      else
        let valid_node_count := u32 (total_valid_node_count c + 1) in
        if valid_node_count >? total_node_count c then enospc
        else
          let c := set_total_valid_node_count (u32 (total_valid_node_count c + 1)) c in
          let c := set_total_valid_block_count (u32 (total_valid_block_count c + 1)) c in
          let s := if negb (no_inode u) then
                     if is_inode then f2fs_mark_inode_dirty_sync true s
                     else f2fs_i_blocks_write 1 true true s
                   else s in
          (0, set_alloc_valid_block_count (alloc_valid_block_count c + 1) c, s).

Definition dec_valid_node_count (is_inode : bool) (c : counts) (s : dirty_ctx) : counts * dirty_ctx * bool :=
  let bug := negb (c_true (total_valid_block_count c)) || negb (c_true (total_valid_node_count c)) ||
             negb is_inode && negb (c_true (i_blocks (dc_inode s))) in
  let c := set_total_valid_node_count (u32 (total_valid_node_count c - 1)) c in
  let c := set_total_valid_block_count (u32 (total_valid_block_count c - 1)) c in
  let c := if c_true (reserved_blocks c) && (current_reserved_blocks c <? reserved_blocks c)
           then set_current_reserved_blocks (u32 (current_reserved_blocks c + 1)) c else c in
  (c, if negb is_inode then f2fs_i_blocks_write 1 false true s else s, bug).
End ops.

Definition inc_valid_inode_count (c : counts) : counts :=
  set_total_valid_inode_count (total_valid_inode_count c + 1) c.
Definition dec_valid_inode_count (c : counts) : counts :=
  set_total_valid_inode_count (total_valid_inode_count c - 1) c.

(** [f2fs_sbi_store] of the attribute [reserved_blocks], [t] parsed. *)
Definition store_reserved_blocks (t len : Z) (c : counts) : Z * counts :=
  if t >? u32 (user_block_count c - root_reserved_blocks c) then (- EINVAL, c)
  else
    let c := set_reserved_blocks (u32 t) c in
    (len, set_current_reserved_blocks
            (Z.min (reserved_blocks c) (u32 (user_block_count c - valid_user_blocks c))) c).

(** The mount option [reserve_root=arg] ([opt]: is RESERVE_ROOT set already),
    and the limit applied after the options. *)
Definition parse_reserve_root (opt : bool) (arg : Z) (c : counts) : bool * counts :=
  if opt then (opt, c) else (true, set_root_reserved_blocks (u32 arg) c).
Definition limit_reserve_root (opt : bool) (c : counts) : counts :=
  let limit := u32 (Z.shiftl (user_block_count c) 1) / 1000 in
  if opt && (root_reserved_blocks c >? limit) then set_root_reserved_blocks limit c else c.

(** The space part of [f2fs_statfs]: f_bfree, f_bavail, f_files, f_ffree (u64). *)
Definition f2fs_statfs (nquota_files : Z) (c : counts) : Z * Z * Z * Z :=
  let f_bfree := u32 (u32 (user_block_count c - valid_user_blocks c) - current_reserved_blocks c) in
  let f_bavail := if f_bfree >? root_reserved_blocks c then u64 (f_bfree - root_reserved_blocks c) else 0 in
  let avail_node_count := u32 (u32 (total_node_count c - nquota_files) - 3) in
  if avail_node_count >? user_block_count c then (f_bfree, f_bavail, user_block_count c, f_bavail)
  else (f_bfree, f_bavail, avail_node_count,
        Z.min (u64 (avail_node_count - total_valid_node_count c)) f_bavail).

(** ** Lemmas *)

(** The counters of a mounted volume: the blocks in use and the reserved
    blocks fit in the user space, and the two reservations together do. *)
Record counts_wf (c : counts) : Prop := {
  wf_total : 0 <= total_valid_block_count c;
  wf_reserved : 0 <= current_reserved_blocks c <= reserved_blocks c;
  wf_root : 0 <= root_reserved_blocks c /\ reserved_blocks c + root_reserved_blocks c <= user_block_count c;
  wf_space : total_valid_block_count c + current_reserved_blocks c <= user_block_count c;
  wf_width : user_block_count c + root_reserved_blocks c + 1 < 2 ^ 32;
  wf_nodes : 0 <= total_valid_node_count c <= total_node_count c /\ total_node_count c + 1 < 2 ^ 32
}.

(** The blocks the caller may use in all, and what is left of them. *)
Definition avail_blocks (u : cred) (c : counts) : Z :=
  user_block_count c - current_reserved_blocks c
  - (if __allow_reserved_blocks u then 0 else root_reserved_blocks c).
Definition room (u : cred) (c : counts) : Z :=
  Z.max 0 (avail_blocks u c - total_valid_block_count c).

Lemma add_reserved_cancel n i : add_reserved (- n) (add_reserved n i) = i.
Proof.
  transitivity (set_i_reserved_quota (i_reserved_quota i + 4096 * n + 4096 * - n) i); [done|].
  replace (i_reserved_quota i + 4096 * n + 4096 * - n) with (i_reserved_quota i) by lia.
  by destruct i.
Qed.

Lemma with_inode_cancel n s : with_inode (add_reserved (- n)) (with_inode (add_reserved n) s) = s.
Proof. unfold with_inode. cbn [dc_inode]. rewrite add_reserved_cancel. by destruct s. Qed.

Lemma set_counters_back a t a' t' c :
  a = alloc_valid_block_count c -> t = total_valid_block_count c ->
  set_alloc_valid_block_count a (set_total_valid_block_count t
    (set_total_valid_block_count t' (set_alloc_valid_block_count a' c))) = c.
Proof. intros -> ->. by destruct c. Qed.

Lemma set_counters_swap a t t' c :
  set_total_valid_block_count t (set_total_valid_block_count t' (set_alloc_valid_block_count a c)) =
  set_alloc_valid_block_count a (set_total_valid_block_count t c).
Proof. done. Qed.

Section laws.
Context `{QuotaLaws}.

(** The allocation in closed form. *)
Lemma inc_valid_block_count_eq u count c s :
  counts_wf c -> 0 < count -> total_valid_block_count c + count < 2 ^ 32 ->
  (dquot_reserve_block count s).1 = 0 ->
  let got := Z.min count (room u c) in
  inc_valid_block_count false u count c s =
  if got =? 0 then (- ENOSPC, 0, c, s)
  else (0, got,
        set_alloc_valid_block_count (alloc_valid_block_count c + count)
          (set_total_valid_block_count (total_valid_block_count c + got) c),
        f2fs_i_blocks_write got true true
          (if got <? count
           then with_inode (add_reserved (- (count - got))) (with_inode (add_reserved count) s)
           else with_inode (add_reserved count) s)).
Proof.
  intros Hwf Hc Ht Hq. destruct Hwf as [W1 W2 W3 W4 W5 W6].
  unfold inc_valid_block_count. pose proof (reserve_ok count s Hq) as Hs.
  destruct (dquot_reserve_block count s) as [ret s1]. simpl in Hq, Hs. subst ret s1.
  cbn [c_true Z.eqb negb]. cbv zeta.
  cbn [total_valid_block_count user_block_count current_reserved_blocks root_reserved_blocks
       set_alloc_valid_block_count set_total_valid_block_count alloc_valid_block_count].
  rewrite (u32_small count) by lia. rewrite (u32_small (total_valid_block_count c + count)) by lia.
  rewrite (u32_small (user_block_count c - _)) by lia.
  assert (Ha : (if negb (__allow_reserved_blocks u)
                then u32 (user_block_count c - current_reserved_blocks c - root_reserved_blocks c)
                else user_block_count c - current_reserved_blocks c) = avail_blocks u c).
  { unfold avail_blocks. destruct (__allow_reserved_blocks u); simpl; [lia|].
    rewrite u32_small; lia. }
  rewrite Ha. assert (Hr : 0 <= avail_blocks u c <= user_block_count c)
    by (unfold avail_blocks; case_if; lia).
  unfold room. rewrite release_eq.
  destruct (total_valid_block_count c + count >? avail_blocks u c) eqn:E; zbool.
  - rewrite (u32_small (_ + count - _)) by lia.
    destruct (total_valid_block_count c + count - avail_blocks u c >? count) eqn:E2; zbool.
    + rewrite Z.sub_diag, Z.eqb_refl, (proj2 (Z.eqb_eq _ _)) by lia.
      rewrite (u32_small (_ + count - count)) by lia.
      rewrite with_inode_cancel, set_counters_back by lia. done.
    + remember (total_valid_block_count c + count - avail_blocks u c) as diff eqn:Hdiff.
      replace (Z.min count (Z.max 0 (avail_blocks u c - total_valid_block_count c)))
        with (count - diff) by lia.
      rewrite (u32_small (_ + count - diff)) by lia. destruct (count - diff =? 0) eqn:E3; zbool.
      * assert (diff = count) as -> by lia. rewrite with_inode_cancel, Z.sub_diag.
        rewrite set_counters_back by lia. done.
      * rewrite (proj2 (c_true_true diff)), (proj2 (Z.ltb_lt (count - diff) count)) by lia.
        rewrite u32_small by lia. replace (count - (count - diff)) with diff by lia.
        rewrite set_counters_swap. repeat f_equal; lia.
  - replace (Z.min count _) with count by lia.
    rewrite (proj2 (Z.eqb_neq _ _)), Z.ltb_irrefl by lia. done.
Qed.

(** [inc_valid_block_count] gives a caller the blocks asked for as far as
    the user space, the current reservation and (for a caller without the
    privilege) the root reservation leave room: it then charges exactly these
    blocks to the volume and to the inode and gives the rest of the quota
    reservation back; without any room it returns -ENOSPC and changes nothing.
    The counter [alloc_valid_block_count] however grows by all the blocks asked
    for. *)
Theorem inc_valid_block_count_correct u count c s :
  counts_wf c -> 0 < count -> total_valid_block_count c + count < 2 ^ 32 ->
  (dquot_reserve_block count s).1 = 0 ->
  let '(ret, got, c', s') := inc_valid_block_count false u count c s in
  got = Z.min count (room u c) /\
  if got =? 0 then ret = - ENOSPC /\ c' = c /\ s' = s
  else ret = 0 /\
       c' = set_alloc_valid_block_count (alloc_valid_block_count c + count)
              (set_total_valid_block_count (total_valid_block_count c + got) c) /\
       i_blocks (dc_inode s') = i_blocks (dc_inode s) + 8 * got /\
       i_reserved_quota (dc_inode s') = i_reserved_quota (dc_inode s).
Proof.
  intros Hwf Hc Ht Hq. rewrite inc_valid_block_count_eq by done. cbv zeta.
  destruct (Z.min count (room u c) =? 0) eqn:E; [zbool; rewrite E; by split_and!|].
  split; [done|]. rewrite E. split; [done|]. split; [done|].
  destruct (i_blocks_write_blocks (Z.min count (room u c)) true true
    (if Z.min count (room u c) <? count
           then with_inode (add_reserved (- (count - Z.min count (room u c))))
                  (with_inode (add_reserved count) s)
           else with_inode (add_reserved count) s)) as [-> ->]; [].
  cbn [andb]. zbool. case_if; cbn -[Z.mul]; lia.
Qed.

(** [inc_valid_node_count] in closed form, when no error is injected. *)
Lemma inc_valid_node_count_eq u is_inode c s :
  counts_wf c -> (dquot_reserve_block 1 s).1 = 0 ->
  inc_valid_node_count false u is_inode c s =
  if (1 <=? avail_blocks u c - total_valid_block_count c)
     && (total_valid_node_count c <? total_node_count c)
  then (0, set_alloc_valid_block_count (alloc_valid_block_count c + 1)
             (set_total_valid_block_count (total_valid_block_count c + 1)
                (set_total_valid_node_count (total_valid_node_count c + 1) c)),
        if no_inode u then s
        else if is_inode then f2fs_mark_inode_dirty_sync true s
        else f2fs_i_blocks_write 1 true true (with_inode (add_reserved 1) s))
  else (- ENOSPC, c, s).
Proof.
  intros [W1 W2 W3 W4 W5 W6] Hq. unfold inc_valid_node_count. cbv zeta.
  pose proof (reserve_ok 1 s Hq) as Hs.
  destruct (dquot_reserve_block 1 s) as [ret s1]. simpl in Hq, Hs. subst ret s1.
  rewrite (u32_small (_ + _ + 1)), (u32_small (total_valid_node_count c + 1)) by lia.
  rewrite (u32_small (total_valid_block_count c + current_reserved_blocks c + 1 + _)) by lia.
  unfold avail_blocks.
  destruct (__allow_reserved_blocks u), (no_inode u), is_inode; cbn [andb negb c_true Z.eqb];
    rewrite ?release_eq, ?with_inode_cancel; repeat case_if;
    cbn [total_valid_block_count set_total_valid_node_count alloc_valid_block_count
         set_total_valid_block_count]; rewrite ?u32_small by lia; try reflexivity; try lia.
Qed.

(** A step of the accounting, on the counters and the inode concerned.  A free
    that trips a [f2fs_bug_on] is none: the callers free what is in use.  A
    remount may set [reserve_root] anew, as long as the two reservations fit in
    the user space together, which the code does not check (see
    [root_reservation_underflow]). *)
Inductive count_step : counts * dirty_ctx -> counts * dirty_ctx -> Prop :=
  | step_inc_block inject u count c s ret got c' s' :
      0 < count -> total_valid_block_count c + count < 2 ^ 32 ->
      inc_valid_block_count inject u count c s = (ret, got, c', s') ->
      count_step (c, s) (c', s')
  | step_dec_block count c s c' s' :
      0 <= count -> dec_valid_block_count count c s = (c', s', false) ->
      count_step (c, s) (c', s')
  | step_inc_node inject u is_inode c s ret c' s' :
      inc_valid_node_count inject u is_inode c s = (ret, c', s') ->
      count_step (c, s) (c', s')
  | step_dec_node is_inode c s c' s' :
      dec_valid_node_count is_inode c s = (c', s', false) ->
      count_step (c, s) (c', s')
  | step_store t len c s :
      0 <= t -> count_step (c, s) ((store_reserved_blocks t len c).2, s)
  | step_remount opt arg c s opt' c1 c' :
      parse_reserve_root opt arg c = (opt', c1) -> limit_reserve_root opt' c1 = c' ->
      reserved_blocks c' + root_reserved_blocks c' <= user_block_count c' ->
      user_block_count c' + root_reserved_blocks c' + 1 < 2 ^ 32 ->
      count_step (c, s) (c', s)
  | step_inode_count inc c s :
      count_step (c, s) (if inc : bool then inc_valid_inode_count c else dec_valid_inode_count c, s).

Lemma reserve_back_wf n s :
  dirty_wf s ->
  dirty_wf (dquot_release_reservation_block n (dquot_reserve_block n s).2) /\
  dirty_wf (dquot_reserve_block n s).2.
Proof.
  intros Hwf. rewrite release_eq.
  assert (dirty_wf (dquot_reserve_block n s).2).
  { destruct (decide ((dquot_reserve_block n s).1 = 0)) as [E|E].
    - rewrite reserve_ok by done. by apply with_inode_wf.
    - by rewrite reserve_err. }
  split; [by apply with_inode_wf|done].
Qed.

(** A failing call, injected or not, leaves the counters alone. *)
Lemma inc_valid_block_count_wf inject u count c s :
  counts_wf c -> dirty_wf s -> 0 < count -> total_valid_block_count c + count < 2 ^ 32 ->
  let '(_, _, c', s') := inc_valid_block_count inject u count c s in counts_wf c' /\ dirty_wf s'.
Proof.
  intros Hwf Hd Hc Ht. destruct (reserve_back_wf count s Hd) as [Hd1 Hd2].
  destruct (decide ((dquot_reserve_block count s).1 = 0)) as [Hq|Hq]; [destruct inject|].
  - unfold inc_valid_block_count. destruct (dquot_reserve_block count s) as [ret s1].
    simpl in *. by subst ret.
  - rewrite inc_valid_block_count_eq by done. cbv zeta. case_if; [done|]. split.
    + destruct Hwf as [W1 W2 W3 W4 W5 W6]. revert E. unfold room, avail_blocks.
      destruct (__allow_reserved_blocks u); intros; split; simpl; lia.
    + apply i_blocks_write_wf. case_if; repeat apply with_inode_wf; done.
  - unfold inc_valid_block_count. destruct (dquot_reserve_block count s) as [ret s1].
    simpl in *. by rewrite (proj2 (c_true_true ret)).
Qed.

Lemma inc_valid_node_count_wf inject u is_inode c s :
  counts_wf c -> dirty_wf s ->
  let '(_, c', s') := inc_valid_node_count inject u is_inode c s in counts_wf c' /\ dirty_wf s'.
Proof.
  intros Hwf Hd. destruct (reserve_back_wf 1 s Hd) as [Hd1 Hd2].
  destruct (decide ((dquot_reserve_block 1 s).1 = 0)) as [Hq|Hq]; [destruct inject|].
  - unfold inc_valid_node_count. destruct (dquot_reserve_block 1 s) as [ret s1].
    simpl in *. subst ret. destruct (negb (no_inode u) && negb is_inode); done.
  - rewrite inc_valid_node_count_eq by done. case_if; [|done]. split.
    + destruct Hwf as [W1 W2 W3 W4 W5 W6].
      assert (Hcut : avail_blocks u c <= user_block_count c - current_reserved_blocks c)
        by (unfold avail_blocks; case_if; lia).
      split; simpl; lia.
    + repeat case_if; [done|by apply mark_dirty_wf|].
      by apply i_blocks_write_wf, with_inode_wf.
  - unfold inc_valid_node_count. destruct (negb (no_inode u) && negb is_inode) eqn:E.
    + destruct (dquot_reserve_block 1 s) as [ret s1]. simpl in *.
      by rewrite (proj2 (c_true_true ret)).
    + cbn [c_true Z.eqb negb]. cbv zeta.
      destruct Hwf as [W1 W2 W3 W4 W5 W6].
      rewrite (u32_small (_ + _ + 1)), (u32_small (total_valid_node_count c + 1)) by lia.
      rewrite (u32_small (total_valid_block_count c + current_reserved_blocks c + 1 + _)) by lia.
      destruct inject; [by split|].
      repeat case_if; try by split. all: split; [split; simpl; rewrite ?u32_small by lia; lia|].
      all: try done; try by apply mark_dirty_wf. all: by apply i_blocks_write_wf.
Qed.

(** A remount changes the reservation of root only. *)
Lemma remount_root opt arg c opt' c1 :
  parse_reserve_root opt arg c = (opt', c1) ->
  exists r, limit_reserve_root opt' c1 = set_root_reserved_blocks r c /\ 0 <= r \/ limit_reserve_root opt' c1 = c.
Proof.
  unfold parse_reserve_root, limit_reserve_root. pose proof (u32_range arg) as Ha.
  assert (Hl : forall x, 0 <= u32 x / 1000) by (intros x; pose proof (u32_range x); zdiv).
  destruct opt; intros Hp; injection Hp as <- <-; cbv zeta.
  - destruct (true && _); [eexists; left; split; [reflexivity|apply Hl]|exists 0; by right].
  - destruct (true && _); eexists; left; (split; [reflexivity|apply Hl || lia]).
Qed.

Lemma count_step_wf st st' :
  count_step st st' -> counts_wf st.1 /\ dirty_wf st.2 -> counts_wf st'.1 /\ dirty_wf st'.2.
Proof.
  destruct 1 as [inject u count c s ret got c' s' Hc Ht E|count c s c' s' Hc E
    |inject u is_inode c s ret c' s' E|is_inode c s c' s' E|t len c s Ht
    |opt arg c s opt' c1 c' Hp Hl Hr Hw|inc c s];
    simpl; intros [Hwf Hd].
  - pose proof (inc_valid_block_count_wf inject u count c s Hwf Hd Hc Ht) as Hw.
    by rewrite E in Hw.
  - unfold dec_valid_block_count in E. injection E as <- <- Hbug. zbool.
    split; [|by apply i_blocks_write_wf]. destruct Hwf as [W1 W2 W3 W4 W5 W6].
    rewrite (u32_small (_ - count)) by lia. simpl.
    case_if; split; simpl; rewrite ?u32_small by lia; lia.
  - pose proof (inc_valid_node_count_wf inject u is_inode c s Hwf Hd) as Hw. by rewrite E in Hw.
  - unfold dec_valid_node_count in E. injection E as <- <- Hbug. zbool.
    match goal with Hb : c_true (total_valid_block_count c) = true, Hn : c_true (total_valid_node_count c) = true |- _ =>
      apply c_true_true in Hb, Hn end. destruct Hwf as [W1 W2 W3 W4 W5 W6].
    split; [|by case_if; [apply i_blocks_write_wf|]].
    rewrite !(u32_small (_ - 1)) by lia. simpl.
    case_if; split; simpl; rewrite ?u32_small by lia; lia.
  - destruct Hwf as [W1 W2 W3 W4 W5 W6]. unfold store_reserved_blocks, valid_user_blocks.
    rewrite !u32_small by lia. case_if; simpl; (split; [|done]); split; simpl; rewrite ?u32_small by lia; lia.
  - split; [|done]. destruct Hwf as [W1 W2 W3 W4 W5 W6].
    destruct (remount_root opt arg c opt' c1 Hp) as (r & [[E Hr0]|E]); rewrite E in Hl; clear E; subst c';
      simpl in *; split; simpl; lia.
  - destruct Hwf as [W1 W2 W3 W4 W5 W6]. split; [|done]. destruct inc; split; simpl; lia.
Qed.

(** C21. However blocks and nodes are allocated and freed, the attribute
    [reserved_blocks] is stored and the volume is remounted with another
    [reserve_root] that fits in the user space beside [reserved_blocks], injected
    faults and quota failures included, as long as only what is in use is freed,
    the blocks in use and the current
    reservation fit in the user space, the nodes in the node ids, and the dirty
    inode list stays consistent. *)
Theorem counts_invariant st st' :
  rtc count_step st st' -> counts_wf st.1 -> dirty_wf st.2 ->
  counts_wf st'.1 /\ dirty_wf st'.2.
Proof.
  intros Hr Hwf Hd. assert (H1 : counts_wf st.1 /\ dirty_wf st.2) by done. clear Hwf Hd.
  induction Hr as [|x y z Hxy _ IH]; [done|]. by apply IH, (count_step_wf x).
Qed.

(** What [f2fs_statfs] reports is what can be allocated: f_bfree is the
    unused user space less the reservation, and a caller without the privilege
    who asks for more than f_bavail gets exactly f_bavail blocks, or -ENOSPC if
    that is 0. *)
Theorem statfs_available nquota u count c s :
  counts_wf c -> __allow_reserved_blocks u = false ->
  (dquot_reserve_block count s).1 = 0 -> total_valid_block_count c + count < 2 ^ 32 ->
  let '(f_bfree, f_bavail, _, _) := f2fs_statfs nquota c in
  f_bfree = user_block_count c - total_valid_block_count c - current_reserved_blocks c /\
  0 <= f_bavail <= f_bfree /\
  (f_bavail < count ->
   let '(ret, got, _, _) := inc_valid_block_count false u count c s in
   got = f_bavail /\ ret = if f_bavail =? 0 then - ENOSPC else 0).
Proof.
  intros Hwf Hu Hq Hc. pose proof (inc_valid_block_count_eq u count c s Hwf) as Heq.
  destruct Hwf as [W1 W2 W3 W4 W5 W6].
  unfold f2fs_statfs, valid_user_blocks. cbv zeta.
  rewrite (u32_small (user_block_count c - _)) by lia. rewrite (u32_small (_ - _ - _)) by lia.
  assert (Hb : (if user_block_count c - total_valid_block_count c - current_reserved_blocks c
                   >? root_reserved_blocks c
                then u64 (user_block_count c - total_valid_block_count c - current_reserved_blocks c
                          - root_reserved_blocks c) else 0) = room u c).
  { unfold room, avail_blocks. rewrite Hu. case_if; rewrite ?u64_small by lia; lia. }
  rewrite Hb. assert (0 <= room u c <=
    user_block_count c - total_valid_block_count c - current_reserved_blocks c).
  { unfold room, avail_blocks. rewrite Hu. lia. }
  case_if; (split; [done|]; split; [done|]; intros Hlt);
    rewrite Heq by (done || lia); cbv zeta; rewrite Z.min_r by lia;
    (destruct (room u c =? 0) eqn:E0; zbool; [by rewrite E0|by split]).
Qed.
End laws.

(** ** A quota layer that never refuses, and the witnesses *)

Definition no_quota : QuotaOps := {|
  dquot_reserve_block n s := (0, with_inode (add_reserved n) s);
  dquot_release_reservation_block n s := with_inode (add_reserved (- n)) s;
  dquot_claim_block n s :=
    mark_inode_dirty_sync (with_inode (fun i => add_blocks n (add_reserved (- n) i)) s);
  dquot_alloc_block_nofail n s := mark_inode_dirty_sync (with_inode (add_blocks n) s);
  dquot_free_block n s := mark_inode_dirty_sync (with_inode (add_blocks (- n)) s)
|}.

Lemma no_quota_laws : @QuotaLaws no_quota.
Proof. by split. Qed.

Definition user : cred := mk_cred false true false false false true false.
Definition counts0 : counts := mk_counts 1000 900 40 50 30 200 100 0 0.
Definition ctx0 : dirty_ctx :=
  mk_dirty (mk_inode 7 0x81a4 0 0 1 100 8 0 0 0 0 0 0 0 0 0 0 0 0 0 3 0 0 0 0 0 0 0 0 0 false 0)
    [] 0 0 0 false.

Lemma counts0_wf : counts_wf counts0.
Proof. split; simpl; lia. Qed.

Lemma ctx0_wf : dirty_wf ctx0.
Proof.
  split_and!; try done.
  - split; [done|]. intros H. by apply elem_of_nil in H.
  - constructor.
Qed.

Lemma inc_valid_block_count_correct_witness :
  let '(ret, got, c', s') := @inc_valid_block_count no_quota false user 100 counts0 ctx0 in
  ret = 0 /\ got = 30 /\ alloc_valid_block_count c' = 100 /\ i_blocks (dc_inode s') = 248.
Proof.
  pose proof (@inc_valid_block_count_correct no_quota no_quota_laws user 100 counts0 ctx0 counts0_wf
    ltac:(lia) ltac:(simpl; lia) eq_refl) as H.
  destruct (@inc_valid_block_count no_quota false user 100 counts0 ctx0) as [[[ret got] c'] s'].
  destruct H as [-> H]. change (Z.min 100 (room user counts0)) with 30 in *.
  destruct H as (-> & -> & -> & _). repeat split.
Defined.

Lemma counts_invariant_witness :
  let st := (counts0, ctx0) in
  let st' := (@dec_valid_node_count no_quota false counts0 ctx0).1 in
  counts_wf st'.1 /\ total_valid_block_count st'.1 = 899 /\ current_reserved_blocks st'.1 = 41.
Proof.
  intros st st'. split; [|split; reflexivity].
  apply (@counts_invariant no_quota no_quota_laws st st'); [|exact counts0_wf|exact ctx0_wf].
  apply rtc_once. apply (@step_dec_node no_quota false counts0 ctx0); reflexivity.
Defined.

Lemma statfs_available_witness :
  let '(f_bfree, f_bavail, _, _) := f2fs_statfs 0 counts0 in
  f_bfree = 60 /\ f_bavail = 30 /\
  (let '(ret, got, _, _) := @inc_valid_block_count no_quota false user 31 counts0 ctx0 in
   got = 30 /\ ret = 0).
Proof.
  pose proof (@statfs_available no_quota no_quota_laws 0 user 31 counts0 ctx0 counts0_wf eq_refl eq_refl
    ltac:(simpl; lia)) as H.
  change (f2fs_statfs 0 counts0) with (60, 30, 197, 30) in *. cbv beta iota in *.
  destruct H as (_ & _ & H). split; [done|]. split; [done|]. exact (H ltac:(lia)).
Defined.

(** ** When the reservations exceed the user space *)

(** The administrator can set [reserved_blocks] up to the whole user space
    and then remount with [reserve_root]: the unsigned subtraction of
    [inc_valid_block_count] wraps around, and a caller without any privilege
    allocates blocks on a volume that has none left, beyond the user space. *)
Theorem root_reservation_underflow :
  exists c1 c2 ret got c3 s3,
    counts_wf (mk_counts 1000 0 0 0 0 200 0 0 0) /\
    store_reserved_blocks 1000 5 (mk_counts 1000 0 0 0 0 200 0 0 0) = (5, c1) /\
    limit_reserve_root true (parse_reserve_root false 2 c1).2 = c2 /\
    __allow_reserved_blocks user = false /\
    @inc_valid_block_count no_quota false user 100 c2 ctx0 = (ret, got, c3, s3) /\
    ret = 0 /\ got = 100 /\
    user_block_count c3 < total_valid_block_count c3 + current_reserved_blocks c3.
Proof.
  do 6 eexists. split; [split; simpl; lia|].
  split; [vm_compute; reflexivity|]. split; [vm_compute; reflexivity|].
  split; [reflexivity|]. split; [vm_compute; reflexivity|].
  split; [reflexivity|]. split; [reflexivity|]. vm_compute. reflexivity.
Qed.
