(* ===== verification/Journal.v ===== *)
(** * The NAT and SIT journals of a summary block (f2fs.h, segment.c)

    A summary block keeps the most recent NAT or SIT entries in a small array:
    [n_ents] entries in use, each under its nid or segment number.  The two
    journals have the same code; [cap] is the number of slots of the type.  *)

From S2P Require Import Prelude.
From Stdlib Require Import ZArith Lia.
From stdpp Require Import base numbers option list.
#[local] Open Scope Z_scope.
#[local] Open Scope c_scope.

Definition SUM_JOURNAL_SIZE : Z := 4096 - 5 - 512 * 7.
Definition NAT_JOURNAL_ENTRIES : Z := (SUM_JOURNAL_SIZE - 2) / (4 + 9).
Definition SIT_JOURNAL_ENTRIES : Z := (SUM_JOURNAL_SIZE - 2) / (4 + 74).

Section journal.
Context {E : Type} (e0 : E) (cap : Z).

Record journal := mk_journal {
  n_ents : Z;            (* n_nats or n_sits, le16 *)
  slots : list (Z * E)   (* nat_j.entries or sit_j.entries *)
}.

(** [nats_in_cursum] / [sits_in_cursum], [nid_in_journal] / [segno_in_journal],
    [nat_in_journal] / [sit_in_journal]. *)
Definition id_in_journal (j : journal) (i : Z) : Z := (zget (0, e0) (slots j) i).1.
Definition ent_in_journal (j : journal) (i : Z) : E := (zget (0, e0) (slots j) i).2.
Definition set_in_journal (j : journal) (i id : Z) (e : E) : journal :=
  mk_journal (n_ents j) (zset (slots j) i (id, e)).

Definition MAX_JENTRIES (j : journal) : Z := cap - n_ents j.

(** [update_nats_in_cursum], [update_sits_in_cursum]: the old count too. *)
Definition update_in_cursum (j : journal) (i : Z) : Z * journal :=
  (n_ents j, mk_journal (u16 (n_ents j + i)) (slots j)).

Definition __has_cursum_space (j : journal) (size : Z) : bool := size <=? MAX_JENTRIES j.

(** The [for] loop from [i], [n] entries to go. *)
Fixpoint journal_scan (j : journal) (val i : Z) (n : nat) : Z :=
  match n with
  | O => -1
  | S n => if id_in_journal j i =? val then i else journal_scan j val (i + 1) n
  end.

Definition lookup_journal_in_cursum (j : journal) (val : Z) (alloc : bool) : Z * journal :=
  let i := journal_scan j val 0 (Z.to_nat (n_ents j)) in
  if 0 <=? i then (i, j)
  else if alloc && __has_cursum_space j 1 then update_in_cursum j 1
  else (-1, j).

(** ** What a journal holds *)

(** The entry of [val], if there is one. *)
Definition j_find (j : journal) (val : Z) : option E :=
  let i := (lookup_journal_in_cursum j val false).1 in
  if 0 <=? i then Some (ent_in_journal j i) else None.

(** The code's way of writing the entry of [val]. *)
Definition j_put (j : journal) (val : Z) (e : E) : journal :=
  let '(offset, j) := lookup_journal_in_cursum j val true in set_in_journal j offset val e.

Record journal_wf (j : journal) : Prop := {
  jw_count : 0 <= n_ents j <= cap;
  jw_slots : zlen (slots j) = cap;
  jw_cap : cap < 2 ^ 16;
  jw_distinct : forall i k, 0 <= i < n_ents j -> 0 <= k < n_ents j ->
    id_in_journal j i = id_in_journal j k -> i = k
}.

Lemma journal_scan_spec j val n i :
  let r := journal_scan j val i n in
  (r = -1 /\ forall k, i <= k < i + Z.of_nat n -> id_in_journal j k <> val) \/
  (i <= r < i + Z.of_nat n /\ id_in_journal j r = val).
Proof.
  cbv zeta. revert i. induction n as [|n IH]; intros i; simpl journal_scan.
  - left. split; [done|]. intros; lia.
  - destruct (Z.eqb_spec (id_in_journal j i) val) as [E1|E1]; [right; split; [lia|done]|].
    destruct (IH (i + 1)) as [[-> H]|[H1 H2]].
    + left. split; [done|]. intros k Hk. destruct (decide (k = i)) as [->|]; [done|]. apply H; lia.
    + right. split; [lia|done].
Qed.

Lemma j_find_eq j val :
  j_find j val = let i := journal_scan j val 0 (Z.to_nat (n_ents j)) in
                 if 0 <=? i then Some (ent_in_journal j i) else None.
Proof.
  unfold j_find, lookup_journal_in_cursum. cbv zeta. cbn [andb].
  destruct (0 <=? journal_scan j val 0 (Z.to_nat (n_ents j))) eqn:E1; simpl; [by rewrite E1|done].
Qed.

Lemma j_find_Some j val e :
  j_find j val = Some e ->
  exists i, 0 <= i < n_ents j /\ id_in_journal j i = val /\ ent_in_journal j i = e.
Proof.
  rewrite j_find_eq. cbv zeta.
  destruct (journal_scan_spec j val (Z.to_nat (n_ents j)) 0) as [[-> _]|[H1 H2]]; [done|].
  rewrite (proj2 (Z.leb_le _ _)) by lia.
  intros [= <-]. eexists. split; [|done]. lia.
Qed.

Lemma j_find_at j i :
  journal_wf j -> 0 <= i < n_ents j -> j_find j (id_in_journal j i) = Some (ent_in_journal j i).
Proof.
  intros Hwf Hi. rewrite j_find_eq. cbv zeta.
  destruct (journal_scan_spec j (id_in_journal j i) (Z.to_nat (n_ents j)) 0) as [[-> H]|[H1 H2]].
  - exfalso. apply (H i); [lia|done].
  - rewrite (proj2 (Z.leb_le _ _)) by lia.
    f_equal. f_equal. apply (jw_distinct j Hwf); [lia|done|done].
Qed.

Lemma j_find_None j val :
  j_find j val = None -> forall i, 0 <= i < n_ents j -> id_in_journal j i <> val.
Proof.
  intros Hn i Hi. rewrite j_find_eq in Hn. cbv zeta in Hn.
  destruct (journal_scan_spec j val (Z.to_nat (n_ents j)) 0) as [[E1 H]|[H1 H2]].
  - apply H. lia.
  - by rewrite (proj2 (Z.leb_le _ _)) in Hn by lia.
Qed.

Lemma j_find_empty j val : n_ents j = 0 -> j_find j val = None.
Proof. intros H. unfold j_find, lookup_journal_in_cursum. rewrite H. done. Qed.

Lemma id_set_in_journal j i id e k :
  journal_wf j -> 0 <= i < cap ->
  id_in_journal (set_in_journal j i id e) k = if i =? k then id else id_in_journal j k.
Proof.
  intros Hwf Hi. unfold id_in_journal, set_in_journal. simpl.
  rewrite zget_zset by (rewrite (jw_slots j Hwf); done). by case_if.
Qed.

Lemma ent_set_in_journal j i id e k :
  journal_wf j -> 0 <= i < cap ->
  ent_in_journal (set_in_journal j i id e) k = if i =? k then e else ent_in_journal j k.
Proof.
  intros Hwf Hi. unfold ent_in_journal, set_in_journal. simpl.
  rewrite zget_zset by (rewrite (jw_slots j Hwf); done). by case_if.
Qed.

(** Two journals of the same entries hold the same. *)
Lemma j_find_unique j val e :
  journal_wf j ->
  (exists i, 0 <= i < n_ents j /\ id_in_journal j i = val /\ ent_in_journal j i = e) ->
  j_find j val = Some e.
Proof. intros Hwf (i & Hi & <- & <-). by apply j_find_at. Qed.

Lemma j_find_none_intro j val :
  (forall i, 0 <= i < n_ents j -> id_in_journal j i <> val) -> j_find j val = None.
Proof.
  intros H. destruct (j_find j val) as [e|] eqn:E1; [|done].
  apply j_find_Some in E1 as (i & Hi & Hv & _). exfalso. by apply (H i).
Qed.

(** Writing an entry: the slot it goes to, and what is found after. *)
Lemma j_put_cases j val e :
  journal_wf j -> j_find j val <> None \/ n_ents j < cap ->
  (exists i, 0 <= i < n_ents j /\ id_in_journal j i = val /\ j_put j val e = set_in_journal j i val e) \/
  (j_find j val = None /\ n_ents j < cap /\
   j_put j val e = set_in_journal (mk_journal (n_ents j + 1) (slots j)) (n_ents j) val e).
Proof.
  intros Hwf Hroom. pose proof (jw_count j Hwf). pose proof (jw_cap j Hwf).
  unfold j_put, lookup_journal_in_cursum. cbv zeta.
  destruct (journal_scan_spec j val (Z.to_nat (n_ents j)) 0) as [[-> Hn]|[H1 H2]].
  - right. assert (Hf : j_find j val = None) by (apply j_find_none_intro; intros; apply Hn; lia).
    destruct Hroom as [|Hroom]; [done|].
    split; [done|]. split; [done|].
    unfold __has_cursum_space, MAX_JENTRIES. change (0 <=? -1) with false. cbn [andb].
    rewrite (proj2 (Z.leb_le _ _)) by lia. unfold update_in_cursum. by rewrite u16_small by lia.
  - left. rewrite (proj2 (Z.leb_le _ _)) by lia. eexists. split; [|split; [exact H2|done]]. lia.
Qed.

Lemma lookup_alloc j val : journal_wf j -> j_find j val <> None \/ n_ents j < cap ->
  0 <= (lookup_journal_in_cursum j val true).1.
Proof.
  intros Hwf Hroom. pose proof (jw_count j Hwf). unfold lookup_journal_in_cursum. cbv zeta.
  destruct (journal_scan_spec j val (Z.to_nat (n_ents j)) 0) as [[-> Hn]|[H1 _]].
  - change (0 <=? -1) with false. destruct Hroom as [Hf|Hlt].
    + destruct Hf. apply j_find_none_intro. intros; apply Hn; lia.
    + unfold __has_cursum_space, MAX_JENTRIES. cbn [andb]. rewrite (proj2 (Z.leb_le _ _)) by lia. simpl. lia.
  - rewrite (proj2 (Z.leb_le _ _)) by lia. simpl. lia.
Qed.

Lemma j_put_spec j val e :
  journal_wf j -> j_find j val <> None \/ n_ents j < cap ->
  journal_wf (j_put j val e) /\ n_ents j <= n_ents (j_put j val e) <= n_ents j + 1 /\
  forall v, j_find (j_put j val e) v = if v =? val then Some e else j_find j v.
Proof.
  intros Hwf Hroom. pose proof (jw_count j Hwf). pose proof (jw_cap j Hwf).
  pose proof (jw_slots j Hwf).
  destruct (j_put_cases j val e Hwf Hroom) as [(i & Hi & Hid & ->)|(Hn & Hlt & ->)].
  - assert (Hid' : forall k, id_in_journal (set_in_journal j i val e) k = id_in_journal j k).
    { intros k. rewrite id_set_in_journal by (done || lia). case_if; [by subst|done]. }
    assert (Hwf' : journal_wf (set_in_journal j i val e)).
    { split; simpl; [done|by rewrite zlen_zset|done|].
      intros a b Ha Hb. rewrite !Hid'. by apply (jw_distinct j Hwf). }
    split; [done|]. split; [simpl; lia|]. intros v. case_if.
    + subst v. apply j_find_unique; [done|]. exists i. rewrite Hid', ent_set_in_journal by (done || lia).
      by rewrite Z.eqb_refl.
    + destruct (j_find j v) as [e'|] eqn:Ev.
      * apply j_find_Some in Ev as (k & Hk & Hkv & Hke). apply j_find_unique; [done|].
        exists k. rewrite Hid', ent_set_in_journal by (done || lia).
        split; [done|]. split; [done|]. case_if; [|done]. by subst.
      * apply j_find_none_intro. intros k Hk. rewrite Hid'. by apply (j_find_None j v).
  - set (j1 := mk_journal (n_ents j + 1) (slots j)).
    assert (Hid' : forall k, id_in_journal (set_in_journal j1 (n_ents j) val e) k =
                        if n_ents j =? k then val else id_in_journal j k).
    { intros k. unfold id_in_journal, set_in_journal. simpl.
      rewrite zget_zset by lia. by case_if. }
    assert (Hent' : forall k, ent_in_journal (set_in_journal j1 (n_ents j) val e) k =
                        if n_ents j =? k then e else ent_in_journal j k).
    { intros k. unfold ent_in_journal, set_in_journal. simpl.
      rewrite zget_zset by lia. by case_if. }
    pose proof (j_find_None j val Hn) as Hfresh.
    assert (Hwf' : journal_wf (set_in_journal j1 (n_ents j) val e)).
    { split; simpl; [lia|by rewrite zlen_zset|done|].
      intros a b Ha Hb. rewrite !Hid'.
      destruct (Z.eqb_spec (n_ents j) a), (Z.eqb_spec (n_ents j) b); intros Heq; subst; try done.
      - exfalso. apply (Hfresh b); [lia|done].
      - exfalso. apply (Hfresh a); [lia|done].
      - apply (jw_distinct j Hwf); [lia|lia|done]. }
    split; [done|]. split; [simpl; lia|]. intros v. case_if.
    + subst v. apply j_find_unique; [done|]. exists (n_ents j).
      rewrite Hid', Hent', Z.eqb_refl. split; [simpl; lia|done].
    + destruct (j_find j v) as [e'|] eqn:Ev.
      * apply j_find_Some in Ev as (k & Hk & Hkv & Hke). apply j_find_unique; [done|].
        exists k. rewrite Hid', Hent'. rewrite (proj2 (Z.eqb_neq _ _)) by lia. simpl.
        split; [lia|done].
      * apply j_find_none_intro. simpl. intros k Hk. rewrite Hid'. case_if; [congruence|].
        apply (j_find_None j v); [done|lia].
Qed.
(** The first [i] entries. *)
Lemma journal_prefix_wf j i : journal_wf j -> 0 <= i <= n_ents j -> journal_wf (mk_journal i (slots j)).
Proof.
  intros [J1 J2 J3 J4] Hi. split; simpl; [lia|done|done|]. intros a b Ha Hb. apply J4; lia.
Qed.

Lemma j_find_prefix j i x : journal_wf j -> 0 <= i < n_ents j ->
  j_find (mk_journal (i + 1) (slots j)) x = if x =? id_in_journal j i then Some (ent_in_journal j i) else j_find (mk_journal i (slots j)) x.
Proof.
  intros Hwf Hi. pose proof (journal_prefix_wf j (i + 1) Hwf ltac:(lia)) as W. destruct (Z.eqb_spec x (id_in_journal j i)) as [->|Hne].
  - apply j_find_unique; [done|]. exists i. simpl. split; [lia|done].
  - destruct (j_find (mk_journal i (slots j)) x) as [e|] eqn:Ef.
    + apply j_find_Some in Ef as (k & Hk & H1 & H2). simpl in Hk. apply j_find_unique; [done|]. exists k. simpl. split; [lia|done].
    + apply j_find_none_intro. simpl. intros k Hk Hid. destruct (decide (k = i)) as [->|]; [by apply Hne|].
      apply (j_find_None _ _ Ef k); [simpl; lia|done].
Qed.
End journal.

Arguments journal : clear implicits.
Arguments mk_journal {E}.
Arguments n_ents {E}.
Arguments slots {E}.
