(* ===== verification/Nat.v ===== *)
(** * The node address table: addresses, cache, lookup and update (node.c, node.h)

    The NAT maps a node id to the address of its block.  Its current content is
    spread over three places: the NAT cache in memory, the NAT journal of the
    hot-data summary block, and the NAT blocks, each of which has two copies on
    disk of which a bit of the version bitmap selects the valid one. *)

From S2P Require Import Prelude Bits Inode Journal.
From Stdlib Require Import ZArith Lia.
From stdpp Require Import base numbers option gmap list.
#[local] Open Scope Z_scope.
#[local] Open Scope c_scope.

(** ** Data *)

Definition NAT_ENTRY_PER_BLOCK : Z := 4096 / 9.
Definition NAT_BLOCK_OFFSET (start_nid : Z) : Z := start_nid / NAT_ENTRY_PER_BLOCK.
Definition START_NID (nid : Z) : Z := NAT_BLOCK_OFFSET nid * NAT_ENTRY_PER_BLOCK.

(** [struct f2fs_nat_entry], the entry of a NAT block or of the journal. *)
Record f2fs_nat_entry := mk_raw_nat {
  ne_version : Z;
  ne_ino : Z;
  ne_block_addr : Z
}.
Definition raw_nat0 : f2fs_nat_entry := mk_raw_nat 0 0 0.

(** [struct node_info]; a [struct nat_entry] is one, linked on a list by its nid. *)
Record node_info := mk_ni {
  ni_nid : Z;  (* node id *)
  ni_ino : Z;  (* inode number of the node's owner *)
  ni_blk_addr : Z;  (* block address of the node *)
  ni_version : Z;  (* unsigned char *)
  ni_flag : Z  (* unsigned char, node information bits *)
}.

Definition set_ni_nid (x : Z) (r : node_info) : node_info :=
  mk_ni x (ni_ino r) (ni_blk_addr r) (ni_version r) (ni_flag r).
Definition set_ni_ino (x : Z) (r : node_info) : node_info :=
  mk_ni (ni_nid r) x (ni_blk_addr r) (ni_version r) (ni_flag r).
Definition set_ni_blk_addr (x : Z) (r : node_info) : node_info :=
  mk_ni (ni_nid r) (ni_ino r) x (ni_version r) (ni_flag r).
Definition set_ni_version (x : Z) (r : node_info) : node_info :=
  mk_ni (ni_nid r) (ni_ino r) (ni_blk_addr r) x (ni_flag r).
Definition set_ni_flag (x : Z) (r : node_info) : node_info :=
  mk_ni (ni_nid r) (ni_ino r) (ni_blk_addr r) (ni_version r) x.

Definition IS_CHECKPOINTED : Z := 0.
Definition HAS_FSYNCED_INODE : Z := 1.
Definition HAS_LAST_FSYNC : Z := 2.
Definition IS_DIRTY : Z := 3.

(** [struct nat_entry_set]; its list holds the dirty entries that have an
    address, [entry_cnt] counts those without (NEW_ADDR) too. *)
Record nat_entry_set := mk_set {
  entry_list : list Z;
  entry_cnt : Z
}.

(** The NAT cache of [struct f2fs_nm_info].  The radix trees are maps, a list
    of entries is the list of their nids. *)
Record cache := mk_cache {
  nat_root : gmap Z node_info;  (* the entries, by nid *)
  nat_set_root : gmap Z nat_entry_set;  (* the sets of dirty entries, by NAT block *)
  nat_entries : list Z;  (* the clean entries *)
  nat_cnt : Z;
  dirty_nat_cnt : Z;
  nat_bug : bool  (* a f2fs_bug_on has fired *)
}.

Definition set_nat_root (x : gmap Z node_info) (r : cache) : cache :=
  mk_cache x (nat_set_root r) (nat_entries r) (nat_cnt r) (dirty_nat_cnt r) (nat_bug r).
Definition set_nat_set_root (x : gmap Z nat_entry_set) (r : cache) : cache :=
  mk_cache (nat_root r) x (nat_entries r) (nat_cnt r) (dirty_nat_cnt r) (nat_bug r).
Definition set_nat_entries (x : list Z) (r : cache) : cache :=
  mk_cache (nat_root r) (nat_set_root r) x (nat_cnt r) (dirty_nat_cnt r) (nat_bug r).
Definition set_nat_cnt (x : Z) (r : cache) : cache :=
  mk_cache (nat_root r) (nat_set_root r) (nat_entries r) x (dirty_nat_cnt r) (nat_bug r).
Definition set_dirty_nat_cnt (x : Z) (r : cache) : cache :=
  mk_cache (nat_root r) (nat_set_root r) (nat_entries r) (nat_cnt r) x (nat_bug r).
(** [f2fs_bug_on(sbi, b)]. *)
Definition nat_bug_on (b : bool) (r : cache) : cache :=
  mk_cache (nat_root r) (nat_set_root r) (nat_entries r) (nat_cnt r) (dirty_nat_cnt r) (nat_bug r || b).

(** The NAT blocks: where they are and which copy is valid; [meta] is the
    content of the blocks of the NAT area (the meta page cache over the disk). *)
Record nat_area := mk_area {
  nat_blkaddr : Z;
  nat_bitmap : list Z;
  meta : gmap Z (list f2fs_nat_entry)
}.

(** What the NAT code works on. *)
Record nat_state := mk_nat {
  nc : cache;  (* the NAT cache *)
  nj : journal f2fs_nat_entry;  (* the journal of CURSEG_HOT_DATA *)
  na : nat_area  (* the NAT blocks *)
}.

Definition set_nc (x : cache) (r : nat_state) : nat_state :=
  mk_nat x (nj r) (na r).
Definition set_nj (x : journal f2fs_nat_entry) (r : nat_state) : nat_state :=
  mk_nat (nc r) x (na r).
Definition set_na (x : nat_area) (r : nat_state) : nat_state :=
  mk_nat (nc r) (nj r) x.

(** ** NAT entries *)

Definition copy_node_info (dst src : node_info) : node_info :=
  mk_ni (ni_nid src) (ni_ino src) (ni_blk_addr src) (ni_version src) (ni_flag dst).

Definition set_nat_flag (type : Z) (set : bool) (ne : node_info) : node_info :=
  let mask := u8 (Z.shiftl 1 type) in
  if set then set_ni_flag (u8 (ni_flag ne .| mask)) ne
  else set_ni_flag (u8 (ni_flag ne .& Z.lnot mask)) ne.

Definition get_nat_flag (ne : node_info) (type : Z) : bool :=
  let mask := u8 (Z.shiftl 1 type) in c_true (ni_flag ne .& mask).

Definition nat_reset_flag (ne : node_info) : node_info :=
  set_nat_flag HAS_LAST_FSYNC true (set_nat_flag HAS_FSYNCED_INODE false
    (set_nat_flag IS_CHECKPOINTED true ne)).

Definition inc_node_version (version : Z) : Z := u8 (version + 1).

Definition node_info_from_raw_nat (ni : node_info) (raw_ne : f2fs_nat_entry) : node_info :=
  mk_ni (ni_nid ni) (ne_ino raw_ne) (ne_block_addr raw_ne) (ne_version raw_ne) (ni_flag ni).

Definition raw_nat_from_node_info (ni : node_info) : f2fs_nat_entry :=
  mk_raw_nat (ni_version ni) (ni_ino ni) (ni_blk_addr ni).

(** ** NAT block addresses *)

(** 512 blocks per segment; [sanity_check_raw_super] admits no other. *)
Definition log_blocks_per_seg : Z := 9.
Definition blocks_per_seg : Z := 2 ^ log_blocks_per_seg.

Definition current_nat_addr (a : nat_area) (start : Z) : Z :=
  let block_off := NAT_BLOCK_OFFSET start in
  let block_addr := nat_blkaddr a + Z.shiftl block_off 1 - (block_off .& (blocks_per_seg - 1)) in
  if c_true (f2fs_test_bit block_off (nat_bitmap a)) then block_addr + blocks_per_seg else block_addr.

Definition next_nat_addr (a : nat_area) (block_addr : Z) : Z :=
  ((block_addr - nat_blkaddr a) .^ Z.shiftl 1 log_blocks_per_seg) + nat_blkaddr a.

Definition set_to_next_nat (start_nid : Z) (a : nat_area) : nat_area :=
  mk_area (nat_blkaddr a) (f2fs_change_bit (NAT_BLOCK_OFFSET start_nid) (nat_bitmap a)) (meta a).

(** [get_meta_page] of a NAT block. *)
Definition get_meta_page (a : nat_area) (index : Z) : list f2fs_nat_entry := default [] (meta a !! index).
Definition set_meta_page (index : Z) (blk : list f2fs_nat_entry) (a : nat_area) : nat_area :=
  mk_area (nat_blkaddr a) (nat_bitmap a) (<[index := blk]> (meta a)).

Definition get_current_nat_page (a : nat_area) (nid : Z) : list f2fs_nat_entry :=
  get_meta_page a (current_nat_addr a nid).

(** The address of the other copy, which receives the current content.  (Pages
    have no dirty bit here, so the check that the source is clean is left out.) *)
Definition get_next_nat_page (nid : Z) (a : nat_area) : Z * nat_area :=
  let src_off := current_nat_addr a nid in
  let dst_off := next_nat_addr a src_off in
  (dst_off, set_to_next_nat nid (set_meta_page dst_off (get_meta_page a src_off) a)).

(** ** The cache *)

Definition __lookup_nat_cache (c : cache) (n : Z) : option node_info := nat_root c !! n.

(** A fresh entry ([__alloc_nat_entry], zeroed memory). *)
Definition __alloc_nat_entry (nid : Z) : node_info := nat_reset_flag (mk_ni nid 0 0 0 0).

Definition put_nat (e : node_info) (c : cache) : cache :=
  set_nat_root (<[ni_nid e := e]> (nat_root c)) c.

Definition __init_nat_entry (ne : node_info) (raw_ne : option f2fs_nat_entry) (c : cache) : node_info * cache :=
  let ne := match raw_ne with Some r => node_info_from_raw_nat ne r | None => ne end in
  let c := put_nat ne c in
  let c := set_nat_entries (nat_entries c ++ [ni_nid ne]) c in
  (ne, set_nat_cnt (nat_cnt c + 1) c).

(** [list_del] of an entry that is on one list at most. *)
Definition unlink (nid : Z) (l : list Z) : list Z := filter (fun n => n <> nid) l.

Definition nat_list_del (nid : Z) (c : cache) : cache :=
  let c := set_nat_entries (unlink nid (nat_entries c)) c in
  set_nat_set_root
    (alter (fun s => mk_set (unlink nid (entry_list s)) (entry_cnt s)) (NAT_BLOCK_OFFSET nid)
       (nat_set_root c)) c.

Definition __del_from_nat_cache (nid : Z) (c : cache) : cache :=
  let c := nat_list_del nid c in
  let c := set_nat_root (delete nid (nat_root c)) c in
  set_nat_cnt (nat_cnt c - 1) c.

Definition add_to_set (nid : Z) (s : nat_entry_set) : nat_entry_set :=
  mk_set (entry_list s ++ [nid]) (entry_cnt s).

Definition __set_nat_cache_dirty (ne : node_info) (c : cache) : cache :=
  let nid := ni_nid ne in
  let set := NAT_BLOCK_OFFSET nid in
  let c := match nat_set_root c !! set with
           | Some _ => c
           | None => set_nat_set_root (<[set := mk_set [] 0]> (nat_set_root c)) c
           end in
  let c := if get_nat_flag ne IS_DIRTY then c
           else
             let c := set_dirty_nat_cnt (dirty_nat_cnt c + 1) c in
             let c := set_nat_set_root
                        (alter (fun s => mk_set (entry_list s) (entry_cnt s + 1)) set (nat_set_root c)) c in
             put_nat (set_nat_flag IS_DIRTY true ne) c in
  let c := nat_list_del nid c in
  if ni_blk_addr ne =? NEW_ADDR then c
  else set_nat_set_root (alter (add_to_set nid) set (nat_set_root c)) c.

Definition __clear_nat_cache_dirty (set : Z) (ne : node_info) (c : cache) : cache :=
  let c := nat_list_del (ni_nid ne) c in
  let c := set_nat_entries (nat_entries c ++ [ni_nid ne]) c in
  let c := put_nat (set_nat_flag IS_DIRTY false ne) c in
  let c := set_nat_set_root
             (alter (fun s => mk_set (entry_list s) (entry_cnt s - 1)) set (nat_set_root c)) c in
  set_dirty_nat_cnt (dirty_nat_cnt c - 1) c.

Definition need_dentry_mark (c : cache) (nid : Z) : bool :=
  match __lookup_nat_cache c nid with
  | Some e => negb (get_nat_flag e IS_CHECKPOINTED) && negb (get_nat_flag e HAS_FSYNCED_INODE)
  | None => false
  end.

Definition is_checkpointed_node (c : cache) (nid : Z) : bool :=
  match __lookup_nat_cache c nid with
  | Some e => get_nat_flag e IS_CHECKPOINTED
  | None => true
  end.

Definition need_inode_block_update (c : cache) (ino : Z) : bool :=
  match __lookup_nat_cache c ino with
  | Some e => negb (get_nat_flag e HAS_LAST_FSYNC &&
                    (get_nat_flag e IS_CHECKPOINTED || get_nat_flag e HAS_FSYNCED_INODE))
  | None => true
  end.

(** [mem] tells whether the allocations succeed. *)
Definition cache_nat_entry (mem : bool) (nid : Z) (ne : f2fs_nat_entry) (c : cache) : cache :=
  if negb mem then c
  else match __lookup_nat_cache c nid with
  | None => (__init_nat_entry (__alloc_nat_entry nid) (Some ne) c).2
  | Some e => nat_bug_on (negb (ni_ino e =? ne_ino ne) || negb (ni_blk_addr e =? ne_block_addr ne)
                          || negb (ni_version e =? ne_version ne)) c
  end.

(** The checks of [set_node_addr] on the entry [e] found for [ni] ([None]: a new
    one) and the entry [e'] it works on. *)
Definition set_node_addr_bug (ni : node_info) (new_blkaddr : Z) (e : option node_info) (e' : node_info) : bool :=
  match e with
  | None => ni_blk_addr ni =? NEW_ADDR
  | Some _ => (new_blkaddr =? NEW_ADDR) && negb (ni_blk_addr ni =? NULL_ADDR)
  end
  || negb (ni_blk_addr e' =? ni_blk_addr ni)
  || (ni_blk_addr e' =? NULL_ADDR) && (new_blkaddr =? NULL_ADDR)
  || (ni_blk_addr e' =? NEW_ADDR) && (new_blkaddr =? NEW_ADDR)
  || negb (ni_blk_addr e' =? NEW_ADDR) && negb (ni_blk_addr e' =? NULL_ADDR) && (new_blkaddr =? NEW_ADDR).

Definition set_node_addr (ni : node_info) (new_blkaddr : Z) (fsync_done : bool) (c : cache) : cache :=
  let found := __lookup_nat_cache c (ni_nid ni) in
  let '(e, c) :=
    match found with
    | None => let '(e, c) := __init_nat_entry (__alloc_nat_entry (ni_nid ni)) None c in
              (copy_node_info e ni, c)
    | Some e => (if new_blkaddr =? NEW_ADDR then copy_node_info e ni else e, c)
    end in
  let c := nat_bug_on (set_node_addr_bug ni new_blkaddr found e) c in
  let e := if negb (ni_blk_addr e =? NEW_ADDR) && (new_blkaddr =? NULL_ADDR)
           then set_ni_version (inc_node_version (ni_version e)) e else e in
  let e := set_ni_blk_addr new_blkaddr e in
  let e := if (new_blkaddr =? NEW_ADDR) || (new_blkaddr =? NULL_ADDR)
           then set_nat_flag IS_CHECKPOINTED false e else e in
  let c := __set_nat_cache_dirty e (put_nat e c) in
  match __lookup_nat_cache c (if negb (ni_nid ni =? ni_ino ni) then ni_ino ni else ni_nid ni) with
  | None => c
  | Some e =>
    let e := if fsync_done && (ni_nid ni =? ni_ino ni) then set_nat_flag HAS_FSYNCED_INODE true e else e in
    put_nat (set_nat_flag HAS_LAST_FSYNC fsync_done e) c
  end.

(** The [while] loop: at most [nr_shrink] passes. *)
Fixpoint free_nats (n : nat) (c : cache) : nat * cache :=
  match n, nat_entries c with
  | S n', nid :: _ => free_nats n' (__del_from_nat_cache nid c)
  | _, _ => (n, c)
  end.

(** [lock]: did [down_write_trylock] succeed. *)
Definition try_to_free_nats (lock : bool) (nr_shrink : nat) (c : cache) : nat * cache :=
  if negb lock then (O, c)
  else let '(rest, c) := free_nats nr_shrink c in ((nr_shrink - rest)%nat, c).

Definition get_node_info (mem : bool) (nid : Z) (st : nat_state) : node_info * nat_state :=
  let ni := mk_ni nid 0 0 0 0 in
  match __lookup_nat_cache (nc st) nid with
  | Some e => (mk_ni nid (ni_ino e) (ni_blk_addr e) (ni_version e) 0, st)
  | None =>
    let i := (lookup_journal_in_cursum raw_nat0 NAT_JOURNAL_ENTRIES (nj st) nid false).1 in
    let ne := if 0 <=? i then ent_in_journal raw_nat0 (nj st) i
              else zget raw_nat0 (get_current_nat_page (na st) nid) (nid - START_NID nid) in
    (node_info_from_raw_nat ni ne, set_nc (cache_nat_entry mem nid ne (nc st)) st)
  end.

(** ** Lemmas: entry flags *)

Lemma nat_mask t : 0 <= t < 8 -> u8 (Z.shiftl 1 t) = 2 ^ t.
Proof.
  intros Ht. rewrite shiftl_1_pow2 by lia. apply u8_small.
  split; [apply Z.pow_nonneg; lia|]. apply Z.pow_lt_mono_r; lia.
Qed.

Lemma get_nat_flag_bit e t : 0 <= t < 8 -> get_nat_flag e t = Z.testbit (ni_flag e) t.
Proof.
  intros Ht. unfold get_nat_flag. rewrite nat_mask, land_pow2 by lia.
  assert (2 ^ t <> 0) by (apply Z.pow_nonzero; lia).
  destruct (Z.testbit (ni_flag e) t); [by apply c_true_true|done].
Qed.

Lemma get_set_nat_flag e t t' b :
  0 <= t < 8 -> 0 <= t' < 8 ->
  get_nat_flag (set_nat_flag t b e) t' = if t =? t' then b else get_nat_flag e t'.
Proof.
  intros Ht Ht'. rewrite !get_nat_flag_bit by done. unfold set_nat_flag. rewrite nat_mask by done.
  destruct b; simpl; unfold u8; rewrite Z.mod_pow2_bits_low by lia.
  - rewrite Z.lor_spec, Z.pow2_bits_eqb by lia. destruct (t =? t'); [apply orb_true_r|apply orb_false_r].
  - rewrite Z.land_spec, Z.lnot_spec, Z.pow2_bits_eqb by lia.
    destruct (t =? t'); [apply andb_false_r|apply andb_true_r].
Qed.

(** The setters keep the other fields; flags are read back. *)
Definition is_dirty (e : node_info) : bool := get_nat_flag e IS_DIRTY.

Lemma set_flag_raw t b e : raw_nat_from_node_info (set_nat_flag t b e) = raw_nat_from_node_info e.
Proof. unfold set_nat_flag. by destruct b. Qed.
Lemma set_flag_nid t b e : ni_nid (set_nat_flag t b e) = ni_nid e.
Proof. unfold set_nat_flag. by destruct b. Qed.
Lemma set_flag_blk t b e : ni_blk_addr (set_nat_flag t b e) = ni_blk_addr e.
Proof. unfold set_nat_flag. by destruct b. Qed.
Lemma set_flag_ino t b e : ni_ino (set_nat_flag t b e) = ni_ino e.
Proof. unfold set_nat_flag. by destruct b. Qed.
Lemma set_flag_version t b e : ni_version (set_nat_flag t b e) = ni_version e.
Proof. unfold set_nat_flag. by destruct b. Qed.

Create Rewrite HintDb nat.
#[export] Hint Rewrite set_flag_raw set_flag_nid set_flag_blk set_flag_ino set_flag_version : nat.
#[export] Hint Rewrite get_set_nat_flag using (unfold IS_CHECKPOINTED, HAS_FSYNCED_INODE,
  HAS_LAST_FSYNC, IS_DIRTY; lia) : nat.

Lemma alloc_entry_flags nid :
  get_nat_flag (__alloc_nat_entry nid) IS_CHECKPOINTED = true /\
  get_nat_flag (__alloc_nat_entry nid) HAS_FSYNCED_INODE = false /\
  get_nat_flag (__alloc_nat_entry nid) HAS_LAST_FSYNC = true /\
  get_nat_flag (__alloc_nat_entry nid) IS_DIRTY = false.
Proof. by vm_compute. Qed.

(** ** Lemmas: NAT block addresses *)

(** The volume: the version bitmap covers the NAT blocks. *)
Definition area_wf (a : nat_area) : Prop := bytes_ok (nat_bitmap a) /\ 0 <= nat_blkaddr a.
Definition nid_ok (a : nat_area) (nid : Z) : Prop :=
  0 <= nid /\ NAT_BLOCK_OFFSET nid < 8 * zlen (nat_bitmap a).

Definition nat_bit (a : nat_area) (nid : Z) : bool := bm_get (nat_bitmap a) (NAT_BLOCK_OFFSET nid).

(** The two copies of NAT block [b]. *)
Definition nat_copy (a : nat_area) (b : Z) (second : bool) : Z :=
  nat_blkaddr a + 1024 * (b / 512) + b mod 512 + (if second then 512 else 0).

Lemma lxor_512 y : Z.testbit y 9 = false -> y .^ 512 = y + 512 /\ (y + 512) .^ 512 = y.
Proof.
  intros Hb. assert (y .^ 512 = y + 512) as E.
  { symmetry. apply Z.add_nocarry_lxor. change 512 with (2 ^ 9). rewrite land_pow2, Hb by lia. done. }
  split; [done|]. by rewrite <- E, Z.lxor_assoc, Z.lxor_nilpotent, Z.lxor_0_r.
Qed.

Lemma nat_copy_bit a b : 0 <= b -> Z.testbit (nat_copy a b false - nat_blkaddr a) 9 = false.
Proof.
  intros Hb. unfold nat_copy. rewrite Z.testbit_odd, Z.shiftr_div_pow2 by lia. change (2 ^ 9) with 512.
  replace ((nat_blkaddr a + 1024 * (b / 512) + b mod 512 + 0 - nat_blkaddr a) / 512)
    with (2 * (b / 512)) by zdiv. by rewrite Z.odd_mul.
Qed.

(** [next_nat_addr] leads from one copy to the other. *)
Lemma next_nat_addr_copy a b s : 0 <= b -> next_nat_addr a (nat_copy a b s) = nat_copy a b (negb s).
Proof.
  intros Hb. destruct (lxor_512 _ (nat_copy_bit a b Hb)) as [E1 E2].
  unfold next_nat_addr. change (Z.shiftl 1 log_blocks_per_seg) with 512.
  destruct s; simpl negb.
  - replace (nat_copy a b true - nat_blkaddr a) with (nat_copy a b false - nat_blkaddr a + 512)
      by (unfold nat_copy; lia). rewrite E2. lia.
  - rewrite E1. unfold nat_copy. lia.
Qed.

Lemma current_nat_addr_copy a nid :
  current_nat_addr a nid = nat_copy a (NAT_BLOCK_OFFSET nid) (nat_bit a nid).
Proof.
  unfold current_nat_addr, nat_bit, nat_copy. rewrite test_bit_get.
  change (blocks_per_seg - 1) with (Z.ones 9). change blocks_per_seg with 512.
  rewrite Z.land_ones, Z.shiftl_mul_pow2 by lia.
  change (2 ^ 9) with 512. change (2 ^ 1) with 2. cbv zeta. set (b := NAT_BLOCK_OFFSET nid).
  destruct (bm_get (nat_bitmap a) b); zdiv.
Qed.

(** Different copies and different blocks have different addresses. *)
Lemma nat_copy_inj a a' b b' s s' :
  nat_blkaddr a = nat_blkaddr a' -> nat_copy a b s = nat_copy a' b' s' -> b = b' /\ s = s'.
Proof. unfold nat_copy. intros ->. destruct s, s'; intros; split; (reflexivity || zdiv). Qed.

Lemma nat_bit_flip a nid n :
  area_wf a -> nid_ok a nid ->
  nat_bit (set_to_next_nat nid a) n = xorb (nat_bit a n) (NAT_BLOCK_OFFSET nid =? NAT_BLOCK_OFFSET n).
Proof.
  intros Hwf [H1 H2]. unfold nat_bit, set_to_next_nat. simpl.
  apply change_bit_get. unfold bm_bits, NAT_BLOCK_OFFSET in *. split; [|lia].
  apply Z.div_pos; [done|reflexivity].
Qed.

(** Every NAT block has two copies at distinct addresses, no two blocks share
    one; [next_nat_addr] of the current copy is the other one, and
    [set_to_next_nat] makes that one the current copy of the block and of no
    other block. *)
Theorem nat_version_switch a nid n :
  area_wf a -> nid_ok a nid -> 0 <= n ->
  current_nat_addr (set_to_next_nat nid a) nid = next_nat_addr a (current_nat_addr a nid) /\
  next_nat_addr a (current_nat_addr a nid) <> current_nat_addr a nid /\
  (NAT_BLOCK_OFFSET n <> NAT_BLOCK_OFFSET nid ->
     current_nat_addr (set_to_next_nat nid a) n = current_nat_addr a n /\
     current_nat_addr a n <> current_nat_addr a nid /\
     current_nat_addr a n <> next_nat_addr a (current_nat_addr a nid)).
Proof.
  intros Hwf Hn Hpos. assert (0 <= NAT_BLOCK_OFFSET nid)
    by (apply Z.div_pos; [apply Hn|reflexivity]).
  rewrite !current_nat_addr_copy, !nat_bit_flip, next_nat_addr_copy, Z.eqb_refl, xorb_true_r by done.
  split; [done|]. split.
  - intros Heq. apply nat_copy_inj in Heq as [_ Heq]; [|done]. by destruct (nat_bit a nid).
  - intros Hne. rewrite (proj2 (Z.eqb_neq _ _)), xorb_false_r by congruence.
    split; [done|]. split; intros Heq; by apply nat_copy_inj in Heq as [? _].
Qed.

Lemma nat_version_switch_witness :
  let a := mk_area 2560 [0x40; 0] ∅ in
  current_nat_addr a 1 = 2560 /\ current_nat_addr a 500 = 3073 /\
  current_nat_addr (set_to_next_nat 500 a) 500 = 2561 /\
  current_nat_addr (set_to_next_nat 500 a) 1 = 2560.
Proof.
  intros a. split; [vm_compute; reflexivity|]. split; [vm_compute; reflexivity|].
  destruct (nat_version_switch a 500 1) as (E1 & _ & E2).
  - split; [|simpl; lia]. repeat (apply Forall_cons; split; [unfold is_byte; lia|]). by apply Forall_nil.
  - split; [lia|vm_compute; reflexivity].
  - lia.
  - rewrite E1. destruct E2 as [-> _]; [vm_compute; congruence|]. split; vm_compute; reflexivity.
Defined.

(** ** The cache invariant *)

(** The dirty entries, all and those of one NAT block. *)
Definition dirty_nids (root : gmap Z node_info) : gset Z :=
  dom (filter (fun p => is_dirty p.2 = true) root).
Definition dirty_in (root : gmap Z node_info) (k : Z) : gset Z :=
  filter (fun n => NAT_BLOCK_OFFSET n = k) (dirty_nids root).

(** An entry that belongs on the list of its set: dirty, with an address. *)
Definition flushable (e : node_info) : Prop := is_dirty e = true /\ ni_blk_addr e <> NEW_ADDR.

(** Entry [nid] is on the list its state asks for. *)
Definition linked_right (c : cache) (nid : Z) : Prop :=
  (nid ∈ nat_entries c <-> exists e, nat_root c !! nid = Some e /\ is_dirty e = false) /\
  (forall k s, nat_set_root c !! k = Some s ->
     (nid ∈ entry_list s <->
        k = NAT_BLOCK_OFFSET nid /\ exists e, nat_root c !! nid = Some e /\ flushable e)).

(** The invariant, but for the list membership of the entries in [x]. *)
Record cache_wf_but (x : Z -> Prop) (c : cache) : Prop := {
  cw_key : forall nid e, nat_root c !! nid = Some e -> ni_nid e = nid;
  cw_linked : forall nid, ~ x nid -> linked_right c nid;
  cw_set : forall nid e, nat_root c !! nid = Some e -> is_dirty e = true ->
             is_Some (nat_set_root c !! NAT_BLOCK_OFFSET nid);
  cw_nodup : NoDup (nat_entries c) /\
             forall k s, nat_set_root c !! k = Some s -> NoDup (entry_list s);
  cw_home : forall k s n, nat_set_root c !! k = Some s -> n ∈ entry_list s -> k = NAT_BLOCK_OFFSET n;
  cw_cnt : forall k s, nat_set_root c !! k = Some s ->
             entry_cnt s = Z.of_nat (size (dirty_in (nat_root c) k));
  cw_dirty_cnt : dirty_nat_cnt c = Z.of_nat (size (dirty_nids (nat_root c)));
  cw_nat_cnt : nat_cnt c = Z.of_nat (size (nat_root c))
}.
Definition cache_wf : cache -> Prop := cache_wf_but (fun _ => False).

Lemma elem_of_dirty_nids root nid :
  nid ∈ dirty_nids root <-> exists e, root !! nid = Some e /\ is_dirty e = true.
Proof.
  unfold dirty_nids. rewrite elem_of_dom. split.
  - intros [e He]. apply map_lookup_filter_Some in He. by exists e.
  - intros (e & He & Hd). exists e. by apply map_lookup_filter_Some.
Qed.

Lemma elem_of_dirty_in root k nid :
  nid ∈ dirty_in root k <->
  NAT_BLOCK_OFFSET nid = k /\ exists e, root !! nid = Some e /\ is_dirty e = true.
Proof. unfold dirty_in. by rewrite elem_of_filter, elem_of_dirty_nids. Qed.

(** An update of an entry that keeps its dirty flag keeps the sets. *)
Lemma dirty_nids_same root nid e e' :
  root !! nid = Some e -> is_dirty e' = is_dirty e ->
  dirty_nids (<[nid := e']> root) = dirty_nids root.
Proof.
  intros He Hd. apply set_eq. intros n. rewrite !elem_of_dirty_nids.
  destruct (decide (n = nid)) as [->|Hn].
  - rewrite lookup_insert_eq, He. split; intros (e1 & [= <-] & H1); eexists; (split; [done|congruence]).
  - by rewrite lookup_insert_ne by done.
Qed.

Lemma dirty_in_same root nid e e' k :
  root !! nid = Some e -> is_dirty e' = is_dirty e ->
  dirty_in (<[nid := e']> root) k = dirty_in root k.
Proof. intros He Hd. unfold dirty_in. by rewrite (dirty_nids_same _ _ e). Qed.

Lemma dirty_nids_clean root nid e' :
  root !! nid = None -> is_dirty e' = false -> dirty_nids (<[nid := e']> root) = dirty_nids root.
Proof.
  intros He Hd. apply set_eq. intros n. rewrite !elem_of_dirty_nids.
  destruct (decide (n = nid)) as [->|Hn].
  - rewrite lookup_insert_eq, He. split; intros (e1 & [= <-] & H1). congruence.
  - by rewrite lookup_insert_ne by done.
Qed.

(** An entry becomes dirty. *)
Lemma dirty_nids_add root nid e e' :
  root !! nid = Some e -> is_dirty e = false -> is_dirty e' = true ->
  dirty_nids (<[nid := e']> root) = {[nid]} ∪ dirty_nids root /\ nid ∉ dirty_nids root.
Proof.
  intros He Hd Hd'. split.
  - apply set_eq. intros n. rewrite elem_of_union, elem_of_singleton, !elem_of_dirty_nids.
    destruct (decide (n = nid)) as [->|Hn].
    + rewrite lookup_insert_eq. split; [by left|]. intros _. by exists e'.
    + rewrite lookup_insert_ne by done. split; [by right|]. by intros [|].
  - rewrite elem_of_dirty_nids. intros (e1 & H1 & H2). congruence.
Qed.

Lemma size_insert_new (X : gset Z) n : n ∉ X -> size ({[n]} ∪ X) = S (size X).
Proof. intros Hn. rewrite size_union by set_solver. by rewrite size_singleton. Qed.

Lemma dirty_in_add root nid e e' k :
  root !! nid = Some e -> is_dirty e = false -> is_dirty e' = true ->
  size (dirty_in (<[nid := e']> root) k) =
  (size (dirty_in root k) + if decide (NAT_BLOCK_OFFSET nid = k) then 1 else 0)%nat.
Proof.
  intros He Hd Hd'. destruct (dirty_nids_add root nid e e' He Hd Hd') as [Hu Hn].
  unfold dirty_in. rewrite Hu, filter_union_L, filter_singleton_L. case_decide as Hk.
  - rewrite size_insert_new; [lia|]. rewrite elem_of_filter. tauto.
  - rewrite union_empty_l_L. lia.
  - apply _.
  - apply _.
Qed.

(** Lists. *)
Lemma elem_of_unlink nid l n : n ∈ unlink nid l <-> n <> nid /\ n ∈ l.
Proof. unfold unlink. by rewrite list_elem_of_filter. Qed.

Lemma unlink_notin nid l : nid ∉ l -> unlink nid l = l.
Proof.
  intros Hn. unfold unlink. induction l as [|x l IH]; [done|].
  rewrite filter_cons, decide_True by (intros ->; apply Hn; left).
  f_equal. apply IH. intros Hx. apply Hn. by right.
Qed.

Lemma NoDup_unlink nid l : NoDup l -> NoDup (unlink nid l).
Proof. apply NoDup_filter. Qed.

Lemma NoDup_snoc (l : list Z) n : NoDup l -> n ∉ l -> NoDup (l ++ [n]).
Proof.
  intros Hl Hn. apply NoDup_app. split; [done|]. split; [|apply NoDup_singleton].
  intros x Hx ->%list_elem_of_singleton. done.
Qed.

Lemma elem_of_snoc (l : list Z) n x : x ∈ l ++ [n] <-> x ∈ l \/ x = n.
Proof. by rewrite elem_of_app, list_elem_of_singleton. Qed.

(** ** Lemmas: the cache operations keep the invariant *)

Lemma not_linked c nid :
  linked_right c nid -> nat_root c !! nid = None ->
  nid ∉ nat_entries c /\ forall k s, nat_set_root c !! k = Some s -> nid ∉ entry_list s.
Proof.
  intros [H1 H2] Hn. split.
  - intros Hin. apply H1 in Hin as (e & He & _). congruence.
  - intros k s Hs Hin. apply (H2 k s Hs) in Hin as (_ & e & He & _). congruence.
Qed.

Lemma init_entry_wf c ne raw :
  cache_wf c -> nat_root c !! ni_nid ne = None -> is_dirty ne = false ->
  let '(e, c') := __init_nat_entry ne raw c in
  cache_wf c' /\ nat_root c' = <[ni_nid ne := e]> (nat_root c) /\ ni_nid e = ni_nid ne /\
  ni_flag e = ni_flag ne /\ nat_set_root c' = nat_set_root c.
Proof.
  intros Hwf Hnone Hd. unfold __init_nat_entry.
  set (e := match raw with Some r => node_info_from_raw_nat ne r | None => ne end).
  assert (He : ni_nid e = ni_nid ne /\ ni_flag e = ni_flag ne) by (by destruct raw).
  destruct He as [He Hf]. assert (Hde : is_dirty e = false).
  { unfold is_dirty, get_nat_flag in *. by rewrite Hf. }
  simpl. rewrite He. split; [|done]. set (nid := ni_nid ne) in *.
  destruct Hwf as [W1 W2 W3 W4 W5 W6 W7 W8].
  destruct (not_linked c nid (W2 nid ltac:(tauto)) Hnone) as [N1 N2].
  split; simpl; rewrite ?He, ?(dirty_nids_clean _ nid e Hnone Hde); try done.
  - intros n e1. destruct (decide (n = nid)) as [->|Hn].
    + rewrite lookup_insert_eq. by intros [= <-].
    + rewrite lookup_insert_ne by done. apply W1.
  - intros n _. destruct (W2 n ltac:(tauto)) as [L1 L2]. split; simpl; rewrite ?He.
    + rewrite elem_of_snoc, L1. destruct (decide (n = nid)) as [->|Hn].
      * rewrite lookup_insert_eq. split; [|by right]. intros _. by exists e.
      * rewrite lookup_insert_ne by done. split; [by intros [|]|by left].
    + intros k s Hs. rewrite (L2 k s Hs). destruct (decide (n = nid)) as [->|Hn].
      * rewrite lookup_insert_eq, Hnone. split; intros (? & e1 & [= <-] & [? ?]). congruence.
      * by rewrite lookup_insert_ne by done.
  - intros n e1. destruct (decide (n = nid)) as [->|Hn].
    + rewrite lookup_insert_eq. intros [= <-] ?. congruence.
    + rewrite lookup_insert_ne by done. apply W3.
  - destruct W4 as [W4 W4']. split; [|done]. by apply NoDup_snoc.
  - intros k s Hs. unfold dirty_in. rewrite (dirty_nids_clean _ nid e) by done.
    by apply W6.

  - rewrite map_size_insert_None by done. lia.
Qed.

(** The entry in place is replaced by one with the same dirty flag. *)
Lemma put_nat_wf_but (x : Z -> Prop) c e e' :
  cache_wf_but x c -> nat_root c !! ni_nid e' = Some e -> is_dirty e' = is_dirty e ->
  (x (ni_nid e') \/ (flushable e <-> flushable e')) -> cache_wf_but x (put_nat e' c).
Proof.
  intros [W1 W2 W3 W4 W5 W6 W7 W8] He Hd Hx. set (nid := ni_nid e') in *.
  split; simpl; fold nid; try done.
  - intros n e1. destruct (decide (n = nid)) as [->|Hn].
    + rewrite lookup_insert_eq. by intros [= <-].
    + rewrite lookup_insert_ne by done. apply W1.
  - intros n Hxn. destruct (W2 n Hxn) as [L1 L2]. split; simpl; fold nid.
    + rewrite L1. destruct (decide (n = nid)) as [->|Hn].
      * rewrite lookup_insert_eq, He.
        split; intros (e1 & [= <-] & H1); eexists; (split; [done|congruence]).
      * by rewrite lookup_insert_ne by done.
    + intros k s Hs. rewrite (L2 k s Hs). destruct (decide (n = nid)) as [->|Hn].
      * destruct Hx as [Hx|Hx]; [done|]. rewrite lookup_insert_eq, He.
        split; intros (-> & e1 & [= <-] & H1); (split; [done|]); eexists; (split; [done|tauto]).
      * by rewrite lookup_insert_ne by done.
  - intros n e1. destruct (decide (n = nid)) as [->|Hn].
    + rewrite lookup_insert_eq. intros [= <-] H1. apply (W3 nid e He). congruence.
    + rewrite lookup_insert_ne by done. apply W3.
  - intros k s Hs. rewrite (dirty_in_same _ _ e) by done. by apply W6.
  - by rewrite (dirty_nids_same _ _ e) by done.
  - rewrite map_size_insert_Some by (by rewrite He). done.
Qed.

Lemma cache_wf_weaken (x y : Z -> Prop) c :
  (forall n, x n -> y n) -> cache_wf_but x c -> cache_wf_but y c.
Proof. intros Hxy [W1 W2 W3 W4 W5 W6 W7 W8]. split; eauto. Qed.

(** Unlinking and linking one entry. *)
Lemma nat_list_del_sets c nid k :
  nat_set_root (nat_list_del nid c) !! k =
  (if decide (k = NAT_BLOCK_OFFSET nid)
   then (fun s => mk_set (unlink nid (entry_list s)) (entry_cnt s)) <$> nat_set_root c !! k
   else nat_set_root c !! k).
Proof.
  simpl. case_decide as Hk; [subst; by rewrite lookup_alter_eq|by rewrite lookup_alter_ne by done].
Qed.

Lemma nat_list_del_wf_but (x : Z -> Prop) c nid :
  x nid -> cache_wf_but x c -> cache_wf_but x (nat_list_del nid c) /\
  nid ∉ nat_entries (nat_list_del nid c) /\
  (forall k s, nat_set_root (nat_list_del nid c) !! k = Some s -> nid ∉ entry_list s).
Proof.
  intros Hx [W1 W2 W3 [W4 W4'] W5 W6 W7 W8].
  assert (Hs : forall k s', nat_set_root (nat_list_del nid c) !! k = Some s' ->
    exists s, nat_set_root c !! k = Some s /\ entry_cnt s' = entry_cnt s /\
      entry_list s' = if decide (k = NAT_BLOCK_OFFSET nid) then unlink nid (entry_list s) else entry_list s).
  { intros k s'. rewrite nat_list_del_sets. case_decide.
    - destruct (nat_set_root c !! k) as [s|]; [|done]. intros [= <-]. by exists s.
    - intros Hk. by exists s'. }
  split; [split|split]; try done.
  - intros n Hxn. destruct (W2 n Hxn) as [L1 L2]. assert (n <> nid) by (by intros ->).
    split; [simpl; rewrite elem_of_unlink; tauto|].
    intros k s' Hk. destruct (Hs k s' Hk) as (s & Hks & _ & ->). simpl. rewrite <- (L2 k s Hks).
    case_decide; [rewrite elem_of_unlink; tauto|done].
  - intros n e Hn Hde. rewrite nat_list_del_sets. destruct (W3 n e Hn Hde) as [s Hk].
    rewrite Hk. case_decide; by eexists.
  - split; [by apply NoDup_unlink|]. intros k s' Hk. destruct (Hs k s' Hk) as (s & Hks & _ & ->).
    case_decide; [apply NoDup_unlink|]; by eapply W4'.
  - intros k s' n Hk. destruct (Hs k s' Hk) as (s & Hks & _ & ->). intros Hin. apply (W5 k s n Hks).
    case_decide; [by apply elem_of_unlink in Hin as [_ Hin]|done].
  - intros k s' Hk. destruct (Hs k s' Hk) as (s & Hks & -> & _). by apply W6.
  - simpl. rewrite elem_of_unlink. tauto.
  - intros k s' Hk. destruct (Hs k s' Hk) as (s & Hks & _ & ->). case_decide as Hd.
    + rewrite elem_of_unlink. tauto.
    + intros Hin. apply Hd. by apply (W5 k s nid Hks).
Qed.

(** The steps of [__set_nat_cache_dirty]. *)
Lemma new_set_wf_but (x : Z -> Prop) c k :
  cache_wf_but x c -> nat_set_root c !! k = None ->
  cache_wf_but x (set_nat_set_root (<[k := mk_set [] 0]> (nat_set_root c)) c).
Proof.
  intros [W1 W2 W3 [W4 W4'] W5 W6 W7 W8] Hk.
  assert (Hempty : forall n, NAT_BLOCK_OFFSET n = k ->
    ~ exists e, nat_root c !! n = Some e /\ is_dirty e = true).
  { intros n <- (e & He & Hd). destruct (W3 n e He Hd). congruence. }
  split; simpl; try done.
  - intros n Hn. destruct (W2 n Hn) as [L1 L2]. split; [done|]. simpl. intros k' s.
    destruct (decide (k' = k)) as [->|Hkk].
    + rewrite lookup_insert_eq. intros [= <-]. simpl. split; [by intros ?%elem_of_nil|].
      intros (Heq & e & He & [Hd _]). exfalso. apply (Hempty n); [done|by exists e].
    + rewrite lookup_insert_ne by done. apply L2.
  - intros n e He Hd. destruct (decide (NAT_BLOCK_OFFSET n = k)) as [->|Hkk].
    + rewrite lookup_insert_eq. by eexists.
    + rewrite lookup_insert_ne by done. by eapply W3.
  - split; [done|]. intros k' s. destruct (decide (k' = k)) as [->|Hkk].
    + rewrite lookup_insert_eq. intros [= <-]. constructor.
    + rewrite lookup_insert_ne by done. apply W4'.
  - intros k' s n. destruct (decide (k' = k)) as [->|Hkk].
    + rewrite lookup_insert_eq. intros [= <-] ?%elem_of_nil. done.
    + rewrite lookup_insert_ne by done. apply W5.
  - intros k' s. destruct (decide (k' = k)) as [->|Hkk].
    + rewrite lookup_insert_eq. intros [= <-]. simpl.
      assert (dirty_in (nat_root c) k = ∅) as ->; [|done].
      apply set_eq. intros n. rewrite elem_of_dirty_in. split; [|by intros ?%elem_of_empty].
      intros [H1 H2]. exfalso. by apply (Hempty n).
    + rewrite lookup_insert_ne by done. apply W6.
Qed.

Lemma flag_dirty_wf_but (x : Z -> Prop) c ne s :
  let nid := ni_nid ne in let k := NAT_BLOCK_OFFSET nid in
  x nid -> cache_wf_but x c -> nat_root c !! nid = Some ne -> is_dirty ne = false ->
  nat_set_root c !! k = Some s ->
  cache_wf_but x (put_nat (set_nat_flag IS_DIRTY true ne)
    (set_nat_set_root (alter (fun s => mk_set (entry_list s) (entry_cnt s + 1)) k (nat_set_root c))
       (set_dirty_nat_cnt (dirty_nat_cnt c + 1) c))).
Proof.
  cbv zeta. intros Hx [W1 W2 W3 [W4 W4'] W5 W6 W7 W8] He Hd Hs.
  set (e' := set_nat_flag IS_DIRTY true ne).
  assert (Hnid : ni_nid e' = ni_nid ne) by apply set_flag_nid.
  assert (Hd' : is_dirty e' = true) by (unfold e', is_dirty; by autorewrite with nat).
  clearbody e'. set (nid := ni_nid ne) in *. set (k := NAT_BLOCK_OFFSET nid) in *.
  assert (Halt : forall k' s', alter (fun s => mk_set (entry_list s) (entry_cnt s + 1)) k (nat_set_root c) !! k' = Some s' ->
    exists s0, nat_set_root c !! k' = Some s0 /\ entry_list s' = entry_list s0 /\
      entry_cnt s' = entry_cnt s0 + if decide (k = k') then 1 else 0).
  { intros k' s'. destruct (decide (k = k')) as [<-|Hk].
    - rewrite lookup_alter_eq, Hs. intros [= <-]. by exists s.
    - rewrite lookup_alter_ne by done. intros Hk'. exists s'. split; [done|]. split; [done|]. lia. }
  split; simpl; rewrite ?Hnid; fold nid.
  - intros n e1. destruct (decide (n = nid)) as [->|Hn].
    + rewrite lookup_insert_eq. intros [= <-]. done.
    + rewrite lookup_insert_ne by done. apply W1.
  - intros n Hxn. destruct (W2 n Hxn) as [L1 L2]. assert (n <> nid) by (by intros ->).
    split; simpl; rewrite ?Hnid; fold nid; [by rewrite lookup_insert_ne by done|].
    intros k' s' Hk'. destruct (Halt k' s' Hk') as (s0 & Hs0 & -> & _).
    rewrite lookup_insert_ne by done. by apply L2.
  - intros n e1 Hn Hde. destruct (decide (k = NAT_BLOCK_OFFSET n)) as [Hk|Hk].
    + rewrite <- Hk, lookup_alter_eq, Hs. by eexists.
    + rewrite lookup_alter_ne by done. destruct (decide (n = nid)) as [->|Hnn]; [done|].
      rewrite lookup_insert_ne in Hn by done. by eapply W3.
  - split; [done|]. intros k' s' Hk'. destruct (Halt k' s' Hk') as (s0 & Hs0 & -> & _). by eapply W4'.
  - intros k' s' n Hk'. destruct (Halt k' s' Hk') as (s0 & Hs0 & -> & _). by apply W5.
  - intros k' s' Hk'. destruct (Halt k' s' Hk') as (s0 & Hs0 & _ & ->).
    rewrite (dirty_in_add _ _ ne) by done. rewrite (W6 k' s0 Hs0). fold k. case_decide; lia.
  - destruct (dirty_nids_add (nat_root c) nid ne e' He Hd Hd') as [-> Hn].
    rewrite size_insert_new by done. lia.
  - rewrite map_size_insert_Some by (by rewrite He). done.
Qed.

(** The entry, unlinked, is put on the list of its set if it has an address. *)
Lemma add_to_set_wf c nid e s :
  cache_wf_but (fun n => n = nid) c -> nat_root c !! nid = Some e -> flushable e ->
  nat_set_root c !! NAT_BLOCK_OFFSET nid = Some s ->
  nid ∉ nat_entries c -> (forall k s, nat_set_root c !! k = Some s -> nid ∉ entry_list s) ->
  cache_wf (set_nat_set_root (alter (add_to_set nid) (NAT_BLOCK_OFFSET nid) (nat_set_root c)) c).
Proof.
  intros [W1 W2 W3 [W4 W4'] W5 W6 W7 W8] He Hf Hs Hn1 Hn2. set (k := NAT_BLOCK_OFFSET nid) in *.
  assert (Halt : forall k' s', alter (add_to_set nid) k (nat_set_root c) !! k' = Some s' ->
    exists s0, nat_set_root c !! k' = Some s0 /\ entry_cnt s' = entry_cnt s0 /\
      entry_list s' = if decide (k = k') then entry_list s0 ++ [nid] else entry_list s0).
  { intros k' s'. destruct (decide (k = k')) as [<-|Hk].
    - rewrite lookup_alter_eq, Hs. intros [= <-]. by exists s.
    - rewrite lookup_alter_ne by done. intros Hk'. by exists s'. }
  split; simpl; try done.
  - intros n _. destruct (decide (n = nid)) as [->|Hn].
    + split; simpl.
      * split; [done|]. intros (e1 & H1 & H2). destruct Hf. congruence.
      * intros k' s' Hk'. destruct (Halt k' s' Hk') as (s0 & Hs0 & _ & ->). fold k. case_decide as Hkk.
        -- rewrite elem_of_snoc. split; [|by right]. intros _. split; [done|]. by exists e.
        -- split; [intros Hin; by apply Hn2 in Hs0|intros [-> _]; done].
    + destruct (W2 n Hn) as [L1 L2]. split; simpl; [done|].
      intros k' s' Hk'. destruct (Halt k' s' Hk') as (s0 & Hs0 & _ & ->). rewrite <- (L2 k' s0 Hs0).
      case_decide; [|done]. rewrite elem_of_snoc. tauto.
  - intros n e1 H1 H2. destruct (W3 n e1 H1 H2) as [s1 Hs1].
    destruct (decide (k = NAT_BLOCK_OFFSET n)) as [<-|Hk].
    + rewrite lookup_alter_eq, Hs. by eexists.
    + rewrite lookup_alter_ne by done. by eexists.
  - split; [done|]. intros k' s' Hk'. destruct (Halt k' s' Hk') as (s0 & Hs0 & _ & ->).
    case_decide; [apply NoDup_snoc|]; eauto.
  - intros k' s' n Hk'. destruct (Halt k' s' Hk') as (s0 & Hs0 & _ & ->).
    case_decide; [|by apply W5]. rewrite elem_of_snoc. intros [Hin| ->]; [by eapply W5|done].
  - intros k' s' Hk'. destruct (Halt k' s' Hk') as (s0 & Hs0 & -> & _). by apply W6.
Qed.

(** An entry without an address belongs on no list. *)
Lemma unlinked_wf c nid e :
  cache_wf_but (fun n => n = nid) c -> nat_root c !! nid = Some e ->
  is_dirty e = true -> ni_blk_addr e = NEW_ADDR ->
  nid ∉ nat_entries c -> (forall k s, nat_set_root c !! k = Some s -> nid ∉ entry_list s) ->
  cache_wf c.
Proof.
  intros [W1 W2 W3 W4 W5 W6 W7 W8] He Hd Hb Hn1 Hn2. split; try done.
  intros n _. destruct (decide (n = nid)) as [->|Hn]; [|by apply W2]. split.
  - split; [done|]. intros (e1 & H1 & H2). congruence.
  - intros k s Hs. split; [by intros ?%(Hn2 k s Hs)|].
    intros (_ & e1 & H1 & _ & H2). congruence.
Qed.

(** What marking an entry dirty does to the entries. *)
Definition dirtied_entry (ne e' : node_info) : Prop :=
  ni_nid e' = ni_nid ne /\ raw_nat_from_node_info e' = raw_nat_from_node_info ne /\
  is_dirty e' = true /\
  forall t, 0 <= t < 8 -> t <> IS_DIRTY -> get_nat_flag e' t = get_nat_flag ne t.

Lemma set_flag_dirtied ne : dirtied_entry ne (set_nat_flag IS_DIRTY true ne).
Proof.
  unfold dirtied_entry, is_dirty. autorewrite with nat. split_and!; try done.
  intros t Ht Hn. rewrite get_set_nat_flag by (done || (unfold IS_DIRTY; lia)).
  rewrite (proj2 (Z.eqb_neq _ _)); [done|]. by apply not_eq_sym.
Qed.

Lemma set_cache_dirty_wf c ne :
  let nid := ni_nid ne in
  cache_wf_but (fun n => n = nid) c -> nat_root c !! nid = Some ne ->
  let c' := __set_nat_cache_dirty ne c in
  cache_wf c' /\ nat_entries c' = unlink nid (nat_entries c) /\
  exists e', nat_root c' = <[nid := e']> (nat_root c) /\ dirtied_entry ne e'.
Proof.
  cbv zeta. intros Hwf He. set (nid := ni_nid ne) in *. set (k := NAT_BLOCK_OFFSET nid).
  unfold __set_nat_cache_dirty. cbv zeta. fold nid k.
  set (c1 := match nat_set_root c !! k with Some _ => c | None => _ end).
  assert (Hc1 : cache_wf_but (fun n => n = nid) c1 /\ nat_root c1 = nat_root c /\
    nat_entries c1 = nat_entries c /\ exists s, nat_set_root c1 !! k = Some s).
  { unfold c1. destruct (nat_set_root c !! k) as [s|] eqn:Hk.
    - split_and!; try done. by exists s.
    - split; [by apply new_set_wf_but|]. simpl. rewrite lookup_insert_eq. by repeat eexists. }
  clearbody c1. destruct Hc1 as (Hwf1 & Hr1 & Hl1 & s & Hs). rewrite <- Hr1 in He.
  set (c2 := if get_nat_flag ne IS_DIRTY then c1 else _).
  assert (Hc2 : cache_wf_but (fun n => n = nid) c2 /\ nat_entries c2 = nat_entries c1 /\
    exists e', nat_root c2 = <[nid := e']> (nat_root c1) /\ dirtied_entry ne e').
  { unfold c2. destruct (get_nat_flag ne IS_DIRTY) eqn:Hd.
    - split; [done|]. split; [done|]. exists ne. by rewrite insert_id.
    - split; [by apply (flag_dirty_wf_but _ c1 ne s)|]. split; [done|].
      eexists. split; [|apply set_flag_dirtied]. reflexivity. }
  clearbody c2. destruct Hc2 as (Hwf2 & Hl2 & e' & Hr2 & Hde).
  destruct (nat_list_del_wf_but (fun n => n = nid) c2 nid eq_refl Hwf2) as (Hwf3 & N1 & N2).
  assert (He3 : nat_root (nat_list_del nid c2) !! nid = Some e')
    by (simpl; by rewrite Hr2, lookup_insert_eq).
  destruct Hde as (D1 & D2 & D3 & D4).
  assert (Hbe : ni_blk_addr e' = ni_blk_addr ne) by (by injection D2).
  destruct (cw_set _ _ Hwf3 nid e' He3 D3) as [s3 Hs3].
  assert (Hwf' : cache_wf (if ni_blk_addr ne =? NEW_ADDR then nat_list_del nid c2
     else set_nat_set_root (alter (add_to_set nid) k (nat_set_root (nat_list_del nid c2)))
            (nat_list_del nid c2))).
  { destruct (ni_blk_addr ne =? NEW_ADDR) eqn:Hnew; zbool.
    - eapply unlinked_wf; [exact Hwf3|exact He3|done|congruence|done|done].
    - eapply add_to_set_wf; [exact Hwf3|exact He3| |exact Hs3|done|done].
      split; [done|congruence]. }
  split; [done|]. split; [case_if; simpl; by rewrite Hl2, Hl1|].
  exists e'. rewrite Hr1 in Hr2. split; [case_if; simpl; exact Hr2|]. by repeat split.
Qed.

(** The sets there are after marking an entry dirty. *)
Lemma set_cache_dirty_keys c ne k s :
  nat_set_root (__set_nat_cache_dirty ne c) !! k = Some s ->
  k = NAT_BLOCK_OFFSET (ni_nid ne) \/ is_Some (nat_set_root c !! k).
Proof.
  destruct (decide (k = NAT_BLOCK_OFFSET (ni_nid ne))) as [|Hk]; [by left|].
  unfold __set_nat_cache_dirty. cbv zeta. intros H. right. revert H.
  case_if; simpl; rewrite ?lookup_alter_ne by done; case_if; simpl; rewrite ?lookup_alter_ne by done;
    (destruct (nat_set_root c !! NAT_BLOCK_OFFSET (ni_nid ne)); simpl;
     rewrite ?lookup_insert_ne by done; intros Hs; by exists s).
Qed.

(** ** What the NAT holds *)

(** The entry a mount would find: the journal's, or else the one of the
    current copy of the NAT block. *)
Definition durable (j : journal f2fs_nat_entry) (a : nat_area) (nid : Z) : f2fs_nat_entry :=
  match j_find raw_nat0 NAT_JOURNAL_ENTRIES j nid with
  | Some e => e
  | None => zget raw_nat0 (get_current_nat_page a nid) (nid - START_NID nid)
  end.

(** The entry as the running file system sees it. *)
Definition nat_view (st : nat_state) (nid : Z) : f2fs_nat_entry :=
  match nat_root (nc st) !! nid with
  | Some e => raw_nat_from_node_info e
  | None => durable (nj st) (na st) nid
  end.

Record nat_wf (st : nat_state) : Prop := {
  nw_cache : cache_wf (nc st);
  nw_journal : journal_wf raw_nat0 NAT_JOURNAL_ENTRIES (nj st);
  nw_area : area_wf (na st);
  nw_clean : forall nid e, nat_root (nc st) !! nid = Some e -> is_dirty e = false ->
    raw_nat_from_node_info e = durable (nj st) (na st) nid
}.

Lemma raw_of_raw ni r : raw_nat_from_node_info (node_info_from_raw_nat ni r) = r.
Proof. by destruct r. Qed.

Lemma lookup_is_durable st nid :
  (if 0 <=? (lookup_journal_in_cursum raw_nat0 NAT_JOURNAL_ENTRIES (nj st) nid false).1
   then ent_in_journal raw_nat0 (nj st)
          (lookup_journal_in_cursum raw_nat0 NAT_JOURNAL_ENTRIES (nj st) nid false).1
   else zget raw_nat0 (get_current_nat_page (na st) nid) (nid - START_NID nid)) =
  durable (nj st) (na st) nid.
Proof. unfold durable, j_find. cbv zeta. by case_if. Qed.

(** Caching the durable entry of a node id changes no entry of the table. *)
Lemma init_nat_wf st nid :
  nat_wf st -> nat_root (nc st) !! nid = None ->
  let d := durable (nj st) (na st) nid in
  let '(e, c') := __init_nat_entry (__alloc_nat_entry nid) (Some d) (nc st) in
  e = node_info_from_raw_nat (__alloc_nat_entry nid) d /\
  nat_root c' = <[nid := e]> (nat_root (nc st)) /\ nat_set_root c' = nat_set_root (nc st) /\
  nat_wf (set_nc c' st) /\ (forall n, nat_view (set_nc c' st) n = nat_view st n).
Proof.
  cbv zeta. intros [C1 C2 C3 C4] He. set (d := durable (nj st) (na st) nid).
  destruct (alloc_entry_flags nid) as (_ & _ & _ & Hd).
  pose proof (init_entry_wf (nc st) (__alloc_nat_entry nid) (Some d) C1 He Hd) as Hi.
  assert (Hraw : (__init_nat_entry (__alloc_nat_entry nid) (Some d) (nc st)).1 =
                 node_info_from_raw_nat (__alloc_nat_entry nid) d) by done.
  destruct (__init_nat_entry (__alloc_nat_entry nid) (Some d) (nc st)) as [e c'].
  destruct Hi as (Hwf' & Hr & Hn & Hf & Hs). simpl in Hraw. subst e. simpl in Hr.
  split; [done|]. split; [done|]. split; [done|]. split; [split; simpl; try done|]; rewrite ?Hr.
  - intros n e. destruct (decide (n = nid)) as [->|Hne].
    + rewrite lookup_insert_eq. intros [= <-] _. by rewrite raw_of_raw.
    + rewrite lookup_insert_ne by done. apply C4.
  - intros n. unfold nat_view. simpl. rewrite Hr. destruct (decide (n = nid)) as [->|Hne].
    + by rewrite lookup_insert_eq, He, raw_of_raw.
    + by rewrite lookup_insert_ne by done.
Qed.

(** C28. [get_node_info] returns the NAT entry of the node id, wherever it is
    kept; caching it (or failing to) changes no entry of the table and keeps the
    cache consistent. *)
Theorem get_node_info_correct mem nid st :
  nat_wf st ->
  let '(ni, st') := get_node_info mem nid st in
  ni_nid ni = nid /\ raw_nat_from_node_info ni = nat_view st nid /\
  nat_wf st' /\ (forall n, nat_view st' n = nat_view st n).
Proof.
  intros Hwf. unfold get_node_info, __lookup_nat_cache. cbv zeta.
  destruct (nat_root (nc st) !! nid) as [e|] eqn:He.
  - split; [done|]. split; [|done]. unfold nat_view. by rewrite He.
  - rewrite lookup_is_durable. pose proof (init_nat_wf st nid Hwf He) as Hi. cbv zeta in Hi.
    split; [done|]. split; [rewrite raw_of_raw; unfold nat_view; by rewrite He|].
    unfold cache_nat_entry, __lookup_nat_cache. rewrite He.
    destruct mem; simpl negb; cbv beta iota; [|by destruct st].
    destruct (__init_nat_entry (__alloc_nat_entry nid) _ (nc st)) as [e c']. apply Hi.
Qed.

(** The last step of [set_node_addr]: the fsync marks of the inode's entry. *)
Lemma put_flags_wf c e e' :
  cache_wf c -> nat_root c !! ni_nid e = Some e -> raw_nat_from_node_info e' = raw_nat_from_node_info e ->
  ni_nid e' = ni_nid e -> is_dirty e' = is_dirty e -> cache_wf (put_nat e' c).
Proof.
  intros Hwf He Hr Hn Hd. apply (put_nat_wf_but _ _ e); [done|by rewrite Hn|done|].
  right. unfold flushable. rewrite Hd. by injection Hr as _ _ ->.
Qed.

(** The entry that [set_node_addr] works on, and its new content. *)
Definition new_nat_entry (ni : node_info) (new_blkaddr : Z) : f2fs_nat_entry :=
  mk_raw_nat (if negb (ni_blk_addr ni =? NEW_ADDR) && (new_blkaddr =? NULL_ADDR)
              then inc_node_version (ni_version ni) else ni_version ni)
    (ni_ino ni) new_blkaddr.

Lemma set_node_addr_entry st ni new_blkaddr :
  nat_wf st -> let nid := ni_nid ni in
  ni_blk_addr ni = ne_block_addr (nat_view st nid) -> ni_version ni = ne_version (nat_view st nid) ->
  (new_blkaddr = NEW_ADDR \/ ni_ino ni = ne_ino (nat_view st nid)) ->
  let '(e, c) :=
    match __lookup_nat_cache (nc st) nid with
    | None => let '(e, c) := __init_nat_entry (__alloc_nat_entry nid) None (nc st) in
              (copy_node_info e ni, c)
    | Some e => (if new_blkaddr =? NEW_ADDR then copy_node_info e ni else e, nc st)
    end in
  cache_wf c /\ ni_nid e = nid /\
  raw_nat_from_node_info e = mk_raw_nat (ni_version ni) (ni_ino ni) (ni_blk_addr ni) /\
  exists e0, nat_root c = <[nid := e0]> (nat_root (nc st)) /\ is_dirty e0 = is_dirty e.
Proof.
  cbv zeta. intros Hwf Hb Hv Hi. set (nid := ni_nid ni) in *. unfold __lookup_nat_cache.
  destruct (nat_root (nc st) !! nid) as [e|] eqn:He.
  - pose proof (cw_key _ _ (nw_cache st Hwf) nid e He) as Hk.
    unfold nat_view in *. rewrite He in *.
    destruct (new_blkaddr =? NEW_ADDR) eqn:E; zbool.
    + split; [apply Hwf|]. split; [done|]. split; [done|]. exists e. by rewrite insert_id.
    + destruct Hi as [|Hi]; [done|]. split; [apply Hwf|]. split; [done|]. split.
      * unfold raw_nat_from_node_info in *. simpl in *. congruence.
      * exists e. by rewrite insert_id.
  - destruct (alloc_entry_flags nid) as (_ & _ & _ & Hd).
    pose proof (init_entry_wf (nc st) (__alloc_nat_entry nid) None (nw_cache st Hwf) He Hd) as Hin.
    destruct (__init_nat_entry (__alloc_nat_entry nid) None (nc st)) as [e c'].
    destruct Hin as (Hwf' & Hr & Hn & Hf & _). simpl in Hr.
    split; [done|]. split; [done|]. split; [done|]. by exists e.
Qed.

(** The second step: version, address and checkpointed flag. *)
Definition addressed_entry (ni : node_info) (new_blkaddr : Z) (e : node_info) : node_info :=
  let e := if negb (ni_blk_addr e =? NEW_ADDR) && (new_blkaddr =? NULL_ADDR)
           then set_ni_version (inc_node_version (ni_version e)) e else e in
  let e := set_ni_blk_addr new_blkaddr e in
  if (new_blkaddr =? NEW_ADDR) || (new_blkaddr =? NULL_ADDR)
  then set_nat_flag IS_CHECKPOINTED false e else e.

Lemma addressed_entry_spec ni new_blkaddr e :
  raw_nat_from_node_info e = mk_raw_nat (ni_version ni) (ni_ino ni) (ni_blk_addr ni) ->
  let e' := addressed_entry ni new_blkaddr e in
  ni_nid e' = ni_nid e /\ raw_nat_from_node_info e' = new_nat_entry ni new_blkaddr /\
  is_dirty e' = is_dirty e /\
  (new_blkaddr = NEW_ADDR \/ new_blkaddr = NULL_ADDR -> get_nat_flag e' IS_CHECKPOINTED = false).
Proof.
  cbv zeta. intros Hr. injection Hr as R1 R2 R3.
  unfold addressed_entry, new_nat_entry, is_dirty. rewrite R1, R3. cbv zeta.
  destruct (negb (ni_blk_addr ni =? NEW_ADDR) && (new_blkaddr =? NULL_ADDR)),
    ((new_blkaddr =? NEW_ADDR) || (new_blkaddr =? NULL_ADDR)) eqn:E; autorewrite with nat;
    (split; [done|]; split; [unfold raw_nat_from_node_info; simpl; congruence|]; split; [done|]);
    intros Hs; autorewrite with nat; try done; zbool; destruct Hs; congruence.
Qed.

(** The last step: the fsync marks. *)
Definition mark_fsync (ni : node_info) (fsync_done : bool) (c : cache) : cache :=
  match __lookup_nat_cache c (if negb (ni_nid ni =? ni_ino ni) then ni_ino ni else ni_nid ni) with
  | None => c
  | Some e =>
    let e := if fsync_done && (ni_nid ni =? ni_ino ni) then set_nat_flag HAS_FSYNCED_INODE true e else e in
    put_nat (set_nat_flag HAS_LAST_FSYNC fsync_done e) c
  end.

(** Two caches whose entries differ in the fsync marks only. *)
Definition same_but_fsync (r r' : gmap Z node_info) : Prop :=
  forall n, (fun e => (raw_nat_from_node_info e, is_dirty e, get_nat_flag e IS_CHECKPOINTED)) <$> r !! n =
            (fun e => (raw_nat_from_node_info e, is_dirty e, get_nat_flag e IS_CHECKPOINTED)) <$> r' !! n.

Lemma mark_fsync_wf ni fsync_done c :
  cache_wf c -> cache_wf (mark_fsync ni fsync_done c) /\
  same_but_fsync (nat_root (mark_fsync ni fsync_done c)) (nat_root c).
Proof.
  intros Hwf. unfold mark_fsync, __lookup_nat_cache.
  match goal with |- context [nat_root c !! ?key] => generalize key end. intros key.
  destruct (nat_root c !! key) as [e4|] eqn:E4; [|by split].
  pose proof (cw_key _ _ Hwf _ _ E4) as K4. rewrite <- K4 in E4. cbv zeta.
  match goal with |- cache_wf (put_nat ?e5 _) /\ _ => set (e5' := e5) end.
  assert (He5 : raw_nat_from_node_info e5' = raw_nat_from_node_info e4 /\ ni_nid e5' = ni_nid e4 /\
    is_dirty e5' = is_dirty e4 /\ get_nat_flag e5' IS_CHECKPOINTED = get_nat_flag e4 IS_CHECKPOINTED).
  { unfold e5', is_dirty. case_if; autorewrite with nat; done. }
  destruct He5 as (F1 & F2 & F3 & F4). clearbody e5'. split.
  - by apply (put_flags_wf c e4 e5').
  - intros n. simpl. rewrite F2. destruct (decide (n = ni_nid e4)) as [->|Hne].
    + rewrite lookup_insert_eq, E4. simpl. congruence.
    + by rewrite lookup_insert_ne by done.
Qed.

(** Recording a bug changes nothing else, and the primitives record none. *)
Lemma bug_on_wf b c : cache_wf c -> cache_wf (nat_bug_on b c).
Proof. by intros []. Qed.

Lemma put_nat_bug e c : nat_bug (put_nat e c) = nat_bug c.
Proof. done. Qed.
Lemma init_entry_bug e ne c : nat_bug (__init_nat_entry e ne c).2 = nat_bug c.
Proof. done. Qed.
Lemma set_cache_dirty_bug e c : nat_bug (__set_nat_cache_dirty e c) = nat_bug c.
Proof. unfold __set_nat_cache_dirty. cbv zeta. by destruct (nat_set_root c !! _); repeat case_if. Qed.
Lemma mark_fsync_bug ni fsync_done c : nat_bug (mark_fsync ni fsync_done c) = nat_bug c.
Proof. unfold mark_fsync. by destruct (__lookup_nat_cache _ _). Qed.

(** The transitions of an address the callers make. *)
Definition addr_step_ok (st : nat_state) (ni : node_info) (new_blkaddr : Z) : Prop :=
  (new_blkaddr = NEW_ADDR -> ni_blk_addr ni = NULL_ADDR) /\
  (new_blkaddr = NULL_ADDR -> ni_blk_addr ni <> NULL_ADDR) /\
  (ni_blk_addr ni = NEW_ADDR -> is_Some (nat_root (nc st) !! ni_nid ni)).

Lemma set_node_addr_no_bug st ni new_blkaddr e :
  addr_step_ok st ni new_blkaddr -> ni_blk_addr e = ni_blk_addr ni ->
  set_node_addr_bug ni new_blkaddr (__lookup_nat_cache (nc st) (ni_nid ni)) e = false.
Proof.
  intros (H1 & H2 & H3) He. unfold set_node_addr_bug, __lookup_nat_cache. rewrite He, Z.eqb_refl.
  assert (HN : NULL_ADDR <> NEW_ADDR) by done.
  destruct (nat_root (nc st) !! ni_nid ni) as [e0|];
    destruct (Z.eqb_spec (ni_blk_addr ni) NEW_ADDR) as [E1|E1],
      (Z.eqb_spec (ni_blk_addr ni) NULL_ADDR) as [E2|E2],
      (Z.eqb_spec new_blkaddr NEW_ADDR) as [E3|E3], (Z.eqb_spec new_blkaddr NULL_ADDR) as [E4|E4];
    simpl; try reflexivity; exfalso; try (destruct (H3 E1) as [? H3']; discriminate);
    try specialize (H1 E3); try specialize (H2 E4); congruence.
Qed.

(** The cache after [set_node_addr]: entry [nid] replaced by [e3]. *)
Lemma set_node_addr_cache st ni new_blkaddr fsync_done :
  nat_wf st -> let nid := ni_nid ni in
  ni_blk_addr ni = ne_block_addr (nat_view st nid) -> ni_version ni = ne_version (nat_view st nid) ->
  (new_blkaddr = NEW_ADDR \/ ni_ino ni = ne_ino (nat_view st nid)) ->
  let c' := set_node_addr ni new_blkaddr fsync_done (nc st) in
  cache_wf c' /\ (addr_step_ok st ni new_blkaddr -> nat_bug c' = nat_bug (nc st)) /\ exists e3,
  same_but_fsync (nat_root c') (<[nid := e3]> (nat_root (nc st))) /\
  raw_nat_from_node_info e3 = new_nat_entry ni new_blkaddr /\ is_dirty e3 = true /\
  (new_blkaddr = NEW_ADDR \/ new_blkaddr = NULL_ADDR -> get_nat_flag e3 IS_CHECKPOINTED = false).
Proof.
  cbv zeta. intros Hwf Hb Hv Hi. set (nid := ni_nid ni) in *.
  pose proof (set_node_addr_entry st ni new_blkaddr Hwf Hb Hv Hi) as H0. cbv zeta in H0.
  pose proof (fun e => set_node_addr_no_bug st ni new_blkaddr e) as Hbug.
  unfold set_node_addr. cbv zeta. fold nid in H0, Hbug |- *.
  assert (Hc0 : nat_bug (match __lookup_nat_cache (nc st) nid with
    | None => let '(e, c) := __init_nat_entry (__alloc_nat_entry nid) None (nc st) in
              (copy_node_info e ni, c)
    | Some e => (if new_blkaddr =? NEW_ADDR then copy_node_info e ni else e, nc st)
    end).2 = nat_bug (nc st)) by (by destruct (__lookup_nat_cache (nc st) nid)).
  revert H0 Hc0.
  generalize (match __lookup_nat_cache (nc st) nid with
    | None => let '(e, c) := __init_nat_entry (__alloc_nat_entry nid) None (nc st) in
              (copy_node_info e ni, c)
    | Some e => (if new_blkaddr =? NEW_ADDR then copy_node_info e ni else e, nc st)
    end).
  intros [e c0] (Hwf0 & Hn1 & Hr1 & e0 & Hroot & Hd0) Hc0. simpl in Hc0.
  specialize (fun Hs => Hbug e Hs ltac:(by injection Hr1)). revert Hbug.
  generalize (set_node_addr_bug ni new_blkaddr (__lookup_nat_cache (nc st) nid) e). intros b Hbug.
  pose proof (bug_on_wf b c0 Hwf0) as Hwf1. change (nat_root c0) with (nat_root (nat_bug_on b c0)) in Hroot.
  assert (Hc1 : addr_step_ok st ni new_blkaddr -> nat_bug (nat_bug_on b c0) = nat_bug (nc st)).
  { intros Hs. simpl. by rewrite (Hbug Hs), orb_false_r. }
  revert Hwf1 Hroot Hc1. generalize (nat_bug_on b c0). clear c0 Hwf0 Hc0 Hbug. intros c Hwf1 Hroot Hc1.
  destruct (addressed_entry_spec ni new_blkaddr e Hr1) as (Hn2 & Hr2 & Hd2 & Hcp2).
  cbv beta iota. fold (addressed_entry ni new_blkaddr e).
  revert Hn2 Hr2 Hd2 Hcp2. generalize (addressed_entry ni new_blkaddr e).
  intros e2 Hn2 Hr2 Hd2 Hcp2. rewrite Hn1 in Hn2.
  assert (Hbut : cache_wf_but (fun n => n = ni_nid e2) (put_nat e2 c)).
  { apply (put_nat_wf_but _ _ e0); [by apply (cache_wf_weaken (fun _ => False))|..].
    - by rewrite Hroot, Hn2, lookup_insert_eq.
    - congruence.
    - by left. }
  destruct (set_cache_dirty_wf (put_nat e2 c) e2 Hbut) as (Hwf3 & _ & e3 & Hroot3 & D1 & D2 & D3 & D4);
    [simpl; by rewrite lookup_insert_eq|].
  pose proof (mark_fsync_wf ni fsync_done _ Hwf3) as [Hwf4 Hsame]. split; [exact Hwf4|].
  split; [intros Hst; etrans; [apply (mark_fsync_bug ni fsync_done)|]; rewrite set_cache_dirty_bug; by apply Hc1|].
  exists e3. rewrite Hroot3 in Hsame. simpl in Hsame.
  rewrite Hn2, Hroot, !insert_insert_eq in Hsame. split; [exact Hsame|]. split; [congruence|].
  split; [done|]. intros Hs. rewrite D4 by (unfold IS_CHECKPOINTED, IS_DIRTY; lia). auto.
Qed.

Lemma set_node_addr_wf st ni new_blkaddr fsync_done :
  nat_wf st -> let nid := ni_nid ni in
  ni_blk_addr ni = ne_block_addr (nat_view st nid) -> ni_version ni = ne_version (nat_view st nid) ->
  (new_blkaddr = NEW_ADDR \/ ni_ino ni = ne_ino (nat_view st nid)) ->
  nat_wf (set_nc (set_node_addr ni new_blkaddr fsync_done (nc st)) st).
Proof.
  cbv zeta. intros Hwf Hb Hv Hi.
  destruct (set_node_addr_cache st ni new_blkaddr fsync_done Hwf Hb Hv Hi)
    as (Hwf' & _ & e3 & Hs & Hr3 & Hd3 & _).
  revert Hwf' Hs. generalize (set_node_addr ni new_blkaddr fsync_done (nc st)).
  set (nid := ni_nid ni). intros c' Hwf' Hs. pose proof (Hs nid) as Hsn.
  rewrite lookup_insert_eq in Hsn. destruct (nat_root c' !! nid) as [e5|] eqn:E5; [|done].
  injection Hsn as S1 S2 S3 S4 S5.
  split; simpl; [done|apply Hwf|apply Hwf|]. intros n e6 H6 Hd6.
  destruct (decide (n = nid)) as [->|Hne]; [congruence|].
  specialize (Hs n). rewrite lookup_insert_ne, H6 in Hs by done.
  destruct (nat_root (nc st) !! n) as [e7|] eqn:E7; [|done]. injection Hs as T1 T2 T3 T4 T5.
  rewrite <- (nw_clean st Hwf n e7 E7) by congruence. unfold raw_nat_from_node_info. congruence.
Qed.

(** C29. [set_node_addr], called with what the table says of the node id ([ni]; the
    owner may be new when the address is NEW_ADDR), gives it the new address and
    the owner of [ni], with the version incremented exactly when an
    address other than NEW_ADDR is replaced by NULL_ADDR; no other entry changes,
    the entry is dirty, is no longer checkpointed if its address is not a block,
    and the cache stays consistent.  None of its checks fires when NEW_ADDR is
    given to a free node id only, NULL_ADDR to a used one only, and an id whose
    block is not yet written is in the cache. *)
Theorem set_node_addr_correct st ni new_blkaddr fsync_done :
  nat_wf st -> let nid := ni_nid ni in
  ni_blk_addr ni = ne_block_addr (nat_view st nid) -> ni_version ni = ne_version (nat_view st nid) ->
  (new_blkaddr = NEW_ADDR \/ ni_ino ni = ne_ino (nat_view st nid)) ->
  let st' := set_nc (set_node_addr ni new_blkaddr fsync_done (nc st)) st in
  nat_wf st' /\
  (forall n, nat_view st' n = if n =? nid then new_nat_entry ni new_blkaddr else nat_view st n) /\
  nid ∈ dirty_nids (nat_root (nc st')) /\
  (new_blkaddr = NEW_ADDR \/ new_blkaddr = NULL_ADDR -> is_checkpointed_node (nc st') nid = false) /\
  (addr_step_ok st ni new_blkaddr -> nat_bug (nc st') = nat_bug (nc st)).
Proof.
  cbv zeta. intros Hwf Hb Hv Hi.
  pose proof (set_node_addr_wf st ni new_blkaddr fsync_done Hwf Hb Hv Hi) as Hwf2.
  destruct (set_node_addr_cache st ni new_blkaddr fsync_done Hwf Hb Hv Hi)
    as (Hwf' & Hbug & e3 & Hs & Hr3 & Hd3 & Hcp3).
  revert Hwf' Hwf2 Hbug Hs. generalize (set_node_addr ni new_blkaddr fsync_done (nc st)).
  set (nid := ni_nid ni). intros c' Hwf' Hwf2 Hbug Hs. pose proof (Hs nid) as Hsn.
  rewrite lookup_insert_eq in Hsn. destruct (nat_root c' !! nid) as [e5|] eqn:E5; [|done].
  injection Hsn as S1 S2 S3 S4 S5. unfold raw_nat_from_node_info in Hr3. split; [|split; [|split; [|split]]].
  - exact Hwf2.
  - intros n. unfold nat_view. simpl. destruct (Z.eqb_spec n nid) as [->|Hne].
    + rewrite E5. unfold raw_nat_from_node_info. congruence.
    + specialize (Hs n). rewrite lookup_insert_ne in Hs by done.
      destruct (nat_root c' !! n), (nat_root (nc st) !! n); try done.
      injection Hs as T1 T2 T3 _ _. unfold raw_nat_from_node_info. congruence.
  - apply elem_of_dirty_nids. simpl. exists e5. split; [done|congruence].
  - intros Hx. unfold is_checkpointed_node, __lookup_nat_cache. simpl. rewrite E5, S5. auto.
  - exact Hbug.
Qed.

(** ** Witnesses *)

Definition nat_blk0 : list f2fs_nat_entry :=
  [mk_raw_nat 0 0 0; mk_raw_nat 0 1 1; mk_raw_nat 0 2 1; mk_raw_nat 0 3 5000; mk_raw_nat 7 4 6000].
Definition nat_state0 : nat_state :=
  mk_nat (mk_cache ∅ ∅ [] 0 0 false)
    (mk_journal 1 ((9, mk_raw_nat 2 3 7000) :: replicate 37%nat (0, raw_nat0)))
    (mk_area 2560 [0x00] {[ 2560 := nat_blk0 ]}).

Lemma nat_state0_wf : nat_wf nat_state0.
Proof.
  split.
  - split; simpl; try done; try (intros ? ? H; by apply lookup_empty_Some in H).
    + intros n _. split; simpl.
      * split; [by intros ?%elem_of_nil|]. intros (e & He & _). by apply lookup_empty_Some in He.
      * intros k s Hs. by apply lookup_empty_Some in Hs.
    + split; [constructor|]. intros ? ? H. by apply lookup_empty_Some in H.
  - split; try (by vm_compute). intros i k Hi Hk _. simpl in *. lia.
  - split; [|simpl; lia]. apply Forall_cons. split; [unfold is_byte; lia|]. by apply Forall_nil.
  - intros nid e He. simpl in He. by apply lookup_empty_Some in He.
Qed.

Lemma get_node_info_correct_witness :
  (get_node_info true 9 nat_state0).1 = mk_ni 9 3 7000 2 0 /\
  (get_node_info true 4 nat_state0).1 = mk_ni 4 4 6000 7 0 /\
  nat_view (get_node_info true 4 nat_state0).2 9 = mk_raw_nat 2 3 7000.
Proof.
  split; [vm_compute; reflexivity|]. split; [vm_compute; reflexivity|].
  pose proof (get_node_info_correct true 4 nat_state0 nat_state0_wf) as H.
  destruct (get_node_info true 4 nat_state0) as [ni st']. destruct H as (_ & _ & _ & H).
  simpl. rewrite H. vm_compute. reflexivity.
Defined.

Lemma set_node_addr_correct_witness :
  let st' := set_nc (set_node_addr (mk_ni 4 4 6000 7 0) 0 false (nc nat_state0)) nat_state0 in
  nat_view st' 4 = mk_raw_nat 8 4 0 /\ nat_view st' 3 = mk_raw_nat 0 3 5000 /\
  is_checkpointed_node (nc st') 4 = false /\ nat_bug (nc st') = false.
Proof.
  intros st'.
  destruct (set_node_addr_correct nat_state0 (mk_ni 4 4 6000 7 0) 0 false nat_state0_wf)
    as (_ & H & _ & Hc & Hb); [vm_compute; reflexivity|vm_compute; reflexivity|right; vm_compute; reflexivity|].
  fold st' in H, Hc. rewrite !H. split; [vm_compute; reflexivity|]. split; [vm_compute; reflexivity|].
  split; [apply Hc; by right|]. apply Hb. split; [done|]. by split.
Defined.
