(* ===== verification/FreeNid.v ===== *)
(** * Free node ids (node.c)

    A cache of free node ids, filled by scanning the NAT blocks, the free-nid
    bitmaps and the NAT journal, from which [alloc_nid] takes; a node id that is
    handed out stays in the cache as PREALLOC_NID until [alloc_nid_done] or
    [alloc_nid_failed]. *)

From S2P Require Import Prelude Bits Inode Journal Nat.
From Stdlib Require Import ZArith Lia.
From stdpp Require Import base numbers option gmap list.
#[local] Open Scope Z_scope.
#[local] Open Scope c_scope.

(** ** Data *)

Inductive nid_state := FREE_NID | PREALLOC_NID.

#[global] Instance nid_state_eq_dec : EqDecision nid_state.
Proof. solve_decision. Defined.

(** The free node id management of [struct f2fs_nm_info]; bitmaps are the sets
    of their set bits, indexed by nid and by NAT block. *)
Record free_nids := mk_free {
  free_nid_root : gmap Z nid_state;  (* the free_nid cache *)
  free_nid_list : list Z;  (* the FREE_NID ones, oldest first *)
  nid_cnt_free : Z;  (* nid_cnt[FREE_NID] *)
  nid_cnt_prealloc : Z;  (* nid_cnt[PREALLOC_NID] *)
  available_nids : Z;
  free_nid_bitmap : gset Z;  (* the nids whose bit is set *)
  nat_block_bitmap : gset Z;  (* the NAT blocks whose bitmap is valid *)
  free_nid_count : gmap Z Z;  (* per NAT block, unsigned short *)
  next_scan_nid : Z;
  max_nid : Z;
  nat_blocks : Z
}.

Definition set_free_nid_root (x : gmap Z nid_state) (r : free_nids) : free_nids :=
  mk_free x (free_nid_list r) (nid_cnt_free r) (nid_cnt_prealloc r) (available_nids r) (free_nid_bitmap r) (nat_block_bitmap r) (free_nid_count r) (next_scan_nid r) (max_nid r) (nat_blocks r).
Definition set_free_nid_list (x : list Z) (r : free_nids) : free_nids :=
  mk_free (free_nid_root r) x (nid_cnt_free r) (nid_cnt_prealloc r) (available_nids r) (free_nid_bitmap r) (nat_block_bitmap r) (free_nid_count r) (next_scan_nid r) (max_nid r) (nat_blocks r).
Definition set_nid_cnt_free (x : Z) (r : free_nids) : free_nids :=
  mk_free (free_nid_root r) (free_nid_list r) x (nid_cnt_prealloc r) (available_nids r) (free_nid_bitmap r) (nat_block_bitmap r) (free_nid_count r) (next_scan_nid r) (max_nid r) (nat_blocks r).
Definition set_nid_cnt_prealloc (x : Z) (r : free_nids) : free_nids :=
  mk_free (free_nid_root r) (free_nid_list r) (nid_cnt_free r) x (available_nids r) (free_nid_bitmap r) (nat_block_bitmap r) (free_nid_count r) (next_scan_nid r) (max_nid r) (nat_blocks r).
Definition set_available_nids (x : Z) (r : free_nids) : free_nids :=
  mk_free (free_nid_root r) (free_nid_list r) (nid_cnt_free r) (nid_cnt_prealloc r) x (free_nid_bitmap r) (nat_block_bitmap r) (free_nid_count r) (next_scan_nid r) (max_nid r) (nat_blocks r).
Definition set_free_nid_bitmap (x : gset Z) (r : free_nids) : free_nids :=
  mk_free (free_nid_root r) (free_nid_list r) (nid_cnt_free r) (nid_cnt_prealloc r) (available_nids r) x (nat_block_bitmap r) (free_nid_count r) (next_scan_nid r) (max_nid r) (nat_blocks r).
Definition set_nat_block_bitmap (x : gset Z) (r : free_nids) : free_nids :=
  mk_free (free_nid_root r) (free_nid_list r) (nid_cnt_free r) (nid_cnt_prealloc r) (available_nids r) (free_nid_bitmap r) x (free_nid_count r) (next_scan_nid r) (max_nid r) (nat_blocks r).
Definition set_free_nid_count (x : gmap Z Z) (r : free_nids) : free_nids :=
  mk_free (free_nid_root r) (free_nid_list r) (nid_cnt_free r) (nid_cnt_prealloc r) (available_nids r) (free_nid_bitmap r) (nat_block_bitmap r) x (next_scan_nid r) (max_nid r) (nat_blocks r).
Definition set_next_scan_nid (x : Z) (r : free_nids) : free_nids :=
  mk_free (free_nid_root r) (free_nid_list r) (nid_cnt_free r) (nid_cnt_prealloc r) (available_nids r) (free_nid_bitmap r) (nat_block_bitmap r) (free_nid_count r) x (max_nid r) (nat_blocks r).

Definition FREE_NID_PAGES : nat := 8.
Definition MAX_FREE_NIDS : Z := NAT_ENTRY_PER_BLOCK * Z.of_nat FREE_NID_PAGES.

Definition nid_cnt (s : nid_state) (fn : free_nids) : Z :=
  match s with FREE_NID => nid_cnt_free fn | PREALLOC_NID => nid_cnt_prealloc fn end.
Definition add_nid_cnt (s : nid_state) (d : Z) (fn : free_nids) : free_nids :=
  match s with
  | FREE_NID => set_nid_cnt_free (nid_cnt_free fn + d) fn
  | PREALLOC_NID => set_nid_cnt_prealloc (nid_cnt_prealloc fn + d) fn
  end.

(** ** The cache of free nids *)

Definition __lookup_free_nid_list (fn : free_nids) (n : Z) : option nid_state := free_nid_root fn !! n.

(** [-EEXIST] of [radix_tree_insert] when the nid is there already. *)
Definition __insert_free_nid (nid : Z) (state : nid_state) (fn : free_nids) : Z * free_nids :=
  match free_nid_root fn !! nid with
  | Some _ => (- EEXIST, fn)
  | None =>
    let fn := set_free_nid_root (<[nid := state]> (free_nid_root fn)) fn in
    let fn := add_nid_cnt state 1 fn in
    (0, if decide (state = FREE_NID) then set_free_nid_list (free_nid_list fn ++ [nid]) fn else fn)
  end.

Definition __remove_free_nid (nid : Z) (state : nid_state) (fn : free_nids) : free_nids :=
  let fn := add_nid_cnt state (-1) fn in
  let fn := if decide (state = FREE_NID) then set_free_nid_list (unlink nid (free_nid_list fn)) fn else fn in
  set_free_nid_root (delete nid (free_nid_root fn)) fn.

Definition __move_free_nid (nid : Z) (org_state dst_state : nid_state) (fn : free_nids) : free_nids :=
  let fn := set_free_nid_root (<[nid := dst_state]> (free_nid_root fn)) fn in
  let fn := add_nid_cnt dst_state 1 (add_nid_cnt org_state (-1) fn) in
  match dst_state with
  | PREALLOC_NID => set_free_nid_list (unlink nid (free_nid_list fn)) fn
  | FREE_NID => set_free_nid_list (free_nid_list fn ++ [nid]) fn
  end.

Definition block_count (fn : free_nids) (ofs : Z) : Z := default 0 (free_nid_count fn !! ofs).

Definition update_free_nid_bitmap (nid : Z) (set build : bool) (fn : free_nids) : free_nids :=
  let nat_ofs := NAT_BLOCK_OFFSET nid in
  if negb (bool_decide (nat_ofs ∈ nat_block_bitmap fn)) then fn
  else if set then
    if bool_decide (nid ∈ free_nid_bitmap fn) then fn
    else
      let fn := set_free_nid_bitmap ({[nid]} ∪ free_nid_bitmap fn) fn in
      set_free_nid_count (<[nat_ofs := u16 (block_count fn nat_ofs + 1)]> (free_nid_count fn)) fn
  else
    if negb (bool_decide (nid ∈ free_nid_bitmap fn)) then fn
    else
      let fn := set_free_nid_bitmap (free_nid_bitmap fn ∖ {[nid]}) fn in
      if negb build
      then set_free_nid_count (<[nat_ofs := u16 (block_count fn nat_ofs - 1)]> (free_nid_count fn)) fn
      else fn.

Definition add_free_nid (c : cache) (nid : Z) (build update : bool) (fn : free_nids) : bool * free_nids :=
  if nid =? 0 then (false, fn)
  else
    let '(ret, fn) :=
      let insert := (true, (__insert_free_nid nid FREE_NID fn).2) in
      if build then
        match __lookup_nat_cache c nid with
        | Some ne =>
          if negb (get_nat_flag ne IS_CHECKPOINTED) || negb (ni_blk_addr ne =? NULL_ADDR) then (false, fn)
          else match __lookup_free_nid_list fn nid with
               | Some s => (bool_decide (s = FREE_NID), fn)
               | None => insert
               end
        | None => match __lookup_free_nid_list fn nid with
                  | Some s => (bool_decide (s = FREE_NID), fn)
                  | None => insert
                  end
        end
      else insert in
    let fn := if update then
                let fn := update_free_nid_bitmap nid ret build fn in
                if negb build then set_available_nids (u32 (available_nids fn + 1)) fn else fn
              else fn in
    (ret, fn).

Definition remove_free_nid (nid : Z) (fn : free_nids) : free_nids :=
  match __lookup_free_nid_list fn nid with
  | Some FREE_NID => __remove_free_nid nid FREE_NID fn
  | _ => fn
  end.

(** ** Scanning *)

(** The [for] loop of [scan_nat_page] from entry [i], [n] entries to go. *)
Fixpoint scan_nat_entries (c : cache) (nat_blk : list f2fs_nat_entry) (start_nid i : Z) (n : nat)
    (fn : free_nids) : free_nids :=
  match n with
  | O => fn
  | S n =>
    if start_nid >=? max_nid fn then fn
    else
      let blk_addr := ne_block_addr (zget raw_nat0 nat_blk i) in
      let fn := if blk_addr =? NULL_ADDR then (add_free_nid c start_nid true true fn).2
                else update_free_nid_bitmap start_nid false true fn in
      scan_nat_entries c nat_blk (start_nid + 1) (i + 1) n fn
  end.

Definition scan_nat_page (c : cache) (nat_blk : list f2fs_nat_entry) (start_nid : Z) (fn : free_nids)
    : free_nids :=
  let fn := set_nat_block_bitmap ({[NAT_BLOCK_OFFSET start_nid]} ∪ nat_block_bitmap fn) fn in
  let i := start_nid mod NAT_ENTRY_PER_BLOCK in
  scan_nat_entries c nat_blk start_nid i (Z.to_nat (NAT_ENTRY_PER_BLOCK - i)) fn.

Fixpoint scan_journal (c : cache) (j : journal f2fs_nat_entry) (i : Z) (n : nat) (fn : free_nids) : free_nids :=
  match n with
  | O => fn
  | S n =>
    let addr := ne_block_addr (ent_in_journal raw_nat0 j i) in
    let nid := id_in_journal raw_nat0 j i in
    let fn := if addr =? NULL_ADDR then (add_free_nid c nid true false fn).2
              else remove_free_nid nid fn in
    scan_journal c j (i + 1) n fn
  end.

Definition scan_curseg_cache (st : nat_state) (fn : free_nids) : free_nids :=
  scan_journal (nc st) (nj st) 0 (Z.to_nat (n_ents (nj st))) fn.

(** The inner loop over the bits of NAT block [i]; true for the [goto out]. *)
Fixpoint scan_block_bits (c : cache) (i idx : Z) (n : nat) (fn : free_nids) : bool * free_nids :=
  match n with
  | O => (false, fn)
  | S n =>
    let idx := scan_from (fun x => bool_decide (i * NAT_ENTRY_PER_BLOCK + x ∈ free_nid_bitmap fn)) idx
                 (Z.to_nat (NAT_ENTRY_PER_BLOCK - idx)) in
    if idx >=? NAT_ENTRY_PER_BLOCK then (false, fn)
    else
      let nid := i * NAT_ENTRY_PER_BLOCK + idx in
      let fn := (add_free_nid c nid true false fn).2 in
      if nid_cnt FREE_NID fn >=? MAX_FREE_NIDS then (true, fn)
      else scan_block_bits c i (idx + 1) n fn
  end.

Fixpoint scan_blocks (c : cache) (i : Z) (n : nat) (fn : free_nids) : free_nids :=
  match n with
  | O => fn
  | S n =>
    if negb (bool_decide (i ∈ nat_block_bitmap fn)) then scan_blocks c (i + 1) n fn
    else if negb (c_true (block_count fn i)) then scan_blocks c (i + 1) n fn
    else
      let '(out, fn) := scan_block_bits c i 0 (Z.to_nat NAT_ENTRY_PER_BLOCK) fn in
      if out then fn else scan_blocks c (i + 1) n fn
  end.

Definition scan_free_nid_bits (st : nat_state) (fn : free_nids) : free_nids :=
  scan_curseg_cache st (scan_blocks (nc st) 0 (Z.to_nat (nat_blocks fn)) fn).

(** The [while] loop of [__build_free_nids]: FREE_NID_PAGES passes. *)
Fixpoint scan_pages (st : nat_state) (nid : Z) (n : nat) (fn : free_nids) : Z * free_nids :=
  match n with
  | O => (nid, fn)
  | S n =>
    let fn := if negb (bool_decide (NAT_BLOCK_OFFSET nid ∈ nat_block_bitmap fn))
              then scan_nat_page (nc st) (get_current_nat_page (na st) nid) nid fn else fn in
    let nid := nid + (NAT_ENTRY_PER_BLOCK - nid mod NAT_ENTRY_PER_BLOCK) in
    let nid := if nid >=? max_nid fn then 0 else nid in
    scan_pages st nid n fn
  end.

(** [mem]: [available_free_memory(sbi, FREE_NIDS)].  Readahead is left out. *)
Definition __build_free_nids (mem sync mount : bool) (st : nat_state) (fn : free_nids) : free_nids :=
  let nid := next_scan_nid fn in
  let nid := if nid >=? max_nid fn then 0 else nid in
  if nid_cnt FREE_NID fn >=? NAT_ENTRY_PER_BLOCK then fn
  else if negb sync && negb mem then fn
  else
    let fn := if negb mount then scan_free_nid_bits st fn else fn in
    if negb mount && (nid_cnt FREE_NID fn >=? NAT_ENTRY_PER_BLOCK) then fn
    else
      let '(nid, fn) := scan_pages st nid FREE_NID_PAGES fn in
      let fn := set_next_scan_nid nid fn in
      scan_curseg_cache st fn.

Definition build_free_nids := __build_free_nids.

(** ** Allocation *)

(** Each pass of the [retry] loop: is a fault injected, is another thread
    building.  [None] when the passes given are used up. *)
Fixpoint alloc_nid (passes : list (bool * bool)) (st : nat_state) (fn : free_nids)
    : option (option Z) * free_nids :=
  match passes with
  | [] => (None, fn)
  | (inject, building) :: passes =>
    if inject then (Some None, fn)
    else if available_nids fn =? 0 then (Some None, fn)
    else
      match free_nid_list fn with
      | nid :: _ =>
        if c_true (nid_cnt FREE_NID fn) && negb building then
          let fn := __move_free_nid nid FREE_NID PREALLOC_NID fn in
          let fn := set_available_nids (u32 (available_nids fn - 1)) fn in
          (Some (Some nid), update_free_nid_bitmap nid false false fn)
        else alloc_nid passes st (build_free_nids true true false st fn)
      | [] => alloc_nid passes st (build_free_nids true true false st fn)
      end
  end.

Definition alloc_nid_done (nid : Z) (fn : free_nids) : free_nids := __remove_free_nid nid PREALLOC_NID fn.

Definition alloc_nid_failed (mem : bool) (nid : Z) (fn : free_nids) : free_nids :=
  if nid =? 0 then fn
  else
    let fn := if negb mem then __remove_free_nid nid PREALLOC_NID fn
              else __move_free_nid nid PREALLOC_NID FREE_NID fn in
    let fn := set_available_nids (u32 (available_nids fn + 1)) fn in
    update_free_nid_bitmap nid true false fn.

(** The [list_for_each_entry_safe] loop over [l]. *)
Fixpoint shrink_free_nids (l : list Z) (nr_shrink : Z) (fn : free_nids) : Z * free_nids :=
  match l with
  | [] => (nr_shrink, fn)
  | nid :: l =>
    if (nr_shrink <=? 0) || (nid_cnt FREE_NID fn <=? MAX_FREE_NIDS) then (nr_shrink, fn)
    else shrink_free_nids l (nr_shrink - 1) (__remove_free_nid nid FREE_NID fn)
  end.

(** [lock]: did [mutex_trylock] succeed. *)
Definition try_to_free_nids (lock : bool) (nr_shrink : Z) (fn : free_nids) : Z * free_nids :=
  if nid_cnt FREE_NID fn <=? MAX_FREE_NIDS then (0, fn)
  else if negb lock then (0, fn)
  else let '(rest, fn) := shrink_free_nids (free_nid_list fn) nr_shrink fn in (nr_shrink - rest, fn).

(** ** The structural invariant *)

Definition preallocated (fn : free_nids) : gset Z :=
  dom (filter (fun p => p.2 = PREALLOC_NID) (free_nid_root fn)).

Record free_wf (fn : free_nids) : Prop := {
  fw_list : forall nid, nid ∈ free_nid_list fn <-> free_nid_root fn !! nid = Some FREE_NID;
  fw_nodup : NoDup (free_nid_list fn);
  fw_free : nid_cnt_free fn = zlen (free_nid_list fn);
  fw_pre : nid_cnt_prealloc fn = Z.of_nat (size (preallocated fn));
  fw_zero : free_nid_root fn !! 0 = None;
  fw_bits : forall nid, nid ∈ free_nid_bitmap fn -> NAT_BLOCK_OFFSET nid ∈ nat_block_bitmap fn
}.

Lemma elem_of_preallocated fn nid :
  nid ∈ preallocated fn <-> free_nid_root fn !! nid = Some PREALLOC_NID.
Proof.
  unfold preallocated. rewrite elem_of_dom. split.
  - intros [s Hs]. apply map_lookup_filter_Some in Hs as [Hs Hp]. simpl in Hp. by rewrite Hs, Hp.
  - intros Hs. exists PREALLOC_NID. by apply map_lookup_filter_Some.
Qed.

Lemma preallocated_eq fn fn' :
  (forall nid, free_nid_root fn' !! nid = Some PREALLOC_NID <-> free_nid_root fn !! nid = Some PREALLOC_NID) ->
  preallocated fn' = preallocated fn.
Proof. intros H. apply set_eq. intros n. by rewrite !elem_of_preallocated. Qed.

Lemma zlen_snoc {A} (l : list A) x : zlen (l ++ [x]) = zlen l + 1.
Proof. unfold zlen. rewrite length_app. simpl. lia. Qed.

Lemma zlen_unlink nid l : NoDup l -> nid ∈ l -> zlen (unlink nid l) = zlen l - 1.
Proof. intros. by apply filter_out_one. Qed.

(** Removing a cached nid. *)
Lemma remove_free_wf nid s fn :
  free_wf fn -> free_nid_root fn !! nid = Some s -> free_wf (__remove_free_nid nid s fn).
Proof.
  intros [F1 F2 F3 F4 F5 F6] Hs. destruct s; split; simpl; try done.
  - intros n. rewrite elem_of_unlink, F1. destruct (decide (n = nid)) as [->|Hn].
    + rewrite lookup_delete_eq. split; [tauto|done].
    + rewrite lookup_delete_ne by done. tauto.
  - by apply NoDup_unlink.
  - rewrite zlen_unlink by (done || by apply F1). lia.
  - rewrite F4. do 2 f_equal. symmetry. apply preallocated_eq. simpl. intros n.
    destruct (decide (n = nid)) as [->|Hn];
      [rewrite lookup_delete_eq; split; congruence|by rewrite lookup_delete_ne].
  - destruct (decide (nid = 0)) as [->|Hn]; [congruence|by rewrite lookup_delete_ne].
  - intros n. rewrite F1. destruct (decide (n = nid)) as [->|Hn].
    + rewrite lookup_delete_eq. split; congruence.
    + by rewrite lookup_delete_ne by done.
  - match goal with |- context [preallocated ?f] => set (fn' := f) end.
    assert (preallocated fn = {[nid]} ∪ preallocated fn') as E.
    { apply set_eq. intros n. rewrite elem_of_union, elem_of_singleton, !elem_of_preallocated. simpl.
      destruct (decide (n = nid)) as [->|Hn];
        [tauto|rewrite lookup_delete_ne by done; tauto]. }
    rewrite F4, E, size_insert_new; [lia|]. rewrite elem_of_preallocated. simpl. by rewrite lookup_delete_eq.
  - destruct (decide (nid = 0)) as [->|Hn]; [congruence|by rewrite lookup_delete_ne].
Qed.

(** Moving one between the states. *)
Lemma prealloc_free_wf nid fn :
  free_wf fn -> free_nid_root fn !! nid = Some FREE_NID ->
  free_wf (__move_free_nid nid FREE_NID PREALLOC_NID fn).
Proof.
  intros [F1 F2 F3 F4 F5 F6] Hs. split; simpl; try done.
  - intros n. rewrite elem_of_unlink, F1. destruct (decide (n = nid)) as [->|Hn].
    + rewrite lookup_insert_eq. split; [tauto|done].
    + rewrite lookup_insert_ne by done. tauto.
  - by apply NoDup_unlink.
  - rewrite zlen_unlink by (done || by apply F1). lia.
  - match goal with |- context [preallocated ?f] => set (fn' := f) end.
    assert (preallocated fn' = {[nid]} ∪ preallocated fn) as ->.
    { apply set_eq. intros n. rewrite elem_of_union, elem_of_singleton, !elem_of_preallocated. simpl.
      destruct (decide (n = nid)) as [->|Hn];
        [rewrite lookup_insert_eq; tauto|rewrite lookup_insert_ne by done; tauto]. }
    rewrite size_insert_new; [lia|]. rewrite elem_of_preallocated. congruence.
  - destruct (decide (nid = 0)) as [->|Hn]; [congruence|by rewrite lookup_insert_ne].
Qed.

Lemma unprealloc_free_wf nid fn :
  free_wf fn -> free_nid_root fn !! nid = Some PREALLOC_NID ->
  free_wf (__move_free_nid nid PREALLOC_NID FREE_NID fn).
Proof.
  intros [F1 F2 F3 F4 F5 F6] Hs. split; simpl; try done.
  - intros n. rewrite elem_of_snoc, F1. destruct (decide (n = nid)) as [->|Hn].
    + rewrite lookup_insert_eq. tauto.
    + rewrite lookup_insert_ne by done. tauto.
  - apply NoDup_snoc; [done|]. rewrite F1. congruence.
  - rewrite zlen_snoc. lia.
  - match goal with |- context [preallocated ?f] => set (fn' := f) end.
    assert (preallocated fn = {[nid]} ∪ preallocated fn') as E.
    { apply set_eq. intros n. rewrite elem_of_union, elem_of_singleton, !elem_of_preallocated. simpl.
      destruct (decide (n = nid)) as [->|Hn]; [tauto|rewrite lookup_insert_ne by done; tauto]. }
    rewrite F4, E, size_insert_new; [lia|]. rewrite elem_of_preallocated. simpl.
    by rewrite lookup_insert_eq.
  - destruct (decide (nid = 0)) as [->|Hn]; [congruence|by rewrite lookup_insert_ne].
Qed.

Lemma insert_free_wf nid fn :
  nid <> 0 -> free_wf fn -> free_wf (__insert_free_nid nid FREE_NID fn).2.
Proof.
  intros Hn0 Hwf. unfold __insert_free_nid. destruct (free_nid_root fn !! nid) as [s|] eqn:Hs; [done|].
  destruct Hwf as [F1 F2 F3 F4 F5 F6]. split; simpl; try done.
  - intros n. rewrite elem_of_snoc, F1. destruct (decide (n = nid)) as [->|Hn].
    + rewrite lookup_insert_eq. tauto.
    + rewrite lookup_insert_ne by done. tauto.
  - apply NoDup_snoc; [done|]. rewrite F1. congruence.
  - rewrite zlen_snoc. lia.
  - rewrite F4. do 2 f_equal. symmetry. apply preallocated_eq. simpl. intros n.
    destruct (decide (n = nid)) as [->|Hn];
      [rewrite lookup_insert_eq; split; congruence|by rewrite lookup_insert_ne].
  - by rewrite lookup_insert_ne by done.
Qed.

Lemma update_bitmap_frame nid set build fn :
  let fn' := update_free_nid_bitmap nid set build fn in
  free_nid_root fn' = free_nid_root fn /\ free_nid_list fn' = free_nid_list fn /\
  nid_cnt_free fn' = nid_cnt_free fn /\ nid_cnt_prealloc fn' = nid_cnt_prealloc fn /\
  nat_block_bitmap fn' = nat_block_bitmap fn /\ max_nid fn' = max_nid fn /\
  nat_blocks fn' = nat_blocks fn /\ available_nids fn' = available_nids fn /\
  (forall n, n ∈ free_nid_bitmap fn' ->
     (n <> nid \/ set = true) /\ (n ∈ free_nid_bitmap fn \/ n = nid /\ set = true /\ NAT_BLOCK_OFFSET n ∈ nat_block_bitmap fn) \/
     NAT_BLOCK_OFFSET nid ∉ nat_block_bitmap fn /\ n ∈ free_nid_bitmap fn).
Proof.
  cbv zeta. unfold update_free_nid_bitmap.
  destruct (bool_decide (NAT_BLOCK_OFFSET nid ∈ nat_block_bitmap fn)) eqn:Hb; simpl negb; cbv iota.
  2: { apply bool_decide_eq_false in Hb. repeat (split; [done|]). intros n Hn. by right. }
  apply bool_decide_eq_true in Hb.
  destruct set.
  - destruct (bool_decide (nid ∈ free_nid_bitmap fn)) eqn:Hin; repeat (split; [done|]); intros n Hn.
    + left. split; [by right|by left].
    + simpl in Hn. apply elem_of_union in Hn as [->%elem_of_singleton|Hn].
      * left. split; [by right|]. right. done.
      * left. split; [by right|by left].
  - destruct (bool_decide (nid ∈ free_nid_bitmap fn)) eqn:Hin; simpl negb; cbv iota.
    + destruct build; repeat (split; [done|]); simpl; intros n [Hn1 Hn2%not_elem_of_singleton]%elem_of_difference;
        left; (split; [by left|by left]).
    + apply bool_decide_eq_false in Hin. repeat (split; [done|]). intros n Hn.
      left. split; [left; by intros ->|by left].
Qed.

Lemma update_bitmap_wf nid set build fn : free_wf fn -> free_wf (update_free_nid_bitmap nid set build fn).
Proof.
  intros [F1 F2 F3 F4 F5 F6].
  destruct (update_bitmap_frame nid set build fn) as (E1 & E2 & E3 & E4 & E5 & _ & _ & _ & E6).
  split; rewrite ?E1, ?E2, ?E3, ?E4, ?E5; try done.
  - rewrite F4. do 2 f_equal. symmetry. apply preallocated_eq. by rewrite E1.
  - intros n Hn. destruct (E6 n Hn) as [[_ [H|(-> & _ & H)]]|[_ H]]; auto.
Qed.

(** ** What a scan does *)

(** A scan keeps the invariant and the nids handed out, adds free nids that
    satisfy [Q] only, and sets bits that satisfy [R] only. *)
Record scan_step (Q R : Z -> Prop) (fn fn' : free_nids) : Prop := {
  ss_wf : free_wf fn -> free_wf fn';
  ss_free : forall n, free_nid_root fn' !! n = Some FREE_NID -> free_nid_root fn !! n = Some FREE_NID \/ Q n;
  ss_pre : forall n, free_nid_root fn' !! n = Some PREALLOC_NID <-> free_nid_root fn !! n = Some PREALLOC_NID;
  ss_bits : forall n, n ∈ free_nid_bitmap fn' -> n ∈ free_nid_bitmap fn \/ R n;
  ss_blocks : forall b, b ∈ nat_block_bitmap fn -> b ∈ nat_block_bitmap fn';
  ss_const : max_nid fn' = max_nid fn /\ nat_blocks fn' = nat_blocks fn /\
             available_nids fn' = available_nids fn
}.

#[global] Instance scan_step_preorder Q R : PreOrder (scan_step Q R).
Proof.
  split.
  - intros fn. split; try done; intros; by left.
  - intros f g h [A1 A2 A3 A4 A5 (A6 & A7 & A8)] [B1 B2 B3 B4 B5 (B6 & B7 & B8)]. split; auto.
    + intros n Hn. destruct (B2 n Hn) as [H|H]; auto.
    + intros n. by rewrite B3.
    + intros n Hn. destruct (B4 n Hn) as [H|H]; auto.
    + split_and!; congruence.
Qed.

Lemma scan_step_weaken (Q Q' R R' : Z -> Prop) fn fn' :
  (forall n, Q n -> Q' n) -> (forall n, R n -> R' n) -> scan_step Q R fn fn' -> scan_step Q' R' fn fn'.
Proof.
  intros HQ HR [A1 A2 A3 A4 A5 A6]. split; auto.
  - intros n Hn. destruct (A2 n Hn); auto.
  - intros n Hn. destruct (A4 n Hn); auto.
Qed.

(** The NAT cache does not forbid to take [nid] for free. *)
Definition cache_allows (c : cache) (nid : Z) : Prop :=
  match nat_root c !! nid with
  | Some e => ni_blk_addr e = NULL_ADDR
  | None => True
  end.

Lemma insert_step nid fn :
  nid <> 0 -> scan_step (fun n => n = nid) (fun _ => False) fn (__insert_free_nid nid FREE_NID fn).2.
Proof.
  intros Hn0. pose proof (insert_free_wf nid fn Hn0) as Hw. unfold __insert_free_nid in *.
  destruct (free_nid_root fn !! nid) as [s|] eqn:Hs; [reflexivity|].
  split; simpl in *; try done; try (intros; by left).
  - intros n. destruct (decide (n = nid)) as [->|Hn]; [by right|].
    rewrite lookup_insert_ne by done. by left.
  - intros n. destruct (decide (n = nid)) as [->|Hn].
    + rewrite lookup_insert_eq. split; congruence.
    + by rewrite lookup_insert_ne by done.
Qed.

Lemma update_bitmap_step nid set build fn :
  scan_step (fun _ => False) (fun n => n = nid /\ set = true) fn (update_free_nid_bitmap nid set build fn).
Proof.
  destruct (update_bitmap_frame nid set build fn) as (E1 & E2 & E3 & E4 & E5 & E6 & E7 & E8 & E9).
  split; rewrite ?E1, ?E5; try done.
  - by apply update_bitmap_wf.
  - intros; by left.
  - intros n Hn. destruct (E9 n Hn) as [[_ [H|(-> & -> & _)]]|[_ H]]; auto.
Qed.

(** [add_free_nid] while building. *)
Lemma add_free_step c nid update fn :
  scan_step (fun n => n = nid /\ cache_allows c n) (fun n => n = nid /\ update = true) fn
    (add_free_nid c nid true update fn).2.
Proof.
  unfold add_free_nid, __lookup_nat_cache, __lookup_free_nid_list. case_if; [reflexivity|].
  assert (Hins : cache_allows c nid ->
    scan_step (fun n => n = nid /\ cache_allows c n) (fun n => n = nid /\ update = true) fn
      (__insert_free_nid nid FREE_NID fn).2).
  { intros Hc. eapply scan_step_weaken; [| |by apply insert_step]; [by intros n ->|done]. }
  set (X := match nat_root c !! nid with Some _ => _ | None => _ end).
  assert (HX : scan_step (fun n => n = nid /\ cache_allows c n) (fun n => n = nid /\ update = true) fn X.2).
  { unfold X, cache_allows in *. destruct (nat_root c !! nid) as [ne|] eqn:Hc.
    - destruct (negb (get_nat_flag ne IS_CHECKPOINTED) || negb (ni_blk_addr ne =? NULL_ADDR)) eqn:Hf;
        [reflexivity|zbool].
      destruct (free_nid_root fn !! nid); [reflexivity|by apply Hins].
    - destruct (free_nid_root fn !! nid); [reflexivity|by apply Hins]. }
  destruct X as [ret fn1]. simpl in HX. destruct update; [|exact HX]. simpl negb. cbv iota.
  etrans; [exact HX|]. eapply scan_step_weaken; [| |apply update_bitmap_step]; [done|by intros n [-> _]].
Qed.

Lemma remove_step nid fn :
  scan_step (fun _ => False) (fun _ => False) fn (remove_free_nid nid fn) /\
  (free_wf fn -> free_nid_root (remove_free_nid nid fn) !! nid <> Some FREE_NID).
Proof.
  unfold remove_free_nid, __lookup_free_nid_list.
  destruct (free_nid_root fn !! nid) as [[]|] eqn:Hs; try (split; [reflexivity|congruence]).
  split.
  - split; simpl; try done; try (intros; by left).
    + intros Hwf. by apply remove_free_wf.
    + intros n. destruct (decide (n = nid)) as [->|Hn].
      * by rewrite lookup_delete_eq.
      * rewrite lookup_delete_ne by done. by left.
    + intros n. destruct (decide (n = nid)) as [->|Hn].
      * rewrite lookup_delete_eq. split; congruence.
      * by rewrite lookup_delete_ne by done.
  - intros _. simpl. by rewrite lookup_delete_eq.
Qed.

(** ** Scanning a NAT block, a bitmap, the journal *)

Lemma nat_per_block : NAT_ENTRY_PER_BLOCK = 455.
Proof. reflexivity. Qed.

Lemma scan_entries_step c blk start i n fn :
  scan_step (fun m => cache_allows c m /\ exists k, 0 <= k < Z.of_nat n /\ m = start + k /\
                      ne_block_addr (zget raw_nat0 blk (i + k)) = NULL_ADDR)
    (fun m => exists k, 0 <= k < Z.of_nat n /\ m = start + k /\
              ne_block_addr (zget raw_nat0 blk (i + k)) = NULL_ADDR) fn
    (scan_nat_entries c blk start i n fn).
Proof.
  revert start i fn. induction n as [|n IH]; intros start i fn; [reflexivity|].
  cbn [scan_nat_entries]. case_if; [reflexivity|].
  assert (Hhere : forall P : Z -> Prop, P start ->
    ne_block_addr (zget raw_nat0 blk i) = NULL_ADDR -> P start /\
    exists k, 0 <= k < Z.of_nat (S n) /\ start = start + k /\ ne_block_addr (zget raw_nat0 blk (i + k)) = NULL_ADDR).
  { intros P HP Hb. split; [done|]. exists 0. rewrite !Z.add_0_r. split; [lia|done]. }
  etrans; [|eapply scan_step_weaken; [| |apply IH]].
  - case_if.
    + eapply scan_step_weaken; [| |apply add_free_step].
      * intros m [-> Hm]. by apply Hhere.
      * intros m [-> _]. by apply (Hhere (fun _ => True)).
    + eapply scan_step_weaken; [| |apply update_bitmap_step]; [done|by intros m []].
  - intros m (Hm & k & Hk & -> & Hb). split; [done|]. exists (k + 1). split; [lia|].
    split; [lia|]. by replace (i + (k + 1)) with (i + 1 + k) by lia.
  - intros m (k & Hk & -> & Hb). exists (k + 1). split; [lia|].
    split; [lia|]. by replace (i + (k + 1)) with (i + 1 + k) by lia.
Qed.

(** The entry of the current copy of the NAT block. *)
Definition page_entry (a : nat_area) (nid : Z) : f2fs_nat_entry :=
  zget raw_nat0 (get_current_nat_page a nid) (nid - START_NID nid).

Lemma same_block start k :
  0 <= k -> start mod NAT_ENTRY_PER_BLOCK + k < NAT_ENTRY_PER_BLOCK ->
  NAT_BLOCK_OFFSET (start + k) = NAT_BLOCK_OFFSET start.
Proof. unfold NAT_BLOCK_OFFSET. rewrite nat_per_block. intros. zdiv. Qed.

Lemma current_page_same a n m :
  NAT_BLOCK_OFFSET n = NAT_BLOCK_OFFSET m -> get_current_nat_page a n = get_current_nat_page a m.
Proof.
  intros H. unfold get_current_nat_page. rewrite !current_nat_addr_copy. unfold nat_bit. by rewrite H.
Qed.

Lemma scan_page_step c a start fn :
  scan_step (fun m => cache_allows c m /\ ne_block_addr (page_entry a m) = NULL_ADDR)
    (fun m => ne_block_addr (page_entry a m) = NULL_ADDR) fn
    (scan_nat_page c (get_current_nat_page a start) start fn).
Proof.
  unfold scan_nat_page. cbv zeta.
  set (fn1 := set_nat_block_bitmap _ fn).
  assert (H1 : scan_step (fun _ => False) (fun _ => False) fn fn1).
  { split; simpl; try done; try (intros; by left).
    - intros [F1 F2 F3 F4 F5 F6]. split; try done. simpl. intros n Hn. apply elem_of_union. auto.
    - intros b Hb. apply elem_of_union. by right. }
  etrans; [eapply scan_step_weaken; [| |exact H1]; done|].
  pose proof (Z.mod_pos_bound start NAT_ENTRY_PER_BLOCK eq_refl).
  assert (Hpe : forall k, 0 <= k < Z.of_nat (Z.to_nat (NAT_ENTRY_PER_BLOCK - start mod NAT_ENTRY_PER_BLOCK)) ->
    page_entry a (start + k) =
    zget raw_nat0 (get_current_nat_page a start) (start mod NAT_ENTRY_PER_BLOCK + k)).
  { intros k Hk. assert (Hb : NAT_BLOCK_OFFSET (start + k) = NAT_BLOCK_OFFSET start)
      by (apply same_block; lia).
    unfold page_entry. rewrite (current_page_same a _ start Hb). f_equal. unfold START_NID.
    rewrite Hb. unfold NAT_BLOCK_OFFSET. rewrite Z.mod_eq by done. lia. }
  eapply scan_step_weaken; [| |apply scan_entries_step].
  - intros m (Hc & k & Hk & -> & Hb). split; [done|]. by rewrite Hpe.
  - intros m (k & Hk & -> & Hb). by rewrite Hpe.
Qed.

Lemma scan_bits_step c i idx n fn :
  scan_step (fun m => cache_allows c m /\ m ∈ free_nid_bitmap fn) (fun _ => False) fn
    (scan_block_bits c i idx n fn).2.
Proof.
  revert idx fn. induction n as [|n IH]; intros idx fn; [reflexivity|]. cbn [scan_block_bits].
  match goal with |- context [scan_from ?P idx ?m] => pose proof (scan_from_spec P idx m) as (S1 & _ & S3);
    set (r := scan_from P idx m) in * end.
  case_if; [reflexivity|].
  assert (Hin : i * NAT_ENTRY_PER_BLOCK + r ∈ free_nid_bitmap fn).
  { apply (bool_decide_unpack _). apply Is_true_true. apply S3. lia. }
  pose proof (add_free_step c (i * NAT_ENTRY_PER_BLOCK + r) false fn) as Ha.
  set (fn1 := (add_free_nid c (i * NAT_ENTRY_PER_BLOCK + r) true false fn).2) in *.
  assert (H1 : scan_step (fun m => cache_allows c m /\ m ∈ free_nid_bitmap fn) (fun _ => False) fn fn1).
  { eapply scan_step_weaken; [| |exact Ha]; [by intros m [-> ?]|by intros m []]. }
  case_if; [exact H1|]. etrans; [exact H1|].
  eapply scan_step_weaken; [| |apply IH]; [|done].
  intros m [Hm Hb]. split; [done|]. by destruct (ss_bits _ _ _ _ H1 m Hb).
Qed.

Lemma scan_blocks_step c i n fn :
  scan_step (fun m => cache_allows c m /\ m ∈ free_nid_bitmap fn) (fun _ => False) fn
    (scan_blocks c i n fn).
Proof.
  revert i fn. induction n as [|n IH]; intros i fn; [reflexivity|]. cbn [scan_blocks].
  case_if; [apply IH|]. case_if; [apply IH|].
  pose proof (scan_bits_step c i 0 (Z.to_nat NAT_ENTRY_PER_BLOCK) fn) as H1.
  destruct (scan_block_bits c i 0 (Z.to_nat NAT_ENTRY_PER_BLOCK) fn) as [out fn1]. simpl in H1.
  destruct out; [exact H1|]. etrans; [exact H1|].
  eapply scan_step_weaken; [| |apply IH]; [|done].
  intros m [Hm Hb]. split; [done|]. by destruct (ss_bits _ _ _ _ H1 m Hb).
Qed.

Lemma scan_pages_step st nid n fn :
  scan_step (fun m => cache_allows (nc st) m /\ ne_block_addr (page_entry (na st) m) = NULL_ADDR)
    (fun m => ne_block_addr (page_entry (na st) m) = NULL_ADDR) fn (scan_pages st nid n fn).2.
Proof.
  revert nid fn. induction n as [|n IH]; intros nid fn; [reflexivity|]. cbn [scan_pages].
  etrans; [|apply IH]. case_if; [|reflexivity]. apply scan_page_step.
Qed.

(** ** The nids in the cache are unused *)

(** A nid that may be handed out has no block. *)
Definition free_safe (st : nat_state) (fn : free_nids) : Prop :=
  forall n, free_nid_root fn !! n = Some FREE_NID -> ne_block_addr (nat_view st n) = NULL_ADDR.

(** A set bit means a NAT block entry without a block, unless the journal has
    a newer entry. *)
Definition bits_safe (st : nat_state) (fn : free_nids) : Prop :=
  forall n, n ∈ free_nid_bitmap fn -> j_find raw_nat0 NAT_JOURNAL_ENTRIES (nj st) n = None ->
    ne_block_addr (page_entry (na st) n) = NULL_ADDR.

(** While a scan runs, a nid may be in the cache that the journal, from its
    entry [i] on, says is used. *)
Definition safe_from (st : nat_state) (i : Z) (fn : free_nids) : Prop :=
  forall n, free_nid_root fn !! n = Some FREE_NID -> ne_block_addr (nat_view st n) = NULL_ADDR \/
    nat_root (nc st) !! n = None /\
    exists k, i <= k < n_ents (nj st) /\ id_in_journal raw_nat0 (nj st) k = n.

(** What allows a scan to take [n]. *)
Lemma scanned_safe st n :
  nat_wf st -> cache_allows (nc st) n ->
  (j_find raw_nat0 NAT_JOURNAL_ENTRIES (nj st) n = None -> ne_block_addr (page_entry (na st) n) = NULL_ADDR) ->
  ne_block_addr (nat_view st n) = NULL_ADDR \/
  nat_root (nc st) !! n = None /\
  exists k, 0 <= k < n_ents (nj st) /\ id_in_journal raw_nat0 (nj st) k = n.
Proof.
  intros Hwf Hc Hp. unfold cache_allows, nat_view, durable in *.
  destruct (nat_root (nc st) !! n) as [e|]; [by left|].
  destruct (j_find raw_nat0 NAT_JOURNAL_ENTRIES (nj st) n) as [e|] eqn:Hj.
  - right. split; [done|]. apply j_find_Some in Hj as (k & Hk & Hid & _). by exists k.
  - left. by apply Hp.
Qed.

Lemma scan_journal_safe st n i fn :
  nat_wf st -> free_wf fn -> 0 <= i -> i + Z.of_nat n = n_ents (nj st) -> safe_from st i fn ->
  free_safe st (scan_journal (nc st) (nj st) i n fn).
Proof.
  intros Hwf. revert i fn. induction n as [|n IH]; intros i fn Hf Hi Hn Hs; cbn [scan_journal].
  - intros m Hm. destruct (Hs m Hm) as [|(_ & k & Hk & _)]; [done|lia].
  - set (nid := id_in_journal raw_nat0 (nj st) i). set (e := ent_in_journal raw_nat0 (nj st) i).
    assert (Hje : j_find raw_nat0 NAT_JOURNAL_ENTRIES (nj st) nid = Some e)
      by (apply j_find_at; [apply Hwf|lia]).
    assert (Hview : ne_block_addr e = NULL_ADDR -> cache_allows (nc st) nid ->
                    ne_block_addr (nat_view st nid) = NULL_ADDR).
    { intros He. unfold cache_allows, nat_view, durable. rewrite Hje.
      by destruct (nat_root (nc st) !! nid). }
    assert (Hstep : forall m, m <> nid -> ne_block_addr (nat_view st m) = NULL_ADDR \/
        nat_root (nc st) !! m = None /\ (exists k, i <= k < n_ents (nj st) /\ id_in_journal raw_nat0 (nj st) k = m) ->
        ne_block_addr (nat_view st m) = NULL_ADDR \/
        nat_root (nc st) !! m = None /\ exists k, i + 1 <= k < n_ents (nj st) /\ id_in_journal raw_nat0 (nj st) k = m).
    { intros m Hm [H|(Hc & k & Hk & Hid)]; [by left|right]. split; [done|]. exists k.
      split; [|done]. destruct (decide (k = i)) as [->|]; [done|lia]. }
    apply IH; [|lia|lia|].
    + case_if; [by eapply ss_wf; [apply add_free_step|]|by eapply ss_wf; [apply remove_step|]].
    + case_if; intros m Hm.
      * destruct (decide (m = nid)) as [->|Hmn].
        -- left. destruct (ss_free _ _ _ _ (add_free_step (nc st) nid false fn) nid Hm) as [H|[_ H]];
             [|by apply Hview].
           destruct (Hs nid H) as [|[Hc _]]; [done|]. apply Hview; [done|]. unfold cache_allows. by rewrite Hc.
        -- apply Hstep; [done|]. destruct (ss_free _ _ _ _ (add_free_step (nc st) nid false fn) m Hm) as [H|[? _]];
             [by apply Hs|done].
      * destruct (remove_step nid fn) as [Hr Hrn].
        assert (m <> nid) by (intros ->; by apply (Hrn Hf)).
        apply Hstep; [done|]. by destruct (ss_free _ _ _ _ Hr m Hm) as [H1|[]]; apply Hs.
Qed.

Lemma scan_journal_step c j n i fn :
  scan_step (fun _ => True) (fun _ => False) fn (scan_journal c j i n fn).
Proof.
  revert i fn. induction n as [|n IH]; intros i fn; [reflexivity|]. cbn [scan_journal].
  etrans; [|apply IH]. case_if.
  - eapply scan_step_weaken; [| |apply add_free_step]; [done|by intros m []].
  - eapply scan_step_weaken; [| |apply remove_step]; done.
Qed.

(** A scan followed by that of the journal. *)
Lemma scan_then_journal st fn fn1 :
  nat_wf st -> free_wf fn -> free_safe st fn -> bits_safe st fn ->
  scan_step (fun m => cache_allows (nc st) m /\
      (j_find raw_nat0 NAT_JOURNAL_ENTRIES (nj st) m = None -> ne_block_addr (page_entry (na st) m) = NULL_ADDR))
    (fun m => ne_block_addr (page_entry (na st) m) = NULL_ADDR) fn fn1 ->
  let fn2 := scan_curseg_cache st fn1 in
  free_wf fn2 /\ free_safe st fn2 /\ bits_safe st fn2 /\
  (forall n, free_nid_root fn2 !! n = Some PREALLOC_NID <-> free_nid_root fn !! n = Some PREALLOC_NID).
Proof.
  intros Hwf Hf Hfs Hbs H1. cbv zeta. unfold scan_curseg_cache.
  pose proof (jw_count _ _ _ (nw_journal st Hwf)).
  pose proof (ss_wf _ _ _ _ H1 Hf) as Hf1.
  pose proof (scan_journal_step (nc st) (nj st) (Z.to_nat (n_ents (nj st))) 0 fn1) as H2.
  split; [by apply (ss_wf _ _ _ _ H2)|]. split; [|split].
  - apply scan_journal_safe; [done|done|lia|lia|]. intros m Hm.
    destruct (ss_free _ _ _ _ H1 m Hm) as [Hm'|[Hc Hp]]; [left; by apply Hfs|by apply scanned_safe].
  - intros m Hm Hj. destruct (ss_bits _ _ _ _ H2 m Hm) as [Hm'|[]].
    destruct (ss_bits _ _ _ _ H1 m Hm') as [Hb|Hb]; [by apply Hbs|done].
  - intros m. by rewrite (ss_pre _ _ _ _ H2), (ss_pre _ _ _ _ H1).
Qed.

Definition free_inv (st : nat_state) (fn : free_nids) : Prop :=
  free_wf fn /\ free_safe st fn /\ bits_safe st fn.

Definition same_prealloc (fn fn' : free_nids) : Prop :=
  forall n, free_nid_root fn' !! n = Some PREALLOC_NID <-> free_nid_root fn !! n = Some PREALLOC_NID.

Lemma build_free_nids_inv mem sync mount st fn :
  nat_wf st -> free_inv st fn ->
  free_inv st (build_free_nids mem sync mount st fn) /\
  same_prealloc fn (build_free_nids mem sync mount st fn).
Proof.
  intros Hwf Hinv. unfold build_free_nids, __build_free_nids. cbv zeta.
  assert (Hrefl : free_inv st fn /\ same_prealloc fn fn) by (by split).
  case_if; [done|]. case_if; [done|].
  set (fn1 := if negb mount then _ else _).
  assert (H1 : free_inv st fn1 /\ same_prealloc fn fn1).
  { unfold fn1. case_if; [|done]. destruct Hinv as (I1 & I2 & I3).
    unfold scan_free_nid_bits.
    destruct (scan_then_journal st fn (scan_blocks (nc st) 0 (Z.to_nat (nat_blocks fn)) fn))
      as (J1 & J2 & J3 & J4); try done.
    eapply scan_step_weaken; [| |apply scan_blocks_step]; [|done].
    intros m [Hm Hb]. split; [done|]. by apply I3. }
  clearbody fn1. destruct H1 as [(I1 & I2 & I3) Hp]. case_if; [split; [split; [exact I1|split; [exact I2|exact I3]]|exact Hp]|].
  match goal with |- context [scan_pages st ?n0 _ fn1] => set (nid := n0) end.
  pose proof (scan_pages_step st nid FREE_NID_PAGES fn1) as H2.
  destruct (scan_pages st nid FREE_NID_PAGES fn1) as [nid' fn2]. simpl in H2.
  destruct (scan_then_journal st fn1 (set_next_scan_nid nid' fn2)) as (J1 & J2 & J3 & J4); try done.
  - etrans; [eapply scan_step_weaken; [| |exact H2]; [by intros m [? ?]|done]|].
    split; simpl; try done; try (intros; by left). intros [F1 F2 F3 F4 F5 F6]. by split.
  - split; [done|]. intros n. rewrite J4. apply Hp.
Qed.

(** Taking the first free nid. *)
Lemma take_free_nid st nid l fn :
  nat_wf st -> free_inv st fn -> free_nid_list fn = nid :: l ->
  let fn1 := __move_free_nid nid FREE_NID PREALLOC_NID fn in
  let fn1 := set_available_nids (u32 (available_nids fn1 - 1)) fn1 in
  let fn' := update_free_nid_bitmap nid false false fn1 in
  free_inv st fn' /\ nid <> 0 /\ ne_block_addr (nat_view st nid) = NULL_ADDR /\
  free_nid_root fn !! nid = Some FREE_NID /\ free_nid_root fn' = <[nid := PREALLOC_NID]> (free_nid_root fn).
Proof.
  cbv zeta. intros Hwf (I1 & I2 & I3) Hl.
  assert (Hf : free_nid_root fn !! nid = Some FREE_NID) by (apply (fw_list fn I1); rewrite Hl; left).
  pose proof (prealloc_free_wf nid fn I1 Hf) as Hw.
  set (fn1 := set_available_nids _ _). assert (Hw1 : free_wf fn1) by (destruct Hw; by split).
  pose proof (update_bitmap_step nid false false fn1) as Hst.
  destruct (update_bitmap_frame nid false false fn1) as (Er & _).
  split; [split; [by apply update_bitmap_wf|split]|].
  - intros n. rewrite Er. simpl. destruct (decide (n = nid)) as [->|Hn]; [by rewrite lookup_insert_eq|].
    rewrite lookup_insert_ne by done. apply I2.
  - intros n Hn Hj. destruct (ss_bits _ _ _ _ Hst n Hn) as [H|[_ ?]]; [by apply I3|done].
  - split; [|split; [by apply I2|split; [done|by rewrite Er]]].
    intros ->. rewrite (fw_zero fn I1) in Hf. done.
Qed.

(** C14. [alloc_nid] never hands out a node id that is in use: an id it returns
    is not 0, has no block in the NAT as the cache, the journal and the NAT
    blocks together define it, was not handed out already, and is handed out
    now; no other id changes hands, and the free id management stays
    consistent, whatever faults are injected and however often it has to scan. *)
Theorem alloc_nid_unused passes st fn :
  nat_wf st -> free_inv st fn ->
  let '(res, fn') := alloc_nid passes st fn in
  free_inv st fn' /\
  match res with
  | Some (Some nid) =>
      nid <> 0 /\ ne_block_addr (nat_view st nid) = NULL_ADDR /\
      nid ∉ preallocated fn /\ preallocated fn' = {[nid]} ∪ preallocated fn
  | _ => preallocated fn' = preallocated fn
  end.
Proof.
  intros Hwf. revert fn. induction passes as [|[inject building] passes IH]; intros fn Hinv; [done|].
  cbn [alloc_nid]. destruct inject; [done|]. case_if; [done|].
  assert (Hretry : let '(res, fn') := alloc_nid passes st (build_free_nids true true false st fn) in
    free_inv st fn' /\
    match res with
    | Some (Some nid) =>
        nid <> 0 /\ ne_block_addr (nat_view st nid) = NULL_ADDR /\
        nid ∉ preallocated fn /\ preallocated fn' = {[nid]} ∪ preallocated fn
    | _ => preallocated fn' = preallocated fn
    end).
  { destruct (build_free_nids_inv true true false st fn Hwf Hinv) as [H1 H2].
    specialize (IH _ H1). by rewrite (preallocated_eq fn _ H2) in IH. }
  destruct (free_nid_list fn) as [|nid l] eqn:Hl; [exact Hretry|].
  destruct (c_true (nid_cnt FREE_NID fn) && negb building); [|exact Hretry].
  destruct (take_free_nid st nid l fn Hwf Hinv Hl) as (T1 & T2 & T3 & T4 & T5).
  split; [exact T1|]. split; [done|]. split; [done|]. split.
  - rewrite elem_of_preallocated. congruence.
  - apply set_eq. intros n. rewrite elem_of_union, elem_of_singleton, !elem_of_preallocated, T5.
    destruct (decide (n = nid)) as [->|Hn]; [rewrite lookup_insert_eq; tauto|].
    rewrite lookup_insert_ne by done. tauto.
Qed.

(** Dropping a cached nid. *)
Lemma remove_inv st nid s fn :
  free_inv st fn -> free_nid_root fn !! nid = Some s -> free_inv st (__remove_free_nid nid s fn).
Proof.
  intros (I1 & I2 & I3) Hs. split; [by apply remove_free_wf|]. split.
  - intros n Hn. apply I2. destruct s; simpl in Hn;
      (destruct (decide (n = nid)) as [->|?]; [by rewrite lookup_delete_eq in Hn|by rewrite lookup_delete_ne in Hn]).
  - destruct s; exact I3.
Qed.

Lemma remove_prealloc nid s fn :
  free_nid_root fn !! nid = Some s ->
  preallocated (__remove_free_nid nid s fn) = preallocated fn ∖ {[nid]}.
Proof.
  intros Hs. apply set_eq. intros n.
  rewrite elem_of_difference, not_elem_of_singleton, !elem_of_preallocated.
  destruct s; simpl; (destruct (decide (n = nid)) as [->|?];
    [rewrite lookup_delete_eq; split; [done|tauto]|rewrite lookup_delete_ne by done; tauto]).
Qed.

(** The release of an id whose NAT entry has no block. *)
Lemma set_bit_inv st nid fn a :
  free_inv st fn -> ne_block_addr (durable (nj st) (na st) nid) = NULL_ADDR ->
  free_inv st (update_free_nid_bitmap nid true false (set_available_nids a fn)).
Proof.
  intros (I1 & I2 & I3) Hd. set (fn1 := set_available_nids a fn).
  assert (free_wf fn1) by (by destruct I1).
  pose proof (update_bitmap_step nid true false fn1) as Hst.
  split; [by apply update_bitmap_wf|]. split; intros n Hn.
  - destruct (ss_free _ _ _ _ Hst n Hn) as [H1|[]]. by apply I2.
  - intros Hj. destruct (ss_bits _ _ _ _ Hst n Hn) as [H1|[-> _]]; [by apply I3|].
    unfold durable in Hd. by rewrite Hj in Hd.
Qed.

(** An id that was handed out ends as the caller says: [alloc_nid_done] takes
    it out of the cache, [alloc_nid_failed] makes it available again (and
    allocatable, if there is memory); both keep the free id management
    consistent and touch no other id that is handed out. *)
Theorem nid_release_correct mem st nid fn :
  free_inv st fn -> nid ∈ preallocated fn -> ne_block_addr (nat_view st nid) = NULL_ADDR ->
  ne_block_addr (durable (nj st) (na st) nid) = NULL_ADDR ->
  (let fn' := alloc_nid_done nid fn in
   free_inv st fn' /\ preallocated fn' = preallocated fn ∖ {[nid]} /\ free_nid_root fn' !! nid = None /\
   available_nids fn' = available_nids fn) /\
  (let fn' := alloc_nid_failed mem nid fn in
   free_inv st fn' /\ preallocated fn' = preallocated fn ∖ {[nid]} /\
   free_nid_root fn' !! nid = (if mem then Some FREE_NID else None) /\
   available_nids fn' = u32 (available_nids fn + 1)).
Proof.
  intros Hinv Hp%elem_of_preallocated Hview Hdur. cbv zeta. split.
  - split; [by apply remove_inv|]. split; [by apply remove_prealloc|].
    split; [simpl; by rewrite lookup_delete_eq|done].
  - unfold alloc_nid_failed.
    rewrite (proj2 (Z.eqb_neq nid 0)) by (intros ->; destruct Hinv as [I1 _]; by rewrite (fw_zero fn I1) in Hp).
    cbv zeta. set (fn1 := if negb mem then _ else _).
    assert (H1 : free_inv st fn1 /\ preallocated fn1 = preallocated fn ∖ {[nid]} /\
      free_nid_root fn1 !! nid = (if mem then Some FREE_NID else None) /\ available_nids fn1 = available_nids fn).
    { unfold fn1. destruct mem; simpl negb; cbv iota.
      - destruct Hinv as (I1 & I2 & I3). split; [split; [by apply unprealloc_free_wf|split; [|exact I3]]|].
        + intros n. simpl. destruct (decide (n = nid)) as [->|Hn]; [done|].
          rewrite lookup_insert_ne by done. apply I2.
        + split; [|split; [simpl; by rewrite lookup_insert_eq|done]]. apply set_eq. intros n.
          rewrite elem_of_difference, not_elem_of_singleton, !elem_of_preallocated. simpl.
          destruct (decide (n = nid)) as [->|Hn];
            [rewrite lookup_insert_eq; split; [done|tauto]|rewrite lookup_insert_ne by done; tauto].
      - split; [by apply remove_inv|]. split; [by apply remove_prealloc|].
        split; [simpl; by rewrite lookup_delete_eq|done]. }
    clearbody fn1. destruct H1 as (H1 & H2 & H3 & H4).
    destruct (update_bitmap_frame nid true false (set_available_nids (u32 (available_nids fn1 + 1)) fn1))
      as (E1 & _ & _ & _ & _ & _ & _ & E8 & _).
    split; [by apply set_bit_inv|]. rewrite E1, E8. rewrite <- H2.
    split; [apply preallocated_eq; intros n; by rewrite E1|]. split; [exact H3|]. simpl. by rewrite H4.
Qed.

(** The shrinker. *)
Lemma shrink_correct st l nr fn :
  free_inv st fn -> (exists l0, free_nid_list fn = l ++ l0) -> NoDup l ->
  let '(rest, fn') := shrink_free_nids l nr fn in
  free_inv st fn' /\ preallocated fn' = preallocated fn /\
  nr - rest = nid_cnt_free fn - nid_cnt_free fn' /\ rest <= nr /\ (0 <= nr -> 0 <= rest) /\
  (rest = nr \/ MAX_FREE_NIDS <= nid_cnt_free fn').
Proof.
  revert nr fn. induction l as [|nid l IH]; intros nr fn Hinv [l0 Hl] Hnd; cbn [shrink_free_nids].
  - split_and!; try done; try lia; by left.
  - case_if; [split_and!; try done; try lia; by left|].
    assert (Hf : free_nid_root fn !! nid = Some FREE_NID)
      by (destruct Hinv as [I1 _]; apply (fw_list fn I1); rewrite Hl; left).
    pose proof (remove_inv st nid FREE_NID fn Hinv Hf) as Hinv1.
    pose proof (remove_prealloc nid FREE_NID fn Hf) as Hp1.
    apply NoDup_cons in Hnd as [Hn Hnd].
    specialize (IH (nr - 1) (__remove_free_nid nid FREE_NID fn) Hinv1).
    destruct (shrink_free_nids l (nr - 1) (__remove_free_nid nid FREE_NID fn)) as [rest fn'].
    destruct IH as (J1 & J2 & J3 & J4 & J5 & J6); [|done|].
    + simpl. rewrite Hl. exists (unlink nid l0). unfold unlink. rewrite filter_app, filter_cons.
      rewrite decide_False by tauto. f_equal. by apply unlink_notin.
    + simpl in J3. unfold nid_cnt in *. split_and!; try done; try lia.
      * rewrite J2, Hp1. apply set_eq. intros n.
        rewrite elem_of_difference, not_elem_of_singleton, elem_of_preallocated.
        split; [tauto|]. intros Hx. split; [done|]. intros ->. congruence.
Qed.

(** [try_to_free_nids] returns the number of ids it dropped from the cache:
    at most [nr_shrink], never below MAX_FREE_NIDS of them, none that is handed
    out. *)
Theorem try_to_free_nids_correct lock nr st fn :
  free_inv st fn -> 0 <= nr ->
  let '(n, fn') := try_to_free_nids lock nr fn in
  free_inv st fn' /\ preallocated fn' = preallocated fn /\
  n = nid_cnt_free fn - nid_cnt_free fn' /\ 0 <= n <= nr /\
  (n = 0 \/ MAX_FREE_NIDS <= nid_cnt_free fn').
Proof.
  intros Hinv Hnr. unfold try_to_free_nids. case_if; [split_and!; try done; try lia; by left|].
  case_if; [split_and!; try done; try lia; by left|].
  pose proof (shrink_correct st (free_nid_list fn) nr fn Hinv) as Hs.
  destruct (shrink_free_nids (free_nid_list fn) nr fn) as [rest fn'].
  destruct Hs as (J1 & J2 & J3 & J4 & J5 & J6).
  - exists []. by rewrite app_nil_r.
  - by destruct Hinv as [[_ ? _ _ _ _] _].
  - split_and!; try done; lia.
Qed.

(** ** Witnesses *)

Definition free0 : free_nids := mk_free ∅ [] 0 0 400 ∅ ∅ ∅ 4 455 1.

Lemma free0_inv : free_inv nat_state0 free0.
Proof.
  split; [split; simpl; try done|split].
  - intros n. split; [by intros ?%elem_of_nil|]. simpl. intros H. by apply lookup_empty_Some in H.
  - constructor.
  - intros n H. simpl in H. by apply lookup_empty_Some in H.
  - intros n H. by apply elem_of_empty in H.
Qed.

(** The first pass finds no free id and scans; the second takes one. *)
Lemma alloc_nid_unused_witness :
  let r := alloc_nid [(false, false); (false, false)] nat_state0 free0 in
  r.1 = Some (Some 5) /\ (available_nids r.2, nid_cnt_free r.2) = (399, 448) /\
  ne_block_addr (nat_view nat_state0 5) = NULL_ADDR.
Proof.
  intros r. assert (E : r.1 = Some (Some 5)) by (vm_compute; reflexivity).
  split; [exact E|]. split; [vm_compute; reflexivity|].
  pose proof (alloc_nid_unused [(false, false); (false, false)] nat_state0 free0 nat_state0_wf free0_inv) as H.
  fold r in H. clearbody r. destruct r as [res fn']. simpl in E. subst res. apply H.
Defined.

Definition free1 : free_nids := mk_free {[ 5 := PREALLOC_NID ]} [] 0 1 399 ∅ {[0]} ∅ 0 455 1.

Lemma free1_inv : free_inv nat_state0 free1.
Proof.
  split; [split; simpl; try done|split].
  - intros n. split; [by intros ?%elem_of_nil|]. simpl. intros [_ H]%lookup_singleton_Some. done.
  - constructor.
  - intros n. simpl. intros [_ H]%lookup_singleton_Some. done.
  - intros n H. by apply elem_of_empty in H.
Qed.

Lemma nid_release_correct_witness :
  free_inv nat_state0 (alloc_nid_failed true 5 free1) /\
  free_nid_list (alloc_nid_failed true 5 free1) = [5] /\ available_nids (alloc_nid_failed true 5 free1) = 400.
Proof.
  destruct (nid_release_correct true nat_state0 5 free1 free1_inv) as (_ & H & _).
  - by apply elem_of_preallocated.
  - vm_compute. reflexivity.
  - vm_compute. reflexivity.
  - split; [exact H|]. split; vm_compute; reflexivity.
Defined.

Lemma try_to_free_nids_correct_witness :
  (try_to_free_nids true 10 free1).1 = 0 /\ free_inv nat_state0 (try_to_free_nids true 10 free1).2.
Proof.
  split; [reflexivity|].
  pose proof (try_to_free_nids_correct true 10 nat_state0 free1 free1_inv ltac:(lia)) as H.
  destruct (try_to_free_nids true 10 free1) as [n fn']. apply H.
Defined.
