(* ===== verification/NatFlush.v ===== *)
(** * Flushing the NAT at a checkpoint (node.c)

    [flush_nat_entries] writes the dirty NAT entries to the journal or to the
    other copy of their NAT blocks.  What a mount after the checkpoint finds is
    what the running file system sees. *)

From S2P Require Import Prelude Bits Inode Journal Nat FreeNid.
From Stdlib Require Import ZArith Lia.
From stdpp Require Import base numbers option gmap sorting list.
#[local] Open Scope Z_scope.
#[local] Open Scope c_scope.

(** ** Data *)

(** The NAT, the free node ids, and the bits of the NAT blocks that are all
    free or all used. *)
Record flush_state := mk_flush {
  fs_nat : nat_state;
  fs_free : free_nids;
  empty_nat_bits : gset Z;
  full_nat_bits : gset Z
}.

Definition MAX_NAT_JENTRIES (j : journal f2fs_nat_entry) : Z := MAX_JENTRIES NAT_JOURNAL_ENTRIES j.

(** [enabled_nat_bits(sbi, cpc)]: the flag of the checkpoint and, when there is
    a [cpc], an unmount. *)
Definition enabled_nat_bits (nat_bits_flag : bool) (cpc_umount : option bool) : bool :=
  match cpc_umount with Some umount => umount && nat_bits_flag | None => nat_bits_flag end.

(** ** Operations *)

(** The [for] loop over the journal. *)
Fixpoint remove_nats_loop (j : journal f2fs_nat_entry) (i : Z) (n : nat) (c : cache) (fn : free_nids)
    : cache * free_nids :=
  match n with
  | O => (c, fn)
  | S n =>
    let nid := id_in_journal raw_nat0 j i in
    let raw_ne := ent_in_journal raw_nat0 j i in
    let '(ne, c) := match __lookup_nat_cache c nid with
                    | Some ne => (ne, c)
                    | None => __init_nat_entry (__alloc_nat_entry nid) (Some raw_ne) c
                    end in
    let fn := if negb (get_nat_flag ne IS_DIRTY) && (ne_block_addr raw_ne =? NULL_ADDR)
              then set_available_nids (u32 (available_nids fn - 1)) fn else fn in
    remove_nats_loop j (i + 1) n (__set_nat_cache_dirty ne c) fn
  end.

Definition remove_nats_in_journal (s : nat_state * free_nids) : nat_state * free_nids :=
  let '(st, fn) := s in
  let n := n_ents (nj st) in
  let '(c, fn) := remove_nats_loop (nj st) 0 (Z.to_nat n) (nc st) fn in
  (mk_nat c (update_in_cursum (nj st) (- n)).2 (na st), fn).

Definition set_cnt (c : cache) (k : Z) : Z :=
  match nat_set_root c !! k with Some s => entry_cnt s | None => 0 end.

(** The list of sets, as set numbers: before the first set that is not smaller. *)
Fixpoint insert_before (c : cache) (nes : Z) (head : list Z) : list Z :=
  match head with
  | [] => [nes]
  | cur :: rest => if set_cnt c cur >=? set_cnt c nes then nes :: cur :: rest
                   else cur :: insert_before c nes rest
  end.

Definition __adjust_nat_entry_set (c : cache) (max : Z) (head : list Z) (nes : Z) : list Z :=
  if set_cnt c nes >=? max then head ++ [nes] else insert_before c nes head.

Definition SETVEC_SIZE : nat := 32.

(** [radix_tree_gang_lookup]: the first [nr] keys from [start] on, in order. *)
Definition __gang_lookup_nat_set (c : cache) (start : Z) (nr : nat) : list Z :=
  take nr (filter (fun k => start <= k) (merge_sort Z.le (elements (dom (nat_set_root c))))).

Fixpoint collect_sets (fuel : nat) (c : cache) (max set_idx : Z) (sets : list Z) : list Z :=
  match fuel with
  | O => sets
  | S fuel =>
    match __gang_lookup_nat_set c set_idx SETVEC_SIZE with
    | [] => sets
    | vec => collect_sets fuel c max (List.last vec 0 + 1) (foldl (__adjust_nat_entry_set c max) sets vec)
    end
  end.

(** One dirty entry of a set: to the journal, or to the NAT block at [dst]. *)
Definition flush_entry_nat (to_journal : bool) (dst set : Z) (st : nat_state) (nid : Z) : nat_state :=
  match __lookup_nat_cache (nc st) nid with
  | None => st
  | Some ne =>
    let raw_ne := raw_nat_from_node_info ne in
    let st := if to_journal then set_nj (j_put raw_nat0 NAT_JOURNAL_ENTRIES (nj st) nid raw_ne) st
              else
                let blk := get_meta_page (na st) dst in
                set_na (set_meta_page dst (zset blk (nid - set * NAT_ENTRY_PER_BLOCK) raw_ne) (na st)) st in
    set_nc (__clear_nat_cache_dirty set (nat_reset_flag ne) (nc st)) st
  end.

Definition flush_entry (to_journal : bool) (dst set : Z) (s : nat_state * free_nids) (nid : Z)
    : nat_state * free_nids :=
  let '(st, fn) := s in
  let st' := flush_entry_nat to_journal dst set st nid in
  match __lookup_nat_cache (nc st) nid with
  | None => (st', fn)
  | Some ne => (st', if ni_blk_addr ne =? NULL_ADDR then (add_free_nid (nc st') nid false true fn).2
                     else update_free_nid_bitmap nid false false fn)
  end.

(** The number of used entries of a NAT block, from entry [i] on. *)
Fixpoint count_valid (blk : list f2fs_nat_entry) (i : Z) (n : nat) (valid : Z) : Z :=
  match n with
  | O => valid
  | S n => count_valid blk (i + 1) n
             (if negb (ne_block_addr (zget raw_nat0 blk i) =? NULL_ADDR) then valid + 1 else valid)
  end.

Definition __update_nat_bits (nat_bits_flag : bool) (start_nid : Z) (blk : list f2fs_nat_entry)
    (bits : gset Z * gset Z) : gset Z * gset Z :=
  let nat_index := start_nid / NAT_ENTRY_PER_BLOCK in
  let '(empty, full) := bits in
  if negb (enabled_nat_bits nat_bits_flag None) then bits
  else
    let valid := if nat_index =? 0 then count_valid blk 1 454 1 else count_valid blk 0 455 0 in
    if valid =? 0 then ({[nat_index]} ∪ empty, full ∖ {[nat_index]})
    else if valid =? NAT_ENTRY_PER_BLOCK then (empty ∖ {[nat_index]}, {[nat_index]} ∪ full)
    else (empty ∖ {[nat_index]}, full ∖ {[nat_index]}).

Definition drop_empty_set (set : Z) (st : nat_state) : nat_state :=
  if set_cnt (nc st) set =? 0
  then set_nc (set_nat_set_root (delete set (nat_set_root (nc st))) (nc st)) st else st.

Definition set_list (c : cache) (set : Z) : list Z :=
  match nat_set_root c !! set with Some s => entry_list s | None => [] end.

Definition __flush_nat_entry_set (nat_bits_flag umount : bool) (s : flush_state) (set : Z) : flush_state :=
  let st := fs_nat s in
  let start_nid := set * NAT_ENTRY_PER_BLOCK in
  let to_journal := negb (enabled_nat_bits nat_bits_flag (Some umount) ||
                          negb (__has_cursum_space NAT_JOURNAL_ENTRIES (nj st) (set_cnt (nc st) set))) in
  let entries := set_list (nc st) set in
  let '(dst, st) := if to_journal then (0, st)
                    else let '(dst, a) := get_next_nat_page start_nid (na st) in (dst, set_na a st) in
  let '(st, fn) := foldl (flush_entry to_journal dst set) (st, fs_free s) entries in
  let '(empty, full) :=
    if to_journal then (empty_nat_bits s, full_nat_bits s)
    else __update_nat_bits nat_bits_flag start_nid (get_meta_page (na st) dst)
           (empty_nat_bits s, full_nat_bits s) in
  mk_flush (drop_empty_set set st) fn empty full.

Definition flush_nat_entries (nat_bits_flag umount : bool) (s : flush_state) : flush_state :=
  if negb (c_true (dirty_nat_cnt (nc (fs_nat s)))) then s
  else
    let '(st, fn) :=
      if enabled_nat_bits nat_bits_flag (Some umount) ||
         negb (__has_cursum_space NAT_JOURNAL_ENTRIES (nj (fs_nat s)) (dirty_nat_cnt (nc (fs_nat s))))
      then remove_nats_in_journal (fs_nat s, fs_free s) else (fs_nat s, fs_free s) in
    let sets := collect_sets (S (size (nat_set_root (nc st)))) (nc st) (MAX_NAT_JENTRIES (nj st)) 0 [] in
    foldl (__flush_nat_entry_set nat_bits_flag umount)
      (mk_flush st fn (empty_nat_bits s) (full_nat_bits s)) sets.

(** ** Lemmas: an entry becomes clean *)

Definition cleaned_entry (e e' : node_info) : Prop :=
  ni_nid e' = ni_nid e /\ raw_nat_from_node_info e' = raw_nat_from_node_info e /\
  is_dirty e' = false /\ get_nat_flag e' IS_CHECKPOINTED = true.

Lemma reset_cleaned e : cleaned_entry e (set_nat_flag IS_DIRTY false (nat_reset_flag e)).
Proof. unfold cleaned_entry, nat_reset_flag, is_dirty. autorewrite with nat. done. Qed.

Lemma clear_cache_dirty_wf c e nid :
  cache_wf c -> nat_root c !! nid = Some e -> is_dirty e = true ->
  let c' := __clear_nat_cache_dirty (NAT_BLOCK_OFFSET nid) (nat_reset_flag e) c in
  cache_wf c' /\
  (exists e', nat_root c' = <[nid := e']> (nat_root c) /\ cleaned_entry e e') /\
  (forall k, k <> NAT_BLOCK_OFFSET nid -> nat_set_root c' !! k = nat_set_root c !! k) /\
  (exists s s', nat_set_root c !! NAT_BLOCK_OFFSET nid = Some s /\
     nat_set_root c' !! NAT_BLOCK_OFFSET nid = Some s' /\ entry_list s' = unlink nid (entry_list s)) /\
  dirty_nids (nat_root c) = {[nid]} ∪ dirty_nids (nat_root c') /\ nid ∉ dirty_nids (nat_root c').
Proof.
  cbv zeta. intros Hwf He Hd. set (k := NAT_BLOCK_OFFSET nid).
  pose proof (cw_key _ _ Hwf nid e He) as Hkey. pose proof (reset_cleaned e) as Hcl.
  assert (Hrn : ni_nid (nat_reset_flag e) = nid) by (unfold nat_reset_flag; by autorewrite with nat).
  destruct (cw_set _ _ Hwf nid e He Hd) as [s Hs]. fold k in Hs.
  assert (Hbut : cache_wf_but (fun n => n = nid) c) by (by apply (cache_wf_weaken (fun _ => False))).
  destruct (nat_list_del_wf_but (fun n => n = nid) c nid eq_refl Hbut) as (Hwf1 & N1 & N2).
  unfold __clear_nat_cache_dirty. rewrite Hrn. set (c1 := nat_list_del nid c) in *.
  set (e' := set_nat_flag IS_DIRTY false (nat_reset_flag e)) in *.
  assert (Hroot1 : nat_root c1 = nat_root c) by done.
  assert (Hs1 : nat_set_root c1 !! k = Some (mk_set (unlink nid (entry_list s)) (entry_cnt s))).
  { unfold c1. rewrite nat_list_del_sets. case_decide; [by rewrite Hs|done]. }
  assert (Hother : forall k', k' <> k -> nat_set_root c1 !! k' = nat_set_root c !! k')
    by (intros k' Hk'; unfold c1; rewrite nat_list_del_sets; by case_decide).
  destruct Hcl as (C1 & C2 & C3 & C4). rewrite Hkey in C1.
  destruct (dirty_nids_add (<[nid := e']> (nat_root c)) nid e' e) as [Hdn Hdn']; [by rewrite lookup_insert_eq|done..|].
  pose proof (dirty_in_add (<[nid := e']> (nat_root c)) nid e' e) as Hdi.
  rewrite insert_insert_eq, (insert_id (nat_root c) nid e He) in Hdn, Hdi.
  clearbody e'. clearbody c1. rewrite <- Hroot1 in *.
  assert (Halt : forall k' s', alter (fun s0 => mk_set (entry_list s0) (entry_cnt s0 - 1)) k (nat_set_root c1) !! k' = Some s' ->
    exists s0, nat_set_root c1 !! k' = Some s0 /\ entry_list s' = entry_list s0 /\
      entry_cnt s' = entry_cnt s0 - if decide (k = k') then 1 else 0).
  { intros k' s'. destruct (decide (k = k')) as [<-|Hk].
    - rewrite lookup_alter_eq, Hs1. intros [= <-]. by eexists.
    - rewrite lookup_alter_ne by done. intros Hk'. exists s'. split; [done|]. split; [done|]. lia. }
  simpl. unfold put_nat. simpl. rewrite C1. split; [|split; [|split; [|split]]].
  - destruct Hwf1 as [W1 W2 W3 [W4 W4'] W5 W6 W7 W8]. split; simpl.
    + intros n e1. destruct (decide (n = nid)) as [->|Hn].
      * rewrite lookup_insert_eq. by intros [= <-].
      * rewrite lookup_insert_ne by done. apply W1.
    + intros n _. destruct (decide (n = nid)) as [->|Hn].
      * split; simpl.
        -- rewrite elem_of_snoc, lookup_insert_eq. split; [|by right]. intros _. by exists e'.
        -- intros k' s' Hk'. destruct (Halt k' s' Hk') as (s0 & Hs0 & -> & _). rewrite lookup_insert_eq.
           split; [by intros ?%(N2 k' s0 Hs0)|]. intros (_ & e1 & [= <-] & [? _]). congruence.
      * destruct (W2 n Hn) as [L1 L2]. split; simpl.
        -- rewrite elem_of_snoc, lookup_insert_ne, L1 by done. tauto.
        -- intros k' s' Hk'. destruct (Halt k' s' Hk') as (s0 & Hs0 & -> & _).
           rewrite lookup_insert_ne by done. by apply L2.
    + intros n e1 Hn He1. destruct (decide (n = nid)) as [->|Hnn].
      * rewrite lookup_insert_eq in Hn. congruence.
      * rewrite lookup_insert_ne in Hn by done. destruct (W3 n e1 Hn He1) as [s0 Hs0].
        destruct (decide (k = NAT_BLOCK_OFFSET n)) as [Hk|Hk].
        -- rewrite <- Hk, lookup_alter_eq, Hs1. by eexists.
        -- rewrite lookup_alter_ne by done. by eexists.
    + split; [by apply NoDup_snoc|]. intros k' s' Hk'.
      destruct (Halt k' s' Hk') as (s0 & Hs0 & -> & _). by eapply W4'.
    + intros k' s' n Hk'. destruct (Halt k' s' Hk') as (s0 & Hs0 & -> & _). by apply W5.
    + intros k' s' Hk'. destruct (Halt k' s' Hk') as (s0 & Hs0 & _ & ->).
      rewrite (W6 k' s0 Hs0). specialize (Hdi k'). rewrite lookup_insert_eq in Hdi.
      rewrite Hdi by done. fold k. repeat case_decide; lia || done.
    + rewrite W7, Hdn, size_insert_new by done. lia.
    + rewrite map_size_insert_Some by (by rewrite He). done.
  - eexists. split; [done|]. by split_and!; [congruence|..].
  - intros k' Hk'. rewrite lookup_alter_ne by done. by apply Hother.
  - exists s. eexists. split; [done|]. rewrite lookup_alter_eq, Hs1. simpl. by split.
  - done.
Qed.

(** ** Lemmas: NAT blocks *)

Definition pages_ok (a : nat_area) : Prop :=
  forall nid, nid_ok a nid -> zlen (get_current_nat_page a nid) = NAT_ENTRY_PER_BLOCK.

(** Two areas with the same content in the current copies. *)
Definition same_pages (a a' : nat_area) : Prop :=
  area_wf a' /\ (forall n, nid_ok a' n <-> nid_ok a n) /\
  forall n, get_current_nat_page a' n = get_current_nat_page a n.

Lemma get_meta_set a i blk k :
  get_meta_page (set_meta_page i blk a) k = if i =? k then blk else get_meta_page a k.
Proof.
  unfold get_meta_page, set_meta_page. simpl. destruct (Z.eqb_spec i k) as [->|H].
  - by rewrite lookup_insert_eq.
  - by rewrite lookup_insert_ne.
Qed.

(** Switching to the other copy of a block changes no entry. *)
Lemma next_page_same nid a :
  area_wf a -> nid_ok a nid ->
  let '(dst, a') := get_next_nat_page nid a in same_pages a a' /\ dst = current_nat_addr a' nid.
Proof.
  intros Hwf Hok. unfold get_next_nat_page. cbv zeta.
  set (dst := next_nat_addr a (current_nat_addr a nid)).
  set (a1 := set_meta_page dst (get_meta_page a (current_nat_addr a nid)) a).
  assert (Hwf1 : area_wf a1) by exact Hwf. assert (Hok1 : nid_ok a1 nid) by exact Hok.
  assert (Hpos : 0 <= NAT_BLOCK_OFFSET nid) by (apply Z.div_pos; [apply Hok|reflexivity]).
  assert (Hdst : dst = nat_copy a (NAT_BLOCK_OFFSET nid) (negb (nat_bit a nid))).
  { unfold dst. by rewrite current_nat_addr_copy, next_nat_addr_copy. }
  assert (Hcur : forall n, current_nat_addr (set_to_next_nat nid a1) n =
    nat_copy a (NAT_BLOCK_OFFSET n) (xorb (nat_bit a n) (NAT_BLOCK_OFFSET nid =? NAT_BLOCK_OFFSET n))).
  { intros n. rewrite current_nat_addr_copy. by rewrite nat_bit_flip. }
  split; [split; [|split]|].
  - destruct Hwf as [H1 H2]. split; [|done]. unfold set_to_next_nat, f2fs_change_bit. simpl.
    cbv zeta. by apply bytes_zset_u8.
  - intros n. unfold nid_ok. simpl. unfold f2fs_change_bit. cbv zeta. by rewrite zlen_zset.
  - intros n. unfold get_current_nat_page. rewrite Hcur.
    change (get_meta_page (set_to_next_nat nid a1)) with (get_meta_page a1). unfold a1.
    rewrite get_meta_set, Hdst. destruct (Z.eqb_spec (NAT_BLOCK_OFFSET nid) (NAT_BLOCK_OFFSET n)) as [Hb|Hb].
    + rewrite Hb, xorb_true_r. assert (Hbit : nat_bit a nid = nat_bit a n) by (unfold nat_bit; by rewrite Hb).
      by rewrite Hbit, Z.eqb_refl, !current_nat_addr_copy, Hb, Hbit.
    + rewrite xorb_false_r. case_if.
      * by apply nat_copy_inj in E as [? _].
      * by rewrite current_nat_addr_copy.
  - by rewrite Hcur, Z.eqb_refl, xorb_true_r.
Qed.

(** Writing an entry of the current copy. *)
Lemma write_entry nid e a :
  area_wf a -> nid_ok a nid -> pages_ok a ->
  let dst := current_nat_addr a nid in
  let a' := set_meta_page dst (zset (get_meta_page a dst) (nid - NAT_BLOCK_OFFSET nid * NAT_ENTRY_PER_BLOCK) e) a in
  area_wf a' /\ (forall n, nid_ok a' n <-> nid_ok a n) /\ pages_ok a' /\
  (forall n, current_nat_addr a' n = current_nat_addr a n) /\
  forall n, page_entry a' n = if n =? nid then e else page_entry a n.
Proof.
  intros Hwf Hok Hp. cbv zeta. set (dst := current_nat_addr a nid).
  match goal with |- context [set_meta_page dst ?b a] => set (blk := b) end.
  assert (Hpage : forall n, get_current_nat_page (set_meta_page dst blk a) n =
    if NAT_BLOCK_OFFSET nid =? NAT_BLOCK_OFFSET n then blk else get_current_nat_page a n).
  { intros n. unfold get_current_nat_page.
    change (current_nat_addr (set_meta_page dst blk a) n) with (current_nat_addr a n).
    rewrite get_meta_set. unfold dst. rewrite !current_nat_addr_copy.
    destruct (Z.eqb_spec (NAT_BLOCK_OFFSET nid) (NAT_BLOCK_OFFSET n)) as [Hb|Hb].
    - rewrite Hb. unfold nat_bit. by rewrite Hb, Z.eqb_refl.
    - case_if; [|done]. by apply nat_copy_inj in E as [? _]. }
  pose proof (Hp nid Hok) as Hlen.
  assert (Hblk : zlen blk = NAT_ENTRY_PER_BLOCK) by (unfold blk; by rewrite zlen_zset).
  split; [done|]. split; [done|]. split; [|split; [done|]].
  - intros n Hn. rewrite Hpage. case_if; [done|]. by apply Hp.
  - intros n. unfold page_entry. rewrite Hpage.
    destruct (Z.eqb_spec (NAT_BLOCK_OFFSET nid) (NAT_BLOCK_OFFSET n)) as [Hb|Hb].
    + unfold blk, START_NID. fold (get_current_nat_page a nid).
      change (get_meta_page a dst) with (get_current_nat_page a nid).
      rewrite zget_zset by (rewrite Hlen; unfold NAT_BLOCK_OFFSET; rewrite nat_per_block; zdiv).
      rewrite <- Hb, (current_page_same a n nid) by done.
      destruct (Z.eqb_spec n nid) as [->|Hn]; [by rewrite Z.eqb_refl|].
      rewrite (proj2 (Z.eqb_neq _ _)) by lia. done.
    + case_if; [|done]. by subst.
Qed.

Lemma durable_eq j a n :
  durable j a n = match j_find raw_nat0 NAT_JOURNAL_ENTRIES j n with Some e => e | None => page_entry a n end.
Proof. done. Qed.

(** ** The state during a flush *)

Record flush_wf (st : nat_state) : Prop := {
  xw_nat : nat_wf st;
  xw_pages : pages_ok (na st);
  xw_cached : forall nid e, nat_root (nc st) !! nid = Some e -> nid_ok (na st) nid;
  xw_journal : forall nid, j_find raw_nat0 NAT_JOURNAL_ENTRIES (nj st) nid <> None -> nid_ok (na st) nid;
  xw_sets : forall k s, nat_set_root (nc st) !! k = Some s -> nid_ok (na st) (k * NAT_ENTRY_PER_BLOCK)
}.

(** Where an entry may go: a journal with room, or a block the journal does not
    shadow. *)
Definition can_flush (to_journal : bool) (dst : Z) (st : nat_state) (nid : Z) : Prop :=
  if to_journal then
    j_find raw_nat0 NAT_JOURNAL_ENTRIES (nj st) nid <> None \/ n_ents (nj st) < NAT_JOURNAL_ENTRIES
  else j_find raw_nat0 NAT_JOURNAL_ENTRIES (nj st) nid = None /\ dst = current_nat_addr (na st) nid.

(** Writing one entry out, before it is marked clean. *)
Lemma flush_write to_journal dst st nid r :
  flush_wf st -> nid_ok (na st) nid -> can_flush to_journal dst st nid ->
  let set := NAT_BLOCK_OFFSET nid in
  let st' := if to_journal then set_nj (j_put raw_nat0 NAT_JOURNAL_ENTRIES (nj st) nid r) st
             else set_na (set_meta_page dst (zset (get_meta_page (na st) dst)
                            (nid - set * NAT_ENTRY_PER_BLOCK) r) (na st)) st in
  nc st' = nc st /\ journal_wf raw_nat0 NAT_JOURNAL_ENTRIES (nj st') /\ area_wf (na st') /\
  pages_ok (na st') /\ (forall n, nid_ok (na st') n <-> nid_ok (na st) n) /\
  (forall n, durable (nj st') (na st') n = if n =? nid then r else durable (nj st) (na st) n) /\
  (forall n, current_nat_addr (na st') n = current_nat_addr (na st) n) /\
  (forall n, j_find raw_nat0 NAT_JOURNAL_ENTRIES (nj st') n <> None ->
     n = nid \/ j_find raw_nat0 NAT_JOURNAL_ENTRIES (nj st) n <> None) /\
  (to_journal = false -> nj st' = nj st) /\
  n_ents (nj st) <= n_ents (nj st') <= n_ents (nj st) + 1.
Proof.
  intros [[C1 C2 C3 C4] Hp _ _ _] Hok Hcan. cbv zeta. destruct to_journal; simpl in *.
  - destruct (j_put_spec raw_nat0 NAT_JOURNAL_ENTRIES (nj st) nid r C2 Hcan) as (J1 & J2 & J3).
    split_and!; try done; try lia.
    + intros n. rewrite !durable_eq, J3. by case_if.
    + intros n. rewrite J3. case_if; auto.
  - destruct Hcan as [Hj ->].
    destruct (write_entry nid r (na st) C3 Hok Hp) as (W1 & W2 & W3 & W4 & W5).
    split_and!; try done; try lia; [|by right].
    intros n. rewrite !durable_eq, W5. destruct (Z.eqb_spec n nid) as [->|]; [by rewrite Hj|done].
Qed.

(** One entry of a set is flushed. *)
Lemma flush_entry_correct to_journal dst st nid e :
  flush_wf st -> nat_root (nc st) !! nid = Some e -> flushable e -> can_flush to_journal dst st nid ->
  let set := NAT_BLOCK_OFFSET nid in
  let st' := flush_entry_nat to_journal dst set st nid in
  flush_wf st' /\ (forall n, nat_view st' n = nat_view st n) /\
  (exists e', nat_root (nc st') = <[nid := e']> (nat_root (nc st)) /\ cleaned_entry e e') /\
  (forall n, current_nat_addr (na st') n = current_nat_addr (na st) n) /\
  (forall n, j_find raw_nat0 NAT_JOURNAL_ENTRIES (nj st') n <> None ->
     n = nid \/ j_find raw_nat0 NAT_JOURNAL_ENTRIES (nj st) n <> None) /\
  (to_journal = false -> nj st' = nj st) /\
  n_ents (nj st) <= n_ents (nj st') <= n_ents (nj st) + 1 /\
  dirty_nids (nat_root (nc st)) = {[nid]} ∪ dirty_nids (nat_root (nc st')) /\
  nid ∉ dirty_nids (nat_root (nc st')) /\
  (forall k, k <> set -> nat_set_root (nc st') !! k = nat_set_root (nc st) !! k) /\
  set_list (nc st') set = unlink nid (set_list (nc st) set).
Proof.
  intros Hwf He [Hd Hb] Hcan. cbv zeta. set (set := NAT_BLOCK_OFFSET nid).
  pose proof (xw_cached st Hwf nid e He) as Hok.
  destruct (flush_write to_journal dst st nid (raw_nat_from_node_info e) Hwf Hok Hcan)
    as (F1 & F2 & F3 & F4 & F5 & F6 & F7 & F8 & F9 & F10).
  unfold flush_entry_nat, __lookup_nat_cache. rewrite He. fold set in F1, F2, F3, F4, F5, F6, F7, F8, F9, F10 |- *. cbv zeta.
  match goal with |- context [set_nc (__clear_nat_cache_dirty set _ (nc ?s)) ?s] =>
    generalize dependent s end.
  intros st1 F1 F2 F3 F4 F5 F6 F7 F8 F9 F10. rewrite F1.
  destruct Hwf as [[C1 C2 C3 C4] Hp Hc Hj Hk].
  destruct (clear_cache_dirty_wf (nc st) e nid C1 He Hd)
    as (D1 & (e' & D2 & D3) & D4 & (s & s' & D5 & D5' & D6) & D7 & D8).
  fold set in D1, D2, D4, D5, D5', D6, D7, D8. revert D1 D2 D4 D5' D7 D8.
  generalize (__clear_nat_cache_dirty set (nat_reset_flag e) (nc st)).
  intros c' D1 D2 D4 D5' D7 D8. destruct D3 as (E1 & E2 & E3 & E4).
  split; [split; simpl|split; [|split; [|split_and!]]]; try done; try (simpl; lia).
  - split; simpl; [done..|]. rewrite D2. intros n e1. rewrite F6. destruct (Z.eqb_spec n nid) as [->|Hn].
    + rewrite lookup_insert_eq. intros [= <-] _. done.
    + rewrite lookup_insert_ne by done. apply C4.
  - rewrite D2. intros n e1. rewrite F5. destruct (decide (n = nid)) as [->|Hn]; [done|].
    rewrite lookup_insert_ne by done. apply Hc.
  - intros n Hn. rewrite F5. destruct (F8 n Hn) as [->|Hn']; [done|by apply Hj].
  - intros k sk Hsk. rewrite F5. destruct (decide (k = set)) as [->|Hks]; [by apply (Hk set s)|].
    rewrite D4 in Hsk by done. by apply (Hk k sk).
  - intros n. unfold nat_view. simpl. rewrite D2, F6. destruct (Z.eqb_spec n nid) as [->|Hn].
    + by rewrite lookup_insert_eq, He, E2.
    + by rewrite lookup_insert_ne by done.
  - exists e'. simpl. split; [done|]. by repeat split.
  - simpl. unfold set_list. by rewrite D5, D5', D6.
Qed.

(** The flush of the list of a set. *)
Lemma flush_list_correct (to_journal : bool) (dst set : Z) (l : list Z) st :
  flush_wf st -> set_list (nc st) set = l ->
  (forall n, n ∈ l -> NAT_BLOCK_OFFSET n = set /\ exists e, nat_root (nc st) !! n = Some e /\ flushable e) ->
  NoDup l ->
  (if to_journal then n_ents (nj st) + zlen l <= NAT_JOURNAL_ENTRIES
   else (forall n, j_find raw_nat0 NAT_JOURNAL_ENTRIES (nj st) n <> None -> NAT_BLOCK_OFFSET n <> set) /\
        forall n, n ∈ l -> dst = current_nat_addr (na st) n) ->
  let st' := foldl (flush_entry_nat to_journal dst set) st l in
  flush_wf st' /\ (forall n, nat_view st' n = nat_view st n) /\ set_list (nc st') set = [] /\
  (forall n, is_Some (nat_root (nc st') !! n) <-> is_Some (nat_root (nc st) !! n)) /\
  (forall k, k <> set -> nat_set_root (nc st') !! k = nat_set_root (nc st) !! k) /\
  (forall n, j_find raw_nat0 NAT_JOURNAL_ENTRIES (nj st') n <> None ->
     NAT_BLOCK_OFFSET n = set \/ j_find raw_nat0 NAT_JOURNAL_ENTRIES (nj st) n <> None) /\
  n_ents (nj st') + Z.of_nat (size (dirty_nids (nat_root (nc st')))) <=
    n_ents (nj st) + Z.of_nat (size (dirty_nids (nat_root (nc st)))) /\
  dirty_nids (nat_root (nc st')) ⊆ dirty_nids (nat_root (nc st)).
Proof.
  cbv zeta. revert st. induction l as [|nid l IH]; intros st Hwf Hl Hent Hnd Hroom.
  - simpl. split_and!; try done; try lia. intros; by right.
  - cbn [foldl]. apply NoDup_cons in Hnd as [Hnin Hnd].
    destruct (Hent nid ltac:(left)) as (Hset & e & He & Hf). subst set.
    assert (Hcan : can_flush to_journal dst st nid).
    { destruct to_journal; simpl.
      - right. unfold zlen in Hroom. simpl in Hroom. lia.
      - destruct Hroom as [R1 R2]. split; [|apply R2; left].
        destruct (j_find raw_nat0 NAT_JOURNAL_ENTRIES (nj st) nid) eqn:Hj; [|done].
        exfalso. apply (R1 nid); [by rewrite Hj|done]. }
    destruct (flush_entry_correct to_journal dst st nid e Hwf He Hf Hcan)
      as (S1 & S2 & (e' & S3 & S3') & S4 & S5 & S6 & S7 & S8 & S9 & S10 & S11).
    revert S1 S2 S3 S4 S5 S6 S7 S8 S9 S10 S11.
    generalize (flush_entry_nat to_journal dst (NAT_BLOCK_OFFSET nid) st nid).
    intros st1 S1 S2 S3 S4 S5 S6 S7 S8 S9 S10 S11.
    destruct (IH st1 S1) as (I1 & I2 & I3 & I4 & I5 & I6 & I7 & I8).
    + rewrite S11, Hl. unfold unlink. rewrite filter_cons, decide_False by tauto. by apply unlink_notin.
    + intros n Hn. destruct (Hent n ltac:(by right)) as (H1 & e1 & H2 & H3). split; [done|].
      exists e1. split; [|done]. rewrite S3. apply lookup_insert_Some. right. split; [by intros ->|done].
    + done.
    + destruct to_journal.
      * unfold zlen in *. simpl in Hroom. lia.
      * destruct Hroom as [R1 R2]. rewrite (S6 eq_refl). split; [done|].
        intros n Hn. rewrite S4. apply R2. by right.
    + split; [done|]. split; [intros n; by rewrite I2|]. split; [done|]. split; [|split; [|split; [|split]]].
      * intros n. rewrite I4, S3. destruct (decide (n = nid)) as [->|Hn].
        -- rewrite lookup_insert_eq, He. split; by eexists.
        -- by rewrite lookup_insert_ne by done.
      * intros k Hk. rewrite I5 by done. by apply S10.
      * intros n Hn. destruct (I6 n Hn) as [|Hn']; [by left|]. destruct (S5 n Hn') as [->|]; [by left|by right].
      * rewrite S8, size_insert_new by done. lia.
      * rewrite S8. etrans; [exact I8|apply union_subseteq_r].
Qed.

(** The free id part of the loop does not touch the NAT. *)
Lemma foldl_flush_nat to_journal dst set l st fn :
  (foldl (flush_entry to_journal dst set) (st, fn) l).1 = foldl (flush_entry_nat to_journal dst set) st l.
Proof.
  revert st fn. induction l as [|nid l IH]; intros st fn; [done|]. cbn [foldl].
  unfold flush_entry at 2. destruct (__lookup_nat_cache (nc st) nid); apply IH.
Qed.

(** The members of a list of a set. *)
Lemma elem_of_set_list c k n :
  cache_wf c -> n ∈ set_list c k <->
  k = NAT_BLOCK_OFFSET n /\ exists e, nat_root c !! n = Some e /\ flushable e.
Proof.
  intros Hwf. unfold set_list. destruct (nat_set_root c !! k) as [s|] eqn:Hs.
  - apply (proj2 (cw_linked _ _ Hwf n ltac:(tauto)) k s Hs).
  - split; [by intros ?%elem_of_nil|]. intros (-> & e & He & Hd & _).
    destruct (cw_set _ _ Hwf n e He Hd). congruence.
Qed.

Lemma set_list_nodup c k : cache_wf c -> NoDup (set_list c k).
Proof.
  intros Hwf. unfold set_list. destruct (nat_set_root c !! k) as [s|] eqn:Hs; [|constructor].
  by apply (proj2 (cw_nodup _ _ Hwf) k).
Qed.

(** A list is no longer than the count of its set, which counts dirty entries. *)
Lemma set_list_cnt c k :
  cache_wf c -> zlen (set_list c k) <= set_cnt c k <= Z.of_nat (size (dirty_nids (nat_root c))).
Proof.
  intros Hwf. unfold set_cnt.
  assert (Hsub : list_to_set (set_list c k) ⊆ dirty_in (nat_root c) k).
  { intros n Hn%elem_of_list_to_set. apply elem_of_set_list in Hn as (-> & e & He & Hd & _); [|done].
    apply elem_of_dirty_in. split; [done|]. by exists e. }
  apply subseteq_size in Hsub. rewrite size_list_to_set in Hsub by (by apply set_list_nodup).
  unfold zlen. destruct (nat_set_root c !! k) as [s|] eqn:Hs.
  - rewrite (cw_cnt _ _ Hwf k s Hs). split; [lia|]. apply inj_le, subseteq_size.
    unfold dirty_in. intros n Hn. by apply elem_of_filter in Hn as [_ Hn].
  - unfold set_list in *. rewrite Hs in *. simpl in *. lia.
Qed.

Lemma drop_set_wf c set : cache_wf c -> set_cnt c set = 0 -> cache_wf (set_nat_set_root (delete set (nat_set_root c)) c).
Proof.
  intros C1 E.
  assert (Hempty : forall n e, nat_root c !! n = Some e -> is_dirty e = true -> NAT_BLOCK_OFFSET n <> set).
  { intros n e He Hd <-. destruct (cw_set _ _ C1 n e He Hd) as [s Hs].
    unfold set_cnt in E. rewrite Hs, (cw_cnt _ _ C1 _ s Hs) in E.
    assert (Hsz : size (dirty_in (nat_root c) (NAT_BLOCK_OFFSET n)) = O) by lia.
    apply size_empty_inv in Hsz. apply (not_elem_of_empty (C := gset Z) n), Hsz, elem_of_dirty_in.
    split; [done|]. by exists e. }
  destruct C1 as [W1 W2 W3 [W4 W4'] W5 W6 W7 W8].
  assert (Hdel : forall k s, delete set (nat_set_root c) !! k = Some s -> nat_set_root c !! k = Some s)
    by (intros k s Hk; by apply lookup_delete_Some in Hk as [_ Hk]).
  split; simpl; try done.
  - intros n _. destruct (W2 n ltac:(tauto)) as [L1 L2]. split; [done|]. intros k s Hk.
    apply L2. by apply Hdel.
  - intros n e He Hd. rewrite lookup_delete_ne; [by eapply W3|]. apply not_eq_sym. by eapply Hempty.
  - split; [done|]. intros k s Hk. by eapply W4', Hdel.
  - intros k s n Hk. by apply W5, Hdel.
  - intros k s Hk. by apply W6, Hdel.
Qed.

Lemma drop_empty_set_wf st set :
  flush_wf st -> flush_wf (drop_empty_set set st) /\ nat_root (nc (drop_empty_set set st)) = nat_root (nc st) /\
  nj (drop_empty_set set st) = nj st /\ na (drop_empty_set set st) = na st /\
  (forall k, k <> set -> nat_set_root (nc (drop_empty_set set st)) !! k = nat_set_root (nc st) !! k).
Proof.
  intros Hwf. unfold drop_empty_set. case_if; [|done].
  split; [|split; [done|split; [done|split; [done|]]]].
  - destruct Hwf as [[C1 C2 C3 C4] Hp Hc Hj Hk]. split; simpl; try done.
    + split; simpl; [by apply drop_set_wf|done..].
    + intros k s Hks. apply lookup_delete_Some in Hks as [_ Hks]. by apply (Hk k s).
  - intros k Hk. simpl. by rewrite lookup_delete_ne by congruence.
Qed.

(** ** Flushing one set *)

(** Either all dirty entries fit in the journal and go there, or the journal
    shadows no block of the sets still to be flushed. *)
Definition regime (nat_bits_flag umount : bool) (st : nat_state) (todo : list Z) : Prop :=
  (enabled_nat_bits nat_bits_flag (Some umount) = false /\
   n_ents (nj st) + Z.of_nat (size (dirty_nids (nat_root (nc st)))) <= NAT_JOURNAL_ENTRIES) \/
  (forall n, j_find raw_nat0 NAT_JOURNAL_ENTRIES (nj st) n <> None -> NAT_BLOCK_OFFSET n ∉ todo).

(** The dirty entries with an address belong to sets still to be flushed. *)
Definition pending (st : nat_state) (todo : list Z) : Prop :=
  forall n e, nat_root (nc st) !! n = Some e -> flushable e -> NAT_BLOCK_OFFSET n ∈ todo.

(** The decision where to write, and the switch to the other copy. *)
Lemma flush_target nat_bits_flag umount st set todo :
  flush_wf st -> regime nat_bits_flag umount st (set :: todo) ->
  is_Some (nat_set_root (nc st) !! set) ->
  let to_journal := negb (enabled_nat_bits nat_bits_flag (Some umount) ||
                          negb (__has_cursum_space NAT_JOURNAL_ENTRIES (nj st) (set_cnt (nc st) set))) in
  let '(dst, st1) := if to_journal then (0, st)
                     else let '(dst, a) := get_next_nat_page (set * NAT_ENTRY_PER_BLOCK) (na st) in
                          (dst, set_na a st) in
  flush_wf st1 /\ nc st1 = nc st /\ nj st1 = nj st /\ (forall n, nat_view st1 n = nat_view st n) /\
  (if to_journal then n_ents (nj st1) + zlen (set_list (nc st1) set) <= NAT_JOURNAL_ENTRIES
   else (forall n, j_find raw_nat0 NAT_JOURNAL_ENTRIES (nj st1) n <> None -> NAT_BLOCK_OFFSET n <> set) /\
        forall n, n ∈ set_list (nc st1) set -> dst = current_nat_addr (na st1) n).
Proof.
  intros Hwf Hreg [s0 Hs0]. cbv zeta.
  pose proof (set_list_cnt (nc st) set (nw_cache st (xw_nat st Hwf))) as [Hc1 Hc2].
  match goal with |- context [if ?b then (0, st) else _] => destruct b eqn:Htj end.
  - split; [done|]. split; [done|]. split; [done|]. split; [done|]. zbool. unfold __has_cursum_space, MAX_JENTRIES in *. zbool. lia.
  - pose proof (xw_sets st Hwf set s0 Hs0) as Hok.
    assert (Hstart : NAT_BLOCK_OFFSET (set * NAT_ENTRY_PER_BLOCK) = set).
    { unfold NAT_BLOCK_OFFSET. by rewrite Z.div_mul. }
    pose proof (next_page_same _ (na st) (nw_area st (xw_nat st Hwf)) Hok) as Hnext.
    destruct (get_next_nat_page (set * NAT_ENTRY_PER_BLOCK) (na st)) as [dst a'].
    destruct Hnext as ((P1 & P2 & P3) & P4).
    assert (Hpe : forall n, durable (nj st) a' n = durable (nj st) (na st) n).
    { intros n. unfold durable. by rewrite P3. }
    destruct Hwf as [[C1 C2 C3 C4] Hp Hc Hj Hk].
    split; [split; simpl; [split; simpl; try done|..]|split; [done|split; [done|split; [|split]]]].
    + intros n e1 H1 H2. rewrite Hpe. by apply C4.
    + intros n Hn. rewrite P3. by apply Hp, P2.
    + intros n e1 Hn. by apply P2, (Hc n e1).
    + intros n Hn. by apply P2, Hj.
    + intros k sk Hsk. by apply P2, (Hk k sk).
    + intros n. unfold nat_view. simpl. destruct (nat_root (nc st) !! n); [done|apply Hpe].
    + intros n Hn. simpl in *. destruct Hreg as [[R1 R2]|R].
      * exfalso. unfold __has_cursum_space, MAX_JENTRIES in Htj. simpl in R1. rewrite R1 in Htj.
        cbn [orb] in Htj. zbool. lia.
      * intros Heq. apply (R n Hn). rewrite Heq. left.
    + intros n Hn. simpl in *. apply elem_of_set_list in Hn as [Hn _]; [|done]. subst dst.
      rewrite !current_nat_addr_copy. unfold nat_bit. by rewrite Hstart, Hn.
Qed.

Lemma flush_set_correct nat_bits_flag umount s set todo :
  let st := fs_nat s in
  flush_wf st -> regime nat_bits_flag umount st (set :: todo) -> pending st (set :: todo) ->
  set ∉ todo -> is_Some (nat_set_root (nc st) !! set) ->
  let st' := fs_nat (__flush_nat_entry_set nat_bits_flag umount s set) in
  flush_wf st' /\ (forall n, nat_view st' n = nat_view st n) /\
  regime nat_bits_flag umount st' todo /\ pending st' todo /\
  (forall k, k ∈ todo -> nat_set_root (nc st') !! k = nat_set_root (nc st) !! k).
Proof.
  cbv zeta. intros Hwf Hreg Hpend Hnin Hsome.
  pose proof (flush_target nat_bits_flag umount (fs_nat s) set todo Hwf Hreg Hsome) as Ht. cbv zeta in Ht.
  unfold __flush_nat_entry_set. cbv zeta.
  set (tj := negb (_ || _)) in *.
  set (tgt := if tj then (0, fs_nat s) else _) in *.
  assert (Htgt : exists dst st1, tgt = (dst, st1)) by (destruct tgt; by do 2 eexists).
  destruct Htgt as (dst & st1 & Hd). clearbody tgt. subst tgt. destruct Ht as (T1 & T2 & T3 & T4 & T5).
  pose proof (foldl_flush_nat tj dst set (set_list (nc (fs_nat s)) set) st1 (fs_free s)) as Hfold.
  rewrite <- T2 in Hfold |- *.
  destruct (foldl (flush_entry tj dst set) (st1, fs_free s) (set_list (nc st1) set)) as [st2 fn2].
  simpl in Hfold. pose proof (nw_cache st1 (xw_nat st1 T1)) as Hc1.
  destruct (flush_list_correct tj dst set (set_list (nc st1) set) st1 T1 eq_refl)
    as (I1 & I2 & I3 & I4 & I5 & I6 & I7 & I8); [|by apply set_list_nodup|exact T5|].
  { intros n Hn. apply elem_of_set_list in Hn as [-> He]; [|done]. by split. }
  rewrite <- Hfold in *. clear Hfold.
  destruct (drop_empty_set_wf st2 set I1) as (D1 & D2 & D3 & D4 & D5).
  assert (Hst : forall e f, fs_nat (mk_flush (drop_empty_set set st2) fn2 e f) = drop_empty_set set st2) by done.
  destruct (if tj then _ else _) as [empty full]. rewrite Hst. clear Hst.
  assert (Hview : forall n, nat_view (drop_empty_set set st2) n = nat_view st2 n)
    by (intros n; unfold nat_view; by rewrite D2, D3, D4).
  split; [done|]. split; [intros n; by rewrite Hview, I2, T4|]. split; [|split].
  - destruct Hreg as [[R1 R2]|R]; [left|right].
    + split; [done|]. rewrite D2, D3. rewrite T2, T3 in I7. lia.
    + intros n Hn Hin. rewrite D3 in Hn. destruct (I6 n Hn) as [Heq|Hj].
      * apply Hnin. by rewrite <- Heq.
      * rewrite T3 in Hj. apply (R n Hj). by right.
  - intros n e He Hf. rewrite D2 in He.
    assert (Hne : NAT_BLOCK_OFFSET n <> set).
    { intros Heq. assert (Hin : n ∈ set_list (nc st2) set)
        by (apply elem_of_set_list; [apply I1|split; [done|by exists e]]).
      rewrite I3 in Hin. by apply elem_of_nil in Hin. }
    assert (Hdirty : n ∈ dirty_nids (nat_root (nc st1)))
      by (apply I8, elem_of_dirty_nids; destruct Hf; by exists e).
    apply elem_of_dirty_nids in Hdirty as (e0 & He0 & Hd0).
    assert (Hraw : raw_nat_from_node_info e = raw_nat_from_node_info e0).
    { specialize (I2 n). unfold nat_view in I2. by rewrite He, He0 in I2. }
    assert (Hin : NAT_BLOCK_OFFSET n ∈ set :: todo).
    { apply (Hpend n e0); [by rewrite <- T2|]. split; [done|]. injection Hraw as _ _ <-. apply Hf. }
    apply elem_of_cons in Hin as [|]; done.
  - intros k Hk. assert (k <> set) by (by intros ->). by rewrite D5, I5, T2.
Qed.

(** ** Flushing all sets *)

Lemma flush_sets_correct nat_bits_flag umount todo s :
  let st := fs_nat s in
  flush_wf st -> regime nat_bits_flag umount st todo -> pending st todo -> NoDup todo ->
  (forall k, k ∈ todo -> is_Some (nat_set_root (nc st) !! k)) ->
  let st' := fs_nat (foldl (__flush_nat_entry_set nat_bits_flag umount) s todo) in
  flush_wf st' /\ (forall n, nat_view st' n = nat_view st n) /\ pending st' [].
Proof.
  cbv zeta. revert s. induction todo as [|set todo IH]; intros s Hwf Hreg Hpend Hnd Hsome; [done|].
  cbn [foldl]. apply NoDup_cons in Hnd as [Hnin Hnd].
  destruct (flush_set_correct nat_bits_flag umount s set todo Hwf Hreg Hpend Hnin) as (F1 & F2 & F3 & F4 & F5);
    [apply Hsome; left|].
  destruct (IH (__flush_nat_entry_set nat_bits_flag umount s set)) as (I1 & I2 & I3); try done.
  - intros k Hk. rewrite F5 by done. apply Hsome. by right.
  - split; [done|]. split; [|done]. intros n. by rewrite I2.
Qed.

(** ** The list of sets *)

Lemma insert_before_perm c k l : insert_before c k l ≡ₚ k :: l.
Proof.
  induction l as [|x l IH]; [done|]. simpl. case_if; [done|]. rewrite IH. apply perm_swap.
Qed.

Lemma adjust_perm c max l k : __adjust_nat_entry_set c max l k ≡ₚ k :: l.
Proof.
  unfold __adjust_nat_entry_set. case_if; [by rewrite Permutation_app_comm|apply insert_before_perm].
Qed.

Lemma adjust_all_perm c max vec l : foldl (__adjust_nat_entry_set c max) l vec ≡ₚ vec ++ l.
Proof.
  revert l. induction vec as [|k vec IH]; intros l; [done|]. cbn [foldl].
  rewrite IH, adjust_perm. by rewrite <- Permutation_middle.
Qed.

Lemma filter_all (P : Z -> Prop) `{forall x, Decision (P x)} (l : list Z) :
  (forall x, x ∈ l -> P x) -> filter P l = l.
Proof.
  induction l as [|x l IH]; intros Hl; [done|]. rewrite filter_cons, decide_True by (apply Hl; left).
  f_equal. apply IH. intros y Hy. apply Hl. by right.
Qed.

Lemma filter_none (P : Z -> Prop) `{forall x, Decision (P x)} (l : list Z) :
  (forall x, x ∈ l -> ~ P x) -> filter P l = [].
Proof.
  induction l as [|x l IH]; intros Hl; [done|]. rewrite filter_cons, decide_False by (apply Hl; left).
  apply IH. intros y Hy. apply Hl. by right.
Qed.

Lemma filter_sorted (P : Z -> Prop) `{forall x, Decision (P x)} l :
  StronglySorted Z.le l -> StronglySorted Z.le (filter P l).
Proof.
  induction 1 as [|x l Hl IH Hx]; [constructor|]. rewrite filter_cons. case_decide; [|done].
  constructor; [done|]. apply List.Forall_forall. intros y Hy%list_elem_of_In.
  apply list_elem_of_filter in Hy as [_ Hy]. rewrite List.Forall_forall in Hx.
  by apply Hx, list_elem_of_In.
Qed.

(** A gang lookup takes the next keys of a sorted list. *)
Lemma gang_step (L : list Z) (s : Z) (vec : list Z) (t : Z) (rest : list Z) :
  StronglySorted Z.le L -> NoDup L -> filter (fun k => s <= k) L = vec ++ t :: rest ->
  filter (fun k => t + 1 <= k) L = rest.
Proof.
  intros Hs Hnd Hf. pose proof (filter_sorted (fun k => s <= k) L Hs) as Hs'.
  pose proof (NoDup_filter (fun k => s <= k) L Hnd) as Hnd'. rewrite Hf in Hs', Hnd'.
  assert (Ht : s <= t).
  { assert (Hin : t ∈ filter (fun k => s <= k) L) by (rewrite Hf; apply elem_of_app; right; left).
    by apply list_elem_of_filter in Hin as [? _]. }
  transitivity (filter (fun k => t + 1 <= k) (filter (fun k => s <= k) L)).
  - clear -Ht. induction L as [|x L IH]; [done|]. rewrite !filter_cons.
    destruct (decide (s <= x)); [rewrite filter_cons|]; case_decide; try lia; congruence.
  - rewrite Hf, filter_app, filter_cons, decide_False by lia.
    apply NoDup_app in Hnd' as (_ & _ & [Htr _]%NoDup_cons).
    apply StronglySorted_app in Hs' as (Hv & _ & [Hr _]%StronglySorted_cons).
    rewrite filter_none, filter_all; [done|..].
    + intros x Hx. assert (t <= x) by (rewrite List.Forall_forall in Hr; by apply Hr, list_elem_of_In).
      assert (x <> t) by (by intros ->). lia.
    + intros x Hx. specialize (Hv x t Hx ltac:(left)). lia.
Qed.

Lemma collect_sets_perm fuel c max idx sets :
  let L := merge_sort Z.le (elements (dom (nat_set_root c))) in
  (length (filter (fun k => idx <= k)%Z L) < fuel)%nat ->
  collect_sets fuel c max idx sets ≡ₚ filter (fun k => idx <= k) L ++ sets.
Proof.
  cbv zeta. set (L := merge_sort Z.le (elements (dom (nat_set_root c)))).
  assert (Hs : StronglySorted Z.le L) by (apply StronglySorted_merge_sort; apply _).
  assert (Hnd : NoDup L) by (unfold L; rewrite merge_sort_Permutation; apply NoDup_elements).
  revert idx sets. induction fuel as [|fuel IH]; intros idx sets Hlen; [lia|].
  cbn [collect_sets]. unfold __gang_lookup_nat_set. fold L.
  destruct (filter (fun k => idx <= k) L) as [|x M] eqn:HM; [done|].
  destruct (take SETVEC_SIZE (x :: M)) as [|y vec] eqn:Hv; [done|].
  destruct (exists_last (l := y :: vec) ltac:(done)) as (vec' & t & Hvt).
  assert (Hdec : x :: M = vec' ++ t :: drop SETVEC_SIZE (x :: M)).
  { rewrite <- (take_drop SETVEC_SIZE (x :: M)) at 1. by rewrite Hv, Hvt, <- app_assoc. }
  assert (Hlast : List.last (y :: vec) 0 = t) by (rewrite Hvt; apply last_last).
  rewrite Hlast. assert (Hnext := gang_step L idx vec' t _ Hs Hnd (eq_trans HM Hdec)).
  rewrite IH, Hnext.
  - rewrite adjust_all_perm, Hvt. revert Hdec. generalize (drop SETVEC_SIZE (x :: M)).
    intros R ->. rewrite app_assoc. apply Permutation_app_tail.
    rewrite Permutation_app_comm, <- app_assoc. done.
  - rewrite Hnext. rewrite Hdec in Hlen. rewrite length_app in Hlen. simpl in Hlen. simpl. lia.
Qed.

(** ** Emptying the journal *)

Lemma remove_loop_correct j a n i c fn :
  let st := mk_nat c j a in
  nat_wf st -> 0 <= i -> i + Z.of_nat n = n_ents j ->
  let '(c', fn') := remove_nats_loop j i n c fn in
  let st' := mk_nat c' j a in
  nat_wf st' /\ (forall m, nat_view st' m = nat_view st m) /\
  (forall k, i <= k < n_ents j -> id_in_journal raw_nat0 j k ∈ dirty_nids (nat_root c')) /\
  dirty_nids (nat_root c) ⊆ dirty_nids (nat_root c') /\
  (forall m, is_Some (nat_root c' !! m) -> is_Some (nat_root c !! m) \/
     j_find raw_nat0 NAT_JOURNAL_ENTRIES j m <> None) /\
  (forall k s, nat_set_root c' !! k = Some s -> is_Some (nat_set_root c !! k) \/
     exists m, j_find raw_nat0 NAT_JOURNAL_ENTRIES j m <> None /\ k = NAT_BLOCK_OFFSET m).
Proof.
  cbv zeta. revert i c fn. induction n as [|n IH]; intros i c fn Hwf Hi Hn; cbn [remove_nats_loop].
  - split; [done|]. split; [done|]. split; [intros; lia|]. split; [done|].
    split; [by left|]. intros k s Hk. left. by exists s.
  - set (nid := id_in_journal raw_nat0 j i).
    assert (Hj : j_find raw_nat0 NAT_JOURNAL_ENTRIES j nid = Some (ent_in_journal raw_nat0 j i))
      by (apply j_find_at; [apply Hwf|lia]).
    assert (Hd : durable j a nid = ent_in_journal raw_nat0 j i) by (unfold durable; by rewrite Hj).
    set (p := match __lookup_nat_cache c nid with Some _ => _ | None => _ end).
    assert (Hp : exists ne c1, p = (ne, c1) /\ nat_wf (mk_nat c1 j a) /\ nat_root c1 !! nid = Some ne /\
      (forall m, nat_view (mk_nat c1 j a) m = nat_view (mk_nat c j a) m) /\
      nat_set_root c1 = nat_set_root c /\ nat_root c ⊆ nat_root c1 /\
      (forall m, is_Some (nat_root c1 !! m) -> is_Some (nat_root c !! m) \/ m = nid)).
    { unfold p, __lookup_nat_cache. destruct (nat_root c !! nid) as [ne|] eqn:He.
      - exists ne, c. by repeat (split; [done|]); left.
      - pose proof (init_nat_wf (mk_nat c j a) nid Hwf He) as Hin. cbv zeta in Hin. cbn [nc nj na] in Hin. rewrite Hd in Hin.
        destruct (__init_nat_entry (__alloc_nat_entry nid) _ c) as [ne c1].
        destruct Hin as (I1 & I2 & I3 & I4 & I5). exists ne, c1. split; [done|]. split; [exact I4|].
        rewrite I2, lookup_insert_eq. split; [done|]. split; [exact I5|]. split; [done|].
        split; [by apply insert_subseteq|]. intros m. destruct (decide (m = nid)) as [->|Hm]; [by right|].
        rewrite lookup_insert_ne by done. by left. }
    clearbody p. destruct Hp as (ne & c1 & -> & W1 & W2 & W3 & W4 & W5 & W6).
    pose proof (cw_key _ _ (nw_cache _ W1) nid ne W2) as Hkey.
    assert (Hbut : cache_wf_but (fun m => m = ni_nid ne) c1)
      by (apply (cache_wf_weaken (fun _ => False)); [done|apply W1]).
    destruct (set_cache_dirty_wf c1 ne Hbut) as (D1 & _ & e' & D2 & D3 & D4 & D5 & _); [by rewrite Hkey|].
    pose proof (set_cache_dirty_keys c1 ne) as D6. rewrite Hkey in D2, D3, D6.
    revert D1 D2 D6. generalize (__set_nat_cache_dirty ne c1). intros c2 D1 D2 D6.
    assert (Hwf2 : nat_wf (mk_nat c2 j a)).
    { destruct W1 as [C1 C2 C3 C4]. split; simpl; try done. rewrite D2. intros m e.
      destruct (decide (m = nid)) as [->|Hm].
      - rewrite lookup_insert_eq. intros [= <-]. congruence.
      - rewrite lookup_insert_ne by done. apply C4. }
    match goal with |- context [remove_nats_loop j (i + 1) n c2 ?f] => set (fn1 := f) end.
    specialize (IH (i + 1) c2 fn1 Hwf2 ltac:(lia) ltac:(lia)).
    destruct (remove_nats_loop j (i + 1) n c2 fn1) as [c' fn'].
    destruct IH as (I1 & I2 & I3 & I4 & I5 & I6).
    assert (Hin : nid ∈ dirty_nids (nat_root c2)).
    { apply elem_of_dirty_nids. exists e'. by rewrite D2, lookup_insert_eq. }
    split; [done|]. split; [|split; [|split; [|split]]].
    + intros m. rewrite I2, <- W3. unfold nat_view. simpl. rewrite D2.
      destruct (decide (m = nid)) as [->|Hm]; [by rewrite lookup_insert_eq, W2|by rewrite lookup_insert_ne].
    + intros k Hk. destruct (decide (k = i)) as [->|]; [by apply I4|]. apply I3. lia.
    + etrans; [|exact I4]. intros m (e & He & Hde)%elem_of_dirty_nids. apply elem_of_dirty_nids.
      rewrite D2. destruct (decide (m = nid)) as [->|Hm]; [rewrite lookup_insert_eq; by exists e'|].
      rewrite lookup_insert_ne by done. exists e. split; [|done]. by eapply lookup_weaken.
    + intros m Hm. destruct (I5 m Hm) as [Hm2|]; [|by right]. rewrite D2 in Hm2.
      destruct (decide (m = nid)) as [->|Hne]; [right; by rewrite Hj|].
      rewrite lookup_insert_ne in Hm2 by done. destruct (W6 m Hm2); [by left|done].
    + intros k s Hs. destruct (I6 k s Hs) as [[s1 Hs1]|]; [|by right].
      destruct (D6 k s1 Hs1) as [->|Hs2]; [right; exists nid; by rewrite Hj|left; by rewrite <- W4].
Qed.

Lemma remove_nats_correct st fn :
  flush_wf st ->
  let st' := (remove_nats_in_journal (st, fn)).1 in
  flush_wf st' /\ (forall n, nat_view st' n = nat_view st n) /\
  forall n, j_find raw_nat0 NAT_JOURNAL_ENTRIES (nj st') n = None.
Proof.
  intros [Hwf Hp Hc Hj Hk]. cbv zeta. unfold remove_nats_in_journal.
  destruct st as [c j a]. cbn [nc nj na] in *.
  pose proof (jw_count _ _ _ (nw_journal _ Hwf)) as Hn. cbn [nj] in Hn.
  pose proof (remove_loop_correct j a (Z.to_nat (n_ents j)) 0 c fn Hwf ltac:(lia) ltac:(lia)) as Hr.
  cbv zeta in Hr. destruct (remove_nats_loop j 0 (Z.to_nat (n_ents j)) c fn) as [c' fn'].
  destruct Hr as (R1 & R2 & R3 & R4 & R5 & R6). cbn [fst].
  assert (Hu : (update_in_cursum j (- n_ents j)).2 = mk_journal 0 (slots j)).
  { unfold update_in_cursum. cbn [snd]. by rewrite Z.add_opp_diag_r. }
  rewrite Hu. set (j' := mk_journal 0 (slots j)).
  assert (Hnone : forall n, j_find raw_nat0 NAT_JOURNAL_ENTRIES j' n = None) by (intros n; by apply j_find_empty).
  assert (Hin : forall n, j_find raw_nat0 NAT_JOURNAL_ENTRIES j n <> None -> n ∈ dirty_nids (nat_root c')).
  { intros n Hjn. destruct (j_find raw_nat0 NAT_JOURNAL_ENTRIES j n) as [e|] eqn:E; [|done].
    apply j_find_Some in E as (i & Hi & <- & _). apply R3. lia. }
  assert (Hdur : forall n, n ∉ dirty_nids (nat_root c') -> durable j' a n = durable j a n).
  { intros n Hnd. unfold durable. rewrite Hnone.
    destruct (j_find raw_nat0 NAT_JOURNAL_ENTRIES j n) eqn:E; [|done]. exfalso. apply Hnd, Hin. by rewrite E. }
  split; [split; cbn [nc nj na]; try done|split; [|done]].
  - destruct R1 as [C1 C2 C3 C4]. split; cbn [nc nj na] in *; try done.
    + destruct C2 as [J1 J2 J3 J4]. split; simpl; try done; intros; lia.
    + intros n e He Hd. rewrite Hdur; [by apply C4|].
      intros (e1 & H1 & H2)%elem_of_dirty_nids. congruence.
  - intros n e He. destruct (R5 n ltac:(by eexists)) as [[e1 He1]|Hjn]; [by eapply Hc|by apply Hj].
  - intros k s Hs. destruct (R6 k s Hs) as [[s1 Hs1]|(m & Hm & ->)]; [by eapply Hk|].
    destruct (Hj m Hm) as [M1 M2]. split.
    + apply Z.mul_nonneg_nonneg; [apply Z.div_pos; [done|reflexivity]|done].
    + unfold NAT_BLOCK_OFFSET at 1. by rewrite Z.div_mul.
  - intros n. rewrite <- R2. unfold nat_view. cbn [nc nj na].
    destruct (nat_root c' !! n) as [e|] eqn:E; [done|]. apply Hdur.
    intros (e1 & H1 & _)%elem_of_dirty_nids. congruence.
Qed.

(** The sets [flush_nat_entries] goes through: all of them, once. *)
Lemma all_sets_collected st max :
  flush_wf st ->
  let sets := collect_sets (S (size (nat_set_root (nc st)))) (nc st) max 0 [] in
  NoDup sets /\ (forall k, k ∈ sets <-> is_Some (nat_set_root (nc st) !! k)).
Proof.
  intros Hwf. cbv zeta. set (keys := elements (dom (nat_set_root (nc st)))).
  assert (Hkeys : forall k, k ∈ keys <-> is_Some (nat_set_root (nc st) !! k)).
  { intros k. unfold keys. by rewrite elem_of_elements, elem_of_dom. }
  assert (Hall : filter (fun k => 0 <= k) (merge_sort Z.le keys) = merge_sort Z.le keys).
  { apply filter_all. intros k Hk. rewrite merge_sort_Permutation in Hk. apply Hkeys in Hk as [s Hs].
    destruct (xw_sets st Hwf k s Hs) as [H _]. rewrite nat_per_block in H. lia. }
  assert (Hperm : collect_sets (S (size (nat_set_root (nc st)))) (nc st) max 0 [] ≡ₚ keys).
  { rewrite collect_sets_perm; fold keys; rewrite Hall; [by rewrite app_nil_r, merge_sort_Permutation|].
    rewrite (Permutation_length (merge_sort_Permutation Z.le keys)). unfold keys.
    change (length (elements (dom (nat_set_root (nc st))))) with (size (dom (nat_set_root (nc st)))).
    rewrite size_dom. lia. }
  rewrite Hperm. split; [apply NoDup_elements|]. intros k. by rewrite Hperm, Hkeys.
Qed.

(** C6. At a checkpoint [flush_nat_entries] makes the NAT durable: afterwards a
    mount, which reads the journal and the current NAT blocks, finds for every
    node id exactly the entry the running file system had, whether the dirty
    entries went to the journal, to the other copies of their blocks, or both,
    and whether the journal had to be emptied first; no entry changes, and only
    entries still without an address (NEW_ADDR), which are not written, remain
    dirty. *)
Theorem flush_nat_entries_durable nat_bits_flag umount s :
  flush_wf (fs_nat s) ->
  let st := fs_nat s in let st' := fs_nat (flush_nat_entries nat_bits_flag umount s) in
  nat_wf st' /\ (forall n, nat_view st' n = nat_view st n) /\
  (forall n, ne_block_addr (nat_view st n) <> NEW_ADDR -> durable (nj st') (na st') n = nat_view st n) /\
  (forall n e, nat_root (nc st') !! n = Some e -> is_dirty e = true -> ni_blk_addr e = NEW_ADDR).
Proof.
  intros Hwf. cbv zeta.
  assert (Hend : forall st', nat_wf st' -> (forall n, nat_view st' n = nat_view (fs_nat s) n) -> pending st' [] ->
    nat_wf st' /\ (forall n, nat_view st' n = nat_view (fs_nat s) n) /\
    (forall n, ne_block_addr (nat_view (fs_nat s) n) <> NEW_ADDR ->
       durable (nj st') (na st') n = nat_view (fs_nat s) n) /\
    (forall n e, nat_root (nc st') !! n = Some e -> is_dirty e = true -> ni_blk_addr e = NEW_ADDR)).
  { intros st' H1 H2 H3.
    assert (Hnew : forall n e, nat_root (nc st') !! n = Some e -> is_dirty e = true -> ni_blk_addr e = NEW_ADDR).
    { intros n e He Hd. destruct (decide (ni_blk_addr e = NEW_ADDR)) as [|Hne]; [done|].
      exfalso. by apply (not_elem_of_nil (NAT_BLOCK_OFFSET n)), (H3 n e). }
    split; [done|]. split; [done|]. split; [|done]. intros n. rewrite <- H2. unfold nat_view.
    destruct (nat_root (nc st') !! n) as [e|] eqn:He; [|done]. intros Hb. symmetry.
    apply (nw_clean st' H1 n e He). destruct (is_dirty e) eqn:Hd; [|done].
    exfalso. by apply Hb, (Hnew n e). }
  unfold flush_nat_entries.
  destruct (c_true (dirty_nat_cnt (nc (fs_nat s)))) eqn:Hcnt; simpl negb; cbv iota.
  2: { apply c_true_false in Hcnt. apply Hend; [apply Hwf|done|]. intros n e He [Hd _]. exfalso.
    rewrite (cw_dirty_cnt _ _ (nw_cache _ (xw_nat _ Hwf))) in Hcnt.
    assert (Hsz : size (dirty_nids (nat_root (nc (fs_nat s)))) = O) by lia. apply size_empty_inv in Hsz.
    apply (not_elem_of_empty (C := gset Z) n), Hsz, elem_of_dirty_nids. by exists e. }
  set (p := if _ || _ then _ else _).
  assert (Hp : flush_wf p.1 /\ (forall n, nat_view p.1 n = nat_view (fs_nat s) n) /\
    forall todo, regime nat_bits_flag umount p.1 todo).
  { unfold p. destruct (enabled_nat_bits nat_bits_flag (Some umount)) eqn:He; cbn [orb].
    - destruct (remove_nats_correct (fs_nat s) (fs_free s) Hwf) as (R1 & R2 & R3).
      split; [done|]. split; [done|]. intros todo. right. intros n Hn. by rewrite R3 in Hn.
    - case_if.
      + destruct (remove_nats_correct (fs_nat s) (fs_free s) Hwf) as (R1 & R2 & R3).
        split; [done|]. split; [done|]. intros todo. right. intros n Hn. by rewrite R3 in Hn.
      + split; [done|]. split; [done|]. intros todo. left. split; [done|].
        unfold __has_cursum_space, MAX_JENTRIES in E. zbool. simpl.
        rewrite <- (cw_dirty_cnt _ _ (nw_cache _ (xw_nat _ Hwf))). lia. }
  clearbody p. destruct p as [st1 fn1]. cbn [fst] in Hp. destruct Hp as (P1 & P2 & P3).
  destruct (all_sets_collected st1 (MAX_NAT_JENTRIES (nj st1)) P1) as [Hnd Hsets].
  revert Hnd Hsets. generalize (collect_sets (S (size (nat_set_root (nc st1)))) (nc st1) (MAX_NAT_JENTRIES (nj st1)) 0 []).
  intros sets Hnd Hsets.
  destruct (flush_sets_correct nat_bits_flag umount sets
    (mk_flush st1 fn1 (empty_nat_bits s) (full_nat_bits s)) P1 (P3 sets)) as (F1 & F2 & F3).
  - intros n e He [Hd _]. apply Hsets. by apply (cw_set _ _ (nw_cache _ (xw_nat _ P1)) n e).
  - done.
  - intros k Hk. by apply Hsets.
  - apply Hend; [apply F1| |done]. intros n. by rewrite F2.
Qed.

(** ** Witness *)

Definition flush_area0 : nat_area :=
  mk_area 2560 [0x00] (list_to_map ((2560, nat_blk0 ++ replicate 450%nat raw_nat0) ::
    map (fun k => (2560 + Z.of_nat k, replicate 455%nat raw_nat0)) (seq 1 7))).
Definition flush_base0 : nat_state := mk_nat (mk_cache ∅ ∅ [] 0 0 false) (nj nat_state0) flush_area0.
Definition flush_nat0 : nat_state :=
  set_nc (set_node_addr (mk_ni 4 4 6000 7 0) 9000 false (nc flush_base0)) flush_base0.

Lemma flush_area0_offset nid : nid_ok flush_area0 nid -> exists k, (k < 8)%nat /\ NAT_BLOCK_OFFSET nid = Z.of_nat k.
Proof.
  intros [H1 H2]. change (zlen (nat_bitmap flush_area0)) with 1 in H2.
  exists (Z.to_nat (NAT_BLOCK_OFFSET nid)). assert (0 <= NAT_BLOCK_OFFSET nid) by (apply Z.div_pos; [done|reflexivity]).
  lia.
Qed.

Lemma flush_base0_wf : nat_wf flush_base0.
Proof.
  destruct nat_state0_wf as [H1 H2 H3 _]. split; [exact H1|exact H2|..].
  - split; [apply H3|done].
  - intros n e He. simpl in He. by apply lookup_empty_Some in He.
Qed.

Lemma flush_nat0_wf : flush_wf flush_nat0.
Proof.
  assert (Hwf : nat_wf flush_nat0).
  { apply (set_node_addr_wf flush_base0 (mk_ni 4 4 6000 7 0) 9000 false flush_base0_wf);
      [vm_compute; reflexivity..|right; vm_compute; reflexivity]. }
  assert (Hok : forall n, 0 <= n < 455 -> nid_ok (na flush_nat0) n).
  { intros n Hn. split; [lia|]. unfold NAT_BLOCK_OFFSET. rewrite nat_per_block.
    change (zlen (nat_bitmap (na flush_nat0))) with 1. zdiv. }
  split; [done|..].
  - intros nid Hn. destruct (flush_area0_offset nid Hn) as (k & Hk & He).
    unfold get_current_nat_page. rewrite current_nat_addr_copy. unfold nat_bit. rewrite He.
    do 8 (destruct k as [|k]; [vm_compute; reflexivity|]). lia.
  - assert (Hr : dom (nat_root (nc flush_nat0)) = {[4]}) by (vm_compute; reflexivity).
    intros nid e He. apply Hok. apply elem_of_dom_2 in He. rewrite Hr in He. apply elem_of_singleton in He. lia.
  - intros nid Hj. apply Hok. destruct (j_find raw_nat0 NAT_JOURNAL_ENTRIES (nj flush_nat0) nid) as [e|] eqn:E; [|done].
    apply j_find_Some in E as (i & Hi & <- & _). change (n_ents (nj flush_nat0)) with 1 in Hi.
    replace i with 0 by lia. vm_compute. split; congruence.
  - assert (Hr : dom (nat_set_root (nc flush_nat0)) = {[0]}) by (vm_compute; reflexivity).
    intros k s Hs. apply elem_of_dom_2 in Hs. rewrite Hr in Hs. apply elem_of_singleton in Hs as ->. by apply Hok.
Qed.

Definition flush_state0 : flush_state := mk_flush flush_nat0 free0 ∅ ∅.

Lemma flush_nat_entries_durable_witness :
  let st' := fs_nat (flush_nat_entries true true flush_state0) in
  durable (nj flush_nat0) (na flush_nat0) 4 = mk_raw_nat 7 4 6000 /\
  durable (nj st') (na st') 4 = mk_raw_nat 7 4 9000 /\
  durable (nj st') (na st') 9 = mk_raw_nat 2 3 7000 /\ n_ents (nj st') = 0.
Proof.
  intros st'. split; [vm_compute; reflexivity|].
  destruct (flush_nat_entries_durable true true flush_state0 flush_nat0_wf) as (_ & _ & H & _).
  fold st' in H. rewrite !H by (vm_compute; congruence).
  split; [vm_compute; reflexivity|]. split; vm_compute; reflexivity.
Defined.
