(* ===== verification/FreeSeg.v ===== *)
(** * The free segment map (segment.h, segment.c)

    Which segments and sections of the main area are in use, and the search
    for a new segment to write to. *)

From S2P Require Import Prelude Bits.
From Stdlib Require Import ZArith Lia.
From stdpp Require Import base numbers option gmap sorting list.
#[local] Open Scope Z_scope.
#[local] Open Scope c_scope.

(** ** Kernel bitmaps

    An [unsigned long *] bitmap is the set of its set bits. *)

Definition test_bit (nr : Z) (map : gset Z) : bool := bool_decide (nr ∈ map).

Definition find_next_bit (map : gset Z) (size offset : Z) : Z :=
  if size <=? offset then size
  else scan_from (fun i => test_bit i map) offset (Z.to_nat (size - offset)).

Definition find_next_zero_bit (map : gset Z) (size offset : Z) : Z :=
  if size <=? offset then size
  else scan_from (fun i => negb (test_bit i map)) offset (Z.to_nat (size - offset)).

(** ** Data *)

(** The geometry of the main area. *)
Record geom := mk_geom {
  segs_per_sec : Z;
  secs_per_zone : Z;
  total_sections : Z;  (* MAIN_SECS *)
  main_segments : Z    (* MAIN_SEGS *)
}.

Record free_segmap_info := mk_freemap {
  free_segments : Z;
  free_sections : Z;
  free_segmap : gset Z;  (* the segments in use *)
  free_secmap : gset Z   (* the sections in use *)
}.

(** The direction of an allocation. *)
Inductive alloc_dir := ALLOC_RIGHT | ALLOC_LEFT.

#[export] Instance alloc_dir_eq_dec : EqDecision alloc_dir.
Proof. solve_decision. Defined.

Section free_map.
Variable g : geom.

Definition MAIN_SECS : Z := total_sections g.
Definition MAIN_SEGS : Z := main_segments g.
Definition GET_SEC_FROM_SEG (segno : Z) : Z := segno / segs_per_sec g.
Definition GET_SEG_FROM_SEC (secno : Z) : Z := u32 (secno * segs_per_sec g).
Definition GET_ZONE_FROM_SEC (secno : Z) : Z := secno / secs_per_zone g.
Definition GET_ZONE_FROM_SEG (segno : Z) : Z := GET_ZONE_FROM_SEC (GET_SEC_FROM_SEG segno).

(** ** Marking segments *)

Definition find_next_inuse (max segno : Z) (fi : free_segmap_info) : Z :=
  find_next_bit (free_segmap fi) max segno.

(** No segment of the section of [segno] is in use. *)
Definition section_unused (segno : Z) (map : gset Z) : bool :=
  let start_segno := GET_SEG_FROM_SEC (GET_SEC_FROM_SEG segno) in
  let next := find_next_bit map (start_segno + segs_per_sec g) start_segno in
  start_segno + segs_per_sec g <=? next.

Definition __set_free (segno : Z) (fi : free_segmap_info) : free_segmap_info :=
  let secno := GET_SEC_FROM_SEG segno in
  let map := free_segmap fi ∖ {[segno]} in
  if section_unused segno map
  then mk_freemap (u32 (free_segments fi + 1)) (u32 (free_sections fi + 1)) map (free_secmap fi ∖ {[secno]})
  else mk_freemap (u32 (free_segments fi + 1)) (free_sections fi) map (free_secmap fi).

Definition __set_inuse (segno : Z) (fi : free_segmap_info) : free_segmap_info :=
  let secno := GET_SEC_FROM_SEG segno in
  mk_freemap (u32 (free_segments fi - 1))
    (if test_bit secno (free_secmap fi) then free_sections fi else u32 (free_sections fi - 1))
    ({[segno]} ∪ free_segmap fi) ({[secno]} ∪ free_secmap fi).

Definition __set_test_and_free (segno : Z) (fi : free_segmap_info) : free_segmap_info :=
  let secno := GET_SEC_FROM_SEG segno in
  if test_bit segno (free_segmap fi) then
    let map := free_segmap fi ∖ {[segno]} in
    if section_unused segno map then
      mk_freemap (u32 (free_segments fi + 1))
        (if test_bit secno (free_secmap fi) then u32 (free_sections fi + 1) else free_sections fi)
        map (free_secmap fi ∖ {[secno]})
    else mk_freemap (u32 (free_segments fi + 1)) (free_sections fi) map (free_secmap fi)
  else fi.

Definition __set_test_and_inuse (segno : Z) (fi : free_segmap_info) : free_segmap_info :=
  let secno := GET_SEC_FROM_SEG segno in
  if negb (test_bit segno (free_segmap fi)) then
    mk_freemap (u32 (free_segments fi - 1))
      (if test_bit secno (free_secmap fi) then free_sections fi else u32 (free_sections fi - 1))
      ({[segno]} ∪ free_segmap fi) ({[secno]} ∪ free_secmap fi)
  else fi.

(** [build_free_segmap]: every bit set, the counters zero. *)
Definition build_free_segmap : free_segmap_info :=
  mk_freemap 0 0 (list_to_set (seqZ 0 MAIN_SEGS)) (list_to_set (seqZ 0 MAIN_SECS)).

(** ** The search for a new segment *)

(** The [while] loop that goes down from [left_start]; the second component is
    the [f2fs_bug_on]. *)
Fixpoint walk_left (secmap : gset Z) (left_start : Z) (n : nat) : Z * bool :=
  if test_bit left_start secmap then
    match n with
    | S n => walk_left secmap (left_start - 1) n
    | O => let s := find_next_zero_bit secmap MAIN_SECS 0 in (s, MAIN_SECS <=? s)
    end
  else (left_start, false).

Record search := mk_search {
  s_secno : Z;
  s_go_left : bool;
  s_left_start : Z;
  s_bug : bool
}.

(** From [find_other_zone:] to [skip_left:]. *)
Definition find_section (secmap : gset Z) (dir : alloc_dir) (hint : Z) (s : search) : search :=
  let secno := find_next_zero_bit secmap MAIN_SECS hint in
  let s :=
    if MAIN_SECS <=? secno then
      match dir with
      | ALLOC_RIGHT => let secno := find_next_zero_bit secmap MAIN_SECS 0 in
          mk_search secno (s_go_left s) (s_left_start s) (s_bug s || (MAIN_SECS <=? secno))
      | ALLOC_LEFT => mk_search secno true (u32 (hint - 1)) (s_bug s)
      end
    else mk_search secno (s_go_left s) (s_left_start s) (s_bug s) in
  if negb (s_go_left s) then s
  else let '(left_start, bug) := walk_left secmap (s_left_start s) (Z.to_nat (s_left_start s)) in
       mk_search left_start true left_start (s_bug s || bug).

(** The conditions under which the first section found is taken. *)
Definition keep_zone (dir : alloc_dir) (go_left : bool) (zoneno old_zoneno total_zones : Z) : bool :=
  (secs_per_zone g =? 1) || (zoneno =? old_zoneno) ||
  match dir with
  | ALLOC_LEFT => negb go_left && (total_zones <=? zoneno + 1) || go_left && (zoneno =? 0)
  | ALLOC_RIGHT => false
  end.

Definition other_zone_hint (go_left : bool) (zoneno total_zones : Z) : Z :=
  if go_left then u32 (zoneno * secs_per_zone g - 1)
  else if total_zones <=? zoneno + 1 then 0 else u32 ((zoneno + 1) * secs_per_zone g).

(** [zones]: the zones of the six current segments.  The result is the new
    segment, the map, and whether a [f2fs_bug_on] was hit. *)
Definition get_new_segment (zones : list Z) (newseg : Z) (new_sec : bool) (dir : alloc_dir)
    (fi : free_segmap_info) : Z * free_segmap_info * bool :=
  let total_zones := MAIN_SECS / secs_per_zone g in
  let hint := GET_SEC_FROM_SEG newseg in
  let old_zoneno := GET_ZONE_FROM_SEG newseg in
  let got_it segno bug := (segno, __set_inuse segno fi, bug || test_bit segno (free_segmap fi)) in
  let next := find_next_zero_bit (free_segmap fi) (GET_SEG_FROM_SEC (hint + 1)) (newseg + 1) in
  if negb new_sec && c_true ((newseg + 1) mod segs_per_sec g) && (next <? GET_SEG_FROM_SEC (hint + 1))
  then got_it next false
  else
    let s := find_section (free_secmap fi) dir hint (mk_search 0 false hint false) in
    let zoneno := GET_ZONE_FROM_SEC (s_secno s) in
    if keep_zone dir (s_go_left s) zoneno old_zoneno total_zones || negb (bool_decide (zoneno ∈ zones))
    then got_it (GET_SEG_FROM_SEC (s_secno s)) (s_bug s)
    else
      let s := find_section (free_secmap fi) dir (other_zone_hint (s_go_left s) zoneno total_zones) s in
      got_it (GET_SEG_FROM_SEC (s_secno s)) (s_bug s).

(** ** Bitmap searches *)

Lemma test_bit_true nr map : test_bit nr map = true <-> nr ∈ map.
Proof. apply bool_decide_eq_true. Qed.
Lemma test_bit_false nr map : test_bit nr map = false <-> nr ∉ map.
Proof. apply bool_decide_eq_false. Qed.

Lemma find_next_bit_spec (map : gset Z) size offset :
  offset <= size -> let r := find_next_bit map size offset in
  offset <= r <= size /\ (forall i, offset <= i < r -> i ∉ map) /\ (r < size -> r ∈ map).
Proof.
  intros Ho. cbv zeta. unfold find_next_bit. case_if; [split; [lia|]; split; intros; lia|].
  destruct (scan_from_spec (fun i => test_bit i map) offset (Z.to_nat (size - offset))) as (H1 & H2 & H3).
  split; [lia|]. split.
  - intros i Hi. by apply test_bit_false, H2.
  - intros Hr. apply test_bit_true, H3. lia.
Qed.

Lemma find_next_zero_bit_spec (map : gset Z) size offset :
  offset <= size -> let r := find_next_zero_bit map size offset in
  offset <= r <= size /\ (forall i, offset <= i < r -> i ∈ map) /\ (r < size -> r ∉ map).
Proof.
  intros Ho. cbv zeta. unfold find_next_zero_bit. case_if; [split; [lia|]; split; intros; lia|].
  destruct (scan_from_spec (fun i => negb (test_bit i map)) offset (Z.to_nat (size - offset))) as (H1 & H2 & H3).
  split; [lia|]. split.
  - intros i Hi. apply test_bit_true, negb_false_iff. by apply H2.
  - intros Hr. apply test_bit_false, negb_true_iff, H3. lia.
Qed.

(** ** Invariant *)

Definition geom_ok : Prop :=
  0 < segs_per_sec g /\ 0 < secs_per_zone g /\ 0 < total_sections g /\
  main_segments g = total_sections g * segs_per_sec g /\ main_segments g < 2 ^ 32.

Record free_wf (fi : free_segmap_info) : Prop := {
  fw_segs : forall s, s ∈ free_segmap fi -> 0 <= s < MAIN_SEGS;
  fw_secs : forall c, c ∈ free_secmap fi <-> exists s, s ∈ free_segmap fi /\ GET_SEC_FROM_SEG s = c;
  fw_nsegs : free_segments fi = MAIN_SEGS - Z.of_nat (size (free_segmap fi));
  fw_nsecs : free_sections fi = MAIN_SECS - Z.of_nat (size (free_secmap fi))
}.

Hypothesis Hg : geom_ok.

Lemma geom_bounds : 0 < MAIN_SECS <= MAIN_SEGS /\ MAIN_SEGS < 2 ^ 32.
Proof. destruct Hg as (G1 & G2 & G3 & G4 & G5). unfold MAIN_SECS, MAIN_SEGS. nia. Qed.

Lemma sec_range s : 0 <= s < MAIN_SEGS -> 0 <= GET_SEC_FROM_SEG s < MAIN_SECS.
Proof.
  unfold MAIN_SEGS, MAIN_SECS, GET_SEC_FROM_SEG. destruct Hg as (H1 & _ & _ & H2 & _). intros Hs.
  split; [apply Z.div_pos; lia|]. apply Z.div_lt_upper_bound; lia.
Qed.

Lemma seg_from_sec c : 0 <= c <= MAIN_SECS -> GET_SEG_FROM_SEC c = c * segs_per_sec g /\ 0 <= GET_SEG_FROM_SEC c <= MAIN_SEGS.
Proof.
  unfold MAIN_SEGS, MAIN_SECS, GET_SEG_FROM_SEC. destruct Hg as (H1 & _ & H3 & H2 & H4). intros Hc.
  rewrite u32_small by nia. split; [done|nia].
Qed.

(** The segments of section [c]. *)
Lemma in_section c s : 0 <= c < MAIN_SECS ->
  (GET_SEC_FROM_SEG s = c <-> GET_SEG_FROM_SEC c <= s < GET_SEG_FROM_SEC c + segs_per_sec g).
Proof.
  intros Hc. destruct (seg_from_sec c) as [-> _]; [lia|]. destruct Hg as (H1 & _).
  unfold GET_SEC_FROM_SEG. split.
  - intros <-. pose proof (Z.div_mod s (segs_per_sec g)). pose proof (Z.mod_pos_bound s (segs_per_sec g)). lia.
  - intros Hs. symmetry. apply (Z.div_unique_pos s (segs_per_sec g) c (s - c * segs_per_sec g)); lia.
Qed.

Lemma section_unused_spec segno map : 0 <= segno < MAIN_SEGS ->
  section_unused segno map = true <-> forall s, s ∈ map -> GET_SEC_FROM_SEG s <> GET_SEC_FROM_SEG segno.
Proof.
  intros Hs. unfold section_unused. pose proof (sec_range _ Hs) as Hc. cbv zeta.
  set (c := GET_SEC_FROM_SEG segno) in *. pose proof Hg as (H1 & _).
  destruct (find_next_bit_spec map (GET_SEG_FROM_SEC c + segs_per_sec g) (GET_SEG_FROM_SEC c)) as (F1 & F2 & F3);
    [lia|]. rewrite Z.leb_le. split.
  - intros Hle s Hin Heq. apply in_section in Heq; [|done]. apply (F2 s); [lia|done].
  - intros Hno. destruct (Z.le_gt_cases (GET_SEG_FROM_SEC c + segs_per_sec g)
      (find_next_bit map (GET_SEG_FROM_SEC c + segs_per_sec g) (GET_SEG_FROM_SEC c))) as [|Hlt]; [done|].
    exfalso. apply (Hno _ (F3 Hlt)). apply in_section; [done|lia].
Qed.

Lemma seg_count fi : free_wf fi -> 0 <= free_segments fi <= MAIN_SEGS /\ 0 <= free_sections fi <= MAIN_SECS.
Proof.
  intros [H1 H2 H3 H4]. destruct Hg as (G1 & G2 & G3 & G4 & G5).
  assert (Z.of_nat (size (free_segmap fi)) <= MAIN_SEGS) by (apply range_size; [unfold MAIN_SEGS; nia|done]).
  assert (Z.of_nat (size (free_secmap fi)) <= MAIN_SECS).
  { apply range_size; [unfold MAIN_SECS; lia|]. intros c (s & Hs & <-)%H2. by apply sec_range, H1. }
  lia.
Qed.

(** ** The operations keep the invariant *)

Lemma set_inuse_wf segno fi :
  free_wf fi -> 0 <= segno < MAIN_SEGS -> segno ∉ free_segmap fi ->
  free_wf (__set_inuse segno fi) /\ free_segmap (__set_inuse segno fi) = {[segno]} ∪ free_segmap fi.
Proof.
  intros Hwf Hs Hn. pose proof (sec_range _ Hs) as Hc. unfold __set_inuse. cbv zeta. split; [|done].
  pose proof (seg_count _ Hwf) as Hb. destruct Hwf as [W1 W2 W3 W4]. pose proof geom_bounds as Hgb. split; simpl.
  - intros s [->%elem_of_singleton|Hin]%elem_of_union; [done|auto].
  - intros c. rewrite elem_of_union, elem_of_singleton, W2. split.
    + intros [->|(s & H1 & H2)]; [exists segno|exists s]; set_solver.
    + intros (s & [->%elem_of_singleton|Hin]%elem_of_union & <-); [by left|right; by exists s].
  - rewrite size_add by done. rewrite u32_small; [lia|].
    assert (Z.of_nat (size ({[segno]} ∪ free_segmap fi)) <= MAIN_SEGS).
    { apply range_size; [lia|]. intros x [->%elem_of_singleton|Hx]%elem_of_union; [done|auto]. }
    rewrite size_add in H by done. lia.
  - unfold test_bit. case_bool_decide as Hin.
    + rewrite W4. do 3 f_equal. set_solver.
    + rewrite size_add by done. rewrite u32_small; [lia|].
      assert (Z.of_nat (size ({[GET_SEC_FROM_SEG segno]} ∪ free_secmap fi)) <= MAIN_SECS).
      { apply range_size; [lia|]. intros x [->%elem_of_singleton|(s & H1 & <-)%W2]%elem_of_union;
          [done|by apply sec_range, W1]. }
      rewrite size_add in H by done. lia.
Qed.

Lemma set_free_wf segno fi :
  free_wf fi -> segno ∈ free_segmap fi ->
  free_wf (__set_free segno fi) /\ free_segmap (__set_free segno fi) = free_segmap fi ∖ {[segno]}.
Proof.
  intros Hwf Hin. pose proof (fw_segs _ Hwf _ Hin) as Hs. pose proof (sec_range _ Hs) as Hc.
  unfold __set_free. cbv zeta. pose proof (seg_count _ Hwf) as Hb.
  pose proof (size_remove _ _ Hin) as Hsz.
  destruct Hwf as [W1 W2 W3 W4]. pose proof geom_bounds as Hgb.
  assert (Hcin : GET_SEC_FROM_SEG segno ∈ free_secmap fi) by (apply W2; by exists segno).
  assert (Hseg : u32 (free_segments fi + 1) = MAIN_SEGS - Z.of_nat (size (free_segmap fi ∖ {[segno]})))
    by (rewrite u32_small; lia).
  destruct (section_unused segno (free_segmap fi ∖ {[segno]})) eqn:E; (split; [|done]); split; simpl; try done.
  - intros s Hin'. apply W1. set_solver.
  - intros c. rewrite elem_of_difference, elem_of_singleton, W2.
    assert (E' := proj1 (section_unused_spec segno _ Hs) E). split.
    + intros [(s & H1 & H2) Hne]. exists s. split; [|done]. apply elem_of_difference. split; [done|]. set_solver.
    + intros (s & H1 & <-). split; [exists s; set_solver|by apply E'].
  - pose proof (size_remove _ _ Hcin). rewrite u32_small by lia. lia.
  - intros s Hin'. apply W1. set_solver.
  - intros c. rewrite W2. split; [|intros (s & H1 & H2); exists s; set_solver].
    intros (s & H1 & H2). destruct (decide (s = segno)) as [->|]; [|exists s; set_solver].
    destruct (decide (exists s', s' ∈ free_segmap fi ∖ {[segno]} /\ GET_SEC_FROM_SEG s' = GET_SEC_FROM_SEG segno))
      as [(s' & H3 & H4)|Hno]; [exists s'; by rewrite H4|]. exfalso.
    assert (section_unused segno (free_segmap fi ∖ {[segno]}) = true); [|congruence].
    apply section_unused_spec; [done|]. intros s' H3 H4. apply Hno. by exists s'.
Qed.

Lemma test_and_free_eq segno fi :
  free_wf fi -> __set_test_and_free segno fi = if test_bit segno (free_segmap fi) then __set_free segno fi else fi.
Proof.
  intros Hwf. unfold __set_test_and_free, __set_free. cbv zeta.
  destruct (test_bit segno (free_segmap fi)) eqn:E; [|done]. apply test_bit_true in E.
  rewrite (proj2 (test_bit_true (GET_SEC_FROM_SEG segno) (free_secmap fi))); [done|].
  apply (fw_secs _ Hwf). by exists segno.
Qed.

Lemma test_and_inuse_eq segno fi :
  __set_test_and_inuse segno fi = if test_bit segno (free_segmap fi) then fi else __set_inuse segno fi.
Proof. unfold __set_test_and_inuse, __set_inuse. by destruct (test_bit segno (free_segmap fi)). Qed.

Lemma test_and_free_wf segno fi :
  free_wf fi -> free_wf (__set_test_and_free segno fi) /\
  free_segmap (__set_test_and_free segno fi) = free_segmap fi ∖ {[segno]}.
Proof.
  intros Hwf. rewrite test_and_free_eq by done. destruct (test_bit segno (free_segmap fi)) eqn:E.
  - apply set_free_wf; [done|]. by apply test_bit_true.
  - apply test_bit_false in E. split; [done|]. apply set_eq. intros x. set_solver.
Qed.

Lemma test_and_inuse_wf segno fi :
  free_wf fi -> 0 <= segno < MAIN_SEGS -> free_wf (__set_test_and_inuse segno fi) /\
  free_segmap (__set_test_and_inuse segno fi) = {[segno]} ∪ free_segmap fi.
Proof.
  intros Hwf Hs. rewrite test_and_inuse_eq. destruct (test_bit segno (free_segmap fi)) eqn:E.
  - apply test_bit_true in E. split; [done|]. apply set_eq. intros x. set_solver.
  - apply set_inuse_wf; [done..|]. by apply test_bit_false.
Qed.

Lemma build_free_wf : free_wf (build_free_segmap).
Proof.
  pose proof geom_bounds as Hb. unfold build_free_segmap. split; simpl.
  - intros s Hs%elem_of_list_to_set%elem_of_seqZ. lia.
  - intros c. rewrite elem_of_list_to_set, elem_of_seqZ. split.
    + intros Hc. destruct (seg_from_sec c) as [E HE]; [lia|]. destruct Hg as (G1 & G2 & G3 & G4 & G5).
      exists (GET_SEG_FROM_SEC c). rewrite elem_of_list_to_set, elem_of_seqZ. split.
      * unfold MAIN_SEGS, MAIN_SECS in *. nia.
      * apply in_section; lia.
    + intros (s & Hs%elem_of_list_to_set%elem_of_seqZ & <-). pose proof (sec_range s). lia.
  - rewrite size_list_to_set by apply NoDup_seqZ. rewrite length_seqZ. lia.
  - rewrite size_list_to_set by apply NoDup_seqZ. rewrite length_seqZ. lia.
Qed.

(** ** The search *)

Lemma walk_left_spec secmap start n c :
  Z.of_nat n = start -> 0 <= c <= start -> c ∉ secmap ->
  let r := walk_left secmap start n in
  r.2 = false /\ c <= r.1 <= start /\ r.1 ∉ secmap /\ forall i, r.1 < i <= start -> i ∈ secmap.
Proof.
  cbv zeta. revert start. induction n as [|n IH]; intros start Hn Hc Hfree; simpl.
  - assert (c = start) as -> by lia. rewrite (proj2 (test_bit_false _ _) Hfree). simpl. split; [done|].
    split; [lia|]. split; [done|lia].
  - destruct (test_bit start secmap) eqn:E.
    + apply test_bit_true in E. assert (c <> start) by (intros ->; done).
      destruct (IH (start - 1)) as (I1 & I2 & I3 & I4); [lia|lia|done|].
      split; [done|]. split; [lia|]. split; [done|]. intros i Hi.
      destruct (decide (i = start)) as [->|]; [done|]. apply I4. lia.
    + apply test_bit_false in E. simpl. split; [done|]. split; [lia|]. split; [done|lia].
Qed.

(** No free section from [hint] on. *)
Definition none_right (secmap : gset Z) (hint : Z) : Prop := forall c, hint <= c < MAIN_SECS -> c ∈ secmap.

(** The first section found, starting from a state that has not gone left. *)
Lemma find_section_spec secmap dir hint s c :
  0 <= c < MAIN_SECS -> c ∉ secmap -> 0 <= hint < MAIN_SECS -> s_go_left s = false -> s_bug s = false ->
  let r := find_section secmap dir hint s in
  s_bug r = false /\ 0 <= s_secno r < MAIN_SECS /\ s_secno r ∉ secmap /\
  (s_go_left r = true -> dir = ALLOC_LEFT /\ none_right secmap hint /\ s_left_start r = s_secno r /\
     s_secno r < hint /\ forall i, s_secno r < i < hint -> i ∈ secmap) /\
  (none_right secmap hint -> dir = ALLOC_LEFT -> s_go_left r = true).
Proof.
  cbv zeta. intros Hc Hfree Hh Hgl Hbug. pose proof geom_bounds as Hb. unfold find_section.
  destruct (find_next_zero_bit_spec secmap MAIN_SECS hint) as (F1 & F2 & F3); [lia|].
  destruct (find_next_zero_bit_spec secmap MAIN_SECS 0) as (Z1 & Z2 & Z3); [lia|].
  destruct (Z.leb_spec MAIN_SECS (find_next_zero_bit secmap MAIN_SECS hint)) as [Hle|Hlt].
  - assert (Hnone : none_right secmap hint) by (intros i Hi; apply F2; lia). destruct dir; simpl.
    + rewrite Hgl, Hbug. simpl. assert (find_next_zero_bit secmap MAIN_SECS 0 < MAIN_SECS).
      { destruct (Z.lt_ge_cases (find_next_zero_bit secmap MAIN_SECS 0) MAIN_SECS); [done|].
        exfalso. apply Hfree, Z2. lia. }
      split; [by apply Z.leb_gt|]. split; [lia|]. split; [by apply Z3|]. by split.
    + assert (c < hint) by (destruct (Z.lt_ge_cases c hint); [done|]; exfalso; apply Hfree, Hnone; lia).
      rewrite u32_small by lia.
      destruct (walk_left_spec secmap (hint - 1) (Z.to_nat (hint - 1)) c) as (W1 & W2 & W3 & W4); [lia|lia|done|].
      destruct (walk_left secmap (hint - 1) (Z.to_nat (hint - 1))) as [ls b]. simpl in *.
      rewrite Hbug, W1. split; [done|]. split; [lia|]. split; [done|]. split; [|done]. intros _.
      split; [done|]. split; [done|]. split; [done|]. split; [lia|]. intros i Hi. apply W4. lia.
  - simpl. rewrite Hgl. simpl. split; [done|]. split; [lia|]. split; [by apply F3|]. split; [done|].
    intros Hnone _. exfalso. apply (F3 Hlt), Hnone. lia.
Qed.

(** Another search after going left finds the same section again. *)
Lemma find_section_again secmap hint s :
  s_go_left s = true -> s_bug s = false -> s_left_start s = s_secno s -> s_secno s ∉ secmap ->
  0 <= hint <= s_secno s -> s_secno s < MAIN_SECS ->
  find_section secmap ALLOC_LEFT hint s = s.
Proof.
  intros Hgl Hbug Hls Hfree Hh Hlt. unfold find_section.
  destruct (find_next_zero_bit_spec secmap MAIN_SECS hint) as (F1 & F2 & F3); [lia|].
  destruct (Z.leb_spec MAIN_SECS (find_next_zero_bit secmap MAIN_SECS hint)) as [Hle|_].
  { exfalso. apply Hfree, F2. lia. }
  simpl. rewrite Hgl, Hls, Hbug. simpl.
  assert (Hw : forall n, walk_left secmap (s_secno s) n = (s_secno s, false))
    by (intros [|n]; simpl; by rewrite (proj2 (test_bit_false _ _) Hfree)).
  rewrite Hw. destruct s; simpl in *. congruence.
Qed.

Lemma zone_range c : 0 <= c < MAIN_SECS -> 0 <= GET_ZONE_FROM_SEC c /\ GET_ZONE_FROM_SEC c * secs_per_zone g <= c.
Proof.
  unfold GET_ZONE_FROM_SEC. destruct Hg as (_ & H2 & _). intros Hc. split; [apply Z.div_pos; lia|].
  pose proof (Z.mul_div_le c (secs_per_zone g) H2). lia.
Qed.

Lemma other_zone_hint_range go_left c : 0 <= c < MAIN_SECS ->
  (go_left = true -> 0 < GET_ZONE_FROM_SEC c) ->
  let h := other_zone_hint go_left (GET_ZONE_FROM_SEC c) (MAIN_SECS / secs_per_zone g) in
  0 <= h < MAIN_SECS /\ (go_left = true -> h <= c).
Proof.
  intros Hc Hz. cbv zeta. pose proof geom_bounds as Hb. destruct (zone_range c Hc) as [Z1 Z2].
  destruct Hg as (_ & H2 & _). pose proof (Z.mul_div_le MAIN_SECS (secs_per_zone g) H2).
  unfold other_zone_hint. destruct go_left.
  - specialize (Hz eq_refl). rewrite u32_small by nia. nia.
  - case_if; [lia|]. split; [|done]. assert ((GET_ZONE_FROM_SEC c + 1) * secs_per_zone g < MAIN_SECS) by nia.
    rewrite u32_small by nia. nia.
Qed.

(** The section [get_new_segment] ends with when it does not stay in the
    section of [newseg]. *)
Definition final_section (zones : list Z) (newseg : Z) (dir : alloc_dir) (secmap : gset Z) : search :=
  let total_zones := MAIN_SECS / secs_per_zone g in
  let hint := GET_SEC_FROM_SEG newseg in
  let s := find_section secmap dir hint (mk_search 0 false hint false) in
  let zoneno := GET_ZONE_FROM_SEC (s_secno s) in
  if keep_zone dir (s_go_left s) zoneno (GET_ZONE_FROM_SEG newseg) total_zones || negb (bool_decide (zoneno ∈ zones))
  then s else find_section secmap dir (other_zone_hint (s_go_left s) zoneno total_zones) s.

Lemma get_new_segment_eq zones newseg new_sec dir fi :
  get_new_segment zones newseg new_sec dir fi =
  let got_it segno bug := (segno, __set_inuse segno fi, bug || test_bit segno (free_segmap fi)) in
  let hint := GET_SEC_FROM_SEG newseg in
  let next := find_next_zero_bit (free_segmap fi) (GET_SEG_FROM_SEC (hint + 1)) (newseg + 1) in
  if negb new_sec && c_true ((newseg + 1) mod segs_per_sec g) && (next <? GET_SEG_FROM_SEC (hint + 1))
  then got_it next false
  else let s := final_section zones newseg dir (free_secmap fi) in got_it (GET_SEG_FROM_SEC (s_secno s)) (s_bug s).
Proof.
  unfold get_new_segment, final_section. cbv zeta.
  case_if; [done|]. case_if; done.
Qed.

(** A search that went left is final, whatever the zone. *)
Lemma final_section_left zones newseg secmap c :
  0 <= c < MAIN_SECS -> c ∉ secmap -> 0 <= GET_SEC_FROM_SEG newseg < MAIN_SECS ->
  none_right secmap (GET_SEC_FROM_SEG newseg) ->
  final_section zones newseg ALLOC_LEFT secmap =
  find_section secmap ALLOC_LEFT (GET_SEC_FROM_SEG newseg) (mk_search 0 false (GET_SEC_FROM_SEG newseg) false).
Proof.
  intros Hc Hfree Hh Hnone. unfold final_section. cbv zeta. set (hint := GET_SEC_FROM_SEG newseg) in *.
  destruct (find_section_spec secmap ALLOC_LEFT hint (mk_search 0 false hint false) c) as (F1 & F2 & F3 & F4 & F5);
    try done. specialize (F5 Hnone eq_refl). specialize (F4 F5) as (_ & _ & F6 & F7 & _).
  revert F1 F2 F3 F5 F6 F7. generalize (find_section secmap ALLOC_LEFT hint (mk_search 0 false hint false)).
  intros s F1 F2 F3 F5 F6 F7. destruct (keep_zone _ _ _ _ _ || _) eqn:E; [done|].
  apply orb_false_iff in E as [E _].
  assert (Hz : 0 < GET_ZONE_FROM_SEC (s_secno s)).
  { destruct (zone_range _ F2). unfold keep_zone in E. rewrite F5 in E. simpl in E. zbool. lia. }
  destruct (other_zone_hint_range (s_go_left s) (s_secno s) F2 ltac:(done)) as [O1 O2].
  apply find_section_again; try done; [|lia]. split; [lia|by apply O2].
Qed.

Lemma final_section_spec zones newseg dir secmap c :
  0 <= c < MAIN_SECS -> c ∉ secmap -> 0 <= GET_SEC_FROM_SEG newseg < MAIN_SECS ->
  let s := final_section zones newseg dir secmap in
  s_bug s = false /\ 0 <= s_secno s < MAIN_SECS /\ s_secno s ∉ secmap.
Proof.
  intros Hc Hfree Hh. cbv zeta. set (hint := GET_SEC_FROM_SEG newseg) in *.
  destruct (find_section_spec secmap dir hint (mk_search 0 false hint false) c) as (F1 & F2 & F3 & F4 & _); try done.
  destruct (s_go_left (find_section secmap dir hint (mk_search 0 false hint false))) eqn:Egl.
  { destruct (F4 eq_refl) as (-> & Hnone & _). by rewrite (final_section_left zones newseg secmap c). }
  unfold final_section. cbv zeta. fold hint. revert F1 F2 F3 Egl. clear F4.
  generalize (find_section secmap dir hint (mk_search 0 false hint false)). intros s F1 F2 F3 Egl.
  case_if; [done|]. destruct (other_zone_hint_range (s_go_left s) (s_secno s) F2) as [O1 _]; [congruence|].
  by destruct (find_section_spec secmap dir _ s c Hc Hfree O1 Egl F1) as (G1 & G2 & G3 & _).
Qed.

(** A volume with a free section. *)
Lemma free_section_exists fi : free_wf fi -> 0 < free_sections fi -> exists c, 0 <= c < MAIN_SECS /\ c ∉ free_secmap fi.
Proof.
  intros Hwf Hpos. pose proof geom_bounds as Hb. set (all := list_to_set (seqZ 0 MAIN_SECS) : gset Z).
  assert (Hall : Z.of_nat (size all) = MAIN_SECS).
  { unfold all. rewrite size_list_to_set by apply NoDup_seqZ. rewrite length_seqZ. lia. }
  destruct (decide (all ⊆ free_secmap fi)) as [Hsub|Hn].
  - apply subseteq_size in Hsub. rewrite (fw_nsecs _ Hwf) in Hpos. lia.
  - destruct (set_choose_L (all ∖ free_secmap fi)) as [c Hc].
    { intros He. apply Hn. intros x Hx. destruct (decide (x ∈ free_secmap fi)); [done|]. set_solver. }
    apply elem_of_difference in Hc as [Hc%elem_of_list_to_set%elem_of_seqZ Hf]. exists c. split; [lia|done].
Qed.

(** The segment found. *)
Lemma get_new_segment_ok zones newseg new_sec dir fi :
  free_wf fi -> 0 <= newseg < MAIN_SEGS -> 0 < free_sections fi ->
  let '(segno, fi', bug) := get_new_segment zones newseg new_sec dir fi in
  bug = false /\ 0 <= segno < MAIN_SEGS /\ segno ∉ free_segmap fi /\
  free_wf fi' /\ free_segmap fi' = {[segno]} ∪ free_segmap fi /\
  (GET_SEC_FROM_SEG segno ∉ free_secmap fi /\ segno = GET_SEG_FROM_SEC (GET_SEC_FROM_SEG segno) \/
   new_sec = false /\ GET_SEC_FROM_SEG segno = GET_SEC_FROM_SEG newseg /\ newseg < segno /\
   forall i, newseg < i < segno -> i ∈ free_segmap fi).
Proof.
  intros Hwf Hs Hpos. pose proof (sec_range _ Hs) as Hc. pose proof geom_bounds as Hb.
  rewrite get_new_segment_eq. cbv zeta. set (hint := GET_SEC_FROM_SEG newseg) in *.
  destruct (seg_from_sec (hint + 1)) as [Hend1 Hend2]; [lia|].
  assert (Hin : GET_SEG_FROM_SEC hint <= newseg < GET_SEG_FROM_SEC (hint + 1)).
  { pose proof (proj1 (in_section hint newseg ltac:(lia)) eq_refl) as H.
    rewrite (proj1 (seg_from_sec hint ltac:(lia))) in *. rewrite Hend1. lia. }
  case_if.
  - destruct (find_next_zero_bit_spec (free_segmap fi) (GET_SEG_FROM_SEC (hint + 1)) (newseg + 1)) as (F1 & F2 & F3);
      [lia|]. specialize (F3 ltac:(done)).
    set (segno := find_next_zero_bit _ _ _) in *. rewrite (proj2 (test_bit_false _ _) F3).
    destruct (set_inuse_wf segno fi) as [I1 I2]; [done|lia|done|].
    split; [done|]. split; [lia|]. split; [done|]. split; [done|]. split; [done|]. right.
    split; [by destruct new_sec|]. split; [|split; [lia|intros i Hi; apply F2; lia]].
    apply in_section; [lia|]. rewrite (proj1 (seg_from_sec hint ltac:(lia))) in *. lia.
  - destruct (free_section_exists fi Hwf Hpos) as (c & C1 & C2).
    destruct (final_section_spec zones newseg dir (free_secmap fi) c C1 C2 Hc) as (S1 & S2 & S3).
    set (s := final_section _ _ _ _) in *. rewrite S1.
    assert (Hsec : GET_SEC_FROM_SEG (GET_SEG_FROM_SEC (s_secno s)) = s_secno s)
      by (apply in_section; [done|destruct Hg; lia]).
    assert (Hfree : GET_SEG_FROM_SEC (s_secno s) ∉ free_segmap fi)
      by (intros Hin'; apply S3, (fw_secs _ Hwf); by exists (GET_SEG_FROM_SEC (s_secno s))).
    assert (Hrange : 0 <= GET_SEG_FROM_SEC (s_secno s) < MAIN_SEGS).
    { destruct (seg_from_sec (s_secno s)) as [-> _]; [lia|]. destruct Hg as (G1 & _ & _ & G4 & _).
      unfold MAIN_SEGS, MAIN_SECS in *. nia. }
    rewrite (proj2 (test_bit_false _ _) Hfree). destruct (set_inuse_wf _ fi Hwf Hrange Hfree) as [I1 I2].
    split; [done|]. split; [done|]. split; [done|]. split; [done|]. split; [done|]. left. by rewrite Hsec.
Qed.

(** C27. While a section is free, [get_new_segment] never hits one of its BUG
    checks: it returns a segment of the main area that was free and marks it,
    and nothing else, in use, with the counters right.  The segment is the next
    free one of the same section or opens a section with no segment in use;
    with [new_sec] it is always the latter. *)
Theorem get_new_segment_correct zones newseg new_sec dir fi :
  free_wf fi -> 0 <= newseg < MAIN_SEGS -> 0 < free_sections fi ->
  let '(segno, fi', bug) := get_new_segment zones newseg new_sec dir fi in
  bug = false /\ 0 <= segno < MAIN_SEGS /\ segno ∉ free_segmap fi /\
  free_wf fi' /\ free_segmap fi' = {[segno]} ∪ free_segmap fi /\
  (GET_SEC_FROM_SEG segno ∉ free_secmap fi /\ segno = GET_SEG_FROM_SEC (GET_SEC_FROM_SEG segno) \/
   new_sec = false /\ GET_SEC_FROM_SEG segno = GET_SEC_FROM_SEG newseg /\ newseg < segno /\
   forall i, newseg < i < segno -> i ∈ free_segmap fi).
Proof.
  intros Hwf Hs Hpos. pose proof (get_new_segment_ok zones newseg new_sec dir fi Hwf Hs Hpos) as H.
  by destruct (get_new_segment zones newseg new_sec dir fi) as [[segno fi'] bug].
Qed.

(** C40. Searching to the left, [get_new_segment] does not avoid the zones of the
    other current segments: when no section from the one of [newseg] on is
    free, it takes the nearest free section below, and the retry meant to find
    another zone finds the same section again. *)
Theorem left_search_ignores_zones zones newseg fi :
  free_wf fi -> 0 <= newseg < MAIN_SEGS -> 0 < free_sections fi ->
  none_right (free_secmap fi) (GET_SEC_FROM_SEG newseg) ->
  get_new_segment zones newseg true ALLOC_LEFT fi = get_new_segment [] newseg true ALLOC_LEFT fi /\
  let '(segno, _, _) := get_new_segment zones newseg true ALLOC_LEFT fi in
  GET_SEC_FROM_SEG segno < GET_SEC_FROM_SEG newseg /\
  forall c, GET_SEC_FROM_SEG segno < c < MAIN_SECS -> c ∈ free_secmap fi.
Proof.
  intros Hwf Hs Hpos Hnone. pose proof (sec_range _ Hs) as Hc.
  destruct (free_section_exists fi Hwf Hpos) as (c & C1 & C2).
  rewrite !get_new_segment_eq. cbv zeta. cbn [negb andb].
  rewrite !(final_section_left _ newseg (free_secmap fi) c) by done. split; [done|].
  destruct (find_section_spec (free_secmap fi) ALLOC_LEFT (GET_SEC_FROM_SEG newseg)
    (mk_search 0 false (GET_SEC_FROM_SEG newseg) false) c) as (F1 & F2 & F3 & F4 & F5); try done.
  specialize (F4 (F5 Hnone eq_refl)) as (_ & _ & F6 & F7 & F8).
  rewrite (proj2 (in_section _ _ F2)) by (destruct Hg; lia). split; [done|]. intros i Hi.
  destruct (Z.lt_ge_cases i (GET_SEC_FROM_SEG newseg)); [apply F8; lia|apply Hnone; lia].
Qed.

(** The map operations keep the counters equal to the number of clear bits
    and a section marked exactly while one of its segments is: freeing and
    using a segment changes its own bit only, the [test_and] forms do nothing
    on a segment already in that state. *)
Theorem free_marks_correct segno fi :
  free_wf fi -> 0 <= segno < MAIN_SEGS ->
  (segno ∈ free_segmap fi ->
     free_wf (__set_free segno fi) /\ free_segmap (__set_free segno fi) = free_segmap fi ∖ {[segno]}) /\
  (segno ∉ free_segmap fi ->
     free_wf (__set_inuse segno fi) /\ free_segmap (__set_inuse segno fi) = {[segno]} ∪ free_segmap fi) /\
  free_wf (__set_test_and_free segno fi) /\
  free_segmap (__set_test_and_free segno fi) = free_segmap fi ∖ {[segno]} /\
  free_wf (__set_test_and_inuse segno fi) /\
  free_segmap (__set_test_and_inuse segno fi) = {[segno]} ∪ free_segmap fi.
Proof.
  intros Hwf Hs. split; [by apply set_free_wf|]. split; [by apply set_inuse_wf|].
  destruct (test_and_free_wf segno fi Hwf), (test_and_inuse_wf segno fi Hwf Hs). done.
Qed.

End free_map.

(** ** Witnesses *)

(** 16 segments, two per section, two sections per zone; all but segments 0, 1,
    4, 6 and 7 in use. *)
Definition geom0 : geom := mk_geom 2 2 8 16.
Definition freemap0 : free_segmap_info :=
  foldr (__set_free geom0) (build_free_segmap geom0) [0; 1; 4; 6; 7].

Lemma geom0_ok : geom_ok geom0.
Proof. unfold geom_ok. simpl. lia. Qed.

Lemma freemap0_wf : free_wf geom0 freemap0.
Proof.
  unfold freemap0. cbn [foldr].
  assert (step : forall segno fi, free_wf geom0 fi -> test_bit segno (free_segmap fi) = true ->
    free_wf geom0 (__set_free geom0 segno fi)).
  { intros segno fi Hwf Hin. apply (set_free_wf geom0 geom0_ok segno fi Hwf). by apply test_bit_true. }
  repeat (apply step; [|vm_compute; reflexivity]). apply (build_free_wf geom0 geom0_ok).
Qed.

Lemma get_new_segment_correct_witness :
  (get_new_segment geom0 [1; 1; 1; 1; 1; 1] 9 true ALLOC_RIGHT freemap0).1.1 = 0 /\
  4 ∉ free_segmap freemap0 /\ (get_new_segment geom0 [] 3 false ALLOC_LEFT freemap0).1.1 = 6.
Proof.
  split; [vm_compute; reflexivity|]. split; [apply test_bit_false; vm_compute; reflexivity|].
  pose proof (get_new_segment_correct geom0 geom0_ok [] 3 false ALLOC_LEFT freemap0 freemap0_wf) as H.
  destruct (get_new_segment geom0 [] 3 false ALLOC_LEFT freemap0) as [[segno fi] bug] eqn:E.
  assert (segno = 6) as ->.
  { change segno with (segno, fi, bug).1.1. rewrite <- E. vm_compute. reflexivity. }
  destruct H as [-> _]; [change (MAIN_SEGS geom0) with 16; lia|vm_compute; reflexivity|]. reflexivity.
Defined.

(** Section 3 is taken although zone 1 is in use and section 0 is free. *)
Lemma left_search_ignores_zones_witness :
  (get_new_segment geom0 [1; 1; 1; 1; 1; 1] 15 true ALLOC_LEFT freemap0).1.1 = 6 /\
  GET_ZONE_FROM_SEG geom0 6 = 1 /\ 0 ∉ free_secmap freemap0.
Proof.
  destruct (left_search_ignores_zones geom0 geom0_ok [1; 1; 1; 1; 1; 1] 15 freemap0 freemap0_wf) as [-> _].
  - change (MAIN_SEGS geom0) with 16. lia.
  - vm_compute. reflexivity.
  - intros c. change (GET_SEC_FROM_SEG geom0 15) with 7. change (MAIN_SECS geom0) with 8. intros Hc.
    assert (c = 7) as -> by lia. apply test_bit_true. vm_compute. reflexivity.
  - split; [vm_compute; reflexivity|]. split; [vm_compute; reflexivity|].
    apply test_bit_false. vm_compute. reflexivity.
Defined.

Lemma free_marks_correct_witness :
  4 ∉ free_segmap freemap0 /\ free_sections (__set_test_and_free geom0 5 freemap0) = 3 /\
  free_wf geom0 (__set_test_and_free geom0 5 freemap0).
Proof.
  split; [apply test_bit_false; vm_compute; reflexivity|]. split; [vm_compute; reflexivity|].
  apply (free_marks_correct geom0 geom0_ok 5 freemap0 freemap0_wf).
  change (MAIN_SEGS geom0) with 16. lia.
Defined.
