(* ===== verification/Sit.v ===== *)
(** * The segment information table (segment.h, segment.c)

    Which blocks of each segment are valid now and were valid in the last
    checkpoint, with the counters derived from them. *)

From S2P Require Import Prelude Bits Journal FreeSeg.
From Stdlib Require Import ZArith Lia.
From stdpp Require Import base numbers option gmap list.
#[local] Open Scope Z_scope.
#[local] Open Scope c_scope.

(** ** Addresses *)

Definition NULL_SEGNO : Z := 0xffffffff.
Definition log_blocks_per_seg : Z := 9.
Definition blocks_per_seg : Z := 512.

(** Where the main area lies on the volume. *)
Record layout := mk_layout {
  ly_geom : geom;
  seg0_blkaddr : Z;
  start_segno : Z;  (* of struct free_segmap_info: the first segment of the main area *)
  segment_count : Z
}.

(** ** Data *)

(** [struct seg_entry]; the maps are bitmaps of 512 bits. *)
Record seg_entry := mk_seg {
  se_type : Z;               (* 6 bits *)
  valid_blocks : Z;          (* 10 bits *)
  ckpt_valid_blocks : Z;     (* 10 bits *)
  cur_valid_map : list Z;
  ckpt_valid_map : list Z;
  discard_map : list Z;
  mtime : Z
}.

(** [struct f2fs_sit_entry]. *)
Record f2fs_sit_entry := mk_raw_sit {
  rs_vblocks : Z;            (* __le16 *)
  rs_valid_map : list Z;
  rs_mtime : Z               (* __le64 *)
}.

(** The fields of [struct sit_info], [discard_blks] and [SBI_NEED_FSCK]. *)
Record sit_info := mk_sit {
  sentries : list seg_entry;
  sec_entries : list Z;      (* valid_blocks of each struct sec_entry *)
  dirty_sentries_bitmap : gset Z;
  dirty_sentries : Z;
  written_valid_blocks : Z;
  max_mtime : Z;
  discard_blks : Z;
  need_fsck : bool
}.

Definition CURSEG_HOT_DATA : Z := 0.
Definition CURSEG_WARM_DATA : Z := 1.
Definition CURSEG_COLD_DATA : Z := 2.
Definition CURSEG_HOT_NODE : Z := 3.
Definition CURSEG_WARM_NODE : Z := 4.
Definition CURSEG_COLD_NODE : Z := 5.

Definition SIT_VBLOCK_MAP_SIZE : Z := 64.
Definition SIT_VBLOCKS_SHIFT : Z := 10.
Definition SIT_VBLOCKS_MASK : Z := Z.shiftl 1 SIT_VBLOCKS_SHIFT - 1.

(** A 6-bit and a 10-bit field of a [struct seg_entry]. *)
Definition bits6 (x : Z) : Z := x mod 2 ^ 6.
Definition bits10 (x : Z) : Z := x mod 2 ^ 10.

Definition zero_map : list Z := replicate 64%nat 0.
Definition seg0 : seg_entry := mk_seg 0 0 0 zero_map zero_map zero_map 0.

Definition set_se_type (x : Z) (e : seg_entry) : seg_entry :=
  mk_seg x (valid_blocks e) (ckpt_valid_blocks e) (cur_valid_map e) (ckpt_valid_map e) (discard_map e) (mtime e).

(** ** The on-disk form *)

Definition GET_SIT_VBLOCKS (rs : f2fs_sit_entry) : Z := rs_vblocks rs .& SIT_VBLOCKS_MASK.
Definition GET_SIT_TYPE (rs : f2fs_sit_entry) : Z := Z.shiftr (rs_vblocks rs .& Z.lnot SIT_VBLOCKS_MASK) SIT_VBLOCKS_SHIFT.

Definition seg_info_from_raw_sit (se : seg_entry) (rs : f2fs_sit_entry) : seg_entry :=
  mk_seg (bits6 (GET_SIT_TYPE rs)) (bits10 (GET_SIT_VBLOCKS rs)) (bits10 (GET_SIT_VBLOCKS rs))
    (rs_valid_map rs) (rs_valid_map rs) (discard_map se) (rs_mtime rs).

Definition __seg_info_to_raw_sit (se : seg_entry) : f2fs_sit_entry :=
  mk_raw_sit (u16 (Z.shiftl (se_type se) SIT_VBLOCKS_SHIFT .| valid_blocks se)) (cur_valid_map se) (mtime se).

(** The entry becomes the one of the coming checkpoint. *)
Definition seg_info_to_raw_sit (se : seg_entry) : f2fs_sit_entry * seg_entry :=
  let rs := __seg_info_to_raw_sit se in
  (rs, mk_seg (se_type se) (valid_blocks se) (valid_blocks se) (cur_valid_map se) (rs_valid_map rs)
         (discard_map se) (mtime se)).

(** ** Access *)

Section sit.
Variable ly : layout.

Let g : geom := ly_geom ly.

(** [GET_SEGNO]: of an address of the main area. *)
Definition GET_SEGNO (blk_addr : Z) : Z :=
  if (blk_addr =? NULL_ADDR) || (blk_addr =? NEW_ADDR) then NULL_SEGNO
  else u32 (Z.shiftr (u32 (blk_addr - seg0_blkaddr ly)) log_blocks_per_seg - start_segno ly).

Definition GET_BLKOFF_FROM_SEG0 (blk_addr : Z) : Z := u32 (blk_addr - seg0_blkaddr ly) .& (blocks_per_seg - 1).

Definition START_BLOCK (segno : Z) : Z :=
  u32 (seg0_blkaddr ly + u32 (Z.shiftl (u32 (segno + start_segno ly)) log_blocks_per_seg)).

Definition get_seg_entry (segno : Z) (s : sit_info) : seg_entry := zget seg0 (sentries s) segno.
Definition put_seg_entry (segno : Z) (se : seg_entry) (s : sit_info) : sit_info :=
  mk_sit (zset (sentries s) segno se) (sec_entries s) (dirty_sentries_bitmap s) (dirty_sentries s)
    (written_valid_blocks s) (max_mtime s) (discard_blks s) (need_fsck s).

Definition get_sec_entry (segno : Z) (s : sit_info) : Z := zget 0 (sec_entries s) (GET_SEC_FROM_SEG g segno).

Definition get_valid_blocks (segno : Z) (use_section : bool) (s : sit_info) : Z :=
  if use_section && (1 <? segs_per_sec g) then get_sec_entry segno s else valid_blocks (get_seg_entry segno s).

Definition set_need_fsck (x : bool) (s : sit_info) : sit_info :=
  mk_sit (sentries s) (sec_entries s) (dirty_sentries_bitmap s) (dirty_sentries s) (written_valid_blocks s) (max_mtime s)
    (discard_blks s) x.

(** [check_block_count], without CONFIG_F2FS_CHECK_FS. *)
Definition check_block_count (segno : Z) (raw_sit : f2fs_sit_entry) (s : sit_info) : Z * sit_info :=
  if (blocks_per_seg <? GET_SIT_VBLOCKS raw_sit) || (u32 (segment_count ly - 1) <? u32 segno)
  then (- EINVAL, set_need_fsck true s) else (0, s).

(** ** Updates *)

Definition __mark_sit_entry_dirty (segno : Z) (s : sit_info) : bool * sit_info :=
  if test_bit segno (dirty_sentries_bitmap s) then (true, s)
  else (false, mk_sit (sentries s) (sec_entries s) ({[segno]} ∪ dirty_sentries_bitmap s) (u32 (dirty_sentries s + 1))
                 (written_valid_blocks s) (max_mtime s) (discard_blks s) (need_fsck s)).

Definition __set_sit_entry_type (type segno : Z) (modified : bool) (s : sit_info) : sit_info :=
  let s := put_seg_entry segno (set_se_type (bits6 type) (get_seg_entry segno s)) s in
  if modified then (__mark_sit_entry_dirty segno s).2 else s.

(** The part of [update_sit_entry] that changes the maps of the entry: the
    entry, the change [del] to account for, the change of [discard_blks], and
    whether the map was wrong. *)
Definition set_valid (discard_en : bool) (offset del : Z) (se : seg_entry) : seg_entry * Z * Z * bool :=
  let '(existed, cur) := f2fs_test_and_set_bit offset (cur_valid_map se) in
  let existed := c_true existed in
  let vblocks := if existed then bits10 (valid_blocks se - 1) else valid_blocks se in
  let del := if existed then 0 else del in
  let '(dset, dmap) := f2fs_test_and_set_bit offset (discard_map se) in
  let '(dmap, dblks) := if discard_en then (dmap, if c_true dset then 0 else -1) else (discard_map se, 0) in
  let '(cset, cmap) := f2fs_test_and_set_bit offset (ckpt_valid_map se) in
  let '(cmap, cvb) :=
    if se_type se =? CURSEG_WARM_NODE
    then (cmap, if c_true cset then ckpt_valid_blocks se else bits10 (ckpt_valid_blocks se + 1))
    else (ckpt_valid_map se, ckpt_valid_blocks se) in
  (mk_seg (se_type se) vblocks cvb cur cmap dmap (mtime se), del, dblks, existed).

Definition clear_valid (discard_en : bool) (offset del : Z) (se : seg_entry) : seg_entry * Z * Z * bool :=
  let '(existed, cur) := f2fs_test_and_clear_bit offset (cur_valid_map se) in
  let existed := c_true existed in
  let vblocks := if existed then valid_blocks se else bits10 (valid_blocks se + 1) in
  let del := if existed then del else 0 in
  let '(dset, dmap) := f2fs_test_and_clear_bit offset (discard_map se) in
  let '(dmap, dblks) := if discard_en then (dmap, if c_true dset then 1 else 0) else (discard_map se, 0) in
  (mk_seg (se_type se) vblocks (ckpt_valid_blocks se) cur (ckpt_valid_map se) dmap (mtime se), del, dblks, negb existed).

(** What [update_sit_entry] does to the entry of the segment; [now] is
    [get_mtime(sbi)]. *)
Definition update_seg_entry (discard_en : bool) (now offset del : Z) (se : seg_entry) : seg_entry * Z * Z * bool :=
  let new_vblocks := valid_blocks se + del in
  let bug := c_true (Z.shiftr new_vblocks 16) || (blocks_per_seg <? new_vblocks) in
  let se := mk_seg (se_type se) (bits10 new_vblocks) (ckpt_valid_blocks se) (cur_valid_map se)
              (ckpt_valid_map se) (discard_map se) now in
  let '(se, del, dblks, wrong) := if 0 <? del then set_valid discard_en offset del se
                                  else clear_valid discard_en offset del se in
  let se := if c_true (f2fs_test_bit offset (ckpt_valid_map se)) then se
            else mk_seg (se_type se) (valid_blocks se) (bits10 (ckpt_valid_blocks se + del)) (cur_valid_map se)
                   (ckpt_valid_map se) (discard_map se) (mtime se) in
  (se, del, dblks, bug || wrong).

(** The rest of [update_sit_entry]: the changed entry and the counters. *)
Definition account_sit_entry (segno : Z) (se : seg_entry) (del dblks now : Z) (wrong : bool) (s : sit_info) : sit_info :=
  let s := (__mark_sit_entry_dirty segno (put_seg_entry segno se s)).2 in
  mk_sit (sentries s)
    (if 1 <? segs_per_sec g
     then zset (sec_entries s) (GET_SEC_FROM_SEG g segno) (u32 (zget 0 (sec_entries s) (GET_SEC_FROM_SEG g segno) + del))
     else sec_entries s)
    (dirty_sentries_bitmap s) (dirty_sentries s) (u32 (written_valid_blocks s + del)) now
    (u32 (discard_blks s + dblks)) (need_fsck s || wrong).

Definition update_sit_entry (discard_en : bool) (now blkaddr del : Z) (s : sit_info) : sit_info :=
  let segno := GET_SEGNO blkaddr in
  let offset := GET_BLKOFF_FROM_SEG0 blkaddr in
  let '(se, del, dblks, wrong) := update_seg_entry discard_en now offset del (get_seg_entry segno s) in
  account_sit_entry segno se del dblks now wrong s.

Definition is_checkpointed_data (blkaddr : Z) (s : sit_info) : bool :=
  if (blkaddr =? NEW_ADDR) || (blkaddr =? NULL_ADDR) then true
  else c_true (f2fs_test_bit (GET_BLKOFF_FROM_SEG0 blkaddr) (ckpt_valid_map (get_seg_entry (GET_SEGNO blkaddr) s))).

(** ** Counting *)

Fixpoint count_if (P : Z -> bool) (n : nat) : Z :=
  match n with
  | O => 0
  | S n => count_if P n + c_int (P (Z.of_nat n))
  end.

Lemma count_if_ext P Q n : (forall i, 0 <= i < Z.of_nat n -> P i = Q i) -> count_if P n = count_if Q n.
Proof.
  induction n as [|n IH]; intros H; [done|]. simpl. rewrite IH, H by (intros; apply H || lia; lia). done.
Qed.

Lemma count_if_flip P Q n i :
  0 <= i < Z.of_nat n -> (forall j, 0 <= j < Z.of_nat n -> j <> i -> Q j = P j) ->
  count_if Q n = count_if P n + c_int (Q i) - c_int (P i).
Proof.
  induction n as [|n IH]; intros Hi HQ; [lia|]. simpl.
  destruct (decide (i = Z.of_nat n)) as [->|Hn].
  - rewrite (count_if_ext Q P n) by (intros j Hj; apply HQ; lia). lia.
  - rewrite IH by (lia || (intros; apply HQ; lia)). rewrite (HQ (Z.of_nat n)) by lia. lia.
Qed.

Lemma count_if_bound P n : 0 <= count_if P n <= Z.of_nat n.
Proof. induction n as [|n IH]; simpl; [lia|]. destruct (P (Z.of_nat n)); simpl; lia. Qed.

Lemma count_if_true n : count_if (fun _ => true) n = Z.of_nat n.
Proof. induction n as [|n IH]; [done|]. simpl count_if. rewrite IH. simpl c_int. lia. Qed.

Lemma count_if_lt P n i : 0 <= i < Z.of_nat n -> P i = false -> count_if P n < Z.of_nat n.
Proof.
  intros Hi HP. set (Q := fun j => (j =? i) || P j). pose proof (count_if_bound Q n).
  rewrite (count_if_flip P Q n i Hi) in H.
  - unfold Q in H. rewrite Z.eqb_refl, HP in H. simpl in H. lia.
  - intros j _ Hj. unfold Q. by rewrite (proj2 (Z.eqb_neq _ _)).
Qed.

Lemma count_if_gt P n i : 0 <= i < Z.of_nat n -> P i = true -> 0 < count_if P n.
Proof.
  intros Hi HP. set (Q := fun j => negb (j =? i) && P j). pose proof (count_if_bound Q n).
  rewrite (count_if_flip P Q n i Hi) in H.
  - unfold Q in H. rewrite Z.eqb_refl, HP in H. simpl in H. lia.
  - intros j _ Hj. unfold Q. by rewrite (proj2 (Z.eqb_neq _ _)).
Qed.

Lemma count_if_none P n : count_if P n = 0 -> forall i, 0 <= i < Z.of_nat n -> P i = false.
Proof.
  intros H i Hi. destruct (P i) eqn:E; [|done]. pose proof (count_if_gt P n i Hi E). lia.
Qed.

Lemma count_if_all_false P n : (forall i, 0 <= i < Z.of_nat n -> P i = false) -> count_if P n = 0.
Proof.
  induction n as [|n IH]; intros H; [done|]. simpl. rewrite IH by (intros; apply H; lia). by rewrite H by lia.
Qed.

Fixpoint zsum {A} (f : A -> Z) (l : list A) : Z :=
  match l with [] => 0 | x :: l => f x + zsum f l end.

Lemma zsum_zset {A} (f : A -> Z) d l i v :
  0 <= i < zlen l -> zsum f (zset l i v) = zsum f l - f (zget d l i) + f v.
Proof.
  intros Hi. unfold zset, zget, zlen in *. case_if; [|lia]. clear E.
  assert (Hn : (Z.to_nat i < length l)%nat) by lia. clear Hi. revert Hn. generalize (Z.to_nat i). clear i.
  induction l as [|x l IH]; intros [|n] Hi; simpl in *; try lia.
  rewrite IH by lia. lia.
Qed.

Lemma zsum_elem {A} (f : A -> Z) d l i : Forall (fun x => 0 <= f x) l -> 0 <= i < zlen l -> f (zget d l i) <= zsum f l.
Proof.
  intros Hf Hi. pose proof (lookup_zget d l i Hi) as Hl. apply list_elem_of_lookup_2 in Hl. revert Hl. generalize (zget d l i). intros x Hx.
  assert (Hz : forall k, Forall (fun x => 0 <= f x) k -> 0 <= zsum f k) by (induction 1; simpl; lia).
  clear Hi. induction Hf as [|y k Hy Hk IH]; [by apply not_elem_of_nil in Hx|]. simpl. pose proof (Hz k Hk).
  apply elem_of_cons in Hx as [->|Hx]; [lia|]. specialize (IH Hx). lia.
Qed.

Lemma zsum_bound {A} (f : A -> Z) l b : Forall (fun x => 0 <= f x <= b) l -> 0 <= zsum f l <= b * zlen l.
Proof. unfold zlen. induction 1; simpl length; simpl zsum; lia. Qed.

(** ** Invariants *)

Definition bm_count (m : list Z) : Z := count_if (bm_get m) 512.
Definition union_count (m m' : list Z) : Z := count_if (fun i => bm_get m i || bm_get m' i) 512.

#[global] Arguments bm_count : simpl never.
#[global] Arguments union_count : simpl never.

Definition map_ok (m : list Z) : Prop := zlen m = 64 /\ bytes_ok m.

(** The counters of an entry count its maps; [ckpt_valid_blocks] counts the
    blocks valid now or in the last checkpoint. *)
Record seg_wf (se : seg_entry) : Prop := {
  gw_type : 0 <= se_type se <= 5;
  gw_cur : map_ok (cur_valid_map se);
  gw_ckpt : map_ok (ckpt_valid_map se);
  gw_discard : map_ok (discard_map se);
  gw_valid : valid_blocks se = bm_count (cur_valid_map se);
  gw_ckpt_valid : ckpt_valid_blocks se = union_count (cur_valid_map se) (ckpt_valid_map se)
}.

Lemma map_set m i : map_ok m -> map_ok (f2fs_set_bit i m).
Proof. intros [H1 H2]. unfold f2fs_set_bit. split; [by rewrite zlen_zset|by apply bytes_zset_u8]. Qed.
Lemma map_clear m i : map_ok m -> map_ok (f2fs_clear_bit i m).
Proof. intros [H1 H2]. unfold f2fs_clear_bit. split; [by rewrite zlen_zset|by apply bytes_zset_u8]. Qed.

Lemma set_bit_at m i j : map_ok m -> 0 <= i < 512 -> bm_get (f2fs_set_bit i m) j = bm_get m j || (i =? j).
Proof. intros [H1 _] Hi. apply set_bit_get. unfold bm_bits. lia. Qed.
Lemma clear_bit_at m i j : map_ok m -> 0 <= i < 512 -> bm_get (f2fs_clear_bit i m) j = bm_get m j && negb (i =? j).
Proof. intros [H1 _] Hi. apply clear_bit_get. unfold bm_bits. lia. Qed.

(** Setting and clearing a bit of a map, as far as the counts go. *)
Lemma bm_count_set m i : map_ok m -> 0 <= i < 512 ->
  bm_count (f2fs_set_bit i m) = bm_count m + c_int (negb (bm_get m i)).
Proof.
  intros Hm Hi. unfold bm_count. rewrite (count_if_flip (bm_get m) (bm_get (f2fs_set_bit i m)) 512 i); [|lia|].
  - rewrite set_bit_at, Z.eqb_refl, orb_true_r by done. destruct (bm_get m i); cbn [c_int negb]; lia.
  - intros j _ Hj. rewrite set_bit_at, (proj2 (Z.eqb_neq i j)), orb_false_r by (done || lia). done.
Qed.

Lemma bm_count_clear m i : map_ok m -> 0 <= i < 512 ->
  bm_count (f2fs_clear_bit i m) = bm_count m - c_int (bm_get m i).
Proof.
  intros Hm Hi. unfold bm_count. rewrite (count_if_flip (bm_get m) (bm_get (f2fs_clear_bit i m)) 512 i); [|lia|].
  - rewrite clear_bit_at, Z.eqb_refl, andb_false_r by done. cbn [c_int]. lia.
  - intros j _ Hj. rewrite clear_bit_at, (proj2 (Z.eqb_neq i j)), andb_true_r by (done || lia). done.
Qed.

Lemma union_count_change m m' n n' i : 0 <= i < 512 ->
  (forall j, j <> i -> bm_get n j || bm_get n' j = bm_get m j || bm_get m' j) ->
  union_count n n' = union_count m m' + c_int (bm_get n i || bm_get n' i) - c_int (bm_get m i || bm_get m' i).
Proof.
  intros Hi H. unfold union_count.
  by rewrite (count_if_flip (fun i => bm_get m i || bm_get m' i) (fun i => bm_get n i || bm_get n' i) 512 i) by (lia || auto).
Qed.

Lemma union_count_same m : union_count m m = bm_count m.
Proof.
  unfold union_count, bm_count.
  rewrite (count_if_ext (fun i => bm_get m i || bm_get m i) (bm_get m) 512); [reflexivity|]. intros i _. apply orb_diag.
Qed.

Lemma bm_count_bound m : 0 <= bm_count m <= 512.
Proof. apply (count_if_bound (bm_get m) 512). Qed.
Lemma union_count_bound m m' : 0 <= union_count m m' <= 512.
Proof. apply (count_if_bound (fun i => bm_get m i || bm_get m' i) 512). Qed.
Lemma bm_count_none m : bm_count m = 0 -> forall i, 0 <= i < 512 -> bm_get m i = false.
Proof. unfold bm_count. intros H i Hi. apply (count_if_none (bm_get m) 512 H). lia. Qed.
Lemma bits10_small x : 0 <= x <= 512 -> bits10 x = x.
Proof. intros. apply Z.mod_small. lia. Qed.

Lemma union_count_full m m' :
  (forall i, 0 <= i < 512 -> bm_get m i || bm_get m' i = true) -> union_count m m' = 512.
Proof.
  intros H. unfold union_count. rewrite (count_if_ext _ (fun _ => true)); [apply (count_if_true 512)|].
  intros i Hi. by apply H.
Qed.

(** ** Updating an entry *)

Lemma union_count_set m m' i : map_ok m -> 0 <= i < 512 ->
  union_count (f2fs_set_bit i m) m' = union_count m m' + c_int (negb (bm_get m i || bm_get m' i)).
Proof.
  intros Hm Hi. rewrite (union_count_change m m' _ _ i Hi).
  - rewrite set_bit_at, Z.eqb_refl, orb_true_r by done. destruct (bm_get m i || bm_get m' i); simpl; lia.
  - intros j Hj. by rewrite set_bit_at, (proj2 (Z.eqb_neq i j)), orb_false_r by (done || lia).
Qed.

Lemma union_count_clear m m' i : map_ok m -> 0 <= i < 512 ->
  union_count (f2fs_clear_bit i m) m' = union_count m m' - c_int (bm_get m i && negb (bm_get m' i)).
Proof.
  intros Hm Hi. rewrite (union_count_change m m' _ _ i Hi).
  - rewrite clear_bit_at, Z.eqb_refl, andb_false_r by done. destruct (bm_get m i), (bm_get m' i); simpl; lia.
  - intros j Hj. by rewrite clear_bit_at, (proj2 (Z.eqb_neq i j)), andb_true_r by (done || lia).
Qed.

Lemma union_count_ckpt m m' i : map_ok m' -> 0 <= i < 512 -> bm_get m i = true ->
  union_count m (f2fs_set_bit i m') = union_count m m'.
Proof.
  intros Hm Hi Hb. rewrite (union_count_change m m' _ _ i Hi).
  - rewrite Hb. simpl. lia.
  - intros j Hj. by rewrite set_bit_at, (proj2 (Z.eqb_neq i j)), orb_false_r by (done || lia).
Qed.

(** The change [discard_blks] gets for the discard map. *)
Definition discarded (m : list Z) : Z := 512 - bm_count m.

(** What a right update does to an entry: [del] is 1 for an invalid block, -1
    for a valid one. *)
Definition seg_updated (discard_en : bool) (now offset del dblks : Z) (se se' : seg_entry) : Prop :=
  seg_wf se' /\ se_type se' = se_type se /\ mtime se' = now /\
  valid_blocks se' = valid_blocks se + del /\
  (forall j, bm_get (cur_valid_map se') j = if j =? offset then 0 <? del else bm_get (cur_valid_map se) j) /\
  (forall j, bm_get (ckpt_valid_map se') j =
     bm_get (ckpt_valid_map se) j || (j =? offset) && (0 <? del) && (se_type se =? CURSEG_WARM_NODE)) /\
  dblks = if discard_en then discarded (discard_map se') - discarded (discard_map se) else 0.

(** The new discard map and the change it makes. *)
Lemma discard_set (discard_en : bool) m offset :
  map_ok m -> 0 <= offset < 512 ->
  let '(m', d) := if discard_en then (f2fs_set_bit offset m, if bm_get m offset then 0 else -1) else (m, 0) in
  map_ok m' /\ d = if discard_en then discarded m' - discarded m else 0.
Proof.
  intros Hm Ho. destruct discard_en; [|done]. split; [by apply map_set|].
  unfold discarded. rewrite bm_count_set by done. destruct (bm_get m offset); simpl; lia.
Qed.

Lemma discard_clear (discard_en : bool) m offset :
  map_ok m -> 0 <= offset < 512 ->
  let '(m', d) := if discard_en then (f2fs_clear_bit offset m, if bm_get m offset then 1 else 0) else (m, 0) in
  map_ok m' /\ d = if discard_en then discarded m' - discarded m else 0.
Proof.
  intros Hm Ho. destruct discard_en; [|done]. split; [by apply map_clear|].
  unfold discarded. rewrite bm_count_clear by done. destruct (bm_get m offset); simpl; lia.
Qed.

Lemma no_bug n : 0 <= n <= 512 -> c_true (Z.shiftr n 16) || (blocks_per_seg <? n) = false.
Proof.
  intros Hn. rewrite Z.shiftr_div_pow2, Z.div_small by lia. simpl. apply Z.ltb_ge. unfold blocks_per_seg. lia.
Qed.

Lemma update_seg_set discard_en now offset se :
  seg_wf se -> 0 <= offset < 512 -> bm_get (cur_valid_map se) offset = false ->
  let '(se', del', dblks, wrong) := update_seg_entry discard_en now offset 1 se in
  wrong = false /\ del' = 1 /\ seg_updated discard_en now offset 1 dblks se se'.
Proof.
  intros [W1 W2 W3 W4 W5 W6] Ho Hb. unfold update_seg_entry.
  pose proof (bm_count_bound (f2fs_set_bit offset (cur_valid_map se))) as B1.
  pose proof (union_count_bound (f2fs_set_bit offset (cur_valid_map se)) (ckpt_valid_map se)) as B2.
  pose proof (bm_count_bound (cur_valid_map se)) as B3.
  rewrite bm_count_set, Hb in B1 by done. rewrite union_count_set, Hb in B2 by done. simpl in B1, B2.
  rewrite no_bug by lia. unfold set_valid. rewrite !test_and_set_split, !test_bit_get. cbn -[f2fs_set_bit bm_get].
  rewrite Hb. rewrite (bits10_small (valid_blocks se + 1)) by lia.
  pose proof (discard_set discard_en (discard_map se) offset W4 Ho) as Hd.
  destruct (if discard_en then _ else _) as [dmap d]. destruct Hd as [Hd1 Hd2].
  assert (Hcur : forall j, bm_get (f2fs_set_bit offset (cur_valid_map se)) j =
    if j =? offset then true else bm_get (cur_valid_map se) j).
  { intros j. rewrite set_bit_at, (Z.eqb_sym offset) by done. case_if; [by rewrite orb_true_r|by rewrite orb_false_r]. }
  assert (Hcount : valid_blocks se + 1 = bm_count (f2fs_set_bit offset (cur_valid_map se)))
    by (rewrite bm_count_set, Hb by done; simpl; lia).
  pose proof (union_count_set (cur_valid_map se) (ckpt_valid_map se) offset W2 Ho) as Hun. rewrite Hb in Hun. simpl in Hun.
  unfold seg_updated. destruct (se_type se =? CURSEG_WARM_NODE) eqn:Et.
  - assert (Hck : forall j, bm_get (f2fs_set_bit offset (ckpt_valid_map se)) j =
      bm_get (ckpt_valid_map se) j || (j =? offset) && (0 <? 1) && true)
      by (intros j; by rewrite set_bit_at, (Z.eqb_sym offset), !andb_true_r).
    cbn [ckpt_valid_map]. rewrite test_bit_get, Hck, Z.eqb_refl, orb_true_r. split; [done|]. split; [done|]. split_and!; simpl; try done.
    split; simpl; try done; [by apply map_set..|].
    rewrite union_count_ckpt, Hun, W6 by (done || by rewrite Hcur, Z.eqb_refl).
    destruct (bm_get (ckpt_valid_map se) offset); simpl; [lia|]. rewrite bits10_small; simpl in *; lia.
  - assert (Hck : forall j, bm_get (ckpt_valid_map se) j =
      bm_get (ckpt_valid_map se) j || (j =? offset) && (0 <? 1) && false)
      by (intros j; by rewrite !andb_false_r, orb_false_r).
    cbn [ckpt_valid_map]. rewrite test_bit_get.
    destruct (bm_get (ckpt_valid_map se) offset) eqn:Ec; (split; [done|]); (split; [done|]); split_and!; simpl; try done;
      split; simpl; try done; try (by apply map_set); rewrite Hun, W6; simpl in *; [lia|]. rewrite bits10_small; lia.
Qed.

Lemma update_seg_clear discard_en now offset se :
  seg_wf se -> 0 <= offset < 512 -> bm_get (cur_valid_map se) offset = true ->
  let '(se', del', dblks, wrong) := update_seg_entry discard_en now offset (-1) se in
  wrong = false /\ del' = -1 /\ seg_updated discard_en now offset (-1) dblks se se'.
Proof.
  intros [W1 W2 W3 W4 W5 W6] Ho Hb. unfold update_seg_entry.
  pose proof (bm_count_bound (f2fs_clear_bit offset (cur_valid_map se))) as B1.
  pose proof (union_count_bound (f2fs_clear_bit offset (cur_valid_map se)) (ckpt_valid_map se)) as B2.
  pose proof (bm_count_bound (cur_valid_map se)) as B3. pose proof (union_count_bound (cur_valid_map se) (ckpt_valid_map se)) as B4.
  rewrite bm_count_clear, Hb in B1 by done. rewrite union_count_clear, Hb in B2 by done. simpl in B1, B2.
  rewrite no_bug by lia. unfold clear_valid. rewrite !test_and_clear_split, !test_bit_get. cbn -[f2fs_clear_bit bm_get].
  rewrite Hb. rewrite (bits10_small (valid_blocks se + -1)) by lia.
  pose proof (discard_clear discard_en (discard_map se) offset W4 Ho) as Hd.
  destruct (if discard_en then _ else _) as [dmap d]. destruct Hd as [Hd1 Hd2].
  assert (Hcur : forall j, bm_get (f2fs_clear_bit offset (cur_valid_map se)) j =
    if j =? offset then false else bm_get (cur_valid_map se) j).
  { intros j. rewrite clear_bit_at, (Z.eqb_sym offset) by done. case_if; [by rewrite andb_false_r|by rewrite andb_true_r]. }
  assert (Hcount : valid_blocks se + -1 = bm_count (f2fs_clear_bit offset (cur_valid_map se)))
    by (rewrite bm_count_clear, Hb by done; simpl; lia).
  pose proof (union_count_clear (cur_valid_map se) (ckpt_valid_map se) offset W2 Ho) as Hun. rewrite Hb in Hun. simpl in Hun.
  assert (Hck : forall j, bm_get (ckpt_valid_map se) j =
    bm_get (ckpt_valid_map se) j || (j =? offset) && (0 <? -1) && (se_type se =? CURSEG_WARM_NODE))
    by (intros j; by rewrite andb_false_r, orb_false_r).
  unfold seg_updated. cbn [ckpt_valid_map]. rewrite test_bit_get.
  destruct (bm_get (ckpt_valid_map se) offset) eqn:Ec; (split; [done|]); (split; [done|]); split_and!; simpl; try done;
    split; simpl; try done; try (by apply map_clear); rewrite Hun, W6; simpl in *; [lia|]. rewrite bits10_small; lia.
Qed.

(** A wrong update, of a block already valid or already invalid, is undone,
    the counters in the 10-bit fields included, and reported. *)
Definition seg_restored (discard_en : bool) (dblks : Z) (se se' : seg_entry) : Prop :=
  seg_wf se' /\ se_type se' = se_type se /\ valid_blocks se' = valid_blocks se /\
  (forall j, bm_get (cur_valid_map se') j = bm_get (cur_valid_map se) j) /\
  (forall j, bm_get (ckpt_valid_map se') j = bm_get (ckpt_valid_map se) j) /\
  dblks = if discard_en then discarded (discard_map se') - discarded (discard_map se) else 0.

Lemma bits10_undo x a : 0 <= x <= 512 -> bits10 (bits10 (x + a) - a) = x.
Proof. intros Hx. unfold bits10. rewrite Zminus_mod_idemp_l, Z.add_simpl_r. apply Z.mod_small. lia. Qed.

(** Maps with the same bits have the same counts. *)
Lemma counts_same m m' n : (forall j, bm_get m j = bm_get m' j) ->
  bm_count m = bm_count m' /\ union_count m n = union_count m' n /\ union_count n m = union_count n m'.
Proof.
  intros H. unfold bm_count, union_count.
  split_and!; apply count_if_ext; intros i _; by rewrite H.
Qed.

Lemma update_seg_reset discard_en now offset se :
  seg_wf se -> 0 <= offset < 512 -> bm_get (cur_valid_map se) offset = true ->
  (se_type se <> CURSEG_WARM_NODE \/ bm_get (ckpt_valid_map se) offset = true) ->
  let '(se', del', dblks, wrong) := update_seg_entry discard_en now offset 1 se in
  wrong = true /\ del' = 0 /\ seg_restored discard_en dblks se se'.
Proof.
  intros [W1 W2 W3 W4 W5 W6] Ho Hb Hw. unfold update_seg_entry.
  pose proof (bm_count_bound (cur_valid_map se)) as B1.
  pose proof (union_count_bound (cur_valid_map se) (ckpt_valid_map se)) as B2.
  unfold set_valid. rewrite !test_and_set_split, !test_bit_get. cbn -[f2fs_set_bit bm_get]. rewrite Hb.
  pose proof (discard_set discard_en (discard_map se) offset W4 Ho) as Hd.
  destruct (if discard_en then _ else _) as [dmap d]. destruct Hd as [Hd1 Hd2].
  rewrite bits10_undo by lia.
  assert (Hcur : forall j, bm_get (f2fs_set_bit offset (cur_valid_map se)) j = bm_get (cur_valid_map se) j).
  { intros j. rewrite set_bit_at by done. destruct (Z.eqb_spec offset j) as [<-|]; [by rewrite Hb|by rewrite orb_false_r]. }
  destruct (counts_same _ _ (ckpt_valid_map se) Hcur) as (C1 & C2 & _). pose proof (map_set _ offset W2) as M1.
  set (cur := f2fs_set_bit offset (cur_valid_map se)) in *. clearbody cur. unfold seg_restored.
  destruct (Z.eqb_spec (se_type se) CURSEG_WARM_NODE) as [Et|Et].
  - destruct Hw as [|Hck]; [done|]. rewrite Hck. cbn [ckpt_valid_map]. rewrite test_bit_get, set_bit_at, Hck by done.
    assert (Hcks : forall j, bm_get (f2fs_set_bit offset (ckpt_valid_map se)) j = bm_get (ckpt_valid_map se) j).
    { intros j. rewrite set_bit_at by done. destruct (Z.eqb_spec offset j) as [<-|]; [by rewrite Hck|by rewrite orb_false_r]. }
    rewrite orb_true_r. split; [done|]. split; [done|]. split_and!; simpl; try done. split; simpl; try done.
    + by apply map_set.
    + congruence.
    + destruct (counts_same _ _ cur Hcks) as (_ & _ & C3). congruence.
  - cbn [se_type valid_blocks ckpt_valid_blocks cur_valid_map ckpt_valid_map discard_map mtime]. rewrite Z.add_0_r, (bits10_small (ckpt_valid_blocks se)), orb_true_r by lia.
    split; [done|]. split; [done|]. case_if; simpl; (split; [split; simpl; try done; congruence|done]).
Qed.

Lemma update_seg_reclear discard_en now offset se :
  seg_wf se -> 0 <= offset < 512 -> bm_get (cur_valid_map se) offset = false ->
  let '(se', del', dblks, wrong) := update_seg_entry discard_en now offset (-1) se in
  wrong = true /\ del' = 0 /\ seg_restored discard_en dblks se se'.
Proof.
  intros [W1 W2 W3 W4 W5 W6] Ho Hb. unfold update_seg_entry.
  pose proof (bm_count_bound (cur_valid_map se)) as B1.
  pose proof (union_count_bound (cur_valid_map se) (ckpt_valid_map se)) as B2.
  unfold clear_valid. rewrite !test_and_clear_split, !test_bit_get. cbn -[f2fs_clear_bit bm_get]. rewrite Hb.
  pose proof (discard_clear discard_en (discard_map se) offset W4 Ho) as Hd.
  destruct (if discard_en then _ else _) as [dmap d]. destruct Hd as [Hd1 Hd2].
  assert (Hu : bits10 (bits10 (valid_blocks se + -1) + 1) = valid_blocks se)
    by (rewrite <- (Z.sub_opp_r _ 1); apply bits10_undo; lia).
  rewrite Hu.
  assert (Hcur : forall j, bm_get (f2fs_clear_bit offset (cur_valid_map se)) j = bm_get (cur_valid_map se) j).
  { intros j. rewrite clear_bit_at by done. destruct (Z.eqb_spec offset j) as [<-|]; [by rewrite Hb|by rewrite andb_true_r]. }
  destruct (counts_same _ _ (ckpt_valid_map se) Hcur) as (C1 & C2 & _). pose proof (map_clear _ offset W2) as M1.
  set (cur := f2fs_clear_bit offset (cur_valid_map se)) in *. clearbody cur. unfold seg_restored.
  cbn [se_type valid_blocks ckpt_valid_blocks cur_valid_map ckpt_valid_map discard_map mtime]. rewrite Z.add_0_r, (bits10_small (ckpt_valid_blocks se)), orb_true_r by lia.
  split; [done|]. split; [done|]. case_if; simpl; (split; [split; simpl; try done; congruence|done]).
Qed.

(** ** The table *)

Definition layout_ok : Prop :=
  geom_ok g /\ 0 < seg0_blkaddr ly /\ 0 <= start_segno ly /\
  start_segno ly + MAIN_SEGS g <= segment_count ly /\ segment_count ly < 2 ^ 32 /\
  seg0_blkaddr ly + 512 * (start_segno ly + MAIN_SEGS g) < 2 ^ 32.

Definition main_blkaddr : Z := seg0_blkaddr ly + 512 * start_segno ly.
Definition in_main (blk : Z) : Prop := main_blkaddr <= blk < main_blkaddr + 512 * MAIN_SEGS g.

(** The block is valid now. *)
Definition block_valid (s : sit_info) (blk : Z) : bool :=
  bm_get (cur_valid_map (get_seg_entry (GET_SEGNO blk) s)) (GET_BLKOFF_FROM_SEG0 blk).

(** The valid blocks of section [c]. *)
Definition sec_count (l : list seg_entry) (c : Z) : Z :=
  zsum (fun k => valid_blocks (zget seg0 l k)) (seqZ (c * segs_per_sec g) (segs_per_sec g)).

Variable discard_en : bool.

Record sit_wf (s : sit_info) : Prop := {
  sw_len : zlen (sentries s) = MAIN_SEGS g;
  sw_segs : Forall seg_wf (sentries s);
  sw_dirty : forall x, x ∈ dirty_sentries_bitmap s -> 0 <= x < MAIN_SEGS g;
  sw_dirty_cnt : dirty_sentries s = Z.of_nat (size (dirty_sentries_bitmap s));
  sw_clean : forall x, 0 <= x < MAIN_SEGS g -> x ∉ dirty_sentries_bitmap s ->
    ckpt_valid_map (get_seg_entry x s) = cur_valid_map (get_seg_entry x s);
  sw_written : written_valid_blocks s = zsum valid_blocks (sentries s);
  sw_sec_len : 1 < segs_per_sec g -> zlen (sec_entries s) = MAIN_SECS g;
  sw_secs : 1 < segs_per_sec g -> forall c, 0 <= c < MAIN_SECS g -> zget 0 (sec_entries s) c = sec_count (sentries s) c;
  sw_discard : discard_en = true -> discard_blks s = zsum (fun se => discarded (discard_map se)) (sentries s)
}.

Hypothesis Hly : layout_ok.

Lemma ly_geom_ok : geom_ok g.
Proof. apply Hly. Qed.

(** Addresses of the main area and positions in it. *)
Lemma main_address blk : in_main blk ->
  GET_SEGNO blk = (blk - main_blkaddr) / 512 /\ GET_BLKOFF_FROM_SEG0 blk = (blk - main_blkaddr) mod 512.
Proof.
  unfold in_main, main_blkaddr. destruct Hly as (_ & H1 & H2 & H3 & H4 & H5). intros Hb.
  unfold GET_SEGNO, GET_BLKOFF_FROM_SEG0, log_blocks_per_seg, blocks_per_seg.
  rewrite (proj2 (Z.eqb_neq blk NULL_ADDR)) by (unfold NULL_ADDR; lia).
  rewrite (proj2 (Z.eqb_neq blk NEW_ADDR)) by (unfold NEW_ADDR; lia). simpl orb. cbv iota.
  rewrite (u32_small (blk - _)) by lia. rewrite Z.shiftr_div_pow2 by lia. change (2 ^ 9) with 512.
  change (512 - 1) with (Z.ones 9). rewrite Z.land_ones by lia. change (2 ^ 9) with 512.
  rewrite u32_small by zdiv. split; zdiv.
Qed.

Lemma main_position blk : in_main blk ->
  0 <= GET_SEGNO blk < MAIN_SEGS g /\ 0 <= GET_BLKOFF_FROM_SEG0 blk < 512 /\
  blk = main_blkaddr + 512 * GET_SEGNO blk + GET_BLKOFF_FROM_SEG0 blk.
Proof. intros Hb. destruct (main_address blk Hb) as [-> ->]. unfold in_main in Hb. split_and!; zdiv. Qed.

Lemma start_block segno : 0 <= segno < MAIN_SEGS g -> START_BLOCK segno = main_blkaddr + 512 * segno.
Proof.
  intros Hs. unfold START_BLOCK, main_blkaddr, log_blocks_per_seg. destruct Hly as (_ & H1 & H2 & H3 & H4 & H5).
  rewrite (u32_small (segno + _)) by lia. rewrite Z.shiftl_mul_pow2 by lia. change (2 ^ 9) with 512.
  rewrite (u32_small ((segno + _) * 512)) by lia. rewrite u32_small by lia. lia.
Qed.

(** A position of the main area is the one of its block. *)
Lemma block_at segno off : 0 <= segno < MAIN_SEGS g -> 0 <= off < 512 ->
  let blk := START_BLOCK segno + off in
  in_main blk /\ GET_SEGNO blk = segno /\ GET_BLKOFF_FROM_SEG0 blk = off.
Proof.
  cbv zeta. intros Hs Ho. rewrite start_block by done.
  assert (Hin : in_main (main_blkaddr + 512 * segno + off)) by (unfold in_main; lia).
  destruct (main_address _ Hin) as [-> ->]. split; [done|]. split; zdiv.
Qed.

Lemma same_position b b' : in_main b -> in_main b' ->
  (GET_SEGNO b =? GET_SEGNO b') && (GET_BLKOFF_FROM_SEG0 b =? GET_BLKOFF_FROM_SEG0 b') = (b =? b').
Proof.
  intros Hb Hb'. destruct (main_position b Hb) as (_ & _ & E), (main_position b' Hb') as (_ & _ & E').
  destruct (Z.eqb_spec b b') as [->|Hne]; [by rewrite !Z.eqb_refl|].
  apply andb_false_iff. rewrite !Z.eqb_neq. lia.
Qed.

(** Sums over an interval of indices when one entry changes. *)
Lemma zsum_seqZ_change (f f' : Z -> Z) start n i :
  0 <= n -> (forall k, k <> i -> f' k = f k) ->
  zsum f' (seqZ start n) = zsum f (seqZ start n) +
    (if (start <=? i) && (i <? start + n) then f' i - f i else 0).
Proof.
  intros Hn Hf. rewrite <- (Z2Nat.id n) by done. generalize (Z.to_nat n). clear Hn n. intros n.
  revert start. induction n as [|n IH]; intros start.
  - case_if; [|done]. lia.
  - rewrite seqZ_cons by lia. simpl zsum. replace (Z.pred (Z.of_nat (S n))) with (Z.of_nat n) by lia.
    rewrite IH. destruct (decide (start = i)) as [->|Hs].
    + destruct (Z.leb_spec (Z.succ i) i), (Z.leb_spec i i), (Z.ltb_spec i (Z.succ i + Z.of_nat n)),
        (Z.ltb_spec i (i + Z.of_nat (S n))); simpl andb; cbv iota; lia.
    + rewrite Hf by done.
      destruct (Z.leb_spec (Z.succ start) i), (Z.leb_spec start i), (Z.ltb_spec i (Z.succ start + Z.of_nat n)),
        (Z.ltb_spec i (start + Z.of_nat (S n))); simpl andb; cbv iota; lia.
Qed.

(** Replacing the entry of segment [segno], with the counters following. *)
Lemma sec_count_put l segno se c :
  0 <= segno < zlen l -> 0 <= c < MAIN_SECS g ->
  sec_count (zset l segno se) c =
  sec_count l c + if c =? GET_SEC_FROM_SEG g segno then valid_blocks se - valid_blocks (zget seg0 l segno) else 0.
Proof.
  intros Hs Hc. unfold sec_count. pose proof ly_geom_ok as Hg. destruct (Hg) as (H1 & _).
  rewrite (zsum_seqZ_change (fun k => valid_blocks (zget seg0 l k)) _ _ _ segno) by
    (lia || (intros k Hk; by rewrite zget_zset_ne by lia)).
  f_equal. rewrite zget_zset_eq by done.
  pose proof (in_section g Hg c segno Hc) as Hin. rewrite (proj1 (seg_from_sec g Hg c ltac:(lia))) in Hin.
  destruct (Z.eqb_spec c (GET_SEC_FROM_SEG g segno)) as [Heq|Hne].
  - destruct (proj1 Hin (eq_sym Heq)). rewrite (proj2 (Z.leb_le _ _)), (proj2 (Z.ltb_lt _ _)) by lia. done.
  - case_if; [|done]. exfalso. apply Hne. symmetry. apply Hin. lia.
Qed.

Lemma mark_dirty_fields segno s :
  let s' := (__mark_sit_entry_dirty segno s).2 in
  sentries s' = sentries s /\ sec_entries s' = sec_entries s /\ written_valid_blocks s' = written_valid_blocks s /\
  discard_blks s' = discard_blks s /\ need_fsck s' = need_fsck s /\
  dirty_sentries_bitmap s' = {[segno]} ∪ dirty_sentries_bitmap s /\
  (dirty_sentries s = Z.of_nat (size (dirty_sentries_bitmap s)) -> dirty_sentries s + 1 < 2 ^ 32 ->
   dirty_sentries s' = Z.of_nat (size (dirty_sentries_bitmap s'))).
Proof.
  cbv zeta. unfold __mark_sit_entry_dirty. destruct (test_bit segno (dirty_sentries_bitmap s)) eqn:E; simpl.
  - apply test_bit_true in E. split_and!; try done. apply set_eq. intros x. set_solver.
  - apply test_bit_false in E. split_and!; try done. intros Hd Hb. rewrite size_add by done.
    rewrite u32_small; lia.
Qed.

Lemma dirty_bound s : sit_wf s -> dirty_sentries s <= MAIN_SEGS g < 2 ^ 32.
Proof.
  intros Hwf. pose proof (geom_bounds g ly_geom_ok) as Hb. rewrite (sw_dirty_cnt _ Hwf). split; [|lia].
  apply range_size; [lia|apply Hwf].
Qed.

Lemma get_put_seg segno se s x : sit_wf s -> 0 <= segno < MAIN_SEGS g ->
  get_seg_entry x (put_seg_entry segno se s) = if segno =? x then se else get_seg_entry x s.
Proof. intros Hwf Hs. unfold get_seg_entry. simpl. rewrite zget_zset by (rewrite (sw_len _ Hwf); lia). done. Qed.

Lemma seg_entry_wf segno s : sit_wf s -> 0 <= segno < MAIN_SEGS g -> seg_wf (get_seg_entry segno s).
Proof.
  intros Hwf Hs. unfold get_seg_entry. eapply Forall_lookup_1; [apply (sw_segs _ Hwf)|].
  apply lookup_zget. rewrite (sw_len _ Hwf). lia.
Qed.

Lemma total_bound s : sit_wf s -> 0 <= zsum valid_blocks (sentries s) <= 512 * MAIN_SEGS g.
Proof.
  intros Hwf. rewrite <- (sw_len _ Hwf). apply zsum_bound. eapply Forall_impl; [apply (sw_segs _ Hwf)|].
  intros se Hse. rewrite (gw_valid _ Hse). apply bm_count_bound.
Qed.

Lemma zsum_seqZ_bound (f : Z -> Z) b start n : 0 <= n -> (forall k, start <= k < start + n -> 0 <= f k <= b) ->
  0 <= zsum f (seqZ start n) <= b * n.
Proof.
  intros Hn Hf. replace (b * n) with (b * zlen (seqZ start n)) by (unfold zlen; rewrite length_seqZ, Z2Nat.id; done).
  apply zsum_bound. apply Forall_forall. intros k Hk%elem_of_seqZ. by apply Hf.
Qed.

Lemma main_blocks : 512 * MAIN_SEGS g < 2 ^ 32.
Proof. destruct Hly as (_ & H1 & H2 & H3 & H4 & H5). lia. Qed.

Lemma sec_count_bound l c : Forall seg_wf l -> zlen l = MAIN_SEGS g -> 0 <= c < MAIN_SECS g -> 0 <= sec_count l c < 2 ^ 32.
Proof.
  intros Hl Hlen Hc. pose proof (geom_bounds g ly_geom_ok). pose proof main_blocks.
  pose proof (seg_from_sec g ly_geom_ok c ltac:(lia)). pose proof (seg_from_sec g ly_geom_ok (c + 1) ltac:(lia)).
  destruct ly_geom_ok as (G1 & _). unfold sec_count.
  pose proof (zsum_seqZ_bound (fun k => valid_blocks (zget seg0 l k)) 512 (c * segs_per_sec g) (segs_per_sec g)) as Hb.
  destruct Hb as [Hb1 Hb2]; [lia| |nia]. intros k Hk.
  assert (Hwf : seg_wf (zget seg0 l k)) by (eapply Forall_lookup_1; [exact Hl|apply lookup_zget; lia]).
  rewrite (gw_valid _ Hwf). apply bm_count_bound.
Qed.

(** Storing a changed entry with its counters keeps the table well-formed. *)
Lemma account_wf s segno se now wrong :
  sit_wf s -> 0 <= segno < MAIN_SEGS g -> seg_wf se ->
  let old := get_seg_entry segno s in
  let dblks := if discard_en then discarded (discard_map se) - discarded (discard_map old) else 0 in
  sit_wf (account_sit_entry segno se (valid_blocks se - valid_blocks old) dblks now wrong s).
Proof.
  intros Hwf Hs Hse. cbv zeta. pose proof (geom_bounds g ly_geom_ok) as Hb. pose proof main_blocks as Hm.
  pose proof (dirty_bound s Hwf) as Hdb. pose proof (sec_range g ly_geom_ok segno Hs) as Hc.
  unfold account_sit_entry. cbv zeta.
  destruct (mark_dirty_fields segno (put_seg_entry segno se s)) as (M1 & M2 & M3 & M4 & _ & M6 & M7).
  set (s1 := (__mark_sit_entry_dirty _ _).2) in *. clearbody s1. simpl in M1, M2, M3, M4, M6, M7.
  assert (Hlen : zlen (zset (sentries s) segno se) = MAIN_SEGS g) by (rewrite zlen_zset; apply Hwf).
  assert (Hsegs : Forall seg_wf (zset (sentries s) segno se)) by (apply Forall_zset; [apply Hwf|done]).
  assert (Hsum : forall f : seg_entry -> Z, zsum f (zset (sentries s) segno se) =
    zsum f (sentries s) - f (get_seg_entry segno s) + f se)
    by (intros f; apply zsum_zset; rewrite (sw_len _ Hwf); lia).
  split; simpl.
  - by rewrite M1.
  - by rewrite M1.
  - rewrite M6. intros x [->%elem_of_singleton|Hx]%elem_of_union; [done|by apply (sw_dirty _ Hwf)].
  - apply M7; [apply Hwf|lia].
  - intros x Hx Hn. rewrite M6 in Hn. unfold get_seg_entry. simpl. rewrite M1, zget_zset_ne by set_solver.
    apply (sw_clean _ Hwf); [done|set_solver].
  - rewrite M1, M3, (sw_written _ Hwf). rewrite u32_small; [rewrite (Hsum valid_blocks); lia|].
    pose proof (zsum_bound valid_blocks (zset (sentries s) segno se) 512) as H. rewrite Hlen, (Hsum valid_blocks) in H.
    destruct H as [H1 H2]; [|lia]. eapply Forall_impl; [exact Hsegs|]. intros e He. rewrite (gw_valid _ He). apply bm_count_bound.
  - intros Hsec. rewrite (proj2 (Z.ltb_lt _ _)) by done. rewrite M2, zlen_zset. by apply Hwf.
  - intros Hsec c Hcr. rewrite (proj2 (Z.ltb_lt _ _)) by done. rewrite M1, M2.
    rewrite zget_zset by (rewrite (sw_sec_len _ Hwf); done).
    rewrite (sw_secs _ Hwf) by done. pose proof (sec_count_put (sentries s) segno se) as Hput.
    assert (Hr : 0 <= segno < zlen (sentries s)) by (rewrite (sw_len _ Hwf); lia).
    destruct (Z.eqb_spec (GET_SEC_FROM_SEG g segno) c) as [<-|Hne].
    + specialize (Hput _ Hr Hc). rewrite Z.eqb_refl in Hput. rewrite Hput. apply u32_small.
      pose proof (sec_count_bound _ _ Hsegs Hlen Hc). unfold get_seg_entry. lia.
    + rewrite Hput, (proj2 (Z.eqb_neq c _)) by (done || lia). rewrite (sw_secs _ Hwf) by done. lia.
  - intros Hen. rewrite M1, M4, (sw_discard _ Hwf Hen), Hen.
    pose proof (Hsum (fun e => discarded (discard_map e))) as Hd. cbv beta in Hd.
    rewrite u32_small; [rewrite Hd; lia|].
    pose proof (zsum_bound (fun e => discarded (discard_map e)) (zset (sentries s) segno se) 512) as H. rewrite Hlen, Hd in H.
    destruct H as [H1 H2]; [|lia]. apply Forall_true. intros e. unfold discarded. pose proof (bm_count_bound (discard_map e)). lia.
Qed.

(** The positions of a block after a change of one entry. *)
Lemma block_after segno se del dblks now wrong s b :
  sit_wf s -> 0 <= segno < MAIN_SEGS g ->
  get_seg_entry (GET_SEGNO b) (account_sit_entry segno se del dblks now wrong s) =
  if segno =? GET_SEGNO b then se else get_seg_entry (GET_SEGNO b) s.
Proof.
  intros Hwf Hs. rewrite <- get_put_seg by done. unfold account_sit_entry, get_seg_entry. cbv zeta. simpl.
  destruct (mark_dirty_fields segno (put_seg_entry segno se s)) as (M1 & _). by rewrite M1.
Qed.

Lemma main_not_special b : in_main b -> (b =? NEW_ADDR) || (b =? NULL_ADDR) = false.
Proof.
  unfold in_main, main_blkaddr. destruct Hly as (_ & H1 & H2 & H3 & H4 & H5). intros Hb.
  apply orb_false_iff. rewrite !Z.eqb_neq. unfold NEW_ADDR, NULL_ADDR. lia.
Qed.

(** A right update of the table: one entry changes, as [seg_updated] says. *)
Lemma update_sit_entry_ok now b del s :
  sit_wf s -> in_main b -> (del = 1 /\ block_valid s b = false \/ del = -1 /\ block_valid s b = true) ->
  let s' := update_sit_entry discard_en now b del s in
  sit_wf s' /\ need_fsck s' = need_fsck s /\
  dirty_sentries_bitmap s' = {[GET_SEGNO b]} ∪ dirty_sentries_bitmap s /\
  exists se' dblks,
    seg_updated discard_en now (GET_BLKOFF_FROM_SEG0 b) del dblks (get_seg_entry (GET_SEGNO b) s) se' /\
    (forall x, get_seg_entry x s' = if GET_SEGNO b =? x then se' else get_seg_entry x s) /\
    sentries s' = zset (sentries s) (GET_SEGNO b) se'.
Proof.
  intros Hwf Hb Hdel. cbv zeta. destruct (main_position b Hb) as (P1 & P2 & _).
  pose proof (seg_entry_wf _ _ Hwf P1) as Hse. unfold update_sit_entry.
  assert (Hu : let '(se', del', dblks, wrong) := update_seg_entry discard_en now (GET_BLKOFF_FROM_SEG0 b) del
                 (get_seg_entry (GET_SEGNO b) s) in
    wrong = false /\ del' = del /\
    seg_updated discard_en now (GET_BLKOFF_FROM_SEG0 b) del dblks (get_seg_entry (GET_SEGNO b) s) se').
  { destruct Hdel as [[-> Hv]|[-> Hv]]; [by apply update_seg_set|by apply update_seg_clear]. }
  destruct (update_seg_entry _ _ _ _ _) as [[[se' del'] dblks] wrong].
  destruct Hu as (-> & -> & U). pose proof U as (U1 & U2 & U3 & U4 & U5 & U6 & U7).
  pose proof (account_wf s _ se' now false Hwf P1 U1) as Hwf'. cbv zeta in Hwf'. rewrite <- U7 in Hwf'.
  replace (valid_blocks se' - valid_blocks (get_seg_entry (GET_SEGNO b) s)) with del in Hwf' by lia.
  split; [done|]. unfold account_sit_entry. cbv zeta. simpl. rewrite orb_false_r.
  destruct (mark_dirty_fields (GET_SEGNO b) (put_seg_entry (GET_SEGNO b) se' s)) as (M1 & _ & _ & _ & M5 & M6 & _).
  split; [by rewrite M5|]. split; [by rewrite M6|]. exists se', dblks. split; [done|]. split; [|by rewrite M1].
  intros x. unfold get_seg_entry at 1. simpl. rewrite M1. by apply (get_put_seg (GET_SEGNO b) se' s x).
Qed.

(** The blocks after a right update. *)
Lemma update_blocks now b del s s' se' dblks :
  sit_wf s -> in_main b ->
  seg_updated discard_en now (GET_BLKOFF_FROM_SEG0 b) del dblks (get_seg_entry (GET_SEGNO b) s) se' ->
  (forall x, get_seg_entry x s' = if GET_SEGNO b =? x then se' else get_seg_entry x s) ->
  (forall b', in_main b' -> block_valid s' b' = if b' =? b then 0 <? del else block_valid s b') /\
  (forall b', in_main b' -> is_checkpointed_data b' s' = is_checkpointed_data b' s ||
     (b' =? b) && (0 <? del) && (se_type (get_seg_entry (GET_SEGNO b) s) =? CURSEG_WARM_NODE)).
Proof.
  intros Hwf Hb (U1 & U2 & U3 & U4 & U5 & U6 & U7) He. split.
  - intros b' Hb'. unfold block_valid. rewrite He.
    pose proof (same_position b b' Hb Hb') as Hp. rewrite (Z.eqb_sym b' b), <- Hp.
    destruct (Z.eqb_spec (GET_SEGNO b) (GET_SEGNO b')) as [Heq|]; [|done].
    by rewrite U5, (Z.eqb_sym (GET_BLKOFF_FROM_SEG0 b')), Heq.
  - intros b' Hb'. unfold is_checkpointed_data. rewrite !main_not_special, He by done.
    pose proof (same_position b b' Hb Hb') as Hp. rewrite (Z.eqb_sym b' b), <- Hp, !test_bit_get.
    destruct (Z.eqb_spec (GET_SEGNO b) (GET_SEGNO b')) as [Heq|]; [|by rewrite orb_false_r].
    by rewrite U6, (Z.eqb_sym (GET_BLKOFF_FROM_SEG0 b')), Heq.
Qed.

(** C15. [update_sit_entry] on a block of the main area that is not yet valid
    (del = 1) or is valid (del = -1): this block changes its validity and no
    other does; every count of valid blocks, of the segment, of its section and
    of the volume, follows, as do the discard candidates; the segment is marked
    for the next checkpoint.  A block counts as checkpointed exactly as before,
    except that a block written to the warm node log is protected at once. *)
Theorem update_sit_entry_correct now b del s :
  sit_wf s -> in_main b -> (del = 1 /\ block_valid s b = false \/ del = -1 /\ block_valid s b = true) ->
  let s' := update_sit_entry discard_en now b del s in
  sit_wf s' /\
  (forall b', in_main b' -> block_valid s' b' = if b' =? b then 0 <? del else block_valid s b') /\
  (forall b', in_main b' -> is_checkpointed_data b' s' = is_checkpointed_data b' s ||
     (b' =? b) && (0 <? del) && (se_type (get_seg_entry (GET_SEGNO b) s) =? CURSEG_WARM_NODE)) /\
  written_valid_blocks s' = written_valid_blocks s + del /\ need_fsck s' = need_fsck s /\
  GET_SEGNO b ∈ dirty_sentries_bitmap s'.
Proof.
  intros Hwf Hb Hdel. cbv zeta. destruct (main_position b Hb) as (P1 & P2 & _).
  destruct (update_sit_entry_ok now b del s Hwf Hb Hdel) as (Hwf' & Hf & Hd & se' & dblks & U & He & Hs).
  destruct (update_blocks now b del s _ se' dblks Hwf Hb U He) as [V1 V2]. destruct U as (_ & _ & _ & U4 & _).
  split; [done|]. split; [done|]. split; [done|]. split; [|split; [done|rewrite Hd; set_solver]].
  rewrite (sw_written _ Hwf'), Hs, (zsum_zset valid_blocks seg0), (sw_written _ Hwf) by (rewrite (sw_len _ Hwf); lia).
  unfold get_seg_entry in U4. lia.
Qed.

(** One entry replaced by another with as many valid blocks. *)
Lemma replace_wf segno se s s' :
  sit_wf s -> 0 <= segno < MAIN_SEGS g -> seg_wf se -> valid_blocks se = valid_blocks (get_seg_entry segno s) ->
  sentries s' = zset (sentries s) segno se -> sec_entries s' = sec_entries s -> written_valid_blocks s' = written_valid_blocks s ->
  (forall x, x ∈ dirty_sentries_bitmap s' -> 0 <= x < MAIN_SEGS g) ->
  dirty_sentries s' = Z.of_nat (size (dirty_sentries_bitmap s')) ->
  (forall x, 0 <= x < MAIN_SEGS g -> x ∉ dirty_sentries_bitmap s' ->
     ckpt_valid_map (get_seg_entry x s') = cur_valid_map (get_seg_entry x s')) ->
  (discard_en = true -> discard_blks s' =
     discard_blks s + discarded (discard_map se) - discarded (discard_map (get_seg_entry segno s))) ->
  sit_wf s'.
Proof.
  intros Hwf Hs Hse Hv E1 E2 E3 H1 H2 H3 H4. pose proof (sw_len _ Hwf) as Hl.
  split; [by rewrite E1, zlen_zset|rewrite E1; by apply Forall_zset; [apply Hwf|]|done|done|done| | | |].
  - rewrite E3, E1, (sw_written _ Hwf), (zsum_zset valid_blocks seg0) by lia. unfold get_seg_entry in Hv. lia.
  - rewrite E2. apply Hwf.
  - intros Hsec c Hc. rewrite E1, E2, sec_count_put by lia. rewrite (sw_secs _ Hwf) by done.
    unfold get_seg_entry in Hv. case_if; lia.
  - intros Hen. rewrite E1, (H4 Hen), (sw_discard _ Hwf Hen), (zsum_zset _ seg0) by lia. unfold get_seg_entry. lia.
Qed.

Lemma discard_bound s : sit_wf s -> discard_en = true -> 0 <= discard_blks s <= 512 * MAIN_SEGS g.
Proof.
  intros Hwf Hen. rewrite (sw_discard _ Hwf Hen), <- (sw_len _ Hwf). apply zsum_bound.
  eapply Forall_impl; [apply (sw_segs _ Hwf)|]. intros se _. unfold discarded. pose proof (bm_count_bound (discard_map se)). lia.
Qed.

(** Changing the type of a segment changes nothing else. *)
Lemma set_type_ok type segno s :
  sit_wf s -> 0 <= segno < MAIN_SEGS g -> 0 <= type <= 5 ->
  let s' := __set_sit_entry_type type segno true s in
  sit_wf s' /\ need_fsck s' = need_fsck s /\ dirty_sentries_bitmap s' = {[segno]} ∪ dirty_sentries_bitmap s /\
  forall x, get_seg_entry x s' = if segno =? x then set_se_type type (get_seg_entry x s) else get_seg_entry x s.
Proof.
  intros Hwf Hs Ht. cbv zeta. unfold __set_sit_entry_type.
  replace (bits6 type) with type by (symmetry; apply Z.mod_small; lia).
  set (se := set_se_type type (get_seg_entry segno s)).
  pose proof (seg_entry_wf _ _ Hwf Hs) as [W1 W2 W3 W4 W5 W6].
  assert (Hse : seg_wf se) by (by split).
  pose proof (mark_dirty_fields segno (put_seg_entry segno se s)) as (M1 & M2 & M3 & M4 & M5 & M6 & M7).
  pose proof (dirty_bound s Hwf) as Hdb.
  assert (Hget : forall x, get_seg_entry x (__mark_sit_entry_dirty segno (put_seg_entry segno se s)).2 =
    if segno =? x then se else get_seg_entry x s).
  { intros x. rewrite <- get_put_seg by done. unfold get_seg_entry. by rewrite M1. }
  set (s1 := (__mark_sit_entry_dirty _ _).2) in *. clearbody s1. simpl in M1, M2, M3, M4, M6, M7.
  split; [|split; [done|split; [done|]]].
  - assert (Hzs : forall f : seg_entry -> Z, f se = f (get_seg_entry segno s) ->
      zsum f (zset (sentries s) segno se) = zsum f (sentries s)).
    { intros f Hf. rewrite (zsum_zset f seg0) by (rewrite (sw_len _ Hwf); lia). unfold get_seg_entry in Hf. lia. }
    split; rewrite ?M1, ?M2, ?M3, ?M4.
    + rewrite zlen_zset. apply Hwf.
    + apply Forall_zset; [apply Hwf|done].
    + rewrite M6. intros x [->%elem_of_singleton|Hx]%elem_of_union; [done|by apply (sw_dirty _ Hwf)].
    + apply M7; [apply Hwf|]. pose proof (geom_bounds g ly_geom_ok). pose proof main_blocks. lia.
    + intros x Hx Hn. rewrite M6 in Hn. rewrite Hget, (proj2 (Z.eqb_neq segno x)) by set_solver.
      apply (sw_clean _ Hwf); [done|set_solver].
    + rewrite Hzs by done. apply Hwf.
    + apply Hwf.
    + intros H1 c Hc. rewrite sec_count_put by (rewrite ?(sw_len _ Hwf); lia).
      rewrite (sw_secs _ Hwf) by done. change (valid_blocks se) with (valid_blocks (zget seg0 (sentries s) segno)). case_if; lia.
    + intros Hen. rewrite (Hzs (fun e => discarded (discard_map e))) by done. by apply Hwf.
  - intros x. rewrite Hget. destruct (Z.eqb_spec segno x) as [<-|]; done.
Qed.

(** Freeing a block that is not valid, or allocating one that is, changes no
    block and no count, the 10-bit counters of the segment included, although
    they wrap around on the way, and marks the volume for fsck. *)
Theorem update_sit_entry_wrong now b del s :
  sit_wf s -> in_main b ->
  (del = 1 /\ block_valid s b = true /\
     (se_type (get_seg_entry (GET_SEGNO b) s) <> CURSEG_WARM_NODE \/ is_checkpointed_data b s = true) \/
   del = -1 /\ block_valid s b = false) ->
  let s' := update_sit_entry discard_en now b del s in
  sit_wf s' /\ need_fsck s' = true /\
  (forall b', in_main b' -> block_valid s' b' = block_valid s b') /\
  (forall b', in_main b' -> is_checkpointed_data b' s' = is_checkpointed_data b' s) /\
  written_valid_blocks s' = written_valid_blocks s.
Proof.
  intros Hwf Hb Hdel. cbv zeta. destruct (main_position b Hb) as (P1 & P2 & _).
  pose proof (seg_entry_wf _ _ Hwf P1) as Hse. unfold update_sit_entry.
  assert (Hu : let '(se', del', dblks, wrong) := update_seg_entry discard_en now (GET_BLKOFF_FROM_SEG0 b) del
                 (get_seg_entry (GET_SEGNO b) s) in
    wrong = true /\ del' = 0 /\ seg_restored discard_en dblks (get_seg_entry (GET_SEGNO b) s) se').
  { destruct Hdel as [(-> & Hv & Hw)|[-> Hv]]; [apply update_seg_reset; try done|by apply update_seg_reclear].
    destruct Hw as [|Hw]; [by left|right]. unfold is_checkpointed_data in Hw.
    rewrite main_not_special, test_bit_get in Hw by done. done. }
  destruct (update_seg_entry _ _ _ _ _) as [[[se' del'] dblks] wrong].
  destruct Hu as (-> & -> & U1 & U2 & U4 & U5 & U6 & U7).
  pose proof (account_wf s _ se' now true Hwf P1 U1) as Hwf'. cbv zeta in Hwf'. rewrite <- U7 in Hwf'.
  replace (valid_blocks se' - valid_blocks (get_seg_entry (GET_SEGNO b) s)) with 0 in Hwf' by lia.
  split; [done|]. split; [|split; [|split]].
  - unfold account_sit_entry. cbv zeta. simpl. by rewrite orb_true_r.
  - intros b' Hb'. unfold block_valid. rewrite block_after by done.
    destruct (Z.eqb_spec (GET_SEGNO b) (GET_SEGNO b')) as [<-|]; [|done]. apply U5.
  - intros b' Hb'. unfold is_checkpointed_data. rewrite !main_not_special by done. rewrite block_after by done.
    rewrite !test_bit_get. destruct (Z.eqb_spec (GET_SEGNO b) (GET_SEGNO b')) as [<-|]; [|done]. apply U6.
  - rewrite (sw_written _ Hwf'). unfold account_sit_entry. cbv zeta. simpl.
    destruct (mark_dirty_fields (GET_SEGNO b) (put_seg_entry (GET_SEGNO b) se' s)) as (-> & _). simpl.
    rewrite (zsum_zset valid_blocks seg0), (sw_written _ Hwf) by (rewrite (sw_len _ Hwf); lia).
    unfold get_seg_entry in U4. lia.
Qed.

End sit.

(** ** Examples *)

(** An empty main area of 16 segments, two to a section. *)
Definition ly0 : layout := mk_layout (mk_geom 2 2 8 16) 512 6 22.
Definition sit0 : sit_info :=
  mk_sit (replicate 16%nat seg0) (replicate 8%nat 0) ∅ 0 0 0 8192 false.

Lemma ly0_ok : layout_ok ly0.
Proof. unfold layout_ok, geom_ok. simpl. lia. Qed.

Lemma seg0_wf : seg_wf seg0.
Proof.
  assert (map_ok zero_map) by (split; [done|by apply Forall_replicate]).
  split; try done; vm_compute; split; discriminate.
Qed.

Lemma zero_map_get i : bm_get zero_map i = false.
Proof. unfold bm_get, zero_map. by rewrite zget_replicate, Z.bits_0. Qed.

Lemma sit0_entry x : get_seg_entry x sit0 = seg0.
Proof. apply zget_replicate. Qed.

Lemma sit0_wf : sit_wf ly0 true sit0.
Proof.
  split; try done.
  - apply Forall_replicate, seg0_wf.
  - intros x _ _. by rewrite sit0_entry.
  - change (MAIN_SECS (ly_geom ly0)) with 8. intros _ c Hc.
    assert (Forall (fun c => zget 0 (sec_entries sit0) c = sec_count ly0 (sentries sit0) c) (seqZ 0 8)) as H.
    { repeat constructor. }
    rewrite Forall_forall in H. apply H, elem_of_seqZ. lia.
Qed.

(** Block 3 of segment 1 becomes valid; nothing else is. *)
Lemma update_sit_entry_correct_witness :
  let s := update_sit_entry ly0 true 9 4099 1 sit0 in
  sit_wf ly0 true s /\ block_valid ly0 s 4099 = true /\ block_valid ly0 s 4100 = false /\ written_valid_blocks s = 1.
Proof.
  pose proof (update_sit_entry_correct ly0 true ly0_ok 9 4099 1 sit0 sit0_wf) as H.
  assert (Hin : forall b, 3584 <= b < 11776 -> in_main ly0 b) by (intros b Hb; exact Hb).
  destruct H as (H1 & H2 & _ & H3 & _).
  - apply Hin. lia.
  - left. split; [done|]. vm_compute. reflexivity.
  - cbv zeta. split; [done|]. rewrite !H2 by (apply Hin; lia). split; [done|]. split; [|done]. vm_compute. reflexivity.
Defined.

(** Freeing it without allocating it first. *)
Lemma update_sit_entry_wrong_witness :
  let s := update_sit_entry ly0 true 9 4099 (-1) sit0 in
  sit_wf ly0 true s /\ need_fsck s = true /\ written_valid_blocks s = 0.
Proof.
  pose proof (update_sit_entry_wrong ly0 true ly0_ok 9 4099 (-1) sit0 sit0_wf) as H.
  destruct H as (H1 & H2 & _ & _ & H3).
  - change (3584 <= 4099 < 11776). lia.
  - right. split; [done|]. vm_compute. reflexivity.
  - done.
Defined.
