(* ===== verification/Segment.v ===== *)
(** * Segment allocation (segment.h, segment.c)

    The six logs: the current segments, how a block is allocated in one of
    them, how a segment becomes current, and the lists of dirty and prefree
    segments. *)

From S2P Require Import Prelude Bits FreeSeg Sit.
From Stdlib Require Import ZArith Lia.
From stdpp Require Import base numbers option gmap list.
#[local] Open Scope Z_scope.
#[local] Open Scope c_scope.

(** ** Data *)

(** Indices of the dirty lists: 0 to 5 by type, then the two below. *)
Definition DIRTY : Z := 6.
Definition PRE : Z := 7.
Definition NR_DIRTY_TYPE : Z := 8.

Record dirty_seglist_info := mk_dirty {
  dirty_segmap : list (gset Z);
  nr_dirty : list Z;
  victim_secmap : gset Z
}.

(** [struct f2fs_summary]: who owns a block. *)
Record f2fs_summary := mk_sum {
  sum_nid : Z;
  sum_version : Z;
  sum_ofs_in_node : Z
}.
Definition sum0 : f2fs_summary := mk_sum 0 0 0.

(** The entries of a [struct f2fs_summary_block] and its footer type. *)
Record sum_block := mk_sumblk {
  sum_entries : list f2fs_summary;
  sum_type : Z
}.
Definition sumblk0 : sum_block := mk_sumblk (replicate 512%nat sum0) 0.
Definition SUM_TYPE_DATA : Z := 0.
Definition SUM_TYPE_NODE : Z := 1.

Inductive alloc_mode := LFS | SSR.

#[export] Instance alloc_mode_eq_dec : EqDecision alloc_mode.
Proof. solve_decision. Defined.

Record curseg_info := mk_curseg {
  sum_blk : sum_block;
  alloc_type : alloc_mode;
  segno : Z;
  next_blkoff : Z;
  zone : Z;
  next_segno : Z
}.
Definition curseg0 : curseg_info := mk_curseg sumblk0 LFS 0 0 0 0.

Definition NR_CURSEG_TYPE : Z := 6.

Record seg_state := mk_segs {
  sit : sit_info;
  free_i : free_segmap_info;
  dirty_i : dirty_seglist_info;
  curseg_array : list curseg_info;
  ssa : gmap Z sum_block;        (* the summary area, by segment *)
  last_victim : list Z;          (* of struct sit_info *)
  seg_bug : bool                 (* a BUG check of the segment search *)
}.

Definition set_sit (x : sit_info) (s : seg_state) : seg_state :=
  mk_segs x (free_i s) (dirty_i s) (curseg_array s) (ssa s) (last_victim s) (seg_bug s).
Definition set_free_i (x : free_segmap_info) (s : seg_state) : seg_state :=
  mk_segs (sit s) x (dirty_i s) (curseg_array s) (ssa s) (last_victim s) (seg_bug s).
Definition set_dirty_i (x : dirty_seglist_info) (s : seg_state) : seg_state :=
  mk_segs (sit s) (free_i s) x (curseg_array s) (ssa s) (last_victim s) (seg_bug s).
Definition set_curseg_array (x : list curseg_info) (s : seg_state) : seg_state :=
  mk_segs (sit s) (free_i s) (dirty_i s) x (ssa s) (last_victim s) (seg_bug s).
Definition set_ssa (x : gmap Z sum_block) (s : seg_state) : seg_state :=
  mk_segs (sit s) (free_i s) (dirty_i s) (curseg_array s) x (last_victim s) (seg_bug s).
Definition set_last_victim (x : list Z) (s : seg_state) : seg_state :=
  mk_segs (sit s) (free_i s) (dirty_i s) (curseg_array s) (ssa s) x (seg_bug s).
Definition set_seg_bug (x : bool) (s : seg_state) : seg_state :=
  mk_segs (sit s) (free_i s) (dirty_i s) (curseg_array s) (ssa s) (last_victim s) x.

Definition CURSEG_I (type : Z) (s : seg_state) : curseg_info := zget curseg0 (curseg_array s) type.
Definition put_curseg (type : Z) (c : curseg_info) (s : seg_state) : seg_state :=
  set_curseg_array (zset (curseg_array s) type c) s.

Definition IS_DATASEG (t : Z) : bool := t <=? CURSEG_COLD_DATA.
Definition IS_NODESEG (t : Z) : bool := CURSEG_HOT_NODE <=? t.

Definition IS_CURSEG (seg : Z) (s : seg_state) : bool :=
  existsb (fun t => seg =? segno (CURSEG_I t s)) [0; 1; 2; 3; 4; 5].

(** [struct victim_selection]: the victim for SSR in the segments of a type,
    and what becomes of [last_victim]. *)
Class VictimOps := {
  get_victim : Z -> seg_state -> option Z * list Z
}.

(** What the moment of an allocation depends on besides the segments: the
    mount options, the dirty pages, the checkpoint flag. *)
Record seg_opts := mk_opts {
  opt_lfs : bool;
  opt_noheap : bool;
  gc_urgent : bool;
  crc_recovery : bool;        (* CP_CRC_RECOVERY_FLAG *)
  dirty_nodes : Z;
  dirty_dents : Z;
  dirty_imeta : Z;
  min_ssr_sections : Z;
  reserved_segments : Z
}.

Section segment.
Variable ly : layout.
Variable discard_en : bool.
Context {vops : VictimOps}.

Let g : geom := ly_geom ly.

Definition IS_CURSEC (secno : Z) (s : seg_state) : bool :=
  existsb (fun t => secno =? segno (CURSEG_I t s) / segs_per_sec g) [0; 1; 2; 3; 4; 5].

Definition get_blocktype_secs (pages : Z) : Z :=
  let pages_per_sec := u32 (segs_per_sec g * blocks_per_seg) in
  u32 (Z.shiftr (pages + pages_per_sec - 1) log_blocks_per_seg) / segs_per_sec g.

(** ** The dirty lists *)

Definition dirty_map (t : Z) (d : dirty_seglist_info) : gset Z := zget ∅ (dirty_segmap d) t.

Definition add_dirty (seg t : Z) (d : dirty_seglist_info) : dirty_seglist_info :=
  if test_bit seg (dirty_map t d) then d
  else mk_dirty (zset (dirty_segmap d) t ({[seg]} ∪ dirty_map t d)) (zset (nr_dirty d) t (zget 0 (nr_dirty d) t + 1))
         (victim_secmap d).

Definition del_dirty (seg t : Z) (d : dirty_seglist_info) : dirty_seglist_info :=
  if test_bit seg (dirty_map t d)
  then mk_dirty (zset (dirty_segmap d) t (dirty_map t d ∖ {[seg]})) (zset (nr_dirty d) t (zget 0 (nr_dirty d) t - 1))
         (victim_secmap d)
  else d.

Definition __locate_dirty_segment (seg t : Z) (s : seg_state) : seg_state :=
  if IS_CURSEG seg s then s
  else
    let d := add_dirty seg t (dirty_i s) in
    if t =? DIRTY then
      let t := se_type (get_seg_entry seg (sit s)) in
      if DIRTY <=? t then set_seg_bug true (set_dirty_i d s) else set_dirty_i (add_dirty seg t d) s
    else set_dirty_i d s.

Definition __remove_dirty_segment (seg t : Z) (s : seg_state) : seg_state :=
  let d := del_dirty seg t (dirty_i s) in
  if t =? DIRTY then
    let d := del_dirty seg (se_type (get_seg_entry seg (sit s))) d in
    let d := if get_valid_blocks ly seg true (sit s) =? 0
             then mk_dirty (dirty_segmap d) (nr_dirty d) (victim_secmap d ∖ {[GET_SEC_FROM_SEG g seg]}) else d in
    set_dirty_i d s
  else set_dirty_i d s.

Definition locate_dirty_segment (seg : Z) (s : seg_state) : seg_state :=
  if (seg =? NULL_SEGNO) || IS_CURSEG seg s then s
  else
    let valid_blocks := get_valid_blocks ly seg false (sit s) in
    if valid_blocks =? 0 then __remove_dirty_segment seg DIRTY (__locate_dirty_segment seg PRE s)
    else if valid_blocks <? blocks_per_seg then __locate_dirty_segment seg DIRTY s
    else __remove_dirty_segment seg DIRTY s.

Definition invalidate_blocks (now addr : Z) (s : seg_state) : seg_state :=
  let seg := GET_SEGNO ly addr in
  if addr =? NEW_ADDR then s
  else locate_dirty_segment seg (set_sit (update_sit_entry ly discard_en now addr (-1) (sit s)) s).

(** ** Current segments *)

Definition write_sum_page (blk : sum_block) (seg : Z) (s : seg_state) : seg_state := set_ssa (<[seg := blk]> (ssa s)) s.
Definition get_sum_page (seg : Z) (s : seg_state) : sum_block := default sumblk0 (ssa s !! seg).

Definition is_next_segment_free (type : Z) (s : seg_state) : bool :=
  let seg := u32 (segno (CURSEG_I type s) + 1) in
  if (seg <? MAIN_SEGS g) && c_true (seg mod segs_per_sec g) then negb (test_bit seg (free_segmap (free_i s))) else false.

Definition reset_curseg (type : Z) (modified : bool) (s : seg_state) : seg_state :=
  let c := CURSEG_I type s in
  let seg := next_segno c in
  let t := if IS_NODESEG type then SUM_TYPE_NODE else SUM_TYPE_DATA in
  let s := put_curseg type (mk_curseg (mk_sumblk (sum_entries (sum_blk c)) t) (alloc_type c) seg 0
                              (GET_ZONE_FROM_SEG g seg) NULL_SEGNO) s in
  set_sit (__set_sit_entry_type type seg modified (sit s)) s.

Definition ALLOC_NEXT : Z := 2.

Definition __get_next_segno (type : Z) (s : seg_state) : Z :=
  if negb (segs_per_sec g =? 1) then segno (CURSEG_I type s)
  else if (type =? CURSEG_HOT_DATA) || IS_NODESEG type then 0
  else if c_true (zget 0 (last_victim s) ALLOC_NEXT) then zget 0 (last_victim s) ALLOC_NEXT
  else segno (CURSEG_I type s).

Definition set_next_segno (x : Z) (c : curseg_info) : curseg_info :=
  mk_curseg (sum_blk c) (alloc_type c) (segno c) (next_blkoff c) (zone c) x.
Definition set_alloc_type (x : alloc_mode) (c : curseg_info) : curseg_info :=
  mk_curseg (sum_blk c) x (segno c) (next_blkoff c) (zone c) (next_segno c).
Definition set_next_blkoff (x : Z) (c : curseg_info) : curseg_info :=
  mk_curseg (sum_blk c) (alloc_type c) (segno c) x (zone c) (next_segno c).
Definition set_sum_blk (x : sum_block) (c : curseg_info) : curseg_info :=
  mk_curseg x (alloc_type c) (segno c) (next_blkoff c) (zone c) (next_segno c).

Definition new_curseg (o : seg_opts) (type : Z) (new_sec : bool) (s : seg_state) : seg_state :=
  let c := CURSEG_I type s in
  let s := write_sum_page (sum_blk c) (segno c) s in
  let dir := if (type =? CURSEG_WARM_DATA) || (type =? CURSEG_COLD_DATA) then ALLOC_RIGHT else ALLOC_LEFT in
  let dir := if opt_noheap o then ALLOC_RIGHT else dir in
  let '(seg, fi, bug) := get_new_segment g (map zone (curseg_array s)) (__get_next_segno type s) new_sec dir (free_i s) in
  let s := set_seg_bug (seg_bug s || bug) (set_free_i fi s) in
  let s := reset_curseg type true (put_curseg type (set_next_segno seg c) s) in
  put_curseg type (set_alloc_type LFS (CURSEG_I type s)) s.

(** [target_map], word by word in the code, byte by byte here. *)
Definition or_map (a b : list Z) : list Z := zip_with Z.lor a b.

Definition __next_free_blkoff (seg start : Z) (s : sit_info) : Z :=
  let se := get_seg_entry seg s in
  __find_rev_next_zero_bit (or_map (ckpt_valid_map se) (cur_valid_map se)) blocks_per_seg start.

Definition __refresh_next_blkoff (s : sit_info) (c : curseg_info) : curseg_info :=
  match alloc_type c with
  | SSR => set_next_blkoff (__next_free_blkoff (segno c) (next_blkoff c + 1) s) c
  | LFS => set_next_blkoff (u16 (next_blkoff c + 1)) c
  end.

Definition change_curseg (type : Z) (s : seg_state) : seg_state :=
  let c := CURSEG_I type s in
  let new_segno := next_segno c in
  let s := write_sum_page (sum_blk c) (segno c) s in
  let s := set_free_i (__set_test_and_inuse g new_segno (free_i s)) s in
  let s := __remove_dirty_segment new_segno DIRTY (__remove_dirty_segment new_segno PRE s) in
  let s := reset_curseg type true s in
  let c := set_alloc_type SSR (CURSEG_I type s) in
  let c := set_next_blkoff (__next_free_blkoff (segno c) 0 (sit s)) c in
  put_curseg type (set_sum_blk (mk_sumblk (sum_entries (get_sum_page new_segno s)) (sum_type (sum_blk c))) c) s.

(** The types [get_ssr_segment] tries after its own. *)
Definition ssr_types (type : Z) : list Z :=
  if IS_NODESEG type then if CURSEG_WARM_NODE <=? type then [5; 4; 3] else [3; 4; 5]
  else if CURSEG_WARM_DATA <=? type then [2; 1; 0] else [0; 1; 2].

Fixpoint try_victims (types : list Z) (s : seg_state) : option Z * seg_state :=
  match types with
  | [] => (None, s)
  | t :: types =>
    let '(v, lv) := get_victim t s in
    let s := set_last_victim lv s in
    match v with Some seg => (Some seg, s) | None => try_victims types s end
  end.

Definition get_ssr_segment (type : Z) (s : seg_state) : bool * seg_state :=
  match try_victims (type :: filter (fun t => t <> type) (ssr_types type)) s with
  | (Some seg, s) => (true, put_curseg type (set_next_segno seg (CURSEG_I type s)) s)
  | (None, s) => (false, s)
  end.

Definition need_SSR (o : seg_opts) (s : seg_state) : bool :=
  if opt_lfs o then false
  else if gc_urgent o then true
  else free_sections (free_i s) <=?
         get_blocktype_secs (dirty_nodes o) + 2 * get_blocktype_secs (dirty_dents o) +
         get_blocktype_secs (dirty_imeta o) + min_ssr_sections o + GET_SEC_FROM_SEG g (reserved_segments o).

Definition allocate_segment_by_default (o : seg_opts) (type : Z) (force : bool) (s : seg_state) : seg_state :=
  if force then new_curseg o type true s
  else if negb (crc_recovery o) && (type =? CURSEG_WARM_NODE) then new_curseg o type false s
  else if bool_decide (alloc_type (CURSEG_I type s) = LFS) && is_next_segment_free type s then new_curseg o type false s
  else if need_SSR o s then
    let '(found, s) := get_ssr_segment type s in
    if found then change_curseg type s else new_curseg o type false s
  else new_curseg o type false s.

Definition allocate_new_segments (o : seg_opts) (s : seg_state) : seg_state :=
  foldl (fun s i => locate_dirty_segment (segno (CURSEG_I i s)) (allocate_segment_by_default o i true s))
    s [CURSEG_HOT_DATA; CURSEG_WARM_DATA; CURSEG_COLD_DATA].

(** ** Allocating a block *)

Definition NEXT_FREE_BLKADDR (c : curseg_info) : Z := u32 (START_BLOCK ly (segno c) + next_blkoff c).

Definition __add_sum_entry (sum : f2fs_summary) (c : curseg_info) : curseg_info :=
  set_sum_blk (mk_sumblk (zset (sum_entries (sum_blk c)) (next_blkoff c) sum) (sum_type (sum_blk c))) c.

Definition __has_curseg_space (c : curseg_info) : bool := next_blkoff c <? blocks_per_seg.

Definition allocate_data_block (o : seg_opts) (now old_blkaddr : Z) (sum : f2fs_summary) (type : Z) (s : seg_state)
    : Z * seg_state :=
  let c := CURSEG_I type s in
  let new_blkaddr := NEXT_FREE_BLKADDR c in
  let s := put_curseg type (__refresh_next_blkoff (sit s) (__add_sum_entry sum c)) s in
  let s := set_sit (update_sit_entry ly discard_en now new_blkaddr 1 (sit s)) s in
  let s := if negb (GET_SEGNO ly old_blkaddr =? NULL_SEGNO)
           then set_sit (update_sit_entry ly discard_en now old_blkaddr (-1) (sit s)) s else s in
  let s := if negb (__has_curseg_space (CURSEG_I type s)) then allocate_segment_by_default o type false s else s in
  let s := locate_dirty_segment (GET_SEGNO ly old_blkaddr) s in
  (new_blkaddr, locate_dirty_segment (GET_SEGNO ly new_blkaddr) s).

(** ** Invariants *)

(** No valid block at a position, now or in the last checkpoint. *)
Definition free_at (s : sit_info) (seg off : Z) : Prop :=
  bm_get (cur_valid_map (get_seg_entry seg s)) off = false /\
  bm_get (ckpt_valid_map (get_seg_entry seg s)) off = false.

(** Where the log will write next is free. *)
Definition room (s : sit_info) (c : curseg_info) : Prop :=
  match alloc_type c with
  | LFS => forall off, next_blkoff c <= off < 512 -> free_at s (segno c) off
  | SSR => next_blkoff c < 512 -> free_at s (segno c) (next_blkoff c)
  end.

Definition seg_valid (s : seg_state) (seg : Z) : Z := valid_blocks (get_seg_entry seg (sit s)).

Definition is_type (t : Z) : Prop := 0 <= t < NR_CURSEG_TYPE.

(** A current segment; [full]: it may have no room left. *)
Record curseg_wf (s : seg_state) (full : Prop) (c : curseg_info) : Prop := {
  cg_range : 0 <= segno c < MAIN_SEGS g;
  cg_inuse : segno c ∈ free_segmap (free_i s);
  cg_zone : zone c = GET_ZONE_FROM_SEG g (segno c);
  cg_sums : zlen (sum_entries (sum_blk c)) = 512;
  cg_next : 0 <= next_blkoff c <= 512;
  cg_space : full \/ next_blkoff c < 512;
  cg_room : room (sit s) c
}.

(** The dirty lists know segment [seg]. *)
Definition listed (s : seg_state) (seg : Z) : Prop :=
  IS_CURSEG seg s = false ->
  (seg ∈ dirty_map DIRTY (dirty_i s) <-> 0 < seg_valid s seg < 512) /\
  (seg_valid s seg = 0 -> seg ∈ free_segmap (free_i s) -> seg ∈ dirty_map PRE (dirty_i s)).

(** The logs and the segments; [full]: logs whose segment may be full. *)
Record seg_core (full : Z -> Prop) (s : seg_state) : Prop := {
  iv_sit : sit_wf ly discard_en (sit s);
  iv_free : free_wf g (free_i s);
  iv_len : zlen (curseg_array s) = NR_CURSEG_TYPE;
  iv_ssa : forall seg, zlen (sum_entries (get_sum_page seg s)) = 512;
  iv_curseg : forall t, is_type t -> curseg_wf s (full t) (CURSEG_I t s);
  iv_distinct : forall t t', is_type t -> is_type t' -> segno (CURSEG_I t s) = segno (CURSEG_I t' s) -> t = t';
  iv_empty : forall seg off, 0 <= seg < MAIN_SEGS g -> seg ∉ free_segmap (free_i s) -> 0 <= off < 512 -> free_at (sit s) seg off
}.

(** The dirty lists; [X]: segments whose place in them is not up to date. *)
Record dirty_ok (X : Z -> Prop) (s : seg_state) : Prop := {
  iv_dlen : zlen (dirty_segmap (dirty_i s)) = NR_DIRTY_TYPE /\ zlen (nr_dirty (dirty_i s)) = NR_DIRTY_TYPE;
  iv_pre : forall seg, seg ∈ dirty_map PRE (dirty_i s) ->
    IS_CURSEG seg s = false /\ seg ∈ free_segmap (free_i s) /\ seg_valid s seg = 0;
  iv_dirty : forall seg, seg ∈ dirty_map DIRTY (dirty_i s) -> IS_CURSEG seg s = false /\ seg ∈ free_segmap (free_i s);
  iv_types : forall seg t, is_type t ->
    (seg ∈ dirty_map t (dirty_i s) <-> seg ∈ dirty_map DIRTY (dirty_i s) /\ se_type (get_seg_entry seg (sit s)) = t);
  iv_nr : forall t, 0 <= t < NR_DIRTY_TYPE -> zget 0 (nr_dirty (dirty_i s)) t = Z.of_nat (size (dirty_map t (dirty_i s)));
  iv_listed : forall seg, 0 <= seg < MAIN_SEGS g -> ~ X seg -> listed s seg
}.

Definition none (_ : Z) : Prop := False.
Definition seg_inv (s : seg_state) : Prop := seg_core none s /\ dirty_ok none s.

(** The owner of a block, as a cleaner finds it: in the current segment or in
    the summary area. *)
Definition cur_type (seg : Z) (s : seg_state) : option Z :=
  List.find (fun t => seg =? segno (CURSEG_I t s)) [0; 1; 2; 3; 4; 5].
Definition seg_sums (s : seg_state) (seg : Z) : list f2fs_summary :=
  match cur_type seg s with
  | Some t => sum_entries (sum_blk (CURSEG_I t s))
  | None => sum_entries (get_sum_page seg s)
  end.
Definition block_owner (s : seg_state) (blk : Z) : f2fs_summary :=
  zget sum0 (seg_sums s (GET_SEGNO ly blk)) (GET_BLKOFF_FROM_SEG0 ly blk).

(** ** Lemmas: current segments *)

Hypothesis Hly : layout_ok ly.
#[local] Definition Hg : geom_ok g := ly_geom_ok ly Hly.

Lemma types_in t : is_type t <-> In t [0; 1; 2; 3; 4; 5].
Proof. unfold is_type, NR_CURSEG_TYPE. simpl. lia. Qed.

Lemma is_curseg_true seg s : IS_CURSEG seg s = true <-> exists t, is_type t /\ segno (CURSEG_I t s) = seg.
Proof.
  unfold IS_CURSEG. rewrite existsb_exists. split; intros (t & H1 & H2); exists t; rewrite types_in in *; split; try done.
  - by apply Z.eqb_eq in H2.
  - by apply Z.eqb_eq.
Qed.

Lemma is_curseg_false seg s : IS_CURSEG seg s = false <-> forall t, is_type t -> segno (CURSEG_I t s) <> seg.
Proof.
  rewrite <- not_true_iff_false, is_curseg_true. split.
  - intros H t Ht He. apply H. by exists t.
  - intros H (t & Ht & He). by apply (H t).
Qed.

Lemma cur_type_some seg s t :
  (forall t t', is_type t -> is_type t' -> segno (CURSEG_I t s) = segno (CURSEG_I t' s) -> t = t') ->
  is_type t -> segno (CURSEG_I t s) = seg -> cur_type seg s = Some t.
Proof.
  intros Hd Ht <-. unfold cur_type.
  destruct (List.find _ _) as [t'|] eqn:E.
  - apply List.find_some in E as [H1 H2]. apply types_in in H1. apply Z.eqb_eq in H2. f_equal. symmetry. by apply Hd.
  - apply types_in in Ht. by eapply List.find_none in E as ?%Z.eqb_neq.
Qed.

Lemma cur_type_none seg s : IS_CURSEG seg s = false -> cur_type seg s = None.
Proof.
  intros H. unfold cur_type. destruct (List.find _ _) as [t|] eqn:E; [|done].
  apply List.find_some in E as [H1 H2]. apply types_in in H1. apply Z.eqb_eq in H2.
  exfalso. by apply (proj1 (is_curseg_false seg s) H t).
Qed.

Lemma curseg_put t c s t' : zlen (curseg_array s) = NR_CURSEG_TYPE -> is_type t ->
  CURSEG_I t' (put_curseg t c s) = if t =? t' then c else CURSEG_I t' s.
Proof. intros Hl Ht. unfold CURSEG_I. simpl. apply zget_zset. rewrite Hl. apply Ht. Qed.

Lemma cursegs_len t c s : zlen (curseg_array (put_curseg t c s)) = zlen (curseg_array s).
Proof. apply zlen_zset. Qed.

(** ** Lemmas: the next free block *)

Lemma bm_get_or a b i : zlen a = zlen b -> 0 <= i -> bm_get (or_map a b) i = bm_get a i || bm_get b i.
Proof.
  intros Hl Hi. unfold bm_get, or_map.
  destruct (Z.lt_ge_cases (i / 8) (zlen a)) as [Hlt|Hge].
  - assert (Hd : 0 <= i / 8) by (apply Z.div_pos; lia).
    pose proof (lookup_zget 0 a (i / 8) ltac:(lia)) as Ha. pose proof (lookup_zget 0 b (i / 8) ltac:(lia)) as Hb.
    rewrite (zget_lookup 0 (zip_with _ _ _)) by done. rewrite lookup_zip_with, Ha, Hb. simpl. apply Z.lor_spec.
  - assert (Hz : zlen (zip_with Z.lor a b) = zlen a) by (unfold zlen in *; rewrite length_zip_with; lia).
    rewrite !zget_ge by lia. by rewrite Z.bits_0.
Qed.

Lemma or_map_bytes a b : bytes_ok a -> bytes_ok b -> bytes_ok (or_map a b).
Proof.
  intros Ha. revert b. induction Ha as [|x a Hx Ha IH]; intros b Hb; [constructor|].
  destruct Hb as [|y b Hy Hb]; [constructor|]. simpl. constructor; [|by apply IH].
  pose proof (lor_below x y 8). unfold is_byte in *. lia.
Qed.

Lemma next_free_blkoff_spec seg start s :
  sit_wf ly discard_en s -> 0 <= seg < MAIN_SEGS g -> 0 <= start <= 512 ->
  let off := __next_free_blkoff seg start s in
  start <= off <= 512 /\ (off < 512 -> free_at s seg off) /\
  (forall i, start <= i < off -> bm_get (ckpt_valid_map (get_seg_entry seg s)) i || bm_get (cur_valid_map (get_seg_entry seg s)) i = true).
Proof.
  intros Hwf Hs Hst. cbv zeta. unfold __next_free_blkoff.
  destruct (seg_entry_wf ly discard_en seg s Hwf Hs) as [_ [C1 C2] [K1 K2] _ _ _].
  set (se := get_seg_entry seg s) in *.
  rewrite find_rev_next_zero_bit_scan by (lia || by apply or_map_bytes). unfold blocks_per_seg. case_if.
  { split; [lia|]. split; intros; lia. }
  destruct (scan_from_spec (fun i => negb (bm_get (or_map (ckpt_valid_map se) (cur_valid_map se)) i)) start (Z.to_nat (512 - start)))
    as (S1 & S2 & S3). set (off := scan_from _ _ _) in *. split; [lia|]. split.
  - intros Ho. specialize (S3 ltac:(lia)). apply negb_true_iff in S3. rewrite bm_get_or in S3 by lia.
    apply orb_false_iff in S3 as [S3 S4]. by split.
  - intros i Hi. specialize (S2 i Hi). apply negb_false_iff in S2. by rewrite bm_get_or in S2 by lia.
Qed.

(** A segment whose maps leave a block free has one for SSR. *)
Lemma next_free_exists seg s :
  sit_wf ly discard_en s -> 0 <= seg < MAIN_SEGS g -> ckpt_valid_blocks (get_seg_entry seg s) < 512 ->
  __next_free_blkoff seg 0 s < 512.
Proof.
  intros Hwf Hs Hc. destruct (next_free_blkoff_spec seg 0 s Hwf Hs ltac:(lia)) as (H1 & _ & H3).
  destruct (Z.lt_ge_cases (__next_free_blkoff seg 0 s) 512) as [|Hge]; [done|]. exfalso.
  rewrite (gw_ckpt_valid _ (seg_entry_wf ly discard_en seg s Hwf Hs)), union_count_full in Hc; [lia|].
  intros i Hi. rewrite orb_comm. apply H3. lia.
Qed.

(** ** Lemmas: the dirty lists *)

(** Membership in sets built from singletons, by propositional reasoning. *)
Ltac set_tauto := rewrite ?elem_of_difference, ?elem_of_union, ?elem_of_singleton; intuition (congruence || lia).


Definition dlen_ok (d : dirty_seglist_info) : Prop :=
  zlen (dirty_segmap d) = NR_DIRTY_TYPE /\ zlen (nr_dirty d) = NR_DIRTY_TYPE.
Definition nr_ok (d : dirty_seglist_info) : Prop :=
  forall t, 0 <= t < NR_DIRTY_TYPE -> zget 0 (nr_dirty d) t = Z.of_nat (size (dirty_map t d)).

Lemma add_dirty_spec seg t d :
  dlen_ok d -> nr_ok d -> 0 <= t < NR_DIRTY_TYPE ->
  let d' := add_dirty seg t d in
  dlen_ok d' /\ nr_ok d' /\
  forall t', dirty_map t' d' = if t =? t' then {[seg]} ∪ dirty_map t' d else dirty_map t' d.
Proof.
  intros [L1 L2] Hn Ht. cbv zeta. unfold add_dirty. destruct (test_bit seg (dirty_map t d)) eqn:E.
  - apply test_bit_true in E. split; [done|]. split; [done|]. intros t'. destruct (Z.eqb_spec t t') as [<-|]; [|done].
    apply set_eq. intros x. set_solver.
  - apply test_bit_false in E.
    assert (Hm : forall t', dirty_map t' (mk_dirty (zset (dirty_segmap d) t ({[seg]} ∪ dirty_map t d))
      (zset (nr_dirty d) t (zget 0 (nr_dirty d) t + 1)) (victim_secmap d)) =
      if t =? t' then {[seg]} ∪ dirty_map t' d else dirty_map t' d).
    { intros t'. unfold dirty_map at 1. simpl. rewrite zget_zset by lia. by destruct (Z.eqb_spec t t') as [<-|]. }
    split; [split; simpl; by rewrite zlen_zset|]. split; [|done]. intros t' Ht'. rewrite Hm. simpl.
    rewrite zget_zset by lia. destruct (Z.eqb_spec t t') as [<-|]; [|by apply Hn].
    rewrite size_add, Hn by done. lia.
Qed.

Lemma del_dirty_spec seg t d :
  dlen_ok d -> nr_ok d -> 0 <= t < NR_DIRTY_TYPE ->
  let d' := del_dirty seg t d in
  dlen_ok d' /\ nr_ok d' /\
  forall t', dirty_map t' d' = if t =? t' then dirty_map t' d ∖ {[seg]} else dirty_map t' d.
Proof.
  intros [L1 L2] Hn Ht. cbv zeta. unfold del_dirty. destruct (test_bit seg (dirty_map t d)) eqn:E.
  - apply test_bit_true in E.
    assert (Hm : forall t', dirty_map t' (mk_dirty (zset (dirty_segmap d) t (dirty_map t d ∖ {[seg]}))
      (zset (nr_dirty d) t (zget 0 (nr_dirty d) t - 1)) (victim_secmap d)) =
      if t =? t' then dirty_map t' d ∖ {[seg]} else dirty_map t' d).
    { intros t'. unfold dirty_map at 1. simpl. rewrite zget_zset by lia. by destruct (Z.eqb_spec t t') as [<-|]. }
    split; [split; simpl; by rewrite zlen_zset|]. split; [|done]. intros t' Ht'. rewrite Hm. simpl.
    rewrite zget_zset by lia. destruct (Z.eqb_spec t t') as [<-|]; [|by apply Hn].
    rewrite (Hn t) by done. pose proof (size_remove _ _ E). lia.
  - apply test_bit_false in E. split; [done|]. split; [done|]. intros t'. destruct (Z.eqb_spec t t') as [<-|]; [|done].
    apply set_eq. intros x. set_solver.
Qed.

(** What the list operations leave alone. *)
Definition only_dirty (s s' : seg_state) : Prop :=
  sit s' = sit s /\ free_i s' = free_i s /\ curseg_array s' = curseg_array s /\ ssa s' = ssa s /\
  last_victim s' = last_victim s.

Lemma seg_type_range seg s : sit_wf ly discard_en (sit s) -> is_type (se_type (get_seg_entry seg (sit s))).
Proof.
  intros Hwf. unfold is_type, NR_CURSEG_TYPE, get_seg_entry.
  destruct (decide (0 <= seg < zlen (sentries (sit s)))) as [Hr|Hr].
  - rewrite (sw_len _ _ _ Hwf) in Hr. pose proof (gw_type _ (seg_entry_wf ly discard_en seg _ Hwf Hr)).
    unfold get_seg_entry in *. lia.
  - unfold zget. case_if; [|simpl; lia]. rewrite nth_overflow by (unfold zlen in Hr; lia). simpl. lia.
Qed.

(** Removing a segment from the prefree or from the dirty list. *)
Lemma remove_dirty_spec seg t s :
  sit_wf ly discard_en (sit s) -> dlen_ok (dirty_i s) -> nr_ok (dirty_i s) -> t = PRE \/ t = DIRTY ->
  let s' := __remove_dirty_segment seg t s in
  only_dirty s s' /\ seg_bug s' = seg_bug s /\ dlen_ok (dirty_i s') /\ nr_ok (dirty_i s') /\
  forall t', dirty_map t' (dirty_i s') =
    if (t' =? t) || ((t =? DIRTY) && (t' =? se_type (get_seg_entry seg (sit s))))
    then dirty_map t' (dirty_i s) ∖ {[seg]} else dirty_map t' (dirty_i s).
Proof.
  intros Hwf Hl Hn Ht. cbv zeta. unfold __remove_dirty_segment.
  assert (Htr : 0 <= t < NR_DIRTY_TYPE) by (unfold NR_DIRTY_TYPE; destruct Ht as [->| ->]; unfold PRE, DIRTY; lia).
  destruct (del_dirty_spec seg t (dirty_i s) Hl Hn Htr) as (D1 & D2 & D3).
  set (d := del_dirty seg t (dirty_i s)) in *. clearbody d.
  destruct (Z.eqb_spec t DIRTY) as [Hd|Hd].
  - pose proof (seg_type_range seg s Hwf) as Hty. set (ty := se_type (get_seg_entry seg (sit s))) in *.
    unfold is_type, NR_CURSEG_TYPE in Hty.
    destruct (del_dirty_spec seg ty d D1 D2) as (F1 & F2 & F3); [unfold NR_DIRTY_TYPE; lia|].
    assert (Hm : forall t', dirty_map t' (del_dirty seg ty d) =
      if (t' =? t) || (true && (t' =? ty)) then dirty_map t' (dirty_i s) ∖ {[seg]} else dirty_map t' (dirty_i s)).
    { intros t'. rewrite F3, D3, (Z.eqb_sym ty), (Z.eqb_sym t). simpl.
      destruct (Z.eqb_spec t' ty), (Z.eqb_spec t' t); simpl; try done. subst. unfold DIRTY in *. lia. }
    split; [done|]. split; [done|]. case_if; done.
  - split; [done|]. split; [done|]. split; [done|]. split; [done|]. intros t'. simpl.
    rewrite D3, (Z.eqb_sym t), orb_false_r. done.
Qed.

(** Adding a segment that is not current. *)
Lemma locate_dirty_spec seg t s :
  sit_wf ly discard_en (sit s) -> dlen_ok (dirty_i s) -> nr_ok (dirty_i s) -> t = PRE \/ t = DIRTY ->
  IS_CURSEG seg s = false ->
  let s' := __locate_dirty_segment seg t s in
  only_dirty s s' /\ seg_bug s' = seg_bug s /\ dlen_ok (dirty_i s') /\ nr_ok (dirty_i s') /\
  forall t', dirty_map t' (dirty_i s') =
    if (t' =? t) || ((t =? DIRTY) && (t' =? se_type (get_seg_entry seg (sit s))))
    then {[seg]} ∪ dirty_map t' (dirty_i s) else dirty_map t' (dirty_i s).
Proof.
  intros Hwf Hl Hn Ht Hc. cbv zeta. unfold __locate_dirty_segment. rewrite Hc.
  assert (Htr : 0 <= t < NR_DIRTY_TYPE) by (unfold NR_DIRTY_TYPE; destruct Ht as [->| ->]; unfold PRE, DIRTY; lia).
  destruct (add_dirty_spec seg t (dirty_i s) Hl Hn Htr) as (D1 & D2 & D3).
  set (d := add_dirty seg t (dirty_i s)) in *. clearbody d.
  destruct (Z.eqb_spec t DIRTY) as [Hd|Hd].
  - pose proof (seg_type_range seg s Hwf) as Hty. set (ty := se_type (get_seg_entry seg (sit s))) in *.
    unfold is_type, NR_CURSEG_TYPE in Hty. rewrite (proj2 (Z.leb_gt _ _)) by (unfold DIRTY; lia).
    destruct (add_dirty_spec seg ty d D1 D2) as (F1 & F2 & F3); [unfold NR_DIRTY_TYPE; lia|].
    split; [done|]. split; [done|]. split; [done|]. split; [done|]. intros t'. simpl.
    rewrite F3, D3, (Z.eqb_sym ty), (Z.eqb_sym t).
    destruct (Z.eqb_spec t' ty), (Z.eqb_spec t' t); simpl; try done. subst. unfold DIRTY in *. lia.
  - split; [done|]. split; [done|]. split; [done|]. split; [done|]. intros t'. simpl.
    rewrite D3, (Z.eqb_sym t), orb_false_r. done.
Qed.

(** The states between which only the lists differ. *)
Lemma only_dirty_views s s' : only_dirty s s' ->
  (forall seg, IS_CURSEG seg s' = IS_CURSEG seg s) /\ (forall t, CURSEG_I t s' = CURSEG_I t s) /\
  (forall seg, seg_valid s' seg = seg_valid s seg) /\ (forall seg, get_sum_page seg s' = get_sum_page seg s) /\
  (forall seg, seg_sums s' seg = seg_sums s seg).
Proof.
  intros (E1 & E2 & E3 & E4 & _).
  assert (Hc : forall t, CURSEG_I t s' = CURSEG_I t s) by (intros t; unfold CURSEG_I; by rewrite E3).
  assert (Hp : forall seg, get_sum_page seg s' = get_sum_page seg s) by (intros seg; unfold get_sum_page; by rewrite E4).
  split; [|split; [done|split; [|split; [done|]]]].
  - intros seg. unfold IS_CURSEG. simpl. by rewrite !Hc.
  - intros seg. unfold seg_valid. by rewrite E1.
  - intros seg. unfold seg_sums, cur_type. cbn [List.find]. rewrite !Hc, Hp.
    repeat (case_if; [by rewrite Hc|]). done.
Qed.

Lemma only_dirty_core full s s' : only_dirty s s' -> seg_core full s -> seg_core full s'.
Proof.
  intros Ho [C1 C2 C3 C4 C5 C6 C7]. destruct (only_dirty_views s s' Ho) as (V1 & V2 & V3 & V4 & _).
  destruct Ho as (E1 & E2 & E3 & E4 & _). split; try (by rewrite ?E1, ?E2, ?E3).
  - intros seg. by rewrite V4.
  - intros t Ht. rewrite V2. destruct (C5 t Ht) as [W1 W2 W3 W4 W5 W6 W7]. split; try done; by rewrite ?E1, ?E2.
  - intros t t'. rewrite !V2. apply C6.
Qed.

(** [locate_dirty_segment] brings the lists up to date for its segment. *)
Lemma locate_ok X full seg s :
  seg_core full s -> dirty_ok X s -> seg = NULL_SEGNO \/ (0 <= seg < MAIN_SEGS g /\ seg ∈ free_segmap (free_i s)) ->
  let s' := locate_dirty_segment seg s in
  only_dirty s s' /\ seg_bug s' = seg_bug s /\ dirty_ok (fun x => X x /\ x <> seg) s'.
Proof.
  intros Hc Hd Hseg. cbv zeta. pose proof (iv_sit _ _ Hc) as Hwf.
  destruct (iv_dlen _ _ Hd) as [Hl1 Hl2]. pose proof (iv_nr _ _ Hd) as Hn.
  unfold locate_dirty_segment.
  destruct (Z.eqb_spec seg NULL_SEGNO) as [Hnull|Hnull].
  { simpl. split; [done|]. split; [done|]. destruct Hd as [D1 D2 D3 D4 D5 D6]. split; try done.
    intros x Hx Hnx. apply D6; [done|]. intros HX. apply Hnx. split; [done|].
    pose proof (geom_bounds g Hg). unfold NULL_SEGNO in Hnull. lia. }
  destruct Hseg as [|[Hr Hin]]; [done|]. simpl.
  destruct (IS_CURSEG seg s) eqn:Ecs.
  { split; [done|]. split; [done|]. destruct Hd as [D1 D2 D3 D4 D5 D6]. split; try done.
    intros x Hx Hnx. destruct (decide (x = seg)) as [->|]; [intros ?; congruence|]. apply D6; [done|].
    intros HX. apply Hnx. by split. }
  change (get_valid_blocks ly seg false (sit s)) with (seg_valid s seg).
  pose proof (gw_valid _ (seg_entry_wf ly discard_en seg _ Hwf Hr)) as Hv.
  pose proof (bm_count_bound (cur_valid_map (get_seg_entry seg (sit s)))) as Hb. rewrite <- Hv in Hb. fold (seg_valid s seg) in Hb.
  assert (Hcase : forall s', only_dirty s s' -> dlen_ok (dirty_i s') -> nr_ok (dirty_i s') ->
    (forall t, is_type t \/ t = DIRTY \/ t = PRE -> forall x, x <> seg -> (x ∈ dirty_map t (dirty_i s') <-> x ∈ dirty_map t (dirty_i s))) ->
    (seg ∈ dirty_map PRE (dirty_i s') <-> seg_valid s seg = 0) ->
    (seg ∈ dirty_map DIRTY (dirty_i s') <-> 0 < seg_valid s seg < 512) ->
    (forall t, is_type t -> seg ∈ dirty_map t (dirty_i s') <->
       seg ∈ dirty_map DIRTY (dirty_i s') /\ se_type (get_seg_entry seg (sit s)) = t) ->
    dirty_ok (fun x => X x /\ x <> seg) s').
  { intros s' Ho L1 L2 Hother Hpre Hdirty Htypes. destruct (only_dirty_views s s' Ho) as (V1 & V2 & V3 & _).
    destruct Hd as [D1 D2 D3 D4 D5 D6]. destruct Ho as (E1 & E2 & _). split; try done.
    - intros x. rewrite V1, V3, E2. destruct (decide (x = seg)) as [->|Hx]; [intros ?%Hpre; done|].
      rewrite Hother by auto. apply D2.
    - intros x. rewrite V1, E2. destruct (decide (x = seg)) as [->|Hx]; [done|]. rewrite Hother by auto. apply D3.
    - intros x t Ht. rewrite E1. destruct (decide (x = seg)) as [->|Hx]; [by apply Htypes|].
      rewrite !Hother by auto. by apply D4.
    - intros x Hx Hnx. unfold listed. rewrite V1, V3, E2. destruct (decide (x = seg)) as [->|Hne]; [intros _; by split; [|intros; apply Hpre]|].
      rewrite !Hother by auto. apply D6; [done|]. intros HX. apply Hnx. by split. }
  assert (Hpre0 : seg ∈ dirty_map PRE (dirty_i s) -> seg_valid s seg = 0) by (intros H; by apply (iv_pre _ _ Hd)).
  pose proof (iv_types _ _ Hd seg) as Hty.
  assert (HPT : forall t, is_type t -> t <> DIRTY /\ t <> PRE) by (unfold is_type, NR_CURSEG_TYPE, DIRTY, PRE; lia).
  assert (HpT : (PRE =? se_type (get_seg_entry seg (sit s))) = false).
  { apply Z.eqb_neq. pose proof (seg_type_range seg s Hwf) as Ht1. apply HPT in Ht1. lia. }
  destruct (Z.eqb_spec (seg_valid s seg) 0) as [H0|H0]; [|destruct (Z.ltb_spec (seg_valid s seg) blocks_per_seg) as [Hlt|Hge]; unfold blocks_per_seg in *].
  - destruct (locate_dirty_spec seg PRE s Hwf (conj Hl1 Hl2) Hn (or_introl eq_refl) Ecs) as (A1 & A2 & A3 & A4 & A5).
    set (s1 := __locate_dirty_segment seg PRE s) in *. clearbody s1.
    assert (Hwf1 : sit_wf ly discard_en (sit s1)) by (destruct A1 as (-> & _); done).
    destruct (remove_dirty_spec seg DIRTY s1 Hwf1 A3 A4 (or_intror eq_refl)) as (B1 & B2 & B3 & B4 & B5).
    set (s2 := __remove_dirty_segment seg DIRTY s1) in *. clearbody s2.
    assert (Ho : only_dirty s s2) by (destruct A1 as (?&?&?&?&?), B1 as (?&?&?&?&?); unfold only_dirty; split_and!; congruence).
    assert (Esit : sit s1 = sit s) by apply A1.
    split; [done|]. split; [congruence|]. apply Hcase; try done.
    + intros t Ht x Hx. rewrite B5, A5, Esit. repeat case_if; set_tauto.
    + rewrite B5, A5, Esit, HpT. cbn [PRE DIRTY Z.eqb Pos.eqb orb andb]. set_solver.
    + rewrite B5, A5. cbn [PRE DIRTY Z.eqb Pos.eqb orb andb]. set_solver by lia.
    + intros t Ht. rewrite !B5, !A5, Esit. destruct (HPT t Ht) as [T1 T2].
      rewrite (proj2 (Z.eqb_neq t PRE) T2), (proj2 (Z.eqb_neq t DIRTY) T1). cbn [PRE DIRTY Z.eqb Pos.eqb orb andb].
      destruct (Z.eqb_spec t (se_type (get_seg_entry seg (sit s)))); [set_tauto|]. rewrite (Hty t Ht). set_tauto.
  - destruct (locate_dirty_spec seg DIRTY s Hwf (conj Hl1 Hl2) Hn (or_intror eq_refl) Ecs) as (A1 & A2 & A3 & A4 & A5).
    set (s1 := __locate_dirty_segment seg DIRTY s) in *. clearbody s1.
    split; [done|]. split; [done|]. apply Hcase; try done.
    + intros t Ht x Hx. rewrite A5. case_if; set_tauto.
    + rewrite A5, HpT. cbn [PRE DIRTY Z.eqb Pos.eqb orb andb]. split; [done|lia].
    + rewrite A5. cbn [PRE DIRTY Z.eqb Pos.eqb orb andb]. set_solver by lia.
    + intros t Ht. rewrite !A5. destruct (HPT t Ht) as [T1 T2]. rewrite (proj2 (Z.eqb_neq t DIRTY) T1). cbn [PRE DIRTY Z.eqb Pos.eqb orb andb].
      destruct (Z.eqb_spec t (se_type (get_seg_entry seg (sit s)))) as [->|Hne]; [set_tauto|]. rewrite (Hty t Ht). set_tauto.
  - destruct (remove_dirty_spec seg DIRTY s Hwf (conj Hl1 Hl2) Hn (or_intror eq_refl)) as (A1 & A2 & A3 & A4 & A5).
    set (s1 := __remove_dirty_segment seg DIRTY s) in *. clearbody s1.
    split; [done|]. split; [done|]. apply Hcase; try done.
    + intros t Ht x Hx. rewrite A5. case_if; set_tauto.
    + rewrite A5, HpT. cbn [PRE DIRTY Z.eqb Pos.eqb orb andb]. split; [done|lia].
    + rewrite A5. cbn [PRE DIRTY Z.eqb Pos.eqb orb andb]. split; [set_solver|lia].
    + intros t Ht. rewrite !A5. destruct (HPT t Ht) as [T1 T2]. rewrite (proj2 (Z.eqb_neq t DIRTY) T1). cbn [PRE DIRTY Z.eqb Pos.eqb orb andb].
      destruct (Z.eqb_spec t (se_type (get_seg_entry seg (sit s)))) as [->|Hne]; [set_tauto|]. rewrite (Hty t Ht). set_tauto.
Qed.

(** ** Lemmas: changes of the state *)

Lemma curseg_in_range full t s : seg_core full s -> is_type t ->
  0 <= segno (CURSEG_I t s) < MAIN_SEGS g /\ segno (CURSEG_I t s) ∈ free_segmap (free_i s).
Proof. intros Hc Ht. destruct (iv_curseg _ _ Hc t Ht). done. Qed.

Lemma put_is_curseg t c s : zlen (curseg_array s) = NR_CURSEG_TYPE -> is_type t -> segno c = segno (CURSEG_I t s) ->
  forall seg, IS_CURSEG seg (put_curseg t c s) = IS_CURSEG seg s.
Proof.
  intros Hl Ht Hs seg. apply eq_true_iff_eq. rewrite !is_curseg_true.
  split; intros (t' & Ht' & <-); exists t'; (split; [done|]); rewrite curseg_put by done;
    destruct (Z.eqb_spec t t') as [<-|]; congruence.
Qed.

(** A log moves on in its segment. *)
Lemma put_same full full' t c s :
  seg_core full s -> is_type t -> segno c = segno (CURSEG_I t s) -> curseg_wf s (full' t) c ->
  (forall t', t' <> t -> full t' -> full' t') -> seg_core full' (put_curseg t c s).
Proof.
  intros [C1 C2 C3 C4 C5 C6 C7] Ht Hseg Hc Hf. split; simpl; try done.
  - by rewrite zlen_zset.
  - intros t' Ht'. rewrite curseg_put by done. destruct (Z.eqb_spec t t') as [<-|Hne].
    + destruct Hc. by split.
    + destruct (C5 t' Ht') as [W1 W2 W3 W4 W5 W6 W7]. split; try done. destruct W6 as [W6|]; [left; apply Hf; congruence|by right].
  - intros t1 t2 H1 H2. rewrite !curseg_put by done.
    destruct (Z.eqb_spec t t1) as [<-|], (Z.eqb_spec t t2) as [<-|]; rewrite ?Hseg; auto.
Qed.

Lemma put_same_dirty X t c s : zlen (curseg_array s) = NR_CURSEG_TYPE -> is_type t ->
  segno c = segno (CURSEG_I t s) -> dirty_ok X s -> dirty_ok X (put_curseg t c s).
Proof.
  intros Hl Ht Hseg [D1 D2 D3 D4 D5 D6]. pose proof (put_is_curseg t c s Hl Ht Hseg) as Hi.
  split; try done; unfold listed; intros *; rewrite ?Hi; [apply D2|apply D3|apply D6].
Qed.

(** The table changes for the blocks of one segment. *)
Lemma set_sit_core full s sit' :
  seg_core full s -> sit_wf ly discard_en sit' ->
  (forall t, is_type t -> room sit' (CURSEG_I t s)) ->
  (forall seg off, 0 <= seg < MAIN_SEGS g -> seg ∉ free_segmap (free_i s) -> 0 <= off < 512 -> free_at sit' seg off) ->
  seg_core full (set_sit sit' s).
Proof.
  intros [C1 C2 C3 C4 C5 C6 C7] Hwf Hroom Hempty. split; try done.
  intros t Ht. destruct (C5 t Ht). split; try done. by apply Hroom.
Qed.

Lemma set_sit_dirty X seg s sit' :
  dirty_ok X s -> (forall x, se_type (get_seg_entry x sit') = se_type (get_seg_entry x (sit s))) ->
  (forall x, x <> seg -> valid_blocks (get_seg_entry x sit') = seg_valid s x) ->
  seg ∉ dirty_map PRE (dirty_i s) -> dirty_ok (fun x => X x \/ x = seg) (set_sit sit' s).
Proof.
  intros [D1 D2 D3 D4 D5 D6] Hty Hv Hpre.
  split; try done.
  - intros x Hx. destruct (D2 x Hx) as (E1 & E2 & E3). split; [done|]. split; [done|].
    unfold seg_valid in *. simpl. rewrite Hv; [done|]. by intros ->.
  - intros x t Ht. simpl. rewrite Hty. by apply D4.
  - intros x Hx Hn. specialize (D6 x Hx). unfold listed, seg_valid in *. simpl. rewrite Hv by tauto. apply D6. tauto.
Qed.

(** A position keeps free when another changes, or when blocks are freed. *)
Lemma updated_free now b del s s' se' dblks seg off :
  seg_updated discard_en now (GET_BLKOFF_FROM_SEG0 ly b) del dblks (get_seg_entry (GET_SEGNO ly b) s) se' ->
  (forall x, get_seg_entry x s' = if GET_SEGNO ly b =? x then se' else get_seg_entry x s) ->
  (del = -1 \/ seg <> GET_SEGNO ly b \/ off <> GET_BLKOFF_FROM_SEG0 ly b) ->
  free_at s seg off -> free_at s' seg off.
Proof.
  intros (U1 & U2 & U3 & U4 & U5 & U6 & U7) He Hne [F1 F2]. unfold free_at. rewrite He.
  destruct (Z.eqb_spec (GET_SEGNO ly b) seg) as [<-|]; [|done]. rewrite U5, U6.
  destruct Hne as [->|[|Hne]]; [|done|].
  - rewrite F1, F2. simpl. by case_if.
  - rewrite (proj2 (Z.eqb_neq off _)) by done. rewrite F1, F2. done.
Qed.

Lemma updated_types now b del s s' se' dblks :
  seg_updated discard_en now (GET_BLKOFF_FROM_SEG0 ly b) del dblks (get_seg_entry (GET_SEGNO ly b) s) se' ->
  (forall x, get_seg_entry x s' = if GET_SEGNO ly b =? x then se' else get_seg_entry x s) ->
  (forall x, se_type (get_seg_entry x s') = se_type (get_seg_entry x s)) /\
  (forall x, x <> GET_SEGNO ly b -> valid_blocks (get_seg_entry x s') = valid_blocks (get_seg_entry x s)).
Proof.
  intros (U1 & U2 & U3 & U4 & U5 & U6 & U7) He. split; intros x; rewrite He; destruct (Z.eqb_spec (GET_SEGNO ly b) x) as [<-|]; done.
Qed.

(** What a step does to the blocks: [f] gives their validity, [h] which more
    count as checkpointed. *)
Definition blocks_change (s s' : sit_info) (f h : Z -> bool) : Prop :=
  (forall b, in_main ly b -> block_valid ly s' b = f b) /\
  (forall b, in_main ly b -> is_checkpointed_data ly b s' = is_checkpointed_data ly b s || h b).

(** Freeing a block. *)
Lemma free_block_step X full now b s :
  seg_core full s -> dirty_ok X s -> in_main ly b -> block_valid ly (sit s) b = true ->
  let s' := set_sit (update_sit_entry ly discard_en now b (-1) (sit s)) s in
  seg_core full s' /\ dirty_ok (fun x => X x \/ x = GET_SEGNO ly b) s' /\
  blocks_change (sit s) (sit s') (fun b' => negb (b' =? b) && block_valid ly (sit s) b') (fun _ => false) /\
  need_fsck (sit s') = need_fsck (sit s).
Proof.
  intros Hc Hd Hb Hv. cbv zeta. pose proof (iv_sit _ _ Hc) as Hwf. destruct (main_position ly Hly b Hb) as (P1 & P2 & _).
  destruct (update_sit_entry_ok ly discard_en Hly now b (-1) (sit s) Hwf Hb) as (Hwf' & Hf & _ & se' & dblks & U & He & _); [by right|].
  set (sit' := update_sit_entry ly discard_en now b (-1) (sit s)) in *.
  destruct (update_blocks ly discard_en Hly now b (-1) (sit s) sit' se' dblks Hwf Hb U He) as [V1 V2].
  destruct (updated_types now b (-1) (sit s) sit' se' dblks U He) as [T1 T2].
  assert (Hfree : forall seg off, free_at (sit s) seg off -> free_at sit' seg off)
    by (intros seg off; apply (updated_free now b (-1) (sit s) sit' se' dblks); [done|done|by left]).
  assert (Hpos : seg_valid s (GET_SEGNO ly b) <> 0).
  { unfold seg_valid. pose proof (seg_entry_wf ly discard_en _ _ Hwf P1) as W. rewrite (gw_valid _ W). unfold block_valid in Hv.
    intros H0. rewrite (bm_count_none _ H0) in Hv by lia. done. }
  split; [|split; [|split; [split|done]]].
  - apply set_sit_core; [done|done| |].
    + intros t Ht. pose proof (cg_room _ _ _ (iv_curseg _ _ Hc t Ht)) as Hr. unfold room in *.
      destruct (alloc_type (CURSEG_I t s)); eauto.
    + intros seg off H1 H2 H3. by apply Hfree, (iv_empty _ _ Hc).
  - apply set_sit_dirty; [done|done|by apply T2|]. intros Hp. by apply (iv_pre _ _ Hd) in Hp as (_ & _ & ?).
  - intros b' Hb'. simpl. rewrite (V1 b' Hb'). by destruct (b' =? b).
  - intros b' Hb'. simpl. rewrite (V2 b' Hb'). by rewrite andb_false_r.
Qed.

(** Weakening. *)
Lemma dirty_weaken (X Y : Z -> Prop) s : (forall x, X x -> Y x) -> dirty_ok X s -> dirty_ok Y s.
Proof. intros HXY [D1 D2 D3 D4 D5 D6]. split; try done. intros x Hx Hn. apply D6; [done|]. auto. Qed.
Lemma core_weaken (full full' : Z -> Prop) s : (forall t, is_type t -> full t -> full' t) -> seg_core full s -> seg_core full' s.
Proof.
  intros Hf [C1 C2 C3 C4 C5 C6 C7]. split; try done. intros t Ht. destruct (C5 t Ht) as [W1 W2 W3 W4 W5 W6 W7].
  split; try done. destruct W6; [left; auto|by right].
Qed.

(** The new position of a log after it has taken its next block. *)
Lemma refresh_spec s c :
  sit_wf ly discard_en s -> 0 <= segno c < MAIN_SEGS g -> 0 <= next_blkoff c < 512 -> room s c ->
  let c' := __refresh_next_blkoff s c in
  segno c' = segno c /\ zone c' = zone c /\ sum_blk c' = sum_blk c /\ alloc_type c' = alloc_type c /\
  next_blkoff c < next_blkoff c' <= 512 /\ room s c'.
Proof.
  intros Hwf Hs Hn Hr. cbv zeta. unfold __refresh_next_blkoff, room in *.
  destruct (alloc_type c) eqn:Ea; simpl; rewrite Ea; split_and!; try done.
  - rewrite u16_small; lia.
  - rewrite u16_small; lia.
  - intros off Ho. rewrite u16_small in Ho by lia. apply Hr. lia.
  - destruct (next_free_blkoff_spec (segno c) (next_blkoff c + 1) s Hwf Hs) as (F1 & _ & _); lia.
  - destruct (next_free_blkoff_spec (segno c) (next_blkoff c + 1) s Hwf Hs) as (F1 & _ & _); lia.
  - intros Ho. by apply (next_free_blkoff_spec (segno c) (next_blkoff c + 1) s Hwf Hs); [lia|].
Qed.

(** The block a log with room will take. *)
Lemma next_block full t s : seg_core full s -> is_type t -> next_blkoff (CURSEG_I t s) < 512 ->
  let b := NEXT_FREE_BLKADDR (CURSEG_I t s) in
  in_main ly b /\ GET_SEGNO ly b = segno (CURSEG_I t s) /\ GET_BLKOFF_FROM_SEG0 ly b = next_blkoff (CURSEG_I t s) /\
  block_valid ly (sit s) b = false /\ is_checkpointed_data ly b (sit s) = false.
Proof.
  intros Hc Ht Hn. cbv zeta. destruct (iv_curseg _ _ Hc t Ht) as [W1 W2 W3 W4 W5 W6 W7].
  set (c := CURSEG_I t s) in *. destruct (block_at ly Hly (segno c) (next_blkoff c) W1 ltac:(lia)) as (B1 & B2 & B3).
  assert (E : NEXT_FREE_BLKADDR c = START_BLOCK ly (segno c) + next_blkoff c).
  { unfold NEXT_FREE_BLKADDR. apply u32_small. unfold in_main, main_blkaddr in B1. destruct Hly as (_ & H1 & H2 & H3 & H4 & H5).
    fold g in H3, H4, H5, B1. lia. }
  rewrite E. assert (Hfree : free_at (sit s) (segno c) (next_blkoff c)).
  { unfold room in W7. destruct (alloc_type c); apply W7; lia. }
  destruct Hfree as [F1 F2]. split; [done|]. split; [done|]. split; [done|].
  unfold block_valid, is_checkpointed_data. rewrite (main_not_special ly Hly), test_bit_get, B2, B3 by done. done.
Qed.

(** The first half of an allocation: the log moves on and the block becomes
    valid, its owner recorded. *)
Lemma take_block_step now sum t s :
  seg_inv s -> is_type t ->
  let c := CURSEG_I t s in let b := NEXT_FREE_BLKADDR c in
  let s1 := put_curseg t (__refresh_next_blkoff (sit s) (__add_sum_entry sum c)) s in
  let s2 := set_sit (update_sit_entry ly discard_en now b 1 (sit s1)) s1 in
  seg_core (fun x => x = t) s2 /\ dirty_ok (fun x => x = GET_SEGNO ly b) s2 /\
  blocks_change (sit s) (sit s2) (fun b' => (b' =? b) || block_valid ly (sit s) b')
    (fun b' => (b' =? b) && (se_type (get_seg_entry (GET_SEGNO ly b) (sit s)) =? CURSEG_WARM_NODE)) /\
  need_fsck (sit s2) = need_fsck (sit s) /\ free_i s2 = free_i s /\ seg_bug s2 = seg_bug s /\
  last_victim s2 = last_victim s /\
  (forall t', segno (CURSEG_I t' s2) = segno (CURSEG_I t' s)) /\
  (forall x, seg_sums s2 x = if x =? segno c then zset (seg_sums s x) (next_blkoff c) sum else seg_sums s x).
Proof.
  intros [Hc Hd] Ht. cbv zeta. destruct (iv_curseg _ _ Hc t Ht) as [W1 W2 W3 W4 W5 W6 W7]. pose proof (iv_sit _ _ Hc) as Hwf.
  set (c := CURSEG_I t s) in *. assert (Hn : next_blkoff c < 512) by (destruct W6; done).
  destruct (next_block none t s Hc Ht Hn) as (N1 & N2 & N3 & N4 & N5). fold c in N1, N2, N3, N4, N5.
  set (b := NEXT_FREE_BLKADDR c) in *.
  destruct (refresh_spec (sit s) (__add_sum_entry sum c) Hwf W1 ltac:(simpl; lia) W7) as (R1 & R2 & R3 & R4 & R5 & R6).
  set (c' := __refresh_next_blkoff (sit s) (__add_sum_entry sum c)) in *. clearbody c'. simpl in R1, R2, R3, R4, R5.
  destruct (update_sit_entry_ok ly discard_en Hly now b 1 (sit s) Hwf N1) as (Hwf' & Hf & _ & se' & dblks & U & He & _); [by left|].
  simpl. set (sit' := update_sit_entry ly discard_en now b 1 (sit s)) in *.
  destruct (update_blocks ly discard_en Hly now b 1 (sit s) sit' se' dblks Hwf N1 U He) as [V1 V2].
  destruct (updated_types now b 1 (sit s) sit' se' dblks U He) as [T1 T2].
  assert (Hfree : forall seg off, seg <> segno c \/ off <> next_blkoff c -> free_at (sit s) seg off -> free_at sit' seg off).
  { intros seg off Hne. apply (updated_free now b 1 (sit s) sit' se' dblks); [done|done|]. rewrite N2, N3. by right. }
  set (s1 := put_curseg t c' s).
  assert (Hc1 : seg_core (fun x => x = t) s1).
  { apply (put_same none); try done.
    split; rewrite ?R1, ?R2, ?R3; try done; [|lia|by left]. simpl. rewrite zlen_zset. done. }
  assert (Hcs : forall t', CURSEG_I t' s1 = if t =? t' then c' else CURSEG_I t' s) by (intros t'; by apply curseg_put; [apply Hc|]).
  assert (Hseg : forall t', segno (CURSEG_I t' s1) = segno (CURSEG_I t' s))
    by (intros t'; rewrite Hcs; destruct (Z.eqb_spec t t') as [<-|]; done).
  split_and!; try done.
  - apply set_sit_core; [done|done| |].
    + intros t' Ht'. pose proof (cg_room _ _ _ (iv_curseg _ _ Hc1 t' Ht')) as Hr. unfold room in *. simpl in Hr.
      assert (Hother : t' = t \/ segno (CURSEG_I t' s1) <> segno c).
      { destruct (decide (t' = t)) as [|Hne]; [by left|right]. rewrite Hseg. intros Heq. apply Hne. by apply (iv_distinct _ _ Hc). }
      assert (Hmine : t' = t -> segno (CURSEG_I t' s1) = segno c /\ next_blkoff c < next_blkoff (CURSEG_I t' s1)).
      { intros ->. rewrite Hcs, Z.eqb_refl. split; [done|lia]. }
      destruct (alloc_type (CURSEG_I t' s1)).
      * intros off Ho. apply Hfree; [|by apply Hr]. destruct Hother as [He'|]; [right|by left]. apply Hmine in He'. lia.
      * intros Ho. apply Hfree; [|by apply Hr]. destruct Hother as [He'|]; [right|by left]. apply Hmine in He'. lia.
    + intros seg off H1 H2 H3. apply Hfree; [|by apply (iv_empty _ _ Hc)]. left. by intros ->.
  - rewrite N2. apply (dirty_weaken (fun x => none x \/ x = segno c)); [intros x [[]|]; done|].
    apply set_sit_dirty; [|done| |].
    + apply put_same_dirty; [apply Hc|done|done|done].
    + rewrite N2 in T2. done.
    + intros Hp. apply (iv_pre _ _ Hd) in Hp as (Hp & _ & _). apply (proj1 (is_curseg_false _ _) Hp t Ht). done.
  - split.
    + intros b' Hb'. simpl. rewrite (V1 b' Hb'). by destruct (b' =? b).
    + intros b' Hb'. simpl. rewrite (V2 b' Hb'). by rewrite andb_true_r.
  - intros x. assert (Hct : cur_type x (set_sit sit' s1) = cur_type x s).
    { unfold cur_type. cbn [List.find]. change (CURSEG_I ?k (set_sit sit' s1)) with (CURSEG_I k s1). by rewrite !Hseg. }
    unfold seg_sums. rewrite Hct. change (get_sum_page x (set_sit sit' s1)) with (get_sum_page x s).
    destruct (Z.eqb_spec x (segno c)) as [->|Hx].
    + rewrite (cur_type_some _ s t) by (done || apply (iv_distinct _ _ Hc)).
      change (CURSEG_I t (set_sit sit' s1)) with (CURSEG_I t s1). rewrite Hcs, Z.eqb_refl, R3. done.
    + destruct (cur_type x s) as [t'|] eqn:E; [|done].
      change (CURSEG_I t' (set_sit sit' s1)) with (CURSEG_I t' s1). rewrite Hcs.
      destruct (Z.eqb_spec t t') as [<-|]; [|done]. unfold cur_type in E. apply List.find_some in E as [_ E]. zbool. done.
Qed.

(** ** Lemmas: another segment becomes current *)

(** What both ways of switching a log to segment [v] do. *)
Record switched (t v : Z) (c' : curseg_info) (s s' : seg_state) : Prop := {
  wt_sit : sit s' = __set_sit_entry_type t v true (sit s);
  wt_free : free_wf g (free_i s') /\ free_segmap (free_i s') = {[v]} ∪ free_segmap (free_i s);
  wt_len : zlen (curseg_array s') = NR_CURSEG_TYPE;
  wt_curseg : forall t', CURSEG_I t' s' = if t =? t' then c' else CURSEG_I t' s;
  wt_c : segno c' = v /\ zone c' = GET_ZONE_FROM_SEG g v /\ zlen (sum_entries (sum_blk c')) = 512 /\
         0 <= next_blkoff c' <= 512 /\ room (sit s') c';
  wt_dirty : dlen_ok (dirty_i s') /\ nr_ok (dirty_i s') /\
             forall t', 0 <= t' < NR_DIRTY_TYPE -> dirty_map t' (dirty_i s') = dirty_map t' (dirty_i s) ∖ {[v]};
  wt_ssa : ssa s' = <[segno (CURSEG_I t s) := sum_blk (CURSEG_I t s)]> (ssa s)
}.

Lemma switched_ok X full t v c' s s' :
  seg_core full s -> dirty_ok X s -> is_type t -> 0 <= v < MAIN_SEGS g -> IS_CURSEG v s = false ->
  switched t v c' s s' ->
  seg_core (fun x => if x =? t then next_blkoff c' = 512 else full x) s' /\
  dirty_ok (fun x => X x \/ x = segno (CURSEG_I t s)) s' /\
  (forall b, block_valid ly (sit s') b = block_valid ly (sit s) b) /\
  (forall b, is_checkpointed_data ly b (sit s') = is_checkpointed_data ly b (sit s)) /\
  need_fsck (sit s') = need_fsck (sit s) /\
  (forall x, seg_sums s' x = if x =? v then sum_entries (sum_blk c') else seg_sums s x).
Proof.
  intros Hc Hd Ht Hv Hncs [E1 [E2 E2'] E3 E4 (E5 & E6 & E7 & E8 & E9) (E10 & E11 & E12) E13].
  pose proof (iv_sit _ _ Hc) as Hwf. set (old := segno (CURSEG_I t s)) in *.
  assert (Htr : 0 <= t <= 5) by (unfold is_type, NR_CURSEG_TYPE in Ht; lia).
  destruct (set_type_ok ly discard_en Hly t v (sit s) Hwf Hv Htr) as (T1 & T2 & T3 & T4). rewrite <- E1 in T1, T2, T3, T4.
  assert (Hcur : forall x, cur_valid_map (get_seg_entry x (sit s')) = cur_valid_map (get_seg_entry x (sit s)))
    by (intros x; rewrite T4; by case_if).
  assert (Hck : forall x, ckpt_valid_map (get_seg_entry x (sit s')) = ckpt_valid_map (get_seg_entry x (sit s)))
    by (intros x; rewrite T4; by case_if).
  assert (Hvb : forall x, seg_valid s' x = seg_valid s x) by (intros x; unfold seg_valid; rewrite T4; by case_if).
  assert (Hfree : forall x off, free_at (sit s') x off <-> free_at (sit s) x off)
    by (intros x off; unfold free_at; by rewrite Hcur, Hck).
  assert (Hne : forall t', is_type t' -> segno (CURSEG_I t' s) <> v) by (by apply is_curseg_false).
  assert (Hics : forall x, IS_CURSEG x s' = false -> x <> v /\ (x <> old -> IS_CURSEG x s = false)).
  { intros x Hx. pose proof (proj1 (is_curseg_false x s') Hx) as Hx'. split.
    - intros ->. apply (Hx' t Ht). by rewrite E4, Z.eqb_refl.
    - intros Hxo. apply is_curseg_false. intros t' Ht'. destruct (Z.eqb_spec t t') as [<-|Hn]; [done|].
      specialize (Hx' t' Ht'). by rewrite E4, (proj2 (Z.eqb_neq t t')) in Hx'. }
  assert (Hics' : forall x, x <> v -> IS_CURSEG x s = false -> IS_CURSEG x s' = false).
  { intros x Hxv Hx. apply is_curseg_false. intros t' Ht'. rewrite E4. destruct (Z.eqb_spec t t'); [congruence|].
    by apply is_curseg_false. }
  assert (Hsc : seg_core (fun x => if x =? t then next_blkoff c' = 512 else full x) s').
  { split; try done.
    - intros seg. unfold get_sum_page. rewrite E13. destruct (decide (seg = old)) as [->|Hn].
      + rewrite lookup_insert_eq. simpl. by apply (iv_curseg _ _ Hc t Ht).
      + rewrite lookup_insert_ne by done. apply (iv_ssa _ _ Hc).
    - intros t' Ht'. rewrite E4, (Z.eqb_sym t' t). destruct (Z.eqb_spec t t') as [<-|Hn].
      + split; rewrite ?E5; try done; [rewrite E2'; set_tauto|]. lia.
      + destruct (iv_curseg _ _ Hc t' Ht') as [W1 W2 W3 W4 W5 W6 W7]. split; try done; [rewrite E2'; set_tauto|].
        unfold room in *. destruct (alloc_type (CURSEG_I t' s)); setoid_rewrite Hfree; done.
    - intros t1 t2 H1 H2. rewrite !E4. destruct (Z.eqb_spec t t1) as [<-|], (Z.eqb_spec t t2) as [<-|]; rewrite ?E5; try done.
      + intros He. by destruct (Hne t2 H2).
      + intros He. by destruct (Hne t1 H1).
      + by apply (iv_distinct _ _ Hc).
    - intros seg off H1 H2 H3. apply Hfree, (iv_empty _ _ Hc); try done. rewrite E2' in H2. revert H2. set_tauto. }
  split; [done|]. split; [|split; [|split; [|split; [done|]]]].
  - destruct Hd as [D1 D2 D3 D4 D5 D6]. assert (HDr : 0 <= DIRTY < NR_DIRTY_TYPE /\ 0 <= PRE < NR_DIRTY_TYPE) by done.
    split; try done.
    + intros x. rewrite E12 by apply HDr. rewrite elem_of_difference, elem_of_singleton. intros [Hx Hxv].
      destruct (D2 x Hx) as (F1 & F2 & F3). rewrite Hvb, E2'. split; [by apply Hics'|]. split; [set_tauto|done].
    + intros x. rewrite E12 by apply HDr. rewrite elem_of_difference, elem_of_singleton. intros [Hx Hxv].
      destruct (D3 x Hx) as (F1 & F2). rewrite E2'. split; [by apply Hics'|set_tauto].
    + intros x t' Ht'. rewrite !E12 by (apply HDr || (unfold is_type, NR_CURSEG_TYPE, NR_DIRTY_TYPE in *; lia)).
      rewrite !elem_of_difference, !elem_of_singleton, (D4 x t' Ht'), T4. destruct (Z.eqb_spec v x) as [<-|]; [|tauto].
      split; intros; tauto.
    + intros x Hx Hnx Hcs. destruct (Hics x Hcs) as [Hxv Hxo]. rewrite Hvb, !E12 by apply HDr.
      destruct (D6 x Hx) as [F1 F2]; [tauto|apply Hxo; tauto|].
      rewrite E2', !elem_of_difference, !elem_of_singleton, elem_of_union, elem_of_singleton. tauto.
  - intros b. unfold block_valid. by rewrite Hcur.
  - intros b. unfold is_checkpointed_data. by rewrite Hck.
  - intros x. unfold seg_sums. destruct (Z.eqb_spec x v) as [->|Hxv].
    + rewrite (cur_type_some v s' t); [by rewrite E4, Z.eqb_refl|apply (iv_distinct _ _ Hsc)|done|by rewrite E4, Z.eqb_refl].
    + destruct (IS_CURSEG x s') eqn:Hx.
      * apply is_curseg_true in Hx as (t' & Ht' & Hx). rewrite (cur_type_some x s' t' (iv_distinct _ _ Hsc) Ht' Hx).
        rewrite E4 in Hx |- *. destruct (Z.eqb_spec t t') as [<-|]; [congruence|].
        by rewrite (cur_type_some x s t' (iv_distinct _ _ Hc) Ht' Hx).
      * rewrite (cur_type_none x s') by done. unfold get_sum_page. rewrite E13. destruct (decide (x = old)) as [->|Hn].
        -- rewrite lookup_insert_eq. by rewrite (cur_type_some old s t (iv_distinct _ _ Hc) Ht eq_refl).
        -- rewrite lookup_insert_ne by done. rewrite (cur_type_none x s); [done|]. by apply Hics.
Qed.

Definition next_ok (s : seg_state) : Prop := 0 <= zget 0 (last_victim s) ALLOC_NEXT < MAIN_SEGS g.

Lemma next_segno_range full t s : seg_core full s -> next_ok s -> is_type t -> 0 <= __get_next_segno t s < MAIN_SEGS g.
Proof.
  intros Hc Hn Ht. destruct (curseg_in_range full t s Hc Ht) as [H1 _]. pose proof (geom_bounds g Hg).
  unfold __get_next_segno. repeat case_if; try done; lia.
Qed.

(** [reset_curseg], with the allocation type set after it. *)
Lemma reset_curseg_eq t s : zlen (curseg_array s) = NR_CURSEG_TYPE -> is_type t ->
  let c := CURSEG_I t s in let s' := reset_curseg t true s in
  sit s' = __set_sit_entry_type t (next_segno c) true (sit s) /\ free_i s' = free_i s /\ dirty_i s' = dirty_i s /\
  ssa s' = ssa s /\ seg_bug s' = seg_bug s /\ last_victim s' = last_victim s /\
  zlen (curseg_array s') = NR_CURSEG_TYPE /\
  forall t', CURSEG_I t' s' = if t =? t' then
    mk_curseg (mk_sumblk (sum_entries (sum_blk c)) (if IS_NODESEG t then SUM_TYPE_NODE else SUM_TYPE_DATA))
      (alloc_type c) (next_segno c) 0 (GET_ZONE_FROM_SEG g (next_segno c)) NULL_SEGNO
    else CURSEG_I t' s.
Proof.
  intros Hl Ht. cbv zeta. unfold reset_curseg. simpl. split_and!; try done; [by rewrite zlen_zset|].
  intros t'. change (CURSEG_I t' (set_sit ?x ?y)) with (CURSEG_I t' y). by rewrite curseg_put.
Qed.

Lemma new_curseg_ok X full o t new_sec s :
  seg_core full s -> dirty_ok X s -> is_type t -> next_ok s -> 0 < free_sections (free_i s) ->
  let s' := new_curseg o t new_sec s in
  exists v c', switched t v c' s s' /\ 0 <= v < MAIN_SEGS g /\ IS_CURSEG v s = false /\ v ∉ free_segmap (free_i s) /\
    next_blkoff c' = 0 /\ alloc_type c' = LFS /\ seg_bug s' = seg_bug s /\ last_victim s' = last_victim s.
Proof.
  intros Hc Hd Ht Hn Hpos. cbv zeta. pose proof (iv_sit _ _ Hc) as Hwf. pose proof (iv_len _ _ Hc) as Hl. unfold new_curseg.
  set (c := CURSEG_I t s). set (s0 := write_sum_page (sum_blk c) (segno c) s).
  match goal with |- context [get_new_segment g ?zs ?ns ?b ?d ?fi] =>
    pose proof (get_new_segment_ok g Hg zs ns b d fi (iv_free _ _ Hc)) as Hnew; set (r := get_new_segment g zs ns b d fi) in * end.
  destruct r as [[v fi] bug].
  destruct Hnew as (-> & N2 & N3 & N4 & N5 & _); [apply (next_segno_range full t s Hc Hn Ht)|done|].
  set (s1 := put_curseg t (set_next_segno v c) (set_seg_bug (seg_bug s0 || false) (set_free_i fi s0))).
  assert (Hl1 : zlen (curseg_array s1) = NR_CURSEG_TYPE) by (unfold s1; simpl; by rewrite zlen_zset).
  assert (Hc1 : forall t', CURSEG_I t' s1 = if t =? t' then set_next_segno v c else CURSEG_I t' s)
    by (intros t'; unfold s1; by rewrite curseg_put).
  assert (Hncs : IS_CURSEG v s = false).
  { apply is_curseg_false. intros t' Ht' <-. by destruct (curseg_in_range full t' s Hc Ht'). }
  destruct (reset_curseg_eq t s1 Hl1 Ht) as (R1 & R2 & R3 & R4 & R5 & R6 & R7 & R8).
  set (s2 := reset_curseg t true s1) in *. clearbody s2. rewrite Hc1, Z.eqb_refl in R1, R8.
  change (sit s1) with (sit s) in R1. change (next_segno (set_next_segno v c)) with v in R1.
  simpl in R2, R3, R4, R5, R6, R8.
  exists v, (set_alloc_type LFS (CURSEG_I t s2)). rewrite R8, Z.eqb_refl. unfold set_alloc_type. simpl.
  split; [|split; [done|]; split; [done|]; split; [done|]; split_and!; try done; by rewrite R5, orb_false_r].
  destruct (set_type_ok ly discard_en Hly t v (sit s) Hwf N2) as (T1 & T2 & T3 & T4);
    [unfold is_type, NR_CURSEG_TYPE in Ht; lia|]. rewrite <- R1 in T4.
  split; simpl; try done.
  - by rewrite R2.
  - by rewrite zlen_zset.
  - intros t'. rewrite curseg_put by done. destruct (Z.eqb_spec t t') as [<-|Hne]; [done|]. rewrite R8, Hc1.
    by rewrite !(proj2 (Z.eqb_neq t t')).
  - split; [done|]. split; [done|]. split; [by apply (iv_curseg _ _ Hc t Ht)|]. split; [lia|].
    unfold room. simpl. intros off Ho. unfold free_at. rewrite T4, Z.eqb_refl. simpl. by apply (iv_empty _ _ Hc).
  - rewrite R3. split; [apply Hd|]. split; [exact (iv_nr _ _ Hd)|]. intros t' Ht'.
    assert (Hnin : v ∉ dirty_map t' (dirty_i s)).
    { intros Hin. assert (v ∈ dirty_map DIRTY (dirty_i s) \/ v ∈ dirty_map PRE (dirty_i s)) as [Hx|Hx].
      { destruct (decide (is_type t')) as [Hty|Hty]; [left; by apply (iv_types _ _ Hd v t' Hty)|].
        unfold is_type, NR_CURSEG_TYPE, NR_DIRTY_TYPE in *. destruct (decide (t' = 6)) as [->|]; [by left|].
        assert (t' = 7) as -> by lia. by right. }
      - by apply (iv_dirty _ _ Hd) in Hx as [_ ?].
      - by apply (iv_pre _ _ Hd) in Hx as (_ & ? & _). }
    apply set_eq. intros x. set_tauto.
Qed.

(** The segment [change_curseg] takes need not be free nor listed. *)
Lemma change_curseg_ok X full t s :
  seg_core full s -> dirty_ok X s -> is_type t ->
  let v := next_segno (CURSEG_I t s) in 0 <= v < MAIN_SEGS g -> IS_CURSEG v s = false ->
  let s' := change_curseg t s in
  exists c', switched t v c' s s' /\ alloc_type c' = SSR /\ sum_entries (sum_blk c') = sum_entries (get_sum_page v s) /\
    (ckpt_valid_blocks (get_seg_entry v (sit s)) < 512 -> next_blkoff c' < 512) /\
    seg_bug s' = seg_bug s /\ last_victim s' = last_victim s.
Proof.
  intros Hc Hd Ht. cbv zeta. intros Hv Hncs. pose proof (iv_sit _ _ Hc) as Hwf. pose proof (iv_len _ _ Hc) as Hl.
  unfold change_curseg. set (c := CURSEG_I t s) in *. set (v := next_segno c) in *.
  set (s1 := set_free_i (__set_test_and_inuse g v (free_i s)) (write_sum_page (sum_blk c) (segno c) s)).
  change (set_free_i _ _) with s1.
  destruct (test_and_inuse_wf g Hg v (free_i s) (iv_free _ _ Hc) Hv) as [F1 F2].
  destruct (remove_dirty_spec v PRE s1 Hwf (iv_dlen _ _ Hd) (iv_nr _ _ Hd) (or_introl eq_refl)) as (A1 & A2 & A3 & A4 & A5).
  set (s2 := __remove_dirty_segment v PRE s1) in *. clearbody s2.
  assert (Es2 : sit s2 = sit s) by apply A1.
  destruct (remove_dirty_spec v DIRTY s2 ltac:(by rewrite Es2) A3 A4 (or_intror eq_refl)) as (B1 & B2 & B3 & B4 & B5).
  set (s3 := __remove_dirty_segment v DIRTY s2) in *. clearbody s3.
  assert (Es3 : sit s3 = sit s) by (destruct B1 as (-> & _); done).
  assert (Ef3 : free_i s3 = __set_test_and_inuse g v (free_i s)) by (destruct B1 as (_ & -> & _), A1 as (_ & -> & _); done).
  assert (Ec3 : curseg_array s3 = curseg_array s) by (destruct B1 as (_ & _ & -> & _), A1 as (_ & _ & -> & _); done).
  assert (Ea3 : ssa s3 = <[segno c := sum_blk c]> (ssa s)) by (destruct B1 as (_ & _ & _ & -> & _), A1 as (_ & _ & _ & -> & _); done).
  assert (El3 : last_victim s3 = last_victim s) by (destruct B1 as (_ & _ & _ & _ & ->), A1 as (_ & _ & _ & _ & ->); done).
  assert (Hcs3 : forall t', CURSEG_I t' s3 = CURSEG_I t' s) by (intros t'; unfold CURSEG_I; by rewrite Ec3).
  destruct (reset_curseg_eq t s3 ltac:(by rewrite Ec3) Ht) as (R1 & R2 & R3 & R4 & R5 & R6 & R7 & R8).
  set (s4 := reset_curseg t true s3) in *. clearbody s4. rewrite Hcs3 in R1, R8. fold c v in R1, R8. rewrite Es3 in R1.
  destruct (set_type_ok ly discard_en Hly t v (sit s) Hwf Hv) as (T1 & T2 & T3 & T4);
    [unfold is_type, NR_CURSEG_TYPE in Ht; lia|]. rewrite <- R1 in T1, T4.
  rewrite R8, Z.eqb_refl. unfold set_alloc_type, set_next_blkoff, set_sum_blk. simpl.
  destruct (next_free_blkoff_spec v 0 (sit s4) T1 Hv ltac:(lia)) as (N1 & N2 & _).
  exists (mk_curseg (mk_sumblk (sum_entries (get_sum_page v s4)) (if IS_NODESEG t then SUM_TYPE_NODE else SUM_TYPE_DATA))
    SSR v (__next_free_blkoff v 0 (sit s4)) (GET_ZONE_FROM_SEG g v) NULL_SEGNO).
  split; [|split; [done|split; [|split; [|split]]]]; simpl.
  2: { unfold get_sum_page. rewrite R4, Ea3. rewrite lookup_insert_ne; [done|].
       intros Heq. by apply (proj1 (is_curseg_false v s) Hncs t Ht). }
  2: { intros Hlt. apply next_free_exists; [done|done|]. rewrite T4, Z.eqb_refl. done. }
  2: { simpl. rewrite R5, B2, A2. done. }
  2: { simpl. by rewrite R6, El3. }
  split; simpl; try done.
  - rewrite R2, Ef3. done.
  - by rewrite zlen_zset.
  - intros t'. rewrite curseg_put by done. destruct (Z.eqb_spec t t') as [<-|Hne]; [done|]. rewrite R8, Hcs3.
    by rewrite (proj2 (Z.eqb_neq t t')).
  - split; [done|]. split; [done|]. split; [|split; [lia|]].
    + unfold get_sum_page. rewrite R4, Ea3. destruct (decide (v = segno c)) as [->|Hne].
      * rewrite lookup_insert_eq. apply (iv_curseg _ _ Hc t Ht).
      * rewrite lookup_insert_ne by done. apply (iv_ssa _ _ Hc).
    + unfold room. simpl. intros Ho. by apply N2.
  - rewrite R3. split; [done|]. split; [done|]. intros t' Ht'. rewrite B5, A5, Es2. cbn [PRE DIRTY Z.eqb Pos.eqb andb].
    rewrite orb_false_r. apply set_eq. intros x.
    assert (Hty : is_type t' -> v ∈ dirty_map t' (dirty_i s) -> se_type (get_seg_entry v (sit s)) = t')
      by (intros H1 H2; by apply (iv_types _ _ Hd v t' H1)).
    change (dirty_map t' (dirty_i s1)) with (dirty_map t' (dirty_i s)).
    destruct (Z.eqb_spec t' DIRTY), (Z.eqb_spec t' (se_type (get_seg_entry v (sit s)))), (Z.eqb_spec t' PRE); simpl; try set_tauto.
    assert (is_type t') by (unfold is_type, NR_CURSEG_TYPE, NR_DIRTY_TYPE, DIRTY, PRE in *; lia).
    rewrite elem_of_difference, elem_of_singleton. split; [|tauto]. intros Hx. split; [done|]. intros ->.
    specialize (Hty ltac:(done) Hx). congruence.
  - by rewrite R4, Ea3.
Qed.

(** ** Lemmas: allocating a segment *)

(** What the victim selection promises for SSR: a dirty segment of the type
    with a block that is free now and in the last checkpoint; the hint for the
    next allocation is not its own. *)
Class VictimLaws : Prop := {
  victim_spec t s seg lv : get_victim t s = (Some seg, lv) -> is_type t ->
    seg ∈ dirty_map t (dirty_i s) /\ ckpt_valid_blocks (get_seg_entry seg (sit s)) < 512;
  victim_next t s : zget 0 (get_victim t s).2 ALLOC_NEXT = zget 0 (last_victim s) ALLOC_NEXT
}.

Context {vlaws : VictimLaws}.

Definition same_but_victim (s s' : seg_state) : Prop := exists lv,
  s' = set_last_victim lv s /\ zget 0 lv ALLOC_NEXT = zget 0 (last_victim s) ALLOC_NEXT.

Lemma try_victims_ok types s : Forall is_type types ->
  let '(v, s') := try_victims types s in
  same_but_victim s s' /\
  forall seg, v = Some seg -> (exists t, is_type t /\ seg ∈ dirty_map t (dirty_i s)) /\
    ckpt_valid_blocks (get_seg_entry seg (sit s)) < 512.
Proof.
  intros Hty. revert s. induction Hty as [|t types Ht Hty IH]; intros s; simpl.
  - split; [|done]. exists (last_victim s). by destruct s.
  - pose proof (victim_spec t s) as Hs. pose proof (victim_next t s) as Hn.
    destruct (get_victim t s) as [[seg|] lv]; simpl in Hn.
    + split; [by exists lv|]. intros ? [= <-]. destruct (Hs seg lv eq_refl Ht) as [H1 H2]. split; [by exists t|done].
    + specialize (IH (set_last_victim lv s)). destruct (try_victims types (set_last_victim lv s)) as [v s'].
      destruct IH as [(lv' & -> & Hlv') Hv]. split; [|done]. exists lv'. simpl in *. split; [done|congruence].
Qed.

(** What a switch of segment keeps. *)
Definition kept (s s' : seg_state) : Prop :=
  (forall b, block_valid ly (sit s') b = block_valid ly (sit s) b) /\
  (forall b, is_checkpointed_data ly b (sit s') = is_checkpointed_data ly b (sit s)) /\
  need_fsck (sit s') = need_fsck (sit s) /\ seg_bug s' = seg_bug s /\ next_ok s' /\
  free_segmap (free_i s) ⊆ free_segmap (free_i s') /\
  (forall x, x ∈ free_segmap (free_i s) -> seg_sums s' x = seg_sums s x).

Definition switch_result (X full : Z -> Prop) (t : Z) (s s' : seg_state) : Prop :=
  seg_core (fun x => full x /\ x <> t) s' /\ dirty_ok (fun x => X x \/ x = segno (CURSEG_I t s)) s' /\ kept s s'.

Lemma new_curseg_result X full o t new_sec s :
  seg_core full s -> dirty_ok X s -> is_type t -> next_ok s -> 0 < free_sections (free_i s) ->
  switch_result X full t s (new_curseg o t new_sec s).
Proof.
  intros Hc Hd Ht Hn Hpos.
  destruct (new_curseg_ok X full o t new_sec s Hc Hd Ht Hn Hpos) as (v & c' & Hsw & Hv & Hncs & Hnin & Hnext & _ & Hbug & Hlv).
  set (s' := new_curseg o t new_sec s) in *. clearbody s'.
  destruct (switched_ok X full t v c' s s' Hc Hd Ht Hv Hncs Hsw) as (S1 & S2 & S3 & S4 & S5 & S6).
  split; [|split; [done|]].
  - revert S1. apply core_weaken. intros x _. destruct (Z.eqb_spec x t); [lia|tauto].
  - split_and!; try done; [by unfold next_ok; rewrite Hlv| |].
    + rewrite (proj2 (wt_free _ _ _ _ _ Hsw)). set_solver.
    + intros x Hx. rewrite S6. destruct (Z.eqb_spec x v) as [->|]; done.
Qed.

Lemma change_curseg_result X full t s :
  seg_core full s -> dirty_ok X s -> is_type t -> next_ok s ->
  let v := next_segno (CURSEG_I t s) in 0 <= v < MAIN_SEGS g -> IS_CURSEG v s = false ->
  ckpt_valid_blocks (get_seg_entry v (sit s)) < 512 ->
  switch_result X full t s (change_curseg t s).
Proof.
  cbv zeta. intros Hc Hd Ht Hn Hv Hncs Hck.
  destruct (change_curseg_ok X full t s Hc Hd Ht Hv Hncs) as (c' & Hsw & _ & Hsum & Hnext & Hbug & Hlv).
  specialize (Hnext Hck). set (v := next_segno (CURSEG_I t s)) in *. set (s' := change_curseg t s) in *. clearbody s'.
  destruct (switched_ok X full t v c' s s' Hc Hd Ht Hv Hncs Hsw) as (S1 & S2 & S3 & S4 & S5 & S6).
  split; [|split; [done|]].
  - revert S1. apply core_weaken. intros x _. destruct (Z.eqb_spec x t); [lia|tauto].
  - split_and!; try done; [by unfold next_ok; rewrite Hlv| |].
    + rewrite (proj2 (wt_free _ _ _ _ _ Hsw)). set_solver.
    + intros x Hx. rewrite S6. destruct (Z.eqb_spec x v) as [->|]; [|done].
      rewrite Hsum. unfold seg_sums. by rewrite cur_type_none.
Qed.

(** The victim is recorded in the log. *)
Lemma put_next_segno t v s : zlen (curseg_array s) = NR_CURSEG_TYPE -> is_type t ->
  let s' := put_curseg t (set_next_segno v (CURSEG_I t s)) s in
  (forall x, IS_CURSEG x s' = IS_CURSEG x s) /\ (forall x, seg_sums s' x = seg_sums s x) /\
  (forall X, dirty_ok X s -> dirty_ok X s') /\ (forall full, seg_core full s -> seg_core full s') /\
  segno (CURSEG_I t s') = segno (CURSEG_I t s) /\ next_segno (CURSEG_I t s') = v.
Proof.
  intros Hl Ht. cbv zeta. set (s' := put_curseg _ _ s).
  assert (Hcs : forall t', CURSEG_I t' s' = if t =? t' then set_next_segno v (CURSEG_I t s) else CURSEG_I t' s)
    by (intros t'; by apply curseg_put).
  assert (Hseg : forall t', segno (CURSEG_I t' s') = segno (CURSEG_I t' s))
    by (intros t'; rewrite Hcs; destruct (Z.eqb_spec t t') as [<-|]; done).
  split; [by apply put_is_curseg|]. split; [|split; [|split; [|by rewrite Hcs, Z.eqb_refl]]].
  - intros x. unfold seg_sums, cur_type. cbn [List.find]. rewrite !Hseg. change (get_sum_page x s') with (get_sum_page x s).
    assert (Hsb : forall t', sum_blk (CURSEG_I t' s') = sum_blk (CURSEG_I t' s))
      by (intros t'; rewrite Hcs; destruct (Z.eqb_spec t t') as [<-|]; done).
    repeat (case_if; [by rewrite Hsb|]). done.
  - intros X. by apply put_same_dirty.
  - intros full Hc. apply (put_same full); try done. by destruct (iv_curseg _ _ Hc t Ht).
Qed.

Lemma victim_core full s s' : same_but_victim s s' -> seg_core full s -> seg_core full s'.
Proof. intros (lv & -> & _) [C1 C2 C3 C4 C5 C6 C7]. split; try done. intros t Ht. by destruct (C5 t Ht). Qed.
Lemma victim_dirty X s s' : same_but_victim s s' -> dirty_ok X s -> dirty_ok X s'.
Proof. intros (lv & -> & _) [D1 D2 D3 D4 D5 D6]. by split. Qed.

Lemma ssr_types_ok type : Forall is_type (ssr_types type).
Proof.
  unfold ssr_types, is_type, NR_CURSEG_TYPE. destruct (IS_NODESEG type).
  - destruct (CURSEG_WARM_NODE <=? type); repeat constructor; lia.
  - destruct (CURSEG_WARM_DATA <=? type); repeat constructor; lia.
Qed.

Lemma get_ssr_result X full t s :
  seg_core full s -> dirty_ok X s -> is_type t -> next_ok s ->
  let '(found, s') := get_ssr_segment t s in
  seg_core full s' /\ dirty_ok X s' /\ next_ok s' /\
  sit s' = sit s /\ free_i s' = free_i s /\ seg_bug s' = seg_bug s /\ (forall x, seg_sums s' x = seg_sums s x) /\
  segno (CURSEG_I t s') = segno (CURSEG_I t s) /\
  (found = true -> let v := next_segno (CURSEG_I t s') in
     0 <= v < MAIN_SEGS g /\ IS_CURSEG v s' = false /\ ckpt_valid_blocks (get_seg_entry v (sit s')) < 512).
Proof.
  intros Hc Hd Ht Hn. unfold get_ssr_segment.
  assert (Hty : Forall is_type (t :: filter (fun t' => t' <> t) (ssr_types t))).
  { constructor; [done|]. apply Forall_forall. intros x Hx. apply list_elem_of_filter in Hx as [_ Hx].
    pose proof (ssr_types_ok t) as Hf. rewrite Forall_forall in Hf. by apply Hf. }
  pose proof (try_victims_ok _ s Hty) as Hv. destruct (try_victims _ s) as [v s1]. destruct Hv as [Hsb Hv].
  pose proof (victim_core full s s1 Hsb Hc) as Hc1. pose proof (victim_dirty X s s1 Hsb Hd) as Hd1.
  destruct Hsb as (lv & -> & Hlv).
  assert (Hn1 : next_ok (set_last_victim lv s)) by (unfold next_ok; simpl; by rewrite Hlv).
  destruct v as [v|]; [|done].
  destruct (Hv v eq_refl) as [(t' & Ht' & Hin) Hck].
  assert (HinD : v ∈ dirty_map DIRTY (dirty_i s)) by (by apply (iv_types _ _ Hd v t')).
  destruct (iv_dirty _ _ Hd v HinD) as [Hncs Huse].
  destruct (put_next_segno t v (set_last_victim lv s) (iv_len _ _ Hc1) Ht) as (P1 & P2 & P3 & P4 & P5 & P6).
  split; [by apply P4|]. split; [by apply P3|]. split; [done|]. split; [done|]. split; [done|]. split; [done|].
  split; [done|]. split; [done|]. intros _. cbv zeta. rewrite P6, P1. split; [by apply (fw_segs _ _ (iv_free _ _ Hc))|done].
Qed.

Lemma allocate_segment_ok X full o t s :
  seg_core full s -> dirty_ok X s -> is_type t -> next_ok s -> 0 < free_sections (free_i s) ->
  switch_result X full t s (allocate_segment_by_default o t false s).
Proof.
  intros Hc Hd Ht Hn Hpos. unfold allocate_segment_by_default.
  pose proof (new_curseg_result X full o t false s Hc Hd Ht Hn Hpos) as Hnew.
  destruct (negb (crc_recovery o) && (t =? CURSEG_WARM_NODE)); [done|].
  destruct (bool_decide _ && is_next_segment_free t s); [done|].
  destruct (need_SSR o s); [|done].
  pose proof (get_ssr_result X full t s Hc Hd Ht Hn) as Hssr.
  destruct (get_ssr_segment t s) as [found s1]. destruct Hssr as (S1 & S2 & S3 & S4 & S5 & S6 & S7 & S8 & S9).
  assert (Hres : switch_result X full t s1 (if found then change_curseg t s1 else new_curseg o t false s1)).
  { destruct found.
    - destruct (S9 eq_refl) as (V1 & V2 & V3). by apply change_curseg_result.
    - apply new_curseg_result; try done. by rewrite S5. }
  destruct Hres as (R1 & R2 & R3 & R4 & R5 & R6 & R7 & R8 & R9). rewrite S8 in R2.
  split; [done|]. split; [done|]. split_and!; try done.
  - intros b. by rewrite R3, S4.
  - intros b. by rewrite R4, S4.
  - by rewrite R5, S4.
  - by rewrite R6.
  - by rewrite <- S5.
  - intros x Hx. rewrite R9 by (by rewrite S5). apply S7.
Qed.

(** ** Allocating a block *)

(** A previous address: none, or a valid block. *)
Definition old_ok (s : sit_info) (old : Z) : Prop :=
  old = NULL_ADDR \/ old = NEW_ADDR \/ (in_main ly old /\ block_valid ly s old = true).

Lemma segno_null old : old = NULL_ADDR \/ old = NEW_ADDR -> GET_SEGNO ly old = NULL_SEGNO.
Proof. intros [-> | ->]; reflexivity. Qed.

Lemma segno_main b : in_main ly b -> GET_SEGNO ly b <> NULL_SEGNO.
Proof.
  intros Hb. destruct (main_position ly Hly b Hb) as (H & _). pose proof (geom_bounds g Hg). fold g in H.
  unfold NULL_SEGNO. destruct Hly as (_ & H1 & H2 & H3 & H4 & H5). fold g in H3, H4, H5. lia.
Qed.

Lemma valid_inuse full b s : seg_core full s -> in_main ly b -> block_valid ly (sit s) b = true ->
  GET_SEGNO ly b ∈ free_segmap (free_i s).
Proof.
  intros Hc Hb Hv. destruct (main_position ly Hly b Hb) as (H1 & H2 & _).
  destruct (decide (GET_SEGNO ly b ∈ free_segmap (free_i s))) as [|Hn]; [done|]. exfalso.
  destruct (iv_empty _ _ Hc _ _ H1 Hn H2) as [Hf _]. unfold block_valid in Hv. congruence.
Qed.

(** Freeing the previous address, if there is one. *)
Lemma free_old_step X full now old s :
  seg_core full s -> dirty_ok X s -> old_ok (sit s) old ->
  let s' := if negb (GET_SEGNO ly old =? NULL_SEGNO)
            then set_sit (update_sit_entry ly discard_en now old (-1) (sit s)) s else s in
  seg_core full s' /\ dirty_ok (fun x => X x \/ x = GET_SEGNO ly old) s' /\
  blocks_change (sit s) (sit s') (fun b => negb (b =? old) && block_valid ly (sit s) b) (fun _ => false) /\
  need_fsck (sit s') = need_fsck (sit s) /\ free_i s' = free_i s /\ curseg_array s' = curseg_array s /\ ssa s' = ssa s /\
  seg_bug s' = seg_bug s /\ last_victim s' = last_victim s.
Proof.
  intros Hc Hd Hold. cbv zeta. assert (Hcase : (old = NULL_ADDR \/ old = NEW_ADDR) \/ in_main ly old /\ block_valid ly (sit s) old = true)
    by (destruct Hold as [|[|]]; tauto). destruct Hcase as [Hs|[Hb Hv]].
  - rewrite (segno_null old Hs), Z.eqb_refl. simpl. split; [done|]. split; [|split; [|done]].
    + revert Hd. apply dirty_weaken. tauto.
    + split; intros b Hb.
      * rewrite (proj2 (Z.eqb_neq b old)); [done|]. intros ->. pose proof (main_not_special ly Hly old Hb) as Hns.
        apply orb_false_iff in Hns as [?%Z.eqb_neq ?%Z.eqb_neq]. destruct Hs; congruence.
      * by rewrite orb_false_r.
  - rewrite (proj2 (Z.eqb_neq _ _) (segno_main old Hb)). simpl negb. cbv iota.
    destruct (free_block_step X full now old s Hc Hd Hb Hv) as (F1 & F2 & F3 & F4). done.
Qed.

Lemma seg_sums_same s s' : curseg_array s' = curseg_array s -> ssa s' = ssa s -> forall x, seg_sums s' x = seg_sums s x.
Proof. intros E1 E2 x. unfold seg_sums, cur_type, get_sum_page, CURSEG_I. by rewrite E1, E2. Qed.

(** Both segments concerned are listed again. *)
Lemma locate_both X full a b s :
  seg_core full s -> dirty_ok (fun x => X x \/ x = a \/ x = b) s ->
  (forall x, x = a \/ x = b -> x = NULL_SEGNO \/ (0 <= x < MAIN_SEGS g /\ x ∈ free_segmap (free_i s))) ->
  let s' := locate_dirty_segment b (locate_dirty_segment a s) in
  only_dirty s s' /\ seg_bug s' = seg_bug s /\ seg_core full s' /\ dirty_ok X s'.
Proof.
  intros Hc Hd Hx. cbv zeta.
  destruct (locate_ok _ full a s Hc Hd (Hx a (or_introl eq_refl))) as (L1 & L2 & L3).
  set (s1 := locate_dirty_segment a s) in *. clearbody s1. pose proof (only_dirty_core full s s1 L1 Hc) as Hc1.
  destruct (locate_ok _ full b s1 Hc1 L3) as (M1 & M2 & M3).
  { destruct L1 as (_ & -> & _). apply Hx. by right. }
  set (s2 := locate_dirty_segment b s1) in *. clearbody s2.
  assert (Ho : only_dirty s s2) by (destruct L1 as (?&?&?&?&?), M1 as (?&?&?&?&?); unfold only_dirty; split_and!; congruence).
  split; [done|]. split; [congruence|]. split; [by apply (only_dirty_core full s)|].
  revert M3. apply dirty_weaken. tauto.
Qed.

(** C3. [allocate_data_block] writes out of place: the block it returns holds no
    valid data and none of the last checkpoint, so that a crash before the next
    checkpoint loses nothing.  Afterwards exactly this block is valid in place
    of the old one, its owner is recorded where a cleaner looks for it, no
    other valid block changes owner, and the segments, the six logs, the free
    map and the dirty lists are consistent again, whichever way a new segment
    was taken. *)
Theorem allocate_data_block_correct o now old sum t s :
  seg_inv s -> is_type t -> next_ok s -> 0 < free_sections (free_i s) -> old_ok (sit s) old ->
  let '(new, s') := allocate_data_block o now old sum t s in
  seg_inv s' /\ next_ok s' /\ in_main ly new /\
  block_valid ly (sit s) new = false /\ is_checkpointed_data ly new (sit s) = false /\
  (forall b, in_main ly b -> block_valid ly (sit s') b = (b =? new) || negb (b =? old) && block_valid ly (sit s) b) /\
  (forall b, in_main ly b -> is_checkpointed_data ly b (sit s) = true -> is_checkpointed_data ly b (sit s') = true) /\
  block_owner s' new = sum /\
  (forall b, in_main ly b -> block_valid ly (sit s) b = true -> block_owner s' b = block_owner s b) /\
  need_fsck (sit s') = need_fsck (sit s) /\ seg_bug s' = seg_bug s.
Proof.
  intros [Hc Hd] Ht Hn Hpos Hold. unfold allocate_data_block. set (c := CURSEG_I t s).
  assert (Hnext : next_blkoff c < 512) by (by destruct (cg_space _ _ _ (iv_curseg _ _ Hc t Ht))).
  destruct (next_block none t s Hc Ht Hnext) as (N1 & N2 & N3 & N4 & N5). fold c in N1, N2, N3, N4, N5.
  set (new := NEXT_FREE_BLKADDR c) in *.
  destruct (take_block_step now sum t s (conj Hc Hd) Ht) as (A1 & A2 & [A3 A4] & A5 & A6 & A7 & A8 & A9 & A10).
  fold c in A1, A2, A3, A4, A5, A6, A7, A8, A9, A10. fold new in A1, A2, A3, A4, A5, A6, A7, A8, A9, A10.
  set (s2 := set_sit _ (put_curseg t _ s)) in *. clearbody s2.
  assert (Hold2 : old_ok (sit s2) old).
  { destruct Hold as [|[|[H1 H2]]]; [by left|by right; left|right; right]. split; [done|]. rewrite A3, H2 by done. apply orb_true_r. }
  assert (Hnold : in_main ly old -> new <> old).
  { intros H1 H2. destruct Hold as [H3|[H3|[_ H3]]]; [| |congruence];
      pose proof (main_not_special ly Hly old H1) as Hns; apply orb_false_iff in Hns as [?%Z.eqb_neq ?%Z.eqb_neq]; congruence. }
  destruct (free_old_step _ _ now old s2 A1 A2 Hold2) as (B1 & B2 & [B3 B4] & B5 & B6 & B7 & B8 & B9 & B10).
  set (s3 := if negb _ then _ else s2) in *. clearbody s3.
  assert (Hseg3 : segno (CURSEG_I t s3) = segno c) by (unfold CURSEG_I; rewrite B7; apply A9).
  assert (Hk : exists s4, (if negb (__has_curseg_space (CURSEG_I t s3)) then allocate_segment_by_default o t false s3 else s3) = s4 /\
    seg_core none s4 /\ dirty_ok (fun x => none x \/ x = GET_SEGNO ly old \/ x = GET_SEGNO ly new) s4 /\ kept s3 s4).
  { eexists. split; [reflexivity|]. unfold __has_curseg_space, blocks_per_seg.
    destruct (Z.ltb_spec (next_blkoff (CURSEG_I t s3)) 512) as [Hroom|Hfull]; simpl.
    - split; [|split].
      + destruct B1 as [C1 C2 C3 C4 C5 C6 C7]. split; try done. intros t' Ht'. destruct (C5 t' Ht') as [W1 W2 W3 W4 W5 W6 W7].
        split; try done. right. destruct W6 as [->|]; done.
      + revert B2. apply dirty_weaken. tauto.
      + split_and!; try done. unfold next_ok. by rewrite B10, A8.
    - destruct (allocate_segment_ok _ _ o t s3 B1 B2 Ht) as (R1 & R2 & R3); [unfold next_ok; by rewrite B10, A8|by rewrite B6, A6|].
      split; [|split; [|done]].
      + revert R1. apply core_weaken. intros x _ [-> []]. done.
      + revert R2. apply dirty_weaken. rewrite Hseg3, N2. tauto. }
  destruct Hk as (s4 & -> & K1 & K2 & (K3 & K4 & K5 & K6 & K7 & K8 & K9)).
  assert (Huse : forall b, in_main ly b -> block_valid ly (sit s) b = true -> GET_SEGNO ly b ∈ free_segmap (free_i s))
    by (intros b Hb Hv; by apply (valid_inuse none b s Hc)).
  assert (Hsnew : GET_SEGNO ly new ∈ free_segmap (free_i s)) by (rewrite N2; by apply (curseg_in_range none t s Hc Ht)).
  destruct (locate_both none none (GET_SEGNO ly old) (GET_SEGNO ly new) s4 K1 K2) as (L1 & L2 & L3 & L4).
  { rewrite B6, A6 in K8. intros x [-> | ->].
    - destruct Hold as [H1|[H1|[H1 H2]]]; [left; apply segno_null; tauto..|right].
      split; [by apply (main_position ly Hly old H1)|]. by apply K8, Huse.
    - right. split; [by apply (main_position ly Hly new N1)|]. by apply K8. }
  set (s5 := locate_dirty_segment _ _) in *. clearbody s5.
  destruct (only_dirty_views s4 s5 L1) as (_ & _ & _ & _ & V). destruct L1 as (E1 & E2 & _ & _ & E5).
  assert (Hsums : forall x, x ∈ free_segmap (free_i s) ->
    seg_sums s5 x = if x =? segno c then zset (seg_sums s x) (next_blkoff c) sum else seg_sums s x).
  { intros x Hx. rewrite V, K9, (seg_sums_same s2 s3 B7 B8) by (by rewrite B6, A6). apply A10. }
  split; [done|]. split; [unfold next_ok; by rewrite E5|]. split; [done|]. split; [done|]. split; [done|].
  split; [|split; [|split; [|split; [|split]]]].
  - intros b Hb. rewrite E1, K3, B3, A3 by done. destruct (Z.eqb_spec b new) as [->|]; [|done].
    rewrite (proj2 (Z.eqb_neq new old)); [done|]. intros Heq. apply Hnold; congruence.
  - intros b Hb Hck. rewrite E1, K4, B4, A4, Hck by done. done.
  - unfold block_owner. rewrite Hsums by done. rewrite N2, Z.eqb_refl, N3. apply zget_zset_eq.
    unfold seg_sums. rewrite (cur_type_some (segno c) s t (iv_distinct _ _ Hc) Ht eq_refl). fold c.
    pose proof (cg_sums _ _ _ (iv_curseg _ _ Hc t Ht)) as W1. pose proof (cg_next _ _ _ (iv_curseg _ _ Hc t Ht)) as W2.
    fold c in W1, W2. lia.
  - intros b Hb Hv. unfold block_owner. rewrite Hsums by (by apply Huse).
    destruct (Z.eqb_spec (GET_SEGNO ly b) (segno c)) as [Heq|]; [|done]. apply zget_zset_ne. intros Hoff.
    assert (b = new); [|congruence].
    destruct (main_position ly Hly b Hb) as (_ & _ & ->), (main_position ly Hly new N1) as (_ & _ & ->). congruence.
  - by rewrite E1, K5, B5.
  - by rewrite L2, K6, B9.
Qed.


End segment.

(** ** Examples *)

(** The empty main area with the six logs in segments 0 to 5, and a victim
    selection that finds nothing. *)
Definition cur0 (t : Z) : curseg_info := mk_curseg sumblk0 LFS t 0 (GET_ZONE_FROM_SEG (ly_geom ly0) t) NULL_SEGNO.
Definition dirty0 : dirty_seglist_info := mk_dirty (replicate 8%nat ∅) (replicate 8%nat 0) ∅.
Definition empty_state (fi : free_segmap_info) : seg_state :=
  mk_segs sit0 fi dirty0 (map cur0 [0; 1; 2; 3; 4; 5]) ∅ [0; 0; 0; 0] false.

Lemma cur0_at fi t : is_type t -> CURSEG_I t (empty_state fi) = cur0 t.
Proof. intros [<-|[<-|[<-|[<-|[<-|[<-|[]]]]]]]%types_in; reflexivity. Qed.

Lemma dirty0_map t : dirty_map t dirty0 = ∅.
Proof. apply zget_replicate. Qed.

Lemma empty_core fi :
  free_wf (ly_geom ly0) fi -> (forall t, is_type t -> t ∈ free_segmap fi) -> seg_core ly0 true none (empty_state fi).
Proof.
  intros Hwf Hin.
  assert (Hf : forall seg off, free_at sit0 seg off).
  { intros seg off. unfold free_at. rewrite sit0_entry. split; apply zero_map_get. }
  split.
  - exact sit0_wf.
  - exact Hwf.
  - reflexivity.
  - intros seg. unfold get_sum_page. simpl. by rewrite lookup_empty.
  - intros t Ht. rewrite cur0_at by done. specialize (Hin t Ht). unfold is_type, NR_CURSEG_TYPE in Ht.
    split; [change (0 <= t < 16); lia|exact Hin|reflexivity|reflexivity|change (0 <= 0 <= 512); lia|right; reflexivity|].
    intros off _. apply Hf.
  - intros t t' Ht Ht'. by rewrite !cur0_at.
  - intros seg off _ _ _. apply Hf.
Qed.

Lemma empty_dirty fi : (forall t, t ∈ free_segmap fi -> is_type t) -> dirty_ok ly0 none (empty_state fi).
Proof.
  intros Hin. split.
  - done.
  - intros seg. simpl. rewrite dirty0_map. by intros []%elem_of_empty.
  - intros seg. simpl. rewrite dirty0_map. by intros []%elem_of_empty.
  - intros seg t _. simpl. rewrite !dirty0_map, elem_of_empty. tauto.
  - intros t Ht. simpl. rewrite dirty0_map, size_empty. apply (zget_replicate 0 8).
  - intros seg _ _ Hc. unfold seg_valid. simpl. rewrite sit0_entry, !dirty0_map, elem_of_empty.
    change (valid_blocks seg0) with 0. split; [split; [tauto|lia]|]. intros _ Hs. exfalso.
    apply (proj1 (is_curseg_false seg _) Hc seg); [by apply Hin|]. by rewrite cur0_at by (by apply Hin).
Qed.

Definition free0 : free_segmap_info :=
  foldr (__set_free (ly_geom ly0)) (build_free_segmap (ly_geom ly0)) (seqZ 6 10).
Definition seg_state0 : seg_state := empty_state free0.

Definition opts0 : seg_opts := mk_opts false false false true 0 0 0 2 4.

#[local] Instance no_victim : VictimOps := {| get_victim _ s := (None, last_victim s) |}.
#[local] Instance no_victim_laws : VictimLaws.
Proof. by split. Qed.

Lemma free0_wf : free_wf (ly_geom ly0) free0.
Proof.
  assert (step : forall segno fi, free_wf (ly_geom ly0) fi -> test_bit segno (free_segmap fi) = true ->
    free_wf (ly_geom ly0) (__set_free (ly_geom ly0) segno fi)).
  { intros segno fi Hwf Hin. apply (set_free_wf (ly_geom ly0) (proj1 ly0_ok) segno fi Hwf). by apply test_bit_true. }
  unfold free0. change (seqZ 6 10) with [6; 7; 8; 9; 10; 11; 12; 13; 14; 15]. cbn [foldr].
  repeat (apply step; [|vm_compute; reflexivity]). apply (build_free_wf (ly_geom ly0) (proj1 ly0_ok)).
Qed.

Lemma free0_segs : forall t, is_type t <-> t ∈ free_segmap free0.
Proof.
  assert (Hall : forallb (fun x => eqb (test_bit x (free_segmap free0)) (x <? 6)) (seqZ 0 16) = true)
    by (vm_compute; reflexivity).
  assert (Hb : forall t, 0 <= t < 16 -> test_bit t (free_segmap free0) = (t <? 6)).
  { intros t Ht. apply eqb_prop. apply (proj1 (forallb_forall _ _) Hall). by apply list_elem_of_In, elem_of_seqZ. }
  intros t. rewrite <- test_bit_true. unfold is_type, NR_CURSEG_TYPE. split; intros H.
  - rewrite Hb by lia. lia.
  - assert (0 <= t < 16) by (apply (fw_segs _ _ free0_wf); by apply test_bit_true). rewrite Hb in H by done. lia.
Qed.

Lemma seg_state0_inv : seg_inv ly0 true seg_state0.
Proof.
  split; [apply empty_core|apply empty_dirty].
  - apply free0_wf.
  - intros t. apply free0_segs.
  - intros t. apply free0_segs.
Qed.

Lemma allocate_data_block_correct_witness :
  let '(new, s) := allocate_data_block ly0 true opts0 7 NULL_ADDR (mk_sum 3 1 2) CURSEG_HOT_NODE seg_state0 in
  new = 5120 /\ seg_inv ly0 true s /\ block_valid ly0 (sit s) 5120 = true /\ block_owner ly0 s 5120 = mk_sum 3 1 2.
Proof.
  pose proof (allocate_data_block_correct ly0 true ly0_ok opts0 7 NULL_ADDR (mk_sum 3 1 2) CURSEG_HOT_NODE seg_state0
    seg_state0_inv) as H.
  assert (Hnew : (allocate_data_block ly0 true opts0 7 NULL_ADDR (mk_sum 3 1 2) CURSEG_HOT_NODE seg_state0).1 = 5120)
    by (vm_compute; reflexivity).
  destruct (allocate_data_block _ _ _ _ _ _ _ _) as [new s] eqn:E. simpl in Hnew. subst new.
  destruct H as (H1 & _ & H2 & _ & _ & H3 & _ & H4 & _).
  - unfold is_type. vm_compute. by split.
  - unfold next_ok. vm_compute. by split.
  - vm_compute. reflexivity.
  - by left.
  - split; [done|]. split; [done|]. by rewrite H3.
Defined.
