(* ===== verification/Gc.v ===== *)
(** * Cleaning: the choice of a victim and the pace of the thread (gc.c, gc.h)

    [get_victim_by_default] looks for the cheapest dirty segment or section.
    It is the implementation of the interface [VictimOps] of Segment.v. *)

From S2P Require Import Prelude Bits FreeSeg Sit Segment.
From Stdlib Require Import ZArith Lia.
From stdpp Require Import base numbers option gmap list.
#[local] Open Scope Z_scope.
#[local] Open Scope c_scope.

(** ** Data *)

Definition BG_GC : Z := 0.
Definition FG_GC : Z := 1.

Definition GC_CB : Z := 0.
Definition GC_GREEDY : Z := 1.

Definition NO_CHECK_TYPE : Z := 6.
Definition UINT_MAX : Z := 0xffffffff.

(** What a search depends on and does not change; [gc_idle] is [None] when
    there is no cleaning thread. *)
Record gc_env := mk_gc_env {
  max_victim_search : Z;
  fggc_threshold : Z;
  gc_idle : option Z
}.

(** The segments with what cleaning adds to them. *)
Record gc_state := mk_gc {
  segs : seg_state;
  cur_victim_sec : Z;
  min_mtime : Z
}.

Definition set_segs (x : seg_state) (s : gc_state) : gc_state := mk_gc x (cur_victim_sec s) (min_mtime s).
Definition set_cur_victim_sec (x : Z) (s : gc_state) : gc_state := mk_gc (segs s) x (min_mtime s).

Definition set_max_mtime (x : Z) (s : sit_info) : sit_info :=
  mk_sit (sentries s) (sec_entries s) (dirty_sentries_bitmap s) (dirty_sentries s) (written_valid_blocks s) x
    (discard_blks s) (need_fsck s).

Definition set_victim_secmap (x : gset Z) (d : dirty_seglist_info) : dirty_seglist_info :=
  mk_dirty (dirty_segmap d) (nr_dirty d) x.

(** [struct victim_sel_policy], without the fields the search changes. *)
Record victim_sel_policy := mk_policy {
  p_alloc_mode : alloc_mode;
  p_gc_mode : Z;
  p_dirty_segmap : gset Z;
  p_max_search : Z;
  p_ofs_unit : Z
}.

(** What the search changes besides the state. *)
Record found := mk_found { min_segno : Z; min_cost : Z }.

Section gc.
Variable ly : layout.
Variable env : gc_env.

Let g : geom := ly_geom ly.

(** ** Policies and costs *)

Definition select_gc_type (gc_type : Z) : Z :=
  let gc_mode := if gc_type =? BG_GC then GC_CB else GC_GREEDY in
  match gc_idle env with
  | Some idle => if idle =? 1 then GC_CB else if idle =? 2 then GC_GREEDY else gc_mode
  | None => gc_mode
  end.

Definition last_victim_of (gc_mode : Z) (s : gc_state) : Z := zget 0 (last_victim (segs s)) gc_mode.
Definition set_last (gc_mode x : Z) (s : gc_state) : gc_state :=
  set_segs (set_last_victim (zset (last_victim (segs s)) gc_mode x) (segs s)) s.

(** The policy and the offset to start from. *)
Definition select_policy (gc_type type : Z) (mode : alloc_mode) (s : gc_state) : victim_sel_policy * Z :=
  let d := dirty_i (segs s) in
  let p := match mode with
           | SSR => mk_policy SSR GC_GREEDY (dirty_map type d) (u32 (zget 0 (nr_dirty d) type)) 1
           | LFS => mk_policy LFS (select_gc_type gc_type) (dirty_map DIRTY d) (u32 (zget 0 (nr_dirty d) DIRTY))
                      (segs_per_sec g)
           end in
  let max_search := if negb (gc_type =? FG_GC) && (max_victim_search env <? p_max_search p)
                    then max_victim_search env else p_max_search p in
  (mk_policy (p_alloc_mode p) (p_gc_mode p) (p_dirty_segmap p) max_search (p_ofs_unit p),
   if (type =? CURSEG_HOT_DATA) || IS_NODESEG type then 0 else last_victim_of (p_gc_mode p) s).

Definition get_max_cost (p : victim_sel_policy) : Z :=
  match p_alloc_mode p with
  | SSR => blocks_per_seg
  | LFS => if p_gc_mode p =? GC_GREEDY then u32 (2 * blocks_per_seg * p_ofs_unit p)
           else if p_gc_mode p =? GC_CB then UINT_MAX else 0
  end.

Definition sec_usage_check (secno : Z) (s : gc_state) : bool :=
  IS_CURSEC ly secno (segs s) || (cur_victim_sec s =? secno).

Definition no_fggc_candidate (secno : Z) (s : gc_state) : bool :=
  fggc_threshold env <? get_valid_blocks ly (GET_SEG_FROM_SEC g secno) true (sit (segs s)).

Definition section_mtime (start : Z) (s : gc_state) : Z :=
  foldl (fun m i => u64 (m + mtime (get_seg_entry (u32 (start + i)) (sit (segs s))))) 0 (seqZ 0 (segs_per_sec g)).

Definition get_cb_cost (segno : Z) (s : gc_state) : Z * gc_state :=
  let start := GET_SEG_FROM_SEC g (GET_SEC_FROM_SEG g segno) in
  let mtime := section_mtime start s / segs_per_sec g in
  let vblocks := get_valid_blocks ly segno true (sit (segs s)) / segs_per_sec g in
  let u := u8 (Z.shiftr (u32 (vblocks * 100)) log_blocks_per_seg) in
  let s := if mtime <? min_mtime s then mk_gc (segs s) (cur_victim_sec s) mtime else s in
  let s := if max_mtime (sit (segs s)) <? mtime
           then set_segs (set_sit (set_max_mtime mtime (sit (segs s))) (segs s)) s else s in
  let span := u64 (max_mtime (sit (segs s)) - min_mtime s) in
  let age := if negb (max_mtime (sit (segs s)) =? min_mtime s)
             then u8 (100 - u64 (100 * u64 (mtime - min_mtime s)) / span) else 0 in
  (u32 (UINT_MAX - Z.quot (100 * (100 - u) * age) (100 + u)), s).

Definition get_gc_cost (segno : Z) (p : victim_sel_policy) (s : gc_state) : Z * gc_state :=
  match p_alloc_mode p with
  | SSR => (ckpt_valid_blocks (get_seg_entry segno (sit (segs s))), s)
  | LFS => if p_gc_mode p =? GC_GREEDY then (get_valid_blocks ly segno true (sit (segs s)), s)
           else get_cb_cost segno s
  end.

Definition count_bits (map : gset Z) (offset len : Z) : Z :=
  zsum (fun i => c_int (test_bit i map)) (seqZ offset len).

(** ** The search *)

(** [check_bg_victims]; [n] bounds the sections looked at. *)
Fixpoint bg_victims_loop (n : nat) (secno : Z) (s : gc_state) : Z * gc_state :=
  match n with
  | O => (NULL_SEGNO, s)
  | S n =>
    let map := victim_secmap (dirty_i (segs s)) in
    let secno := find_next_bit map (MAIN_SECS g) secno in
    if MAIN_SECS g <=? secno then (NULL_SEGNO, s)
    else if sec_usage_check secno s || no_fggc_candidate secno s then bg_victims_loop n (secno + 1) s
    else (GET_SEG_FROM_SEC g secno,
          set_segs (set_dirty_i (set_victim_secmap (map ∖ {[secno]}) (dirty_i (segs s))) (segs s)) s)
  end.
Definition check_bg_victims (s : gc_state) : Z * gc_state := bg_victims_loop (Z.to_nat (MAIN_SECS g)) 0 s.

(** The sections the search does not consider. *)
Definition skip_section (gc_type : Z) (p : victim_sel_policy) (secno : Z) (s : gc_state) : bool :=
  sec_usage_check secno s ||
  ((gc_type =? BG_GC) && test_bit secno (victim_secmap (dirty_i (segs s)))) ||
  ((gc_type =? FG_GC) && bool_decide (p_alloc_mode p = LFS) && no_fggc_candidate secno s).

(** The next offset and the number of segments searched. *)
Definition advance (p : victim_sel_policy) (segno nsearched : Z) : Z * Z :=
  let offset := u32 (segno + p_ofs_unit p) in
  if 1 <? p_ofs_unit p then
    let offset := u32 (offset - segno mod p_ofs_unit p) in
    (offset, u32 (nsearched + count_bits (p_dirty_segmap p) (u32 (offset - p_ofs_unit p)) (p_ofs_unit p)))
  else (offset, u32 (nsearched + 1)).

(** The body of the search for one segment, up to the label [next]. *)
Definition consider (gc_type : Z) (p : victim_sel_policy) (segno : Z) (f : found) (s : gc_state) : found * gc_state :=
  if skip_section gc_type p (GET_SEC_FROM_SEG g segno) s then (f, s)
  else let '(cost, s) := get_gc_cost segno p s in
       (if cost <? min_cost f then mk_found segno cost else f, s).

(** Where the next search will start. *)
Definition remember (p : victim_sel_policy) (last_victim segno : Z) (s : gc_state) : gc_state :=
  let v := if negb (c_true (last_victim_of (p_gc_mode p) s)) && (segno <=? last_victim)
           then u32 (last_victim + 1) else u32 (segno + 1) in
  set_last (p_gc_mode p) (v mod MAIN_SEGS g) s.

(** The [while (1)] loop; [None] when [n] rounds do not end it. *)
Fixpoint search_loop (n : nat) (gc_type last_victim : Z) (p : victim_sel_policy) (last_segment offset nsearched : Z)
    (f : found) (s : gc_state) : option (found * gc_state) :=
  match n with
  | O => None
  | S n =>
    let segno := find_next_bit (p_dirty_segmap p) last_segment offset in
    if last_segment <=? segno then
      let lv := last_victim_of (p_gc_mode p) s in
      if c_true lv then search_loop n gc_type last_victim p lv 0 nsearched f (set_last (p_gc_mode p) 0 s)
      else Some (f, s)
    else
      let '(offset, nsearched) := advance p segno nsearched in
      let '(f, s) := consider gc_type p segno f s in
      if p_max_search p <=? nsearched then Some (f, remember p last_victim segno s)
      else search_loop n gc_type last_victim p last_segment offset nsearched f s
  end.

(** Twice around the segments, and the two rounds that find an end. *)
Definition search_fuel : nat := Z.to_nat (2 * MAIN_SEGS g + 2).

(** The label [got_it]. *)
Definition got_it (gc_type : Z) (p : victim_sel_policy) (segno : Z) (s : gc_state) : Z * gc_state :=
  let secno := GET_SEC_FROM_SEG g segno in
  let s := match p_alloc_mode p with
           | LFS => if gc_type =? FG_GC then set_cur_victim_sec secno s
                    else set_segs (set_dirty_i (set_victim_secmap ({[secno]} ∪ victim_secmap (dirty_i (segs s)))
                                                  (dirty_i (segs s))) (segs s)) s
           | SSR => s
           end in
  (segno / p_ofs_unit p * p_ofs_unit p, s).

(** The victim, if one is found, and the state. *)
Definition get_victim_by_default (result gc_type type : Z) (mode : alloc_mode) (s : gc_state)
    : option (option Z * gc_state) :=
  let '(p, offset) := select_policy gc_type type mode s in
  if negb (result =? NULL_SEGNO) then
    Some (if IS_DATASEG (se_type (get_seg_entry result (sit (segs s)))) &&
             c_true (get_valid_blocks ly result false (sit (segs s))) &&
             negb (sec_usage_check (GET_SEC_FROM_SEG g result) s)
          then Some result else None, s)
  else if p_max_search p =? 0 then Some (None, s)
  else
    let last_victim := last_victim_of (p_gc_mode p) s in
    let '(bg, s) := match mode with
                    | LFS => if gc_type =? FG_GC then check_bg_victims s else (NULL_SEGNO, s)
                    | SSR => (NULL_SEGNO, s)
                    end in
    if negb (bg =? NULL_SEGNO) then let '(v, s) := got_it gc_type p bg s in Some (Some v, s)
    else match search_loop search_fuel gc_type last_victim p (MAIN_SEGS g) offset 0 (mk_found NULL_SEGNO (get_max_cost p)) s with
         | None => None
         | Some (f, s) =>
           if negb (min_segno f =? NULL_SEGNO) then let '(v, s) := got_it gc_type p (min_segno f) s in Some (Some v, s)
           else Some (None, s)
         end.

Definition __get_victim (victim gc_type : Z) (s : gc_state) : option (option Z * gc_state) :=
  get_victim_by_default victim gc_type NO_CHECK_TYPE LFS s.

(** The interface of Segment.v: a search for SSR in the background. *)
Definition ssr_victim (cur_victim min_mt type : Z) (s : seg_state) : option Z * list Z :=
  match get_victim_by_default NULL_SEGNO BG_GC type SSR (mk_gc s cur_victim min_mt) with
  | Some (v, s') => (v, last_victim (segs s'))
  | None => (None, last_victim s)
  end.

Definition default_v_ops (cur_victim min_mt : Z) : VictimOps := {| get_victim := ssr_victim cur_victim min_mt |}.

(** ** Lemmas: what a search changes *)

(** Cleaning's own records: times, and where the searches start. *)
Definition gc_like (s s' : gc_state) : Prop := exists lv mm mx,
  s' = mk_gc (set_sit (set_max_mtime mx (sit (segs s))) (set_last_victim lv (segs s))) (cur_victim_sec s) mm /\
  zlen lv = zlen (last_victim (segs s)) /\ zget 0 lv ALLOC_NEXT = zget 0 (last_victim (segs s)) ALLOC_NEXT.

Lemma set_max_mtime_id s : set_max_mtime (max_mtime s) s = s.
Proof. by destruct s. Qed.

Lemma gc_like_refl s : gc_like s s.
Proof.
  exists (last_victim (segs s)), (min_mtime s), (max_mtime (sit (segs s))). rewrite set_max_mtime_id.
  by destruct s as [[] ? ?].
Qed.

Lemma gc_like_trans s s' s'' : gc_like s s' -> gc_like s' s'' -> gc_like s s''.
Proof.
  intros (lv & mm & mx & -> & H1 & H2) (lv' & mm' & mx' & -> & H3 & H4).
  exists lv', mm', mx'. simpl in *. by rewrite H3, H4.
Qed.

Lemma set_last_like m v s : m = GC_CB \/ m = GC_GREEDY -> gc_like s (set_last m v s).
Proof.
  intros Hm. exists (zset (last_victim (segs s)) m v), (min_mtime s), (max_mtime (sit (segs s))).
  rewrite set_max_mtime_id, zlen_zset. split; [by destruct s as [[] ? ?]|]. split; [done|].
  apply zget_zset_ne. destruct Hm as [-> | ->]; discriminate.
Qed.

Lemma cost_like segno p s : gc_like s (get_gc_cost segno p s).2.
Proof.
  unfold get_gc_cost. destruct (p_alloc_mode p); [|apply gc_like_refl]. case_if; [apply gc_like_refl|].
  unfold get_cb_cost. cbv zeta. set (mt := section_mtime _ _ / _). cbn [snd].
  assert (H : gc_like s (if mt <? min_mtime s then mk_gc (segs s) (cur_victim_sec s) mt else s)).
  { case_if; [|apply gc_like_refl]. exists (last_victim (segs s)), mt, (max_mtime (sit (segs s))).
    rewrite set_max_mtime_id. by destruct s as [[] ? ?]. }
  set (s1 := if mt <? min_mtime s then _ else s) in *. clearbody s1. apply (gc_like_trans _ _ _ H).
  case_if; [|apply gc_like_refl]. exists (last_victim (segs s1)), (min_mtime s1), mt. by destruct s1 as [[] ? ?].
Qed.

(** What a search looks at is not changed. *)
Lemma like_views s s' : gc_like s s' ->
  dirty_i (segs s') = dirty_i (segs s) /\ cur_victim_sec s' = cur_victim_sec s /\
  (forall gc_type p secno, skip_section gc_type p secno s' = skip_section gc_type p secno s) /\
  (forall x, get_seg_entry x (sit (segs s')) = get_seg_entry x (sit (segs s))).
Proof. by intros (lv & mm & mx & -> & _ & _). Qed.

Lemma next_bit_found map size offset : find_next_bit map size offset < size -> find_next_bit map size offset ∈ map.
Proof.
  intros H. destruct (Z.le_gt_cases size offset) as [Hle|Hgt].
  - unfold find_next_bit in H. rewrite (proj2 (Z.leb_le _ _) Hle) in H. lia.
  - by apply find_next_bit_spec; [lia|].
Qed.

(** The segment a search ends with. *)
Definition chosen (gc_type : Z) (p : victim_sel_policy) (f f' : found) (s : gc_state) : Prop :=
  min_segno f' ∈ p_dirty_segmap p /\
  skip_section gc_type p (GET_SEC_FROM_SEG g (min_segno f')) s = false /\ min_cost f' < min_cost f /\
  (p_alloc_mode p = SSR -> min_cost f' = ckpt_valid_blocks (get_seg_entry (min_segno f') (sit (segs s)))).

Lemma chosen_like gc_type p f f' s s' : gc_like s s' -> chosen gc_type p f f' s' -> chosen gc_type p f f' s.
Proof.
  intros Hl (H1 & H2 & H3 & H4). destruct (like_views s s' Hl) as (_ & _ & V1 & V2). rewrite V1 in H2.
  split; [done|]. split; [done|]. split; [done|]. intros Hm. by rewrite <- V2, H4.
Qed.

Lemma consider_spec gc_type p segno f s : segno ∈ p_dirty_segmap p ->
  let '(f', s') := consider gc_type p segno f s in
  gc_like s s' /\ (f' = f \/ min_segno f' = segno /\ chosen gc_type p f f' s).
Proof.
  intros Hin. unfold consider. destruct (skip_section _ _ _ _) eqn:Hsk; [split; [apply gc_like_refl|by left]|].
  pose proof (cost_like segno p s) as Hl. destruct (get_gc_cost segno p s) as [cost s1] eqn:E. simpl in Hl.
  split; [done|]. destruct (Z.ltb_spec cost (min_cost f)) as [Hc|]; [right|by left].
  split; [done|]. split; [done|]. split; [done|]. split; [done|]. intros Hm. simpl.
  unfold get_gc_cost in E. rewrite Hm in E. by injection E as <- _.
Qed.

Lemma search_loop_chosen n gc_type lastv p : p_gc_mode p = GC_CB \/ p_gc_mode p = GC_GREEDY ->
  forall last_segment offset nsearched f s f' s',
  search_loop n gc_type lastv p last_segment offset nsearched f s = Some (f', s') ->
  gc_like s s' /\ (f' = f \/ chosen gc_type p f f' s).
Proof.
  intros Hm. induction n as [|n IH]; intros last_segment offset nsearched f s f' s' H; [done|]. simpl in H.
  set (segno := find_next_bit _ _ _) in H. destruct (Z.leb_spec last_segment segno) as [|Hlt].
  - case_if_in H; [|injection H as <- <-; split; [apply gc_like_refl|by left]].
    apply IH in H as [H1 H2]. pose proof (set_last_like _ 0 s Hm) as Hl. split; [by eapply gc_like_trans|].
    destruct H2 as [|H2]; [by left|right; by apply (chosen_like _ _ _ _ _ _ Hl)].
  - apply next_bit_found in Hlt. pose proof (consider_spec gc_type p segno f s Hlt) as Hc.
    destruct (advance p segno nsearched) as [offset' nsearched']. destruct (consider _ _ _ _ _) as [f1 s1].
    destruct Hc as [Hl Hf]. assert (Hfin : forall f2 s2, gc_like s1 s2 -> (f2 = f1 \/ chosen gc_type p f1 f2 s1) ->
      gc_like s s2 /\ (f2 = f \/ chosen gc_type p f f2 s)).
    { intros f2 s2 Hl2 Hf2. split; [by eapply gc_like_trans|].
      destruct Hf2 as [->|Hf2]; [destruct Hf as [|[_ Hf]]; [by left|by right]|right].
      apply (chosen_like _ _ _ _ _ _ Hl) in Hf2. destruct Hf as [->|[_ (_ & _ & Hf & _)]]; [done|].
      destruct Hf2 as (H1 & H2 & H3 & H4). split; [done|]. split; [done|]. split; [lia|done]. }
    case_if_in H.
    + injection H as <- <-. apply Hfin; [by apply set_last_like|by left].
    + apply IH in H as [H1 H2]. by apply Hfin.
Qed.

(** ** Lemmas: the search ends *)

Hypothesis Hly : layout_ok ly.

(** The lists of dirty segments, and where the searches start. *)
Record victim_wf (s : seg_state) : Prop := {
  vw_range : forall t x, 0 <= t <= DIRTY -> x ∈ dirty_map t (dirty_i s) -> 0 <= x < MAIN_SEGS g;
  vw_count : forall t, 0 <= t <= DIRTY -> zget 0 (nr_dirty (dirty_i s)) t = Z.of_nat (size (dirty_map t (dirty_i s)));
  vw_len : zlen (last_victim s) = 4;
  vw_last : forall m, m = GC_CB \/ m = GC_GREEDY -> 0 <= zget 0 (last_victim s) m < MAIN_SEGS g
}.

Lemma inv_victim_wf discard_en s : seg_inv ly discard_en s -> zlen (last_victim s) = 4 ->
  (forall m, m = GC_CB \/ m = GC_GREEDY -> 0 <= zget 0 (last_victim s) m < MAIN_SEGS g) -> victim_wf s.
Proof.
  intros [Hc Hd] H1 H2. assert (Hin : forall x, x ∈ dirty_map DIRTY (dirty_i s) -> 0 <= x < MAIN_SEGS g).
  { intros x Hx. apply (fw_segs _ _ (iv_free _ _ _ _ Hc)), (iv_dirty _ _ _ Hd x Hx). }
  split; [|intros t Ht; apply (iv_nr _ _ _ Hd); unfold DIRTY, NR_DIRTY_TYPE in *; lia|done|done].
  intros t x Ht Hx. apply Hin. destruct (decide (t = DIRTY)) as [->|]; [done|].
  apply (iv_types _ _ _ Hd x t); [unfold is_type, NR_CURSEG_TYPE, DIRTY in *; lia|done].
Qed.

Definition unit_ok (p : victim_sel_policy) : Prop :=
  0 < p_ofs_unit p /\ exists k, MAIN_SEGS g = k * p_ofs_unit p.

Lemma advance_offset p segno nsearched : unit_ok p -> 0 <= segno < MAIN_SEGS g ->
  segno < (advance p segno nsearched).1 <= MAIN_SEGS g.
Proof.
  intros [Hu [k Hk]] Hs. pose proof (geom_bounds g (ly_geom_ok ly Hly)) as [_ Hb]. unfold advance.
  set (u := p_ofs_unit p) in *. pose proof (Z.mod_pos_bound segno u Hu) as Hm. pose proof (Z.div_mod segno u ltac:(lia)) as Hd.
  assert (segno / u < k) by (apply Z.div_lt_upper_bound; lia).
  assert (Hle : segno + u - segno mod u <= MAIN_SEGS g).
  { replace (segno + u - segno mod u) with (u * (segno / u + 1)) by lia. rewrite Hk, (Z.mul_comm k). apply Z.mul_le_mono_nonneg_l; lia. }
  destruct (Z.ltb_spec 1 u) as [|H1]; cbn [fst].
  - replace (u32 (u32 (segno + u) - segno mod u)) with (segno + u - segno mod u); [lia|].
    unfold u32. rewrite Zminus_mod_idemp_l. symmetry. apply Z.mod_small. lia.
  - assert (u = 1) as -> by lia. rewrite Z.mod_1_r in Hle. rewrite u32_small by lia. lia.
Qed.

Definition rounds_left (last_segment offset lv : Z) : Z :=
  Z.max 0 (last_segment - offset) + (if c_true lv then lv + 1 else 0) + 1.

Lemma last_of_like s s' : gc_like s s' -> zlen (last_victim (segs s')) = zlen (last_victim (segs s)).
Proof. by intros (lv & mm & mx & -> & H & _). Qed.

Lemma consider_last gc_type p segno f s m : last_victim_of m (consider gc_type p segno f s).2 = last_victim_of m s.
Proof.
  unfold consider. destruct (skip_section _ _ _ _); [done|].
  assert (H : last_victim_of m (get_gc_cost segno p s).2 = last_victim_of m s).
  { unfold get_gc_cost. destruct (p_alloc_mode p); [|done]. case_if; [done|]. unfold get_cb_cost. cbn [snd]. by repeat case_if. }
  by destruct (get_gc_cost segno p s).
Qed.

Lemma search_loop_ends n gc_type lastv p : unit_ok p -> 0 <= p_gc_mode p < 4 ->
  (forall x, x ∈ p_dirty_segmap p -> 0 <= x < MAIN_SEGS g) ->
  forall last_segment offset nsearched f s, 0 <= offset <= MAIN_SEGS g -> 0 <= last_segment <= MAIN_SEGS g ->
  zlen (last_victim (segs s)) = 4 -> 0 <= last_victim_of (p_gc_mode p) s < MAIN_SEGS g ->
  rounds_left last_segment offset (last_victim_of (p_gc_mode p) s) <= Z.of_nat n ->
  is_Some (search_loop n gc_type lastv p last_segment offset nsearched f s).
Proof.
  intros Hu Hm Hin. induction n as [|n IH]; intros last_segment offset nsearched f s Ho Hl Hlen Hlv Hn.
  { unfold rounds_left in Hn. case_if_in Hn; lia. }
  simpl. set (segno := find_next_bit _ _ _). destruct (Z.leb_spec last_segment segno) as [|Hlt].
  - destruct (c_true (last_victim_of _ s)) eqn:E; [|by eexists]. unfold rounds_left in Hn. rewrite E in Hn.
    assert (Hz : last_victim_of (p_gc_mode p) (set_last (p_gc_mode p) 0 s) = 0)
      by (unfold last_victim_of; simpl; apply zget_zset_eq; lia).
    apply IH; [lia|lia|simpl; by rewrite zlen_zset|rewrite Hz; lia|].
    rewrite Hz. unfold rounds_left. change (c_true 0) with false. cbv iota in Hn |- *. lia.
  - pose proof (Hin segno (next_bit_found _ _ _ Hlt)) as Hs.
    assert (Hge : offset <= segno).
    { destruct (Z.le_gt_cases last_segment offset) as [Hle|Hgt]; [|by apply find_next_bit_spec; lia].
      unfold segno, find_next_bit in Hlt. rewrite (proj2 (Z.leb_le _ _) Hle) in Hlt. lia. }
    pose proof (advance_offset p segno nsearched Hu Hs) as Ha. destruct (advance _ _ _) as [offset' nsearched'].
    pose proof (consider_last gc_type p segno f s (p_gc_mode p)) as Hc.
    pose proof (consider_spec gc_type p segno f s (next_bit_found _ _ _ Hlt)) as Hs1.
    destruct (consider _ _ _ _ _) as [f1 s1]. destruct Hs1 as [Hl1 _]. cbn [fst snd] in *.
    case_if; [by eexists|]. apply IH; [lia|lia|by rewrite (last_of_like _ _ Hl1)|by rewrite Hc|].
    rewrite Hc. unfold rounds_left in *. lia.
Qed.

Definition last_ok (s : gc_state) : Prop :=
  zlen (last_victim (segs s)) = 4 /\
  forall m, m = GC_CB \/ m = GC_GREEDY -> 0 <= last_victim_of m s < MAIN_SEGS g.

Lemma set_last_ok m v s : m = GC_CB \/ m = GC_GREEDY -> 0 <= v < MAIN_SEGS g -> last_ok s -> last_ok (set_last m v s).
Proof.
  intros Hm Hv [H1 H2]. unfold last_ok, last_victim_of. simpl. rewrite zlen_zset. split; [done|]. intros m' Hm'.
  rewrite zget_zset by (rewrite H1; destruct Hm as [-> | ->]; unfold GC_CB, GC_GREEDY; lia). case_if; [done|by apply H2].
Qed.

Lemma remember_ok p lastv segno s : p_gc_mode p = GC_CB \/ p_gc_mode p = GC_GREEDY -> last_ok s -> last_ok (remember p lastv segno s).
Proof.
  intros Hm H. unfold remember. apply set_last_ok; [done| |done]. pose proof (geom_bounds g (ly_geom_ok ly Hly)).
  apply Z.mod_pos_bound. lia.
Qed.

Lemma consider_ok gc_type p segno f s : last_ok s -> segno ∈ p_dirty_segmap p -> last_ok (consider gc_type p segno f s).2.
Proof.
  intros [H1 H2] Hin. split.
  - pose proof (consider_spec gc_type p segno f s Hin) as H. destruct (consider _ _ _ _ _) as [f1 s1]. destruct H as [H _].
    simpl. by rewrite (last_of_like _ _ H).
  - intros m Hm. rewrite consider_last. by apply H2.
Qed.

Lemma search_loop_last n gc_type lastv p : p_gc_mode p = GC_CB \/ p_gc_mode p = GC_GREEDY ->
  forall last_segment offset nsearched f s f' s', last_ok s ->
  search_loop n gc_type lastv p last_segment offset nsearched f s = Some (f', s') -> last_ok s'.
Proof.
  intros Hm. pose proof (geom_bounds g (ly_geom_ok ly Hly)).
  induction n as [|n IH]; intros last_segment offset nsearched f s f' s' Hok He; [done|]. simpl in He.
  set (segno := find_next_bit _ _ _) in He. destruct (Z.leb_spec last_segment segno) as [|Hlt].
  - case_if_in He; [|by injection He as <- <-]. apply IH in He; [done|]. apply set_last_ok; [done|lia|done].
  - pose proof (consider_ok gc_type p segno f s Hok (next_bit_found _ _ _ Hlt)) as Hc.
    destruct (advance _ _ _) as [offset' nsearched']. destruct (consider _ _ _ _ _) as [f1 s1]. simpl in Hc.
    case_if_in He; [injection He as <- <-; by apply remember_ok|by apply IH in He].
Qed.

(** ** Lemmas: the cheapest segment for SSR *)

Definition ssr_eligible (cur_victim : Z) (t : Z) (s : seg_state) (x : Z) : Prop :=
  x ∈ dirty_map t (dirty_i s) /\ IS_CURSEC ly (GET_SEC_FROM_SEG g x) s = false /\ cur_victim <> GET_SEC_FROM_SEG g x /\
  GET_SEC_FROM_SEG g x ∉ victim_secmap (dirty_i s) /\ ckpt_valid_blocks (get_seg_entry x (sit s)) < 512.

Section ssr.
Variable s0 : gc_state.
Variable t : Z.
Hypothesis Ht : 0 <= t <= DIRTY.
Hypothesis Hwf : victim_wf (segs s0).

Let M : gset Z := dirty_map t (dirty_i (segs s0)).
Let cost (x : Z) : Z := ckpt_valid_blocks (get_seg_entry x (sit (segs s0))).
Let elig : Z -> Prop := ssr_eligible (cur_victim_sec s0) t (segs s0).
Let p : victim_sel_policy := mk_policy SSR GC_GREEDY M (Z.of_nat (size M)) 1.

Lemma skip_eligible x : x ∈ M -> cost x < 512 -> skip_section BG_GC p (GET_SEC_FROM_SEG g x) s0 = false <-> elig x.
Proof.
  intros Hx Hc. unfold skip_section, sec_usage_check, elig, ssr_eligible. cbn [Z.eqb BG_GC FG_GC andb]. change (BG_GC =? FG_GC) with false.
  change (BG_GC =? BG_GC) with true. cbn [andb]. rewrite !orb_false_iff, test_bit_false, Z.eqb_neq. tauto.
Qed.

(** [f] is the best of the segments [V]. *)
Definition best (V : gset Z) (f : found) : Prop :=
  (f = mk_found NULL_SEGNO 512 /\ forall x, x ∈ V -> ~ elig x) \/
  (min_segno f ∈ V /\ elig (min_segno f) /\ min_cost f = cost (min_segno f) /\ forall x, x ∈ V -> elig x -> min_cost f <= cost x).

Lemma best_step V f s x : best V f -> x ∈ M -> gc_like s0 s ->
  let '(f', s') := consider BG_GC p x f s in gc_like s0 s' /\ best ({[x]} ∪ V) f'.
Proof.
  intros Hb Hx Hl. pose proof (consider_spec BG_GC p x f s Hx) as Hc.
  destruct (like_views s0 s Hl) as (_ & _ & V1 & V2). unfold consider in *. rewrite V1 in *.
  assert (Hcost : get_gc_cost x p s = (cost x, s)) by (unfold get_gc_cost, cost; simpl; by rewrite V2).
  rewrite Hcost in *. assert (Hin : forall y, y ∈ {[x]} ∪ V <-> y = x \/ y ∈ V) by (intros; set_solver).
  destruct (skip_section _ _ _ _) eqn:Hsk.
  - split; [done|]. assert (Hne : ~ elig x).
    { intros He. rewrite (proj2 (skip_eligible x Hx (proj2 (proj2 (proj2 (proj2 He))))) He) in Hsk. done. }
    destruct Hb as [[-> Hb]|(B1 & B2 & B3 & B4)]; [left|right].
    + split; [done|]. intros y [->|Hy]%Hin; [done|by apply Hb].
    + rewrite Hin. split; [by right|]. split; [done|]. split; [done|]. intros y [->|Hy]%Hin Hye; [done|by apply B4].
  - split; [done|]. destruct (Z.ltb_spec (cost x) (min_cost f)) as [Hlt|Hge].
    + assert (Hc512 : min_cost f <= 512) by (destruct Hb as [[-> _]|(_ & B2 & B3 & _)]; [done|rewrite B3; destruct B2 as (_ & _ & _ & _ & B2); unfold cost; lia]).
      assert (He : elig x) by (apply skip_eligible; [done|lia|done]).
      right. simpl. rewrite Hin. split; [by left|]. split; [done|]. split; [done|].
      intros y [->|Hy]%Hin Hye; [lia|]. destruct Hb as [[_ Hb]|(_ & _ & _ & B4)]; [by destruct (Hb y Hy)|].
      specialize (B4 y Hy Hye). lia.
    + destruct Hb as [[-> Hb]|(B1 & B2 & B3 & B4)]; [left|right].
      * split; [done|]. intros y [->|Hy]%Hin; [|by apply Hb]. intros (_ & _ & _ & _ & He). simpl in Hge. unfold cost in Hge. lia.
      * rewrite Hin. split; [by right|]. split; [done|]. split; [done|]. intros y [->|Hy]%Hin Hye; [done|by apply B4].
Qed.

(** How far a search has come: [V] is done. *)
Definition progress (V : gset Z) (start last_segment offset : Z) (s : gc_state) : Prop :=
  V ⊆ M /\ (size V < size M)%nat /\ gc_like s0 s /\
  ((last_segment = MAIN_SEGS g /\ 0 <= start <= offset /\ (forall x, x ∈ M -> x ∈ V <-> start <= x < offset) /\
      (start = 0 \/ start = last_victim_of GC_GREEDY s)) \/
   (last_segment = start /\ 0 <= offset /\ last_victim_of GC_GREEDY s = 0 /\
      (forall x, x ∈ M -> x ∈ V <-> x < offset \/ start <= x))).

Lemma not_all V : V ⊆ M -> (size V < size M)%nat -> ~ (forall x, x ∈ M -> x ∈ V).
Proof. intros H1 H2 H3. apply subseteq_size in H3. lia. Qed.

Lemma search_loop_best n lastv : forall V start last_segment offset f s f' s',
  last_ok s -> progress V start last_segment offset s -> best V f ->
  search_loop n BG_GC lastv p last_segment offset (Z.of_nat (size V)) f s = Some (f', s') -> best M f'.
Proof.
  pose proof (geom_bounds g (ly_geom_ok ly Hly)) as Hgb. pose proof (vw_range _ Hwf t) as Hr.
  induction n as [|n IH]; intros V start last_segment offset f s f' s' Hok Hp Hb He; [done|]. simpl in He.
  set (segno := find_next_bit _ _ _) in He. destruct Hp as (P1 & P2 & P3 & P4).
  destruct (Z.leb_spec last_segment segno) as [Hge|Hlt].
  - assert (Hno : forall x, x ∈ M -> ~ offset <= x < last_segment).
    { intros x Hx Hxr. destruct (find_next_bit_spec M last_segment offset ltac:(lia)) as (F1 & F2 & _).
      apply (F2 x); [|done]. fold segno. simpl in segno. fold segno in F1. unfold segno in Hge. simpl in Hge. lia. }
    destruct P4 as [(-> & P5 & P6 & P7)|(-> & P5 & P6 & P7)].
    + case_if_in He.
      * destruct (decide (start = 0)) as [->|Hs0].
        { exfalso. apply (not_all V P1 P2). intros x Hx. apply P6; [done|]. specialize (Hr x Ht Hx). specialize (Hno x Hx). lia. }
        destruct P7 as [|P7]; [done|]. apply (IH V start) in He; [exact He| | |exact Hb].
        { apply set_last_ok; [by right|lia|done]. }
        split; [done|]. split; [done|]. split; [eapply gc_like_trans; [done|apply set_last_like; by right]|].
        right. split; [by rewrite P7|]. split; [done|]. split; [apply zget_zset_eq; rewrite (proj1 Hok); unfold GC_GREEDY; lia|].
        intros x Hx. rewrite P6 by done. specialize (Hr x Ht Hx). specialize (Hno x Hx). lia.
      * exfalso. apply c_true_false in E. simpl in E. apply (not_all V P1 P2). intros x Hx. apply P6; [done|].
        specialize (Hr x Ht Hx). specialize (Hno x Hx). destruct P7; lia.
    + exfalso. apply (not_all V P1 P2). intros x Hx. apply P7; [done|]. specialize (Hno x Hx). lia.
  - pose proof (next_bit_found _ _ _ Hlt) as Hx. fold segno in Hx. simpl in Hx. pose proof (Hr segno Ht Hx) as Hsr.
    assert (Hlo : offset <= segno /\ forall x, x ∈ M -> ~ offset <= x < segno).
    { destruct (Z.le_gt_cases last_segment offset) as [Hle|Hgt].
      - unfold segno, find_next_bit in Hlt. rewrite (proj2 (Z.leb_le _ _) Hle) in Hlt. lia.
      - destruct (find_next_bit_spec M last_segment offset ltac:(lia)) as (F1 & F2 & _). split; [apply F1|].
        intros x Hxm Hxr. by apply (F2 x). }
    assert (Hn : segno ∉ V) by (destruct P4 as [(-> & P5 & P6 & P7)|(-> & P5 & P6 & P7)]; rewrite ?P6, ?P7 by done; lia).
    pose proof (best_step V f s segno Hb Hx P3) as Hbs. pose proof (consider_ok BG_GC p segno f s Hok Hx) as Hok1.
    pose proof (consider_last BG_GC p segno f s GC_GREEDY) as Hl1.
    pose proof (size_add V segno Hn) as Hsz. pose proof (range_size M (MAIN_SEGS g) ltac:(lia) (fun x => Hr x Ht)) as HM.
    assert (HV : {[segno]} ∪ V ⊆ M) by set_solver.
    destruct (consider _ _ _ _ _) as [f1 s1]. destruct Hbs as [Hl Hbest]. simpl in Hok1, Hl1.
    rewrite !u32_small in He by lia. replace (Z.of_nat (size V) + 1) with (Z.of_nat (size ({[segno]} ∪ V))) in He by lia.
    destruct (Z.leb_spec (Z.of_nat (size M)) (Z.of_nat (size ({[segno]} ∪ V)))) as [Hall|Hmore].
    + injection He as <- <-. replace M with ({[segno]} ∪ V); [done|]. apply set_subseteq_size_eq; [exact HV|lia].
    + apply (IH ({[segno]} ∪ V) start) in He; [exact He|exact Hok1| |exact Hbest].
      split; [done|]. split; [lia|]. split; [done|]. rewrite Hl1. destruct Hlo as [Hlo Hnone].
      destruct P4 as [(-> & P5 & P6 & P7)|(-> & P5 & P6 & P7)]; [left|right].
      * split; [done|]. split; [lia|]. split; [|done]. intros x Hxm. rewrite elem_of_union, elem_of_singleton, P6 by done.
        specialize (Hnone x Hxm). lia.
      * split; [done|]. split; [lia|]. split; [done|]. intros x Hxm. rewrite elem_of_union, elem_of_singleton, P7 by done.
        specialize (Hnone x Hxm). lia.
Qed.
End ssr.

(** ** SSR *)

Definition ssr_policy (t : Z) (s : seg_state) : victim_sel_policy :=
  mk_policy SSR GC_GREEDY (dirty_map t (dirty_i s))
    (if max_victim_search env <? u32 (zget 0 (nr_dirty (dirty_i s)) t) then max_victim_search env
     else u32 (zget 0 (nr_dirty (dirty_i s)) t)) 1.
Definition ssr_offset (t : Z) (s : seg_state) : Z :=
  if (t =? CURSEG_HOT_DATA) || IS_NODESEG t then 0 else zget 0 (last_victim s) GC_GREEDY.

Lemma ssr_policy_eq cv mm t s : select_policy BG_GC t SSR (mk_gc s cv mm) = (ssr_policy t s, ssr_offset t s).
Proof. reflexivity. Qed.

(** A search for SSR, unfolded. *)
Lemma ssr_victim_eq cv mm t s :
  get_victim_by_default NULL_SEGNO BG_GC t SSR (mk_gc s cv mm) =
  let p := ssr_policy t s in
  if p_max_search p =? 0 then Some (None, mk_gc s cv mm)
  else match search_loop search_fuel BG_GC (zget 0 (last_victim s) GC_GREEDY) p (MAIN_SEGS g) (ssr_offset t s) 0
               (mk_found NULL_SEGNO 512) (mk_gc s cv mm) with
       | None => None
       | Some (f, s') => Some (if min_segno f =? NULL_SEGNO then None else Some (min_segno f), s')
       end.
Proof.
  unfold get_victim_by_default. rewrite ssr_policy_eq. cbv zeta. change (negb (NULL_SEGNO =? NULL_SEGNO)) with false.
  cbv iota. destruct (p_max_search (ssr_policy t s) =? 0); [done|].
  change (get_max_cost (ssr_policy t s)) with 512. change (p_gc_mode (ssr_policy t s)) with GC_GREEDY.
  change (last_victim_of GC_GREEDY (mk_gc s cv mm)) with (zget 0 (last_victim s) GC_GREEDY).
  destruct (search_loop _ _ _ _ _ _ _ _ _) as [[f s']|]; [|done]. unfold got_it. cbn [p_alloc_mode ssr_policy p_ofs_unit].
  destruct (min_segno f =? NULL_SEGNO); [done|]. simpl. by rewrite Z.div_1_r, Z.mul_1_r.
Qed.

(** The implementation keeps the promises of the interface, whatever the state. *)
#[export] Instance default_victim_laws cv mm : @VictimLaws (default_v_ops cv mm).
Proof.
  assert (H : forall t s seg lv, ssr_victim cv mm t s = (Some seg, lv) ->
    seg ∈ dirty_map t (dirty_i s) /\ ckpt_valid_blocks (get_seg_entry seg (sit s)) < 512).
  { intros t s seg lv H. unfold ssr_victim in H. rewrite ssr_victim_eq in H. cbv zeta in H. case_if_in H; [done|].
    destruct (search_loop _ _ _ _ _ _ _ _ _) as [[f s']|] eqn:E1; [|done].
    apply search_loop_chosen in E1 as [_ [->|(H1 & H2 & H3 & H4)]]; [done| |by right]. specialize (H4 eq_refl).
    destruct (min_segno f =? NULL_SEGNO); [done|]. injection H as <- _. split; [done|]. simpl in H3, H4. lia. }
  split; [intros; by eapply H|]. intros t s. unfold get_victim, default_v_ops, ssr_victim. rewrite ssr_victim_eq. cbv zeta.
  destruct (_ =? 0); [done|]. destruct (search_loop _ _ _ _ _ _ _ _ _) as [[f s']|] eqn:E1; [|done].
  apply search_loop_chosen in E1 as [(lv & ? & ? & -> & _ & Hlv) _]; [|by right]. done.
Qed.

Lemma search_loop_ssr n lastv p : p_alloc_mode p = SSR -> forall last_segment offset nsearched f s f' s',
  search_loop n BG_GC lastv p last_segment offset nsearched f s = Some (f', s') ->
  exists lv, s' = set_segs (set_last_victim lv (segs s)) s.
Proof.
  intros Hm. induction n as [|n IH]; intros last_segment offset nsearched f s f' s' He; [done|]. simpl in He.
  assert (Hid : forall x, s' = set_segs (set_last_victim x (segs s)) s -> exists lv, s' = set_segs (set_last_victim lv (segs s)) s)
    by eauto.
  set (segno := find_next_bit _ _ _) in He. destruct (last_segment <=? segno).
  - case_if_in He; [|injection He as _ <-; apply (Hid (last_victim (segs s))); by destruct s as [[] ? ?]].
    apply IH in He as [lv ->]. by apply (Hid lv).
  - destruct (advance _ _ _) as [offset' nsearched'].
    assert (Hc : (consider BG_GC p segno f s).2 = s)
      by (unfold consider, get_gc_cost; rewrite Hm; by destruct (skip_section _ _ _ _)).
    destruct (consider _ _ _ _ _) as [f1 s1]. simpl in Hc. subst s1.
    case_if_in He; [injection He as _ <-; by eapply Hid|]. by apply IH in He.
Qed.

(** C30. A search for SSR over at most [max_victim_search] dirty segments of the
    type (4096 unless configured; with more the code gives up early) ends,
    changes nothing but where the next search starts, and returns a segment of the
    type with the fewest blocks valid or checkpointed, among those with a block
    to spare outside the current sections, the section being cleaned and the
    victims of background cleaning; it fails only when there is none.  This
    holds wherever the search starts and although it wraps around. *)
Theorem ssr_victim_cheapest cv mm t s :
  is_type t -> victim_wf s -> zget 0 (nr_dirty (dirty_i s)) t <= max_victim_search env ->
  exists v lv, get_victim_by_default NULL_SEGNO BG_GC t SSR (mk_gc s cv mm) = Some (v, mk_gc (set_last_victim lv s) cv mm) /\
    victim_wf (set_last_victim lv s) /\
    match v with
    | Some seg => ssr_eligible cv t s seg /\
        forall x, ssr_eligible cv t s x -> ckpt_valid_blocks (get_seg_entry seg (sit s)) <= ckpt_valid_blocks (get_seg_entry x (sit s))
    | None => forall x, ~ ssr_eligible cv t s x
    end.
Proof.
  intros Ht Hwf Hmax. rewrite ssr_victim_eq. cbv zeta. pose proof (geom_bounds g (ly_geom_ok ly Hly)) as Hgb.
  assert (Ht' : 0 <= t <= DIRTY) by (unfold is_type, NR_CURSEG_TYPE, DIRTY in *; lia).
  pose proof (vw_range _ Hwf t) as Hr. pose proof (vw_count _ Hwf t Ht') as Hnr.
  pose proof (range_size (dirty_map t (dirty_i s)) (MAIN_SEGS g) ltac:(lia) (fun x => Hr x Ht')) as HM.
  unfold ssr_policy. rewrite Hnr in *. rewrite u32_small, (proj2 (Z.ltb_ge _ _)) by lia. cbn [p_max_search].
  destruct (Z.eqb_spec (Z.of_nat (size (dirty_map t (dirty_i s)))) 0) as [H0|H0].
  { exists None, (last_victim s). split; [by destruct s|]. split; [by destruct s|]. intros x [Hx _].
    assert (dirty_map t (dirty_i s) = ∅) as Hem by (apply leibniz_equiv, size_empty_inv; lia). rewrite Hem in Hx. set_solver. }
  set (p := mk_policy SSR GC_GREEDY _ _ 1). set (s0 := mk_gc s cv mm).
  pose proof (vw_last _ Hwf GC_GREEDY (or_intror eq_refl)) as Hlv.
  assert (Ho : ssr_offset t s = 0 \/ ssr_offset t s = last_victim_of GC_GREEDY s0) by (unfold ssr_offset; case_if; [by left|by right]).
  assert (Hor : 0 <= ssr_offset t s <= MAIN_SEGS g) by (destruct Ho as [->|Ho]; [lia|rewrite Ho; unfold last_victim_of; simpl; lia]).
  destruct (search_loop_ends search_fuel BG_GC (zget 0 (last_victim s) GC_GREEDY) p) with (last_segment := MAIN_SEGS g)
    (offset := ssr_offset t s) (nsearched := 0) (f := mk_found NULL_SEGNO 512) (s := s0) as [[f s'] E].
  { split; [done|]. exists (MAIN_SEGS g). simpl. lia. }
  { done. } { by apply (fun x => Hr x Ht'). } { done. } { lia. } { apply Hwf. } { done. }
  { unfold rounds_left, search_fuel. unfold last_victim_of. simpl. case_if; lia. }
  rewrite E. assert (Hok : last_ok s0) by (split; [apply Hwf|apply Hwf]).
  destruct (search_loop_ssr _ _ p eq_refl _ _ _ _ _ _ _ E) as [lv ->].
  pose proof (search_loop_last _ _ _ p (or_intror eq_refl) _ _ _ _ _ _ _ Hok E) as [L1 L2].
  exists (if min_segno f =? NULL_SEGNO then None else Some (min_segno f)), lv. split; [done|].
  split; [destruct Hwf as [W1 W2 W3 W4]; by split|].
  pose proof (search_loop_best s0 t Ht' Hwf search_fuel (zget 0 (last_victim s) GC_GREEDY) ∅ (ssr_offset t s) (MAIN_SEGS g) (ssr_offset t s)
    (mk_found NULL_SEGNO 512) s0 f (set_segs (set_last_victim lv (segs s0)) s0) Hok) as B.
  rewrite size_empty in B. specialize (fun H1 H2 => B H1 H2 E). destruct B as [[-> B1]|(B1 & B2 & B3 & B4)].
  - split; [set_solver|]. split; [rewrite size_empty; simpl; lia|]. split; [apply gc_like_refl|]. left.
    split; [done|]. split; [lia|]. split; [intros x _; rewrite elem_of_empty; lia|done].
  - left. split; [done|]. intros x Hx. by apply elem_of_empty in Hx.
  - intros x Hx. by apply (B1 x); [apply Hx|].
  - rewrite (proj2 (Z.eqb_neq _ _)); [|specialize (Hr _ Ht' B1); unfold NULL_SEGNO; lia].
    split; [done|]. intros x Hx. rewrite B3 in B4. by apply B4; [apply Hx|].
Qed.

(** ** Cleaning *)

(** The fields cleaning itself owns do not matter to the segments. *)
Lemma inv_gc_fields discard_en vm mx lv s : seg_inv ly discard_en s ->
  seg_inv ly discard_en (set_dirty_i (set_victim_secmap vm (dirty_i s)) (set_sit (set_max_mtime mx (sit s)) (set_last_victim lv s))).
Proof.
  intros [[[] C2 C3 C4 C5 C6 C7] [D1 D2 D3 D4 D5 D6]]. split; split; try done.
  intros t Ht. by destruct (C5 t Ht).
Qed.

Lemma wf_gc_fields vm mx lv s : victim_wf s -> zlen lv = 4 ->
  (forall m, m = GC_CB \/ m = GC_GREEDY -> 0 <= zget 0 lv m < MAIN_SEGS g) ->
  victim_wf (set_dirty_i (set_victim_secmap vm (dirty_i s)) (set_sit (set_max_mtime mx (sit s)) (set_last_victim lv s))).
Proof. intros [W1 W2 W3 W4] H1 H2. by split. Qed.

Definition vsecs (s : gc_state) : gset Z := victim_secmap (dirty_i (segs s)).

Lemma bg_loop_spec n : forall secno s, 0 <= secno ->
  let '(v, s') := bg_victims_loop n secno s in
  (v = NULL_SEGNO /\ s' = s /\ (MAIN_SECS g - secno <= Z.of_nat n -> forall c, c ∈ vsecs s -> secno <= c < MAIN_SECS g ->
     sec_usage_check c s || no_fggc_candidate c s = true)) \/
  (exists c, c ∈ vsecs s /\ 0 <= c < MAIN_SECS g /\ v = GET_SEG_FROM_SEC g c /\
     sec_usage_check c s || no_fggc_candidate c s = false /\
     s' = set_segs (set_dirty_i (set_victim_secmap (vsecs s ∖ {[c]}) (dirty_i (segs s))) (segs s)) s).
Proof.
  induction n as [|n IH]; intros secno s H0.
  { left. split; [done|]. split; [done|]. lia. }
  simpl. fold (vsecs s). set (c := find_next_bit (vsecs s) (MAIN_SECS g) secno).
  destruct (Z.leb_spec (MAIN_SECS g) c) as [Hge|Hlt].
  - left. split; [done|]. split; [done|]. intros _ x Hx Hr. exfalso.
    destruct (find_next_bit_spec (vsecs s) (MAIN_SECS g) secno ltac:(lia)) as (F1 & F2 & _). apply (F2 x); [|done]. fold c. lia.
  - assert (Hle : secno <= c).
    { destruct (Z.le_gt_cases (MAIN_SECS g) secno) as [Hle|Hgt]; [|by apply find_next_bit_spec; lia].
      unfold c, find_next_bit in Hlt. rewrite (proj2 (Z.leb_le _ _) Hle) in Hlt. lia. }
    destruct (sec_usage_check c s || no_fggc_candidate c s) eqn:Hu.
    + specialize (IH (c + 1) s ltac:(lia)). destruct (bg_victims_loop n (c + 1) s) as [v s'].
      destruct IH as [(H1 & H2 & H3)|H]; [left|by right]. split; [done|]. split; [done|]. intros Hn x Hx Hr.
      destruct (decide (x = c)) as [->|Hne]; [done|]. apply H3; [lia|done|].
      assert (~ secno <= x < c); [|lia]. intros Hxr.
      destruct (find_next_bit_spec (vsecs s) (MAIN_SECS g) secno ltac:(lia)) as (_ & F2 & _). by apply (F2 x).
    + right. exists c. split; [by apply next_bit_found|]. split; [lia|done].
Qed.

Lemma section_start x : 0 <= x < MAIN_SEGS g ->
  x / segs_per_sec g * segs_per_sec g = GET_SEG_FROM_SEC g (GET_SEC_FROM_SEG g x) /\ 0 <= GET_SEC_FROM_SEG g x < MAIN_SECS g.
Proof.
  intros Hx. pose proof (sec_range g (ly_geom_ok ly Hly) x Hx) as Hc. split; [|done].
  destruct (seg_from_sec g (ly_geom_ok ly Hly) (GET_SEC_FROM_SEG g x)) as [-> _]; [lia|done].
Qed.

Lemma section_of_start c : 0 <= c < MAIN_SECS g ->
  GET_SEC_FROM_SEG g (GET_SEG_FROM_SEC g c) = c /\ GET_SEG_FROM_SEC g c < NULL_SEGNO.
Proof.
  intros Hc. assert (Hg0 : geom_ok g) by (apply ly_geom_ok, Hly). pose proof (geom_bounds g Hg0). pose proof Hg0 as (H1 & _ & _ & H2 & _).
  split; [apply (in_section g Hg0 c _ Hc); lia|]. destruct (seg_from_sec g (ly_geom_ok ly Hly) c) as [-> _]; [lia|].
  unfold NULL_SEGNO, MAIN_SECS, MAIN_SEGS in *. nia.
Qed.

Definition lfs_policy (gc_type : Z) (s : gc_state) : victim_sel_policy := (select_policy gc_type NO_CHECK_TYPE LFS s).1.

(** Cleaning starts at the first segment, whatever was cleaned last. *)
Lemma lfs_starts_at_zero gc_type s : select_policy gc_type NO_CHECK_TYPE LFS s = (lfs_policy gc_type s, 0).
Proof. reflexivity. Qed.

Lemma lfs_policy_ok gc_type s : victim_wf (segs s) ->
  unit_ok (lfs_policy gc_type s) /\ p_dirty_segmap (lfs_policy gc_type s) = dirty_map DIRTY (dirty_i (segs s)) /\
  p_alloc_mode (lfs_policy gc_type s) = LFS /\ p_ofs_unit (lfs_policy gc_type s) = segs_per_sec g /\
  (p_gc_mode (lfs_policy gc_type s) = GC_CB \/ p_gc_mode (lfs_policy gc_type s) = GC_GREEDY).
Proof.
  intros Hwf. pose proof (ly_geom_ok ly Hly) as (H1 & _ & _ & H2 & _). split; [split; [done|by exists (total_sections g)]|].
  split; [done|]. split; [done|]. split; [done|]. simpl. unfold select_gc_type. destruct (gc_idle env); repeat case_if; auto.
Qed.

(** The search itself, from a state that bookkeeping alone separates from [s]. *)
Lemma lfs_search gc_type lastv s : victim_wf (segs s) ->
  exists f s', search_loop search_fuel gc_type lastv (lfs_policy gc_type s) (MAIN_SEGS g) 0 0
                 (mk_found NULL_SEGNO (get_max_cost (lfs_policy gc_type s))) s = Some (f, s') /\
    gc_like s s' /\ last_ok s' /\
    (min_segno f = NULL_SEGNO \/ (0 <= min_segno f < MAIN_SEGS g /\ min_segno f ∈ dirty_map DIRTY (dirty_i (segs s)) /\
       skip_section gc_type (lfs_policy gc_type s) (GET_SEC_FROM_SEG g (min_segno f)) s = false)).
Proof.
  intros Hwf. destruct (lfs_policy_ok gc_type s Hwf) as (P1 & P2 & P3 & P4 & P5). pose proof (geom_bounds g (ly_geom_ok ly Hly)).
  assert (Hr : forall x, x ∈ dirty_map DIRTY (dirty_i (segs s)) -> 0 <= x < MAIN_SEGS g) by (intros x; by apply (vw_range _ Hwf DIRTY)).
  assert (Hok : last_ok s) by (split; apply Hwf).
  assert (Hlv : 0 <= last_victim_of (p_gc_mode (lfs_policy gc_type s)) s < MAIN_SEGS g) by (by apply Hwf).
  destruct (search_loop_ends search_fuel gc_type lastv (lfs_policy gc_type s) P1) with (last_segment := MAIN_SEGS g)
    (offset := 0) (nsearched := 0) (f := mk_found NULL_SEGNO (get_max_cost (lfs_policy gc_type s))) (s := s) as [[f s'] E].
  { destruct P5 as [-> | ->]; done. } { by rewrite P2. } { lia. } { lia. } { apply Hwf. } { done. }
  { unfold rounds_left, search_fuel. case_if; lia. }
  exists f, s'. split; [done|]. destruct (search_loop_chosen _ _ _ _ P5 _ _ _ _ _ _ _ E) as [L1 L2].
  split; [done|]. split; [by apply (search_loop_last _ _ _ _ P5 _ _ _ _ _ _ _ Hok E)|].
  destruct L2 as [->|(L2 & L3 & _)]; [by left|right]. rewrite P2 in L2. split; [by apply Hr|done].
Qed.

(** The state after a search: [vm] are the marked sections. *)
Definition gc_after (vm : gset Z) (s s' : gc_state) : Prop := exists lv mm mx,
  s' = mk_gc (set_dirty_i (set_victim_secmap vm (dirty_i (segs s)))
               (set_sit (set_max_mtime mx (sit (segs s))) (set_last_victim lv (segs s)))) (cur_victim_sec s) mm /\
  last_ok s'.

(** The segments of [s'] are those of [s]: every table, count, list and log is the
    same, up to where the next search starts, the marks of the victims and the
    age of the youngest segment seen. *)
Definition segs_kept (s s' : gc_state) : Prop := exists lv vm mx,
  segs s' = set_dirty_i (set_victim_secmap vm (dirty_i (segs s)))
              (set_sit (set_max_mtime mx (sit (segs s))) (set_last_victim lv (segs s))).

Lemma like_after s s' : gc_like s s' -> last_ok s' -> gc_after (vsecs s) s s'.
Proof.
  intros (lv & mm & mx & -> & _ & _) Hok. exists lv, mm, mx. split; [|done].
  by destruct s as [[? ? [] ? ? ? ?] ? ?].
Qed.

Lemma after_spec vm s s' : victim_wf (segs s) -> gc_after vm s s' ->
  victim_wf (segs s') /\ (forall discard_en, seg_inv ly discard_en (segs s) -> seg_inv ly discard_en (segs s')) /\
  vsecs s' = vm /\ cur_victim_sec s' = cur_victim_sec s /\ segs_kept s s'.
Proof.
  intros Hwf (lv & mm & mx & -> & [L1 L2]). split; [by apply wf_gc_fields|]. split.
  - intros de Hi. by apply inv_gc_fields.
  - split; [done|]. split; [done|]. by exists lv, vm, mx.
Qed.

(** What [got_it] leaves for the section it marks. *)
Lemma got_it_spec gc_type vm s s' x : victim_wf (segs s) -> gc_after vm s s' -> 0 <= x < MAIN_SEGS g ->
  let c := GET_SEC_FROM_SEG g x in
  let '(v, s2) := got_it gc_type (lfs_policy gc_type s) x s' in
  0 <= c < MAIN_SECS g /\ v = GET_SEG_FROM_SEC g c /\ victim_wf (segs s2) /\
  (forall discard_en, seg_inv ly discard_en (segs s) -> seg_inv ly discard_en (segs s2)) /\
  vsecs s2 = (if gc_type =? FG_GC then vm else {[c]} ∪ vm) /\
  cur_victim_sec s2 = (if gc_type =? FG_GC then c else cur_victim_sec s) /\ segs_kept s s2.
Proof.
  intros Hwf (lv & mm & mx & -> & [L1 L2]) Hx. cbv zeta. destruct (section_start x Hx) as [S1 S2].
  unfold got_it. change (p_alloc_mode (lfs_policy gc_type s)) with LFS. change (p_ofs_unit (lfs_policy gc_type s)) with (segs_per_sec g).
  split; [done|]. split; [done|]. unfold vsecs. destruct (gc_type =? FG_GC).
  - split; [by apply wf_gc_fields|]. split; [intros de Hi; by apply inv_gc_fields|].
    split; [done|]. split; [done|]. by exists lv, vm, mx.
  - split; [exact (wf_gc_fields ({[GET_SEC_FROM_SEG g x]} ∪ vm) mx lv _ Hwf L1 L2)|].
    split; [intros de Hi; exact (inv_gc_fields de ({[GET_SEC_FROM_SEG g x]} ∪ vm) mx lv _ Hi)|].
    split; [done|]. split; [done|]. by exists lv, ({[GET_SEC_FROM_SEG g x]} ∪ vm), mx.
Qed.

(** A search in [s] that ends with the victim [v] and the state [s']. *)
Definition found_ok (gc_type : Z) (s : gc_state) (v : option Z) (s' : gc_state) : Prop :=
  segs_kept s s' /\
  victim_wf (segs s') /\ (forall discard_en, seg_inv ly discard_en (segs s) -> seg_inv ly discard_en (segs s')) /\
  match v with
  | None => vsecs s' = vsecs s /\ cur_victim_sec s' = cur_victim_sec s
  | Some seg => exists c, 0 <= c < MAIN_SECS g /\ seg = GET_SEG_FROM_SEC g c /\ sec_usage_check c s = false /\
      if gc_type =? FG_GC
      then no_fggc_candidate c s = false /\ vsecs s' = vsecs s ∖ {[c]} /\ cur_victim_sec s' = c
      else c ∉ vsecs s /\ vsecs s' = {[c]} ∪ vsecs s /\ cur_victim_sec s' = cur_victim_sec s /\
           exists x, x ∈ dirty_map DIRTY (dirty_i (segs s)) /\ GET_SEC_FROM_SEG g x = c
  end.

Lemma found_got gc_type vm s s1 x : victim_wf (segs s) -> gc_after vm s s1 -> 0 <= x < MAIN_SEGS g ->
  let c := GET_SEC_FROM_SEG g x in sec_usage_check c s = false ->
  (if gc_type =? FG_GC then no_fggc_candidate c s = false /\ vm = vsecs s ∖ {[c]}
   else c ∉ vsecs s /\ vm = vsecs s /\ x ∈ dirty_map DIRTY (dirty_i (segs s))) ->
  let '(v, s2) := got_it gc_type (lfs_policy gc_type s) x s1 in found_ok gc_type s (Some v) s2.
Proof.
  intros Hwf Ha Hx. cbv zeta. intros Hu Hc. pose proof (got_it_spec gc_type vm s s1 x Hwf Ha Hx) as G. cbv zeta in G.
  destruct (got_it _ _ _ _) as [v s2]. destruct G as (G1 & G2 & G3 & G4 & G5 & G6 & G7).
  split; [done|]. split; [done|]. split; [done|]. exists (GET_SEC_FROM_SEG g x). split; [done|]. split; [done|]. split; [done|].
  destruct (gc_type =? FG_GC).
  - destruct Hc as [H1 ->]. done.
  - destruct Hc as (H1 & -> & H2). split; [done|]. split; [done|]. split; [done|]. by exists x.
Qed.

Lemma lfs_found gc_type lastv s : victim_wf (segs s) -> gc_type = BG_GC \/ gc_type = FG_GC ->
  (gc_type = FG_GC -> forall c, c ∈ vsecs s -> 0 <= c < MAIN_SECS g -> sec_usage_check c s || no_fggc_candidate c s = true) ->
  exists v s', match search_loop search_fuel gc_type lastv (lfs_policy gc_type s) (MAIN_SEGS g) 0 0
                       (mk_found NULL_SEGNO (get_max_cost (lfs_policy gc_type s))) s with
    | None => None
    | Some (f, s') => if negb (min_segno f =? NULL_SEGNO)
        then let '(v, s') := got_it gc_type (lfs_policy gc_type s) (min_segno f) s' in Some (Some v, s') else Some (None, s')
    end = Some (v, s') /\ found_ok gc_type s v s'.
Proof.
  intros Hwf Hgc Hbg. destruct (lfs_search gc_type lastv s Hwf) as (f & s1 & -> & Hl & Hok & Hf).
  pose proof (like_after s s1 Hl Hok) as Ha. destruct (Z.eqb_spec (min_segno f) NULL_SEGNO) as [He|Hn]; cbn [negb].
  { destruct (after_spec _ _ _ Hwf Ha) as (A1 & A2 & A3 & A4 & A5). exists None, s1. split; [done|]. split; [done|]. split; [done|]. split; [done|]. by split. }
  destruct Hf as [|(F1 & F2 & F3)]; [done|]. unfold skip_section in F3. rewrite !orb_false_iff in F3. destruct F3 as [[F3 F4] F5].
  assert (G : let '(v, s2) := got_it gc_type (lfs_policy gc_type s) (min_segno f) s1 in found_ok gc_type s (Some v) s2).
  { apply (found_got gc_type (vsecs s)); [done|done|done|done|]. destruct Hgc as [-> | ->]; simpl.
    - split; [|done]. by apply test_bit_false.
    - split; [done|]. apply set_eq. intros c. rewrite elem_of_difference, elem_of_singleton.
      split; [|tauto]. intros Hc. split; [done|]. intros ->. simpl in F5.
      specialize (Hbg eq_refl _ Hc (proj2 (section_start _ F1))). by rewrite F3, F5 in Hbg. }
  destruct (got_it _ _ _ _) as [v s2]. by exists (Some v), s2.
Qed.

(** C22. The choice of a section to clean always ends.  The victim is the first
    segment of a section in which nothing is written now and which is not being
    cleaned.  Background cleaning chooses a section with a dirty segment and
    marks it, so that it is not chosen twice; cleaning on demand prefers marked
    sections, takes none with more valid blocks than the threshold, unmarks its
    choice and makes it the section being cleaned.  Nothing else of the segments
    changes but where the next search starts and the greatest age seen. *)
Theorem gc_victim_correct gc_type s : victim_wf (segs s) -> gc_type = BG_GC \/ gc_type = FG_GC ->
  exists v s', __get_victim NULL_SEGNO gc_type s = Some (v, s') /\ found_ok gc_type s v s'.
Proof.
  intros Hwf Hgc. unfold __get_victim, get_victim_by_default.
  rewrite lfs_starts_at_zero.
  set (p := lfs_policy gc_type s). change (negb (NULL_SEGNO =? NULL_SEGNO)) with false. cbv zeta iota.
  assert (Hok : last_ok s) by (split; apply Hwf). pose proof (after_spec _ _ _ Hwf (like_after _ _ (gc_like_refl s) Hok)) as Hs.
  destruct (p_max_search p =? 0); [exists None, s; unfold found_ok; tauto|].
  pose proof (bg_loop_spec (Z.to_nat (MAIN_SECS g)) 0 s ltac:(lia)) as Hbg. fold (check_bg_victims s) in Hbg.
  pose proof (lfs_found gc_type (last_victim_of (p_gc_mode p) s) s Hwf Hgc) as Hsearch. fold p in Hsearch.
  destruct (Z.eqb_spec gc_type FG_GC) as [Hfg|Hfg]; [|apply Hsearch; congruence].
  destruct (check_bg_victims s) as [bg s1]. destruct Hbg as [(-> & -> & Hb)|(c & H1 & H2 & -> & H3 & ->)].
  - apply Hsearch. intros _ c Hc Hr. apply Hb; [lia|done|lia].
  - destruct (section_of_start c H2) as [S1 S2]. rewrite (proj2 (Z.eqb_neq _ _)) by lia. cbn [negb].
    apply orb_false_iff in H3 as [H3 H4].
    assert (G : let '(v, s2) := got_it gc_type p (GET_SEG_FROM_SEC g c)
        (set_segs (set_dirty_i (set_victim_secmap (vsecs s ∖ {[c]}) (dirty_i (segs s))) (segs s)) s) in found_ok gc_type s (Some v) s2).
    { apply (found_got gc_type (vsecs s ∖ {[c]})); [done| | |by rewrite S1|rewrite S1, Hfg; done].
      - exists (last_victim (segs s)), (min_mtime s), (max_mtime (sit (segs s))). rewrite set_max_mtime_id.
        split; [by destruct s as [[] ? ?]|done].
      - destruct (seg_from_sec g (ly_geom_ok ly Hly) c) as [Heq [? _]]; [lia|]. split; [done|]. rewrite <- S1 in H2.
        pose proof (ly_geom_ok ly Hly) as (G1 & _ & _ & G2 & _). unfold MAIN_SECS, MAIN_SEGS in *. rewrite S1 in H2. fold g in G1, G2. nia. }
    destruct (got_it _ _ _ _) as [v s2]. by exists (Some v), s2.
Qed.

Lemma policy_ok gc_type type mode s : victim_wf (segs s) -> 0 <= type <= DIRTY ->
  let '(p, offset) := select_policy gc_type type mode s in
  unit_ok p /\ (p_gc_mode p = GC_CB \/ p_gc_mode p = GC_GREEDY) /\
  (forall x, x ∈ p_dirty_segmap p -> 0 <= x < MAIN_SEGS g) /\ 0 <= offset <= MAIN_SEGS g.
Proof.
  intros Hwf Ht. unfold select_policy. pose proof (geom_bounds g (ly_geom_ok ly Hly)).
  assert (Ho : forall m, m = GC_CB \/ m = GC_GREEDY -> 0 <=
    (if (type =? CURSEG_HOT_DATA) || IS_NODESEG type then 0 else last_victim_of m s) <= MAIN_SEGS g).
  { intros m Hm. case_if; [lia|]. pose proof (vw_last _ Hwf m Hm). unfold last_victim_of. lia. }
  destruct mode; cbn [p_gc_mode p_ofs_unit p_dirty_segmap].
  - assert (Hm : select_gc_type gc_type = GC_CB \/ select_gc_type gc_type = GC_GREEDY)
      by (unfold select_gc_type; destruct (gc_idle env); repeat case_if; auto).
    split; [pose proof (ly_geom_ok ly Hly) as (H1 & _ & _ & H2 & _); split; [done|by exists (total_sections g)]|].
    split; [done|]. split; [intros x; by apply (vw_range _ Hwf DIRTY)|by apply Ho].
  - split; [split; [done|exists (MAIN_SEGS g); simpl; lia]|]. split; [by right|]. split; [intros x; by apply (vw_range _ Hwf type)|apply Ho; by right].
Qed.

(** C31. The [while (1)] loop of [get_victim_by_default] ends: from every
    consistent state, in every mode and for every type, the search gives a
    result within the rounds that twice the number of segments allow, although
    it may start anywhere and start over once. *)
Theorem get_victim_terminates result gc_type type mode s : victim_wf (segs s) -> 0 <= type <= DIRTY ->
  is_Some (get_victim_by_default result gc_type type mode s).
Proof.
  intros Hwf Ht. unfold get_victim_by_default. pose proof (policy_ok gc_type type mode s Hwf Ht) as Hp.
  destruct (select_policy _ _ _ _) as [p offset]. destruct Hp as (P1 & P2 & P3 & P4).
  repeat (case_if; [by eexists|]). pose proof (bg_loop_spec (Z.to_nat (MAIN_SECS g)) 0 s ltac:(lia)) as Hbg.
  fold (check_bg_victims s) in Hbg.
  assert (Hs : forall s1, segs s1 = segs s -> is_Some (search_loop search_fuel gc_type (last_victim_of (p_gc_mode p) s) p
      (MAIN_SEGS g) offset 0 (mk_found NULL_SEGNO (get_max_cost p)) s1)).
  { intros s1 Hs1. pose proof (geom_bounds g (ly_geom_ok ly Hly)).
    assert (Hlv : 0 <= last_victim_of (p_gc_mode p) s1 < MAIN_SEGS g) by (unfold last_victim_of; rewrite Hs1; by apply Hwf).
    apply search_loop_ends; [done|destruct P2 as [-> | ->]; done|done|done|lia|rewrite Hs1; apply Hwf|done|].
    unfold rounds_left, search_fuel. case_if; lia. }
  assert (Hend : forall s1, segs s1 = segs s -> is_Some (match search_loop search_fuel gc_type (last_victim_of (p_gc_mode p) s) p
      (MAIN_SEGS g) offset 0 (mk_found NULL_SEGNO (get_max_cost p)) s1 with
    | None => None
    | Some (f, s) => if negb (min_segno f =? NULL_SEGNO) then let '(v, s) := got_it gc_type p (min_segno f) s in Some (Some v, s)
                     else Some (None, s)
    end)).
  { intros s1 Hs1. destruct (Hs s1 Hs1) as [[f s2] ->]. case_if; [destruct (got_it _ _ _ _)|]; by eexists. }
  destruct mode; [|by apply Hend]. destruct (gc_type =? FG_GC); [|by apply Hend].
  destruct (check_bg_victims s) as [bg s1]. destruct Hbg as [(-> & -> & _)|(c & _ & Hc & -> & _)].
  - by apply Hend.
  - destruct (section_of_start c Hc) as [_ S2]. rewrite (proj2 (Z.eqb_neq _ _)) by lia.
    cbn [negb]. destruct (got_it _ _ _ _). by eexists.
Qed.

End gc.

(** ** The pace of the thread *)

(** The sleep times of [struct f2fs_gc_kthread], in milliseconds. *)
Record gc_times := mk_times {
  urgent_sleep_time : Z;
  min_sleep_time : Z;
  max_sleep_time : Z;
  no_gc_sleep_time : Z
}.

(** What one round of [gc_thread_func] finds when it wakes up. *)
Record gc_round := mk_round {
  r_freezing : bool;       (* try_to_freeze *)
  r_stop : bool;           (* kthread_should_stop *)
  r_frozen : bool;         (* s_writers.frozen >= SB_FREEZE_WRITE *)
  r_write_lock : bool;     (* sb_start_write_trylock *)
  r_gc_lock : bool;        (* mutex_trylock(&sbi->gc_mutex) *)
  r_urgent : bool;         (* gc_th->gc_urgent *)
  r_idle : bool;           (* is_idle *)
  r_invalid : bool;        (* has_enough_invalid_blocks *)
  r_gc_ret : Z             (* the value of f2fs_gc, when it is called *)
}.

Definition increase_sleep_time (th : gc_times) (wait : Z) : Z :=
  if wait =? no_gc_sleep_time th then wait
  else if max_sleep_time th <? wait + min_sleep_time th then max_sleep_time th
  else u32 (wait + min_sleep_time th).

Definition decrease_sleep_time (th : gc_times) (wait : Z) : Z :=
  let wait := if wait =? no_gc_sleep_time th then max_sleep_time th else wait in
  if wait - min_sleep_time th <? min_sleep_time th then min_sleep_time th else u32 (wait - min_sleep_time th).

(** Whether [f2fs_gc] was called and the next sleep; [None]: the thread ends. *)
Definition gc_thread_round (th : gc_times) (r : gc_round) (wait : Z) : option (bool * Z) :=
  if r_freezing r then Some (false, wait)
  else if r_stop r then None
  else if r_frozen r then Some (false, increase_sleep_time th wait)
  else if negb (r_write_lock r) then Some (false, wait)
  else if negb (r_gc_lock r) then Some (false, wait)
  else
    let do_gc wait := Some (true, if c_true (r_gc_ret r) then no_gc_sleep_time th else wait) in
    if r_urgent r then do_gc (urgent_sleep_time th)
    else if negb (r_idle r) then Some (false, increase_sleep_time th wait)
    else do_gc (if r_invalid r then decrease_sleep_time th wait else increase_sleep_time th wait).

(** The rounds of the thread up to its end; the sleeps between them. *)
Inductive gc_thread (th : gc_times) : Z -> Prop :=
| gc_thread_start : gc_thread th (min_sleep_time th)
| gc_thread_step wait r did wait' : gc_thread th wait -> gc_thread_round th r wait = Some (did, wait') -> gc_thread th wait'.

Definition times_ok (th : gc_times) : Prop :=
  0 <= min_sleep_time th <= max_sleep_time th /\ max_sleep_time th < 2 ^ 32 /\ 0 <= urgent_sleep_time th <= max_sleep_time th.

Definition sleep_ok (th : gc_times) (wait : Z) : Prop :=
  wait = no_gc_sleep_time th \/ wait = urgent_sleep_time th \/ min_sleep_time th <= wait <= max_sleep_time th.

Lemma increase_ok th wait : times_ok th -> sleep_ok th wait -> sleep_ok th (increase_sleep_time th wait).
Proof.
  intros (H1 & H2 & H3) Hw. unfold increase_sleep_time. destruct (Z.eqb_spec wait (no_gc_sleep_time th)); [by left|].
  right. right. destruct (Z.ltb_spec (max_sleep_time th) (wait + min_sleep_time th)); [lia|].
  destruct Hw as [|[Hw|Hw]]; [done| |]; rewrite u32_small by lia; lia.
Qed.

Lemma decrease_ok th wait : times_ok th -> sleep_ok th wait ->
  min_sleep_time th <= decrease_sleep_time th wait <= max_sleep_time th.
Proof.
  intros (H1 & H2 & H3) Hw. unfold decrease_sleep_time. set (w := if wait =? _ then _ else wait).
  assert (Hb : 0 <= w <= max_sleep_time th).
  { unfold w. destruct (Z.eqb_spec wait (no_gc_sleep_time th)); [lia|]. destruct Hw as [|[Hw|Hw]]; [done| |]; lia. }
  clearbody w. case_if; [lia|]. apply Z.ltb_ge in E. rewrite u32_small by lia. lia.
Qed.

(** However the rounds of the cleaning thread go, it sleeps for the time it
    keeps for no victim, for the urgent time, or between its shortest and its
    longest time: no sequence of idle, busy, frozen or failing rounds makes it
    spin or oversleep. *)
Theorem gc_sleep_bounds th wait : times_ok th -> gc_thread th wait -> sleep_ok th wait.
Proof.
  intros Hth. induction 1 as [|wait r did wait' _ IH Hr].
  - right. right. destruct Hth. lia.
  - unfold gc_thread_round in Hr. pose proof (increase_ok th wait Hth IH) as Hi. pose proof (decrease_ok th wait Hth IH) as Hd.
    repeat case_if_in Hr; inversion Hr; subst; try done; solve [by left|by right; left|by right; right].
Qed.

(** ** When background cleaning is worthwhile *)

Definition free_user_blocks (free_segments ovp_segments : Z) : Z :=
  if free_segments <? ovp_segments then 0 else u32 (Z.shiftl (u32 (free_segments - ovp_segments)) log_blocks_per_seg).

Definition LIMIT_INVALID_BLOCK : Z := 40.
Definition LIMIT_FREE_BLOCK : Z := 40.

Definition limit_invalid_user_blocks (user_block_count : Z) : Z := u32 (u32 (user_block_count * LIMIT_INVALID_BLOCK) / 100).
Definition limit_free_user_blocks (user_block_count written : Z) : Z :=
  u32 (u32 (u32 (user_block_count - written) * LIMIT_FREE_BLOCK) / 100).

Definition has_enough_invalid_blocks (user_block_count written free_segments ovp_segments : Z) : bool :=
  (limit_invalid_user_blocks user_block_count <? u32 (user_block_count - written)) &&
  (free_user_blocks free_segments ovp_segments <? limit_free_user_blocks user_block_count written).

(** On a volume of fewer than 2^32 / 40 blocks background cleaning speeds up
    exactly when more than 40 percent of the user's blocks are invalid or free
    and less than 40 percent of those are free; from 2^32 / 40 blocks (410 GiB)
    on the product overflows its 32 bits, and the thread speeds up although,
    of 2^27 blocks, only 10 percent are reclaimable. *)
Theorem enough_invalid_blocks user written free ovp :
  (0 <= written <= user -> user * 40 < 2 ^ 32 -> 0 <= free -> 0 <= ovp -> free * 512 < 2 ^ 32 ->
   has_enough_invalid_blocks user written free ovp = true <->
   user * 40 / 100 < user - written /\ Z.max 0 (free - ovp) * 512 < (user - written) * 40 / 100) /\
  has_enough_invalid_blocks (2 ^ 27) (2 ^ 27 - 2 ^ 27 / 10) 0 0 = true.
Proof.
  split; [|vm_compute; reflexivity]. intros Hw Hu Hf Ho Hff.
  unfold has_enough_invalid_blocks, limit_invalid_user_blocks, limit_free_user_blocks, free_user_blocks, LIMIT_FREE_BLOCK, LIMIT_INVALID_BLOCK, log_blocks_per_seg.
  rewrite (u32_small (user - written)), (u32_small (user * 40)), (u32_small ((user - written) * 40)) by lia.
  rewrite !(u32_small (_ / 100)) by (split; [apply Z.div_pos; lia|apply Z.div_lt_upper_bound; lia]).
  rewrite andb_true_iff, !Z.ltb_lt. destruct (Z.ltb_spec free ovp) as [Hlt|Hge].
  - rewrite Z.max_l by lia. done.
  - rewrite Z.max_r, (u32_small (free - ovp)), Z.shiftl_mul_pow2 by lia. change (2 ^ 9) with 512. rewrite u32_small by lia. done.
Qed.

(** The threshold [build_gc_manager] sets. *)
Definition build_gc_manager (main_segments reserved_segments ovp_segments segs_per_sec : Z) : Z :=
  let main_count := u32 (Z.shiftl main_segments log_blocks_per_seg) in
  let resv_count := u32 (Z.shiftl reserved_segments log_blocks_per_seg) in
  let ovp_count := u32 (Z.shiftl ovp_segments log_blocks_per_seg) in
  u64 (u64 (main_count - ovp_count) * u32 (segs_per_sec * blocks_per_seg)) / u64 (main_count - resv_count).

(** ** Examples *)

(** Segments 7 and 9 are dirty hot data, with 100 and 40 valid blocks. *)
Definition dirty1 : dirty_seglist_info :=
  mk_dirty [{[7; 9]}; ∅; ∅; ∅; ∅; ∅; {[7; 9]}; ∅] [2; 0; 0; 0; 0; 0; 2; 0] ∅.
Definition part_seg (n : Z) : seg_entry := mk_seg 0 n n zero_map zero_map zero_map 0.
Definition sit1 : sit_info :=
  mk_sit (zset (zset (replicate 16%nat seg0) 7 (part_seg 100)) 9 (part_seg 40)) [0; 0; 0; 100; 40; 0; 0; 0] ∅ 0 140 0 8192 false.
Definition seg_state1 : seg_state := set_last_victim [0; 9; 0; 0] (set_dirty_i dirty1 (set_sit sit1 seg_state0)).
Definition gc_env1 : gc_env := mk_gc_env 4096 500 (Some 0).
Definition gc_state1 : gc_state := mk_gc seg_state1 NULL_SEGNO 0.

Lemma seg_state1_wf : victim_wf ly0 seg_state1.
Proof.
  assert (H : forall t, 0 <= t <= DIRTY -> dirty_map t dirty1 = {[7; 9]} /\ zget 0 (nr_dirty dirty1) t = 2 \/
    dirty_map t dirty1 = ∅ /\ zget 0 (nr_dirty dirty1) t = 0).
  { intros t Ht. unfold DIRTY in Ht.
    assert (t = 0 \/ t = 1 \/ t = 2 \/ t = 3 \/ t = 4 \/ t = 5 \/ t = 6) as [-> |[-> |[-> |[-> |[-> |[-> | -> ]]]]]] by lia; auto. }
  split; [| |done|].
  - intros t x Ht. change (dirty_i seg_state1) with dirty1. change (MAIN_SEGS (ly_geom ly0)) with 16.
    destruct (H t Ht) as [[-> _]|[-> _]]; [|by intros []%elem_of_empty]. rewrite elem_of_union, !elem_of_singleton. lia.
  - intros t Ht. change (dirty_i seg_state1) with dirty1. destruct (H t Ht) as [[-> ->]|[-> ->]]; reflexivity.
  - intros m [-> | ->]; vm_compute; split; done || discriminate.
Qed.

Lemma ssr_victim_cheapest_witness :
  exists lv, get_victim_by_default ly0 gc_env1 NULL_SEGNO BG_GC CURSEG_HOT_DATA SSR gc_state1 =
    Some (Some 9, mk_gc (set_last_victim lv seg_state1) NULL_SEGNO 0) /\ ssr_eligible ly0 NULL_SEGNO CURSEG_HOT_DATA seg_state1 9.
Proof.
  destruct (ssr_victim_cheapest ly0 gc_env1 ly0_ok NULL_SEGNO 0 CURSEG_HOT_DATA seg_state1) as (v & lv & H1 & _ & H2).
  - unfold is_type. vm_compute. by split.
  - exact seg_state1_wf.
  - vm_compute. discriminate.
  - assert (v = Some 9) as ->.
    { apply (f_equal (fun r => fst <$> r)) in H1. injection H1 as <-. vm_compute. reflexivity. }
    exists lv. split; [exact H1|apply H2].
Defined.

Lemma gc_victim_correct_witness :
  exists s', __get_victim ly0 gc_env1 NULL_SEGNO FG_GC gc_state1 = Some (Some 8, s') /\ cur_victim_sec s' = 4.
Proof.
  destruct (gc_victim_correct ly0 gc_env1 ly0_ok FG_GC gc_state1 seg_state1_wf (or_intror eq_refl)) as (v & s' & H1 & _ & _ & _ & H2).
  assert (v = Some 8) as ->.
  { apply (f_equal (fun r => fst <$> r)) in H1. injection H1 as <-. vm_compute. reflexivity. }
  exists s'. split; [done|]. destruct H2 as (c & Hc & Hseg & _ & _ & _ & ->).
  destruct (section_of_start ly0 ly0_ok c Hc) as [Hs _]. rewrite <- Hseg in Hs. by rewrite <- Hs.
Defined.

Lemma get_victim_terminates_witness : is_Some (get_victim_by_default ly0 gc_env1 NULL_SEGNO BG_GC CURSEG_WARM_DATA SSR gc_state1).
Proof.
  apply (get_victim_terminates ly0 gc_env1 ly0_ok); [exact seg_state1_wf|]. vm_compute. split; discriminate.
Defined.

Definition times0 : gc_times := mk_times 500 30000 60000 300000.

Lemma gc_sleep_bounds_witness :
  gc_thread times0 300000 /\ sleep_ok times0 300000.
Proof.
  assert (H : gc_thread times0 300000).
  { eapply (gc_thread_step _ _ (mk_round false false false true true false true true 1)); [apply gc_thread_start|].
    vm_compute. reflexivity. }
  split; [done|]. apply gc_sleep_bounds; [|done]. unfold times_ok. simpl. lia.
Defined.

Lemma enough_invalid_blocks_witness :
  has_enough_invalid_blocks 1000 100 0 10 = true.
Proof. apply (enough_invalid_blocks 1000 100 0 10); lia. Defined.
