(* ===== verification/Discard.v ===== *)
(** * Discard candidates (segment.c)

    Which blocks may be discarded: the candidates a checkpoint collects from
    the maps of a segment, and the discards issued for them.  The commands
    themselves ([__queue_discard_cmd]) are a log here. *)

From S2P Require Import Prelude Bits FreeSeg Sit.
From Stdlib Require Import ZArith Lia.
From stdpp Require Import base numbers option gmap list.
#[local] Open Scope Z_scope.
#[local] Open Scope c_scope.

(** ** Data *)

(** [struct discard_entry]; the map by its set bits. *)
Record discard_entry := mk_de {
  start_blkaddr : Z;
  de_map : gset Z
}.

(** [struct discard_cmd_control], with the ranges queued. *)
Record discard_ctl := mk_dcc {
  entry_list : list discard_entry;
  nr_discards : Z;
  max_discards : Z;
  queued : list (Z * Z)      (* start and length *)
}.

(** [struct cp_control]; [cp_discard] is the bit CP_DISCARD of the reason. *)
Record cp_control := mk_cpc {
  cp_discard : bool;
  trim_start : Z;
  trim_end : Z;
  trim_minlen : Z
}.

Section discard.
Variable ly : layout.
Variable discard_en : bool.       (* f2fs_discard_en *)
Variable opt_discard : bool.      (* test_opt(DISCARD) *)

Let g : geom := ly_geom ly.

(** ** Candidates *)

(** [dmap], word by word in the code, byte by byte here. *)
Definition candidate_map (force : bool) (se : seg_entry) : list Z :=
  if force then zip_with (fun c d => u8 (Z.lnot c) .& u8 (Z.lnot d)) (ckpt_valid_map se) (discard_map se)
  else zip_with (fun c k => Z.lxor c k .& k) (cur_valid_map se) (ckpt_valid_map se).

(** The [while] loop: runs of candidates from [pos] on, added to [bits]. *)
Fixpoint candidate_loop (n : nat) (force : bool) (minlen : Z) (dmap : list Z) (pos nr max : Z) (bits : gset Z) : gset Z * Z :=
  match n with
  | O => (bits, nr)
  | S n =>
    if force || (nr <=? max) then
      let start := __find_rev_next_bit dmap blocks_per_seg pos in
      if blocks_per_seg <=? start then (bits, nr)
      else
        let stop := __find_rev_next_zero_bit dmap blocks_per_seg (start + 1) in
        if force && c_true start && negb (stop =? blocks_per_seg) && (stop - start <? minlen)
        then candidate_loop n force minlen dmap (stop + 1) nr max bits
        else candidate_loop n force minlen dmap (stop + 1) (u32 (nr + (stop - start))) max
               (bits ∪ list_to_set (seqZ start (stop - start)))
    else (bits, nr)
  end.

(** [add_discard_addrs] for segment [segno], with [check_only] false. *)
Definition add_discard_addrs (force : bool) (minlen segno : Z) (s : sit_info) (d : discard_ctl) : discard_ctl :=
  let se := get_seg_entry segno s in
  if (valid_blocks se =? blocks_per_seg) || negb discard_en then d
  else if negb force && (negb opt_discard || negb (c_true (valid_blocks se)) || (max_discards d <=? nr_discards d)) then d
  else
    let '(bits, nr) := candidate_loop 513 force minlen (candidate_map force se) 0 (nr_discards d) (max_discards d) ∅ in
    mk_dcc (if bool_decide (bits = ∅) then entry_list d else entry_list d ++ [mk_de (START_BLOCK ly segno) bits])
      nr (max_discards d) (queued d).

(** ** Issuing *)

Definition set_discard_map (m : list Z) (se : seg_entry) : seg_entry :=
  mk_seg (se_type se) (valid_blocks se) (ckpt_valid_blocks se) (cur_valid_map se) (ckpt_valid_map se) m (mtime se).
Definition set_discard_blks (x : Z) (s : sit_info) : sit_info :=
  mk_sit (sentries s) (sec_entries s) (dirty_sentries_bitmap s) (dirty_sentries s) (written_valid_blocks s) (max_mtime s)
    x (need_fsck s).

(** The body of the loop of [f2fs_issue_discard], on one device. *)
Definition discard_block (s : sit_info) (blk : Z) : sit_info :=
  let segno := GET_SEGNO ly blk in
  let se := get_seg_entry segno s in
  let '(old, m) := f2fs_test_and_set_bit (GET_BLKOFF_FROM_SEG0 ly blk) (discard_map se) in
  let s := put_seg_entry segno (set_discard_map m se) s in
  if c_true old then s else set_discard_blks (u32 (discard_blks s - 1)) s.

Definition f2fs_issue_discard (blkstart blklen : Z) (s : sit_info) (d : discard_ctl) : sit_info * discard_ctl :=
  (foldl discard_block s (seqZ blkstart blklen),
   if c_true blklen then mk_dcc (entry_list d) (nr_discards d) (max_discards d) (queued d ++ [(blkstart, blklen)]) else d).

(** The runs of one entry of the list, from [pos]; [valid]: a run of set bits
    comes next. *)
Fixpoint small_discards (n : nat) (blkzoned force : bool) (minlen : Z) (e : discard_entry) (pos : Z) (valid : bool)
    (total : Z) (s : sit_info) (d : discard_ctl) : Z * sit_info * discard_ctl :=
  match n with
  | O => (total, s, d)
  | S n =>
    let next := if valid then find_next_zero_bit (de_map e) blocks_per_seg pos else find_next_bit (de_map e) blocks_per_seg pos in
    let len := next - pos in
    let '(total, s, d) :=
      if negb valid || (blkzoned || (force && (len <? minlen))) then (total, s, d)
      else let '(s, d) := f2fs_issue_discard (u32 (start_blkaddr e + pos)) len s d in (u32 (total + len), s, d) in
    if next <? blocks_per_seg then small_discards n blkzoned force minlen e next (negb valid) total s d else (total, s, d)
  end.

Definition send_small (blkzoned : bool) (cpc : cp_control) (sd : sit_info * discard_ctl) (e : discard_entry) : sit_info * discard_ctl :=
  let '(total, s, d) := small_discards 513 blkzoned (cp_discard cpc) (trim_minlen cpc) e 0 (test_bit 0 (de_map e)) 0 sd.1 sd.2 in
  (s, mk_dcc (tail (entry_list d)) (u32 (nr_discards d - total)) (max_discards d) (queued d)).

(** The last loop of [clear_prefree_segments]. *)
Definition send_small_discards (blkzoned : bool) (cpc : cp_control) (s : sit_info) (d : discard_ctl) : sit_info * discard_ctl :=
  foldl (send_small blkzoned cpc) (s, d) (entry_list d).

(** ** Lemmas: candidates *)

Lemma next_one_spec addr pos : bytes_ok addr -> 0 <= pos <= 512 ->
  let r := __find_rev_next_bit addr blocks_per_seg pos in
  pos <= r <= 512 /\ (forall i, pos <= i < r -> bm_get addr i = false) /\ (r < 512 -> bm_get addr r = true).
Proof.
  intros Hb Hp. cbv zeta. rewrite find_rev_next_bit_scan by (done || lia). unfold blocks_per_seg.
  destruct (Z.leb_spec 512 pos); [split; [lia|]; split; intros; lia|].
  destruct (scan_from_spec (bm_get addr) pos (Z.to_nat (512 - pos))) as (H1 & H2 & H3). split; [lia|]. split; [done|]. intros; apply H3; lia.
Qed.

Lemma next_zero_spec addr pos : bytes_ok addr -> 0 <= pos <= 512 ->
  let r := __find_rev_next_zero_bit addr blocks_per_seg pos in
  pos <= r <= 512 /\ (forall i, pos <= i < r -> bm_get addr i = true) /\ (r < 512 -> bm_get addr r = false).
Proof.
  intros Hb Hp. cbv zeta. rewrite find_rev_next_zero_bit_scan by (done || lia). unfold blocks_per_seg.
  destruct (Z.leb_spec 512 pos); [split; [lia|]; split; intros; lia|].
  destruct (scan_from_spec (fun i => negb (bm_get addr i)) pos (Z.to_nat (512 - pos))) as (H1 & H2 & H3). split; [lia|].
  split; intros; [apply negb_false_iff, H2|apply negb_true_iff, H3]; lia.
Qed.

Lemma in_range_set i start len : 0 <= len -> i ∈ (list_to_set (seqZ start len) : gset Z) <-> start <= i < start + len.
Proof. intros Hl. rewrite elem_of_list_to_set, elem_of_seqZ. done. Qed.

Lemma range_set_size start len : 0 <= len -> Z.of_nat (size (list_to_set (seqZ start len) : gset Z)) = len.
Proof. intros Hl. rewrite size_list_to_set by apply NoDup_seqZ. rewrite length_seqZ. lia. Qed.

(** Candidates come from the map, are counted, and none is missed while there
    is room for them. *)
Lemma candidate_loop_spec force minlen dmap max n : bytes_ok dmap -> forall pos nr bits bits' nr',
  0 <= pos <= 513 -> 513 - pos <= Z.of_nat n -> 0 <= nr -> nr + 512 - pos < 2 ^ 32 -> (forall i, i ∈ bits -> i < pos) ->
  candidate_loop n force minlen dmap pos nr max bits = (bits', nr') ->
  bits ⊆ bits' /\ (forall i, i ∈ bits' -> i ∈ bits \/ (pos <= i < 512 /\ bm_get dmap i = true)) /\
  nr' - Z.of_nat (size bits') = nr - Z.of_nat (size bits) /\
  (force = false -> nr + 512 - pos <= max -> forall i, pos <= i < 512 -> bm_get dmap i = true -> i ∈ bits').
Proof.
  intros Hb. induction n as [|n IH]; intros pos nr bits bits' nr' Hp Hn Hnr Hov Hbits H.
  { simpl in H. injection H as <- <-. split; [done|]. split; [by left|]. split; [done|]. intros; lia. }
  simpl in H. assert (Hstop : (bits', nr') = (bits, nr) -> (forall i, pos <= i < 512 -> bm_get dmap i = false) \/ force = true \/ max < nr ->
    bits ⊆ bits' /\ (forall i, i ∈ bits' -> i ∈ bits \/ (pos <= i < 512 /\ bm_get dmap i = true)) /\
    nr' - Z.of_nat (size bits') = nr - Z.of_nat (size bits) /\
    (force = false -> nr + 512 - pos <= max -> forall i, pos <= i < 512 -> bm_get dmap i = true -> i ∈ bits')).
  { intros [= -> ->] Hno. split; [done|]. split; [by left|]. split; [done|]. intros Hf Hm i Hi Hd.
    destruct Hno as [Hno|[Hno|Hno]]; [rewrite Hno in Hd by done; done|congruence|]. lia. }
  destruct (force || (nr <=? max)) eqn:Hgo; [|symmetry in H; apply (Hstop H); right; right; apply orb_false_iff in Hgo as [_ ?%Z.leb_gt]; done].
  set (start := __find_rev_next_bit _ _ _) in H.
  destruct (decide (pos = 513)) as [->|Hp'].
  { assert (blocks_per_seg <=? start = true) as Hge by (unfold start; rewrite find_rev_next_bit_scan by (done || lia); done).
    rewrite Hge in H. symmetry in H. apply (Hstop H). left. intros; lia. }
  destruct (next_one_spec dmap pos Hb ltac:(lia)) as (S1 & S2 & S3). fold start in S1, S2, S3.
  destruct (Z.leb_spec blocks_per_seg start) as [Hge|Hlt]; unfold blocks_per_seg in *.
  { symmetry in H. apply (Hstop H). left. intros i Hi. apply S2. lia. }
  destruct (next_zero_spec dmap (start + 1) Hb ltac:(lia)) as (Z1 & Z2 & Z3). unfold blocks_per_seg in *.
  set (stop := __find_rev_next_zero_bit _ _ _) in *.
  assert (Hrun : forall i, start <= i < stop -> bm_get dmap i = true).
  { intros i Hi. destruct (decide (i = start)) as [->|]; [by apply S3|apply Z2; lia]. }
  assert (Hgap : stop < 512 -> bm_get dmap stop = false) by (intros; by apply Z3).
  destruct (force && c_true start && negb (stop =? 512) && (stop - start <? minlen)) eqn:Hskip.
  - apply IH in H as (I0 & I1 & I2 & I3); [|lia|lia|lia|lia|intros i Hi; specialize (Hbits i Hi); lia].
    split; [done|]. split; [|split; [done|intros ->; done]].
    intros i Hi. destruct (I1 i Hi) as [|[Hr Hd]]; [by left|right]. split; [lia|done].
  - rewrite u32_small in H by lia.
    assert (Hin : forall i, i ∈ (list_to_set (seqZ start (stop - start)) : gset Z) <-> start <= i < stop) by (intros; rewrite in_range_set by lia; lia).
    apply IH in H as (I0 & I1 & I2 & I3); [|lia|lia|lia|lia|].
    2:{ intros i. rewrite elem_of_union, Hin. intros [Hi|Hi]; [specialize (Hbits i Hi)|]; lia. }
    split; [set_solver|]. split; [|split].
    + intros i Hi. destruct (I1 i Hi) as [[Hi'|Hi'%Hin]%elem_of_union|[Hr Hd]]; [by left|right..].
      * split; [lia|by apply Hrun].
      * split; [lia|done].
    + rewrite I2, size_union, Nat2Z.inj_add, range_set_size; [lia|lia|].
      intros i Hi Hi'%Hin. specialize (Hbits i Hi). lia.
    + intros Hf Hm i Hi Hd. destruct (Z.lt_ge_cases i start) as [Hlo|Hhi]; [rewrite S2 in Hd by lia; done|].
      destruct (Z.lt_ge_cases i stop) as [Hlo|Hhi']; [apply I0, elem_of_union_r, Hin; lia|].
      destruct (decide (i = stop)) as [->|]; [rewrite Hgap in Hd by lia; done|]. apply I3; [done|lia|lia|done].
Qed.

(** A map made bit by bit of two others. *)
Lemma bm_get_zip f h a b i : zlen a = zlen b -> 0 <= i < 8 * zlen a ->
  (forall x y k, is_byte x -> is_byte y -> 0 <= k < 8 -> Z.testbit (f x y) k = h (Z.testbit x k) (Z.testbit y k)) ->
  bytes_ok a -> bytes_ok b -> bm_get (zip_with f a b) i = h (bm_get a i) (bm_get b i).
Proof.
  intros Hl Hi Hf Ha Hb. unfold bm_get. assert (Hd : 0 <= i / 8 < zlen a) by zdiv.
  pose proof (lookup_zget 0 a (i / 8) Hd) as La. pose proof (lookup_zget 0 b (i / 8) ltac:(lia)) as Lb.
  rewrite (zget_lookup 0 (zip_with _ _ _)) by lia. rewrite lookup_zip_with, La, Lb. simpl.
  apply Hf; [by eapply Forall_lookup_1 in La|by eapply Forall_lookup_1 in Lb|].
  pose proof (Z.mod_pos_bound i 8 eq_refl). lia.
Qed.

Lemma zip_bytes f a b : (forall x y, is_byte x -> is_byte y -> is_byte (f x y)) -> bytes_ok a -> bytes_ok b -> bytes_ok (zip_with f a b).
Proof.
  intros Hf Ha. revert b. induction Ha as [|x a Hx Ha IH]; intros b Hb; [constructor|].
  destruct Hb as [|y b Hy Hb]; [constructor|]. simpl. constructor; [by apply Hf|by apply IH].
Qed.

Lemma land_byte x y : is_byte x -> is_byte y -> is_byte (x .& y).
Proof.
  unfold is_byte. intros Hx Hy. split; [apply Z.land_nonneg; lia|]. apply (bits_below _ 8); [lia|apply Z.land_nonneg; lia|].
  intros i Hi. rewrite Z.land_spec, (testbit_high x 8) by lia. done.
Qed.

Lemma not8_bit x k : 0 <= k < 8 -> Z.testbit (u8 (Z.lnot x)) k = negb (Z.testbit x k).
Proof. intros Hk. unfold u8. change 256 with (2 ^ 8). rewrite Z.mod_pow2_bits_low by lia. apply Z.lnot_spec. lia. Qed.

Lemma candidate_map_spec force se : seg_wf se -> bytes_ok (candidate_map force se) /\ forall i, 0 <= i < 512 ->
  bm_get (candidate_map force se) i =
  if force then negb (bm_get (ckpt_valid_map se) i) && negb (bm_get (discard_map se) i)
  else bm_get (ckpt_valid_map se) i && negb (bm_get (cur_valid_map se) i).
Proof.
  intros [_ [C1 C2] [K1 K2] [D1 D2] _ _]. unfold candidate_map. destruct force; split.
  - apply zip_bytes; [|done|done]. intros. apply land_byte; apply u8_range.
  - intros i Hi. apply (bm_get_zip _ (fun x y => negb x && negb y)); [lia|lia| |done|done].
    intros x y k _ _ Hk. by rewrite Z.land_spec, !not8_bit.
  - apply zip_bytes; [|done|done]. intros x y Hx Hy. apply land_byte; [|done]. unfold is_byte in *.
    split; [apply Z.lxor_nonneg; lia|]. apply (bits_below _ 8); [lia|apply Z.lxor_nonneg; lia|].
    intros i Hi. rewrite Z.lxor_spec, (testbit_high x 8), (testbit_high y 8) by lia. done.
  - intros i Hi. rewrite (bm_get_zip _ (fun x y => xorb x y && y)); [|lia|lia| |done|done].
    + by destruct (bm_get (cur_valid_map se) i), (bm_get (ckpt_valid_map se) i).
    + intros x y k _ _ _. by rewrite Z.land_spec, Z.lxor_spec.
Qed.

Hypothesis Hly : layout_ok ly.

(** What is in the list of candidates: blocks that are not valid. *)
Definition candidate_ok (s : sit_info) (e : discard_entry) : Prop := exists segno, 0 <= segno < MAIN_SEGS g /\
  start_blkaddr e = START_BLOCK ly segno /\ forall i, i ∈ de_map e -> 0 <= i < 512 /\ bm_get (cur_valid_map (get_seg_entry segno s)) i = false.

Definition candidates (l : list discard_entry) : Z := zsum (fun e => Z.of_nat (size (de_map e))) l.

Lemma zsum_app {A} (f : A -> Z) l k : zsum f (l ++ k) = zsum f l + zsum f k.
Proof. induction l as [|x l IH]; simpl; [done|]. rewrite IH. lia. Qed.

Record disc_wf (s : sit_info) (d : discard_ctl) : Prop := {
  dw_entries : Forall (candidate_ok s) (entry_list d);
  dw_count : candidates (entry_list d) <= nr_discards d
}.

Lemma candidates_nonneg l : 0 <= candidates l.
Proof. unfold candidates. induction l as [|e l IH]; simpl; lia. Qed.

Lemma add_discard_ok force minlen segno s d :
  sit_wf ly discard_en s -> 0 <= segno < MAIN_SEGS g -> disc_wf s d -> nr_discards d + 512 < 2 ^ 32 ->
  (force = true -> ckpt_valid_map (get_seg_entry segno s) = cur_valid_map (get_seg_entry segno s)) ->
  let d' := add_discard_addrs force minlen segno s d in
  disc_wf s d' /\ nr_discards d' <= nr_discards d + 512 /\ max_discards d' = max_discards d /\ queued d' = queued d.
Proof.
  intros Hwf Hs [D1 D2] Hov Hforce. cbv zeta. unfold add_discard_addrs.
  pose proof (seg_entry_wf ly discard_en segno s Hwf Hs) as Hse. set (se := get_seg_entry segno s) in *.
  repeat (case_if; [split; [by split|split; [lia|done]]|]).
  destruct (candidate_map_spec force se Hse) as [M1 M2]. pose proof (candidates_nonneg (entry_list d)) as Hpos.
  destruct (candidate_loop _ _ _ _ _ _ _ _) as [bits nr] eqn:Ec.
  destruct (candidate_loop_spec force minlen _ (max_discards d) 513 M1 0 (nr_discards d) ∅ bits nr) as (_ & C1 & C2 & _);
    [lia|lia|lia|lia|by intros i []%elem_of_empty|exact Ec|]. clear Ec.
  rewrite size_empty in C2. cbn [queued max_discards nr_discards entry_list].
  assert (Hbits : forall i, i ∈ bits -> 0 <= i < 512 /\ bm_get (cur_valid_map se) i = false).
  { intros i Hi. destruct (C1 i Hi) as [[]%elem_of_empty|[Hr Hb]]. split; [done|]. rewrite M2 in Hb by done.
    destruct force; apply andb_true_iff in Hb as [Hb1 Hb2]; [rewrite <- Hforce by done|]; by apply negb_true_iff. }
  assert (Hsz : Z.of_nat (size bits) <= 512) by (apply range_size; [lia|]; intros i Hi; apply (Hbits i Hi)).
  split; [|split; [lia|done]]. case_bool_decide as Hem; split; cbn [nr_discards entry_list].
  - done.
  - rewrite Hem, size_empty in C2. lia.
  - apply Forall_app. split; [done|]. constructor; [|constructor]. by exists segno.
  - unfold candidates in *. rewrite zsum_app. simpl. lia.
Qed.

(** ** Lemmas: issuing *)

Definition same_but_discard (s s' : sit_info) : Prop :=
  sec_entries s' = sec_entries s /\ dirty_sentries_bitmap s' = dirty_sentries_bitmap s /\ dirty_sentries s' = dirty_sentries s /\
  written_valid_blocks s' = written_valid_blocks s /\ need_fsck s' = need_fsck s /\
  forall x, get_seg_entry x s' = set_discard_map (discard_map (get_seg_entry x s')) (get_seg_entry x s).

Lemma sbd_refl s : same_but_discard s s.
Proof. repeat (split; [done|]). intros x. by destruct (get_seg_entry x s). Qed.

Lemma sbd_trans s s' s'' : same_but_discard s s' -> same_but_discard s' s'' -> same_but_discard s s''.
Proof.
  intros (A1 & A2 & A3 & A4 & A5 & A6) (B1 & B2 & B3 & B4 & B5 & B6). repeat (split; [congruence|]).
  intros x. rewrite B6 at 1. by rewrite (A6 x).
Qed.

Lemma sbd_fields s s' x : same_but_discard s s' ->
  se_type (get_seg_entry x s') = se_type (get_seg_entry x s) /\ valid_blocks (get_seg_entry x s') = valid_blocks (get_seg_entry x s) /\
  cur_valid_map (get_seg_entry x s') = cur_valid_map (get_seg_entry x s) /\
  ckpt_valid_map (get_seg_entry x s') = ckpt_valid_map (get_seg_entry x s).
Proof. intros (_ & _ & _ & _ & _ & ->). done. Qed.

Lemma discard_block_ok blk s : sit_wf ly discard_en s -> in_main ly blk ->
  sit_wf ly discard_en (discard_block s blk) /\ same_but_discard s (discard_block s blk).
Proof.
  intros Hwf Hb. destruct (main_position ly Hly blk Hb) as (P1 & P2 & _).
  pose proof (seg_entry_wf ly discard_en _ s Hwf P1) as Hse. unfold discard_block. rewrite test_and_set_split.
  set (segno := GET_SEGNO ly blk) in *. set (off := GET_BLKOFF_FROM_SEG0 ly blk) in *. set (se := get_seg_entry segno s) in *.
  rewrite test_bit_get. set (se' := set_discard_map (f2fs_set_bit off (discard_map se)) se).
  destruct Hse as [W1 W2 W3 W4 W5 W6]. assert (Hse' : seg_wf se') by (split; try done; by apply map_set).
  assert (Hget : forall b x, get_seg_entry x (if b : bool then put_seg_entry segno se' s else
      set_discard_blks (u32 (discard_blks (put_seg_entry segno se' s) - 1)) (put_seg_entry segno se' s)) =
    if segno =? x then se' else get_seg_entry x s).
  { intros b x. rewrite <- (get_put_seg ly discard_en segno se' s x Hwf P1). by destruct b. }
  split.
  - apply (replace_wf ly discard_en Hly segno se' s); try done; try (by case_if).
    + case_if; apply Hwf.
    + case_if; apply Hwf.
    + intros x Hx Hd. rewrite Hget. assert (Hd' : x ∉ dirty_sentries_bitmap s) by (by revert Hd; case_if).
      pose proof (sw_clean _ _ _ Hwf x Hx Hd') as Hc. destruct (Z.eqb_spec segno x) as [He|]; [|done]. by rewrite <- He in Hc.
    + intros Hen. unfold discarded. simpl discard_map. rewrite bm_count_set by done.
      pose proof (discard_bound ly discard_en s Hwf Hen) as Hdb. pose proof (main_blocks ly Hly).
      fold segno se. destruct (bm_get (discard_map se) off) eqn:Hbit; simpl; [lia|].
      assert (1 <= discard_blks s); [|rewrite u32_small by lia; lia].
      rewrite (sw_discard _ _ _ Hwf Hen). apply Z.le_trans with (discarded (discard_map se)).
      * unfold discarded. pose proof (count_if_lt (bm_get (discard_map se)) 512 off ltac:(lia) Hbit). unfold bm_count. lia.
      * apply (zsum_elem (fun e => discarded (discard_map e))); [|rewrite (sw_len _ _ _ Hwf); lia].
        eapply Forall_impl; [apply (sw_segs _ _ _ Hwf)|]. intros e _. unfold discarded. pose proof (bm_count_bound (discard_map e)). lia.
  - assert (Hx : forall b x, get_seg_entry x (if b : bool then put_seg_entry segno se' s else
      set_discard_blks (u32 (discard_blks (put_seg_entry segno se' s) - 1)) (put_seg_entry segno se' s)) =
      set_discard_map (discard_map (get_seg_entry x (if b : bool then put_seg_entry segno se' s else
      set_discard_blks (u32 (discard_blks (put_seg_entry segno se' s) - 1)) (put_seg_entry segno se' s)))) (get_seg_entry x s)).
    { intros b x. rewrite Hget. destruct (Z.eqb_spec segno x) as [<-|]; [done|by destruct (get_seg_entry x s)]. }
    case_if; repeat (split; [done|]); intros x; [apply (Hx true)|apply (Hx false)].
Qed.

(** A range of the main area that holds no valid block. *)
Definition range_free (s : sit_info) (r : Z * Z) : Prop :=
  forall blk, r.1 <= blk < r.1 + r.2 -> in_main ly blk /\ block_valid ly s blk = false.

Lemma range_free_same s s' r : same_but_discard s s' -> range_free s r -> range_free s' r.
Proof.
  intros Hs Hr blk Hb. destruct (Hr blk Hb) as [H1 H2]. split; [done|]. unfold block_valid.
  by rewrite (proj1 (proj2 (proj2 (sbd_fields s s' _ Hs)))).
Qed.

Lemma issue_ok b len s d : sit_wf ly discard_en s -> range_free s (b, len) -> 0 <= len ->
  let '(s', d') := f2fs_issue_discard b len s d in
  sit_wf ly discard_en s' /\ same_but_discard s s' /\ entry_list d' = entry_list d /\ nr_discards d' = nr_discards d /\
  max_discards d' = max_discards d /\ exists new, queued d' = queued d ++ new /\ Forall (range_free s) new.
Proof.
  intros Hwf Hr Hlen. unfold f2fs_issue_discard.
  assert (Hl : forall l s, sit_wf ly discard_en s -> (forall blk, blk ∈ l -> in_main ly blk) ->
    sit_wf ly discard_en (foldl discard_block s l) /\ same_but_discard s (foldl discard_block s l)).
  { clear s Hwf Hr. induction l as [|blk l IH]; intros s Hwf Hin; [split; [done|apply sbd_refl]|]. simpl.
    destruct (discard_block_ok blk s Hwf) as [H1 H2]; [apply Hin; left|].
    destruct (IH _ H1) as [H3 H4]; [intros; apply Hin; by right|]. split; [done|]. by eapply sbd_trans. }
  destruct (Hl (seqZ b len) s Hwf) as [H1 H2]; [intros blk Hb%elem_of_seqZ; by apply Hr|].
  split; [done|]. split; [done|]. case_if; repeat (split; [done|]).
  - exists [(b, len)]. split; [done|]. by apply Forall_singleton.
  - exists []. by rewrite app_nil_r.
Qed.

(** The candidates of an entry from [pos] on. *)
Definition rest (e : discard_entry) (pos : Z) : gset Z := de_map e ∖ list_to_set (seqZ 0 pos).

Lemma elem_of_rest e pos i : 0 <= pos -> i ∈ rest e pos <-> i ∈ de_map e /\ ~ 0 <= i < pos.
Proof. intros Hp. unfold rest. rewrite elem_of_difference, in_range_set by lia. done. Qed.

Lemma rest_skip e pos next : 0 <= pos <= next -> (forall i, pos <= i < next -> i ∉ de_map e) -> rest e pos = rest e next.
Proof.
  intros Hp Hn. apply set_eq. intros i. rewrite !elem_of_rest by lia. specialize (Hn i). split; intros [H1 H2]; (split; [done|]); [|lia].
  intros Hi. apply Hn; [lia|done].
Qed.

Lemma rest_run e pos next : 0 <= pos <= next -> (forall i, pos <= i < next -> i ∈ de_map e) ->
  Z.of_nat (size (rest e pos)) = next - pos + Z.of_nat (size (rest e next)).
Proof.
  intros Hp Hn. replace (rest e pos) with (list_to_set (seqZ pos (next - pos)) ∪ rest e next).
  - rewrite size_union, Nat2Z.inj_add, range_set_size; [done|lia|]. intros i Hi Hr.
    rewrite in_range_set in Hi by lia. rewrite elem_of_rest in Hr by lia. lia.
  - apply set_eq. intros i. rewrite elem_of_union, in_range_set, !elem_of_rest by lia. specialize (Hn i).
    destruct (decide (pos <= i < next)) as [Hi|Hi]; [|intuition lia]. specialize (Hn Hi).
    split; [intros _; split; [done|lia]|intros _; left; lia].
Qed.

Lemma small_discards_ok blkzoned force minlen e n : forall pos valid total s d s0,
  sit_wf ly discard_en s -> same_but_discard s0 s -> candidate_ok s0 e -> 0 <= pos < 512 -> 512 - pos <= Z.of_nat n ->
  valid = test_bit pos (de_map e) -> 0 <= total -> total + 512 - pos < 2 ^ 32 ->
  let '(total', s', d') := small_discards n blkzoned force minlen e pos valid total s d in
  sit_wf ly discard_en s' /\ same_but_discard s0 s' /\ entry_list d' = entry_list d /\ nr_discards d' = nr_discards d /\
  max_discards d' = max_discards d /\ total <= total' <= total + Z.of_nat (size (rest e pos)) /\
  exists new, queued d' = queued d ++ new /\ Forall (range_free s0) new.
Proof.
  induction n as [|n IH]; intros pos valid total s d s0 Hwf Hs Hc Hp Hn Hv Ht Hov; [lia|]. cbn [small_discards].
  destruct Hc as (segno & C1 & C2 & C3).
  set (next := if valid then _ else _). cbv zeta.
  assert (Hnext : pos < next <= 512 /\ (forall i, pos <= i < next -> if valid then i ∈ de_map e else i ∉ de_map e) /\
    (next < 512 -> negb valid = test_bit next (de_map e))).
  { unfold next, blocks_per_seg. destruct valid; symmetry in Hv.
    - apply test_bit_true in Hv. destruct (find_next_zero_bit_spec (de_map e) 512 pos ltac:(lia)) as (F1 & F2 & F3).
      split; [|split; [done|intros Hl; symmetry; by apply test_bit_false, F3]].
      destruct (decide (find_next_zero_bit (de_map e) 512 pos = pos)) as [He|]; [|lia]. rewrite He in F3. by destruct F3; [lia|].
    - apply test_bit_false in Hv. destruct (find_next_bit_spec (de_map e) 512 pos ltac:(lia)) as (F1 & F2 & F3).
      split; [|split; [done|intros Hl; symmetry; by apply test_bit_true, F3]].
      destruct (decide (find_next_bit (de_map e) 512 pos = pos)) as [He|]; [|lia]. rewrite He in F3. by destruct Hv; apply F3; lia. }
  clearbody next. destruct Hnext as (N1 & N2 & N3).
  assert (Hstep : exists total1 s1 d1,
    (if negb valid || (blkzoned || (force && (next - pos <? minlen))) then (total, s, d)
     else let '(s, d) := f2fs_issue_discard (u32 (start_blkaddr e + pos)) (next - pos) s d in (u32 (total + (next - pos)), s, d)) = (total1, s1, d1) /\
    sit_wf ly discard_en s1 /\ same_but_discard s0 s1 /\ entry_list d1 = entry_list d /\ nr_discards d1 = nr_discards d /\
    max_discards d1 = max_discards d /\
    (total <= total1 /\ total1 + Z.of_nat (size (rest e next)) <= total + Z.of_nat (size (rest e pos)) /\ total1 <= total + (next - pos)) /\
    exists new, queued d1 = queued d ++ new /\ Forall (range_free s0) new).
  { assert (Hle : Z.of_nat (size (rest e next)) <= Z.of_nat (size (rest e pos)) /\
      (valid = true -> Z.of_nat (size (rest e pos)) = next - pos + Z.of_nat (size (rest e next)))).
    { destruct valid; [pose proof (rest_run e pos next ltac:(lia) N2); lia|]. rewrite (rest_skip e pos next) by (done || lia). split; [lia|done]. }
    destruct (negb valid || (blkzoned || (force && (next - pos <? minlen)))) eqn:Eskip.
    - exists total, s, d. do 6 (split; [done|]). split; [lia|]. exists []. by rewrite app_nil_r.
    - apply orb_false_iff in Eskip as [Hval%negb_false_iff _]. subst valid. rewrite Hval in N2. destruct Hle as [_ Hle]. specialize (Hle Hval).
      assert (Hr : range_free s0 (u32 (start_blkaddr e + pos), next - pos)).
      { pose proof (main_blocks ly Hly) as Hmb. pose proof Hly as (_ & G1 & G2 & G3 & G4 & G5). fold g in G3, G5, Hmb.
        rewrite C2, (start_block ly Hly) by done. unfold main_blkaddr. rewrite u32_small by lia.
        intros blk Hb. simpl in Hb. destruct (block_at ly Hly segno (blk - START_BLOCK ly segno) C1) as (B1 & B2 & B3).
        { rewrite (start_block ly Hly) by done. unfold main_blkaddr. lia. }
        replace (START_BLOCK ly segno + (blk - START_BLOCK ly segno)) with blk in * by lia.
        split; [done|]. unfold block_valid. rewrite B2, B3. apply C3, N2. rewrite (start_block ly Hly) by done. unfold main_blkaddr. lia. }
      pose proof (issue_ok (u32 (start_blkaddr e + pos)) (next - pos) s d Hwf (range_free_same s0 s _ Hs Hr) ltac:(lia)) as Hi.
      destruct (f2fs_issue_discard _ _ _ _) as [s1 d1]. destruct Hi as (I1 & I2 & I3 & I4 & I5 & new & I6 & I7).
      exists (total + (next - pos)), s1, d1. rewrite u32_small by lia. split; [done|]. split; [done|].
      split; [by eapply sbd_trans|]. do 3 (split; [done|]). split; [lia|]. exists new. split; [done|].
      eapply Forall_impl; [exact I7|]. intros r Hrr blk Hb. destruct (Hrr blk Hb) as [R1 R2]. split; [done|].
      unfold block_valid in *. by rewrite <- (proj1 (proj2 (proj2 (sbd_fields s0 s _ Hs)))). }
  destruct Hstep as (total1 & s1 & d1 & -> & S1 & S2 & S3 & S4 & S5 & S6 & new & S7 & S8). unfold blocks_per_seg.
  destruct (Z.ltb_spec next 512) as [Hlt|Hge].
  - specialize (IH next (negb valid) total1 s1 d1 s0 S1 S2). destruct (small_discards _ _ _ _ _ _ _ _ _ _) as [[t2 s2] d2].
    destruct IH as (I1 & I2 & I3 & I4 & I5 & I6 & new' & I7 & I8); [by exists segno|lia|lia|by apply N3|lia|lia|].
    split; [done|]. split; [done|]. do 3 (split; [congruence|]). split; [lia|]. exists (new ++ new'). rewrite I7, S7, app_assoc.
    split; [done|by apply Forall_app].
  - split; [done|]. split; [done|]. do 3 (split; [done|]). split; [lia|]. by exists new.
Qed.

Lemma rest_zero e : rest e 0 = de_map e.
Proof. apply set_eq. intros i. rewrite elem_of_rest by lia. intuition lia. Qed.

(** The list is emptied; the discards sent touch no valid block. *)
Lemma send_small_ok blkzoned cpc s0 s d : sit_wf ly discard_en s -> same_but_discard s0 s -> disc_wf s0 d -> nr_discards d < 2 ^ 32 ->
  let '(s', d') := send_small_discards blkzoned cpc s d in
  sit_wf ly discard_en s' /\ same_but_discard s0 s' /\ entry_list d' = [] /\ 0 <= nr_discards d' <= nr_discards d /\
  max_discards d' = max_discards d /\ exists new, queued d' = queued d ++ new /\ Forall (range_free s0) new.
Proof.
  intros Hwf Hs [D1 D2] Hov. unfold send_small_discards.
  assert (Hl : forall l s d, sit_wf ly discard_en s -> same_but_discard s0 s -> entry_list d = l -> Forall (candidate_ok s0) l ->
    candidates l <= nr_discards d < 2 ^ 32 ->
    let '(s', d') := foldl (send_small blkzoned cpc) (s, d) l in
    sit_wf ly discard_en s' /\ same_but_discard s0 s' /\ entry_list d' = [] /\ 0 <= nr_discards d' <= nr_discards d /\
    max_discards d' = max_discards d /\ exists new, queued d' = queued d ++ new /\ Forall (range_free s0) new);
    [|by apply Hl]. clear s d Hwf Hs D1 D2 Hov.
  induction l as [|e l IH]; intros s d Hwf Hs Hel Hc Hnr.
  { simpl. do 3 (split; [done|]). unfold candidates in Hnr. simpl in Hnr. split; [lia|]. split; [done|]. exists []. by rewrite app_nil_r. }
  apply Forall_cons in Hc as [He Hc]. cbn [foldl]. unfold send_small at 2. cbn [fst snd].
  pose proof (small_discards_ok blkzoned (cp_discard cpc) (trim_minlen cpc) e 513 0 (test_bit 0 (de_map e)) 0 s d s0 Hwf Hs He
    ltac:(lia) ltac:(lia) eq_refl ltac:(lia) ltac:(lia)) as H1. rewrite rest_zero in H1.
  destruct (small_discards _ _ _ _ _ _ _ _ _ _) as [[t s1] d1]. destruct H1 as (A1 & A2 & A3 & A4 & A5 & A6 & new & A7 & A8).
  unfold candidates in Hnr. simpl in Hnr. fold (candidates l) in Hnr. pose proof (candidates_nonneg l).
  specialize (IH s1 (mk_dcc (tail (entry_list d1)) (u32 (nr_discards d1 - t)) (max_discards d1) (queued d1)) A1 A2).
  cbn [entry_list nr_discards queued max_discards] in IH. rewrite A3, A4, Hel, u32_small in IH by lia. rewrite A3, A4, Hel, u32_small by lia.
  destruct (foldl _ _ _) as [s2 d2]. destruct IH as (B1 & B2 & B3 & B4 & B5 & new' & B6 & B7); [done|done|lia|].
  do 3 (split; [done|]). split; [lia|]. split; [congruence|]. exists (new ++ new'). rewrite B6, A7, app_assoc.
  split; [done|by apply Forall_app].
Qed.

End discard.
