(* ===== verification/SitFlush.v ===== *)
(** * Writing the segment table at a checkpoint (segment.h, segment.c)

    [flush_sit_entries] writes the changed entries of the segment table to the
    SIT journal or to the other copy of their SIT block; [build_sit_entries]
    reads the table at mount. *)

From S2P Require Import Prelude Bits Journal FreeSeg Sit Discard.
From Stdlib Require Import ZArith Lia.
From stdpp Require Import base numbers option gmap list.
#[local] Open Scope Z_scope.
#[local] Open Scope c_scope.

(** ** Data *)

Definition SIT_ENTRY_PER_BLOCK : Z := 4096 / 74.

Definition raw_sit0 : f2fs_sit_entry := mk_raw_sit 0 zero_map 0.
Definition sit_block0 : list f2fs_sit_entry := replicate 55%nat raw_sit0.

Abbreviation sit_journal := (journal f2fs_sit_entry).

(** The SIT area, of [struct sit_info] and the meta pages: two copies of each
    block, [sit_bitmap] says which is current. *)
Record sit_area := mk_sarea {
  sit_base_addr : Z;
  sit_blocks : Z;
  sit_bitmap : list Z;
  sit_pages : gmap Z (list f2fs_sit_entry)
}.

(** [struct sit_entry_set]. *)
Record sit_entry_set := mk_ses {
  start_segno_of : Z;
  entry_cnt : Z
}.

Record flush_state := mk_fl {
  fl_sit : sit_info;
  fl_journal : sit_journal;
  fl_area : sit_area;
  fl_disc : discard_ctl;
  fl_bug : bool              (* a BUG check *)
}.

Definition SIT_BLOCK_OFFSET (segno : Z) : Z := segno / SIT_ENTRY_PER_BLOCK.
Definition START_SEGNO (segno : Z) : Z := SIT_BLOCK_OFFSET segno * SIT_ENTRY_PER_BLOCK.
Definition SIT_ENTRY_OFFSET (segno : Z) : Z := segno mod SIT_ENTRY_PER_BLOCK.

(** ** The two copies *)

Definition current_sit_addr (start : Z) (a : sit_area) : Z :=
  let offset := SIT_BLOCK_OFFSET start in
  let blk_addr := u32 (sit_base_addr a + offset) in
  if c_true (f2fs_test_bit offset (sit_bitmap a)) then u32 (blk_addr + sit_blocks a) else blk_addr.

Definition next_sit_addr (block_addr : Z) (a : sit_area) : Z :=
  let block_addr := u64 (block_addr - sit_base_addr a) in
  let block_addr := if block_addr <? sit_blocks a then u64 (block_addr + sit_blocks a) else u64 (block_addr - sit_blocks a) in
  u64 (block_addr + sit_base_addr a).

Definition set_to_next_sit (start : Z) (a : sit_area) : sit_area :=
  mk_sarea (sit_base_addr a) (sit_blocks a) (f2fs_change_bit (SIT_BLOCK_OFFSET start) (sit_bitmap a)) (sit_pages a).

Definition get_sit_page (addr : Z) (a : sit_area) : list f2fs_sit_entry := default sit_block0 (sit_pages a !! addr).
Definition set_sit_page (addr : Z) (blk : list f2fs_sit_entry) (a : sit_area) : sit_area :=
  mk_sarea (sit_base_addr a) (sit_blocks a) (sit_bitmap a) (<[addr := blk]> (sit_pages a)).

Definition get_current_sit_page (segno : Z) (a : sit_area) : list f2fs_sit_entry := get_sit_page (current_sit_addr segno a) a.

(** ** Entry sets *)

(** The place of a set among those behind it. *)
Fixpoint move_before (ses : sit_entry_set) (rest : list sit_entry_set) : list sit_entry_set :=
  match rest with
  | [] => [ses]
  | next :: rest => if entry_cnt ses <=? entry_cnt next then ses :: next :: rest else next :: move_before ses rest
  end.

(** [adjust_sit_entry_set], for the set [ses] in front of [rest]. *)
Definition adjust_sit_entry_set (ses : sit_entry_set) (rest : list sit_entry_set) : list sit_entry_set :=
  move_before ses rest.

(** The loop of [add_sit_entry]: the list with the entry counted, if its set is there. *)
Fixpoint count_sit_entry (start : Z) (head : list sit_entry_set) : option (list sit_entry_set) :=
  match head with
  | [] => None
  | ses :: rest =>
    if start_segno_of ses =? start then Some (adjust_sit_entry_set (mk_ses (start_segno_of ses) (u32 (entry_cnt ses + 1))) rest)
    else cons ses <$> count_sit_entry start rest
  end.

Definition add_sit_entry (head : list sit_entry_set) (segno : Z) : list sit_entry_set :=
  match count_sit_entry (START_SEGNO segno) head with
  | Some head => head
  | None => mk_ses (START_SEGNO segno) 1 :: head
  end.

Section flush.
Variable ly : layout.
Variable discard_en : bool.
Variable opt_discard : bool.

Let g : geom := ly_geom ly.

(** [for_each_set_bit_from], up to [stop]. *)
Definition set_bits (map : gset Z) (start stop : Z) : list Z := filter (fun i => i ∈ map) (seqZ start (stop - start)).

Definition add_sits_in_set (s : sit_info) (head : list sit_entry_set) : list sit_entry_set :=
  foldl add_sit_entry head (set_bits (dirty_sentries_bitmap s) 0 (MAIN_SEGS g)).

Fixpoint remove_sits_loop (j : sit_journal) (i : Z) (n : nat) (s : sit_info) (head : list sit_entry_set)
    : sit_info * list sit_entry_set :=
  match n with
  | O => (s, head)
  | S n =>
    let segno := id_in_journal raw_sit0 j i in
    let '(dirtied, s) := __mark_sit_entry_dirty segno s in
    remove_sits_loop j (i + 1) n s (if negb dirtied then add_sit_entry head segno else head)
  end.

Definition remove_sits_in_journal (j : sit_journal) (s : sit_info) (head : list sit_entry_set)
    : sit_journal * sit_info * list sit_entry_set :=
  let n := n_ents j in
  let '(s, head) := remove_sits_loop j 0 (Z.to_nat n) s head in
  ((update_in_cursum j (- n)).2, s, head).

(** ** Flushing *)

Definition seg_info_to_sit_page (page : list f2fs_sit_entry) (start : Z) (s : sit_info) : list f2fs_sit_entry :=
  let stop := Z.min (start + SIT_ENTRY_PER_BLOCK) (MAIN_SEGS g) in
  foldl (fun p i => zset p i (__seg_info_to_raw_sit (get_seg_entry (start + i) s))) page (seqZ 0 (stop - start)).

(** The address of the page, too. *)
Definition get_next_sit_page (start : Z) (s : sit_info) (a : sit_area) : Z * sit_area :=
  let src_off := current_sit_addr start a in
  let dst_off := next_sit_addr src_off a in
  let page := seg_info_to_sit_page (get_sit_page dst_off a) start s in
  (dst_off, set_to_next_sit start (set_sit_page dst_off page a)).

Definition clear_dirty (segno : Z) (s : sit_info) : sit_info :=
  mk_sit (sentries s) (sec_entries s) (dirty_sentries_bitmap s ∖ {[segno]}) (u32 (dirty_sentries s - 1))
    (written_valid_blocks s) (max_mtime s) (discard_blks s) (need_fsck s).

(** One dirty entry, to the journal or to the page at [dst]. *)
Definition flush_entry (cpc : cp_control) (to_journal : bool) (dst : Z) (st : flush_state) (segno : Z) : flush_state :=
  let s := fl_sit st in
  let d := if negb (cp_discard cpc) then add_discard_addrs ly discard_en opt_discard false (trim_minlen cpc) segno s (fl_disc st)
           else fl_disc st in
  let '(raw, se) := seg_info_to_raw_sit (get_seg_entry segno s) in
  let s := clear_dirty segno (put_seg_entry segno se s) in
  if to_journal then
    let '(offset, j) := lookup_journal_in_cursum raw_sit0 SIT_JOURNAL_ENTRIES (fl_journal st) segno true in
    mk_fl s (set_in_journal j offset segno raw) (fl_area st) d (fl_bug st || (offset <? 0))
  else
    let a := set_sit_page dst (zset (get_sit_page dst (fl_area st)) (SIT_ENTRY_OFFSET segno) raw) (fl_area st) in
    mk_fl s (fl_journal st) a d (fl_bug st).

Definition flush_set (cpc : cp_control) (r : bool * flush_state) (ses : sit_entry_set) : bool * flush_state :=
  let '(to_journal, st) := r in
  let start := start_segno_of ses in
  let stop := Z.min (u32 (start + SIT_ENTRY_PER_BLOCK)) (MAIN_SEGS g) in
  let to_journal := to_journal && __has_cursum_space SIT_JOURNAL_ENTRIES (fl_journal st) (entry_cnt ses) in
  let '(dst, a) := if to_journal then (0, fl_area st) else get_next_sit_page start (fl_sit st) (fl_area st) in
  let todo := set_bits (dirty_sentries_bitmap (fl_sit st)) start stop in
  let st := mk_fl (fl_sit st) (fl_journal st) a (fl_disc st) (fl_bug st) in
  let st := foldl (flush_entry cpc to_journal dst) st todo in
  (to_journal, mk_fl (fl_sit st) (fl_journal st) (fl_area st) (fl_disc st) (fl_bug st || c_true (entry_cnt ses - zlen todo))).

(** [flush_sit_entries], up to the freeing of prefree segments; the list of
    sets is empty between two flushes. *)
Definition flush_sit_entries (cpc : cp_control) (st : flush_state) : flush_state :=
  let st :=
    if negb (c_true (dirty_sentries (fl_sit st))) then st
    else
      let head := add_sits_in_set (fl_sit st) [] in
      let '(j, s, head) :=
        if negb (__has_cursum_space SIT_JOURNAL_ENTRIES (fl_journal st) (dirty_sentries (fl_sit st)))
        then remove_sits_in_journal (fl_journal st) (fl_sit st) head else (fl_journal st, fl_sit st, head) in
      let '(_, st) := foldl (flush_set cpc) (true, mk_fl s j (fl_area st) (fl_disc st) (fl_bug st)) head in
      mk_fl (fl_sit st) (fl_journal st) (fl_area st) (fl_disc st) (fl_bug st || c_true (dirty_sentries (fl_sit st))) in
  if cp_discard cpc then
    mk_fl (fl_sit st) (fl_journal st) (fl_area st)
      (foldl (fun d segno => add_discard_addrs ly discard_en opt_discard true (trim_minlen cpc) segno (fl_sit st) d)
         (fl_disc st) (seqZ (trim_start cpc) (trim_end cpc + 1 - trim_start cpc))) (fl_bug st)
  else st.

(** ** Lemmas: the two copies *)

Hypothesis Hly : layout_ok ly.

Definition seg_ok (x : Z) : Prop := 0 <= x < MAIN_SEGS g.

Record sarea_wf (a : sit_area) : Prop := {
  aw_bytes : bytes_ok (sit_bitmap a);
  aw_addr : 0 <= sit_base_addr a /\ 0 < sit_blocks a /\ sit_base_addr a + 2 * sit_blocks a < 2 ^ 32;
  aw_room : forall x, seg_ok x -> SIT_BLOCK_OFFSET x < sit_blocks a /\ SIT_BLOCK_OFFSET x < bm_bits (sit_bitmap a);
  aw_pages : forall addr, zlen (get_sit_page addr a) = SIT_ENTRY_PER_BLOCK
}.

(** Copy [b] of block [k]. *)
Definition sit_copy (a : sit_area) (b : bool) (k : Z) : Z := sit_base_addr a + k + if b then sit_blocks a else 0.
Definition sit_bit (a : sit_area) (x : Z) : bool := bm_get (sit_bitmap a) (SIT_BLOCK_OFFSET x).

Lemma sit_per_block : SIT_ENTRY_PER_BLOCK = 55.
Proof. reflexivity. Qed.

Lemma block_range a x : sarea_wf a -> seg_ok x -> 0 <= SIT_BLOCK_OFFSET x < sit_blocks a.
Proof.
  intros Hwf Hx. split; [|by apply (aw_room a Hwf)]. unfold SIT_BLOCK_OFFSET, seg_ok in *. rewrite sit_per_block. zdiv.
Qed.

Lemma current_addr_copy a x : sarea_wf a -> seg_ok x -> current_sit_addr x a = sit_copy a (sit_bit a x) (SIT_BLOCK_OFFSET x).
Proof.
  intros Hwf Hx. pose proof (block_range a x Hwf Hx). destruct (aw_addr a Hwf) as (A1 & A2 & A3).
  unfold current_sit_addr, sit_copy, sit_bit. rewrite test_bit_get, (u32_small (sit_base_addr a + _)) by lia.
  case_if; rewrite ?u32_small by lia; lia.
Qed.

Lemma next_addr_copy a x : sarea_wf a -> seg_ok x ->
  next_sit_addr (current_sit_addr x a) a = sit_copy a (negb (sit_bit a x)) (SIT_BLOCK_OFFSET x).
Proof.
  intros Hwf Hx. pose proof (block_range a x Hwf Hx). destruct (aw_addr a Hwf) as (A1 & A2 & A3).
  rewrite current_addr_copy by done. unfold next_sit_addr, sit_copy. destruct (sit_bit a x); simpl;
    rewrite (u64_small (_ - sit_base_addr a)) by lia.
  - rewrite (proj2 (Z.ltb_ge _ _)), (u64_small (_ - sit_blocks a)) by lia. rewrite u64_small by lia. lia.
  - rewrite (proj2 (Z.ltb_lt _ _)), (u64_small (_ + sit_blocks a)) by lia. rewrite u64_small by lia. lia.
Qed.

Lemma copy_inj a b b' k k' : 0 <= k < sit_blocks a -> 0 <= k' < sit_blocks a -> sit_copy a b k = sit_copy a b' k' -> b = b' /\ k = k'.
Proof. unfold sit_copy. intros H1 H2 H. destruct b, b'; split; try done; exfalso + lia; lia. Qed.

Definition page_entry (a : sit_area) (x : Z) : f2fs_sit_entry := zget raw_sit0 (get_current_sit_page x a) (SIT_ENTRY_OFFSET x).

Lemma entry_offset x : seg_ok x -> 0 <= SIT_ENTRY_OFFSET x < SIT_ENTRY_PER_BLOCK /\ x = START_SEGNO x + SIT_ENTRY_OFFSET x.
Proof. unfold seg_ok, SIT_ENTRY_OFFSET, START_SEGNO, SIT_BLOCK_OFFSET. rewrite sit_per_block. intros Hx. split; zdiv. Qed.

Lemma get_set_page addr blk a k : get_sit_page k (set_sit_page addr blk a) = if addr =? k then blk else get_sit_page k a.
Proof.
  unfold get_sit_page, set_sit_page. simpl. destruct (Z.eqb_spec addr k) as [->|].
  - by rewrite lookup_insert_eq.
  - by rewrite lookup_insert_ne.
Qed.

Lemma set_page_wf addr blk a : sarea_wf a -> zlen blk = SIT_ENTRY_PER_BLOCK -> sarea_wf (set_sit_page addr blk a).
Proof.
  intros [W1 W2 W3 W4] Hl. split; [done|done|done|]. intros k. rewrite get_set_page. by case_if.
Qed.

(** The page [get_next_sit_page] fills. *)
Lemma sit_page_filled page start s : zlen page = SIT_ENTRY_PER_BLOCK ->
  let p := seg_info_to_sit_page page start s in
  zlen p = SIT_ENTRY_PER_BLOCK /\ forall i, 0 <= i < SIT_ENTRY_PER_BLOCK -> start + i < MAIN_SEGS g ->
    zget raw_sit0 p i = __seg_info_to_raw_sit (get_seg_entry (start + i) s).
Proof.
  intros Hl. cbv zeta. unfold seg_info_to_sit_page.
  set (f := fun i => __seg_info_to_raw_sit (get_seg_entry (start + i) s)).
  assert (H : forall n p, zlen p = SIT_ENTRY_PER_BLOCK -> (Z.of_nat n <= SIT_ENTRY_PER_BLOCK) ->
    zlen (foldl (fun p i => zset p i (f i)) p (seqZ 0 (Z.of_nat n))) = SIT_ENTRY_PER_BLOCK /\
    forall i, 0 <= i < Z.of_nat n -> zget raw_sit0 (foldl (fun p i => zset p i (f i)) p (seqZ 0 (Z.of_nat n))) i = f i).
  { clear. induction n as [|n IH]; intros p Hl Hn; [split; [done|intros; lia]|].
    rewrite seqZ_S, foldl_app, Z.add_0_l. cbn [foldl]. destruct (IH p Hl) as [I1 I2]; [lia|].
    split; [by rewrite zlen_zset|]. intros i Hi. rewrite zget_zset by lia.
    destruct (Z.eqb_spec (Z.of_nat n) i) as [<-|]; [done|]. apply I2. lia. }
  set (stop := Z.min _ _). destruct (Z.le_gt_cases stop start) as [Hle|Hgt].
  - replace (seqZ 0 (stop - start)) with (@nil Z) by (symmetry; apply seqZ_nil; lia). split; [done|].
    intros i Hi Hm. unfold stop in Hle. lia.
  - destruct (H (Z.to_nat (stop - start)) page Hl) as [H1 H2]; [unfold stop; lia|]. rewrite Z2Nat.id in H1, H2 by lia.
    split; [done|]. intros i Hi Hm. apply H2. unfold stop. lia.
Qed.

Lemma get_next_page_spec k s a : sarea_wf a -> seg_ok k ->
  let '(dst, a') := get_next_sit_page (START_SEGNO k) s a in
  sarea_wf a' /\ dst = sit_copy a (negb (sit_bit a k)) (SIT_BLOCK_OFFSET k) /\
  (forall x, seg_ok x -> current_sit_addr x a' = if SIT_BLOCK_OFFSET x =? SIT_BLOCK_OFFSET k then dst else current_sit_addr x a) /\
  (forall x, seg_ok x -> page_entry a' x =
     if SIT_BLOCK_OFFSET x =? SIT_BLOCK_OFFSET k then __seg_info_to_raw_sit (get_seg_entry x s) else page_entry a x) /\
  (forall addr, addr <> dst -> get_sit_page addr a' = get_sit_page addr a).
Proof.
  intros Hwf Hk. unfold get_next_sit_page.
  assert (Hoff : forall y, SIT_BLOCK_OFFSET (START_SEGNO y) = SIT_BLOCK_OFFSET y)
    by (intros y; unfold START_SEGNO; unfold SIT_BLOCK_OFFSET at 1; by apply Z.div_mul).
  assert (Hs : seg_ok (START_SEGNO k)) by (destruct (entry_offset k Hk); pose proof (block_range a k Hwf Hk); unfold seg_ok, START_SEGNO in *; rewrite sit_per_block in *; lia).
  rewrite next_addr_copy, Hoff by done. replace (sit_bit a (START_SEGNO k)) with (sit_bit a k) by (unfold sit_bit; by rewrite Hoff).
  set (dst := sit_copy a (negb (sit_bit a k)) (SIT_BLOCK_OFFSET k)).
  destruct (sit_page_filled (get_sit_page dst a) (START_SEGNO k) s (aw_pages a Hwf dst)) as [F1 F2].
  set (page := seg_info_to_sit_page _ _ _) in *. clearbody page.
  set (a' := set_to_next_sit (START_SEGNO k) (set_sit_page dst page a)).
  assert (Hwf' : sarea_wf a').
  { pose proof (set_page_wf dst page a Hwf F1) as [W1 W2 W3 W4]. split; [by apply bytes_zset_u8|done| |done].
    intros x Hx. simpl. rewrite change_bit_bits. by apply W3. }
  assert (Hbit : forall x, seg_ok x -> sit_bit a' x = xorb (sit_bit a x) (SIT_BLOCK_OFFSET k =? SIT_BLOCK_OFFSET x)).
  { intros x Hx. unfold sit_bit. simpl. rewrite Hoff, change_bit_get; [done|]. pose proof (block_range a k Hwf Hk).
    pose proof (aw_room a Hwf k Hk). lia. }
  assert (Hcur : forall x, seg_ok x -> current_sit_addr x a' = if SIT_BLOCK_OFFSET x =? SIT_BLOCK_OFFSET k then dst else current_sit_addr x a).
  { intros x Hx. rewrite !current_addr_copy, Hbit by done. rewrite (Z.eqb_sym (SIT_BLOCK_OFFSET k)).
    destruct (Z.eqb_spec (SIT_BLOCK_OFFSET x) (SIT_BLOCK_OFFSET k)) as [He|]; [|by rewrite xorb_false_r].
    rewrite xorb_true_r. unfold dst, sit_bit, sit_copy. by rewrite He. }
  split; [exact Hwf'|]. split; [reflexivity|]. split; [exact Hcur|].
  assert (Hpg : forall addr, get_sit_page addr a' = if dst =? addr then page else get_sit_page addr a) by (intros; apply get_set_page).
  split; [|intros addr Ha; rewrite Hpg; by rewrite (proj2 (Z.eqb_neq _ _)) by congruence].
  intros x Hx. unfold page_entry, get_current_sit_page. rewrite Hcur, Hpg by done.
  destruct (Z.eqb_spec (SIT_BLOCK_OFFSET x) (SIT_BLOCK_OFFSET k)) as [He|Hne].
  - rewrite Z.eqb_refl. destruct (entry_offset x Hx) as [O1 O2].
    assert (Hst : START_SEGNO x = START_SEGNO k) by (unfold START_SEGNO; by rewrite He).
    rewrite F2; [|done|rewrite <- Hst, <- O2; apply Hx]. by rewrite <- Hst, <- O2.
  - rewrite (proj2 (Z.eqb_neq _ _)); [done|]. rewrite current_addr_copy by done. intros Heq.
    apply copy_inj in Heq as [_ Heq]; [by apply Hne|by apply block_range..].
Qed.

(** Writing an entry of the current copy. *)
Lemma write_page_spec k raw a : sarea_wf a -> seg_ok k ->
  let dst := current_sit_addr k a in
  let a' := set_sit_page dst (zset (get_sit_page dst a) (SIT_ENTRY_OFFSET k) raw) a in
  sarea_wf a' /\ (forall x, current_sit_addr x a' = current_sit_addr x a) /\
  (forall x, seg_ok x -> page_entry a' x = if x =? k then raw else page_entry a x) /\
  (forall addr, addr <> dst -> get_sit_page addr a' = get_sit_page addr a).
Proof.
  intros Hwf Hk. cbv zeta. set (dst := current_sit_addr k a). set (blk := zset _ _ _).
  assert (Hb : zlen blk = SIT_ENTRY_PER_BLOCK) by (unfold blk; rewrite zlen_zset; apply Hwf).
  split; [by apply set_page_wf|]. split; [done|].
  split; [|intros addr Ha; rewrite get_set_page; by rewrite (proj2 (Z.eqb_neq _ _)) by congruence].
  intros x Hx. unfold page_entry, get_current_sit_page.
  change (current_sit_addr x (set_sit_page dst blk a)) with (current_sit_addr x a). rewrite get_set_page.
  destruct (entry_offset x Hx) as [O1 O2], (entry_offset k Hk) as [O3 O4].
  destruct (Z.eqb_spec dst (current_sit_addr x a)) as [He|Hne].
  - unfold blk. rewrite zget_zset by (rewrite (aw_pages a Hwf); lia). rewrite <- He. fold dst.
    unfold dst in He. rewrite !current_addr_copy in He by done. apply copy_inj in He as [_ He]; [|by apply block_range..].
    unfold START_SEGNO in O2, O4. destruct (Z.eqb_spec x k) as [->|Hxk]; [by rewrite Z.eqb_refl|].
    rewrite (proj2 (Z.eqb_neq _ _)); [done|]. intros Heq. apply Hxk. rewrite O2, O4. by rewrite He, Heq.
  - rewrite (proj2 (Z.eqb_neq _ _)); [done|]. intros ->. by apply Hne.
Qed.

(** ** Lemmas: one entry *)

Abbreviation sit_j_find := (j_find raw_sit0 SIT_JOURNAL_ENTRIES).
Abbreviation sit_j_wf := (journal_wf raw_sit0 SIT_JOURNAL_ENTRIES).

(** What a mount reads for a segment. *)
Definition sit_read (j : sit_journal) (a : sit_area) (x : Z) : f2fs_sit_entry := default (page_entry a x) (sit_j_find j x).

(** The entry as the checkpoint leaves it. *)
Definition ckpt_done (se : seg_entry) : seg_entry := (seg_info_to_raw_sit se).2.

Lemma ckpt_done_wf se : seg_wf se -> seg_wf (ckpt_done se).
Proof.
  intros [W1 W2 W3 W4 W5 W6]. split; [exact W1|exact W2|exact W2|exact W4|exact W5|].
  unfold ckpt_done. cbn [seg_info_to_raw_sit snd ckpt_valid_blocks cur_valid_map ckpt_valid_map rs_valid_map __seg_info_to_raw_sit].
  by rewrite union_count_same.
Qed.

Lemma ckpt_done_clean se : seg_wf se -> ckpt_valid_map se = cur_valid_map se -> ckpt_done se = se.
Proof.
  intros [W1 W2 W3 W4 W5 W6] H. rewrite H, union_count_same, <- W5 in W6. unfold ckpt_done. simpl.
  destruct se. simpl in *. congruence.
Qed.

(** The state during a flush that started with table [s0]. *)
Record flush_inv (s0 : sit_info) (st : flush_state) : Prop := {
  fi_sit : sit_wf ly discard_en (fl_sit st);
  fi_area : sarea_wf (fl_area st);
  fi_journal : sit_j_wf (fl_journal st);
  fi_ids : forall x, sit_j_find (fl_journal st) x <> None -> seg_ok x;
  fi_synced : forall x, seg_ok x -> x ∉ dirty_sentries_bitmap (fl_sit st) ->
    sit_read (fl_journal st) (fl_area st) x = __seg_info_to_raw_sit (get_seg_entry x (fl_sit st));
  fi_table : forall x, seg_ok x -> get_seg_entry x (fl_sit st) =
    if bool_decide (x ∈ dirty_sentries_bitmap (fl_sit st)) then get_seg_entry x s0 else ckpt_done (get_seg_entry x s0);
  fi_counts : sec_entries (fl_sit st) = sec_entries s0 /\ written_valid_blocks (fl_sit st) = written_valid_blocks s0 /\
    need_fsck (fl_sit st) = need_fsck s0 /\ discard_blks (fl_sit st) = discard_blks s0;
  fi_disc : disc_wf ly (fl_sit st) (fl_disc st)
}.

(** What flushing an entry or a set leaves alone. *)
Definition same_control (st st' : flush_state) : Prop :=
  fl_bug st' = fl_bug st /\ max_discards (fl_disc st') = max_discards (fl_disc st) /\ queued (fl_disc st') = queued (fl_disc st).

Lemma disc_wf_same s s' d : (forall x, seg_ok x -> cur_valid_map (get_seg_entry x s') = cur_valid_map (get_seg_entry x s)) ->
  disc_wf ly s d -> disc_wf ly s' d.
Proof.
  intros Hs [D1 D2]. split; [|done]. eapply Forall_impl; [exact D1|]. intros e (x & H1 & H2 & H3). exists x.
  split; [done|]. split; [done|]. by rewrite Hs.
Qed.

(** The table after one entry is flushed. *)
Lemma clear_entry_ok x s : sit_wf ly discard_en s -> seg_ok x -> x ∈ dirty_sentries_bitmap s ->
  let s' := clear_dirty x (put_seg_entry x (ckpt_done (get_seg_entry x s)) s) in
  sit_wf ly discard_en s' /\ forall y, get_seg_entry y s' = if x =? y then ckpt_done (get_seg_entry y s) else get_seg_entry y s.
Proof.
  intros Hwf Hx Hd. cbv zeta. pose proof (seg_entry_wf ly discard_en x s Hwf Hx) as Hse.
  assert (Hget : forall y, get_seg_entry y (clear_dirty x (put_seg_entry x (ckpt_done (get_seg_entry x s)) s)) =
    if x =? y then ckpt_done (get_seg_entry y s) else get_seg_entry y s).
  { intros y. change (get_seg_entry y (clear_dirty x (put_seg_entry x (ckpt_done (get_seg_entry x s)) s))) with
      (get_seg_entry y (put_seg_entry x (ckpt_done (get_seg_entry x s)) s)).
    rewrite (get_put_seg ly discard_en) by done. by destruct (Z.eqb_spec x y) as [<-|]. }
  split; [|done].
  pose proof (dirty_bound ly discard_en Hly s Hwf). pose proof (sw_dirty_cnt _ _ _ Hwf) as Hcnt. pose proof (size_remove _ _ Hd) as Hsz.
  eapply (replace_wf ly discard_en Hly x (ckpt_done (get_seg_entry x s)) s); try done; simpl.
  - by apply ckpt_done_wf.
  - intros y [Hy _]%elem_of_difference. by apply (sw_dirty _ _ _ Hwf).
  - rewrite u32_small by lia. lia.
  - intros y Hy Hn. rewrite Hget. destruct (Z.eqb_spec x y) as [|Hne]; [done|]. apply (sw_clean _ _ _ Hwf); [done|set_solver].
  - lia.
Qed.

(** The places an entry may be written to. *)
Definition can_write (to_journal : bool) (dst : Z) (st : flush_state) (x : Z) : Prop :=
  if to_journal then sit_j_find (fl_journal st) x <> None \/ n_ents (fl_journal st) < SIT_JOURNAL_ENTRIES
  else dst = current_sit_addr x (fl_area st) /\ sit_j_find (fl_journal st) x = None.

(** Only pages change. *)
Definition same_copies (a a' : sit_area) : Prop :=
  sit_base_addr a' = sit_base_addr a /\ sit_blocks a' = sit_blocks a /\ sit_bitmap a' = sit_bitmap a.

Lemma same_copies_addr a a' : same_copies a a' ->
  (forall y, current_sit_addr y a' = current_sit_addr y a) /\ (forall b k, sit_copy a' b k = sit_copy a b k).
Proof.
  intros (H1 & H2 & H3). split; intros.
  - unfold current_sit_addr. by rewrite H1, H2, H3.
  - unfold sit_copy. by rewrite H1, H2.
Qed.

(** What is read after one entry is written. *)
Definition written (to_journal : bool) (dst x : Z) (raw : f2fs_sit_entry) (st st' : flush_state) : Prop :=
  sarea_wf (fl_area st') /\ sit_j_wf (fl_journal st') /\
  (forall y, seg_ok y -> sit_read (fl_journal st') (fl_area st') y = if y =? x then raw else sit_read (fl_journal st) (fl_area st) y) /\
  same_copies (fl_area st) (fl_area st') /\
  (forall y, sit_j_find (fl_journal st') y = if to_journal && (y =? x) then Some raw else sit_j_find (fl_journal st) y) /\
  n_ents (fl_journal st) <= n_ents (fl_journal st') <= n_ents (fl_journal st) + c_int to_journal /\
  (forall addr, to_journal = true \/ addr <> dst -> get_sit_page addr (fl_area st') = get_sit_page addr (fl_area st)) /\
  fl_bug st' = fl_bug st.

Lemma flush_write_sit cpc to_journal dst st x : sarea_wf (fl_area st) -> sit_j_wf (fl_journal st) -> seg_ok x ->
  can_write to_journal dst st x ->
  written to_journal dst x (__seg_info_to_raw_sit (get_seg_entry x (fl_sit st))) st
    (flush_entry cpc to_journal dst st x).
Proof.
  intros Ha Hj Hx Hcan. unfold flush_entry. cbn [seg_info_to_raw_sit]. cbv zeta. set (raw := __seg_info_to_raw_sit _).
  set (d := if negb (cp_discard cpc) then _ else _). set (s' := clear_dirty _ _). clearbody d s'. destruct to_journal.
  - simpl in Hcan. destruct (j_put_spec raw_sit0 SIT_JOURNAL_ENTRIES (fl_journal st) x raw Hj Hcan) as (P1 & P2 & P3).
    pose proof (lookup_alloc raw_sit0 SIT_JOURNAL_ENTRIES (fl_journal st) x Hj Hcan) as Hoff.
    unfold j_put in P1, P2, P3. destruct (lookup_journal_in_cursum _ _ _ _ _) as [offset j]. simpl in Hoff.
    rewrite (proj2 (Z.ltb_ge _ _)), orb_false_r by done.
    split; [done|]. split; [done|]. split; [|split; [done|split; [done|split; [simpl in P2 |- *; lia|by split]]]].
    intros y Hy. unfold sit_read. simpl. rewrite P3. by case_if.
  - destruct Hcan as [-> Hn]. destruct (write_page_spec x raw (fl_area st) Ha Hx) as (W1 & W2 & W3 & W4).
    split; [done|]. split; [done|]. split; [|split; [done|split; [done|split; [simpl; lia|split; [|done]]]]].
    + intros y Hy. unfold sit_read. simpl. rewrite W3 by done. destruct (Z.eqb_spec y x) as [->|]; [by rewrite Hn|done].
    + intros addr [|Hne]; [done|]. by apply W4.
Qed.

Lemma flush_entry_table cpc to_journal dst st x :
  fl_sit (flush_entry cpc to_journal dst st x) = clear_dirty x (put_seg_entry x (ckpt_done (get_seg_entry x (fl_sit st))) (fl_sit st)) /\
  fl_disc (flush_entry cpc to_journal dst st x) = (if negb (cp_discard cpc)
    then add_discard_addrs ly discard_en opt_discard false (trim_minlen cpc) x (fl_sit st) (fl_disc st) else fl_disc st).
Proof. unfold flush_entry. cbn [seg_info_to_raw_sit]. destruct to_journal; [destruct (lookup_journal_in_cursum _ _ _ _ _)|]; done. Qed.

Lemma flush_entry_ok cpc to_journal dst s0 st x :
  flush_inv s0 st -> seg_ok x -> x ∈ dirty_sentries_bitmap (fl_sit st) -> can_write to_journal dst st x ->
  nr_discards (fl_disc st) + 512 < 2 ^ 32 ->
  let st' := flush_entry cpc to_journal dst st x in
  flush_inv s0 st' /\ dirty_sentries_bitmap (fl_sit st') = dirty_sentries_bitmap (fl_sit st) ∖ {[x]} /\
  written to_journal dst x (__seg_info_to_raw_sit (get_seg_entry x (fl_sit st))) st st' /\ same_control st st' /\
  nr_discards (fl_disc st') <= nr_discards (fl_disc st) + 512.
Proof.
  intros [F1 F2 F3 F4 F5 F6 F7 F8] Hx Hd Hcan Hnr. cbv zeta.
  destruct (flush_entry_table cpc to_journal dst st x) as [T1 T2].
  pose proof (flush_write_sit cpc to_journal dst st x F2 F3 Hx Hcan) as W.
  set (st' := flush_entry _ _ _ _ _) in *. clearbody st'. pose proof W as (W1 & W2 & W3 & W4 & W5 & W6 & W7 & W8).
  destruct (clear_entry_ok x (fl_sit st) F1 Hx Hd) as [C1 C2]. rewrite <- T1 in C1, C2.
  assert (Hdirty : dirty_sentries_bitmap (fl_sit st') = dirty_sentries_bitmap (fl_sit st) ∖ {[x]}) by (by rewrite T1).
  destruct (add_discard_ok ly discard_en opt_discard false (trim_minlen cpc) x (fl_sit st) (fl_disc st) F1 Hx F8 Hnr) as (A1 & A2 & A3 & A4); [done|].
  assert (Hdisc : disc_wf ly (fl_sit st) (fl_disc st') /\ nr_discards (fl_disc st') <= nr_discards (fl_disc st) + 512 /\
    max_discards (fl_disc st') = max_discards (fl_disc st) /\ queued (fl_disc st') = queued (fl_disc st))
    by (rewrite T2; case_if; [done|split; [done|split; [lia|done]]]).
  destruct Hdisc as (D1 & D2 & D3 & D4).
  split; [|split; [done|split; [done|split; [done|done]]]]. split; try done.
  - intros y. rewrite W5. destruct (Z.eqb_spec y x) as [->|]; [done|]. rewrite andb_false_r. apply F4.
  - intros y Hy Hn. rewrite W3, C2, (Z.eqb_sym x) by done. destruct (Z.eqb_spec y x) as [->|Hne]; [done|].
    apply F5; [done|]. intros Hin. apply Hn. rewrite Hdirty. set_solver.
  - intros y Hy. rewrite C2, F6, Hdirty by done. destruct (Z.eqb_spec x y) as [<-|Hne].
    + rewrite bool_decide_true by done. by rewrite bool_decide_false by set_solver.
    + destruct (decide (y ∈ dirty_sentries_bitmap (fl_sit st))) as [Hy'|Hy'].
      * by rewrite !bool_decide_true by set_solver.
      * by rewrite !bool_decide_false by set_solver.
  - by rewrite T1.
  - revert D1. apply disc_wf_same. intros y Hy. rewrite C2. by case_if.
Qed.

Lemma flush_list_ok cpc (to_journal : bool) dst s0 todo : forall st,
  flush_inv s0 st -> NoDup todo -> (forall x, x ∈ todo -> seg_ok x /\ x ∈ dirty_sentries_bitmap (fl_sit st)) ->
  (if to_journal then n_ents (fl_journal st) + zlen todo <= SIT_JOURNAL_ENTRIES
   else forall x, x ∈ todo -> dst = current_sit_addr x (fl_area st) /\ sit_j_find (fl_journal st) x = None) ->
  nr_discards (fl_disc st) + 512 * zlen todo < 2 ^ 32 ->
  let st' := foldl (flush_entry cpc to_journal dst) st todo in
  flush_inv s0 st' /\ dirty_sentries_bitmap (fl_sit st') = dirty_sentries_bitmap (fl_sit st) ∖ list_to_set todo /\
  same_copies (fl_area st) (fl_area st') /\
  (forall y, y ∉ todo -> sit_j_find (fl_journal st') y = sit_j_find (fl_journal st) y) /\
  (to_journal = false -> forall y, sit_j_find (fl_journal st') y = sit_j_find (fl_journal st) y) /\
  n_ents (fl_journal st') <= n_ents (fl_journal st) + (if to_journal then zlen todo else 0) /\
  (forall addr, to_journal = true \/ addr <> dst -> get_sit_page addr (fl_area st') = get_sit_page addr (fl_area st)) /\
  same_control st st' /\ nr_discards (fl_disc st') <= nr_discards (fl_disc st) + 512 * zlen todo.
Proof.
  unfold zlen. induction todo as [|x todo IH]; intros st Hi Hnd Hin Hroom Hnr; cbv zeta.
  { simpl. split; [done|]. split; [set_solver|]. do 3 (split; [done|]). split; [destruct to_journal; lia|]. do 2 (split; [done|]). lia. }
  apply NoDup_cons in Hnd as [Hx Hnd]. destruct (Hin x) as [Hxs Hxd]; [left|]. cbn [foldl length] in *.
  destruct (flush_entry_ok cpc to_journal dst s0 st x Hi Hxs Hxd) as (E1 & E2 & E3 & [E4 [E5 E6]] & E7); [|lia|].
  { unfold can_write. destruct to_journal; [right; lia|apply Hroom; left]. }
  set (st1 := flush_entry _ _ _ _ _) in *. clearbody st1. destruct E3 as (W1 & W2 & W3 & W4 & W5 & W6 & W7 & W8).
  destruct (IH st1 E1 Hnd) as (I1 & I2 & I3 & I4 & I5 & I6 & I7 & [I8 [I9 I10]] & I11).
  - intros y Hy. destruct (Hin y) as [H1 H2]; [by right|]. split; [done|]. rewrite E2. set_solver.
  - destruct to_journal; [simpl in W6; lia|]. intros y Hy. rewrite (proj1 (same_copies_addr _ _ W4)), W5. apply Hroom. by right.
  - lia.
  - split; [done|]. split; [rewrite I2, E2; set_solver|]. split; [destruct I3 as (?&?&?), W4 as (?&?&?); split; [congruence|split; congruence]|].
    split; [intros y Hy; rewrite I4, W5 by set_solver; rewrite (proj2 (Z.eqb_neq _ _)), andb_false_r by set_solver; done|].
    split; [intros -> y; by rewrite I5, W5|]. split; [destruct to_journal; simpl in W6; lia|].
    split; [intros addr Ha; by rewrite I7, W7|]. split; [split; [congruence|split; congruence]|lia].
Qed.

(** ** Lemmas: entry sets *)

Definition block_cnt (D : gset Z) (k : Z) : Z := Z.of_nat (size (filter (fun x => START_SEGNO x = k) D)).

Lemma filter_singleton_cnt k x : size (filter (fun x => START_SEGNO x = k) ({[x]} : gset Z)) = if decide (START_SEGNO x = k) then 1%nat else 0%nat.
Proof.
  rewrite (filter_singleton_L (C := gset Z)); [|apply _]. destruct (decide (START_SEGNO x = k)); [apply size_singleton|apply size_empty].
Qed.

Lemma block_cnt_add D x k : x ∉ D -> block_cnt ({[x]} ∪ D) k = block_cnt D k + if START_SEGNO x =? k then 1 else 0.
Proof.
  intros Hx. unfold block_cnt. rewrite filter_union_L; [|apply _]. rewrite size_union, filter_singleton_cnt.
  - destruct (decide _) as [H|H]; [rewrite (proj2 (Z.eqb_eq _ _) H)|rewrite (proj2 (Z.eqb_neq _ _) H)]; lia.
  - intros y [_ Hy]%elem_of_filter [_ Hy']%elem_of_filter. set_solver.
Qed.

Lemma block_cnt_pos D k : 0 < block_cnt D k -> exists x, x ∈ D /\ START_SEGNO x = k.
Proof.
  unfold block_cnt. intros H. destruct (set_choose_or_empty (filter (fun x => START_SEGNO x = k) D)) as [[x Hx]|He].
  - exists x. apply elem_of_filter in Hx. tauto.
  - apply size_empty_iff in He. lia.
Qed.

Lemma block_cnt_le D k : block_cnt D k <= Z.of_nat (size D).
Proof. unfold block_cnt. apply Nat2Z.inj_le, subseteq_size. intros x [_ H]%elem_of_filter. done. Qed.

(** The list of sets for the dirty entries [D]. *)
Record sets_ok (D : gset Z) (l : list sit_entry_set) : Prop := {
  so_nodup : NoDup (map start_segno_of l);
  so_cnt : forall ses, ses ∈ l -> entry_cnt ses = block_cnt D (start_segno_of ses) /\ 0 < entry_cnt ses;
  so_all : forall x, x ∈ D -> START_SEGNO x ∈ map start_segno_of l
}.

Lemma sets_perm D l l' : l ≡ₚ l' -> sets_ok D l -> sets_ok D l'.
Proof.
  intros Hp [S1 S2 S3]. split.
  - by rewrite <- Hp.
  - intros ses. rewrite <- Hp. apply S2.
  - intros x Hx. rewrite <- Hp. by apply S3.
Qed.

Lemma move_before_perm ses l : move_before ses l ≡ₚ ses :: l.
Proof.
  induction l as [|n l IH]; simpl; [done|]. case_if; [done|]. rewrite IH. apply Permutation_swap.
Qed.

Lemma count_sit_entry_spec start l :
  match count_sit_entry start l with
  | Some l' => exists ses k, l ≡ₚ ses :: k /\ start_segno_of ses = start /\ l' ≡ₚ mk_ses start (u32 (entry_cnt ses + 1)) :: k
  | None => start ∉ map start_segno_of l
  end.
Proof.
  induction l as [|ses l IH]; simpl; [by intros H%not_elem_of_nil|].
  destruct (Z.eqb_spec (start_segno_of ses) start) as [He|Hne].
  - exists ses, l. split; [done|]. split; [done|]. unfold adjust_sit_entry_set. rewrite He. apply move_before_perm.
  - destruct (count_sit_entry start l) as [l'|]; simpl.
    + destruct IH as (ses' & k & H1 & H2 & H3). exists ses', (ses :: k). split; [rewrite H1; apply Permutation_swap|].
      split; [done|]. rewrite H3. apply Permutation_swap.
    + rewrite not_elem_of_cons. by split.
Qed.

Lemma add_sit_entry_ok D l x : sets_ok D l -> x ∉ D -> Z.of_nat (size D) + 1 < 2 ^ 32 -> sets_ok ({[x]} ∪ D) (add_sit_entry l x).
Proof.
  intros Hok Hx Hov. unfold add_sit_entry. pose proof (count_sit_entry_spec (START_SEGNO x) l) as Hc.
  assert (Hcnt0 : forall k, 0 <= block_cnt D k) by (intros; unfold block_cnt; lia).
  destruct (count_sit_entry _ _) as [l'|].
  - destruct Hc as (ses & k & H1 & H2 & H3). apply (sets_perm _ _ _ H1) in Hok. destruct Hok as [S1 S2 S3].
    apply (sets_perm _ _ _ (symmetry H3)). cbn [map] in *. rewrite H2 in *. destruct (S2 ses) as [C1 C2]; [left|]. split; simpl.
    + done.
    + intros ses' [->|Hin]%elem_of_cons; cbn [entry_cnt start_segno_of].
      * rewrite block_cnt_add, Z.eqb_refl by done. rewrite C1, H2. pose proof (block_cnt_le D (START_SEGNO x)). specialize (Hcnt0 (START_SEGNO x)).
        rewrite u32_small by lia. split; [done|lia].
      * destruct (S2 ses') as [C3 C4]; [by right|]. rewrite block_cnt_add by done. rewrite (proj2 (Z.eqb_neq _ _)); [by rewrite Z.add_0_r|].
        intros He. apply NoDup_cons in S1 as [S1 _]. apply S1. rewrite He. by apply list_elem_of_fmap_2.
    + intros y [->%elem_of_singleton|Hy]%elem_of_union; [left|]. by apply S3.
  - destruct Hok as [S1 S2 S3]. split; simpl.
    + by apply NoDup_cons.
    + intros ses [->|Hin]%elem_of_cons; cbn [entry_cnt start_segno_of]; rewrite block_cnt_add by done.
      * rewrite Z.eqb_refl. assert (block_cnt D (START_SEGNO x) = 0) as ->; [|done].
        destruct (Z.lt_trichotomy 0 (block_cnt D (START_SEGNO x))) as [Hp|[Hp|Hp]]; [|done|specialize (Hcnt0 (START_SEGNO x)); lia].
        apply block_cnt_pos in Hp as (y & Hy & He). destruct Hc. rewrite <- He. by apply S3.
      * destruct (S2 ses Hin) as [C3 C4]. rewrite (proj2 (Z.eqb_neq _ _)); [by rewrite Z.add_0_r|]. intros He. apply Hc. rewrite He. by apply list_elem_of_fmap_2.
    + intros y [->%elem_of_singleton|Hy]%elem_of_union; [left|right]. by apply S3.
Qed.

Lemma set_bits_spec map start stop x : x ∈ set_bits map start stop <-> x ∈ map /\ start <= x < stop.
Proof. unfold set_bits. rewrite list_elem_of_filter, elem_of_seqZ. intuition lia. Qed.

Lemma set_bits_nodup map start stop : NoDup (set_bits map start stop).
Proof. apply NoDup_filter, NoDup_seqZ. Qed.

Lemma add_all_ok l : forall D head, sets_ok D head -> NoDup l -> (forall x, x ∈ l -> x ∉ D) ->
  Z.of_nat (size D) + zlen l < 2 ^ 32 -> sets_ok (list_to_set l ∪ D) (foldl add_sit_entry head l).
Proof.
  unfold zlen. induction l as [|x l IH]; intros D head Hok Hnd Hin Hov; simpl in *.
  - by rewrite union_empty_l_L.
  - apply NoDup_cons in Hnd as [Hx Hnd]. replace ({[x]} ∪ list_to_set l ∪ D) with (list_to_set l ∪ ({[x]} ∪ D)) by set_solver.
    assert (HxD : x ∉ D) by (apply Hin; left). apply IH; [apply add_sit_entry_ok; [done|done|lia]|done| |rewrite size_add by done; lia].
    intros y Hy. rewrite not_elem_of_union, not_elem_of_singleton. split; [by intros ->|apply Hin; by right].
Qed.

Lemma add_sits_ok s : sit_wf ly discard_en s -> sets_ok (dirty_sentries_bitmap s) (add_sits_in_set s []).
Proof.
  intros Hwf. unfold add_sits_in_set. set (l := set_bits _ _ _).
  assert (Hl : list_to_set l = dirty_sentries_bitmap s).
  { apply set_eq. intros x. rewrite elem_of_list_to_set. unfold l. rewrite set_bits_spec. pose proof (sw_dirty _ _ _ Hwf x). fold g in H. intuition. }
  pose proof (dirty_bound ly discard_en Hly s Hwf) as Hb. rewrite (sw_dirty_cnt _ _ _ Hwf) in Hb.
  rewrite <- Hl at 1. rewrite <- (union_empty_r_L (list_to_set l)). apply add_all_ok.
  - split; [constructor|by intros ses Hs%not_elem_of_nil|set_solver].
  - apply set_bits_nodup.
  - set_solver.
  - rewrite size_empty. rewrite <- Hl, size_list_to_set in Hb by apply set_bits_nodup. unfold zlen. fold g in Hb. lia.
Qed.

(** ** Lemmas: one set *)

Definition starts (l : list sit_entry_set) : list Z := map start_segno_of l.

(** During the loop over the sets: [rem] are to come, [a0] is the area before
    the flush. *)
Record loop_inv (s0 : sit_info) (a0 : sit_area) (r : bool * flush_state) (rem : list sit_entry_set) : Prop := {
  li_inv : flush_inv s0 r.2;
  li_sets : sets_ok (dirty_sentries_bitmap (fl_sit r.2)) rem;
  li_regime : (r.1 = true /\ n_ents (fl_journal r.2) + Z.of_nat (size (dirty_sentries_bitmap (fl_sit r.2))) <= SIT_JOURNAL_ENTRIES) \/
    (forall x, seg_ok x -> START_SEGNO x ∈ starts rem -> sit_j_find (fl_journal r.2) x = None);
  li_area : sarea_wf a0;
  li_shape : sit_base_addr (fl_area r.2) = sit_base_addr a0 /\ sit_blocks (fl_area r.2) = sit_blocks a0;
  li_copy : forall x, seg_ok x -> START_SEGNO x ∈ starts rem -> current_sit_addr x (fl_area r.2) = current_sit_addr x a0;
  li_pages : forall x, seg_ok x -> get_sit_page (current_sit_addr x a0) (fl_area r.2) = get_sit_page (current_sit_addr x a0) a0;
  li_nr : nr_discards (fl_disc r.2) + 512 * Z.of_nat (size (dirty_sentries_bitmap (fl_sit r.2))) < 2 ^ 32
}.

Lemma same_sit_block x y : seg_ok x -> seg_ok y -> START_SEGNO y = START_SEGNO x <-> SIT_BLOCK_OFFSET y = SIT_BLOCK_OFFSET x.
Proof. intros Hx Hy. unfold START_SEGNO. rewrite sit_per_block. lia. Qed.

(** The dirty entries of the set of [k]. *)
Lemma set_todo D k : (forall x, x ∈ D -> seg_ok x) -> seg_ok k ->
  let todo := set_bits D (START_SEGNO k) (Z.min (u32 (START_SEGNO k + SIT_ENTRY_PER_BLOCK)) (MAIN_SEGS g)) in
  NoDup todo /\ (forall x, x ∈ todo <-> x ∈ D /\ START_SEGNO x = START_SEGNO k) /\ zlen todo = block_cnt D (START_SEGNO k).
Proof.
  intros HD Hk. cbv zeta. pose proof (main_blocks ly Hly) as Hm. fold g in Hm. destruct (entry_offset k Hk) as [K1 K2].
  set (todo := set_bits _ _ _).
  assert (Hin : forall x, x ∈ todo <-> x ∈ D /\ START_SEGNO x = START_SEGNO k).
  { intros x. unfold todo. rewrite set_bits_spec. unfold seg_ok in Hk.
    assert (0 <= START_SEGNO k) by (unfold START_SEGNO, SIT_BLOCK_OFFSET; rewrite sit_per_block; zdiv).
    rewrite u32_small by (rewrite sit_per_block in *; lia). split.
    - intros [Hx Hr]. split; [done|]. specialize (HD x Hx). destruct (entry_offset x HD) as [X1 X2].
      unfold START_SEGNO, SIT_BLOCK_OFFSET in *. rewrite sit_per_block in *. nia.
    - intros [Hx He]. split; [done|]. pose proof (HD x Hx) as Hxs. destruct (entry_offset x Hxs) as [X1 X2].
      unfold seg_ok in Hxs. lia. }
  assert (Hnd : NoDup todo) by apply set_bits_nodup. split; [done|]. split; [done|].
  unfold block_cnt, zlen. rewrite <- (size_list_to_set (C := gset Z) todo Hnd). do 2 f_equal. apply set_eq. intros x.
  rewrite elem_of_list_to_set, elem_of_filter, Hin. tauto.
Qed.

(** The sets that remain when one has been flushed. *)
Lemma sets_rest D ses rest todo : sets_ok D (ses :: rest) ->
  (forall x, x ∈ todo <-> x ∈ D /\ START_SEGNO x = start_segno_of ses) -> sets_ok (D ∖ list_to_set todo) rest.
Proof.
  intros [S1 S2 S3] Ht. cbn [map] in *. apply NoDup_cons in S1 as [S0 S1]. split; [done| |].
  - intros ses' Hs. destruct (S2 ses') as [C1 C2]; [by right|]. split; [|done]. rewrite C1. unfold block_cnt. do 2 f_equal.
    apply set_eq. intros x. rewrite !elem_of_filter, elem_of_difference, elem_of_list_to_set, Ht.
    assert (start_segno_of ses' <> start_segno_of ses) by (intros He; apply S0; rewrite <- He; by apply list_elem_of_fmap_2).
    intuition congruence.
  - intros x [Hx Hn]%elem_of_difference. specialize (S3 x Hx). apply elem_of_cons in S3 as [He|]; [|done].
    destruct Hn. apply elem_of_list_to_set, Ht. by split.
Qed.

(** Taking the other copy of a block, before its entries are flushed. *)
Lemma next_page_ok s0 a0 tj st ses rest k : loop_inv s0 a0 (tj, st) (ses :: rest) -> seg_ok k -> START_SEGNO k = start_segno_of ses ->
  (forall x, seg_ok x -> START_SEGNO x ∈ starts (ses :: rest) -> sit_j_find (fl_journal st) x = None) ->
  let '(dst, a') := get_next_sit_page (start_segno_of ses) (fl_sit st) (fl_area st) in
  flush_inv s0 (mk_fl (fl_sit st) (fl_journal st) a' (fl_disc st) (fl_bug st)) /\
  (forall x, seg_ok x -> START_SEGNO x = start_segno_of ses -> dst = current_sit_addr x a') /\
  (sit_base_addr a' = sit_base_addr a0 /\ sit_blocks a' = sit_blocks a0) /\
  (forall x, seg_ok x -> START_SEGNO x ∈ starts rest -> current_sit_addr x a' = current_sit_addr x a0) /\
  (forall x, seg_ok x -> get_sit_page (current_sit_addr x a0) a' = get_sit_page (current_sit_addr x a0) a0) /\
  (forall x, seg_ok x -> dst <> current_sit_addr x a0).
Proof.
  intros [Hi Hs _ Ha0 [Hb1 Hb2] Hc Hp _] Hk Hks Hnone. cbn [fst snd] in *. pose proof Hi as [F1 F2 F3 F4 F5 F6 F7 F8].
  pose proof (get_next_page_spec k (fl_sit st) (fl_area st) F2 Hk) as G. rewrite Hks in G.
  assert (Hshape : forall dst a', get_next_sit_page (start_segno_of ses) (fl_sit st) (fl_area st) = (dst, a') ->
    sit_base_addr a' = sit_base_addr a0 /\ sit_blocks a' = sit_blocks a0) by (unfold get_next_sit_page; by intros dst a' [= <- <-]).
  destruct (get_next_sit_page _ _ _) as [dst a']. destruct G as (G1 & G2 & G3 & G4 & G5).
  specialize (Hshape _ _ eq_refl). pose proof (so_nodup _ _ Hs) as Hnd.
  assert (Hdst : forall x, seg_ok x -> dst <> current_sit_addr x a0).
  { intros x Hx Heq. rewrite G2 in Heq.
    destruct (decide (SIT_BLOCK_OFFSET x = SIT_BLOCK_OFFSET k)) as [Hblk|Hblk].
    - rewrite <- Hc in Heq; [|done|rewrite (proj2 (same_sit_block k x Hk Hx) Hblk), Hks; left].
      rewrite current_addr_copy, Hblk in Heq by done. apply copy_inj in Heq as [Heq _]; [|by apply block_range..].
      unfold sit_bit in Heq. rewrite Hblk in Heq. by destruct (bm_get _ _).
    - rewrite current_addr_copy in Heq by done. unfold sit_copy in Heq. rewrite Hb1, Hb2 in Heq. fold (sit_copy a0 (negb (sit_bit (fl_area st) k)) (SIT_BLOCK_OFFSET k)) in Heq.
      fold (sit_copy a0 (sit_bit a0 x) (SIT_BLOCK_OFFSET x)) in Heq.
      apply copy_inj in Heq as [_ Heq]; [congruence|by apply block_range..]. }
  split; [|split; [|split; [done|split; [|split; [|exact Hdst]]]]].
  - split; try done. simpl. intros y Hy Hn. unfold sit_read. simpl. specialize (F5 y Hy Hn). unfold sit_read in F5.
    destruct (sit_j_find (fl_journal st) y) as [e|]; [done|]. simpl in *. rewrite G4 by done. by case_if.
  - intros x Hx He. rewrite G3 by done. rewrite (proj2 (Z.eqb_eq _ _)); [done|]. apply same_sit_block; [done|done|congruence].
  - intros x Hx Hin. rewrite G3 by done. rewrite (proj2 (Z.eqb_neq _ _)); [apply Hc; [done|by right]|].
    intros He. apply same_sit_block in He; [|done|done]. cbn [map] in Hnd. apply NoDup_cons in Hnd as [Hnd _].
    apply Hnd. rewrite <- Hks, <- He. done.
  - intros x Hx. rewrite G5; [by apply Hp|]. intros He. by apply (Hdst x).
Qed.

Lemma flush_set_ok cpc s0 a0 r ses rest : loop_inv s0 a0 r (ses :: rest) ->
  let r' := flush_set cpc r ses in
  loop_inv s0 a0 r' rest /\ same_control r.2 r'.2 /\
  nr_discards (fl_disc r'.2) + 512 * Z.of_nat (size (dirty_sentries_bitmap (fl_sit r'.2))) <=
    nr_discards (fl_disc r.2) + 512 * Z.of_nat (size (dirty_sentries_bitmap (fl_sit r.2))).
Proof.
  intros Hli. destruct r as [tj st]. pose proof Hli as [Hi Hs Hr Ha0 Hsh Hc Hp Hnr]. cbn [fst snd] in *.
  destruct (so_cnt _ _ Hs ses) as [C1 C2]; [left|]. rewrite C1 in C2. apply block_cnt_pos in C2 as (k & HkD & Hks).
  assert (HD : forall x, x ∈ dirty_sentries_bitmap (fl_sit st) -> seg_ok x) by apply (sw_dirty _ _ _ (fi_sit _ _ Hi)).
  pose proof (HD k HkD) as Hk. destruct (set_todo _ k HD Hk) as (T1 & T2 & T3). rewrite Hks in T1, T2, T3.
  unfold flush_set. set (todo := set_bits _ _ _) in *. set (tj' := tj && _).
  set (D := dirty_sentries_bitmap (fl_sit st)) in *.
  assert (Hsz : Z.of_nat (size D) = zlen todo + Z.of_nat (size (D ∖ list_to_set todo))).
  { replace D with (list_to_set todo ∪ D ∖ list_to_set todo) at 1.
    - rewrite size_union, Nat2Z.inj_add, size_list_to_set by done || set_solver. done.
    - apply set_eq. intros x. rewrite elem_of_union, elem_of_difference, elem_of_list_to_set, T2.
      destruct (decide (START_SEGNO x = start_segno_of ses)); tauto. }
  assert (Hnone : tj' = false -> forall x, seg_ok x -> START_SEGNO x ∈ starts (ses :: rest) -> sit_j_find (fl_journal st) x = None).
  { intros Hf. destruct Hr as [[-> Hr]|Hr]; [|done]. exfalso. unfold tj', __has_cursum_space, MAX_JENTRIES in Hf. simpl in Hf.
    apply Z.leb_gt in Hf. lia. }
  assert (Hroom : tj' = true -> n_ents (fl_journal st) + zlen todo <= SIT_JOURNAL_ENTRIES).
  { unfold tj', __has_cursum_space, MAX_JENTRIES. intros [_ Ht%Z.leb_le]%andb_true_iff. lia. }
  assert (Hpre : exists dst a', (if tj' then (0, fl_area st) else get_next_sit_page (start_segno_of ses) (fl_sit st) (fl_area st)) = (dst, a') /\
    flush_inv s0 (mk_fl (fl_sit st) (fl_journal st) a' (fl_disc st) (fl_bug st)) /\
    (tj' = false -> forall x, seg_ok x -> START_SEGNO x = start_segno_of ses -> dst = current_sit_addr x a') /\
    (sit_base_addr a' = sit_base_addr a0 /\ sit_blocks a' = sit_blocks a0) /\
    (forall x, seg_ok x -> START_SEGNO x ∈ starts rest -> current_sit_addr x a' = current_sit_addr x a0) /\
    (forall x, seg_ok x -> get_sit_page (current_sit_addr x a0) a' = get_sit_page (current_sit_addr x a0) a0) /\
    (tj' = true \/ forall x, seg_ok x -> dst <> current_sit_addr x a0)).
  { destruct tj'.
    - exists 0, (fl_area st). split; [done|]. split; [by destruct st|]. split; [done|]. split; [done|].
      split; [intros x Hx Hin; apply Hc; [done|by right]|]. split; [done|by left].
    - pose proof (next_page_ok s0 a0 tj st ses rest k Hli Hk Hks (Hnone eq_refl)) as H.
      destruct (get_next_sit_page _ _ _) as [dst a']. exists dst, a'. destruct H as (H1 & H2 & H3 & H4 & H5 & H6).
      split; [done|]. split; [done|]. split; [by intros _|]. split; [done|]. split; [done|]. split; [done|by right]. }
  destruct Hpre as (dst & a' & -> & P1 & P2 & P3 & P4 & P5 & P6).
  destruct (flush_list_ok cpc tj' dst s0 todo _ P1 T1) as (L1 & L2 & L3 & L4 & L5 & L6 & L7 & L8 & L9).
  { intros x Hx. apply T2 in Hx as [Hx _]. split; [by apply HD|done]. }
  { cbn [fl_journal fl_area]. destruct tj' eqn:Etj; [by apply Hroom|]. intros x Hx. apply T2 in Hx as [Hx He].
    split; [by apply P2; [|apply HD|]|]. apply Hnone; [done|by apply HD|]. rewrite He. left. }
  { cbn [fl_disc]. lia. }
  cbn [fl_sit fl_journal fl_area fl_disc fl_bug] in *. fold D in L2.
  set (st2 := foldl _ _ _) in *. clearbody st2. cbv zeta. cbn [fst snd fl_sit fl_journal fl_area fl_disc fl_bug].
  destruct (same_copies_addr _ _ L3) as [V1 V2]. destruct L3 as (V3 & V4 & _). destruct L8 as (B1 & B2 & B3). cbn [fl_bug fl_disc] in B1, B2, B3.
  split; [|split; [split; [|done]|rewrite L2; lia]].
  2:{ cbn [fl_bug]. rewrite B1, T3, C1, Z.sub_diag. apply orb_false_r. }
  split; cbn [fst snd fl_sit fl_journal fl_area fl_disc fl_bug].
  - destruct L1 as [X1 X2 X3 X4 X5 X6 X7 X8]. by split.
  - rewrite L2. by apply (sets_rest D ses).
  - rewrite L2. destruct Hr as [[-> Hr]|Hr].
    + destruct tj' eqn:Etj; [left; split; [done|lia]|right]. intros x Hx Hin. rewrite L5 by done. apply Hnone; [done|done|by right].
    + right. intros x Hx Hin. rewrite L4; [apply Hr; [done|by right]|]. intros [_ He]%T2.
      pose proof (so_nodup _ _ Hs) as Hnd. cbn [map] in Hnd. apply NoDup_cons in Hnd as [Hnd _]. apply Hnd. by rewrite <- He.
  - done.
  - by rewrite V3, V4.
  - intros x Hx Hin. rewrite V1. by apply P4.
  - intros x Hx. rewrite L7; [by apply P5|]. destruct P6 as [P6|P6]; [by left|right]. intros He. by apply (P6 x).
  - rewrite L2. lia.
Qed.

Lemma flush_sets_ok cpc s0 a0 rem : forall r, loop_inv s0 a0 r rem ->
  let r' := foldl (flush_set cpc) r rem in
  loop_inv s0 a0 r' [] /\ same_control r.2 r'.2 /\
  nr_discards (fl_disc r'.2) <= nr_discards (fl_disc r.2) + 512 * Z.of_nat (size (dirty_sentries_bitmap (fl_sit r.2))).
Proof.
  induction rem as [|ses rem IH]; intros r Hr; cbv zeta; [split; [done|]; split; [done|]; simpl; lia|].
  destruct (flush_set_ok cpc s0 a0 r ses rem Hr) as (H1 & [H2 [H3 H4]] & H5). cbn [foldl].
  destruct (IH _ H1) as (I1 & [I2 [I3 I4]] & I5). split; [done|]. split; [|lia]. split; [congruence|split; congruence].
Qed.

(** ** Lemmas: emptying the journal *)

Lemma remove_loop_ok j n : forall i s head, (forall k, i <= k < i + Z.of_nat n -> seg_ok (id_in_journal raw_sit0 j k)) ->
  sit_wf ly discard_en s -> sets_ok (dirty_sentries_bitmap s) head ->
  let '(s', head') := remove_sits_loop j i n s head in
  sit_wf ly discard_en s' /\ sets_ok (dirty_sentries_bitmap s') head' /\
  (forall x, x ∈ dirty_sentries_bitmap s' <-> x ∈ dirty_sentries_bitmap s \/ exists k, i <= k < i + Z.of_nat n /\ id_in_journal raw_sit0 j k = x) /\
  sentries s' = sentries s /\ sec_entries s' = sec_entries s /\ written_valid_blocks s' = written_valid_blocks s /\
  discard_blks s' = discard_blks s /\ need_fsck s' = need_fsck s.
Proof.
  induction n as [|n IH]; intros i s head Hids Hwf Hok.
  { simpl. split; [done|]. split; [done|]. split; [intros x; split; [by left|intros [|(k & Hk & _)]; [done|lia]]|done]. }
  cbn [remove_sits_loop]. set (x := id_in_journal raw_sit0 j i). assert (Hx : seg_ok x) by (apply Hids; lia).
  pose proof (dirty_bound ly discard_en Hly s Hwf) as Hdb. pose proof (sw_dirty_cnt _ _ _ Hwf) as Hcnt.
  assert (Hstep : exists dirtied s1, __mark_sit_entry_dirty x s = (dirtied, s1) /\ sit_wf ly discard_en s1 /\
    dirty_sentries_bitmap s1 = {[x]} ∪ dirty_sentries_bitmap s /\
    sets_ok (dirty_sentries_bitmap s1) (if negb dirtied then add_sit_entry head x else head) /\
    sentries s1 = sentries s /\ sec_entries s1 = sec_entries s /\ written_valid_blocks s1 = written_valid_blocks s /\
    discard_blks s1 = discard_blks s /\ need_fsck s1 = need_fsck s).
  { destruct (mark_dirty_fields ly Hly x s) as (M1 & M2 & M3 & M4 & M5 & M6 & M7).
    assert (Hb : (__mark_sit_entry_dirty x s).1 = test_bit x (dirty_sentries_bitmap s))
      by (unfold __mark_sit_entry_dirty; by destruct (test_bit x _) eqn:?).
    pose proof (geom_bounds g (ly_geom_ok ly Hly)) as Hgb. fold g in Hdb. specialize (M7 Hcnt).
    assert (Hne : test_bit x (dirty_sentries_bitmap s) = false -> x ∉ dirty_sentries_bitmap s) by apply test_bit_false.
    assert (Hlt : test_bit x (dirty_sentries_bitmap s) = false -> Z.of_nat (size (dirty_sentries_bitmap s)) + 1 < 2 ^ 32).
    { intros Hf. specialize (Hne Hf). pose proof (range_size ({[x]} ∪ dirty_sentries_bitmap s) (MAIN_SEGS g) ltac:(lia)) as Hrs.
      rewrite size_add in Hrs by done. pose proof (main_blocks ly Hly). fold g in H.
      assert (Z.of_nat (S (size (dirty_sentries_bitmap s))) <= MAIN_SEGS g); [|lia]. apply Hrs.
      intros y [->%elem_of_singleton|Hy]%elem_of_union; [done|by apply (sw_dirty _ _ _ Hwf)]. }
    destruct (__mark_sit_entry_dirty x s) as [dirtied s1] eqn:E. cbn [fst snd] in *. exists dirtied, s1. split; [done|].
    assert (Hcnt1 : dirty_sentries s1 = Z.of_nat (size (dirty_sentries_bitmap s1))).
    { destruct (test_bit x (dirty_sentries_bitmap s)) eqn:Et.
      - unfold __mark_sit_entry_dirty in E. rewrite Et in E. injection E as _ <-. done.
      - apply M7. rewrite Hcnt. by apply Hlt. }
    split; [|split; [done|split; [|done]]].
    - destruct Hwf as [W1 W2 W3 W4 W5 W6 W7 W8 W9]. split; rewrite ?M1, ?M2, ?M3, ?M4; try done.
      + rewrite M6. intros y [->%elem_of_singleton|Hy]%elem_of_union; [done|by apply W3].
      + intros y Hy Hn. unfold get_seg_entry. rewrite M1. apply W5; [done|]. rewrite M6 in Hn. set_solver.
    - rewrite M6, Hb. destruct (test_bit x (dirty_sentries_bitmap s)) eqn:Et; cbn [negb].
      + apply test_bit_true in Et. replace ({[x]} ∪ dirty_sentries_bitmap s) with (dirty_sentries_bitmap s) by set_solver. done.
      + apply add_sit_entry_ok; [done|by apply Hne|by apply Hlt]. }
  destruct Hstep as (dirtied & s1 & -> & S1 & S2 & S3 & S4 & S5 & S6 & S7 & S8).
  specialize (IH (i + 1) s1 (if negb dirtied then add_sit_entry head x else head)).
  destruct (remove_sits_loop _ _ _ _ _) as [s' head']. destruct IH as (I1 & I2 & I3 & I4 & I5 & I6 & I7 & I8); [intros k Hk; apply Hids; lia|done|done|].
  split; [done|]. split; [done|]. split; [|split_and!; congruence].
  intros y. rewrite I3, S2, elem_of_union, elem_of_singleton. split.
  - intros [[->|]|(k & Hk & <-)]; [right; exists i; split; [lia|done]|by left|right; exists k; split; [lia|done]].
  - intros [|(k & Hk & <-)]; [by left; right|]. destruct (decide (k = i)) as [->|]; [by left; left|right; exists k; split; [lia|done]].
Qed.

Lemma empty_journal_ok (j : sit_journal) : sit_j_wf j ->
  let j' := (update_in_cursum j (- n_ents j)).2 in sit_j_wf j' /\ n_ents j' = 0 /\ forall x, sit_j_find j' x = None.
Proof.
  intros [J1 J2 J3 J4]. cbv zeta. unfold update_in_cursum. cbn [snd]. rewrite Z.add_opp_diag_r, u16_small by lia.
  split; [|split; [done|intros x; by apply j_find_empty]]. split; cbn [n_ents]; [lia|done|done|intros; lia].
Qed.

(** ** A whole flush *)

(** The state between two flushes. *)
Record flush_wf (st : flush_state) : Prop := {
  fs_sit : sit_wf ly discard_en (fl_sit st);
  fs_area : sarea_wf (fl_area st);
  fs_journal : sit_j_wf (fl_journal st);
  fs_ids : forall x, sit_j_find (fl_journal st) x <> None -> seg_ok x;
  fs_synced : forall x, seg_ok x -> x ∉ dirty_sentries_bitmap (fl_sit st) ->
    sit_read (fl_journal st) (fl_area st) x = __seg_info_to_raw_sit (get_seg_entry x (fl_sit st));
  fs_disc : disc_wf ly (fl_sit st) (fl_disc st)
}.

(** The sets, the journal and the table before the loop over the sets. *)
Lemma flush_start st : flush_wf st -> nr_discards (fl_disc st) + 512 * MAIN_SEGS g < 2 ^ 32 ->
  let head := add_sits_in_set (fl_sit st) [] in
  let '(j, s, head) :=
    if negb (__has_cursum_space SIT_JOURNAL_ENTRIES (fl_journal st) (dirty_sentries (fl_sit st)))
    then remove_sits_in_journal (fl_journal st) (fl_sit st) head else (fl_journal st, fl_sit st, head) in
  loop_inv (fl_sit st) (fl_area st) (true, mk_fl s j (fl_area st) (fl_disc st) (fl_bug st)) head.
Proof.
  intros [F1 F2 F3 F4 F5 F6] Hnr. cbv zeta. pose proof (add_sits_ok _ F1) as Hsets.
  assert (Hstart : forall s j head, sit_wf ly discard_en s -> sit_j_wf j -> (forall x, sit_j_find j x <> None -> seg_ok x) ->
    sentries s = sentries (fl_sit st) -> sec_entries s = sec_entries (fl_sit st) ->
    written_valid_blocks s = written_valid_blocks (fl_sit st) -> discard_blks s = discard_blks (fl_sit st) ->
    need_fsck s = need_fsck (fl_sit st) ->
    (forall x, seg_ok x -> x ∉ dirty_sentries_bitmap s -> x ∉ dirty_sentries_bitmap (fl_sit st) /\
       sit_j_find j x = sit_j_find (fl_journal st) x) ->
    sets_ok (dirty_sentries_bitmap s) head ->
    (n_ents j + Z.of_nat (size (dirty_sentries_bitmap s)) <= SIT_JOURNAL_ENTRIES \/ forall x, sit_j_find j x = None) ->
    loop_inv (fl_sit st) (fl_area st) (true, mk_fl s j (fl_area st) (fl_disc st) (fl_bug st)) head).
  { intros s j head A1 A2 A3 A4 A5 A6 A7 A8 A9 A10 A11.
    assert (Hget : forall x, get_seg_entry x s = get_seg_entry x (fl_sit st)) by (intros; unfold get_seg_entry; by rewrite A4).
    split; cbn [fst snd fl_sit fl_journal fl_area fl_disc fl_bug]; try done.
    - split; cbn [fl_sit fl_journal fl_area fl_disc fl_bug]; try done.
      + intros x Hx Hn. destruct (A9 x Hx Hn) as [B1 B2]. rewrite Hget, <- F5 by done. unfold sit_read. by rewrite B2.
      + intros x Hx. rewrite Hget. case_bool_decide as Hd; [done|]. symmetry. apply ckpt_done_clean; [by apply (seg_entry_wf ly discard_en)|].
        apply (sw_clean _ _ _ F1); [done|]. by apply A9.
      + revert F6. apply disc_wf_same. intros x _. by rewrite Hget.
    - destruct A11 as [A11|A11]; [by left|by right].
    - pose proof (dirty_bound ly discard_en Hly s A1) as Hb. rewrite (sw_dirty_cnt _ _ _ A1) in Hb. fold g in Hb. lia. }
  pose proof F3 as [J1 J2 J3 J4]. destruct (negb _) eqn:Eroom.
  - assert (Hids : forall k, 0 <= k < 0 + Z.of_nat (Z.to_nat (n_ents (fl_journal st))) -> seg_ok (id_in_journal raw_sit0 (fl_journal st) k)).
    { intros k Hk. apply F4. rewrite (j_find_at raw_sit0 SIT_JOURNAL_ENTRIES); [done|done|lia]. }
    unfold remove_sits_in_journal. pose proof (remove_loop_ok (fl_journal st) (Z.to_nat (n_ents (fl_journal st))) 0 (fl_sit st) _ Hids F1 Hsets) as H.
    destruct (remove_sits_loop _ _ _ _ _) as [s head]. destruct H as (R1 & R2 & R3 & R4 & R5 & R6 & R7 & R8).
    destruct (empty_journal_ok _ F3) as (E1 & E2 & E3). apply Hstart; try done; [by intros x; rewrite E3| |by right].
    intros x Hx Hn. rewrite R3 in Hn. split; [tauto|]. rewrite E3. symmetry. apply j_find_none_intro. intros i Hi He.
    apply Hn. right. exists i. split; [lia|done].
  - apply Hstart; try done. left. apply negb_false_iff, Z.leb_le in Eroom. rewrite (sw_dirty_cnt _ _ _ F1) in Eroom.
    unfold MAX_JENTRIES in Eroom. lia.
Qed.

(** The candidates of CP_DISCARD, all entries being clean. *)
Lemma trim_ok minlen s l : sit_wf ly discard_en s -> dirty_sentries_bitmap s = ∅ -> (forall x, x ∈ l -> seg_ok x) -> forall d,
  disc_wf ly s d -> nr_discards d + 512 * zlen l < 2 ^ 32 ->
  let d' := foldl (fun d segno => add_discard_addrs ly discard_en opt_discard true minlen segno s d) d l in
  disc_wf ly s d' /\ nr_discards d' < 2 ^ 32.
Proof.
  intros Hwf Hd. unfold zlen. induction l as [|x l IH]; intros Hl d Hw Hnr; simpl in *; [split; [done|lia]|].
  destruct (add_discard_ok ly discard_en opt_discard true minlen x s d Hwf (Hl x ltac:(left)) Hw) as (H1 & H2 & _); [lia| |].
  - intros _. apply (sw_clean _ _ _ Hwf); [apply Hl; left|rewrite Hd; set_solver].
  - apply IH; [intros y Hy; apply Hl; by right|done|lia].
Qed.

(** With CP_DISCARD the loop collects nothing. *)
Lemma flush_sets_trim cpc l : cp_discard cpc = true -> forall r, fl_disc (foldl (flush_set cpc) r l).2 = fl_disc r.2.
Proof.
  intros Hc. induction l as [|ses l IH]; intros [tj st]; [done|]. cbn [foldl]. rewrite IH. unfold flush_set.
  set (tj' := tj && _). destruct (if tj' then _ else _) as [dst a]. cbn [snd fl_disc].
  set (todo := set_bits _ _ _). set (st0 := mk_fl _ _ _ _ _). change (fl_disc st) with (fl_disc st0). clearbody st0 todo. revert st0.
  induction todo as [|x todo IHt]; intros st0; [done|]. cbn [foldl]. rewrite IHt.
  by rewrite (proj2 (flush_entry_table cpc tj' dst st0 x)), Hc.
Qed.

(** What a flush does to the state. *)
Record flushed (st st' : flush_state) : Prop := {
  fd_wf : flush_wf st';
  fd_bug : fl_bug st' = false;
  fd_nr : nr_discards (fl_disc st') < 2 ^ 32;
  fd_clean : dirty_sentries_bitmap (fl_sit st') = ∅;
  fd_secs : sec_entries (fl_sit st') = sec_entries (fl_sit st);
  fd_fsck : need_fsck (fl_sit st') = need_fsck (fl_sit st);
  fd_table : forall x, seg_ok x -> get_seg_entry x (fl_sit st') = ckpt_done (get_seg_entry x (fl_sit st));
  fd_old : forall x, seg_ok x -> get_sit_page (current_sit_addr x (fl_area st)) (fl_area st') = get_sit_page (current_sit_addr x (fl_area st)) (fl_area st)
}.

Lemma flush_all_ok cpc st : flush_wf st -> nr_discards (fl_disc st) + 512 * MAIN_SEGS g < 2 ^ 32 -> fl_bug st = false ->
  (cp_discard cpc = true -> 0 <= trim_start cpc /\ trim_end cpc < MAIN_SEGS g) -> flushed st (flush_sit_entries cpc st).
Proof.
  intros Hwf Hnr Hbug Htrim. unfold flush_sit_entries. pose proof (dirty_bound ly discard_en Hly _ (fs_sit _ Hwf)) as Hdb. fold g in Hdb.
  pose proof (sw_dirty_cnt _ _ _ (fs_sit _ Hwf)) as Hcnt.
  set (st1 := if negb (c_true (dirty_sentries (fl_sit st))) then st else _).
  assert (H1 : flushed st st1 /\ (cp_discard cpc = true -> nr_discards (fl_disc st1) = nr_discards (fl_disc st))).
  { unfold st1. destruct (negb _) eqn:Ed.
    - apply negb_true_iff, c_true_false in Ed. assert (Hemp : dirty_sentries_bitmap (fl_sit st) = ∅) by (apply leibniz_equiv, size_empty_iff; lia).
      split; [|done]. split; try done; try lia. intros x Hx. symmetry. apply ckpt_done_clean; [apply (seg_entry_wf ly discard_en); [apply Hwf|done]|].
      apply (sw_clean _ _ _ (fs_sit _ Hwf)); [done|]. rewrite Hemp. set_solver.
    - pose proof (flush_start st Hwf Hnr) as Hst. cbv zeta in Hst. destruct (if negb (__has_cursum_space _ _ _) then _ else _) as [[j s] head].
      destruct (flush_sets_ok cpc _ _ head _ Hst) as ([L1 L2 _ _ _ _ L7 L8] & [C1 [C2 C3]] & _).
      pose proof (fun Hc => flush_sets_trim cpc head Hc (true, mk_fl s j (fl_area st) (fl_disc st) (fl_bug st))) as Htr.
      destruct (foldl _ _ _) as [tj st2]. cbn [fst snd fl_bug fl_disc] in *.
      assert (Hemp : dirty_sentries_bitmap (fl_sit st2) = ∅).
      { apply set_eq. intros x. split; [|set_solver]. intros Hx. apply (so_all _ _ L2) in Hx. by apply not_elem_of_nil in Hx. }
      destruct L1 as [F1 F2 F3 F4 F5 F6 (F7 & F8 & F9 & F10) F11].
      split; [|intros Hc; by rewrite Htr]. split; cbn [fl_sit fl_journal fl_area fl_disc fl_bug]; try done.
      + rewrite C1, Hbug. rewrite (sw_dirty_cnt _ _ _ F1), Hemp, size_empty. done.
      + lia.
      + intros x Hx. rewrite F6, Hemp by done. by rewrite bool_decide_false by set_solver. }
  clearbody st1. destruct H1 as [H1 Hn]. destruct (cp_discard cpc); [|done]. specialize (Hn eq_refl). destruct (Htrim eq_refl) as [T1 T2].
  destruct H1 as [[F1 F2 F3 F4 F5 F6] H2 H8 H3 H4 H5 H6 H7].
  set (l := seqZ _ _). destruct (trim_ok (trim_minlen cpc) (fl_sit st1) l F1 H3 ltac:(intros x Hx%elem_of_seqZ; unfold seg_ok; lia) (fl_disc st1) F6) as [T3 T4].
  { unfold zlen, l. rewrite length_seqZ. lia. }
  split; done.
Qed.

(** C5. After [flush_sit_entries] what a mount reads for every segment, from
    the SIT journal or the current copy of its SIT block, is the entry of the
    table as it was (its current map now being the checkpointed one), no entry
    is dirty, no BUG check fires, and the copies the previous checkpoint
    refers to have not been touched. *)
Theorem flush_sit_entries_durable cpc st : flush_wf st -> fl_bug st = false ->
  nr_discards (fl_disc st) + 512 * MAIN_SEGS g < 2 ^ 32 ->
  (cp_discard cpc = true -> 0 <= trim_start cpc /\ trim_end cpc < MAIN_SEGS g) ->
  let st' := flush_sit_entries cpc st in
  flush_wf st' /\ fl_bug st' = false /\ dirty_sentries_bitmap (fl_sit st') = ∅ /\
  (forall x, 0 <= x < MAIN_SEGS g ->
     sit_read (fl_journal st') (fl_area st') x = __seg_info_to_raw_sit (get_seg_entry x (fl_sit st)) /\
     get_seg_entry x (fl_sit st') = ckpt_done (get_seg_entry x (fl_sit st)) /\
     get_sit_page (current_sit_addr x (fl_area st)) (fl_area st') = get_sit_page (current_sit_addr x (fl_area st)) (fl_area st)).
Proof.
  intros Hwf Hbug Hnr Htrim. destruct (flush_all_ok cpc st Hwf Hnr Hbug Htrim) as [H1 H2 _ H3 _ _ H6 H7].
  split; [done|]. split; [done|]. split; [done|]. intros x Hx. split; [|split; [by apply H6|by apply H7]].
  rewrite (fs_synced _ H1) by (done || rewrite H3; set_solver). by rewrite H6.
Qed.

End flush.

(** ** Examples *)

(** The table of [Sit.v] after a block of segment 1 has become valid, with an
    empty journal and one SIT block. *)
Definition sarea0 : sit_area := mk_sarea 100 1 [0] ∅.
Definition sit_journal0 : sit_journal := mk_journal 0 (replicate 6%nat (0, raw_sit0)).
Definition sit1 : sit_info := update_sit_entry ly0 true 9 4099 1 sit0.
Definition fl0 : flush_state := mk_fl sit1 sit_journal0 sarea0 (mk_dcc [] 0 8192 []) false.
Definition cpc0 : cp_control := mk_cpc false 0 0 0.

Lemma sarea0_wf : sarea_wf ly0 sarea0.
Proof.
  split; [by repeat constructor|done| |].
  - unfold seg_ok. change (MAIN_SEGS (ly_geom ly0)) with 16. unfold SIT_BLOCK_OFFSET. rewrite sit_per_block.
    change (sit_blocks sarea0) with 1. change (bm_bits (sit_bitmap sarea0)) with 8. intros x Hx. split; zdiv.
  - intros addr. unfold get_sit_page, sarea0. simpl sit_pages. by rewrite lookup_empty.
Qed.

Lemma sit_journal0_wf : journal_wf raw_sit0 SIT_JOURNAL_ENTRIES sit_journal0.
Proof. split; try done. simpl. intros; lia. Qed.

Lemma fl0_wf : flush_wf ly0 true fl0.
Proof.
  destruct (update_sit_entry_ok ly0 true ly0_ok 9 4099 1 sit0 sit0_wf) as (Hwf & _ & Hd & se' & _ & _ & _ & Hs).
  { change (3584 <= 4099 < 11776). lia. }
  { left. split; [done|]. vm_compute. reflexivity. }
  split; try done.
  - apply sarea0_wf.
  - apply sit_journal0_wf.
  - intros x Hx Hn. change (fl_sit fl0) with sit1 in *. unfold sit1 in *. rewrite Hd in Hn.
    assert (x <> GET_SEGNO ly0 4099) by set_solver.
    assert (get_seg_entry x (update_sit_entry ly0 true 9 4099 1 sit0) = seg0) as ->.
    { unfold get_seg_entry. rewrite Hs, zget_zset_ne by done. apply sit0_entry. }
    unfold sit_read. rewrite j_find_empty by done. cbn [default]. unfold page_entry, get_current_sit_page, get_sit_page, sarea0. simpl sit_pages.
    rewrite lookup_empty. unfold default, sit_block0. rewrite zget_replicate. reflexivity.
Qed.

(** One entry goes to the journal. *)
Lemma flush_sit_entries_durable_witness :
  let st := flush_sit_entries ly0 true true cpc0 fl0 in
  dirty_sentries_bitmap (fl_sit st) = ∅ /\ rs_vblocks (sit_read (fl_journal st) (fl_area st) 1) = 1 /\
  rs_vblocks (sit_read (fl_journal st) (fl_area st) 2) = 0.
Proof.
  destruct (flush_sit_entries_durable ly0 true true ly0_ok cpc0 fl0 fl0_wf) as (_ & _ & H1 & H2); [done|done|done|].
  cbv zeta. destruct (H2 1) as [-> _]; [done|]. destruct (H2 2) as [-> _]; [done|]. split; [done|].
  split; vm_compute; reflexivity.
Defined.
