(* ===== verification/Prefree.v ===== *)
(** * Reusing the segments a checkpoint has emptied (segment.c)

    A segment without valid blocks may only be reused once a checkpoint no
    longer refers to its blocks.  Until then it is on the PRE list;
    [flush_sit_entries] ends by freeing the listed segments, and
    [clear_prefree_segments], after the checkpoint is written, empties the list
    and issues the discards. *)

From S2P Require Import Prelude Bits Journal FreeSeg Sit Segment Discard SitFlush.
From Stdlib Require Import ZArith Lia.
From stdpp Require Import base numbers option gmap list.
#[local] Open Scope Z_scope.
#[local] Open Scope c_scope.

Section prefree.
Variable ly : layout.
Variable discard_en : bool.
Variable opt_discard : bool.
Variable lfs : bool.              (* test_opt(LFS) *)
Variable blkzoned : bool.

Let g : geom := ly_geom ly.

(** ** The code *)

Definition set_prefree_as_free_segments (s : seg_state) : seg_state :=
  foldl (fun s seg => set_free_i (__set_test_and_free g seg (free_i s)) s) s
    (set_bits (dirty_map PRE (dirty_i s)) 0 (MAIN_SEGS g)).

(** [clear_bit] for [start], ..., [stop - 1], and the counter. *)
Definition clear_prefree_bits (start stop : Z) (d : dirty_seglist_info) : dirty_seglist_info :=
  mk_dirty (zset (dirty_segmap d) PRE (dirty_map PRE d ∖ list_to_set (seqZ start (stop - start))))
    (zset (nr_dirty d) PRE (zget 0 (nr_dirty d) PRE - (stop - start))) (victim_secmap d).

(** From the label [next]: the sections of [start], ..., [stop - 1]; the new [end]. *)
Fixpoint issue_sections (n : nat) (start stop : Z) (s : seg_state) (d : discard_ctl) : Z * seg_state * discard_ctl :=
  match n with
  | O => (stop, s, d)
  | S n =>
    let secno := GET_SEC_FROM_SEG g start in
    let start_seg := GET_SEG_FROM_SEC g secno in
    let '(s, d) :=
      if negb (IS_CURSEC ly secno s) && negb (c_true (get_valid_blocks ly start true (sit s))) then
        let '(si, d) := f2fs_issue_discard ly (START_BLOCK ly start_seg) (u32 (Z.shiftl (segs_per_sec g) log_blocks_per_seg)) (sit s) d in
        (set_sit si s, d)
      else (s, d) in
    let start := u32 (start_seg + segs_per_sec g) in
    if start <? stop then issue_sections n start stop s d else (u32 (start - 1), s, d)
  end.

Fixpoint clear_prefree_loop (n : nat) (cpc : cp_control) (last : Z) (s : seg_state) (d : discard_ctl) : seg_state * discard_ctl :=
  match n with
  | O => (s, d)
  | S n =>
    let prefree := dirty_map PRE (dirty_i s) in
    let start := find_next_bit prefree (MAIN_SEGS g) (u32 (last + 1)) in
    if MAIN_SEGS g <=? start then (s, d)
    else
      let stop := find_next_zero_bit prefree (MAIN_SEGS g) (start + 1) in
      let s := set_dirty_i (clear_prefree_bits start stop (dirty_i s)) s in
      if negb opt_discard then clear_prefree_loop n cpc stop s d
      else if cp_discard cpc && (trim_start cpc <=? start) && (stop - 1 <=? trim_end cpc) then clear_prefree_loop n cpc stop s d
      else if negb lfs || (segs_per_sec g =? 1) then
        let '(si, d) := f2fs_issue_discard ly (START_BLOCK ly start) (u32 (Z.shiftl (stop - start) log_blocks_per_seg)) (sit s) d in
        clear_prefree_loop n cpc stop (set_sit si s) d
      else
        let '(last, s, d) := issue_sections n start stop s d in clear_prefree_loop n cpc last s d
  end.

Definition clear_prefree_segments (cpc : cp_control) (s : seg_state) (d : discard_ctl) : seg_state * discard_ctl :=
  let '(s, d) := clear_prefree_loop (Z.to_nat (MAIN_SEGS g) + 1) cpc (2 ^ 32 - 1) s d in
  let '(si, d) := send_small_discards ly blkzoned cpc (sit s) d in (set_sit si s, d).

(** What a checkpoint does to the segments: [flush_sit_entries], with the
    freeing at its end, and the work after the checkpoint is on disk. *)
Definition checkpoint_segments (cpc : cp_control) (s : seg_state) (st : flush_state) : seg_state * flush_state :=
  let st := flush_sit_entries ly discard_en opt_discard cpc st in
  let s := set_prefree_as_free_segments (set_sit (fl_sit st) s) in
  let '(s, d) := clear_prefree_segments cpc s (fl_disc st) in
  (s, mk_fl (sit s) (fl_journal st) (fl_area st) d (fl_bug st)).

(** ** Lemmas: ranges of free segments *)

Hypothesis Hly : layout_ok ly.
#[local] Definition Hgeom : geom_ok g := ly_geom_ok ly Hly.

Lemma segs_range_free si a b : sit_wf ly discard_en si -> 0 <= a -> b <= MAIN_SEGS g -> a < b ->
  (forall x, a <= x < b -> valid_blocks (get_seg_entry x si) = 0) ->
  range_free ly si (START_BLOCK ly a, u32 (Z.shiftl (b - a) log_blocks_per_seg)).
Proof.
  intros Hwf Ha Hb Hab Hv blk Hblk. pose proof (main_blocks ly Hly) as Hm. fold g in Hm. unfold log_blocks_per_seg in Hblk.
  cbn [fst snd] in Hblk. rewrite Z.shiftl_mul_pow2, u32_small in Hblk by lia.
  rewrite (start_block ly Hly) in Hblk by (fold g; lia). set (x := (blk - main_blkaddr ly) / 512).
  assert (Hx : a <= x < b) by (unfold x; split; zdiv). assert (Hxs : 0 <= x < MAIN_SEGS g) by lia.
  destruct (block_at ly Hly x ((blk - main_blkaddr ly) mod 512) Hxs) as (B1 & B2 & B3); [zdiv|].
  rewrite (start_block ly Hly) in B1, B2, B3 by done.
  replace (main_blkaddr ly + 512 * x + (blk - main_blkaddr ly) mod 512) with blk in * by (unfold x; zdiv).
  split; [done|]. unfold block_valid. rewrite B2, B3. specialize (Hv x Hx).
  rewrite (gw_valid _ (seg_entry_wf ly discard_en x si Hwf Hxs)) in Hv. apply (bm_count_none _ Hv). zdiv.
Qed.

(** A section whose counter is zero. *)
Lemma section_free si x : sit_wf ly discard_en si -> 0 <= x < MAIN_SEGS g -> 1 < segs_per_sec g -> get_valid_blocks ly x true si = 0 ->
  forall y, 0 <= y < MAIN_SEGS g -> GET_SEC_FROM_SEG g y = GET_SEC_FROM_SEG g x -> valid_blocks (get_seg_entry y si) = 0.
Proof.
  intros Hwf Hx Hs Hv y Hy He. pose proof (sec_range g Hgeom x Hx) as Hc. unfold get_valid_blocks, get_sec_entry in Hv. fold g in Hv.
  rewrite (proj2 (Z.ltb_lt _ _)) in Hv by done. cbn [andb] in Hv. rewrite (sw_secs _ _ _ Hwf Hs _ Hc) in Hv. fold g in Hv.
  set (l := sentries si) in *. assert (Hpos : forall k, 0 <= valid_blocks (zget seg0 l k)).
  { intros k. destruct (decide (0 <= k < MAIN_SEGS g)) as [Hk|Hk].
    - pose proof (seg_entry_wf ly discard_en k si Hwf Hk) as W. unfold get_seg_entry in W. fold l in W. rewrite (gw_valid _ W). apply bm_count_bound.
    - unfold zget. case_if; [|done]. rewrite nth_overflow; [done|]. pose proof (sw_len _ _ _ Hwf) as Hl. fold l in Hl. unfold zlen in Hl. fold g in Hl. lia. }
  apply (in_section g Hgeom _ y Hc) in He. destruct (seg_from_sec g Hgeom (GET_SEC_FROM_SEG g x) ltac:(lia)) as [E _]. rewrite E in He.
  assert (Hin : y ∈ seqZ (GET_SEC_FROM_SEG g x * segs_per_sec g) (segs_per_sec g)) by (apply elem_of_seqZ; lia).
  unfold sec_count in Hv. fold g in Hv. revert Hv Hin. generalize (seqZ (GET_SEC_FROM_SEG g x * segs_per_sec g) (segs_per_sec g)).
  unfold get_seg_entry. fold l. induction l0 as [|k l0 IH]; intros H0 Hin; [by apply not_elem_of_nil in Hin|]. simpl in H0.
  assert (0 <= zsum (fun k => valid_blocks (zget seg0 l k)) l0) by (clear - Hpos; induction l0 as [|z l0 IH]; simpl; [lia|specialize (Hpos z); lia]).
  pose proof (Hpos k). apply elem_of_cons in Hin as [->|Hin]; [lia|]. apply IH; [lia|done].
Qed.

(** ** Lemmas: the loop over the prefree segments *)

(** The state during the loop that started in [s0] and [d0]. *)
Record clearing (s0 : seg_state) (d0 : discard_ctl) (s : seg_state) (d : discard_ctl) : Prop := {
  cl_sit : sit_wf ly discard_en (sit s);
  cl_same : same_but_discard (sit s0) (sit s);
  cl_free : free_i s = free_i s0;
  cl_cursegs : curseg_array s = curseg_array s0;
  cl_ssa : ssa s = ssa s0;
  cl_victim : last_victim s = last_victim s0 /\ seg_bug s = seg_bug s0;
  cl_len : dlen_ok (dirty_i s);
  cl_nr : nr_ok (dirty_i s);
  cl_maps : forall t, t <> PRE -> dirty_map t (dirty_i s) = dirty_map t (dirty_i s0);
  cl_pre : dirty_map PRE (dirty_i s) ⊆ dirty_map PRE (dirty_i s0);
  cl_disc : entry_list d = entry_list d0 /\ nr_discards d = nr_discards d0 /\ max_discards d = max_discards d0;
  cl_queue : exists new, queued d = queued d0 ++ new /\ Forall (range_free ly (sit s0)) new
}.

Lemma clearing_valid s0 d0 s d x : clearing s0 d0 s d -> valid_blocks (get_seg_entry x (sit s)) = valid_blocks (get_seg_entry x (sit s0)).
Proof. intros H. apply (sbd_fields _ _ x (cl_same _ _ _ _ H)). Qed.

(** Issuing one discard. *)
Lemma clearing_issue s0 d0 s d a b : clearing s0 d0 s d -> 0 <= a < b -> b <= MAIN_SEGS g ->
  (forall x, a <= x < b -> valid_blocks (get_seg_entry x (sit s0)) = 0) ->
  let '(si, d') := f2fs_issue_discard ly (START_BLOCK ly a) (u32 (Z.shiftl (b - a) log_blocks_per_seg)) (sit s) d in
  clearing s0 d0 (set_sit si s) d'.
Proof.
  intros Hc Ha Hb Hv. pose proof Hc as [C1 C2 C3 C4 C5 C6 C7 C8 C9 C10 C11 (new & C12 & C13)].
  assert (Hr : range_free ly (sit s) (START_BLOCK ly a, u32 (Z.shiftl (b - a) log_blocks_per_seg))).
  { apply segs_range_free; [done|lia|done|lia|]. intros x Hx. rewrite (clearing_valid _ _ _ _ x Hc). by apply Hv. }
  pose proof (issue_ok ly discard_en Hly _ _ (sit s) d C1 Hr (proj1 (u32_range _))) as H.
  destruct (f2fs_issue_discard _ _ _ _ _) as [si d']. destruct H as (H1 & H2 & H3 & H4 & H5 & new' & H6 & H7).
  split; cbn [sit set_sit free_i curseg_array ssa last_victim seg_bug dirty_i]; try done.
  - by eapply sbd_trans.
  - rewrite H3, H4, H5. done.
  - exists (new ++ new'). rewrite H6, C12, app_assoc. split; [done|]. apply Forall_app. split; [done|].
    eapply Forall_impl; [exact H7|]. intros r Hrf blk Hblk. destruct (Hrf blk Hblk) as [R1 R2]. split; [done|].
    unfold block_valid in *. rewrite (proj1 (proj2 (proj2 (sbd_fields _ _ (GET_SEGNO ly blk) C2)))) in R2. done.
Qed.

Lemma clearing_bits s0 d0 s d start stop : clearing s0 d0 s d -> start <= stop ->
  (forall x, start <= x < stop -> x ∈ dirty_map PRE (dirty_i s)) ->
  let s' := set_dirty_i (clear_prefree_bits start stop (dirty_i s)) s in
  clearing s0 d0 s' d /\ dirty_map PRE (dirty_i s') = dirty_map PRE (dirty_i s) ∖ list_to_set (seqZ start (stop - start)).
Proof.
  intros [C1 C2 C3 C4 C5 C6 [L1 L2] C8 C9 C10 C11 C12] Hr Hin. cbv zeta. set (X := list_to_set (seqZ start (stop - start))).
  assert (Hm : forall t, dirty_map t (clear_prefree_bits start stop (dirty_i s)) =
    if PRE =? t then dirty_map PRE (dirty_i s) ∖ X else dirty_map t (dirty_i s)).
  { intros t. unfold dirty_map at 1, clear_prefree_bits. cbn [dirty_segmap]. by rewrite zget_zset by (rewrite L1; done). }
  split; [|cbn [dirty_i set_dirty_i]; by rewrite Hm].
  split; cbn [sit set_dirty_i free_i curseg_array ssa last_victim seg_bug dirty_i]; try done.
  - unfold dlen_ok, clear_prefree_bits. cbn [dirty_segmap nr_dirty]. by rewrite !zlen_zset.
  - intros t Ht. rewrite Hm. unfold clear_prefree_bits. cbn [nr_dirty]. rewrite zget_zset by (rewrite L2; done).
    destruct (Z.eqb_spec PRE t) as [<-|]; [|by apply C8]. rewrite C8 by done.
    rewrite size_difference by (intros x Hx; apply Hin; apply in_range_set in Hx; lia).
    assert (Z.of_nat (size X) = stop - start) as <- by (apply range_set_size; lia).
    assert (size X <= size (dirty_map PRE (dirty_i s)))%nat; [|lia]. apply subseteq_size. intros x Hx. apply Hin.
    apply in_range_set in Hx; lia.
  - intros t Ht. rewrite Hm. rewrite (proj2 (Z.eqb_neq _ _)) by done. by apply C9.
  - rewrite Hm. set_solver.
Qed.

Lemma issue_sections_ok s0 d0 stop n : 1 < segs_per_sec g -> stop <= MAIN_SEGS g -> forall start s d,
  clearing s0 d0 s d -> 0 <= start < stop -> stop - start <= Z.of_nat n ->
  let '(last, s', d') := issue_sections n start stop s d in
  clearing s0 d0 s' d' /\ dirty_i s' = dirty_i s /\ start <= last < MAIN_SEGS g.
Proof.
  intros Hsec Hstop. pose proof (geom_bounds g Hgeom) as Hgb. induction n as [|n IH]; intros start s d Hc Hst Hn; [lia|]. cbn [issue_sections].
  assert (Hs : 0 <= start < MAIN_SEGS g) by lia. pose proof (sec_range g Hgeom start Hs) as Hsr.
  set (secno := GET_SEC_FROM_SEG g start) in *. set (first := GET_SEG_FROM_SEC g secno).
  destruct (seg_from_sec g Hgeom secno ltac:(lia)) as [E1 E2]. destruct (seg_from_sec g Hgeom (secno + 1) ltac:(lia)) as [E3 E4].
  pose proof (proj1 (in_section g Hgeom secno start Hsr) eq_refl) as Hin. fold first in E1, E2, Hin.
  assert (Hnext : first + segs_per_sec g <= MAIN_SEGS g) by lia.
  assert (Hstep : exists s1 d1, (if negb (IS_CURSEC ly secno s) && negb (c_true (get_valid_blocks ly start true (sit s))) then
      let '(si, d) := f2fs_issue_discard ly (START_BLOCK ly first) (u32 (Z.shiftl (segs_per_sec g) log_blocks_per_seg)) (sit s) d in (set_sit si s, d)
    else (s, d)) = (s1, d1) /\ clearing s0 d0 s1 d1 /\ dirty_i s1 = dirty_i s).
  { destruct (negb _ && negb _) eqn:E; [|by exists s, d]. apply andb_true_iff in E as [_ E%negb_true_iff%c_true_false].
    pose proof (clearing_issue s0 d0 s d first (first + segs_per_sec g) Hc ltac:(lia) Hnext) as Hi.
    replace (first + segs_per_sec g - first) with (segs_per_sec g) in Hi by lia.
    destruct (f2fs_issue_discard _ _ _ _ _) as [si d1]. exists (set_sit si s), d1. split; [done|]. split; [|done]. apply Hi. intros x Hx.
    rewrite <- (clearing_valid _ _ _ _ x Hc). apply (section_free (sit s) start (cl_sit _ _ _ _ Hc)); [done|done|done|lia|].
    apply (in_section g Hgeom secno); [done|]. fold first. lia. }
  destruct Hstep as (s1 & d1 & -> & S1 & S2). rewrite u32_small by lia.
  destruct (Z.ltb_spec (first + segs_per_sec g) stop) as [Hlt|Hge].
  - specialize (IH (first + segs_per_sec g) s1 d1 S1). destruct (issue_sections _ _ _ _ _) as [[last s'] d'].
    destruct IH as (I1 & I2 & I3); [lia|lia|]. split; [done|]. split; [congruence|lia].
  - rewrite u32_small by lia. split; [done|]. split; [done|lia].
Qed.

(** Not one section at a time. *)
Definition by_runs : Prop := opt_discard = false \/ lfs = false \/ segs_per_sec g = 1.

Lemma clear_loop_ok cpc s0 d0 n : (forall x, x ∈ dirty_map PRE (dirty_i s0) -> seg_valid s0 x = 0) -> forall last s d,
  clearing s0 d0 s d -> 0 <= u32 (last + 1) <= MAIN_SEGS g + 1 -> MAIN_SEGS g < u32 (last + 1) + Z.of_nat n ->
  let '(s', d') := clear_prefree_loop n cpc last s d in
  clearing s0 d0 s' d' /\
  (by_runs -> (forall x, x ∈ dirty_map PRE (dirty_i s) -> u32 (last + 1) <= x < MAIN_SEGS g) -> dirty_map PRE (dirty_i s') = ∅).
Proof.
  intros Hv0. pose proof (main_blocks ly Hly) as Hmb. fold g in Hmb. pose proof (geom_bounds g Hgeom) as Hgb.
  induction n as [|n IH]; intros last s d Hc Hl Hn.
  { simpl. split; [done|]. intros _ Hin. apply set_eq. intros x. split; [|set_solver]. intros Hx. specialize (Hin x Hx). lia. }
  cbn [clear_prefree_loop]. set (next := u32 (last + 1)) in *. set (P := dirty_map PRE (dirty_i s)) in *.
  set (start := find_next_bit P (MAIN_SEGS g) next).
  destruct (Z.leb_spec (MAIN_SEGS g) start) as [Hend|Hlt].
  { split; [done|]. intros _ Hin. apply set_eq. intros x. split; [|set_solver]. intros Hx. specialize (Hin x Hx).
    destruct (find_next_bit_spec P (MAIN_SEGS g) next ltac:(lia)) as (_ & F2 & _). fold start in F2. by destruct (F2 x ltac:(lia)). }
  assert (Hnext : next <= MAIN_SEGS g). { destruct (Z.le_gt_cases next (MAIN_SEGS g)); [done|]. unfold start, find_next_bit in Hlt. rewrite (proj2 (Z.leb_le _ _)) in Hlt by lia. lia. }
  destruct (find_next_bit_spec P (MAIN_SEGS g) next Hnext) as (F1 & F2 & F3). fold start in F1, F2, F3. specialize (F3 Hlt).
  destruct (find_next_zero_bit_spec P (MAIN_SEGS g) (start + 1) ltac:(lia)) as (Z1 & Z2 & Z3).
  set (stop := find_next_zero_bit P (MAIN_SEGS g) (start + 1)) in *.
  assert (Hrun : forall x, start <= x < stop -> x ∈ P) by (intros x Hx; destruct (decide (x = start)) as [->|]; [done|apply Z2; lia]).
  destruct (clearing_bits s0 d0 s d start stop Hc ltac:(lia) Hrun) as [B1 B2]. fold P in B2.
  set (s1 := set_dirty_i (clear_prefree_bits start stop (dirty_i s)) s) in *. clearbody s1.
  assert (Hleft : forall s2, dirty_i s2 = dirty_i s1 -> (forall x, x ∈ P -> next <= x < MAIN_SEGS g) ->
    forall x, x ∈ dirty_map PRE (dirty_i s2) -> u32 (stop + 1) <= x < MAIN_SEGS g).
  { intros s2 -> Hin x. rewrite B2, elem_of_difference, in_range_set, u32_small by lia. intros [Hx Hr]. specialize (Hin x Hx).
    destruct (decide (x = stop)) as [->|]; [by destruct Z3; [lia|]|]. destruct (Z.lt_ge_cases x start); [|lia]. by destruct (F2 x ltac:(lia)). }
  assert (Hgo : forall s2 d2, clearing s0 d0 s2 d2 -> dirty_i s2 = dirty_i s1 -> let '(s', d') := clear_prefree_loop n cpc stop s2 d2 in
    clearing s0 d0 s' d' /\ (by_runs -> (forall x, x ∈ P -> next <= x < MAIN_SEGS g) -> dirty_map PRE (dirty_i s') = ∅)).
  { intros s2 d2 Hc2 He. specialize (IH stop s2 d2 Hc2). destruct (clear_prefree_loop _ _ _ _ _) as [s' d'].
    rewrite u32_small in IH by lia. destruct IH as [I1 I2]; [lia|lia|]. split; [done|]. intros Hs Hin. apply I2; [done|].
    specialize (Hleft s2 He Hin). by rewrite u32_small in Hleft by lia. }
  destruct (negb opt_discard) eqn:Eo; [by apply Hgo|]. apply negb_false_iff in Eo.
  destruct (cp_discard cpc && _ && _); [by apply Hgo|].
  destruct (negb lfs || (segs_per_sec g =? 1)) eqn:El.
  - pose proof (clearing_issue s0 d0 s1 d start stop B1 ltac:(lia) ltac:(lia)) as Hi.
    assert (Hv : forall x, start <= x < stop -> valid_blocks (get_seg_entry x (sit s0)) = 0)
      by (intros x Hx; apply Hv0, (cl_pre _ _ _ _ Hc); by apply Hrun). specialize (Hi Hv).
    destruct (f2fs_issue_discard _ _ _ _ _) as [si d2]. by apply Hgo.
  - apply orb_false_iff in El as [El Es]. apply negb_false_iff in El. apply Z.eqb_neq in Es.
    assert (Hsec : 1 < segs_per_sec g) by (destruct Hgeom as (G1 & _); lia).
    pose proof (issue_sections_ok s0 d0 stop n Hsec ltac:(lia) start s1 d B1 ltac:(lia) ltac:(lia)) as Hi.
    destruct (issue_sections _ _ _ _ _) as [[last2 s2] d2]. destruct Hi as (I1 & I2 & I3).
    specialize (IH last2 s2 d2 I1). rewrite u32_small in IH by lia. destruct (clear_prefree_loop _ _ _ _ _) as [s' d'].
    destruct IH as [J1 _]; [lia|lia|]. split; [done|]. intros [?|[?|?]]; congruence || lia.
Qed.

(** ** Lemmas: freeing the prefree segments *)

Lemma free_list_ok l : forall s, free_wf g (free_i s) ->
  let s' := foldl (fun s seg => set_free_i (__set_test_and_free g seg (free_i s)) s) s l in
  free_wf g (free_i s') /\ free_segmap (free_i s') = free_segmap (free_i s) ∖ list_to_set l /\
  s' = set_free_i (free_i s') s.
Proof.
  induction l as [|x l IH]; intros s Hwf; cbn [foldl].
  - split; [done|]. split; [set_solver|by destruct s].
  - destruct (test_and_free_wf g Hgeom x (free_i s) Hwf) as [T1 T2].
    destruct (IH (set_free_i (__set_test_and_free g x (free_i s)) s) T1) as (I1 & I2 & I3). split; [done|]. split; [|by rewrite I3 at 1].
    rewrite I2. cbn [free_i set_free_i list_to_set]. rewrite T2. set_solver.
Qed.

Lemma set_prefree_ok s : free_wf g (free_i s) -> (forall x, x ∈ dirty_map PRE (dirty_i s) -> 0 <= x < MAIN_SEGS g) ->
  let s' := set_prefree_as_free_segments s in
  free_wf g (free_i s') /\ free_segmap (free_i s') = free_segmap (free_i s) ∖ dirty_map PRE (dirty_i s) /\ s' = set_free_i (free_i s') s.
Proof.
  intros Hwf Hin. cbv zeta. unfold set_prefree_as_free_segments. set (l := set_bits _ _ _). destruct (free_list_ok l s Hwf) as (H1 & H2 & H3).
  split; [done|]. split; [|done]. rewrite H2. f_equal. apply set_eq. intros x. rewrite elem_of_list_to_set. unfold l. rewrite set_bits_spec.
  specialize (Hin x). intuition.
Qed.

(** ** A checkpoint *)

(** The table after a checkpoint: what was valid is, and is what the checkpoint
    refers to. *)
Definition checkpointed (si si' : sit_info) : Prop := forall x,
  se_type (get_seg_entry x si') = se_type (get_seg_entry x si) /\ valid_blocks (get_seg_entry x si') = valid_blocks (get_seg_entry x si) /\
  cur_valid_map (get_seg_entry x si') = cur_valid_map (get_seg_entry x si) /\
  ckpt_valid_map (get_seg_entry x si') = cur_valid_map (get_seg_entry x si).

Lemma outside_table si x : zlen (sentries si) = MAIN_SEGS g -> ~ 0 <= x < MAIN_SEGS g -> get_seg_entry x si = seg0.
Proof.
  intros Hl Hx. unfold get_seg_entry. destruct (Z.lt_ge_cases x 0); [|apply zget_ge; lia].
  unfold zget. by rewrite (proj2 (Z.leb_gt _ _)).
Qed.

Lemma checkpointed_flush st st' : flush_wf ly discard_en st -> flushed ly discard_en st st' -> checkpointed (fl_sit st) (fl_sit st').
Proof.
  intros Hwf Hf x. destruct (decide (0 <= x < MAIN_SEGS g)) as [Hx|Hx].
  - by rewrite (fd_table _ _ _ _ Hf x Hx).
  - rewrite !outside_table; [done|apply (fs_sit _ _ _ Hwf)|done|apply (fs_sit _ _ _ (fd_wf _ _ _ _ Hf))|done].
Qed.

Lemma checkpointed_discard si si' si'' : checkpointed si si' -> same_but_discard si' si'' -> checkpointed si si''.
Proof.
  intros H1 H2 x. destruct (H1 x) as (A1 & A2 & A3 & A4), (sbd_fields _ _ x H2) as (B1 & B2 & B3 & B4). split_and!; congruence.
Qed.

Lemma free_at_ckpt si si' x off : checkpointed si si' -> bm_get (cur_valid_map (get_seg_entry x si)) off = false -> free_at si' x off.
Proof. intros H Hf. destruct (H x) as (_ & _ & H3 & H4). unfold free_at. by rewrite H3, H4. Qed.

Lemma checkpoint_core s s' : seg_core ly discard_en none s -> dirty_ok ly none s -> sit_wf ly discard_en (sit s') -> checkpointed (sit s) (sit s') ->
  free_wf g (free_i s') -> free_segmap (free_i s') = free_segmap (free_i s) ∖ dirty_map PRE (dirty_i s) ->
  curseg_array s' = curseg_array s -> ssa s' = ssa s -> seg_core ly discard_en none s'.
Proof.
  intros [I1 I2 I3 I4 I5 I6 I7] [D1 D2 _ _ _ _] Hwf Hck Hfree Hmap Hcur Hssa.
  assert (HcI : forall t, CURSEG_I t s' = CURSEG_I t s) by (intros; unfold CURSEG_I; by rewrite Hcur).
  split; try done.
  - by rewrite Hcur.
  - intros seg. unfold get_sum_page. rewrite Hssa. apply I4.
  - intros t Ht. rewrite HcI. destruct (I5 t Ht) as [G1 G2 G3 G4 G5 G6 G7]. split; try done.
    + rewrite Hmap. apply elem_of_difference. split; [done|]. intros Hp. destruct (D2 _ Hp) as [Hp' _].
      by apply (proj1 (is_curseg_false _ s) Hp' t).
    + unfold room in *. destruct (alloc_type (CURSEG_I t s)); [intros off Ho|intros Ho]; apply (free_at_ckpt _ _ _ _ Hck); by apply G7.
  - intros t t' Ht Ht'. rewrite !HcI. by apply I6.
  - intros seg off Hs Hn Ho. apply (free_at_ckpt _ _ _ _ Hck). rewrite Hmap in Hn.
    destruct (decide (seg ∈ free_segmap (free_i s))) as [Hin|Hnin]; [|by apply I7].
    destruct (decide (seg ∈ dirty_map PRE (dirty_i s))) as [Hp|Hnp]; [|by destruct Hn; apply elem_of_difference]. destruct (D2 _ Hp) as (_ & _ & Hv).
    unfold seg_valid in Hv. rewrite (gw_valid _ (seg_entry_wf ly discard_en seg _ I1 Hs)) in Hv. by apply (bm_count_none _ Hv).
Qed.

Lemma checkpoint_dirty s s' : seg_core ly discard_en none s -> dirty_ok ly none s -> checkpointed (sit s) (sit s') ->
  free_segmap (free_i s') = free_segmap (free_i s) ∖ dirty_map PRE (dirty_i s) -> curseg_array s' = curseg_array s ->
  dlen_ok (dirty_i s') -> nr_ok (dirty_i s') -> (forall t, t <> PRE -> dirty_map t (dirty_i s') = dirty_map t (dirty_i s)) ->
  dirty_map PRE (dirty_i s') = ∅ -> dirty_ok ly none s'.
Proof.
  intros Hcore [D1 D2 D3 D4 D5 D6] Hck Hmap Hcur L N Hmaps Hpre.
  assert (Hcs : forall x, IS_CURSEG x s' = IS_CURSEG x s) by (intros; unfold IS_CURSEG, CURSEG_I; by rewrite Hcur).
  assert (Hv : forall x, seg_valid s' x = seg_valid s x) by (intros x; apply (Hck x)).
  assert (Hd : dirty_map DIRTY (dirty_i s') = dirty_map DIRTY (dirty_i s)) by by apply Hmaps.
  assert (Hval : forall x, 0 <= x < MAIN_SEGS g -> 0 <= seg_valid s x) by (intros x Hx; unfold seg_valid;
    rewrite (gw_valid _ (seg_entry_wf ly discard_en x _ (iv_sit _ _ _ _ Hcore) Hx)); apply bm_count_bound).
  split; try done.
  - rewrite Hpre. set_solver.
  - rewrite Hd. intros x Hx. rewrite Hcs. destruct (D3 x Hx) as [H1 H2]. split; [done|]. rewrite Hmap. apply elem_of_difference.
    split; [done|]. intros Hp. destruct (D2 x Hp) as (_ & H3 & H4). pose proof (fw_segs _ _ (iv_free _ _ _ _ Hcore) x H2) as Hr.
    apply (D6 x Hr) in H1 as [H1 _]; [|by intros []]. apply H1 in Hx. lia.
  - intros x t Ht. rewrite Hd, (proj1 (Hck x)). rewrite Hmaps; [by apply D4|]. unfold is_type, NR_CURSEG_TYPE, PRE in *. lia.
  - intros x Hx _ Hc. rewrite Hcs in Hc. destruct (D6 x Hx) with (2 := Hc) as [H1 H2]; [by intros []|]. rewrite Hv, Hd. split; [done|].
    intros H3 H4. rewrite Hmap in H4. apply elem_of_difference in H4 as [H4 H5]. by destruct H5; apply H2.
Qed.

(** The loop and the small discards. *)
Lemma clear_segments_ok cpc s d : sit_wf ly discard_en (sit s) -> dlen_ok (dirty_i s) -> nr_ok (dirty_i s) ->
  (forall x, x ∈ dirty_map PRE (dirty_i s) -> 0 <= x < MAIN_SEGS g /\ seg_valid s x = 0) -> disc_wf ly (sit s) d -> nr_discards d < 2 ^ 32 ->
  let '(s', d') := clear_prefree_segments cpc s d in
  clearing s d s' (mk_dcc (entry_list d) (nr_discards d) (max_discards d) (queued d')) /\
  (by_runs -> dirty_map PRE (dirty_i s') = ∅) /\ entry_list d' = [] /\ 0 <= nr_discards d'.
Proof.
  intros Hwf Hl Hn Hp Hd Hnr. unfold clear_prefree_segments. pose proof (main_blocks ly Hly) as Hmb. fold g in Hmb.
  pose proof (geom_bounds g Hgeom) as Hgb.
  assert (Hc : clearing s d s d) by (split; try done; [apply sbd_refl|exists []; by rewrite app_nil_r]).
  pose proof (clear_loop_ok cpc s d (Z.to_nat (MAIN_SEGS g) + 1) (fun x Hx => proj2 (Hp x Hx)) (2 ^ 32 - 1) s d Hc) as H.
  change (u32 (2 ^ 32 - 1 + 1)) with 0 in H. destruct (clear_prefree_loop _ _ _ _ _) as [s1 d1]. destruct H as [C R]; [lia|lia|].
  destruct C as [C1 C2 C3 C4 C5 C6 C7 C8 C9 C10 (C11 & C12 & C13) (new & C14 & C15)].
  pose proof (send_small_ok ly discard_en Hly blkzoned cpc (sit s) (sit s1) d1 C1 C2) as H.
  assert (Hd1 : disc_wf ly (sit s) d1) by (destruct Hd; split; by rewrite ?C11, ?C12).
  destruct (send_small_discards _ _ _ _ _) as [si d2]. destruct H as (S1 & S2 & S3 & S4 & S5 & new2 & S6 & S7); [done|lia|].
  split; [|split; [intros Hs; apply R; [done|]; intros x Hx; by apply Hp|split; [done|lia]]].
  split; cbn [sit set_sit free_i curseg_array ssa last_victim seg_bug dirty_i entry_list nr_discards max_discards queued]; try done.
  exists (new ++ new2). rewrite S6, C14, app_assoc. split; [done|by apply Forall_app].
Qed.

(** C12. A checkpoint makes the segments it has emptied reusable, and only those:
    they are free afterwards, no discard covers a block that is valid, the
    validity of every block is unchanged and what was valid is checkpointed,
    and the tables are consistent and ready for the next checkpoint.  The
    dirty lists are, too, except in the mode that discards section by section. *)
Theorem checkpoint_segments_correct cpc s st : seg_inv ly discard_en s -> fl_sit st = sit s -> flush_wf ly discard_en st -> fl_bug st = false ->
  nr_discards (fl_disc st) + 512 * MAIN_SEGS g < 2 ^ 32 ->
  (cp_discard cpc = true -> 0 <= trim_start cpc /\ trim_end cpc < MAIN_SEGS g) ->
  let '(s', st') := checkpoint_segments cpc s st in
  seg_core ly discard_en none s' /\ (by_runs -> seg_inv ly discard_en s') /\
  flush_wf ly discard_en st' /\ fl_sit st' = sit s' /\ fl_bug st' = false /\ entry_list (fl_disc st') = [] /\
  free_segmap (free_i s') = free_segmap (free_i s) ∖ dirty_map PRE (dirty_i s) /\
  (forall blk, in_main ly blk -> block_valid ly (sit s') blk = block_valid ly (sit s) blk /\
     is_checkpointed_data ly blk (sit s') = block_valid ly (sit s) blk) /\
  exists new, queued (fl_disc st') = queued (fl_disc (flush_sit_entries ly discard_en opt_discard cpc st)) ++ new /\
    Forall (range_free ly (sit s')) new.
Proof.
  intros [Hcore Hdirty] Hsit Hwf Hbug Hnr Htrim. unfold checkpoint_segments.
  pose proof (flush_all_ok ly discard_en opt_discard Hly cpc st Hwf Hnr Hbug Htrim) as Hf.
  pose proof (checkpointed_flush st _ Hwf Hf) as Hck. rewrite Hsit in Hck.
  set (st1 := flush_sit_entries _ _ _ _ _) in *. clearbody st1. destruct Hf as [F1 F2 F3 F4 _ _ _ _].
  assert (Hpre : forall x, x ∈ dirty_map PRE (dirty_i s) -> 0 <= x < MAIN_SEGS g /\ seg_valid s x = 0).
  { intros x Hx. destruct (iv_pre _ _ _ Hdirty x Hx) as (_ & H1 & H2). split; [|done]. by apply (fw_segs _ _ (iv_free _ _ _ _ Hcore)). }
  destruct (set_prefree_ok (set_sit (fl_sit st1) s) (iv_free _ _ _ _ Hcore)) as (P1 & P2 & P3); [intros x Hx; by apply Hpre|].
  set (s2 := set_prefree_as_free_segments _) in *. clearbody s2.
  assert (Hs2 : sit s2 = fl_sit st1 /\ dirty_i s2 = dirty_i s /\ curseg_array s2 = curseg_array s /\ ssa s2 = ssa s) by (rewrite P3; done).
  destruct Hs2 as (Q1 & Q2 & Q3 & Q4). destruct F1 as [W1 W2 W3 W4 W5 W6].
  pose proof (clear_segments_ok cpc s2 (fl_disc st1)) as H. rewrite Q1, Q2 in H.
  destruct (clear_prefree_segments _ _ _) as [s4 d4]. cbn [fl_sit fl_bug fl_disc fl_journal fl_area].
  destruct H as ([C1 C2 C3 C4 C5 C6 C7 C8 C9 C10 _ C12] & R & E1 & E2); [done|exact (iv_dlen _ _ _ Hdirty)|exact (iv_nr _ _ _ Hdirty)| |done|done|].
  { intros x Hx. split; [by apply Hpre|]. unfold seg_valid. rewrite Q1. destruct (Hck x) as (_ & -> & _). by apply Hpre. }
  rewrite Q1 in C2, C12. rewrite Q2 in C9. pose proof (checkpointed_discard _ _ _ Hck C2) as Hck4.
  assert (Hmap : free_segmap (free_i s4) = free_segmap (free_i s) ∖ dirty_map PRE (dirty_i s)) by (rewrite C3, P2; done).
  assert (Hcore4 : seg_core ly discard_en none s4) by (apply (checkpoint_core s); try done; congruence).
  split; [done|]. split; [|split; [|split; [done|split; [done|split; [done|split; [done|split]]]]]].
  - intros Hs. split; [done|]. apply (checkpoint_dirty s); try done; [congruence|by apply R].
  - split; cbn [fl_sit fl_bug fl_disc fl_journal fl_area]; try done.
    + intros x Hx Hn. rewrite W5; [|done|]. 2:{ destruct C2 as (_ & <- & _). done. } destruct C2 as (_ & _ & _ & _ & _ & ->). done.
    + split; rewrite E1; [constructor|done].
  - intros blk Hb. unfold block_valid, is_checkpointed_data. destruct (Hck4 (GET_SEGNO ly blk)) as (_ & _ & H3 & H4).
    rewrite (main_not_special ly Hly) by done. rewrite H3. split; [done|]. by rewrite test_bit_get, H4.
  - destruct C12 as (new & N1 & N2). exists new. cbn [queued] in N1. split; [done|]. eapply Forall_impl; [exact N2|].
    intros r Hr. by apply (range_free_same ly (fl_sit st1)).
Qed.

End prefree.

(** ** Examples *)

(** The empty main area of [Segment.v], with segment 9 emptied since the last
    checkpoint. *)
Definition pre_state (fi : free_segmap_info) : seg_state := set_dirty_i (add_dirty 9 PRE dirty0) (empty_state fi).
Definition pre_free0 : free_segmap_info := __set_inuse (ly_geom ly0) 9 free0.
Definition pre_state0 : seg_state := pre_state pre_free0.

Lemma pre_state_inv fi : free_wf (ly_geom ly0) fi -> (forall t, t ∈ free_segmap fi <-> is_type t \/ t = 9) -> seg_inv ly0 true (pre_state fi).
Proof.
  intros Hwf Hin. destruct (add_dirty_spec ly0 ly0_ok 9 PRE dirty0) as (L & N & M); [done| |done|].
  { intros t Ht. rewrite dirty0_map, size_empty. apply (zget_replicate 0 8). }
  cbv zeta in L, N, M. assert (Hm : forall t, dirty_map t (add_dirty 9 PRE dirty0) = if PRE =? t then {[9]} else ∅).
  { intros t. rewrite M, dirty0_map. case_if; [|done]. by rewrite union_empty_r_L. }
  assert (H9 : IS_CURSEG 9 (pre_state fi) = false).
  { apply is_curseg_false. intros t Ht. change (CURSEG_I t (pre_state fi)) with (CURSEG_I t (empty_state fi)). rewrite cur0_at by done.
    unfold is_type, NR_CURSEG_TYPE in Ht. simpl. lia. }
  split.
  - destruct (empty_core fi Hwf) as [C1 C2 C3 C4 C5 C6 C7]; [intros t Ht; apply Hin; by left|].
    split; [exact C1|exact C2|exact C3|exact C4| |exact C6|exact C7]. intros t Ht. destruct (C5 t Ht). by split.
  - split; change (dirty_i (pre_state fi)) with (add_dirty 9 PRE dirty0); change (free_i (pre_state fi)) with fi.
    + exact L.
    + intros seg. rewrite Hm, Z.eqb_refl. intros ->%elem_of_singleton. split; [exact H9|]. split; [apply Hin; by right|].
      unfold seg_valid. change (sit (pre_state fi)) with sit0. by rewrite sit0_entry.
    + intros seg. rewrite Hm. by intros []%elem_of_empty.
    + intros seg t Ht. rewrite !Hm. unfold is_type, NR_CURSEG_TYPE in Ht. rewrite (proj2 (Z.eqb_neq PRE t)) by (unfold PRE; lia).
      change (PRE =? DIRTY) with false. cbv iota. rewrite elem_of_empty. tauto.
    + exact N.
    + intros seg _ _ Hc. change (free_i (pre_state fi)) with fi. unfold seg_valid. change (sit (pre_state fi)) with sit0.
      change (dirty_i (pre_state fi)) with (add_dirty 9 PRE dirty0). rewrite sit0_entry, !Hm. change (valid_blocks seg0) with 0.
      change (PRE =? DIRTY) with false. change (PRE =? PRE) with true. cbv iota. rewrite elem_of_empty. split; [split; [tauto|lia]|]. intros _ [Ht| ->]%Hin; [|by apply elem_of_singleton].
      exfalso. apply (proj1 (is_curseg_false seg _) Hc seg Ht). change (CURSEG_I seg (pre_state fi)) with (CURSEG_I seg (empty_state fi)).
      by rewrite cur0_at.
Qed.

Lemma pre_state0_inv : seg_inv ly0 true pre_state0.
Proof.
  destruct (set_inuse_wf (ly_geom ly0) (proj1 ly0_ok) 9 free0 free0_wf) as [H1 H2]; [done| |].
  { rewrite <- free0_segs. unfold is_type, NR_CURSEG_TYPE. lia. }
  apply pre_state_inv; [exact H1|]. intros t. unfold pre_free0. rewrite H2, elem_of_union, elem_of_singleton, <- free0_segs. tauto.
Qed.

Definition pre_fl0 : flush_state := mk_fl sit0 sit_journal0 sarea0 (mk_dcc [] 0 8192 []) false.

Lemma pre_fl0_wf : flush_wf ly0 true pre_fl0.
Proof.
  split; try done.
  - exact sit0_wf.
  - apply sarea0_wf.
  - apply sit_journal0_wf.
  - intros x Hx _. change (fl_sit pre_fl0) with sit0. rewrite sit0_entry. unfold sit_read. rewrite j_find_empty by done.
    cbn [default]. unfold page_entry, get_current_sit_page, get_sit_page, pre_fl0, sarea0. simpl sit_pages.
    rewrite lookup_empty. unfold default, sit_block0. rewrite zget_replicate. reflexivity.
Qed.

(** The segment is free after the checkpoint, and its blocks are not valid. *)
Lemma checkpoint_segments_correct_witness :
  let '(s', st') := checkpoint_segments ly0 true true false false cpc0 pre_state0 pre_fl0 in
  seg_inv ly0 true s' /\ 9 ∉ free_segmap (free_i s') /\ block_valid ly0 (sit s') 8200 = false.
Proof.
  pose proof (checkpoint_segments_correct ly0 true true false false ly0_ok cpc0 pre_state0 pre_fl0 pre_state0_inv eq_refl pre_fl0_wf) as H.
  destruct (checkpoint_segments _ _ _ _ _ _ _ _) as [s' st']. destruct H as (_ & H1 & _ & _ & _ & _ & H2 & H3 & _); [done|done|done|].
  split; [apply H1; right; by left|]. split.
  - rewrite H2. apply not_elem_of_difference. right. vm_compute. reflexivity.
  - rewrite (proj1 (H3 8200 ltac:(change (3584 <= 8200 < 11776); lia))). vm_compute. reflexivity.
Defined.

(** Sections of four segments; the log of hot data is in segment 1, segments 0
    and 2 of its section have been emptied. *)
Definition ly4 : layout := mk_layout (mk_geom 4 1 4 16) 512 6 22.
Definition opts_lfs : seg_opts := mk_opts true false false true 0 0 0 2 4.
Definition skip_state : seg_state :=
  mk_segs sit0 (foldr (__set_test_and_inuse (ly_geom ly4)) (mk_freemap 16 4 ∅ ∅) [0; 1; 2; 4; 5; 6; 7; 8])
    (add_dirty 0 PRE (add_dirty 2 PRE dirty0)) (map cur0 [1; 4; 5; 6; 7; 8]) ∅ [0; 0; 0; 0] false.

(** With LFS, discards and more than one segment in a section the loop goes on
    behind the section: segment 2 stays on the PRE list although it has been
    freed.  When the log then moves to it, the next checkpoint frees the
    segment being written. *)
Lemma prefree_segment_skipped :
  let s := (clear_prefree_segments ly4 true true false cpc0 (set_prefree_as_free_segments ly4 skip_state) (mk_dcc [] 0 8192 [])).1 in
  let s := @allocate_segment_by_default ly4 no_victim opts_lfs CURSEG_HOT_DATA false s in
  let s' := set_prefree_as_free_segments ly4 s in
  segno (CURSEG_I CURSEG_HOT_DATA s) = 2 /\ 2 ∈ free_segmap (free_i s) /\
  segno (CURSEG_I CURSEG_HOT_DATA s') = 2 /\ 2 ∉ free_segmap (free_i s').
Proof.
  cbv zeta. rewrite <- test_bit_true, <- test_bit_false. split; [|split; [|split]]; vm_compute; reflexivity.
Qed.
