(* ===== verification/Mount.v ===== *)
(** * Reading the segment tables at mount (segment.c)

    [build_sit_entries] reads the segment table from the current SIT blocks and
    then from the SIT journal; [init_free_segmap] and [init_dirty_segmap] derive
    the free map and the dirty lists from it. *)

From S2P Require Import Prelude Bits Journal FreeSeg Sit Segment Discard SitFlush Prefree.
From Stdlib Require Import ZArith Lia.
From stdpp Require Import base numbers option gmap list.
#[local] Open Scope Z_scope.
#[local] Open Scope c_scope.

Section mount.
Variable ly : layout.
Variable discard_en : bool.
Variable trimmed : bool.          (* CP_TRIMMED_FLAG *)

Let g : geom := ly_geom ly.

(** ** The segment table *)

Definition SIT_BLK_CNT : Z := (MAIN_SEGS g + SIT_ENTRY_PER_BLOCK - 1) / SIT_ENTRY_PER_BLOCK.
Definition BIO_MAX_PAGES : Z := 256.

(** [ra_meta_pages] for META_SIT: how many blocks it reads ahead. *)
Fixpoint ra_sit_loop (nrpages : nat) (blkno : Z) : Z :=
  match nrpages with
  | O => blkno
  | S n => if SIT_BLK_CNT <=? blkno then blkno else ra_sit_loop n (blkno + 1)
  end.
Definition ra_sit_pages (start : Z) : Z := ra_sit_loop (Z.to_nat BIO_MAX_PAGES) start - start.

(** [build_sit_info]: everything zero. *)
Definition build_sit_info : sit_info :=
  mk_sit (replicate (Z.to_nat (MAIN_SEGS g)) seg0) (replicate (Z.to_nat (MAIN_SECS g)) 0) ∅ 0 0 0 0 false.

(** The body of the two loops of [build_sit_entries], on the entry [raw] of
    segment [start]; the error, too. *)
Definition build_sit_entry (from_journal : bool) (raw : f2fs_sit_entry) (start : Z) (s : sit_info) : Z * sit_info :=
  let old_valid_blocks := valid_blocks (get_seg_entry start s) in
  let '(err, s) := check_block_count ly start raw s in
  if c_true err then (err, s)
  else
    let se := seg_info_from_raw_sit (get_seg_entry start s) raw in
    let se := if discard_en then set_discard_map (if trimmed then replicate 64%nat 255 else cur_valid_map se) se else se in
    let dblks := if discard_en && negb trimmed
                 then (if from_journal then old_valid_blocks else blocks_per_seg) - valid_blocks se else 0 in
    let dsec := valid_blocks se - (if from_journal then old_valid_blocks else 0) in
    let secno := GET_SEC_FROM_SEG g start in
    (0, mk_sit (zset (sentries s) start se)
          (if 1 <? segs_per_sec g then zset (sec_entries s) secno (u32 (zget 0 (sec_entries s) secno + dsec)) else sec_entries s)
          (dirty_sentries_bitmap s) (dirty_sentries s) (written_valid_blocks s) (max_mtime s) (u32 (discard_blks s + dblks)) (need_fsck s)).

Fixpoint load_segs (n : nat) (start stop : Z) (a : sit_area) (s : sit_info) : Z * sit_info :=
  match n with
  | O => (0, s)
  | S n =>
    if (start <? stop) && (start <? MAIN_SEGS g) then
      let sit := zget raw_sit0 (get_current_sit_page start a) (SIT_ENTRY_OFFSET start) in
      let '(err, s) := build_sit_entry false sit start s in
      if c_true err then (err, s) else load_segs n (start + 1) stop a s
    else (0, s)
  end.

Fixpoint load_blocks (n : nat) (start_blk : Z) (a : sit_area) (s : sit_info) : Z * sit_info :=
  match n with
  | O => (0, s)
  | S n =>
    let readed := ra_sit_pages start_blk in
    let start := u32 (start_blk * SIT_ENTRY_PER_BLOCK) in
    let stop := u32 (u32 (start_blk + readed) * SIT_ENTRY_PER_BLOCK) in
    let '(err, s) := load_segs (Z.to_nat (stop - start)) start stop a s in
    if c_true err then (err, s)
    else if u32 (start_blk + readed) <? SIT_BLK_CNT then load_blocks n (u32 (start_blk + readed)) a s else (0, s)
  end.

(** The loop over the journal; also whether an entry outside the table was used. *)
Fixpoint load_journal (n : nat) (i : Z) (j : sit_journal) (oob : bool) (s : sit_info) : Z * bool * sit_info :=
  match n with
  | O => (0, oob, s)
  | S n =>
    let start := id_in_journal raw_sit0 j i in
    let oob := oob || (MAIN_SEGS g <=? start) in
    let '(err, s) := build_sit_entry true (ent_in_journal raw_sit0 j i) start s in
    if c_true err then (err, oob, s) else load_journal n (i + 1) j oob s
  end.

Definition build_sit_entries (a : sit_area) (j : sit_journal) (s : sit_info) : Z * bool * sit_info :=
  let '(err, s) := load_blocks (Z.to_nat SIT_BLK_CNT + 1) 0 a s in
  if c_true err then (err, false, s) else load_journal (Z.to_nat (n_ents j)) 0 j false s.

(** ** The free map and the dirty lists *)

Definition init_free_segment (s : seg_state) (start : Z) : seg_state :=
  let v := valid_blocks (get_seg_entry start (sit s)) in
  let si := sit s in
  if negb (c_true v) then set_free_i (__set_free g start (free_i s)) s
  else set_sit (mk_sit (sentries si) (sec_entries si) (dirty_sentries_bitmap si) (dirty_sentries si)
                  (u32 (written_valid_blocks si + v)) (max_mtime si) (discard_blks si) (need_fsck si)) s.

Definition init_free_segmap (s : seg_state) : seg_state :=
  let s := foldl init_free_segment s (seqZ 0 (MAIN_SEGS g)) in
  foldl (fun s type => set_free_i (__set_test_and_inuse g (segno (CURSEG_I type s)) (free_i s)) s) s [0; 1; 2; 3; 4; 5].

Fixpoint init_dirty_loop (n : nat) (offset : Z) (s : seg_state) : seg_state :=
  match n with
  | O => s
  | S n =>
    let seg := find_next_inuse (MAIN_SEGS g) offset (free_i s) in
    if MAIN_SEGS g <=? seg then s
    else
      let valid := u16 (get_valid_blocks ly seg false (sit s)) in
      if (valid =? blocks_per_seg) || negb (c_true valid) then init_dirty_loop n (seg + 1) s
      else if blocks_per_seg <? valid then init_dirty_loop n (seg + 1) (set_seg_bug true s)
      else init_dirty_loop n (seg + 1) (__locate_dirty_segment seg DIRTY s)
  end.

Definition init_dirty_segmap (s : seg_state) : seg_state := init_dirty_loop (Z.to_nat (MAIN_SEGS g) + 1) 0 s.

Definition build_dirty_segmap (s : seg_state) : seg_state :=
  init_dirty_segmap (set_dirty_i (mk_dirty (replicate 8%nat ∅) (replicate 8%nat 0) ∅) s).

(** The part of [build_segment_manager] that builds the tables; the logs are
    those of the checkpoint. *)
Definition build_segment_manager (cursegs : list curseg_info) (ssa : gmap Z sum_block) (lv : list Z) (a : sit_area) (j : sit_journal)
    : Z * bool * seg_state :=
  let no_dirty := mk_dirty [] [] ∅ in
  let '(err, oob, si) := build_sit_entries a j build_sit_info in
  let s := mk_segs si (build_free_segmap g) no_dirty cursegs ssa lv false in
  if c_true err then (err, oob, s) else (0, oob, build_dirty_segmap (init_free_segmap s)).

(** ** Lemmas: the on-disk form *)

Hypothesis Hly : layout_ok ly.
#[local] Definition Hgm : geom_ok g := ly_geom_ok ly Hly.

Lemma vblocks_range raw : 0 <= GET_SIT_VBLOCKS raw < 1024.
Proof.
  unfold GET_SIT_VBLOCKS. change SIT_VBLOCKS_MASK with (Z.ones 10). rewrite Z.land_ones by lia. by apply Z.mod_pos_bound.
Qed.

(** The entry read from [raw]. *)
Definition loaded (raw : f2fs_sit_entry) : seg_entry :=
  let se := seg_info_from_raw_sit seg0 raw in
  if discard_en then set_discard_map (if trimmed then replicate 64%nat 255 else cur_valid_map se) se else se.

Lemma loaded_valid raw : valid_blocks (loaded raw) = GET_SIT_VBLOCKS raw.
Proof.
  unfold loaded. pose proof (vblocks_range raw). assert (bits10 (GET_SIT_VBLOCKS raw) = GET_SIT_VBLOCKS raw) by (apply Z.mod_small; lia). by case_if.
Qed.

Lemma raw_fields se : seg_wf se -> let raw := __seg_info_to_raw_sit se in
  GET_SIT_VBLOCKS raw = valid_blocks se /\ bits6 (GET_SIT_TYPE raw) = se_type se.
Proof.
  intros [W1 _ _ _ W5 _]. cbv zeta. pose proof (bm_count_bound (cur_valid_map se)) as Hb. rewrite <- W5 in Hb.
  unfold GET_SIT_VBLOCKS, GET_SIT_TYPE, __seg_info_to_raw_sit. change SIT_VBLOCKS_MASK with (Z.ones 10). change SIT_VBLOCKS_SHIFT with 10. cbn [rs_vblocks].
  generalize dependent (valid_blocks se). intros v Hv Hb. generalize dependent (se_type se). intros t Ht.
  assert (E : Z.shiftl t 10 .| v = t * 1024 + v).
  { rewrite Z.shiftl_mul_pow2 by lia. change (2 ^ 10) with 1024. rewrite <- Z.lxor_lor, <- Z.add_nocarry_lxor; [done|..];
      apply Z.bits_inj'; intros i Hi; rewrite Z.land_spec, Z.bits_0; change 1024 with (2 ^ 10); rewrite Z.mul_pow2_bits by lia;
      (destruct (Z.lt_ge_cases i 10); [rewrite Z.testbit_neg_r by lia; done|rewrite (testbit_high v 10) by lia; apply andb_false_r]). }
  rewrite E, u16_small by lia. split.
  - rewrite Z.land_ones by lia. change (2 ^ 10) with 1024. rewrite Z.add_comm, Z.mod_add by lia. apply Z.mod_small. lia.
  - rewrite <- Z.ldiff_land, Z.ldiff_ones_r by lia. rewrite Z.shiftr_shiftl_l by lia. rewrite Z.shiftl_0_r, Z.shiftr_div_pow2 by lia.
    change (2 ^ 10) with 1024. replace ((t * 1024 + v) / 1024) with t by (symmetry; zdiv). apply Z.mod_small. lia.
Qed.

(** ** Lemmas: loading entries *)

(** The table when the entries of [f] have been read, [k] of them from the blocks. *)
Record loading (f : Z -> option f2fs_sit_entry) (k : Z) (s : sit_info) : Prop := {
  ld_len : zlen (sentries s) = MAIN_SEGS g;
  ld_entry : forall x, 0 <= x < MAIN_SEGS g -> get_seg_entry x s = from_option loaded seg0 (f x);
  ld_small : forall x raw, 0 <= x < MAIN_SEGS g -> f x = Some raw -> GET_SIT_VBLOCKS raw <= 512;
  ld_sec_len : 1 < segs_per_sec g -> zlen (sec_entries s) = MAIN_SECS g;
  ld_secs : 1 < segs_per_sec g -> forall c, 0 <= c < MAIN_SECS g -> zget 0 (sec_entries s) c = sec_count ly (sentries s) c;
  ld_disc : discard_en = true -> discard_blks s = if trimmed then 0 else u32 (512 * k - zsum valid_blocks (sentries s));
  ld_rest : dirty_sentries_bitmap s = ∅ /\ dirty_sentries s = 0 /\ written_valid_blocks s = 0 /\ need_fsck s = false
}.

Lemma loading_valid f k s x : loading f k s -> 0 <= valid_blocks (get_seg_entry x s) <= 512.
Proof.
  intros H. destruct (decide (0 <= x < MAIN_SEGS g)) as [Hx|Hx].
  - rewrite (ld_entry _ _ _ H x Hx). destruct (f x) as [raw|] eqn:E; simpl; [|lia]. rewrite loaded_valid.
    pose proof (vblocks_range raw). pose proof (ld_small _ _ _ H x raw Hx E). lia.
  - rewrite (outside_table ly); [done|apply (ld_len _ _ _ H)|done].
Qed.

Lemma loading_forall f k s : loading f k s -> Forall (fun se => 0 <= valid_blocks se <= 512) (sentries s).
Proof.
  intros H. apply Forall_forall. intros se Hse. apply list_elem_of_lookup in Hse as [i Hi].
  pose proof (loading_valid f k s (Z.of_nat i) H) as Hv. unfold get_seg_entry in Hv.
  rewrite zget_lookup in Hv by lia. by rewrite Nat2Z.id, Hi in Hv.
Qed.

Lemma loading_sec l c : (forall x, 0 <= valid_blocks (zget seg0 l x) <= 512) -> 0 <= c < MAIN_SECS g -> 0 <= sec_count ly l c < 2 ^ 32.
Proof.
  intros H Hc. pose proof (geom_bounds g Hgm). pose proof (main_blocks ly Hly) as Hmb. fold g in Hmb.
  pose proof (seg_from_sec g Hgm c ltac:(lia)). pose proof (seg_from_sec g Hgm (c + 1) ltac:(lia)). destruct Hgm as (G1 & _). unfold sec_count. fold g.
  destruct (zsum_seqZ_bound (fun k => valid_blocks (zget seg0 l k)) 512 (c * segs_per_sec g) (segs_per_sec g)) as [Hb1 Hb2];
    [lia|intros x _; apply H|nia].
Qed.

Lemma check_passes raw start s : 0 <= start < MAIN_SEGS g -> GET_SIT_VBLOCKS raw <= 512 -> check_block_count ly start raw s = (0, s).
Proof.
  intros Hs Hv. pose proof (main_blocks ly Hly) as Hmb. pose proof Hly as (_ & G1 & G2 & G3 & G4 & _). fold g in Hmb, G3.
  unfold check_block_count, blocks_per_seg. rewrite (proj2 (Z.ltb_ge _ _)) by done. rewrite !u32_small by lia.
  by rewrite (proj2 (Z.ltb_ge _ _)) by lia.
Qed.

Lemma load_entry_ok f k s (from_journal : bool) raw x : loading f k s -> 0 <= x < MAIN_SEGS g -> GET_SIT_VBLOCKS raw <= 512 ->
  (if from_journal then k <= MAIN_SEGS g else f x = None /\ k + 1 <= MAIN_SEGS g) ->
  exists s', build_sit_entry from_journal raw x s = (0, s') /\
    loading (fun y => if y =? x then Some raw else f y) (if from_journal then k else k + 1) s'.
Proof.
  intros H Hx Hraw Hk. pose proof H as [L1 L2 L3 L4 L5 L6 L7]. pose proof (main_blocks ly Hly) as Hmb. fold g in Hmb.
  pose proof (geom_bounds g Hgm) as Hgb. pose proof (vblocks_range raw) as Hvr. pose proof (sec_range g Hgm x Hx) as Hsr.
  unfold build_sit_entry. rewrite check_passes by done. change (c_true 0) with false. cbv iota zeta.
  set (old := valid_blocks (get_seg_entry x s)). set (se := if discard_en then set_discard_map _ _ else _).
  pose proof (loading_valid f k s x H) as Hold. fold old in Hold.
  assert (Hold0 : from_journal = false -> old = 0).
  { intros ->. unfold old. rewrite L2 by done. destruct Hk as [-> _]. done. }
  assert (Hse : se = loaded raw).
  { assert (Hd : discard_en = false -> discard_map (get_seg_entry x s) = zero_map).
    { intros Hf. rewrite L2 by done. destruct (f x); simpl; [|done]. unfold loaded. by rewrite Hf. }
    unfold se, loaded. destruct discard_en; [done|]. unfold seg_info_from_raw_sit. by rewrite Hd. }
  clearbody se. subst se. eexists. split; [reflexivity|]. rewrite loaded_valid.
  assert (Hzs : zsum valid_blocks (zset (sentries s) x (loaded raw)) = zsum valid_blocks (sentries s) - old + GET_SIT_VBLOCKS raw)
    by (rewrite (zsum_zset valid_blocks seg0) by lia; by rewrite loaded_valid).
  assert (Hsec : forall c, 0 <= c < MAIN_SECS g -> sec_count ly (zset (sentries s) x (loaded raw)) c =
    sec_count ly (sentries s) c + if c =? GET_SEC_FROM_SEG g x then GET_SIT_VBLOCKS raw - old else 0)
    by (intros c Hc; rewrite (sec_count_put ly Hly) by (done || (rewrite L1; done)); by rewrite loaded_valid).
  assert (Hnew : forall sec dblk, loading (fun y => if y =? x then Some raw else f y) (if from_journal then k else k + 1)
    (mk_sit (zset (sentries s) x (loaded raw)) sec (dirty_sentries_bitmap s) (dirty_sentries s) (written_valid_blocks s) (max_mtime s) dblk (need_fsck s))
    <-> (1 < segs_per_sec g -> zlen sec = MAIN_SECS g) /\
        (1 < segs_per_sec g -> forall c, 0 <= c < MAIN_SECS g -> zget 0 sec c = sec_count ly (zset (sentries s) x (loaded raw)) c) /\
        (discard_en = true -> dblk = if trimmed then 0 else u32 (512 * (if from_journal then k else k + 1) - zsum valid_blocks (zset (sentries s) x (loaded raw))))).
  { intros sec dblk. split; [intros [M1 M2 M3 M4 M5 M6 M7]; by split|]. intros (M4 & M5 & M6). split; try done.
    - cbn [sentries]. by rewrite zlen_zset.
    - intros y Hy. unfold get_seg_entry. cbn [sentries]. rewrite zget_zset by lia. rewrite (Z.eqb_sym y).
      destruct (x =? y); [done|]. by apply L2.
    - intros y r Hy. case_if; [by intros [= <-]|by apply L3]. }
  apply Hnew. clear Hnew. split; [|split].
  - intros Hs. rewrite (proj2 (Z.ltb_lt _ _) Hs), zlen_zset. by apply L4.
  - intros Hs c Hc. rewrite (proj2 (Z.ltb_lt _ _) Hs), zget_zset by (rewrite L4; done). rewrite Hsec by done.
    rewrite (Z.eqb_sym c). destruct (Z.eqb_spec (GET_SEC_FROM_SEG g x) c) as [<-|]; [|rewrite L5 by done; lia].
    pose proof (L5 Hs _ Hsr) as E. rewrite E.
    assert (Hb : 0 <= sec_count ly (zset (sentries s) x (loaded raw)) (GET_SEC_FROM_SEG g x) < 2 ^ 32).
    { apply loading_sec; [|done]. intros y. rewrite zget_zset by lia. case_if; [rewrite loaded_valid; lia|apply (loading_valid f k s y H)]. }
    rewrite Hsec, Z.eqb_refl in Hb by done. destruct from_journal; [rewrite u32_small; lia|]. specialize (Hold0 eq_refl). rewrite u32_small; lia.
  - intros Hen. pose proof (L6 Hen) as E. rewrite Hen. cbn [andb]. destruct trimmed; cbn [negb]; [rewrite E; done|].
    rewrite E, Hzs. unfold u32. rewrite Zplus_mod_idemp_l. f_equal. unfold blocks_per_seg.
    destruct from_journal; [lia|]. specialize (Hold0 eq_refl). lia.
Qed.

(** ** Lemmas: the loops *)

Lemma load_segs_ok a n : forall start stop s, (forall x, 0 <= x < MAIN_SEGS g -> GET_SIT_VBLOCKS (page_entry a x) <= 512) ->
  loading (fun x => if x <? start then Some (page_entry a x) else None) start s -> 0 <= start <= MAIN_SEGS g ->
  stop - start <= Z.of_nat n ->
  exists s', load_segs n start stop a s = (0, s') /\
    loading (fun x => if x <? Z.max start (Z.min stop (MAIN_SEGS g)) then Some (page_entry a x) else None)
      (Z.max start (Z.min stop (MAIN_SEGS g))) s'.
Proof.
  induction n as [|n IH]; intros start stop s Hp Hl Hs Hn.
  { exists s. split; [done|]. by rewrite Z.max_l by lia. }
  cbn [load_segs]. destruct ((start <? stop) && (start <? MAIN_SEGS g)) eqn:E.
  2:{ exists s. split; [done|]. rewrite Z.max_l; [done|]. apply andb_false_iff in E as [?%Z.ltb_ge|?%Z.ltb_ge]; lia. }
  apply andb_true_iff in E as [E1%Z.ltb_lt E2%Z.ltb_lt].
  destruct (load_entry_ok _ start s false (page_entry a start) start Hl) as (s1 & H1 & H2); [lia|apply Hp; lia|split; [|lia]|].
  { by rewrite Z.ltb_irrefl. }
  unfold page_entry in H1 at 1. rewrite H1. change (c_true 0) with false. cbv iota.
  destruct (IH (start + 1) stop s1 Hp) as (s' & H3 & H4); [|lia|lia|].
  - destruct H2 as [M1 M2 M3 M4 M5 M6 M7]. split; try done.
    + intros x Hx. rewrite M2 by done. f_equal. destruct (Z.eqb_spec x start) as [->|].
      * by rewrite (proj2 (Z.ltb_lt _ _)) by lia.
      * destruct (Z.ltb_spec x start), (Z.ltb_spec x (start + 1)); done || lia.
    + intros x raw Hr. destruct (Z.ltb_spec x (start + 1)) as [Hx|]; [|done]. intros [= <-].
      apply (M3 x); [done|]. destruct (Z.eqb_spec x start) as [->|]; [done|]. by rewrite (proj2 (Z.ltb_lt _ _)) by lia.
  - exists s'. split; [done|]. by replace (Z.max start (Z.min stop (MAIN_SEGS g))) with (Z.max (start + 1) (Z.min stop (MAIN_SEGS g))) by lia.
Qed.

Lemma ra_sit_loop_spec n b : b <= SIT_BLK_CNT -> ra_sit_loop n b = Z.min (b + Z.of_nat n) SIT_BLK_CNT.
Proof.
  revert b. induction n as [|n IH]; intros b Hb; simpl; [lia|]. case_if; [lia|]. rewrite IH by lia. lia.
Qed.

Lemma sit_blk_cnt : SIT_ENTRY_PER_BLOCK * (SIT_BLK_CNT - 1) < MAIN_SEGS g <= SIT_ENTRY_PER_BLOCK * SIT_BLK_CNT /\ 0 < SIT_BLK_CNT.
Proof. pose proof (geom_bounds g Hgm). unfold SIT_BLK_CNT. rewrite sit_per_block. split; [split|]; zdiv. Qed.

(** The table when all blocks have been read. *)
Lemma load_blocks_ok a n : forall b s, (forall x, 0 <= x < MAIN_SEGS g -> GET_SIT_VBLOCKS (page_entry a x) <= 512) ->
  0 <= b < SIT_BLK_CNT -> SIT_BLK_CNT - b < Z.of_nat n ->
  loading (fun x => if x <? b * SIT_ENTRY_PER_BLOCK then Some (page_entry a x) else None) (b * SIT_ENTRY_PER_BLOCK) s ->
  exists s', load_blocks n b a s = (0, s') /\
    loading (fun x => if x <? MAIN_SEGS g then Some (page_entry a x) else None) (MAIN_SEGS g) s'.
Proof.
  pose proof sit_blk_cnt as Hc. pose proof (main_blocks ly Hly) as Hmb. fold g in Hmb.
  induction n as [|n IH]; intros b s Hp Hb Hn Hl; [lia|]. cbn [load_blocks]. unfold ra_sit_pages, BIO_MAX_PAGES.
  rewrite ra_sit_loop_spec by lia. set (b' := Z.min _ _). assert (Hb' : b < b' <= SIT_BLK_CNT) by (unfold b'; lia).
  replace (b + (b' - b)) with b' by lia. rewrite sit_per_block in *. rewrite (u32_small b') by lia. rewrite !u32_small by lia.
  destruct (load_segs_ok a (Z.to_nat (b' * 55 - b * 55)) (b * 55) (b' * 55) s Hp Hl) as (s1 & -> & H2); [lia|lia|].
  change (c_true 0) with false. cbv iota. destruct (Z.ltb_spec b' SIT_BLK_CNT) as [Hlt|Hge].
  - rewrite Z.max_r, Z.min_l in H2 by lia. apply IH; [done|lia|lia|done].
  - exists s1. split; [done|]. by rewrite Z.max_r, Z.min_r in H2 by lia.
Qed.

Lemma load_journal_ok a j n : journal_wf raw_sit0 SIT_JOURNAL_ENTRIES j ->
  (forall x e, j_find raw_sit0 SIT_JOURNAL_ENTRIES j x = Some e -> 0 <= x < MAIN_SEGS g /\ GET_SIT_VBLOCKS e <= 512) -> forall i s,
  0 <= i -> i + Z.of_nat n = n_ents j ->
  loading (fun x => if x <? MAIN_SEGS g then Some (sit_read (mk_journal i (slots j)) a x) else None) (MAIN_SEGS g) s ->
  exists s', load_journal n i j false s = (0, false, s') /\
    loading (fun x => if x <? MAIN_SEGS g then Some (sit_read j a x) else None) (MAIN_SEGS g) s'.
Proof.
  intros Hwf Hj. induction n as [|n IH]; intros i s Hi Hn Hl.
  { exists s. split; [done|]. destruct j as [cnt sl]. simpl in *. replace cnt with i by lia. done. }
  cbn [load_journal]. cbv zeta. destruct (Hj (id_in_journal raw_sit0 j i) (ent_in_journal raw_sit0 j i)) as [J1 J2]; [apply j_find_at; [done|lia]|].
  rewrite (proj2 (Z.leb_gt _ _)) by lia. cbn [orb].
  destruct (load_entry_ok _ _ s true (ent_in_journal raw_sit0 j i) (id_in_journal raw_sit0 j i) Hl J1 J2 (Z.le_refl _)) as (s1 & -> & H2).
  change (c_true 0) with false. cbv iota. apply (IH (i + 1) s1); [lia|lia|].
  assert (Hext : forall x, x < MAIN_SEGS g -> sit_read (mk_journal (i + 1) (slots j)) a x =
    if x =? id_in_journal raw_sit0 j i then ent_in_journal raw_sit0 j i else sit_read (mk_journal i (slots j)) a x).
  { intros x _. unfold sit_read. rewrite (j_find_prefix raw_sit0 SIT_JOURNAL_ENTRIES) by (done || lia). by case_if. }
  destruct H2 as [M1 M2 M3 M4 M5 M6 M7]. split; try done.
  - intros x Hx. rewrite M2, (proj2 (Z.ltb_lt _ _)), Hext by lia. f_equal. by case_if.
  - intros x raw Hr. destruct (Z.ltb_spec x (MAIN_SEGS g)) as [Hx|]; [|done]. intros [= <-]. apply (M3 x); [done|]. rewrite Hext by done.
    rewrite (proj2 (Z.ltb_lt _ _)) by done. by case_if.
Qed.

(** What is on disk: every entry read is in range. *)
Record sit_on_disk (a : sit_area) (j : sit_journal) : Prop := {
  od_journal : journal_wf raw_sit0 SIT_JOURNAL_ENTRIES j;
  od_ids : forall x e, j_find raw_sit0 SIT_JOURNAL_ENTRIES j x = Some e -> 0 <= x < MAIN_SEGS g /\ GET_SIT_VBLOCKS e <= 512;
  od_pages : forall x, 0 <= x < MAIN_SEGS g -> GET_SIT_VBLOCKS (page_entry a x) <= 512
}.

Lemma zsum_replicate {A} (f : A -> Z) n x : zsum f (replicate n x) = Z.of_nat n * f x.
Proof. induction n as [|n IH]; simpl; [done|]. rewrite IH. lia. Qed.

Lemma build_entries_ok a j : sit_on_disk a j -> exists s, build_sit_entries a j build_sit_info = (0, false, s) /\
  loading (fun x => if x <? MAIN_SEGS g then Some (sit_read j a x) else None) (MAIN_SEGS g) s.
Proof.
  intros [D1 D2 D3]. pose proof (geom_bounds g Hgm) as Hgb. pose proof sit_blk_cnt as Hc. unfold build_sit_entries.
  destruct (load_blocks_ok a (Z.to_nat SIT_BLK_CNT + 1) 0 build_sit_info D3) as (s1 & -> & H1); [lia|lia| |].
  - rewrite Z.mul_0_l.
    assert (Hzero : forall x, zget seg0 (replicate (Z.to_nat (MAIN_SEGS g)) seg0) x = seg0) by (intros; apply zget_replicate).
    split; simpl sentries; simpl sec_entries; simpl discard_blks.
    + unfold zlen. rewrite length_replicate. lia.
    + intros x Hx. unfold get_seg_entry. simpl sentries. rewrite Hzero. by rewrite (proj2 (Z.ltb_ge _ _)) by lia.
    + intros x raw Hx. by rewrite (proj2 (Z.ltb_ge _ _)) by lia.
    + intros _. unfold zlen. rewrite length_replicate. lia.
    + intros _ c Hcr. rewrite zget_replicate. unfold sec_count. symmetry.
      assert (Hz : forall l, zsum (fun k => valid_blocks (zget seg0 (replicate (Z.to_nat (MAIN_SEGS g)) seg0) k)) l = 0).
      { induction l as [|y l IH]; simpl; [done|]. rewrite IH, Hzero. done. }
      apply Hz.
    + intros _. rewrite zsum_replicate. change (valid_blocks seg0) with 0. rewrite !Z.mul_0_r. by destruct trimmed.
    + done.
  - change (c_true 0) with false. cbv iota. pose proof (jw_count _ _ _ D1).
    apply (load_journal_ok a j (Z.to_nat (n_ents j)) D1 D2 0 s1); [done|lia|].
    destruct H1 as [M1 M2 M3 M4 M5 M6 M7]. by split.
Qed.

(** ** Lemmas: the free map *)

Definition set_written (w : Z) (si : sit_info) : sit_info :=
  mk_sit (sentries si) (sec_entries si) (dirty_sentries_bitmap si) (dirty_sentries si) w (max_mtime si) (discard_blks si) (need_fsck si).

Definition valid_in (si : sit_info) (n : Z) : Z := zsum (fun x => valid_blocks (get_seg_entry x si)) (seqZ 0 n).

Lemma init_free_loop n s : free_wf g (free_i s) -> (forall x, 0 <= x < Z.of_nat n -> x ∈ free_segmap (free_i s)) ->
  (forall x, 0 <= valid_blocks (get_seg_entry x (sit s)) <= 512) -> written_valid_blocks (sit s) = 0 -> 512 * Z.of_nat n < 2 ^ 32 ->
  let s' := foldl init_free_segment s (seqZ 0 (Z.of_nat n)) in
  free_wf g (free_i s') /\ s' = set_free_i (free_i s') (set_sit (set_written (valid_in (sit s) (Z.of_nat n)) (sit s)) s) /\
  forall x, x ∈ free_segmap (free_i s') <-> x ∈ free_segmap (free_i s) /\ (0 <= x < Z.of_nat n -> valid_blocks (get_seg_entry x (sit s)) <> 0).
Proof.
  intros Hwf Hin Hv Hw. induction n as [|n IH]; intros Hn; cbv zeta.
  { simpl. unfold valid_in. simpl. rewrite <- Hw. split; [done|]. split; [by destruct s as [[] ? ? ? ? ? ?]|]. intros x. intuition lia. }
  rewrite seqZ_S, foldl_app, Z.add_0_l. destruct IH as (I1 & I2 & I3); [intros x Hx; apply Hin; lia|lia|].
  set (s1 := foldl init_free_segment s _) in *. clearbody s1. cbn [foldl].
  assert (Hget : forall x, get_seg_entry x (sit s1) = get_seg_entry x (sit s)) by (intros; by rewrite I2).
  assert (Hvn : valid_in (sit s) (Z.of_nat (S n)) = valid_in (sit s) (Z.of_nat n) + valid_blocks (get_seg_entry (Z.of_nat n) (sit s)))
    by (unfold valid_in; rewrite seqZ_S, zsum_app, Z.add_0_l; simpl; lia).
  assert (Hb : 0 <= valid_in (sit s) (Z.of_nat (S n)) < 2 ^ 32).
  { unfold valid_in. destruct (zsum_seqZ_bound (fun x => valid_blocks (get_seg_entry x (sit s))) 512 0 (Z.of_nat (S n))); [lia|intros; apply Hv|lia]. }
  unfold init_free_segment. rewrite Hget. destruct (c_true _) eqn:Ec; cbn [negb].
  - apply c_true_true in Ec. cbn [free_i set_sit]. split; [done|]. split.
    + rewrite I2. unfold set_sit, set_free_i, set_written. cbn. rewrite Hvn, u32_small by lia. done.
    + intros x. rewrite I3. split; intros [H1 H2]; (split; [done|]); intros Hx; [|apply H2; lia].
      destruct (decide (x = Z.of_nat n)) as [->|]; [done|apply H2; lia].
  - apply c_true_false in Ec. assert (Hfn : Z.of_nat n ∈ free_segmap (free_i s1)) by (apply I3; split; [apply Hin; lia|lia]).
    destruct (set_free_wf g Hgm (Z.of_nat n) (free_i s1) I1 Hfn) as [W1 W2]. cbn [free_i set_free_i]. split; [done|]. split.
    + rewrite I2 at 2. rewrite Hvn, Ec, Z.add_0_r. done.
    + intros x. rewrite W2, elem_of_difference, elem_of_singleton, I3. split.
      * intros [[H1 H2] H3]. split; [done|]. intros Hx. apply H2. lia.
      * intros [H1 H2]. split; [split; [done|intros Hx; apply H2; lia]|]. intros ->. by apply H2; [lia|].
Qed.

Lemma use_logs_ok l : forall s, free_wf g (free_i s) -> (forall t, t ∈ l -> 0 <= segno (CURSEG_I t s) < MAIN_SEGS g) ->
  let s' := foldl (fun s type => set_free_i (__set_test_and_inuse g (segno (CURSEG_I type s)) (free_i s)) s) s l in
  free_wf g (free_i s') /\ s' = set_free_i (free_i s') s /\
  forall x, x ∈ free_segmap (free_i s') <-> x ∈ free_segmap (free_i s) \/ exists t, t ∈ l /\ segno (CURSEG_I t s) = x.
Proof.
  induction l as [|t l IH]; intros s Hwf Hl; cbn [foldl].
  { split; [done|]. split; [by destruct s|]. intros x. split; [by left|intros [|(t & Ht & _)]; [done|by apply not_elem_of_nil in Ht]]. }
  destruct (test_and_inuse_wf g Hgm (segno (CURSEG_I t s)) (free_i s) Hwf) as [W1 W2]; [apply Hl; left|].
  destruct (IH (set_free_i (__set_test_and_inuse g (segno (CURSEG_I t s)) (free_i s)) s) W1) as (I1 & I2 & I3); [intros t' Ht'; apply Hl; by right|].
  split; [done|]. split; [by rewrite I2 at 1|]. intros x. rewrite I3. cbn [free_i set_free_i]. rewrite W2, elem_of_union, elem_of_singleton.
  setoid_rewrite elem_of_cons. split.
  - intros [[->|Hx]|(t' & Ht' & <-)]; [right; exists t; split; [by left|done]|by left|right; exists t'; split; [by right|done]].
  - intros [Hx|(t' & [->|Ht'] & <-)]; [by left; right|by left; left|right; by exists t'].
Qed.

(** ** Lemmas: the dirty lists *)

(** The dirty lists while segments from [offset] on have not been looked at. *)
Record listing (offset : Z) (s0 s : seg_state) : Prop := {
  lg_only : only_dirty s0 s;
  lg_bug : seg_bug s = seg_bug s0;
  lg_ok : dirty_ok ly (fun x => offset <= x) s;
  lg_pre : dirty_map PRE (dirty_i s) = ∅;
  lg_below : forall x, x ∈ dirty_map DIRTY (dirty_i s) -> x < offset
}.

Lemma init_dirty_ok s0 n : seg_core ly discard_en none s0 -> 
  (forall x, 0 <= x < MAIN_SEGS g -> IS_CURSEG x s0 = false -> (x ∈ free_segmap (free_i s0) <-> seg_valid s0 x <> 0)) -> forall offset s,
  listing offset s0 s -> 0 <= offset -> MAIN_SEGS g < offset + Z.of_nat n -> exists k, listing k s0 (init_dirty_loop n offset s) /\ MAIN_SEGS g <= k.
Proof.
  intros Hcore Huse. induction n as [|n IH]; intros offset s Hl Ho Hn; [exists offset; split; [done|lia]|].
  cbn [init_dirty_loop]. destruct Hl as [L1 L2 L3 L4 L5]. pose proof (main_blocks ly Hly) as Hmb. fold g in Hmb.
  destruct (only_dirty_views s0 s L1) as (V1 & _ & V3 & _). pose proof (proj1 (proj2 L1)) as Hfree. pose proof (proj1 L1) as Hsit.
  set (seg := find_next_inuse _ _ _).
  assert (Hscan : offset <= MAIN_SEGS g -> offset <= seg <= MAIN_SEGS g /\ (forall i, offset <= i < seg -> i ∉ free_segmap (free_i s)) /\
    (seg < MAIN_SEGS g -> seg ∈ free_segmap (free_i s))) by (intros Hle; apply (find_next_bit_spec (free_segmap (free_i s)) (MAIN_SEGS g) offset Hle)).
  assert (Hskip : offset <= MAIN_SEGS g -> dirty_ok ly (fun x => seg <= x) s).
  { intros Hle. destruct (Hscan Hle) as (S1 & S2 & _). destruct L3 as [D1 D2 D3 D4 D5 D6]. split; try done.
    intros x Hx Hnx Hc. destruct (Z.lt_ge_cases x offset) as [Hlt|Hge]; [apply D6; [done|lia|done]|].
    assert (Hnin : x ∉ free_segmap (free_i s)) by (apply S2; lia). assert (Hv : seg_valid s x = 0).
    { rewrite V3. rewrite Hfree in Hnin. rewrite V1 in Hc. destruct (decide (seg_valid s0 x = 0)); [done|]. destruct Hnin. by apply Huse. }
    split; [|done]. split; [|lia]. intros Hd. by destruct (D3 x Hd). }
  destruct (Z.leb_spec (MAIN_SEGS g) seg) as [Hend|Hlt].
  { destruct (Z.le_gt_cases offset (MAIN_SEGS g)) as [Hle|Hgt]; [|exists offset; split; [by split|lia]].
    exists seg. split; [|done]. split; try done; [by apply Hskip|]. intros x Hx. pose proof (proj1 (Hscan Hle)). specialize (L5 x Hx). lia. }
  assert (Hle : offset <= MAIN_SEGS g). { destruct (Z.le_gt_cases offset (MAIN_SEGS g)); [done|]. unfold seg, find_next_inuse, find_next_bit in Hlt.
    rewrite (proj2 (Z.leb_le _ _)) in Hlt by lia. lia. }
  destruct (Hscan Hle) as (S1 & S2 & S3). specialize (S3 Hlt). specialize (Hskip Hle). assert (Hr : 0 <= seg < MAIN_SEGS g) by lia.
  pose proof (seg_entry_wf ly discard_en seg _ (iv_sit _ _ _ _ Hcore) Hr) as Hse. pose proof (bm_count_bound (cur_valid_map (get_seg_entry seg (sit s0)))) as Hb.
  rewrite <- (gw_valid _ Hse) in Hb. fold (seg_valid s0 seg) in Hb.
  change (get_valid_blocks ly seg false (sit s)) with (seg_valid s seg). rewrite V3, u16_small by lia. unfold blocks_per_seg.
  assert (Hstay : (IS_CURSEG seg s = false -> ~ 0 < seg_valid s0 seg < 512) -> listing (seg + 1) s0 s).
  { intros Hno. split; try done; [|intros x Hx; specialize (L5 x Hx); lia]. destruct Hskip as [D1 D2 D3 D4 D5 D6]. split; try done.
    intros x Hx Hnx. destruct (decide (x = seg)) as [->|]; [|apply D6; [done|lia]]. intros Hc. specialize (Hno Hc). rewrite V3. split.
    - split; [intros Hd; specialize (L5 seg Hd); lia|done].
    - intros Hv Hin. exfalso. rewrite V1 in Hc. rewrite Hfree in Hin. by apply (Huse seg Hr Hc). }
  destruct ((seg_valid s0 seg =? 512) || negb (c_true (seg_valid s0 seg))) eqn:Efull.
  { apply IH; [|lia|lia]. apply Hstay. intros _. apply orb_true_iff in Efull as [?%Z.eqb_eq|?%negb_true_iff%c_true_false]; lia. }
  apply orb_false_iff in Efull as [E1%Z.eqb_neq E2%negb_false_iff%c_true_true]. rewrite (proj2 (Z.ltb_ge _ _)) by lia.
  apply IH; [|lia|lia]. destruct (IS_CURSEG seg s) eqn:Ecs; [unfold __locate_dirty_segment; rewrite Ecs; by apply Hstay|].
  destruct (locate_dirty_spec ly discard_en Hly seg DIRTY s) as (T1 & T2 & T3 & T4 & T5);
    [rewrite Hsit; apply Hcore|apply L3|exact (iv_nr _ _ _ L3)|by right|done|].
  set (s1 := __locate_dirty_segment seg DIRTY s) in *. clearbody s1. rewrite Z.eqb_refl in T5. cbn [andb] in T5.
  destruct (only_dirty_views s s1 T1) as (U1 & _ & U3 & _). pose proof (seg_type_range ly discard_en seg s) as Hty.
  rewrite Hsit in Hty. specialize (Hty (iv_sit _ _ _ _ Hcore)). rewrite <- Hsit in Hty. set (ty := se_type (get_seg_entry seg (sit s))) in *.
  assert (Hdirty : dirty_map DIRTY (dirty_i s1) = {[seg]} ∪ dirty_map DIRTY (dirty_i s)) by (rewrite T5; by rewrite Z.eqb_refl).
  assert (Hpre : dirty_map PRE (dirty_i s1) = ∅).
  { rewrite T5, (proj2 (Z.eqb_neq PRE DIRTY)), (proj2 (Z.eqb_neq PRE ty)) by (unfold is_type, NR_CURSEG_TYPE, PRE in *; lia || done). done. }
  destruct T1 as (A1 & A2 & A3 & A4 & A5). destruct Hskip as [D1 D2 D3 D4 D5 D6].
  split; [destruct L1 as (B1 & B2 & B3 & B4 & B5); unfold only_dirty; split_and!; congruence|congruence| |done|].
  2:{ intros x. rewrite Hdirty, elem_of_union, elem_of_singleton. intros [->|Hx]; [lia|]. specialize (L5 x Hx). lia. }
  split; try done.
  - rewrite Hpre. intros x []%elem_of_empty.
  - intros x. rewrite Hdirty, elem_of_union, elem_of_singleton, U1, A2. intros [->|Hx]; [done|by apply D3].
  - intros x t Ht. rewrite T5, Hdirty, elem_of_union, elem_of_singleton, A1. specialize (D4 x t Ht).
    rewrite (proj2 (Z.eqb_neq t DIRTY)) by (unfold is_type, NR_CURSEG_TYPE, DIRTY in *; lia). cbn [orb].
    destruct (Z.eqb_spec t ty) as [->|Hne].
    + rewrite elem_of_union, elem_of_singleton, D4. split; [intros [->|[H1 H2]]; [split; [by left|done]|split; [by right|done]]|].
      intros [[->|H1] H2]; [by left|by right].
    + rewrite D4. split; [intros [H1 H2]; split; [by right|done]|]. intros [[->|H1] H2]; [by destruct Hne|done].
  - intros x Hx Hnx. destruct (decide (x = seg)) as [->|Hne].
    + intros _. rewrite U3, V3, Hdirty, elem_of_union, elem_of_singleton. split; [split; [intros _; lia|by left]|lia].
    + intros Hc. rewrite U1 in Hc. destruct (D6 x Hx ltac:(lia) Hc) as [H1 H2]. rewrite U3, A2, Hdirty, Hpre, elem_of_union, elem_of_singleton.
      rewrite L4 in H2. split; [|done]. rewrite <- H1. split; [intros [|]; [done|done]|by right].
Qed.

(** ** Mounting *)

Lemma zsum_list {A} (f : A -> Z) d (l : list A) : zsum (fun x => f (zget d l x)) (seqZ 0 (zlen l)) = zsum f l.
Proof.
  unfold zlen. induction l as [|y l IH] using rev_ind; [done|].
  rewrite length_app. cbn [length]. rewrite Nat.add_1_r, seqZ_S, !zsum_app, Z.add_0_l. simpl. f_equal.
  - rewrite <- IH. clear IH. assert (H : forall k, (forall x, x ∈ k -> 0 <= x < Z.of_nat (length l)) ->
      zsum (fun x => f (zget d (l ++ [y]) x)) k = zsum (fun x => f (zget d l x)) k); [|apply H; intros x Hx%elem_of_seqZ; lia].
    induction k as [|x k IH]; intros Hk; [done|]. simpl. rewrite IH by (intros z Hz; apply Hk; by right). f_equal. f_equal.
    specialize (Hk x ltac:(left)). rewrite !zget_lookup by lia. by rewrite lookup_app_l by lia.
  - f_equal. rewrite zget_lookup by lia. rewrite Nat2Z.id, lookup_app_r, Nat.sub_diag by lia. done.
Qed.

Lemma zsum_same {A} (f h : A -> Z) l : Forall (fun x => f x = h x) l -> zsum f l = zsum h l.
Proof. induction 1 as [|x l Hx _ IH]; simpl; [done|by rewrite Hx, IH]. Qed.

Lemma zsum_zero {A} (l : list A) : zsum (fun _ => 0) l = 0.
Proof. induction l; simpl; lia. Qed.

Lemma zsum_minus {A} (f : A -> Z) c l : zsum (fun x => c - f x) l = c * zlen l - zsum f l.
Proof. unfold zlen. induction l as [|x l IH]; simpl; [lia|]. rewrite IH. lia. Qed.

Definition ones_map : list Z := replicate 64%nat 255.

Lemma ones_map_ok : map_ok ones_map /\ discarded ones_map = 0.
Proof.
  split; [split; [done|by apply Forall_replicate]|]. vm_compute. reflexivity.
Qed.

(** An entry read back. *)
Lemma loaded_back se : seg_wf se -> ckpt_valid_map se = cur_valid_map se ->
  exists m, loaded (__seg_info_to_raw_sit se) = set_discard_map m se /\ map_ok m /\
    (discard_en = true -> discarded m = if trimmed then 0 else 512 - valid_blocks se).
Proof.
  intros Hwf Hck. destruct (raw_fields se Hwf) as [R1 R2]. pose proof Hwf as [W1 W2 W3 W4 W5 W6].
  assert (Hb : bits10 (valid_blocks se) = valid_blocks se) by (rewrite W5; apply bits10_small, bm_count_bound).
  assert (Hcv : ckpt_valid_blocks se = valid_blocks se) by (by rewrite W6, Hck, union_count_same, W5).
  assert (Hbase : forall m, set_discard_map m (seg_info_from_raw_sit seg0 (__seg_info_to_raw_sit se)) = set_discard_map m se).
  { intros m. unfold seg_info_from_raw_sit, set_discard_map. cbn [se_type valid_blocks ckpt_valid_blocks cur_valid_map ckpt_valid_map mtime discard_map].
    rewrite R1, R2, Hb, Hcv, Hck. done. }
  unfold loaded. destruct discard_en.
  - destruct ones_map_ok as [O1 O2]. exists (if trimmed then ones_map else cur_valid_map se). split; [rewrite <- Hbase; by destruct trimmed|].
    split; [by destruct trimmed|]. intros _. destruct trimmed; [done|]. unfold discarded. by rewrite W5.
  - exists zero_map. split; [|split; [split; [reflexivity|by apply Forall_replicate]|discriminate]].
    rewrite <- Hbase. reflexivity.
Qed.

(** The table a mount builds from a clean table. *)
Lemma mounted_table si0 a j f si : sit_wf ly discard_en si0 -> dirty_sentries_bitmap si0 = ∅ ->
  (forall x, 0 <= x < MAIN_SEGS g -> sit_read j a x = __seg_info_to_raw_sit (get_seg_entry x si0)) ->
  (forall x, 0 <= x < MAIN_SEGS g -> f x = Some (sit_read j a x)) -> loading f (MAIN_SEGS g) si ->
  sit_wf ly discard_en (set_written (valid_in si (MAIN_SEGS g)) si) /\ checkpointed si0 si /\
  forall x, 0 <= x < MAIN_SEGS g -> get_seg_entry x si = set_discard_map (discard_map (get_seg_entry x si)) (get_seg_entry x si0).
Proof.
  intros Hwf Hclean Hread Hf Hl. pose proof Hl as [L1 L2 _ L4 L5 L6 (L7 & L8 & L9 & L10)]. pose proof (geom_bounds g Hgm) as Hgb.
  pose proof (main_blocks ly Hly) as Hmb. fold g in Hmb.
  assert (Hback : forall x, 0 <= x < MAIN_SEGS g -> exists m, get_seg_entry x si = set_discard_map m (get_seg_entry x si0) /\ map_ok m /\
    (discard_en = true -> discarded m = if trimmed then 0 else 512 - valid_blocks (get_seg_entry x si0))).
  { intros x Hx. rewrite L2, Hf, Hread by done. apply loaded_back; [by apply (seg_entry_wf ly discard_en)|].
    apply (sw_clean _ _ _ Hwf); [done|]. rewrite Hclean. set_solver. }
  assert (Hall : forall P : seg_entry -> Prop, (forall x, 0 <= x < MAIN_SEGS g -> P (get_seg_entry x si)) -> Forall P (sentries si)).
  { intros P HP. apply Forall_forall. intros se Hse. apply list_elem_of_lookup in Hse as [i Hi]. pose proof (lookup_lt_Some _ _ _ Hi).
    unfold zlen in L1. specialize (HP (Z.of_nat i) ltac:(lia)). unfold get_seg_entry in HP. rewrite zget_lookup in HP by lia.
    by rewrite Nat2Z.id, Hi in HP. }
  assert (Hsum : valid_in si (MAIN_SEGS g) = zsum valid_blocks (sentries si)) by (unfold valid_in; rewrite <- L1; apply zsum_list).
  assert (Hck : checkpointed si0 si).
  { intros x. destruct (decide (0 <= x < MAIN_SEGS g)) as [Hx|Hx].
    - destruct (Hback x Hx) as (m & -> & _). split_and!; try done. apply (sw_clean _ _ _ Hwf); [done|]. rewrite Hclean. set_solver.
    - rewrite !(outside_table ly) by (done || apply Hwf). done. }
  split; [|split; [done|]].
  - split; unfold set_written; cbn [sentries sec_entries dirty_sentries_bitmap dirty_sentries written_valid_blocks discard_blks]; try done.
    + apply Hall. intros x Hx. destruct (Hback x Hx) as (m & -> & Hm & _). destruct (seg_entry_wf ly discard_en x _ Hwf Hx). by split.
    + rewrite L7. intros x []%elem_of_empty.
    + by rewrite L7, L8, size_empty.
    + intros x Hx _. destruct (Hck x) as (_ & _ & H3 & H4). unfold get_seg_entry in *. cbn [sentries]. congruence.
    + intros Hen. rewrite (L6 Hen). pose proof (zsum_bound valid_blocks _ 512 (loading_forall _ _ _ Hl)) as Hb. rewrite L1 in Hb.
      assert (Hd : Forall (fun se => discarded (discard_map se) = if trimmed then 0 else 512 - valid_blocks se) (sentries si)).
      { apply Hall. intros x Hx. destruct (Hback x Hx) as (m & -> & _ & Hm). exact (Hm Hen). }
      rewrite (zsum_same _ _ _ Hd). destruct trimmed; [symmetry; apply (zsum_zero (sentries si))|].
      rewrite zsum_minus, L1. apply u32_small. lia.
  - intros x Hx. destruct (Hback x Hx) as (m & -> & _). done.
Qed.

(** The free map a mount builds. *)
Lemma mounted_free si cursegs sums lv : (forall x, 0 <= valid_blocks (get_seg_entry x si) <= 512) -> written_valid_blocks si = 0 ->
  (forall t, is_type t -> 0 <= segno (zget curseg0 cursegs t) < MAIN_SEGS g) ->
  let s' := init_free_segmap (mk_segs si (build_free_segmap g) (mk_dirty [] [] ∅) cursegs sums lv false) in
  free_wf g (free_i s') /\
  s' = mk_segs (set_written (valid_in si (MAIN_SEGS g)) si) (free_i s') (mk_dirty [] [] ∅) cursegs sums lv false /\
  forall x, x ∈ free_segmap (free_i s') <-> 0 <= x < MAIN_SEGS g /\ valid_blocks (get_seg_entry x si) <> 0 \/
    exists t, is_type t /\ segno (zget curseg0 cursegs t) = x.
Proof.
  intros Hv Hw Hc. cbv zeta. pose proof (main_blocks ly Hly) as Hmb. fold g in Hmb. pose proof (geom_bounds g Hgm) as Hgb.
  set (s0 := mk_segs si _ _ cursegs sums lv false). unfold init_free_segmap.
  assert (Hb : forall x, x ∈ free_segmap (build_free_segmap g) <-> 0 <= x < MAIN_SEGS g)
    by (intros x; unfold build_free_segmap; cbn [free_segmap]; rewrite elem_of_list_to_set, elem_of_seqZ; lia).
  pose proof (init_free_loop (Z.to_nat (MAIN_SEGS g)) s0 (build_free_wf g Hgm)) as H. rewrite Z2Nat.id in H by lia.
  destruct H as (H1 & H2 & H3); [intros x Hx; by apply Hb|done|done|lia|].
  set (s1 := foldl init_free_segment s0 _) in *. clearbody s1.
  destruct (use_logs_ok [0; 1; 2; 3; 4; 5] s1 H1) as (U1 & U2 & U3).
  { intros t Ht. rewrite H2. apply Hc. by apply types_in, list_elem_of_In. }
  set (s2 := foldl _ s1 _) in *. clearbody s2. split; [done|]. split.
  - rewrite U2 at 1. rewrite H2 at 1. reflexivity.
  - intros x. rewrite U3, H3. rewrite H2. change (sit s0) with si. change (free_segmap (free_i s0)) with (free_segmap (build_free_segmap g)). rewrite Hb.
    setoid_rewrite list_elem_of_In. setoid_rewrite <- types_in. unfold CURSEG_I. cbn [curseg_array set_free_i set_sit]. change (curseg_array s0) with cursegs. tauto.
Qed.

(** Which segments a consistent state has in use when none is prefree. *)
Lemma inuse_spec s x : seg_core ly discard_en none s -> dirty_ok ly none s -> dirty_map PRE (dirty_i s) = ∅ ->
  x ∈ free_segmap (free_i s) <-> 0 <= x < MAIN_SEGS g /\ seg_valid s x <> 0 \/ exists t, is_type t /\ segno (CURSEG_I t s) = x.
Proof.
  intros Hcore Hdirty Hpre. split.
  - intros Hin. pose proof (fw_segs _ _ (iv_free _ _ _ _ Hcore) x Hin) as Hx. destruct (IS_CURSEG x s) eqn:Ec; [right; by apply is_curseg_true|].
    left. split; [done|]. intros Hv. destruct (iv_listed _ _ _ Hdirty x Hx (fun H => H) Ec) as [_ H]. rewrite Hpre in H. by specialize (H Hv Hin); apply elem_of_empty in H.
  - intros [[Hx Hv]|(t & Ht & <-)]; [|by apply (cg_inuse _ _ _ _ (iv_curseg _ _ _ _ Hcore t Ht))].
    destruct (decide (x ∈ free_segmap (free_i s))) as [|Hn]; [done|]. destruct Hv. unfold seg_valid.
    rewrite (gw_valid _ (seg_entry_wf ly discard_en x _ (iv_sit _ _ _ _ Hcore) Hx)). apply count_if_all_false. intros i Hi.
    by apply (iv_empty _ _ _ _ Hcore x i Hx Hn).
Qed.

(** The lists of a consistent state are determined by the table, the free map and the logs. *)
Lemma lists_determined s s' : seg_core ly discard_en none s -> dirty_ok ly none s -> dirty_ok ly none s' -> seg_core ly discard_en none s' ->
  dirty_map PRE (dirty_i s) = ∅ -> dirty_map PRE (dirty_i s') = ∅ -> checkpointed (sit s) (sit s') -> curseg_array s' = curseg_array s ->
  forall t, 0 <= t < NR_DIRTY_TYPE -> dirty_map t (dirty_i s') = dirty_map t (dirty_i s).
Proof.
  intros C1 D1 D2 C2 P1 P2 Hck Hcur.
  assert (Hcs : forall x, IS_CURSEG x s' = IS_CURSEG x s) by (intros; unfold IS_CURSEG, CURSEG_I; by rewrite Hcur).
  assert (Hv : forall x, seg_valid s' x = seg_valid s x) by (intros x; apply (Hck x)).
  assert (Hd : forall si x, seg_core ly discard_en none si -> dirty_ok ly none si -> x ∈ dirty_map DIRTY (dirty_i si) <->
    0 <= x < MAIN_SEGS g /\ IS_CURSEG x si = false /\ 0 < seg_valid si x < 512).
  { intros si x C D. split.
    - intros Hx. destruct (iv_dirty _ _ _ D x Hx) as [H1 H2]. pose proof (fw_segs _ _ (iv_free _ _ _ _ C) x H2) as Hr.
      split; [done|]. split; [done|]. by apply (iv_listed _ _ _ D x Hr (fun H => H) H1).
    - intros (Hr & Hc & H). by apply (iv_listed _ _ _ D x Hr (fun H => H) Hc). }
  assert (HD : dirty_map DIRTY (dirty_i s') = dirty_map DIRTY (dirty_i s)).
  { apply set_eq. intros x. rewrite !Hd by done. by rewrite Hcs, Hv. }
  intros t Ht. unfold NR_DIRTY_TYPE in Ht. destruct (decide (t = PRE)) as [->|]; [by rewrite P1, P2|]. destruct (decide (t = DIRTY)) as [->|]; [done|].
  assert (Hty : is_type t) by (unfold is_type, NR_CURSEG_TYPE, PRE, DIRTY in *; lia). apply set_eq. intros x.
  rewrite (iv_types _ _ _ D1 x t Hty), (iv_types _ _ _ D2 x t Hty), HD. destruct (Hck x) as (-> & _). done.
Qed.

(** Building the dirty lists from the table and the free map. *)
Lemma mounted_lists s s2 : seg_core ly discard_en none s -> dirty_ok ly none s -> dirty_map PRE (dirty_i s) = ∅ ->
  sit_wf ly discard_en (sit s2) -> checkpointed (sit s) (sit s2) -> free_wf g (free_i s2) -> free_segmap (free_i s2) = free_segmap (free_i s) ->
  curseg_array s2 = curseg_array s -> ssa s2 = ssa s -> dirty_i s2 = mk_dirty (replicate 8%nat ∅) (replicate 8%nat 0) ∅ ->
  let s3 := init_dirty_segmap s2 in
  only_dirty s2 s3 /\ seg_bug s3 = seg_bug s2 /\ seg_core ly discard_en none s3 /\ dirty_ok ly none s3 /\
  forall t, 0 <= t < NR_DIRTY_TYPE -> dirty_map t (dirty_i s3) = dirty_map t (dirty_i s).
Proof.
  intros Hcore Hdirty Hpre Hwf Hck Hfree Huse Hcur Hssa Hd. cbv zeta. unfold init_dirty_segmap. pose proof (geom_bounds g Hgm) as Hgb.
  assert (Hcore2 : seg_core ly discard_en none s2).
  { apply (checkpoint_core ly discard_en s); try done. rewrite Huse, Hpre. by rewrite difference_empty_L. }
  assert (Hempty : forall t, dirty_map t (dirty_i s2) = ∅) by (intros t; rewrite Hd; apply zget_replicate).
  assert (Hstart : listing 0 s2 s2).
  { split; [done|done| |apply Hempty|intros x; rewrite Hempty; by intros []%elem_of_empty]. split.
    - rewrite Hd. done.
    - intros x. rewrite Hempty. by intros []%elem_of_empty.
    - intros x. rewrite Hempty. by intros []%elem_of_empty.
    - intros x t _. rewrite !Hempty, !elem_of_empty. tauto.
    - intros t _. rewrite Hempty, size_empty, Hd. apply (zget_replicate 0 8).
    - intros x Hx Hn. lia. }
  destruct (init_dirty_ok s2 (Z.to_nat (MAIN_SEGS g) + 1) Hcore2) with (2 := Hstart) as (k & [G1 G2 G3 G4 G5] & Hk); [|lia|lia|].
  { intros x Hx Hc. rewrite Huse, (inuse_spec s x Hcore Hdirty Hpre). unfold seg_valid.
    destruct (Hck x) as (_ & -> & _). split; [|by left]. intros [[_ H]|(t & Ht & He)]; [done|]. exfalso.
    apply (proj1 (is_curseg_false x s2) Hc t Ht). unfold CURSEG_I. by rewrite Hcur. }
  set (s3 := init_dirty_loop _ _ s2) in *. clearbody s3. pose proof G1 as (A1 & A2 & A3 & A4 & A5).
  assert (Hcore3 : seg_core ly discard_en none s3) by (by apply (only_dirty_core ly discard_en none s2)).
  assert (Hdirty3 : dirty_ok ly none s3).
  { destruct G3 as [D1 D2 D3 D4 D5 D6]. split; try done. intros x Hx _. apply D6; [done|]. fold g in Hx. lia. }
  split; [done|]. split; [done|]. split; [done|]. split; [done|].
  apply lists_determined; try done; [by rewrite A1|congruence].
Qed.

(** The tables are built from what [build_sit_entries] reads. *)
Lemma manager_eq cursegs sums lv a j : sit_on_disk a j -> exists si,
  build_segment_manager cursegs sums lv a j =
    (0, false, build_dirty_segmap (init_free_segmap (mk_segs si (build_free_segmap g) (mk_dirty [] [] ∅) cursegs sums lv false))) /\
  loading (fun x => if x <? MAIN_SEGS g then Some (sit_read j a x) else None) (MAIN_SEGS g) si.
Proof.
  intros Hdisk. destruct (build_entries_ok a j Hdisk) as (si & E & Hl). exists si. split; [|exact Hl].
  unfold build_segment_manager. rewrite E. reflexivity.
Qed.

(** C11. Mounting what a checkpoint has left gives the running file system back:
    no error, no access outside the table, a consistent state with the same
    entry for every segment (up to the discard map), the same free map and the
    same dirty lists. *)
Theorem build_segment_manager_correct s st : seg_inv ly discard_en s -> dirty_map PRE (dirty_i s) = ∅ -> fl_sit st = sit s ->
  flush_wf ly discard_en st -> dirty_sentries_bitmap (sit s) = ∅ ->
  (forall x, 0 <= x < MAIN_SEGS g -> GET_SIT_VBLOCKS (page_entry (fl_area st) x) <= 512) ->
  let '(err, oob, s') := build_segment_manager (curseg_array s) (ssa s) (last_victim s) (fl_area st) (fl_journal st) in
  err = 0 /\ oob = false /\ seg_bug s' = false /\ seg_inv ly discard_en s' /\
  (forall x, 0 <= x < MAIN_SEGS g ->
     get_seg_entry x (sit s') = set_discard_map (discard_map (get_seg_entry x (sit s'))) (get_seg_entry x (sit s))) /\
  free_segmap (free_i s') = free_segmap (free_i s) /\
  (forall t, 0 <= t < NR_DIRTY_TYPE -> dirty_map t (dirty_i s') = dirty_map t (dirty_i s)) /\
  curseg_array s' = curseg_array s /\ ssa s' = ssa s.
Proof.
  intros [Hcore Hdirty] Hpre Hsit [F1 F2 F3 F4 F5 F6] Hclean Hpages. rewrite Hsit in *.
  assert (Hread : forall x, 0 <= x < MAIN_SEGS g -> sit_read (fl_journal st) (fl_area st) x = __seg_info_to_raw_sit (get_seg_entry x (sit s)))
    by (intros x Hx; apply F5; [done|rewrite Hclean; set_solver]).
  assert (Hdisk : sit_on_disk (fl_area st) (fl_journal st)).
  { split; [done| |done]. intros x e He. assert (Hx : 0 <= x < MAIN_SEGS g) by (apply F4; by rewrite He). split; [done|].
    specialize (Hread x Hx). unfold sit_read in Hread. rewrite He in Hread. change (e = __seg_info_to_raw_sit (get_seg_entry x (sit s))) in Hread. rewrite Hread.
    pose proof (seg_entry_wf ly discard_en x _ F1 Hx) as W. destruct (raw_fields _ W) as [-> _]. rewrite (gw_valid _ W). apply bm_count_bound. }
  destruct (manager_eq (curseg_array s) (ssa s) (last_victim s) _ _ Hdisk) as (si & -> & Hl).
  destruct (fun Hf => mounted_table (sit s) _ _ _ si F1 Hclean Hread Hf Hl) as (T1 & T2 & T3); [intros x Hx; by rewrite (proj2 (Z.ltb_lt _ _)) by lia|].
  assert (Hcr : forall t, is_type t -> 0 <= segno (zget curseg0 (curseg_array s) t) < MAIN_SEGS g) by (intros t Ht; apply (curseg_in_range ly discard_en none t s Hcore Ht)).
  destruct (mounted_free si (curseg_array s) (ssa s) (last_victim s)) as (M1 & M2 & M3); [intros x; apply (loading_valid _ _ _ x Hl)|apply Hl|done|].
  set (s1 := init_free_segmap _) in *. clearbody s1. unfold build_dirty_segmap.
  assert (Huse : free_segmap (free_i s1) = free_segmap (free_i s)).
  { apply set_eq. intros x. rewrite M3, (inuse_spec s x Hcore Hdirty Hpre). destruct (T2 x) as (_ & -> & _). done. }
  set (s2 := set_dirty_i _ s1).
  assert (E : sit s2 = set_written (valid_in si (MAIN_SEGS g)) si /\ curseg_array s2 = curseg_array s /\ ssa s2 = ssa s /\ seg_bug s2 = false)
    by (unfold s2; rewrite M2; done).
  assert (E0 : free_i s2 = free_i s1 /\ dirty_i s2 = mk_dirty (replicate 8%nat ∅) (replicate 8%nat 0) ∅) by done.
  clearbody s2. destruct E as (E1 & E2 & E3 & E4), E0 as [E5 E6].
  destruct (mounted_lists s s2 Hcore Hdirty Hpre) as (A1 & A2 & A3 & A4 & A6); rewrite ?E1, ?E5; try done.
  set (s3 := init_dirty_segmap s2) in *. clearbody s3. destruct A1 as (B1 & B2 & B3 & B4 & _).
  split; [done|]. split; [done|]. split; [congruence|]. split; [by split|]. split; [intros x Hx; rewrite B1, E1; exact (T3 x Hx)|].
  split; [congruence|]. split; [exact A6|]. split; congruence.
Qed.

End mount.

(** ** Examples *)

Lemma page_entry0 x : page_entry sarea0 x = raw_sit0.
Proof.
  unfold page_entry, get_current_sit_page, get_sit_page, sarea0. simpl sit_pages. rewrite lookup_empty.
  unfold default, sit_block0. apply zget_replicate.
Qed.

(** The empty main area of [Segment.v] is mounted again. *)
Lemma build_segment_manager_correct_witness :
  let '(err, oob, s) := build_segment_manager ly0 true false (curseg_array seg_state0) ∅ [0; 0; 0; 0] sarea0 sit_journal0 in
  err = 0 /\ oob = false /\ seg_inv ly0 true s /\ 3 ∈ free_segmap (free_i s) /\ 7 ∉ free_segmap (free_i s).
Proof.
  pose proof (build_segment_manager_correct ly0 true false ly0_ok seg_state0 pre_fl0 seg_state0_inv (dirty0_map PRE) eq_refl pre_fl0_wf eq_refl) as H.
  change (ssa seg_state0) with (∅ : gmap Z sum_block) in H. change (last_victim seg_state0) with [0; 0; 0; 0] in H.
  change (fl_area pre_fl0) with sarea0 in H. change (fl_journal pre_fl0) with sit_journal0 in H.
  destruct (build_segment_manager _ _ _ _ _ _ _ _) as [[err oob] s]. destruct H as (H1 & H2 & _ & H3 & _ & H4 & _).
  { intros x _. rewrite page_entry0. change (GET_SIT_VBLOCKS raw_sit0) with 0. lia. }
  split; [done|]. split; [done|]. split; [done|]. rewrite H4. change (free_segmap (free_i seg_state0)) with (free_segmap free0).
  split; [apply free0_segs; unfold is_type, NR_CURSEG_TYPE; lia|]. intros H. apply free0_segs in H. unfold is_type, NR_CURSEG_TYPE in H. lia.
Defined.

(** The segment number of a journal entry is only compared with the number of
    all segments of the volume, 22 here, and after it has been used: entry 20
    of a table of 16 is read and written. *)
Lemma journal_entry_outside_table :
  (build_sit_entries ly0 true false sarea0 (mk_journal 1 ((20, raw_sit0) :: replicate 5%nat (0, raw_sit0))) (build_sit_info ly0)).1 = (0, true).
Proof. vm_compute. reflexivity. Qed.
