(* ===== verification/Blocks.v ===== *)
(** * Fields of on-disk blocks

    A block is the list of its bytes.  Integers are little endian; a structure
    is read and written field by field at the offsets of its declaration. *)

From S2P Require Import Prelude.
From Stdlib Require Import ZArith Lia.
From stdpp Require Import base numbers option gmap list.
#[local] Open Scope Z_scope.

Definition F2FS_BLKSIZE : Z := 4096.

(** [leN_to_cpu] of the [n] bytes at [off], [cpu_to_leN] to them. *)
Fixpoint get_le (n : nat) (off : Z) (b : list Z) : Z :=
  match n with
  | O => 0
  | S n => byte_at b off + 256 * get_le n (off + 1) b
  end.

Fixpoint put_le (n : nat) (off v : Z) (b : list Z) : list Z :=
  match n with
  | O => b
  | S n => put_le n (off + 1) (v / 256) (zset b off (v mod 256))
  end.

Abbreviation le16_at := (get_le 2).
Abbreviation le32_at := (get_le 4).
Abbreviation le64_at := (get_le 8).
Abbreviation set_le16 := (put_le 2).
Abbreviation set_le32 := (put_le 4).
Abbreviation set_le64 := (put_le 8).

(** [memcpy] from offset [off] of a block, and to it. *)
Definition get_bytes (off n : Z) (b : list Z) : list Z := take (Z.to_nat n) (drop (Z.to_nat off) b).
Definition put_bytes (off : Z) (l b : list Z) : list Z :=
  take (Z.to_nat off) b ++ l ++ drop (Z.to_nat off + length l) b.

Definition zero_block : list Z := replicate (Z.to_nat F2FS_BLKSIZE) 0.

Record block_wf (b : list Z) : Prop := {
  bw_len : zlen b = F2FS_BLKSIZE;
  bw_bytes : bytes_ok b
}.

(** ** Ranges of block addresses *)

Lemma seqZ_snoc a n : 0 <= n -> seqZ a (n + 1) = seqZ a n ++ [a + n].
Proof. intros Hn. by rewrite seqZ_app by lia. Qed.

Lemma u32_succ x : u32 (u32 x + 1) = u32 (x + 1).
Proof. unfold u32. apply Zplus_mod_idemp_l. Qed.

Lemma u32_add_idemp x y : u32 (u32 x + y) = u32 (x + y).
Proof. unfold u32. apply Zplus_mod_idemp_l. Qed.

(** ** Little-endian fields *)

Create Rewrite HintDb blocks.

Lemma zlen_put_le n off v b : zlen (put_le n off v b) = zlen b.
Proof. revert off v b. induction n as [|n IH]; intros off v b; simpl; [done|]. by rewrite IH, zlen_zset. Qed.

Lemma is_byte_mod v : is_byte (v mod 256).
Proof. unfold is_byte. apply Z.mod_pos_bound. lia. Qed.

Lemma bytes_put_le n off v b : bytes_ok b -> bytes_ok (put_le n off v b).
Proof.
  revert off v b. induction n as [|n IH]; intros off v b Hb; simpl; [done|].
  apply IH, Forall_zset; [done|apply is_byte_mod].
Qed.

Lemma zget_put_le_out n off v b i : i < off \/ off + Z.of_nat n <= i -> byte_at (put_le n off v b) i = byte_at b i.
Proof.
  revert off v b. induction n as [|n IH]; intros off v b Hi; simpl; [done|].
  rewrite IH by lia. apply zget_zset_ne. lia.
Qed.

Lemma get_le_ext n off b b' :
  (forall i, off <= i < off + Z.of_nat n -> byte_at b i = byte_at b' i) -> get_le n off b = get_le n off b'.
Proof.
  revert off. induction n as [|n IH]; intros off H; simpl; [done|].
  rewrite (H off) by lia. by rewrite (IH (off + 1)) by (intros i Hi; apply H; lia).
Qed.

Lemma get_put_other n off n' off' v b :
  off' + Z.of_nat n' <= off \/ off + Z.of_nat n <= off' -> get_le n' off' (put_le n off v b) = get_le n' off' b.
Proof. intros H. apply get_le_ext. intros i Hi. apply zget_put_le_out. lia. Qed.

Lemma get_put_same n off v b :
  0 <= off -> off + Z.of_nat n <= zlen b -> get_le n off (put_le n off v b) = v mod 256 ^ Z.of_nat n.
Proof.
  revert off v b. induction n as [|n IH]; intros off v b Ho Hl.
  - simpl. by rewrite Z.mod_1_r.
  - cbn [put_le get_le]. rewrite IH by (rewrite ?zlen_zset; lia).
    rewrite zget_put_le_out by lia. rewrite zget_zset_eq by lia.
    rewrite Nat2Z.inj_succ, Z.pow_succ_r by lia. rewrite Z.rem_mul_r; lia.
Qed.

Lemma get_le_range n off b : bytes_ok b -> 0 <= get_le n off b < 256 ^ Z.of_nat n.
Proof.
  intros Hb. revert off. induction n as [|n IH]; intros off; [simpl; lia|]. cbn [get_le].
  rewrite Nat2Z.inj_succ, Z.pow_succ_r by lia. specialize (IH (off + 1)).
  pose proof (byte_at_range b off Hb). lia.
Qed.

Lemma le32_range off b : bytes_ok b -> 0 <= le32_at off b < 2 ^ 32.
Proof. apply (get_le_range 4). Qed.
Lemma le16_range off b : bytes_ok b -> 0 <= le16_at off b < 2 ^ 16.
Proof. apply (get_le_range 2). Qed.
Lemma le64_range off b : bytes_ok b -> 0 <= le64_at off b < 2 ^ 64.
Proof. apply (get_le_range 8). Qed.

#[export] Hint Resolve le32_range le16_range le64_range bytes_put_le : words.

Lemma get_put_le32 off v b : 0 <= off -> off + 4 <= zlen b -> le32_at off (set_le32 off v b) = u32 v.
Proof. intros H1 H2. rewrite get_put_same by lia. reflexivity. Qed.
Lemma get_put_le16 off v b : 0 <= off -> off + 2 <= zlen b -> le16_at off (set_le16 off v b) = u16 v.
Proof. intros H1 H2. rewrite get_put_same by lia. reflexivity. Qed.
Lemma get_put_le64 off v b : 0 <= off -> off + 8 <= zlen b -> le64_at off (set_le64 off v b) = u64 v.
Proof. intros H1 H2. rewrite get_put_same by lia. reflexivity. Qed.

(** A field determines its bytes. *)
Lemma get_le_bytes n off b b' : bytes_ok b -> bytes_ok b' -> get_le n off b = get_le n off b' ->
  forall i, off <= i < off + Z.of_nat n -> byte_at b i = byte_at b' i.
Proof.
  intros Hb Hb'. revert off. induction n as [|n IH]; intros off H i Hi; [lia|]. cbn [get_le] in H.
  pose proof (byte_at_range b off Hb). pose proof (byte_at_range b' off Hb').
  assert (byte_at b off = byte_at b' off) as He by lia.
  destruct (Z.eq_dec i off) as [->|]; [done|]. apply (IH (off + 1)); lia.
Qed.

(** ** Copies *)

Lemma zlen_app {A} (l1 l2 : list A) : zlen (l1 ++ l2) = zlen l1 + zlen l2.
Proof. unfold zlen. rewrite length_app. lia. Qed.

Lemma zget_app {A} (d : A) l1 l2 i : 0 <= i ->
  zget d (l1 ++ l2) i = if i <? zlen l1 then zget d l1 i else zget d l2 (i - zlen l1).
Proof.
  intros Hi. unfold zlen. case_if; rewrite !zget_lookup by lia.
  - by rewrite lookup_app_l by lia.
  - rewrite lookup_app_r by lia. do 2 f_equal. lia.
Qed.

Lemma zget_take {A} (d : A) l n i : i < n -> zget d (take (Z.to_nat n) l) i = zget d l i.
Proof.
  intros Hi. destruct (Z.lt_ge_cases i 0).
  - unfold zget. case_if; [lia|done].
  - rewrite !zget_lookup by lia. by rewrite lookup_take_lt by lia.
Qed.

Lemma zget_drop {A} (d : A) l n i : 0 <= n -> 0 <= i -> zget d (drop (Z.to_nat n) l) i = zget d l (n + i).
Proof. intros Hn Hi. rewrite !zget_lookup by lia. rewrite lookup_drop. do 2 f_equal. lia. Qed.

Lemma zlen_take {A} (l : list A) n : 0 <= n <= zlen l -> zlen (take (Z.to_nat n) l) = n.
Proof. unfold zlen. intros H. rewrite length_take. lia. Qed.

Lemma zlen_drop {A} (l : list A) n : 0 <= n <= zlen l -> zlen (drop (Z.to_nat n) l) = zlen l - n.
Proof. unfold zlen. intros H. rewrite length_drop. lia. Qed.

Lemma zlen_get_bytes off n b : 0 <= off -> 0 <= n -> off + n <= zlen b -> zlen (get_bytes off n b) = n.
Proof.
  intros Ho Hn Hl. unfold get_bytes. apply zlen_take. rewrite zlen_drop by lia. lia.
Qed.

Lemma byte_at_get_bytes off n b i : 0 <= off -> 0 <= i < n -> byte_at (get_bytes off n b) i = byte_at b (off + i).
Proof. intros Ho Hi. unfold get_bytes. rewrite zget_take by lia. apply zget_drop; lia. Qed.

Lemma zlen_put_bytes off l b : 0 <= off -> off + zlen l <= zlen b -> zlen (put_bytes off l b) = zlen b.
Proof.
  unfold put_bytes, zlen. intros Ho Hl. rewrite !length_app, length_take, length_drop. lia.
Qed.

Lemma byte_at_put_bytes off l b i : 0 <= off -> off + zlen l <= zlen b -> 0 <= i ->
  byte_at (put_bytes off l b) i = if (off <=? i) && (i <? off + zlen l) then byte_at l (i - off) else byte_at b i.
Proof.
  intros Ho Hl Hi. pose proof (zlen_nonneg l) as Hn. unfold put_bytes.
  replace (Z.to_nat off + length l)%nat with (Z.to_nat (off + zlen l)) by (unfold zlen; lia).
  rewrite zget_app, zlen_take by lia. destruct (Z.ltb_spec i off).
  - rewrite (proj2 (Z.leb_gt off i)) by lia. simpl. by apply zget_take.
  - rewrite (proj2 (Z.leb_le off i)) by lia. rewrite zget_app by lia. simpl andb.
    destruct (Z.ltb_spec (i - off) (zlen l)), (Z.ltb_spec i (off + zlen l)); try lia.
    rewrite zget_drop by lia. f_equal. lia.
Qed.

Lemma get_put_bytes off l b : 0 <= off -> off + zlen l <= zlen b -> get_bytes off (zlen l) (put_bytes off l b) = l.
Proof.
  intros Ho Hl. pose proof (zlen_nonneg l). apply (zlist_ext 0).
  - apply zlen_get_bytes; [lia..|]. by rewrite zlen_put_bytes.
  - intros i Hi. rewrite zlen_get_bytes in Hi by (rewrite ?zlen_put_bytes; lia).
    rewrite byte_at_get_bytes, byte_at_put_bytes by lia.
    rewrite (proj2 (Z.leb_le _ _)), (proj2 (Z.ltb_lt _ _)) by lia. simpl. f_equal. lia.
Qed.

Lemma get_bytes_ext off n b b' : zlen b = zlen b' -> 0 <= off -> 0 <= n -> off + n <= zlen b ->
  (forall i, off <= i < off + n -> byte_at b i = byte_at b' i) -> get_bytes off n b = get_bytes off n b'.
Proof.
  intros He Ho Hn Hl H. apply (zlist_ext 0).
  - rewrite !zlen_get_bytes by lia. done.
  - intros i Hi. rewrite zlen_get_bytes in Hi by lia. rewrite !byte_at_get_bytes by lia. apply H. lia.
Qed.

Lemma bytes_put_bytes off l b : bytes_ok l -> bytes_ok b -> bytes_ok (put_bytes off l b).
Proof. intros Hl Hb. unfold put_bytes. apply Forall_app. split; [by apply Forall_take|]. apply Forall_app. split; [done|by apply Forall_drop]. Qed.

Lemma bytes_get_bytes off n b : bytes_ok b -> bytes_ok (get_bytes off n b).
Proof. intros Hb. by apply Forall_take, Forall_drop. Qed.

Lemma zero_block_wf : block_wf zero_block.
Proof.
  split; [reflexivity|]. unfold zero_block. apply Forall_replicate. apply is_byte_0.
Qed.

#[export] Hint Resolve bytes_put_bytes bytes_get_bytes zero_block_wf : words.
#[export] Hint Rewrite zlen_put_le : blocks.
#[export] Hint Rewrite get_put_le32 get_put_le16 get_put_le64 get_put_other
  using (rewrite ?zlen_put_le; lia) : blocks.
