(* ===== verification/Super.v ===== *)
(** * Super blocks (super.c, f2fs_fs.h)

    The two copies of the super block: the checks made when they are read, the
    repair of a wrong segment count, the order in which they are written, and
    the geometry of the volume they give to the other components. *)

From S2P Require Import Prelude FreeSeg Sit.
From Stdlib Require Import ZArith Lia.
From stdpp Require Import base numbers option list.
#[local] Open Scope Z_scope.
#[local] Open Scope c_scope.

(** ** Data *)

Definition F2FS_SUPER_MAGIC : Z := 0xF2F52010.
Definition F2FS_MIN_LOG_SECTOR_SIZE : Z := 9.
Definition F2FS_MAX_LOG_SECTOR_SIZE : Z := 12.
Definition F2FS_MAX_SEGMENT : Z := (16 * 1024 * 1024) / 2.
Definition EROFS : Z := 30.

(** The fields of [struct f2fs_super_block] the checks and the mount use. *)
Record f2fs_super_block := mk_super {
  sb_magic : Z;
  sb_log_sectorsize : Z;
  sb_log_sectors_per_block : Z;
  sb_log_blocksize : Z;
  sb_log_blocks_per_seg : Z;
  sb_segs_per_sec : Z;
  sb_secs_per_zone : Z;
  sb_section_count : Z;
  sb_segment_count : Z;
  sb_segment_count_ckpt : Z;
  sb_segment_count_sit : Z;
  sb_segment_count_nat : Z;
  sb_segment_count_ssa : Z;
  sb_segment_count_main : Z;
  sb_segment0_blkaddr : Z;
  sb_cp_blkaddr : Z;
  sb_sit_blkaddr : Z;
  sb_nat_blkaddr : Z;
  sb_ssa_blkaddr : Z;
  sb_main_blkaddr : Z;
  sb_root_ino : Z;
  sb_node_ino : Z;
  sb_meta_ino : Z;
  sb_cp_payload : Z
}.

Definition set_segment_count (x : Z) (r : f2fs_super_block) : f2fs_super_block :=
  mk_super (sb_magic r) (sb_log_sectorsize r) (sb_log_sectors_per_block r) (sb_log_blocksize r)
    (sb_log_blocks_per_seg r) (sb_segs_per_sec r) (sb_secs_per_zone r) (sb_section_count r) x
    (sb_segment_count_ckpt r) (sb_segment_count_sit r) (sb_segment_count_nat r) (sb_segment_count_ssa r)
    (sb_segment_count_main r) (sb_segment0_blkaddr r) (sb_cp_blkaddr r) (sb_sit_blkaddr r) (sb_nat_blkaddr r)
    (sb_ssa_blkaddr r) (sb_main_blkaddr r) (sb_root_ino r) (sb_node_ino r) (sb_meta_ino r) (sb_cp_payload r).

(** ** Checks *)

(** What becomes of a copy whose segment count is corrected. *)
Inductive sb_fix := Fix_none | Fix_internal | Fix_commit.

(** The result is the C result: [true] is an error.  [ro]: the mount or the
    device is read-only; [werr]: the error of writing the copy back. *)
Definition sanity_check_area_boundary (ro : bool) (werr : Z) (r : f2fs_super_block)
    : bool * sb_fix * f2fs_super_block :=
  let blocks n := u32 (Z.shiftl n (sb_log_blocks_per_seg r)) in
  let main_end_blkaddr := u32 (sb_main_blkaddr r + blocks (sb_segment_count_main r)) in
  let seg_end_blkaddr := u32 (sb_segment0_blkaddr r + blocks (sb_segment_count r)) in
  if negb (sb_segment0_blkaddr r =? sb_cp_blkaddr r) then (true, Fix_none, r)
  else if negb (u32 (sb_cp_blkaddr r + blocks (sb_segment_count_ckpt r)) =? sb_sit_blkaddr r) then (true, Fix_none, r)
  else if negb (u32 (sb_sit_blkaddr r + blocks (sb_segment_count_sit r)) =? sb_nat_blkaddr r) then (true, Fix_none, r)
  else if negb (u32 (sb_nat_blkaddr r + blocks (sb_segment_count_nat r)) =? sb_ssa_blkaddr r) then (true, Fix_none, r)
  else if negb (u32 (sb_ssa_blkaddr r + blocks (sb_segment_count_ssa r)) =? sb_main_blkaddr r) then (true, Fix_none, r)
  else if main_end_blkaddr >? seg_end_blkaddr then (true, Fix_none, r)
  else if main_end_blkaddr <? seg_end_blkaddr then
    let r := set_segment_count
      (u32 (Z.shiftr (u64 (main_end_blkaddr - sb_segment0_blkaddr r)) (sb_log_blocks_per_seg r))) r in
    if ro then (false, Fix_internal, r) else (c_true werr, Fix_commit, r)
  else (false, Fix_none, r).

(** The result is the C result: 0 when the copy is accepted.  The size of a
    page is 4096; [1 << log_blocksize] is defined below 32 only. *)
Definition sanity_check_raw_super (ro : bool) (werr : Z) (r : f2fs_super_block) : Z * sb_fix * f2fs_super_block :=
  if negb (F2FS_SUPER_MAGIC =? sb_magic r) then (1, Fix_none, r)
  else if negb (u32 (Z.shiftl 1 (sb_log_blocksize r)) =? 4096) then (1, Fix_none, r)
  else if negb (sb_log_blocks_per_seg r =? 9) then (1, Fix_none, r)
  else if (sb_log_sectorsize r >? F2FS_MAX_LOG_SECTOR_SIZE) || (sb_log_sectorsize r <? F2FS_MIN_LOG_SECTOR_SIZE)
  then (1, Fix_none, r)
  else if negb (u32 (sb_log_sectors_per_block r + sb_log_sectorsize r) =? F2FS_MAX_LOG_SECTOR_SIZE)
  then (1, Fix_none, r)
  else if negb (sb_node_ino r =? 1) || negb (sb_meta_ino r =? 2) || negb (sb_root_ino r =? 3) then (1, Fix_none, r)
  else if sb_segment_count r >? F2FS_MAX_SEGMENT then (1, Fix_none, r)
  else let '(bad, fix_, r) := sanity_check_area_boundary ro werr r in (c_int bad, fix_, r).

(** ** The two copies *)

(** [copies]: what the device holds in blocks 0 and 1 ([None]: it cannot be
    read); [werrs]: the errors of writing them.  A write that fails leaves
    the block unreadable, the worst it can do to later mounts; that the buffer
    keeps the new contents in memory until then is left out. *)
Record sb_dev := mk_sbdev {
  copies : list (option f2fs_super_block);
  werrs : list Z;
  sb_readonly : bool;      (* f2fs_readonly *)
  bdev_readonly : bool;    (* bdev_read_only *)
  need_sb_write : bool     (* SBI_NEED_SB_WRITE *)
}.

Definition set_copies (x : list (option f2fs_super_block)) (d : sb_dev) : sb_dev :=
  mk_sbdev x (werrs d) (sb_readonly d) (bdev_readonly d) (need_sb_write d).
Definition set_need_sb_write (x : bool) (d : sb_dev) : sb_dev :=
  mk_sbdev (copies d) (werrs d) (sb_readonly d) (bdev_readonly d) x.

Definition sb_bread (block : Z) (d : sb_dev) : option f2fs_super_block := zget None (copies d) block.

Definition __f2fs_commit_super (block : Z) (super : f2fs_super_block) (d : sb_dev) : Z * sb_dev :=
  let err := zget 0 (werrs d) block in
  (err, set_copies (zset (copies d) block (if c_true err then None else Some super)) d).

(** Result: the error, the super block, [valid_super_block], [recovery]. *)
Record sb_result := mk_sbres {
  r_err : Z;
  r_super : option f2fs_super_block;
  r_valid : Z;
  r_recovery : bool
}.

Definition read_one (block : Z) (st : sb_result * sb_dev) : sb_result * sb_dev :=
  let '(res, d) := st in
  match sb_bread block d with
  | None => (mk_sbres (- EIO) (r_super res) (r_valid res) (r_recovery res), d)
  | Some raw =>
    let '(bad, fix_, raw) :=
      sanity_check_raw_super (sb_readonly d || bdev_readonly d) (zget 0 (werrs d) block) raw in
    let d := match fix_ with
             | Fix_none => d
             | Fix_internal => set_need_sb_write true d
             | Fix_commit => (__f2fs_commit_super block raw d).2
             end in
    if c_true bad then (mk_sbres (- EINVAL) (r_super res) (r_valid res) (r_recovery res), d)
    else match r_super res with
         | None => (mk_sbres (r_err res) (Some raw) block (r_recovery res), d)
         | Some _ => (res, d)
         end
  end.

Definition read_raw_super_block (d : sb_dev) : sb_result * sb_dev :=
  let '(res, d) := read_one 1 (read_one 0 (mk_sbres 0 None 0 false, d)) in
  let recovery := r_recovery res || (r_err res <? 0) in
  match r_super res with
  | None => (mk_sbres (r_err res) None (r_valid res) recovery, d)
  | Some raw => (mk_sbres 0 (Some raw) (r_valid res) recovery, d)
  end.

(** [valid]: [sbi->valid_super_block]. *)
Definition f2fs_commit_super (recover : bool) (valid : Z) (raw : f2fs_super_block) (d : sb_dev) : Z * sb_dev :=
  if (recover && sb_readonly d) || bdev_readonly d then (- EROFS, set_need_sb_write true d)
  else
    let '(err, d) := __f2fs_commit_super (if c_true valid then 0 else 1) raw d in
    if recover || c_true err then (err, d) else __f2fs_commit_super valid raw d.

(** ** What the mount takes from the super block *)

Definition init_sb_info (r : f2fs_super_block) : geom :=
  mk_geom (sb_segs_per_sec r) (sb_secs_per_zone r) (sb_section_count r) (sb_segment_count_main r).

(** The fields [build_segment_manager] sets, and [start_segno]. *)
Definition layout_of (r : f2fs_super_block) : layout :=
  mk_layout (init_sb_info r) (sb_segment0_blkaddr r)
    (Z.shiftr (u32 (sb_main_blkaddr r - sb_segment0_blkaddr r)) (sb_log_blocks_per_seg r)) (sb_segment_count r).

(** ** Proofs *)

(** The fields are 32-bit integers and no area ends behind the last 32-bit
    block address. *)
Record super_fits (r : f2fs_super_block) : Prop := {
  sf_shift : 0 <= sb_log_blocksize r < 32;
  sf_sector : 0 <= sb_log_sectorsize r < 2 ^ 32 /\ 0 <= sb_log_sectors_per_block r < 2 ^ 32;
  sf_counts : Forall (fun c => 0 <= c)
    [sb_segment_count r; sb_segment_count_ckpt r; sb_segment_count_sit r; sb_segment_count_nat r;
     sb_segment_count_ssa r; sb_segment_count_main r];
  sf_seg0 : 0 <= sb_segment0_blkaddr r;
  sf_end : sb_segment0_blkaddr r + 512 * sb_segment_count r < 2 ^ 32;
  sf_areas : sb_segment0_blkaddr r + 512 * (sb_segment_count_ckpt r + sb_segment_count_sit r +
    sb_segment_count_nat r + sb_segment_count_ssa r + sb_segment_count_main r) < 2 ^ 32
}.

(** The format is the supported one. *)
Record format_ok (r : f2fs_super_block) : Prop := {
  fo_magic : sb_magic r = F2FS_SUPER_MAGIC;
  fo_block : sb_log_blocksize r = 12;
  fo_seg : sb_log_blocks_per_seg r = 9;
  fo_sector : 9 <= sb_log_sectorsize r <= 12 /\ sb_log_sectors_per_block r = 12 - sb_log_sectorsize r;
  fo_inos : sb_node_ino r = 1 /\ sb_meta_ino r = 2 /\ sb_root_ino r = 3
}.

(** The areas lie one behind the other. *)
Record areas_ok (r : f2fs_super_block) : Prop := {
  ao_cp : sb_cp_blkaddr r = sb_segment0_blkaddr r;
  ao_sit : sb_sit_blkaddr r = sb_cp_blkaddr r + 512 * sb_segment_count_ckpt r;
  ao_nat : sb_nat_blkaddr r = sb_sit_blkaddr r + 512 * sb_segment_count_sit r;
  ao_ssa : sb_ssa_blkaddr r = sb_nat_blkaddr r + 512 * sb_segment_count_nat r;
  ao_main : sb_main_blkaddr r = sb_ssa_blkaddr r + 512 * sb_segment_count_ssa r
}.

(** The segments of the volume are those of its areas. *)
Definition count_exact (r : f2fs_super_block) : Prop :=
  sb_segment_count r = sb_segment_count_ckpt r + sb_segment_count_sit r + sb_segment_count_nat r +
    sb_segment_count_ssa r + sb_segment_count_main r.

Definition super_ok (r : f2fs_super_block) : Prop :=
  format_ok r /\ areas_ok r /\ count_exact r /\ sb_segment_count r <= F2FS_MAX_SEGMENT.

Lemma seg_blocks n x : 0 <= n -> 512 * n < 2 ^ 32 -> x = 9 -> u32 (Z.shiftl n x) = 512 * n.
Proof. intros Hn Hb ->. rewrite Z.shiftl_mul_pow2 by lia. change (2 ^ 9) with 512. rewrite u32_small; lia. Qed.

Lemma fits_counts r : super_fits r ->
  0 <= sb_segment_count r /\ 0 <= sb_segment_count_ckpt r /\ 0 <= sb_segment_count_sit r /\
  0 <= sb_segment_count_nat r /\ 0 <= sb_segment_count_ssa r /\ 0 <= sb_segment_count_main r.
Proof.
  intros H. pose proof (sf_counts r H) as Hc. rewrite !Forall_cons in Hc. tauto.
Qed.

(** Rewrite the area sizes of the checks when nothing overflows. *)
Ltac area_sizes Hf H9 :=
  pose proof (fits_counts _ Hf) as (?&?&?&?&?&?);
  pose proof (sf_seg0 _ Hf); pose proof (sf_end _ Hf); pose proof (sf_areas _ Hf);
  unfold sanity_check_area_boundary; rewrite !seg_blocks by (lia || exact H9).

Lemma shiftr_segments d x : x = 9 -> 0 <= d < 2 ^ 32 -> u32 (Z.shiftr d x) = d / 512.
Proof.
  intros -> Hd. rewrite Z.shiftr_div_pow2 by lia. change (2 ^ 9) with 512. apply u32_small. zdiv.
Qed.

(** Accepted: the areas are in place and the segment count is exact, after
    the correction where one was made. *)
Lemma area_boundary_accepts ro werr r fx r' :
  super_fits r -> sb_log_blocks_per_seg r = 9 ->
  sanity_check_area_boundary ro werr r = (false, fx, r') ->
  areas_ok r' /\ count_exact r' /\ (exists n, r' = set_segment_count n r /\ n <= sb_segment_count r) /\
  (fx = Fix_none -> r' = r) /\ (fx = Fix_internal -> ro = true) /\ (fx = Fix_commit -> werr = 0).
Proof.
  intros Hf H9. area_sizes Hf H9.
  case_if; [done|]. do 4 (case_if; [done|]; rewrite u32_small in * by lia).
  rewrite !u32_small by lia. case_if; [done|]. assert (areas_ok r) as Ha by (split; lia).
  case_if; intros Hr.
  - set (n := u32 _) in Hr.
    assert (n = sb_segment_count_ckpt r + sb_segment_count_sit r + sb_segment_count_nat r +
      sb_segment_count_ssa r + sb_segment_count_main r) as Hn.
    { unfold n. rewrite u64_small by lia. rewrite shiftr_segments by lia. zdiv. }
    assert (r' = set_segment_count n r) as -> by (destruct ro; by inversion Hr).
    split_and!; [by destruct Ha; split|exact Hn|exists n; split; [done|lia]|..].
    + intros ->. destruct ro; inversion Hr.
    + intros ->. by destruct ro.
    + intros ->. destruct ro; inversion Hr as [Hw]. by apply c_true_false in Hw.
  - inversion Hr; subst. split_and!; try done; [unfold count_exact; lia|].
    exists (sb_segment_count r'). split; [by destruct r'|lia].
Qed.

(** A volume in place is accepted as it is. *)
Lemma area_boundary_complete ro werr r :
  super_fits r -> sb_log_blocks_per_seg r = 9 -> areas_ok r -> count_exact r ->
  sanity_check_area_boundary ro werr r = (false, Fix_none, r).
Proof.
  intros Hf H9 [A1 A2 A3 A4 A5] Hc. unfold count_exact in Hc. area_sizes Hf H9.
  rewrite !u32_small by lia.
  repeat (case_if; [lia|]). done.
Qed.

Lemma shift_4096 x : 0 <= x < 32 -> u32 (Z.shiftl 1 x) = 4096 <-> x = 12.
Proof.
  intros Hx. rewrite shiftl_1_pow2 by lia.
  rewrite u32_small by (split; [lia|apply Z.pow_lt_mono_r; lia]).
  split; [|by intros ->]. intros H. change 4096 with (2 ^ 12) in H. apply Z.pow_inj_r in H; lia.
Qed.

Lemma format_checks ro werr r : super_fits r ->
  format_ok r /\ sb_segment_count r <= F2FS_MAX_SEGMENT /\
  sanity_check_raw_super ro werr r =
    (let '(bad, fx, r') := sanity_check_area_boundary ro werr r in (c_int bad, fx, r')) \/
  ~ (format_ok r /\ sb_segment_count r <= F2FS_MAX_SEGMENT) /\ sanity_check_raw_super ro werr r = (1, Fix_none, r).
Proof.
  intros Hf. pose proof (sf_shift r Hf) as Hs. destruct (sf_sector r Hf) as [Hs1 Hs2].
  pose proof (shift_4096 _ Hs) as H12.
  unfold sanity_check_raw_super, F2FS_MAX_LOG_SECTOR_SIZE, F2FS_MIN_LOG_SECTOR_SIZE.
  case_if; [right; split; [|done]; intros [[] _]; congruence|].
  case_if; [right; split; [|done]; intros [[] _]; tauto|].
  case_if; [right; split; [|done]; intros [[] _]; tauto|].
  case_if; [right; split; [|done]; intros [[] _]; apply orb_true_iff in E2 as [|]; zbool; lia|].
  case_if; [right; split; [|done]; intros [[] _]; rewrite u32_small in *; lia|].
  case_if; [right; split; [|done]; intros [[] _]; rewrite !orb_true_iff in E3; destruct E3 as [[]|]; zbool; lia|].
  case_if; [right; split; [|done]; intros [_ Hm]; lia|].
  left. split_and!; [|lia|done]. split; try lia; try tauto. unfold u32 in *. zdiv.
Qed.

Lemma sanity_check_accepts ro werr r fx r' : super_fits r ->
  sanity_check_raw_super ro werr r = (0, fx, r') ->
  super_ok r' /\ (exists n, r' = set_segment_count n r /\ n <= sb_segment_count r) /\
  (fx = Fix_none -> r' = r) /\ (fx = Fix_internal -> ro = true) /\ (fx = Fix_commit -> werr = 0).
Proof.
  intros Hf Hr. destruct (format_checks ro werr r Hf) as [(Hfo & Hm & He)|[_ He]]; [|by rewrite He in Hr].
  rewrite He in Hr. destruct (sanity_check_area_boundary ro werr r) as [[bad fx1] r1] eqn:Ea.
  assert (bad = false /\ fx1 = fx /\ r1 = r') as (-> & -> & ->) by (destruct bad; by inversion Hr).
  destruct (area_boundary_accepts _ _ _ _ _ Hf (fo_seg _ Hfo) Ea) as (Ha & Hc & (n & Hn & Hle) & H1 & H2).
  split_and!; [|by exists n|apply H1|apply H2|apply H2].
  split_and!; [|done|done|subst r'; simpl; lia]. subst r'. by destruct Hfo; split.
Qed.

Lemma sanity_check_complete ro werr r : super_fits r -> super_ok r ->
  sanity_check_raw_super ro werr r = (0, Fix_none, r).
Proof.
  intros Hf (Hfo & Ha & Hc & Hm). destruct (format_checks ro werr r Hf) as [(_ & _ & He)|[Hn _]]; [|tauto].
  rewrite He, (area_boundary_complete _ _ _ Hf (fo_seg _ Hfo) Ha Hc). done.
Qed.

(** ** Geometry *)

(** What the checks leave open: the sections, and that the volume starts
    behind the super blocks. *)
Record sections_ok (r : f2fs_super_block) : Prop := {
  so_seg0 : 0 < sb_segment0_blkaddr r;
  so_main : 0 <= sb_segment_count_main r;
  so_segs : 0 < sb_segs_per_sec r;
  so_secs : 0 < sb_secs_per_zone r;
  so_count : 0 < sb_section_count r;
  so_exact : sb_segment_count_main r = sb_section_count r * sb_segs_per_sec r
}.

Lemma layout_of_ok r : super_fits r -> super_ok r -> sections_ok r ->
  layout_ok (layout_of r) /\ main_blkaddr (layout_of r) = sb_main_blkaddr r.
Proof.
  intros Hf (Hfo & [A1 A2 A3 A4 A5] & Hc & Hm) [S1 S2 S3 S4 S5 S6]. unfold count_exact in Hc.
  destruct (fits_counts _ Hf) as (?&?&?&?&?&?). pose proof (sf_end _ Hf) as He.
  assert (sb_main_blkaddr r - sb_segment0_blkaddr r = 512 * (sb_segment_count_ckpt r + sb_segment_count_sit r +
    sb_segment_count_nat r + sb_segment_count_ssa r)) as Hd by lia.
  unfold layout_ok, main_blkaddr, layout_of, geom_ok, MAIN_SEGS, init_sb_info. simpl.
  rewrite (fo_seg _ Hfo), Hd, Z.shiftr_div_pow2 by lia. change (2 ^ 9) with 512.
  rewrite u32_small, (Z.mul_comm 512), Z.div_mul by lia.
  unfold F2FS_MAX_SEGMENT in Hm. change (16 * 1024 * 1024 / 2) with 8388608 in Hm. split_and!; lia.
Qed.

(** ** Reading and writing the copies *)

Definition is_copy (b : Z) : Prop := b = 0 \/ b = 1.
#[export] Instance is_copy_dec b : Decision (is_copy b).
Proof. unfold is_copy. apply _. Defined.

Definition dev_fits (d : sb_dev) : Prop :=
  zlen (copies d) = 2 /\ forall b r, sb_bread b d = Some r -> super_fits r.

Lemma fits_set_count n r : super_fits r -> 0 <= n <= sb_segment_count r -> super_fits (set_segment_count n r).
Proof.
  intros Hf Hn. pose proof (fits_counts r Hf) as (?&?&?&?&?&?). destruct Hf. split; simpl; try done; try lia.
  rewrite !Forall_cons in *. tauto.
Qed.

Lemma sb_bread_commit b r d b' : is_copy b -> is_copy b' -> zlen (copies d) = 2 ->
  sb_bread b' (__f2fs_commit_super b r d).2 =
    if b =? b' then if c_true (zget 0 (werrs d) b) then None else Some r else sb_bread b' d.
Proof.
  intros Hb Hb' Hl. unfold sb_bread, __f2fs_commit_super. simpl. rewrite zget_zset; [done|].
  rewrite Hl. unfold is_copy in Hb. lia.
Qed.

Lemma commit_same_dev b r d :
  zlen (copies (__f2fs_commit_super b r d).2) = zlen (copies d) /\ werrs (__f2fs_commit_super b r d).2 = werrs d /\
  sb_readonly (__f2fs_commit_super b r d).2 = sb_readonly d /\
  bdev_readonly (__f2fs_commit_super b r d).2 = bdev_readonly d.
Proof. unfold __f2fs_commit_super. simpl. by rewrite zlen_zset. Qed.

Lemma sanity_check_commits ro werr r bad r' :
  sanity_check_raw_super ro werr r = (bad, Fix_commit, r') -> c_true bad = c_true werr.
Proof.
  unfold sanity_check_raw_super, sanity_check_area_boundary. do 7 (case_if; [discriminate|]).
  do 6 (case_if; [discriminate|]). case_if; [|discriminate]. destruct ro; [discriminate|].
  intros Hr. inversion Hr. by destruct (c_true werr).
Qed.

(** What reading copy [b] does; the other copy is not touched. *)
Record read_step (b : Z) (res : sb_result) (d : sb_dev) (res' : sb_result) (d' : sb_dev) : Prop := {
  rs_other : forall b', is_copy b' -> b' <> b -> sb_bread b' d' = sb_bread b' d;
  rs_len : zlen (copies d') = zlen (copies d);
  rs_fits : dev_fits d';
  rs_recovery : r_recovery res' = r_recovery res;
  rs_case :
    (exists raw n, sb_bread b d = Some raw /\ n <= sb_segment_count raw /\ super_ok (set_segment_count n raw) /\
       super_fits (set_segment_count n raw) /\ (super_ok raw -> set_segment_count n raw = raw) /\
       (sb_readonly d = false -> bdev_readonly d = false -> sb_bread b d' = Some (set_segment_count n raw)) /\
       res' = match r_super res with
              | None => mk_sbres (r_err res) (Some (set_segment_count n raw)) b (r_recovery res)
              | Some _ => res
              end) \/
    ((forall raw, sb_bread b d = Some raw -> ~ super_ok raw) /\ r_err res' < 0 /\ r_super res' = r_super res /\
       r_valid res' = r_valid res)
}.

Lemma read_one_step b res d : is_copy b -> dev_fits d ->
  read_step b res d (read_one b (res, d)).1 (read_one b (res, d)).2.
Proof.
  intros Hb [Hl Hfits]. unfold read_one. destruct (sb_bread b d) as [raw|] eqn:Er.
  2:{ simpl. split; simpl; try done. right. split_and!; try done. by rewrite Er. }
  pose proof Hfits as Hall. specialize (Hfits _ _ Er).
  destruct (sanity_check_raw_super _ _ raw) as [[bad fx] r'] eqn:Es.
  set (d' := match fx with Fix_none => d | Fix_internal => set_need_sb_write true d | Fix_commit => _ end).
  assert (Hother : forall b', is_copy b' -> b' <> b -> sb_bread b' d' = sb_bread b' d).
  { intros b' Hb' Hne. unfold d'. destruct fx; try done. rewrite sb_bread_commit by done.
    by rewrite (proj2 (Z.eqb_neq _ _)) by done. }
  assert (Hlen : zlen (copies d') = zlen (copies d)).
  { unfold d'. destruct fx; try done. apply commit_same_dev. }
  assert (Hfits' : c_true bad = false -> super_fits r').
  { intros Hbad. apply c_true_false in Hbad. subst bad.
    destruct (sanity_check_accepts _ _ _ _ _ Hfits Es) as ((_ & _ & Hc & _) & (n & -> & Hle) & _).
    apply fits_set_count; [done|]. unfold count_exact in Hc. simpl in Hc. pose proof (fits_counts _ Hfits). lia. }
  assert (Hd' : dev_fits d').
  { split; [by rewrite Hlen|]. intros b' r Hr. unfold d' in Hr. destruct fx; [by eapply Hall|by eapply Hall|].
    destruct (decide (is_copy b')) as [Hb'|Hb'].
    - rewrite sb_bread_commit in Hr by done. case_if_in Hr; [|by eapply Hall].
      destruct (c_true (zget 0 (werrs d) b)) eqn:Ew; [done|]. inversion Hr; subst.
      apply Hfits'. by rewrite (sanity_check_commits _ _ _ _ _ Es).
    - unfold sb_bread, __f2fs_commit_super in Hr. simpl in Hr. rewrite zget_zset_ne in Hr; [by eapply Hall|].
      intros ->. done. }
  destruct (c_true bad) eqn:Ebad.
  - split; simpl; try done. right. split_and!; try done. intros raw0 Hr0 Hok. assert (raw0 = raw) as -> by congruence.
    rewrite (sanity_check_complete _ _ _ Hfits Hok) in Es. by inversion Es; subst.
  - replace (match r_super res with None => _ | Some _ => _ end) with (match r_super res with
      | None => mk_sbres (r_err res) (Some r') b (r_recovery res) | Some _ => res end, d') by (by destruct (r_super res)).
    split; simpl; try done; [by destruct (r_super res)|].
    left. apply c_true_false in Ebad. subst bad.
    destruct (sanity_check_accepts _ _ _ _ _ Hfits Es) as (Hok & (n & -> & Hle) & Hfx1 & Hfx2 & Hfx3).
    exists raw, n. split_and!; try done.
    + by apply Hfits'.
    + intros Hok'. rewrite (sanity_check_complete _ _ _ Hfits Hok') in Es. by inversion Es.
    + intros Hro Hbd. unfold d'. destruct fx.
      * by rewrite Hfx1.
      * by rewrite Hro, Hbd in Hfx2; specialize (Hfx2 eq_refl).
      * rewrite sb_bread_commit by done. by rewrite Z.eqb_refl, (Hfx3 eq_refl).
Qed.

(** What a mount gets from the copies. *)
Definition read_result (d : sb_dev) (res : sb_result) (d' : sb_dev) : Prop :=
  match r_super res with
  | Some r =>
      r_err res = 0 /\ is_copy (r_valid res) /\ super_fits r /\ super_ok r /\
      (exists raw n, sb_bread (r_valid res) d = Some raw /\ r = set_segment_count n raw /\
         n <= sb_segment_count raw /\ (super_ok raw -> r = raw)) /\
      (forall b, is_copy b -> b < r_valid res -> forall raw, sb_bread b d = Some raw -> ~ super_ok raw) /\
      (sb_readonly d = false -> bdev_readonly d = false -> sb_bread (r_valid res) d' = Some r)
  | None => r_err res < 0 /\ forall b raw, is_copy b -> sb_bread b d = Some raw -> ~ super_ok raw
  end.

Lemma read_one_dev b res d : let d' := (read_one b (res, d)).2 in
  sb_readonly d' = sb_readonly d /\ bdev_readonly d' = bdev_readonly d.
Proof.
  unfold read_one. destruct (sb_bread b d); [|done].
  destruct (sanity_check_raw_super _ _ _) as [[bad fx] r']. destruct (c_true bad), (r_super res), fx; done.
Qed.

Lemma read_result_ok d : dev_fits d ->
  read_result d (read_raw_super_block d).1 (read_raw_super_block d).2.
Proof.
  intros Hd. unfold read_raw_super_block, read_result. set (res0 := mk_sbres 0 None 0 false).
  pose proof (read_one_step 0 res0 d (or_introl eq_refl) Hd) as S0. pose proof (read_one_dev 0 res0 d) as [R0 B0].
  destruct (read_one 0 (res0, d)) as [res1 d1]. simpl in S0, R0, B0.
  pose proof (read_one_step 1 res1 d1 (or_intror eq_refl) (rs_fits _ _ _ _ _ S0)) as S1.
  pose proof (read_one_dev 1 res1 d1) as [R1 B1]. destruct (read_one 1 (res1, d1)) as [res2 d2]. simpl in S1, R1, B1.
  assert (Hb1 : sb_bread 1 d1 = sb_bread 1 d) by (apply (rs_other _ _ _ _ _ S0); [by right|done]).
  assert (Hb0 : sb_bread 0 d2 = sb_bread 0 d1) by (apply (rs_other _ _ _ _ _ S1); [by left|done]).
  destruct (rs_case _ _ _ _ _ S0) as [(raw & n & Hraw & Hn & Hok & Hf & Hsame & Hdev & ->)|(Hbad & He1 & Hs1 & Hv1)].
  - assert (r_super res2 = Some (set_segment_count n raw) /\ r_valid res2 = 0) as [Hs2 Hv2].
    { destruct (rs_case _ _ _ _ _ S1) as [(? & ? & _ & _ & _ & _ & _ & _ & ->)|(_ & _ & -> & ->)]; done. }
    rewrite Hs2. simpl. rewrite Hv2. split_and!; try done; [by left|by exists raw, n|by intros b [->| ->]|].
    intros Hr Hb. rewrite Hb0. auto.
  - simpl in Hs1, Hv1.
    destruct (rs_case _ _ _ _ _ S1) as [(raw & n & Hraw & Hn & Hok & Hf & Hsame & Hdev & ->)|(Hbad' & He2 & Hs2 & Hv2)].
    + rewrite Hs1. simpl. split_and!; try done; [by right|by exists raw, n; rewrite <- Hb1|by intros b [->| ->]|].
      intros Hr Hb. apply Hdev; congruence.
    + rewrite Hs2, Hs1. simpl. split; [done|]. intros b raw [->| ->]; [apply Hbad|]. rewrite <- Hb1. apply Hbad'.
Qed.

(** What the checks ensure of any contents of the device: the format, and the
    areas one behind the other in 32-bit arithmetic. *)
Record areas_mod (r : f2fs_super_block) : Prop := {
  am_magic : sb_magic r = F2FS_SUPER_MAGIC;
  am_page : u32 (Z.shiftl 1 (sb_log_blocksize r)) = 4096;
  am_seg : sb_log_blocks_per_seg r = 9;
  am_sector : 9 <= sb_log_sectorsize r <= 12 /\ u32 (sb_log_sectors_per_block r + sb_log_sectorsize r) = 12;
  am_inos : sb_node_ino r = 1 /\ sb_meta_ino r = 2 /\ sb_root_ino r = 3;
  am_cp : sb_cp_blkaddr r = sb_segment0_blkaddr r;
  am_sit : sb_sit_blkaddr r = u32 (sb_cp_blkaddr r + 512 * sb_segment_count_ckpt r);
  am_nat : sb_nat_blkaddr r = u32 (sb_sit_blkaddr r + 512 * sb_segment_count_sit r);
  am_ssa : sb_ssa_blkaddr r = u32 (sb_nat_blkaddr r + 512 * sb_segment_count_nat r);
  am_main : sb_main_blkaddr r = u32 (sb_ssa_blkaddr r + 512 * sb_segment_count_ssa r)
}.

Lemma u32_add_seg a n : u32 (a + u32 (Z.shiftl n 9)) = u32 (a + 512 * n).
Proof.
  rewrite Z.shiftl_mul_pow2 by lia. change (2 ^ 9) with 512. unfold u32.
  by rewrite Zplus_mod_idemp_r, (Z.mul_comm n).
Qed.

Lemma accepted_areas_mod ro werr r fx r' :
  sanity_check_raw_super ro werr r = (0, fx, r') -> areas_mod r'.
Proof.
  unfold sanity_check_raw_super, sanity_check_area_boundary, F2FS_MAX_LOG_SECTOR_SIZE, F2FS_MIN_LOG_SECTOR_SIZE.
  case_if; [done|]. case_if; [done|]. case_if; [done|]. case_if; [done|]. case_if; [done|].
  case_if; [done|]. case_if; [done|]. cbv zeta. rewrite E1, !u32_add_seg.
  do 6 (case_if; [done|]).
  intros Hr. assert (exists n, r' = set_segment_count n r) as [n ->].
  { revert Hr. case_if.
    - intros Hr. eexists. destruct ro, (c_true werr); inversion Hr; reflexivity.
    - intros Hr. exists (sb_segment_count r). inversion Hr. by destruct r'. }
  split; simpl; try done; try lia. all: repeat split; lia.
Qed.

Lemma read_one_areas b res d r : r_super (read_one b (res, d)).1 = Some r -> r_super res = None ->
  areas_mod r.
Proof.
  unfold read_one. destruct (sb_bread b d) as [raw|]; [|intros Hr Hn; simpl in Hr; congruence].
  destruct (sanity_check_raw_super _ _ raw) as [[bad fx] r'] eqn:Es.
  destruct (c_true bad) eqn:Eb; [intros Hr Hn; simpl in Hr; congruence|].
  intros Hr Hn. rewrite Hn in Hr. injection Hr as <-. apply c_true_false in Eb. subst bad.
  by apply accepted_areas_mod in Es.
Qed.

Lemma read_one_keeps b res d r : r_super res = Some r -> r_super (read_one b (res, d)).1 = Some r.
Proof.
  intros Hr. unfold read_one. destruct (sb_bread b d) as [raw|]; [|done].
  destruct (sanity_check_raw_super _ _ raw) as [[bad fx] r']. rewrite Hr. by destruct (c_true bad).
Qed.

Lemma read_super_areas d r : r_super (read_raw_super_block d).1 = Some r -> areas_mod r.
Proof.
  unfold read_raw_super_block. destruct (read_one 0 _) as [res1 d1] eqn:E1.
  destruct (read_one 1 (res1, d1)) as [res2 d2] eqn:E2. intros Hr.
  assert (H2 : r_super res2 = Some r) by (destruct (r_super res2); simpl in Hr; congruence).
  destruct (r_super res1) as [r1|] eqn:Er1.
  - pose proof (read_one_keeps 1 res1 d1 r1 Er1) as Hk. rewrite E2 in Hk. simpl in Hk.
    assert (r1 = r) as -> by congruence.
    apply (read_one_areas 0 (mk_sbres 0 None 0 false) d); [by rewrite E1|done].
  - apply (read_one_areas 1 res1 d1); [by rewrite E2|done].
Qed.

(** C26. Reading the super block.  Whatever the device holds, a super block that
    is accepted has the supported format and its areas lie one behind the other
    in 32-bit arithmetic.  If no area of a copy on the device ends behind the
    last 32-bit block address, then: when one of the two copies is read and
    passes the checks (possibly after the segment count has been corrected), the
    mount gets the first such copy, with its areas one behind the other and
    exactly as many segments as the areas have; on a writable device the
    corrected copy is on the device; if besides the sections make up the main
    area, the geometry the other components work with is well formed and their
    main area is the one of the super block; an error means that no copy is in
    order.  (Without the condition the end of the main area may wrap, see
    [wrapped_super_accepted].) *)
Theorem read_super_block_layout (d : sb_dev) :
  let '(res, d') := read_raw_super_block d in
  (forall r, r_super res = Some r -> areas_mod r) /\
  (dev_fits d ->
   read_result d res d' /\
   forall r, r_super res = Some r -> sections_ok r ->
     layout_ok (layout_of r) /\ main_blkaddr (layout_of r) = sb_main_blkaddr r).
Proof.
  pose proof (read_super_areas d) as Ha. pose proof (read_result_ok d) as Hr.
  destruct (read_raw_super_block d) as [res d']. simpl in Hr, Ha.
  split; [done|]. intros Hd. specialize (Hr Hd). split; [done|]. intros r Hs Hsec.
  unfold read_result in Hr. rewrite Hs in Hr. destruct Hr as (_ & _ & Hf & Hok & _). by apply layout_of_ok.
Qed.

Lemma dev_fits_commit b r d : is_copy b -> dev_fits d -> super_fits r -> dev_fits (__f2fs_commit_super b r d).2.
Proof.
  intros Hb [Hl Hf] Hr. split; [unfold __f2fs_commit_super; simpl; by rewrite zlen_zset|].
  intros b' r' Hr'. unfold sb_bread, __f2fs_commit_super in Hr'. simpl in Hr'.
  rewrite zget_zset in Hr' by (unfold is_copy in Hb; lia).
  case_if_in Hr'; [|by eapply Hf]. case_if_in Hr'; [done|]. by inversion Hr'; subst.
Qed.

(** What [f2fs_commit_super] leaves in the copies. *)
Lemma commit_super_copies recover v raw old d : is_copy v -> dev_fits d -> sb_bread v d = Some old ->
  sb_readonly d = false -> bdev_readonly d = false -> super_fits raw ->
  let '(err, d') := f2fs_commit_super recover v raw d in
  dev_fits d' /\
  (sb_bread v d' = Some old \/ (sb_bread v d' = Some raw \/ sb_bread v d' = None) /\ sb_bread (1 - v) d' = Some raw) /\
  (err = 0 -> sb_bread (1 - v) d' = Some raw /\ (recover = false -> sb_bread v d' = Some raw)) /\
  (sb_bread (1 - v) d' = None \/ sb_bread (1 - v) d' = Some raw).
Proof.
  intros Hv Hd Hold Hro Hbd Hraw. unfold f2fs_commit_super.
  assert ((if c_true v then 0 else 1) = 1 - v) as -> by (by destruct Hv as [->| ->]).
  assert (Hw : is_copy (1 - v)) by (unfold is_copy in *; lia).
  rewrite Hro, Hbd, andb_false_r. simpl orb. cbv iota.
  destruct (__f2fs_commit_super (1 - v) raw d) as [err d1] eqn:E1.
  assert (He1 : err = zget 0 (werrs d) (1 - v)) by (by inversion E1).
  assert (Hd1 : d1 = (__f2fs_commit_super (1 - v) raw d).2) by (by rewrite E1).
  assert (Hw1 : sb_bread (1 - v) d1 = if c_true err then None else Some raw).
  { rewrite Hd1, sb_bread_commit, Z.eqb_refl, He1 by (done || apply Hd). done. }
  assert (Hv1 : sb_bread v d1 = Some old).
  { rewrite Hd1, sb_bread_commit by (done || apply Hd). rewrite (proj2 (Z.eqb_neq _ _)); [done|].
    unfold is_copy in Hv. lia. }
  assert (Hf1 : dev_fits d1) by (rewrite Hd1; by apply dev_fits_commit). assert (Hl1 := proj1 Hf1).
  destruct (c_true err) eqn:Eerr.
  - rewrite orb_true_r. split_and!; [done|by left|intros ->; done|by left].
  - rewrite orb_false_r. apply c_true_false in Eerr. destruct recover.
    + split_and!; [done|by left|done|by right].
    + destruct (__f2fs_commit_super v raw d1) as [err2 d2] eqn:E2.
      assert (He2 : err2 = zget 0 (werrs d1) v) by (by inversion E2).
      assert (Hd2 : d2 = (__f2fs_commit_super v raw d1).2) by (by rewrite E2).
      assert (Hw2 : sb_bread (1 - v) d2 = Some raw).
      { rewrite Hd2, sb_bread_commit by done. rewrite (proj2 (Z.eqb_neq _ _)); [done|]. unfold is_copy in Hv. lia. }
      assert (Hv2 : sb_bread v d2 = if c_true err2 then None else Some raw).
      { rewrite Hd2, sb_bread_commit, Z.eqb_refl, He2 by done. done. }
      split_and!; [rewrite Hd2; by apply dev_fits_commit| |intros ->; done|by right].
      rewrite Hw2, Hv2. destruct (c_true err2); tauto.
Qed.

Lemma read_super_dev d : dev_fits d -> let d' := (read_raw_super_block d).2 in
  dev_fits d' /\ sb_readonly d' = sb_readonly d /\ bdev_readonly d' = bdev_readonly d.
Proof.
  intros Hd. unfold read_raw_super_block. set (res0 := mk_sbres 0 None 0 false).
  pose proof (rs_fits _ _ _ _ _ (read_one_step 0 res0 d (or_introl eq_refl) Hd)) as F0.
  pose proof (read_one_dev 0 res0 d) as [R0 B0]. destruct (read_one 0 (res0, d)) as [res1 d1]. simpl in F0, R0, B0.
  pose proof (rs_fits _ _ _ _ _ (read_one_step 1 res1 d1 (or_intror eq_refl) F0)) as F1.
  pose proof (read_one_dev 1 res1 d1) as [R1 B1]. destruct (read_one 1 (res1, d1)) as [res2 d2]. simpl in F1, R1, B1.
  destruct (r_super res2); simpl; split_and!; congruence || done.
Qed.

(** When both copies are in order or unreadable, one of them is mounted. *)
Lemma read_one_of d r1 r2 : dev_fits d -> super_ok r1 -> super_ok r2 ->
  (forall b, is_copy b -> sb_bread b d = None \/ sb_bread b d = Some r1 \/ sb_bread b d = Some r2) ->
  (exists b, is_copy b /\ sb_bread b d <> None) ->
  exists r b, r_super (read_raw_super_block d).1 = Some r /\ is_copy b /\ sb_bread b d = Some r /\ (r = r1 \/ r = r2).
Proof.
  intros Hd H1 H2 Hc (b & Hb & Hne). pose proof (read_result_ok d Hd) as Hres. unfold read_result in Hres.
  destruct (read_raw_super_block d) as [res d']. simpl in *. destruct (r_super res) as [r|].
  - destruct Hres as (_ & Hv & _ & _ & (raw & n & Hr & _ & _ & Hsame) & _). exists r, (r_valid res).
    destruct (Hc _ Hv) as [Hx|[Hx|Hx]]; rewrite Hx in Hr; inversion Hr; subst; rewrite (Hsame ltac:(done)), Hx; tauto.
  - exfalso. destruct Hres as [_ Hno].
    destruct (Hc _ Hb) as [Hx|[Hx|Hx]]; [done|by apply (Hno b r1)|by apply (Hno b r2)].
Qed.

(** C13. A super block that is being replaced is never lost: on a writable
    volume, whatever writes of [f2fs_commit_super] fail, a later mount finds a
    super block in order, the old one or the new one; after a success the new
    one is in the backup copy, and after a full commit it is the one mounted. *)
Theorem super_block_survives (recover : bool) (raw : f2fs_super_block) (d : sb_dev) :
  dev_fits d -> sb_readonly d = false -> bdev_readonly d = false -> super_fits raw -> super_ok raw ->
  let '(res, d1) := read_raw_super_block d in
  forall old, r_super res = Some old ->
  let '(err, d2) := f2fs_commit_super recover (r_valid res) raw d1 in
  exists r, r_super (read_raw_super_block d2).1 = Some r /\ (r = old \/ r = raw) /\
    (err = 0 -> sb_bread (1 - r_valid res) d2 = Some raw /\ (recover = false -> r = raw)).
Proof.
  intros Hd Hro Hbd Hraw Hok. pose proof (read_result_ok d Hd) as Hres. pose proof (read_super_dev d Hd) as Hdev.
  destruct (read_raw_super_block d) as [res d1]. cbv zeta in Hdev. simpl in Hres, Hdev. intros old Hold.
  unfold read_result in Hres. rewrite Hold in Hres.
  destruct Hres as (_ & Hv & _ & Hok' & _ & _ & Hd1), Hdev as (Hf1 & Hro1 & Hbd1). specialize (Hd1 Hro Hbd).
  pose proof (commit_super_copies recover (r_valid res) raw old d1 Hv Hf1 Hd1 ltac:(congruence) ltac:(congruence) Hraw) as Hc.
  destruct (f2fs_commit_super recover (r_valid res) raw d1) as [err d2]. destruct Hc as (Hf2 & C1 & C2 & C3).
  set (v := r_valid res) in *. assert (Hw : is_copy (1 - v)) by (unfold is_copy in *; lia).
  assert (Hb : forall b, is_copy b -> b = v \/ b = 1 - v) by (unfold is_copy in *; lia).
  destruct (read_one_of d2 old raw Hf2 Hok' Hok) as (r & b & Hr & Hcb & Hrb & Hor).
  - intros b Hcb. destruct (Hb b Hcb) as [-> | ->]; [|tauto]. destruct C1 as [C1|[[C1|C1] _]]; rewrite C1; tauto.
  - destruct C1 as [C1|[_ C1]]; [exists v|exists (1 - v)]; (split; [done|]); by rewrite C1.
  - exists r. split_and!; [done|done|]. intros He. destruct (C2 He) as [C4 C5]. split; [done|]. intros Hrec.
    specialize (C5 Hrec). destruct (Hb b Hcb) as [-> | ->]; congruence.
Qed.

(** The ends of the main area and of the volume are computed in 32 bits:
    a damaged super block whose main area is longer than 2^32 blocks wraps
    around and is accepted, with a main area far behind the last segment of
    the volume. *)
Theorem wrapped_super_accepted (r : f2fs_super_block) (ro : bool) (werr : Z) :
  super_fits r -> super_ok r ->
  let r' := mk_super (sb_magic r) (sb_log_sectorsize r) (sb_log_sectors_per_block r) (sb_log_blocksize r)
    (sb_log_blocks_per_seg r) (sb_segs_per_sec r) (sb_secs_per_zone r) (sb_section_count r) (sb_segment_count r)
    (sb_segment_count_ckpt r) (sb_segment_count_sit r) (sb_segment_count_nat r) (sb_segment_count_ssa r)
    (sb_segment_count_main r + 2 ^ 23) (sb_segment0_blkaddr r) (sb_cp_blkaddr r) (sb_sit_blkaddr r)
    (sb_nat_blkaddr r) (sb_ssa_blkaddr r) (sb_main_blkaddr r) (sb_root_ino r) (sb_node_ino r) (sb_meta_ino r)
    (sb_cp_payload r) in
  sanity_check_raw_super ro werr r' = (0, Fix_none, r') /\ sb_segment_count r' < MAIN_SEGS (init_sb_info r').
Proof.
  intros Hf Hok r'. destruct (fits_counts r Hf) as (?&?&?&?&?&?). pose proof (sf_areas r Hf) as Ha.
  pose proof (sf_seg0 r Hf) as Hs0. pose proof Hok as (Hfo & _ & Hc & _).
  assert (Hsame : u32 (Z.shiftl (sb_segment_count_main r + 2 ^ 23) (sb_log_blocks_per_seg r)) =
                  u32 (Z.shiftl (sb_segment_count_main r) (sb_log_blocks_per_seg r))).
  { rewrite (fo_seg r Hfo), !Z.shiftl_mul_pow2, Z.mul_add_distr_r by lia. change (2 ^ 23 * 2 ^ 9) with (1 * 2 ^ 32).
    unfold u32. by rewrite Z.mod_add. }
  pose proof (sanity_check_complete ro werr r Hf Hok) as Hacc. split.
  - unfold sanity_check_raw_super, sanity_check_area_boundary in *. unfold r' in *. simpl in *. rewrite Hsame.
    do 13 (case_if_in Hacc; [discriminate|]). case_if_in Hacc; [|done]. exfalso.
    destruct ro, (c_true werr); discriminate.
  - unfold MAIN_SEGS, r'. simpl. unfold count_exact in Hc.
    change (2 ^ 23) with F2FS_MAX_SEGMENT. destruct Hok as (_ & _ & _ & Hm). change F2FS_MAX_SEGMENT with 8388608 in *. lia.
Qed.

(** ** Witnesses *)

(** A volume of 23 segments with 16 in the main area, two to a section. *)
Definition super0 : f2fs_super_block :=
  mk_super F2FS_SUPER_MAGIC 9 3 12 9 2 1 8 23 2 2 2 1 16 512 512 1536 2560 3584 4096 3 1 2 0.

(** The first copy is damaged, the segment count of the second is wrong. *)
Definition sb_dev0 : sb_dev :=
  mk_sbdev [Some (set_segment_count 2 super0); Some (set_segment_count 40 super0)] [0; 0] false false false.

Lemma super0_fits n : 0 <= n <= 40 -> super_fits (set_segment_count n super0).
Proof. intros Hn. split; simpl; try lia. repeat constructor; lia. Qed.

Lemma super0_ok : super_ok super0.
Proof. split_and!; try split; try reflexivity; unfold F2FS_MAX_SEGMENT; simpl; try lia; done. Qed.

Lemma sb_dev0_fits : dev_fits sb_dev0.
Proof.
  split; [done|]. intros b r. unfold sb_bread, zget, sb_dev0. simpl. case_if; [|done].
  destruct (Z.to_nat b) as [|[|n]]; simpl; [intros [= <-]; by apply super0_fits..|by destruct n].
Qed.

Lemma read_super_block_layout_witness :
  r_super (read_raw_super_block sb_dev0).1 = Some super0 /\ r_recovery (read_raw_super_block sb_dev0).1 = true /\
  sb_bread 1 (read_raw_super_block sb_dev0).2 = Some super0 /\ areas_mod super0 /\ layout_ok (layout_of super0).
Proof.
  pose proof (read_super_block_layout sb_dev0) as H. split; [reflexivity|]. split; [reflexivity|].
  split; [reflexivity|]. destruct (read_raw_super_block sb_dev0) as [res d'] eqn:E.
  destruct H as [Ha H]. split; [apply Ha; by inversion E|].
  apply (proj2 (H sb_dev0_fits) super0); [by inversion E|]. split; simpl; lia.
Defined.

Lemma super_block_survives_witness :
  exists r, r_super (read_raw_super_block (f2fs_commit_super true 1 super0 (read_raw_super_block sb_dev0).2).2).1 = Some r /\
    (r = super0 \/ r = super0).
Proof.
  pose proof (super_block_survives true super0 sb_dev0 sb_dev0_fits eq_refl eq_refl (super0_fits 23 ltac:(lia)) super0_ok) as H.
  destruct (read_raw_super_block sb_dev0) as [res d1] eqn:E. assert (res = mk_sbres 0 (Some super0) 1 true) as -> by (by inversion E).
  specialize (H super0 eq_refl). change (r_valid (mk_sbres 0 (Some super0) 1 true)) with 1 in H. simpl snd.
  destruct (f2fs_commit_super true 1 super0 d1) as [err d2]. destruct H as (r & Hr & Hor & _). by exists r.
Defined.

Lemma wrapped_super_accepted_witness :
  (sanity_check_raw_super false 0 (mk_super F2FS_SUPER_MAGIC 9 3 12 9 2 1 8 23 2 2 2 1 (16 + 2 ^ 23) 512 512 1536 2560
     3584 4096 3 1 2 0)).1.1 = 0.
Proof.
  pose proof (wrapped_super_accepted super0 false 0 (super0_fits 23 ltac:(lia)) super0_ok) as [H _].
  exact (f_equal (fun x => x.1.1) H).
Defined.
