(* ===== verification/Ckpt.v ===== *)
(** * Checkpoint blocks (checkpoint.c, f2fs.h, super.c)

    The fields of a checkpoint block, when a checkpoint pack is valid, and the
    choice of the pack a mount uses.  A checkpoint pack occupies the first
    blocks of one of two segments; its first and its last block are copies of
    the checkpoint block. *)

From S2P Require Import Prelude Blocks FreeSeg Sit Super.
From Stdlib Require Import ZArith Lia.
From stdpp Require Import base numbers option list.
#[local] Open Scope Z_scope.
#[local] Open Scope c_scope.

(** ** Data *)

(** Offsets of the fields of [struct f2fs_checkpoint]. *)
Definition checkpoint_ver : Z := 0.
Definition user_block_count_off : Z := 8.
Definition valid_block_count_off : Z := 16.
Definition rsvd_segment_count : Z := 24.
Definition overprov_segment_count : Z := 28.
Definition free_segment_count : Z := 32.
Definition cur_node_segno (i : Z) : Z := 36 + 4 * i.
Definition cur_node_blkoff (i : Z) : Z := 68 + 2 * i.
Definition cur_data_segno (i : Z) : Z := 84 + 4 * i.
Definition cur_data_blkoff (i : Z) : Z := 116 + 2 * i.
Definition ckpt_flags : Z := 132.
Definition cp_pack_total_block_count : Z := 136.
Definition cp_pack_start_sum : Z := 140.
Definition valid_node_count_off : Z := 144.
Definition valid_inode_count_off : Z := 148.
Definition next_free_nid_off : Z := 152.
Definition sit_ver_bitmap_bytesize : Z := 156.
Definition nat_ver_bitmap_bytesize : Z := 160.
Definition checksum_offset : Z := 164.
Definition elapsed_time : Z := 168.
Definition alloc_type_off (i : Z) : Z := 176 + i.
Definition sit_nat_version_bitmap : Z := 192.

Definition CP_NOCRC_RECOVERY_FLAG : Z := 0x200.
Definition CP_TRIMMED_FLAG : Z := 0x100.
Definition CP_NAT_BITS_FLAG : Z := 0x80.
Definition CP_CRC_RECOVERY_FLAG : Z := 0x40.
Definition CP_FASTBOOT_FLAG : Z := 0x20.
Definition CP_FSCK_FLAG : Z := 0x10.
Definition CP_ERROR_FLAG : Z := 0x8.
Definition CP_COMPACT_SUM_FLAG : Z := 0x4.
Definition CP_ORPHAN_PRESENT_FLAG : Z := 0x2.
Definition CP_UMOUNT_FLAG : Z := 0x1.

Definition F2FS_CP_PACKS : Z := 2.
Definition F2FS_MIN_SEGMENTS : Z := 9.
Definition NR_CURSEG_NODE_TYPE : Z := 3.
Definition NR_CURSEG_DATA_TYPE : Z := 3.

(** What a read of each block address gives. *)
Definition disk := Z -> list Z.
Definition get_meta_page (d : disk) (addr : Z) : list Z := d addr.

(** The writes [out] in their order. *)
Definition disk_write (out : list (Z * list Z)) (d : disk) : disk :=
  foldl (fun d ab => fun a => if a =? ab.1 then ab.2 else d a) d out.

(** [sbi->raw_super], [sbi->ckpt] (1 + cp_payload blocks), [sbi->cur_cp_pack]. *)
Record cp_info := mk_cpinfo {
  raw_super : f2fs_super_block;
  ckpt : list Z;
  cur_cp_pack : Z
}.
Definition set_ckpt (x : list Z) (cp : cp_info) : cp_info := mk_cpinfo (raw_super cp) x (cur_cp_pack cp).
Definition set_cur_cp_pack (x : Z) (cp : cp_info) : cp_info := mk_cpinfo (raw_super cp) (ckpt cp) x.

(** ** Accessors (f2fs.h) *)

Definition cur_cp_version (b : list Z) : Z := le64_at checkpoint_ver b.
Definition cur_cp_crc (b : list Z) : Z := le32_at (le32_at checksum_offset b) b.

Definition __is_set_ckpt_flags (b : list Z) (f : Z) : bool := c_true (le32_at ckpt_flags b .& f).
Definition __set_ckpt_flags (f : Z) (b : list Z) : list Z := set_le32 ckpt_flags (le32_at ckpt_flags b .| f) b.
Definition __clear_ckpt_flags (f : Z) (b : list Z) : list Z :=
  set_le32 ckpt_flags (Z.ldiff (le32_at ckpt_flags b) f) b.

Definition is_set_ckpt_flags (cp : cp_info) (f : Z) : bool := __is_set_ckpt_flags (ckpt cp) f.
Definition set_ckpt_flags (f : Z) (cp : cp_info) : cp_info := set_ckpt (__set_ckpt_flags f (ckpt cp)) cp.
Definition clear_ckpt_flags (f : Z) (cp : cp_info) : cp_info := set_ckpt (__clear_ckpt_flags f (ckpt cp)) cp.
Definition f2fs_cp_error (cp : cp_info) : bool := is_set_ckpt_flags cp CP_ERROR_FLAG.
Definition f2fs_stop_checkpoint (cp : cp_info) : cp_info := set_ckpt_flags CP_ERROR_FLAG cp.

Definition __cp_payload (cp : cp_info) : Z := sb_cp_payload (raw_super cp).

(** The place of a version bitmap in the buffer. *)
Definition SIT_BITMAP : bool := false.
Definition NAT_BITMAP : bool := true.
Definition __bitmap_size (cp : cp_info) (nat : bool) : Z :=
  if nat then le32_at nat_ver_bitmap_bytesize (ckpt cp) else le32_at sit_ver_bitmap_bytesize (ckpt cp).
Definition __bitmap_ptr (cp : cp_info) (nat : bool) : Z :=
  if __cp_payload cp >? 0 then (if nat then sit_nat_version_bitmap else F2FS_BLKSIZE)
  else sit_nat_version_bitmap + (if nat then le32_at sit_ver_bitmap_bytesize (ckpt cp) else 0).

Definition __start_cp_addr (cp : cp_info) : Z :=
  let start_addr := sb_cp_blkaddr (raw_super cp) in
  if cur_cp_pack cp =? 2 then u32 (start_addr + blocks_per_seg) else start_addr.
Definition __start_cp_next_addr (cp : cp_info) : Z :=
  let start_addr := sb_cp_blkaddr (raw_super cp) in
  if cur_cp_pack cp =? 1 then u32 (start_addr + blocks_per_seg) else start_addr.
Definition __set_cp_next_pack (cp : cp_info) : cp_info :=
  set_cur_cp_pack (if cur_cp_pack cp =? 1 then 2 else 1) cp.
Definition __start_sum_addr (cp : cp_info) : Z := le32_at cp_pack_start_sum (ckpt cp).

(** [(long long)(a - b) > 0] of two 64-bit versions. *)
Definition ver_after (a b : Z) : bool := 0 <? s64 (u64 (a - b)).

(** ** Checks *)

(** The checkpoint fields against the super block (super.c). *)
Definition curseg_bad (main_segs : Z) (segno blkoff : Z) : bool := (main_segs <=? segno) || (blocks_per_seg <=? blkoff).

Definition sanity_check_ckpt (cp : cp_info) : Z :=
  let sb := raw_super cp in
  let total := sb_segment_count sb in
  let reserved_segments := le32_at rsvd_segment_count (ckpt cp) in
  let ovp_segments := le32_at overprov_segment_count (ckpt cp) in
  let fsmeta := u32 (u32 (u32 (u32 (sb_segment_count_ckpt sb + sb_segment_count_sit sb) + sb_segment_count_nat sb) +
                          reserved_segments) + sb_segment_count_ssa sb) in
  let main_segs := sb_segment_count_main sb in
  if total <=? fsmeta then 1
  else if (fsmeta <? F2FS_MIN_SEGMENTS) || (ovp_segments =? 0) || (reserved_segments =? 0) then 1
  else if existsb (fun i => curseg_bad main_segs (le32_at (cur_node_segno i) (ckpt cp)) (le16_at (cur_node_blkoff i) (ckpt cp)))
            [0; 1; 2] then 1
  else if existsb (fun i => curseg_bad main_segs (le32_at (cur_data_segno i) (ckpt cp)) (le16_at (cur_data_blkoff i) (ckpt cp)))
            [0; 1; 2] then 1
  else if f2fs_cp_error cp then 1
  else 0.

Section ckpt.
(** [f2fs_crc32] of a sequence of bytes: the crypto library's. *)
Context (f2fs_crc32 : list Z -> Z).

Definition f2fs_crc_valid (blk_crc : Z) (b : list Z) (size : Z) : bool := f2fs_crc32 (get_bytes 0 size b) =? blk_crc.

(** The version, [None] for -EINVAL. *)
Definition get_checkpoint_version (d : disk) (cp_addr : Z) : option Z :=
  let cp_block := get_meta_page d cp_addr in
  let crc_offset := le32_at checksum_offset cp_block in
  if crc_offset >? F2FS_BLKSIZE - 4 then None
  else if negb (f2fs_crc_valid (cur_cp_crc cp_block) cp_block crc_offset) then None
  else Some (cur_cp_version cp_block).

(** The first block of the pack and its version. *)
Definition validate_checkpoint (d : disk) (cp_addr : Z) : option (list Z * Z) :=
  match get_checkpoint_version d cp_addr with
  | None => None
  | Some pre_version =>
    let cp_block := get_meta_page d cp_addr in
    let cp_addr2 := u32 (cp_addr + u32 (le32_at cp_pack_total_block_count cp_block - 1)) in
    match get_checkpoint_version d cp_addr2 with
    | None => None
    | Some cur_version => if cur_version =? pre_version then Some (cp_block, cur_version) else None
    end
  end.

(** [oom]: the buffer cannot be allocated.  The other blocks of the buffer
    are read from the pack without a check. *)
Definition get_valid_checkpoint (oom : bool) (sb : f2fs_super_block) (d : disk) : Z * option cp_info :=
  let cp_blks := 1 + sb_cp_payload sb in
  let start1 := sb_cp_blkaddr sb in
  let start2 := u32 (start1 + Z.shiftl 1 (sb_log_blocks_per_seg sb)) in
  if oom then (- ENOMEM, None)
  else
    let cp1 := validate_checkpoint d start1 in
    let cp2 := validate_checkpoint d start2 in
    let cur :=
      match cp1, cp2 with
      | Some (b1, v1), Some (b2, v2) => if ver_after v2 v1 then Some (b2, 2) else Some (b1, 1)
      | Some (b1, _), None => Some (b1, 1)
      | None, Some (b2, _) => Some (b2, 2)
      | None, None => None
      end in
    match cur with
    | None => (- EINVAL, None)
    | Some (cp_block, pack) =>
      let start := if pack =? 1 then start1 else start2 in
      let head := mk_cpinfo sb cp_block pack in
      if c_true (sanity_check_ckpt head) then (- EINVAL, None)
      else (0, Some (set_ckpt (cp_block ++ concat (map (fun i => get_meta_page d (u32 (start + i))) (seqZ 1 (cp_blks - 1)))) head))
    end.

End ckpt.

(** ** Blocks on the device *)

(** The device holds the blocks [out]. *)
Definition on_disk (d : disk) (out : list (Z * list Z)) : Prop := Forall (fun ab => d ab.1 = ab.2) out.

Lemma read_blocks {A} (f : list Z -> A) (g : Z -> Z) (d : disk) out l :
  on_disk d out -> map fst out = map g l -> map (fun i => f (get_meta_page d (g i))) l = map (fun ab => f ab.2) out.
Proof.
  intros Ho. revert l. induction Ho as [|[a b] out Hab Ho IH]; intros [|i l] Hl; simpl in *; try done.
  inversion Hl. rewrite <- (IH l) by done. unfold get_meta_page at 1. f_equal. congruence.
Qed.
