(* ===== verification/Orphan.v ===== *)
(** * Orphan inodes and the other lists of inode numbers (checkpoint.c)

    The lists of inode numbers kept for checkpoints and fsync, the reservation
    of orphans, and the orphan blocks of a checkpoint pack: written at
    checkpoint, read and processed at mount. *)

From S2P Require Import Prelude Bits Blocks FreeSeg Sit Super Ckpt.
From Stdlib Require Import ZArith Lia.
From stdpp Require Import base numbers option gmap list.
#[local] Open Scope Z_scope.
#[local] Open Scope c_scope.

(** ** Data *)

Definition ORPHAN_INO : Z := 0.
Definition APPEND_INO : Z := 1.
Definition UPDATE_INO : Z := 2.
Definition TRANS_DIR_INO : Z := 3.
Definition FLUSH_INO : Z := 4.
Definition MAX_INO_ENTRY : Z := 5.

(** The radix tree gives the [dirty_device] bit map (four bytes) of an entry,
    the list the order of the entries. *)
Record inode_management := mk_im {
  ino_root : gmap Z (list Z);
  ino_list : list Z;
  ino_num : Z
}.
Definition im0 : inode_management := mk_im ∅ [] 0.

Record ino_state := mk_ino {
  im : list inode_management;
  max_orphans : Z;
  ino_bug : bool
}.
Definition get_im (type : Z) (s : ino_state) : inode_management := zget im0 (im s) type.
Definition put_im (type : Z) (m : inode_management) (s : ino_state) : ino_state :=
  mk_ino (zset (im s) type m) (max_orphans s) (ino_bug s).
Definition set_ino_bug (b : bool) (s : ino_state) : ino_state := mk_ino (im s) (max_orphans s) (ino_bug s || b).

(** ** Operations *)

Definition __add_ino_entry (ino devidx type : Z) (s : ino_state) : ino_state :=
  let m := get_im type s in
  let m := match ino_root m !! ino with
           | Some _ => m
           | None => mk_im (<[ino := [0; 0; 0; 0]]> (ino_root m)) (ino_list m ++ [ino])
                       (if type =? ORPHAN_INO then ino_num m else u64 (ino_num m + 1))
           end in
  let m := if type =? FLUSH_INO
           then mk_im (alter (f2fs_set_bit devidx) ino (ino_root m)) (ino_list m) (ino_num m)
           else m in
  put_im type m s.

Definition del_ino (ino : Z) (m : inode_management) : inode_management :=
  mk_im (delete ino (ino_root m)) (filter (fun i => i <> ino) (ino_list m)) (u64 (ino_num m - 1)).

Definition __remove_ino_entry (ino type : Z) (s : ino_state) : ino_state :=
  match ino_root (get_im type s) !! ino with
  | Some _ => put_im type (del_ino ino (get_im type s)) s
  | None => s
  end.

Definition add_ino_entry (ino type : Z) (s : ino_state) : ino_state := __add_ino_entry ino 0 type s.
Definition remove_ino_entry (ino type : Z) (s : ino_state) : ino_state := __remove_ino_entry ino type s.
Definition exist_written_data (ino mode : Z) (s : ino_state) : bool := bool_decide (is_Some (ino_root (get_im mode s) !! ino)).
Definition set_dirty_device (ino devidx type : Z) (s : ino_state) : ino_state := __add_ino_entry ino devidx type s.
Definition is_dirty_device (ino devidx type : Z) (s : ino_state) : bool :=
  match ino_root (get_im type s) !! ino with
  | Some dev => c_true (f2fs_test_bit devidx dev)
  | None => false
  end.

Definition release_list (type : Z) (s : ino_state) : ino_state :=
  put_im type (foldl (fun m ino => del_ino ino m) (get_im type s) (ino_list (get_im type s))) s.

Definition release_ino_entry (all : bool) (s : ino_state) : ino_state :=
  foldl (fun s type => release_list type s) s
    (if all then [ORPHAN_INO; APPEND_INO; UPDATE_INO; TRANS_DIR_INO; FLUSH_INO]
     else [APPEND_INO; UPDATE_INO; TRANS_DIR_INO; FLUSH_INO]).

(** [fault]: the injected fault FAULT_ORPHAN. *)
Definition acquire_orphan_inode (fault : bool) (s : ino_state) : Z * ino_state :=
  let m := get_im ORPHAN_INO s in
  if fault then (- ENOSPC, s)
  else if max_orphans s <=? ino_num m then (- ENOSPC, s)
  else (0, put_im ORPHAN_INO (mk_im (ino_root m) (ino_list m) (ino_num m + 1)) s).

Definition release_orphan_inode (s : ino_state) : ino_state :=
  let m := get_im ORPHAN_INO s in
  put_im ORPHAN_INO (mk_im (ino_root m) (ino_list m) (u64 (ino_num m - 1))) (set_ino_bug (ino_num m =? 0) s).

(** Without [update_inode_page], which is [Inode]'s. *)
Definition add_orphan_inode (ino : Z) (s : ino_state) : ino_state := __add_ino_entry ino 0 ORPHAN_INO s.
Definition remove_orphan_inode (ino : Z) (s : ino_state) : ino_state := __remove_ino_entry ino ORPHAN_INO s.

Definition NR_CURSEG_TYPE : Z := 6.
Definition F2FS_ORPHANS_PER_BLOCK : Z := 1020.

Definition init_ino_entry_info (cp : cp_info) : ino_state :=
  mk_ino (replicate 5 im0)
    (u32 (u32 (blocks_per_seg - F2FS_CP_PACKS - NR_CURSEG_TYPE - __cp_payload cp) * F2FS_ORPHANS_PER_BLOCK)) false.

(** ** Orphan blocks *)

Definition GET_ORPHAN_BLOCKS (n : Z) : Z := (n + F2FS_ORPHANS_PER_BLOCK - 1) / F2FS_ORPHANS_PER_BLOCK.

(** Offsets of the fields of [struct f2fs_orphan_block]. *)
Definition orphan_ino (j : Z) : Z := 4 * j.
Definition orphan_blk_addr : Z := 4084.
Definition orphan_blk_count : Z := 4086.
Definition orphan_entry_count : Z := 4088.

(** The state of the loop of [write_orphan_inodes]; [ow_page]: the block being
    filled and its address; [ow_out]: the blocks made dirty. *)
Record orphan_writer := mk_ow {
  ow_page : option (Z * list Z);
  ow_nentries : Z;
  ow_index : Z;
  ow_next : Z;
  ow_out : list (Z * list Z)
}.

Definition close_orphan_block (orphan_blocks nentries index : Z) (page : list Z) : list Z :=
  set_le32 orphan_entry_count nentries (set_le16 orphan_blk_count orphan_blocks (set_le16 orphan_blk_addr index page)).

Definition write_orphan (orphan_blocks : Z) (w : orphan_writer) (ino : Z) : orphan_writer :=
  let '(addr, page, next) :=
    match ow_page w with
    | Some (addr, page) => (addr, page, ow_next w)
    | None => (ow_next w, zero_block, u32 (ow_next w + 1))
    end in
  let page := set_le32 (orphan_ino (ow_nentries w)) ino page in
  let nentries := ow_nentries w + 1 in
  if nentries =? F2FS_ORPHANS_PER_BLOCK
  then mk_ow None 0 (u16 (ow_index w + 1)) next
         (ow_out w ++ [(addr, close_orphan_block orphan_blocks nentries (ow_index w) page)])
  else mk_ow (Some (addr, page)) nentries (ow_index w) next (ow_out w).

(** The blocks written, with their addresses. *)
Definition write_orphan_inodes (s : ino_state) (start_blk : Z) : list (Z * list Z) :=
  let m := get_im ORPHAN_INO s in
  let orphan_blocks := u16 (GET_ORPHAN_BLOCKS (ino_num m)) in
  let w := foldl (write_orphan orphan_blocks) (mk_ow None 0 1 start_blk []) (ino_list m) in
  match ow_page w with
  | Some (addr, page) => ow_out w ++ [(addr, close_orphan_block orphan_blocks (ow_nentries w) (ow_index w) page)]
  | None => ow_out w
  end.

(** What becomes of an orphan inode at mount: it cannot be read, it is still
    there after it has been truncated and released, or it is gone. *)
Inductive orphan_fate := Iget_error (e : Z) | Orphan_kept | Orphan_gone.

(** The inode lists [f2fs_evict_inode] removes an unlinked inode from. *)
Definition evict_ino_entries (ino : Z) (s : ino_state) : ino_state :=
  remove_ino_entry ino FLUSH_INO (remove_ino_entry ino UPDATE_INO (remove_ino_entry ino APPEND_INO s)).

(** The result, and whether SBI_NEED_FSCK is set. *)
Definition recover_orphan_inode (fault : bool) (fate : Z -> orphan_fate) (ino : Z) (s : ino_state) : Z * bool * ino_state :=
  let '(err, s) := acquire_orphan_inode fault s in
  if c_true err then (err, true, s)
  else
    let s := __add_ino_entry ino 0 ORPHAN_INO s in
    match fate ino with
    | Iget_error e => (e, false, set_ino_bug (e =? - ENOENT) s)
    | Orphan_kept => (- EIO, true, evict_ino_entries ino s)
    | Orphan_gone => (0, false, __remove_ino_entry ino ORPHAN_INO (evict_ino_entries ino s))
    end.

(** The inodes of an orphan block, as many as its entry count says. *)
Definition orphan_inos (b : list Z) : list Z :=
  map (fun j => le32_at (orphan_ino j) b) (seqZ 0 (le32_at orphan_entry_count b)).

(** The result, SBI_NEED_FSCK, the state and the inodes that are gone. *)
Fixpoint recover_orphans (fate : Z -> orphan_fate) (inos : list Z) (s : ino_state) : Z * bool * ino_state * list Z :=
  match inos with
  | [] => (0, false, s, [])
  | ino :: inos =>
    let '(err, fsck, s) := recover_orphan_inode false fate ino s in
    if c_true err then (err, fsck, s, [])
    else let '(err, fsck, s, gone) := recover_orphans fate inos s in (err, fsck, s, ino :: gone)
  end.

Definition recover_orphan_inodes (fate : Z -> orphan_fate) (cp : cp_info) (d : disk) (s : ino_state)
    : Z * bool * cp_info * ino_state * list Z :=
  if negb (is_set_ckpt_flags cp CP_ORPHAN_PRESENT_FLAG) then (0, false, cp, s, [])
  else
    let start_blk := u32 (__start_cp_addr cp + 1 + __cp_payload cp) in
    let orphan_blocks := u32 (__start_sum_addr cp - 1 - __cp_payload cp) in
    let inos := concat (map (fun i => orphan_inos (get_meta_page d (u32 (start_blk + i)))) (seqZ 0 orphan_blocks)) in
    let '(err, fsck, s, gone) := recover_orphans fate inos s in
    (err, fsck, if c_true err then cp else clear_ckpt_flags CP_ORPHAN_PRESENT_FLAG cp, s, gone).

(** ** The lists *)

(** [res]: the orphans that are reserved but not yet on the list. *)
Record im_wf (res : Z) (m : inode_management) : Prop := {
  im_nodup : NoDup (ino_list m);
  im_dom : forall ino, is_Some (ino_root m !! ino) <-> ino ∈ ino_list m;
  im_inos : Forall (fun ino => 0 <= ino < 2 ^ 32) (ino_list m);
  im_num : ino_num m = zlen (ino_list m) + res;
  im_res : 0 <= res;
  im_bound : ino_num m < 2 ^ 64
}.

Lemma get_put_im t t' m s : 0 <= t < zlen (im s) -> get_im t' (put_im t m s) = if t =? t' then m else get_im t' s.
Proof. intros Ht. unfold get_im, put_im. simpl. by rewrite zget_zset. Qed.

Lemma put_im_len t m s : zlen (im (put_im t m s)) = zlen (im s).
Proof. unfold put_im. simpl. apply zlen_zset. Qed.

Lemma filter_ne_notin (x : Z) (l : list Z) : x ∉ l -> filter (fun i => i <> x) l = l.
Proof.
  induction l as [|y l IH]; [done|]. rewrite not_elem_of_cons. intros [Hy Hl].
  rewrite filter_cons_True by congruence. by rewrite IH.
Qed.

Lemma zlen_filter_ne (x : Z) (l : list Z) : NoDup l -> x ∈ l -> zlen (filter (fun i => i <> x) l) = zlen l - 1.
Proof.
  induction l as [|y l IH]; [by rewrite elem_of_nil|]. rewrite NoDup_cons, elem_of_cons. intros [Hy Hl] Hx.
  unfold zlen in *. destruct (decide (y = x)) as [->|Hne].
  - rewrite filter_cons_False by tauto. rewrite filter_ne_notin by done. simpl. lia.
  - rewrite filter_cons_True by done. simpl. rewrite Nat2Z.inj_succ, IH; [lia|done|]. destruct Hx; [congruence|done].
Qed.

Lemma inos_bound res m : im_wf res m -> zlen (ino_list m) <= 2 ^ 32.
Proof.
  intros [H1 _ H2 _ _ _]. unfold zlen. rewrite <- (size_list_to_set (C:=gset Z)) by done.
  apply range_size; [lia|]. intros x Hx%elem_of_list_to_set. rewrite Forall_forall in H2. auto.
Qed.

Lemma add_wf res ino m : im_wf res m -> 0 <= ino < 2 ^ 32 -> ino_root m !! ino = None -> res = 0 ->
  im_wf res (mk_im (<[ino := [0; 0; 0; 0]]> (ino_root m)) (ino_list m ++ [ino]) (u64 (ino_num m + 1))).
Proof.
  intros Hm Hi Hn ->. pose proof (inos_bound _ _ Hm). destruct Hm as [H1 H2 H6 H3 H4 H5].
  assert (Hni : ino ∉ ino_list m) by (rewrite <- H2, Hn; by intros []).
  pose proof (zlen_nonneg (ino_list m)). split; simpl; [..|done|].
  - apply NoDup_app. split_and!; [done| |apply NoDup_singleton]. intros x Hx ->%list_elem_of_singleton. done.
  - intros i. rewrite elem_of_app, list_elem_of_singleton, <- H2.
    destruct (decide (i = ino)) as [->|Hne]; [rewrite lookup_insert_eq; naive_solver|].
    rewrite lookup_insert_ne by done. naive_solver.
  - apply Forall_app. split; [done|]. by apply Forall_singleton.
  - rewrite u64_small, zlen_app by lia. unfold zlen in *. simpl. lia.
  - apply u64_range.
Qed.

Lemma add_reserved_wf res ino m : im_wf (res + 1) m -> 0 <= ino < 2 ^ 32 -> 0 <= res -> ino_root m !! ino = None ->
  im_wf res (mk_im (<[ino := [0; 0; 0; 0]]> (ino_root m)) (ino_list m ++ [ino]) (ino_num m)).
Proof.
  intros [H1 H2 H6 H3 H4 H5] Hi Hr Hn. assert (Hni : ino ∉ ino_list m) by (rewrite <- H2, Hn; by intros []).
  split; simpl; [..|done|done].
  - apply NoDup_app. split_and!; [done| |apply NoDup_singleton]. intros x Hx ->%list_elem_of_singleton. done.
  - intros i. rewrite elem_of_app, list_elem_of_singleton, <- H2.
    destruct (decide (i = ino)) as [->|Hne]; [rewrite lookup_insert_eq; naive_solver|].
    rewrite lookup_insert_ne by done. naive_solver.
  - apply Forall_app. split; [done|]. by apply Forall_singleton.
  - rewrite zlen_app. unfold zlen in *. simpl. lia.
Qed.

Lemma del_wf res ino m : im_wf res m -> is_Some (ino_root m !! ino) -> im_wf res (del_ino ino m).
Proof.
  intros [H1 H2 H6 H3 H4 H5] Hs. pose proof (proj1 (H2 ino) Hs) as Hin.
  assert (Hpos : 0 < zlen (ino_list m)) by (destruct (ino_list m); [by apply elem_of_nil in Hin|unfold zlen; simpl; lia]).
  split; simpl; [by apply NoDup_filter|..|done|apply u64_range].
  - intros i. rewrite list_elem_of_filter, <- H2. destruct (decide (i = ino)) as [->|Hne].
    + rewrite lookup_delete_eq. naive_solver.
    + rewrite lookup_delete_ne by done. naive_solver.
  - rewrite Forall_forall in *. intros i [_ Hi2]%list_elem_of_filter. auto.
  - rewrite zlen_filter_ne, u64_small by (done || lia). lia.
Qed.

Lemma alter_wf res ino f m : im_wf res m -> im_wf res (mk_im (alter f ino (ino_root m)) (ino_list m) (ino_num m)).
Proof.
  intros [H1 H2 H6 H3 H4 H5]. split; simpl; try done. intros i. rewrite <- H2.
  destruct (decide (i = ino)) as [->|Hne]; [by rewrite lookup_alter_eq, fmap_is_Some|by rewrite lookup_alter_ne].
Qed.

Lemma release_all_wf res l m : im_wf res m -> ino_list m = l ->
  im_wf res (foldl (fun m ino => del_ino ino m) m l) /\ ino_list (foldl (fun m ino => del_ino ino m) m l) = [].
Proof.
  revert m. induction l as [|x l IH]; intros m Hm Hl; [done|]. simpl.
  assert (is_Some (ino_root m !! x)) as Hx by (apply (im_dom _ _ Hm); rewrite Hl; by left).
  apply IH; [by apply del_wf|]. simpl. rewrite Hl. pose proof (im_nodup _ _ Hm) as Hd. rewrite Hl in Hd.
  apply NoDup_cons in Hd as [Hd _]. rewrite filter_cons_False by tauto. by apply filter_ne_notin.
Qed.

(** Every list is consistent; [res] orphans are reserved. *)
Record ino_wf (res : Z) (s : ino_state) : Prop := {
  iw_len : zlen (im s) = MAX_INO_ENTRY;
  iw_orphan : im_wf res (get_im ORPHAN_INO s);
  iw_other : forall t, 0 < t < MAX_INO_ENTRY -> im_wf 0 (get_im t s);
  iw_max : ino_num (get_im ORPHAN_INO s) <= max_orphans s;
  iw_bug : ino_bug s = false
}.

Definition type_res (res t : Z) : Z := if t =? ORPHAN_INO then res else 0.

Lemma iw_all res s t : ino_wf res s -> 0 <= t < MAX_INO_ENTRY -> im_wf (type_res res t) (get_im t s).
Proof.
  intros Hs Ht. unfold type_res. case_if; [subst t; apply Hs|]. apply Hs. unfold ORPHAN_INO in *. lia.
Qed.

(** Replacing one of the lists by a consistent one. *)
Lemma put_wf res res' t m s : ino_wf res s -> 0 <= t < MAX_INO_ENTRY -> im_wf (type_res res' t) m ->
  (t = ORPHAN_INO /\ ino_num m <= max_orphans s \/ res' = res /\ t <> ORPHAN_INO) -> ino_wf res' (put_im t m s).
Proof.
  intros Hs Ht Hm Hor. pose proof (iw_len _ _ Hs) as Hl. rewrite <- Hl in Ht. split.
  - by rewrite put_im_len.
  - rewrite get_put_im by done. unfold type_res in Hm. destruct Hor as [[-> _]|[-> Hne]].
    + by rewrite Z.eqb_refl in *.
    + rewrite (proj2 (Z.eqb_neq t ORPHAN_INO)) by done. apply Hs.
  - intros t' Ht'. rewrite get_put_im by done. case_if; [|by apply Hs]. subst t'.
    unfold type_res, ORPHAN_INO in Hm. by rewrite (proj2 (Z.eqb_neq t 0)) in Hm by lia.
  - rewrite get_put_im by done. simpl. destruct Hor as [[-> Hle]|[_ Hne]]; [by rewrite Z.eqb_refl|].
    rewrite (proj2 (Z.eqb_neq t ORPHAN_INO)) by done. apply Hs.
  - apply Hs.
Qed.

(** An entry on the list [t]. *)
Definition on_list (ino t : Z) (s : ino_state) : Prop := ino ∈ ino_list (get_im t s).

Lemma root_on_list res s ino t : ino_wf res s -> 0 <= t < MAX_INO_ENTRY ->
  is_Some (ino_root (get_im t s) !! ino) <-> on_list ino t s.
Proof. intros Hs Ht. apply (im_dom _ _ (iw_all _ _ _ Hs Ht)). Qed.

Lemma add_entry_wf res res' s ino dev t : ino_wf res s -> 0 <= t < MAX_INO_ENTRY -> 0 <= ino < 2 ^ 32 ->
  (t <> ORPHAN_INO /\ res' = res \/ t = ORPHAN_INO /\ ~ on_list ino t s /\ res = res' + 1 /\ 0 <= res') ->
  ino_wf res' (__add_ino_entry ino dev t s).
Proof.
  intros Hs Ht Hi Hor. pose proof (iw_all _ _ _ Hs Ht) as Hm. unfold __add_ino_entry.
  set (m1 := match ino_root (get_im t s) !! ino with Some _ => _ | None => _ end).
  assert (im_wf (type_res res' t) m1 /\ (t = ORPHAN_INO -> ino_num m1 = ino_num (get_im ORPHAN_INO s))) as [Hm1 Hnum].
  { unfold m1. destruct Hor as [[Hne ->]|(-> & Hni & -> & Hr)].
    - unfold type_res in *. rewrite (proj2 (Z.eqb_neq t ORPHAN_INO)) in * by done.
      destruct (ino_root (get_im t s) !! ino) eqn:E; split; try done. by apply add_wf.
    - unfold type_res in *. rewrite Z.eqb_refl in *. destruct (ino_root (get_im ORPHAN_INO s) !! ino) eqn:E.
      + exfalso. apply Hni, (root_on_list _ _ _ _ Hs); [done|]. by rewrite E.
      + split; [|done]. by apply add_reserved_wf. }
  assert (Hor' : t = ORPHAN_INO /\ ino_num m1 <= max_orphans s \/ res' = res /\ t <> ORPHAN_INO).
  { destruct Hor as [[Hne ->]|[-> _]]; [by right|left]. rewrite Hnum by done. split; [done|apply Hs]. }
  apply (put_wf res); [done..| |].
  - case_if; [by apply alter_wf|done].
  - destruct Hor' as [[-> Hle]|Hr]; [left|by right]. split; [done|]. by case_if.
Qed.

Lemma remove_entry_wf res s ino t : ino_wf res s -> 0 <= t < MAX_INO_ENTRY -> ino_wf res (__remove_ino_entry ino t s).
Proof.
  intros Hs Ht. pose proof (iw_all _ _ _ Hs Ht) as Hm. unfold __remove_ino_entry.
  destruct (ino_root (get_im t s) !! ino) eqn:E; [|done].
  pose proof (del_wf _ ino _ Hm ltac:(by rewrite E)) as Hd. apply (put_wf res); [done..|].
  destruct (decide (t = ORPHAN_INO)) as [->|Hne]; [left|by right]. split; [done|]. simpl.
  pose proof (iw_max _ _ Hs). pose proof (im_num _ _ Hd) as H1. pose proof (im_num _ _ Hm) as H2. simpl in H1.
  assert (ino ∈ ino_list (get_im ORPHAN_INO s)) as Hin by (apply (im_dom _ _ Hm); by rewrite E).
  rewrite zlen_filter_ne in H1 by (done || apply Hm). lia.
Qed.

Lemma acquire_wf res fault s : ino_wf res s -> max_orphans s < 2 ^ 32 ->
  let '(err, s') := acquire_orphan_inode fault s in
  ino_wf (if c_true err then res else res + 1) s' /\ max_orphans s' = max_orphans s /\
  (fault = false -> ino_num (get_im ORPHAN_INO s) < max_orphans s -> err = 0).
Proof.
  intros Hs Hmax. unfold acquire_orphan_inode. destruct fault; [done|]. case_if; [split_and!; [done..|lia]|].
  split_and!; try done. simpl. pose proof (iw_orphan _ _ Hs) as [H1 H2 H6 H3 H4 H5].
  apply (put_wf res); [done..| |]; [|left; simpl; split; [done|lia]].
  unfold type_res. rewrite Z.eqb_refl. split; simpl; try done; lia.
Qed.

Lemma release_wf res s : ino_wf (res + 1) s -> 0 <= res -> ino_wf res (release_orphan_inode s).
Proof.
  intros Hs Hr. pose proof (iw_orphan _ _ Hs) as [H1 H2 H6 H3 H4 H5]. pose proof (zlen_nonneg (ino_list (get_im ORPHAN_INO s))).
  unfold release_orphan_inode. assert (ino_wf (res + 1) (set_ino_bug (ino_num (get_im ORPHAN_INO s) =? 0) s)) as Hs'.
  { destruct Hs. split; simpl; try done. rewrite iw_bug0, (proj2 (Z.eqb_neq _ _)); [done|lia]. }
  apply (put_wf (res + 1)); [done..| |].
  - unfold type_res. rewrite Z.eqb_refl. split; simpl; try done; rewrite ?u64_small; lia.
  - left. split; [done|]. simpl. rewrite u64_small by lia. pose proof (iw_max _ _ Hs). lia.
Qed.

Lemma release_list_wf res s t : ino_wf res s -> 0 <= t < MAX_INO_ENTRY -> ino_wf res (release_list t s).
Proof.
  intros Hs Ht. pose proof (iw_all _ _ _ Hs Ht) as Hm. unfold release_list.
  destruct (release_all_wf _ _ _ Hm eq_refl) as [Hw He]. apply (put_wf res); [done..|].
  destruct (decide (t = ORPHAN_INO)) as [->|Hne]; [left|by right]. split; [done|].
  pose proof (iw_max _ _ Hs). rewrite (im_num _ _ Hw), He. rewrite (im_num _ _ Hm) in *.
  pose proof (zlen_nonneg (ino_list (get_im ORPHAN_INO s))). unfold zlen at 1. simpl. lia.
Qed.

Lemma release_entry_wf res s all : ino_wf res s -> ino_wf res (release_ino_entry all s).
Proof.
  intros Hs. unfold release_ino_entry, MAX_INO_ENTRY in *.
  assert (Hl : forall l s, ino_wf res s -> Forall (fun t => 0 <= t < MAX_INO_ENTRY) l ->
    ino_wf res (foldl (fun s type => release_list type s) s l)).
  { clear. intros l. induction l as [|t l IH]; intros s Hs Hl; [done|]. apply Forall_cons in Hl as [Ht Hl].
    simpl. apply IH; [|done]. by apply release_list_wf. }
  destruct all; apply Hl; try done; repeat (constructor; [done|]); constructor.
Qed.

Lemma init_ino_wf cp : 0 <= __cp_payload cp <= blocks_per_seg - F2FS_CP_PACKS - NR_CURSEG_TYPE ->
  ino_wf 0 (init_ino_entry_info cp) /\
  max_orphans (init_ino_entry_info cp) =
    (blocks_per_seg - F2FS_CP_PACKS - NR_CURSEG_TYPE - __cp_payload cp) * F2FS_ORPHANS_PER_BLOCK.
Proof.
  unfold blocks_per_seg, F2FS_CP_PACKS, NR_CURSEG_TYPE. intros Hp.
  assert (Hz : im_wf 0 im0).
  { split; simpl; [constructor| |by constructor|done|lia..]. intros ino. rewrite lookup_empty, elem_of_nil. split; [by intros []|done]. }
  assert (Hm : max_orphans (init_ino_entry_info cp) =
    (blocks_per_seg - F2FS_CP_PACKS - NR_CURSEG_TYPE - __cp_payload cp) * F2FS_ORPHANS_PER_BLOCK).
  { unfold init_ino_entry_info, blocks_per_seg, F2FS_CP_PACKS, NR_CURSEG_TYPE, F2FS_ORPHANS_PER_BLOCK. simpl.
    rewrite (u32_small (512 - _ - _ - _)) by lia. rewrite u32_small; lia. }
  split; [|done]. split; [done|done| |rewrite Hm|done].
  - intros t Ht. unfold get_im. change (im (init_ino_entry_info cp)) with (replicate 5 im0). by rewrite zget_replicate.
  - unfold blocks_per_seg, F2FS_CP_PACKS, NR_CURSEG_TYPE, F2FS_ORPHANS_PER_BLOCK.
    change (ino_num (get_im ORPHAN_INO (init_ino_entry_info cp))) with 0. lia.
Qed.

(** ** Steps *)

(** What the callers do, between checkpoints and in them: an orphan is
    reserved, then the reservation becomes an entry or is given up; [res]
    counts the reservations that are open. *)
Inductive ino_step : Z * ino_state -> Z * ino_state -> Prop :=
  | step_acquire res s fault :
      ino_step (res, s) (let '(err, s') := acquire_orphan_inode fault s in (if c_true err then res else res + 1, s'))
  | step_release res s : 0 < res -> ino_step (res, s) (res - 1, release_orphan_inode s)
  | step_orphan res s ino : 0 < res -> 0 <= ino < 2 ^ 32 -> ~ on_list ino ORPHAN_INO s ->
      ino_step (res, s) (res - 1, add_orphan_inode ino s)
  | step_remove_orphan res s ino : ino_step (res, s) (res, remove_orphan_inode ino s)
  | step_add res s ino dev t : 0 < t < MAX_INO_ENTRY -> 0 <= ino < 2 ^ 32 ->
      ino_step (res, s) (res, set_dirty_device ino dev t s)
  | step_remove res s ino t : 0 < t < MAX_INO_ENTRY -> ino_step (res, s) (res, remove_ino_entry ino t s)
  | step_release_all res s all : ino_step (res, s) (res, release_ino_entry all s).

Lemma max_orphans_step res s res' s' : ino_step (res, s) (res', s') -> max_orphans s' = max_orphans s.
Proof.
  intros Hst. inversion Hst as [? ? f Ha Hb| | |? ? ino|? ? ino dev t|? ? ino t|? ? all]; subst; try done.
  - unfold acquire_orphan_inode in Hb. destruct f; [by inversion Hb|]. case_if_in Hb; by inversion Hb.
  - unfold remove_orphan_inode, __remove_ino_entry. by destruct (_ !! ino).
  - unfold remove_ino_entry, __remove_ino_entry. by destruct (_ !! ino).
  - unfold release_ino_entry. assert (forall l s, max_orphans (foldl (fun s type => release_list type s) s l) = max_orphans s) as Hl.
    { clear. intros l. induction l as [|t l IH]; intros s; [done|]. simpl. by rewrite IH. }
    apply Hl.
Qed.

Lemma ino_step_wf res s res' s' : ino_wf res s -> max_orphans s < 2 ^ 32 -> ino_step (res, s) (res', s') -> ino_wf res' s'.
Proof.
  intros Hs Hmax Hst. inversion Hst as [? ? f Ha Hb|? ? Hr|? ? ino Hr Hi Hn|? ? ino|? ? ino dev t Ht Hi|? ? ino t Ht|? ? all]; subst.
  - pose proof (acquire_wf res f s Hs Hmax) as Hw. destruct (acquire_orphan_inode f s) as [err s1].
    inversion Hb; subst. apply Hw.
  - apply release_wf; [|lia]. by replace (res - 1 + 1) with res by lia.
  - eapply add_entry_wf; [done|done|done|]. right. split_and!; [done|done|lia|lia].
  - by apply remove_entry_wf.
  - apply (add_entry_wf res'); [done|lia|done|]. left. split; [|done]. unfold ORPHAN_INO. lia.
  - apply remove_entry_wf; [done|lia].
  - by apply release_entry_wf.
Qed.

Lemma ino_steps_wf cp res s : 0 <= __cp_payload cp <= blocks_per_seg - F2FS_CP_PACKS - NR_CURSEG_TYPE ->
  rtc ino_step (0, init_ino_entry_info cp) (res, s) ->
  ino_wf res s /\ max_orphans s = max_orphans (init_ino_entry_info cp).
Proof.
  intros Hp Hst. destruct (init_ino_wf cp Hp) as [Hi Hm].
  change ((fun y => ino_wf y.1 y.2 /\ max_orphans y.2 = max_orphans (init_ino_entry_info cp)) (res, s)).
  refine (rtc_ind_r _ _ _ _ _ Hst); [done|]. intros [res1 s1] [res2 s2] _ Hxy [Hw1 Hm1]. simpl in *. split.
  - eapply ino_step_wf; [exact Hw1| |exact Hxy]. rewrite Hm1, Hm.
    unfold blocks_per_seg, F2FS_CP_PACKS, NR_CURSEG_TYPE, F2FS_ORPHANS_PER_BLOCK in *. lia.
  - by rewrite (max_orphans_step _ _ _ _ Hxy).
Qed.

(** C19. The inode lists and the orphan reservations stay consistent: after any
    sequence of the operations the radix trees know exactly the listed inodes,
    each once, [ino_num] is their number, for the orphans with the open
    reservations, no underflow is reported, and the orphans, reserved or
    listed, fit the checkpoint pack beside the two checkpoint blocks, the
    payload and the summaries of all six logs. *)
Theorem ino_lists_consistent (cp : cp_info) (res : Z) (s : ino_state) :
  0 <= __cp_payload cp <= blocks_per_seg - F2FS_CP_PACKS - NR_CURSEG_TYPE ->
  rtc ino_step (0, init_ino_entry_info cp) (res, s) ->
  ino_wf res s /\
  F2FS_CP_PACKS + __cp_payload cp + GET_ORPHAN_BLOCKS (ino_num (get_im ORPHAN_INO s)) + NR_CURSEG_TYPE <= blocks_per_seg.
Proof.
  intros Hp Hst. destruct (ino_steps_wf cp res s Hp Hst) as [Hw Hms]. destruct (init_ino_wf cp Hp) as [_ Hm].
  split; [done|]. pose proof (iw_max _ _ Hw) as Hmax. rewrite Hms, Hm in Hmax.
  unfold GET_ORPHAN_BLOCKS, blocks_per_seg, F2FS_CP_PACKS, NR_CURSEG_TYPE, F2FS_ORPHANS_PER_BLOCK in *. zdiv.
Qed.

(** ** Orphan blocks *)

(** The first [n] inodes of an orphan block. *)
Definition first_inos (n : Z) (p : list Z) : list Z := map (fun j => le32_at (orphan_ino j) p) (seqZ 0 n).

Lemma orphan_inos_first b : orphan_inos b = first_inos (le32_at orphan_entry_count b) b.
Proof. done. Qed.

Lemma first_inos_ext n p q : (forall j, 0 <= j < n -> le32_at (orphan_ino j) p = le32_at (orphan_ino j) q) ->
  first_inos n p = first_inos n q.
Proof. intros H. apply map_ext_in. intros j Hj%list_elem_of_In%elem_of_seqZ. apply H. lia. Qed.

Lemma first_inos_put n ino p : 0 <= n < F2FS_ORPHANS_PER_BLOCK -> zlen p = F2FS_BLKSIZE ->
  first_inos (n + 1) (set_le32 (orphan_ino n) ino p) = first_inos n p ++ [u32 ino].
Proof.
  unfold F2FS_ORPHANS_PER_BLOCK, F2FS_BLKSIZE. intros Hn Hp. unfold first_inos. rewrite seqZ_snoc, map_app by lia. f_equal.
  - apply first_inos_ext. intros j Hj. unfold orphan_ino. by rewrite get_put_other by lia.
  - cbn [map]. unfold orphan_ino. by rewrite Z.add_0_l, get_put_le32 by lia.
Qed.

Lemma close_inos ob n idx p : 0 <= n <= F2FS_ORPHANS_PER_BLOCK -> zlen p = F2FS_BLKSIZE ->
  orphan_inos (close_orphan_block ob n idx p) = first_inos n p.
Proof.
  unfold F2FS_ORPHANS_PER_BLOCK, F2FS_BLKSIZE. intros Hn Hp. rewrite orphan_inos_first.
  unfold close_orphan_block, orphan_entry_count, orphan_blk_count, orphan_blk_addr.
  rewrite get_put_le32 by (rewrite ?zlen_put_le; lia). rewrite u32_small by lia.
  apply first_inos_ext. intros j Hj. unfold orphan_ino. by rewrite !get_put_other by lia.
Qed.

(** The blocks written hold [l], the block being filled included. *)
Record written_inos (start : Z) (w : orphan_writer) (l : list Z) : Prop := {
  wi_inos : l = concat (map (fun ab => orphan_inos ab.2) (ow_out w)) ++
                match ow_page w with Some (_, p) => first_inos (ow_nentries w) p | None => [] end;
  wi_addr : map fst (ow_out w) = map (fun i => u32 (start + i)) (seqZ 0 (zlen (ow_out w)));
  wi_len : zlen l = F2FS_ORPHANS_PER_BLOCK * zlen (ow_out w) + ow_nentries w;
  wi_blocks : Forall (fun ab => block_wf ab.2) (ow_out w);
  wi_page :
    match ow_page w with
    | Some (a, p) => block_wf p /\ a = u32 (start + zlen (ow_out w)) /\ 0 < ow_nentries w < F2FS_ORPHANS_PER_BLOCK /\
                     ow_next w = u32 (start + zlen (ow_out w) + 1)
    | None => ow_nentries w = 0 /\ ow_next w = u32 (start + zlen (ow_out w))
    end
}.

Lemma block_wf_put n off v b : block_wf b -> block_wf (put_le n off v b).
Proof. intros [H1 H2]. split; [by rewrite zlen_put_le|by apply bytes_put_le]. Qed.

Lemma close_block_wf ob n idx p : block_wf p -> block_wf (close_orphan_block ob n idx p).
Proof. intros Hp. unfold close_orphan_block. by repeat apply block_wf_put. Qed.

Lemma write_orphan_step start ob w l ino : written_inos start w l -> written_inos start (write_orphan ob w ino) (l ++ [u32 ino]).
Proof.
  intros [H1 H2 H3 Hb H4].
  assert (exists addr page next, (match ow_page w with Some (addr, page) => (addr, page, ow_next w)
      | None => (ow_next w, zero_block, u32 (ow_next w + 1)) end) = (addr, page, next) /\ block_wf page /\
      addr = u32 (start + zlen (ow_out w)) /\ next = u32 (start + zlen (ow_out w) + 1) /\
      0 <= ow_nentries w < F2FS_ORPHANS_PER_BLOCK /\
      match ow_page w with Some (_, p) => first_inos (ow_nentries w) p | None => [] end = first_inos (ow_nentries w) page)
    as (addr & page & next & He & Hp & Ha & Hn & Hr & Hf).
  { destruct (ow_page w) as [[a p]|].
    - destruct H4 as (? & -> & ? & ?). exists (u32 (start + zlen (ow_out w))), p, (ow_next w). split_and!; auto; lia.
    - destruct H4 as (Hz & Hx). eexists _, _, _. split; [done|]. rewrite Hz, Hx, u32_succ.
      split_and!; try done. apply zero_block_wf. }
  unfold write_orphan. rewrite He. rewrite Hf in H1.
  pose proof (first_inos_put (ow_nentries w) ino page Hr (bw_len _ Hp)) as Hput.
  set (page' := set_le32 (orphan_ino (ow_nentries w)) ino page) in *.
  assert (Hp' : block_wf page') by (by apply block_wf_put).
  pose proof (zlen_nonneg (ow_out w)).
  destruct (Z.eqb_spec (ow_nentries w + 1) F2FS_ORPHANS_PER_BLOCK) as [Hfull|Hnf]; split; simpl.
  - rewrite map_app, concat_app. simpl. rewrite !app_nil_r, close_inos, Hput, H1 by (lia || apply Hp'). by rewrite app_assoc.
  - rewrite map_app, zlen_app, H2. change (zlen [(_, _)]) with 1. rewrite seqZ_snoc, map_app by done. simpl. by rewrite Ha.
  - rewrite !zlen_app, H3. unfold zlen. simpl. lia.
  - apply Forall_app. split; [done|]. apply Forall_singleton. by apply close_block_wf.
  - rewrite zlen_app. change (zlen [(_, _)]) with 1. split; [done|]. rewrite Hn. f_equal. lia.
  - rewrite Hput, H1. by rewrite app_assoc.
  - done.
  - rewrite zlen_app, H3. unfold zlen. simpl. lia.
  - done.
  - split_and!; [done..|lia|lia|done].
Qed.

(** The blocks [write_orphan_inodes] writes for the inodes [l]. *)
Record orphan_blocks_of (start : Z) (l : list Z) (out : list (Z * list Z)) : Prop := {
  ob_inos : concat (map (fun ab => orphan_inos ab.2) out) = l;
  ob_addr : map fst out = map (fun i => u32 (start + i)) (seqZ 0 (GET_ORPHAN_BLOCKS (zlen l)));
  ob_blocks : Forall (fun ab => block_wf ab.2) out
}.

Lemma write_orphans_ok res s start : ino_wf res s ->
  orphan_blocks_of start (ino_list (get_im ORPHAN_INO s)) (write_orphan_inodes s (u32 start)).
Proof.
  intros Hs. unfold write_orphan_inodes. set (ob := u16 _). set (l := ino_list _).
  assert (Hu : map u32 l = l).
  { pose proof (im_inos _ _ (iw_orphan _ _ Hs)) as Hi. fold l in Hi. clearbody l. clear Hs ob.
    induction Hi as [|x l Hx Hl IH]; [done|]. simpl. by rewrite IH, u32_small. }
  assert (Hw : forall w l0 l, written_inos start w l0 -> written_inos start (foldl (write_orphan ob) w l) (l0 ++ map u32 l)).
  { clear. intros w l0 l. revert w l0. induction l as [|ino l IH]; intros w l0 Hw; simpl; [by rewrite app_nil_r|].
    rewrite (cons_middle (u32 ino)), app_assoc. by apply IH, write_orphan_step. }
  specialize (Hw (mk_ow None 0 1 (u32 start) []) [] l). rewrite Hu, app_nil_l in Hw.
  destruct Hw as [H1 H2 H3 Hb H4].
  { split; simpl; try done. by rewrite Z.add_0_r. }
  set (w := foldl _ _ l) in *. clearbody w. pose proof (zlen_nonneg (ow_out w)).
  unfold F2FS_ORPHANS_PER_BLOCK in *. destruct (ow_page w) as [[a p]|].
  - destruct H4 as (Hp & Ha & Hn & _). split.
    + rewrite map_app, concat_app. simpl. rewrite app_nil_r, close_inos by (apply Hp || unfold F2FS_ORPHANS_PER_BLOCK; lia). done.
    + rewrite map_app, H2. replace (GET_ORPHAN_BLOCKS (zlen l)) with (zlen (ow_out w) + 1)
        by (unfold GET_ORPHAN_BLOCKS, F2FS_ORPHANS_PER_BLOCK; zdiv).
      rewrite seqZ_snoc, map_app by done. simpl. by rewrite Ha.
    + apply Forall_app. split; [done|]. apply Forall_singleton. by apply close_block_wf.
  - destruct H4 as (Hn & _). split; [by rewrite app_nil_r in H1| |done].
    rewrite H2. do 2 f_equal. unfold GET_ORPHAN_BLOCKS, F2FS_ORPHANS_PER_BLOCK. zdiv.
Qed.

(** ** Recovery *)

Lemma on_list_put ino t t' m s : 0 <= t < zlen (im s) ->
  on_list ino t' (put_im t m s) <-> if t =? t' then ino ∈ ino_list m else on_list ino t' s.
Proof. intros Ht. unfold on_list. rewrite get_put_im by done. by case_if. Qed.

Lemma remove_list_other ino t t' s : t <> t' -> 0 <= t < zlen (im s) -> get_im t' (__remove_ino_entry ino t s) = get_im t' s.
Proof.
  intros Hne Ht. unfold __remove_ino_entry. destruct (_ !! ino); [|done]. rewrite get_put_im by done.
  by rewrite (proj2 (Z.eqb_neq t t')) by done.
Qed.

Lemma remove_len ino t s : zlen (im (__remove_ino_entry ino t s)) = zlen (im s).
Proof. unfold __remove_ino_entry. destruct (_ !! ino); [apply put_im_len|done]. Qed.

Lemma remove_max ino t s : max_orphans (__remove_ino_entry ino t s) = max_orphans s.
Proof. unfold __remove_ino_entry. by destruct (_ !! ino). Qed.

Lemma evict_wf res ino s : ino_wf res s ->
  ino_wf res (evict_ino_entries ino s) /\ get_im ORPHAN_INO (evict_ino_entries ino s) = get_im ORPHAN_INO s /\
  max_orphans (evict_ino_entries ino s) = max_orphans s.
Proof.
  intros Hs. unfold evict_ino_entries, remove_ino_entry. pose proof (iw_len _ _ Hs) as Hl.
  split_and!.
  - by repeat apply remove_entry_wf.
  - rewrite !remove_list_other; try done; rewrite ?remove_len, Hl; done.
  - by rewrite !remove_max.
Qed.

(** No orphan is listed or reserved. *)
Definition no_orphans (s : ino_state) : Prop := ino_wf 0 s /\ ino_list (get_im ORPHAN_INO s) = [] /\ 0 < max_orphans s < 2 ^ 32.

Lemma recover_one fate ino s : no_orphans s -> 0 <= ino < 2 ^ 32 ->
  let '(err, fsck, s') := recover_orphan_inode false fate ino s in
  match fate ino with
  | Orphan_gone => err = 0 /\ fsck = false /\ no_orphans s'
  | Orphan_kept => err = - EIO /\ fsck = true /\ ino_list (get_im ORPHAN_INO s') = [ino]
  | Iget_error e => err = e /\ fsck = false /\ ino_list (get_im ORPHAN_INO s') = [ino]
  end.
Proof.
  intros (Hs & He & Hm) Hi. unfold recover_orphan_inode.
  pose proof (acquire_wf 0 false s Hs ltac:(lia)) as Ha.
  assert (Hn0 : ino_num (get_im ORPHAN_INO s) = 0) by (rewrite (im_num _ _ (iw_orphan _ _ Hs)), He; done).
  destruct (acquire_orphan_inode false s) as [err s1] eqn:Eacq. destruct Ha as (Hs1 & Hm1 & Herr).
  rewrite (Herr eq_refl ltac:(lia)) in *. simpl in Hs1.
  assert (Hg1 : ino_list (get_im ORPHAN_INO s1) = []).
  { unfold acquire_orphan_inode in Eacq. case_if_in Eacq; [lia|]. inversion Eacq. rewrite get_put_im; [done|].
    by rewrite (iw_len _ _ Hs). }
  assert (Hni : ~ on_list ino ORPHAN_INO s1) by (unfold on_list; rewrite Hg1; apply not_elem_of_nil).
  pose proof (add_entry_wf 1 0 s1 ino 0 ORPHAN_INO Hs1 ltac:(done) Hi
    (or_intror (conj eq_refl (conj Hni (conj eq_refl (Z.le_refl 0)))))) as Hs2.
  assert (Hr1 : ino_root (get_im ORPHAN_INO s1) !! ino = None).
  { apply eq_None_not_Some. intros Hr. apply Hni. by apply (root_on_list _ _ _ _ Hs1). }
  assert (Hl2 : ino_list (get_im ORPHAN_INO (__add_ino_entry ino 0 ORPHAN_INO s1)) = [ino]).
  { unfold __add_ino_entry. rewrite Hr1, get_put_im by (by rewrite (iw_len _ _ Hs1)). simpl. by rewrite Hg1. }
  assert (Hm2 : max_orphans (__add_ino_entry ino 0 ORPHAN_INO s1) = max_orphans s) by (by rewrite <- Hm1).
  set (s2 := __add_ino_entry ino 0 ORPHAN_INO s1) in *. clearbody s2.
  cbn [c_true]. change (c_true 0) with false. cbv iota.
  destruct (evict_wf 0 ino s2 Hs2) as (Hs3 & Hg3 & Hm3).
  destruct (fate ino); [by split_and!|by rewrite Hg3|].
  split; [done|]. split; [done|]. split; [by apply remove_entry_wf|]. split.
  - unfold __remove_ino_entry. rewrite Hg3.
    assert (is_Some (ino_root (get_im ORPHAN_INO s2) !! ino)) as [x ->].
    { apply (root_on_list _ _ _ _ Hs2); [done|]. unfold on_list. rewrite Hl2. by left. }
    rewrite get_put_im by (by rewrite (iw_len _ _ Hs3)). simpl. rewrite Hl2. by rewrite filter_cons_False by tauto.
  - by rewrite remove_max, Hm3, Hm2.
Qed.

(** All inodes of the list are processed, or those before the first that
    fails; that one stays listed. *)
Lemma recover_orphans_ok fate inos s : no_orphans s -> Forall (fun ino => 0 <= ino < 2 ^ 32) inos ->
  (forall ino e, fate ino = Iget_error e -> e <> 0) ->
  let '(err, fsck, s', gone) := recover_orphans fate inos s in
  (Forall (fun ino => fate ino = Orphan_gone) inos -> err = 0 /\ fsck = false /\ gone = inos /\ no_orphans s') /\
  (forall pre ino post, inos = pre ++ ino :: post -> Forall (fun ino => fate ino = Orphan_gone) pre ->
     fate ino <> Orphan_gone -> err <> 0 /\ gone = pre /\ ino_list (get_im ORPHAN_INO s') = [ino]).
Proof.
  intros Hs Hi Hfe. revert s Hs. induction Hi as [|ino inos Hr Hi IH]; intros s Hs; simpl.
  - split; [done|]. by intros [|] ? ? [=].
  - pose proof (recover_one fate ino s Hs Hr) as H1.
    destruct (recover_orphan_inode false fate ino s) as [[err fsck] s1].
    destruct (c_true err) eqn:Eerr.
    + apply c_true_true in Eerr. split.
      * intros [Hf _]%Forall_cons. rewrite Hf in H1. by destruct H1.
      * intros pre i post Hp Hpre Hne. destruct pre as [|x pre]; simpl in Hp; inversion Hp; subst.
        -- by destruct (fate i) eqn:Ef; destruct H1 as (_ & _ & ?).
        -- apply Forall_cons in Hpre as [Hf _]. rewrite Hf in H1. by destruct H1.
    + apply c_true_false in Eerr. subst err.
      assert (fate ino = Orphan_gone /\ no_orphans s1) as [Hf Hs1].
      { destruct (fate ino) as [e| |] eqn:Ef; destruct H1 as (He & _ & H1); [|done..]. by apply Hfe in Ef. }
      specialize (IH s1 Hs1). destruct (recover_orphans fate inos s1) as [[[err' fsck'] s'] gone]. destruct IH as [IH1 IH2].
      split.
      * intros [_ Hall]%Forall_cons. destruct (IH1 Hall) as (-> & -> & -> & ?). done.
      * intros pre i post Hp Hpre Hne. destruct pre as [|x pre]; simpl in Hp; inversion Hp; subst; [done|].
        apply Forall_cons in Hpre as [_ Hpre]. destruct (IH2 pre i post eq_refl Hpre Hne) as (? & -> & ?). done.
Qed.

(** [cp] describes a pack with the orphans of [s]. *)
Record orphan_pack (cp : cp_info) (s : ino_state) : Prop := {
  op_payload : 0 <= __cp_payload cp;
  op_sum : __start_sum_addr cp = 1 + __cp_payload cp + GET_ORPHAN_BLOCKS (ino_num (get_im ORPHAN_INO s));
  op_flag : is_set_ckpt_flags cp CP_ORPHAN_PRESENT_FLAG = c_true (ino_num (get_im ORPHAN_INO s));
  op_len : F2FS_BLKSIZE <= zlen (ckpt cp);
  op_bytes : bytes_ok (ckpt cp)
}.

Lemma land_ldiff x y : (Z.ldiff x y .& y) = 0.
Proof. apply Z.bits_inj'. intros i Hi. rewrite Z.land_spec, Z.ldiff_spec, Z.bits_0. by destruct (Z.testbit x i), (Z.testbit y i). Qed.

Lemma ldiff_range x y n : 0 <= n -> 0 <= x < 2 ^ n -> 0 <= y -> 0 <= Z.ldiff x y < 2 ^ n.
Proof.
  intros Hn Hx Hy. assert (0 <= Z.ldiff x y) by (apply Z.ldiff_nonneg; lia). split; [done|].
  apply bits_below; [lia..|]. intros i Hi. by rewrite Z.ldiff_spec, (testbit_high x n).
Qed.

Lemma clear_flag_clears f b : bytes_ok b -> F2FS_BLKSIZE <= zlen b -> 0 <= f -> __is_set_ckpt_flags (__clear_ckpt_flags f b) f = false.
Proof.
  intros Hb Hl Hf. unfold __is_set_ckpt_flags, __clear_ckpt_flags, F2FS_BLKSIZE, ckpt_flags in *.
  rewrite get_put_le32 by lia. rewrite u32_small; [by rewrite land_ldiff|].
  apply ldiff_range; [lia|by apply le32_range|done].
Qed.

Lemma read_orphans_ok cp s s1 d fate :
  ino_wf 0 s -> orphan_pack cp s ->
  on_disk d (write_orphan_inodes s (u32 (__start_cp_addr cp + 1 + __cp_payload cp))) ->
  is_set_ckpt_flags cp CP_ORPHAN_PRESENT_FLAG = true ->
  concat (map (fun i => orphan_inos (get_meta_page d (u32 (u32 (__start_cp_addr cp + 1 + __cp_payload cp) + i))))
    (seqZ 0 (u32 (__start_sum_addr cp - 1 - __cp_payload cp)))) = ino_list (get_im ORPHAN_INO s) /\
  recover_orphan_inodes fate cp d s1 =
    (let '(err, fsck, s2, gone) := recover_orphans fate (ino_list (get_im ORPHAN_INO s)) s1 in
     (err, fsck, if c_true err then cp else clear_ckpt_flags CP_ORPHAN_PRESENT_FLAG cp, s2, gone)).
Proof.
  intros Hs Hp Hd Hflag. set (start := __start_cp_addr cp + 1 + __cp_payload cp) in *.
  pose proof (write_orphans_ok 0 s start Hs) as [Hi Ha _].
  assert (Hnum : ino_num (get_im ORPHAN_INO s) = zlen (ino_list (get_im ORPHAN_INO s))) by (rewrite (im_num _ _ (iw_orphan _ _ Hs)); lia).
  assert (He : u32 (__start_sum_addr cp - 1 - __cp_payload cp) = GET_ORPHAN_BLOCKS (zlen (ino_list (get_im ORPHAN_INO s)))).
  { rewrite (op_sum _ _ Hp), Hnum. replace (1 + _ + _ - 1 - _) with (GET_ORPHAN_BLOCKS (zlen (ino_list (get_im ORPHAN_INO s)))) by lia.
    pose proof (inos_bound _ _ (iw_orphan _ _ Hs)). pose proof (zlen_nonneg (ino_list (get_im ORPHAN_INO s))).
    apply u32_small. unfold GET_ORPHAN_BLOCKS, F2FS_ORPHANS_PER_BLOCK. zdiv. }
  assert (Hl : concat (map (fun i => orphan_inos (get_meta_page d (u32 (u32 start + i))))
    (seqZ 0 (u32 (__start_sum_addr cp - 1 - __cp_payload cp)))) = ino_list (get_im ORPHAN_INO s)).
  { rewrite He, (read_blocks orphan_inos (fun i => u32 (u32 start + i)) d _ _ Hd), Hi; [done|].
    rewrite Ha. apply map_ext. intros i. unfold u32. by rewrite Zplus_mod_idemp_l. }
  split; [done|]. unfold recover_orphan_inodes. rewrite Hflag. simpl negb. cbv iota zeta. fold start. by rewrite Hl.
Qed.

(** The orphans at the next mount, all of them or those before a failure. *)
Lemma orphans_back (cp : cp_info) (s s1 : ino_state) (d : disk) (fate : Z -> orphan_fate) :
  ino_wf 0 s -> orphan_pack cp s -> no_orphans s1 ->
  on_disk d (write_orphan_inodes s (u32 (__start_cp_addr cp + 1 + __cp_payload cp))) ->
  (forall ino e, fate ino = Iget_error e -> e <> 0) ->
  let orphans := ino_list (get_im ORPHAN_INO s) in
  let '(err, fsck, cp', s2, gone) := recover_orphan_inodes fate cp d s1 in
  (Forall (fun ino => fate ino = Orphan_gone) orphans ->
     err = 0 /\ fsck = false /\ gone = orphans /\ no_orphans s2 /\
     is_set_ckpt_flags cp' CP_ORPHAN_PRESENT_FLAG = false) /\
  (forall pre ino post, orphans = pre ++ ino :: post -> Forall (fun ino => fate ino = Orphan_gone) pre ->
     fate ino <> Orphan_gone ->
     err <> 0 /\ gone = pre /\ ino_list (get_im ORPHAN_INO s2) = [ino] /\
     is_set_ckpt_flags cp' CP_ORPHAN_PRESENT_FLAG = true).
Proof.
  intros Hs Hp Hs1 Hd Hfe orphans. pose proof (op_flag _ _ Hp) as Hflag.
  assert (Hnum : ino_num (get_im ORPHAN_INO s) = zlen orphans) by (rewrite (im_num _ _ (iw_orphan _ _ Hs)); unfold orphans; lia).
  destruct (is_set_ckpt_flags cp CP_ORPHAN_PRESENT_FLAG) eqn:Ef.
  - destruct (read_orphans_ok cp s s1 d fate Hs Hp Hd Ef) as [_ ->]. fold orphans.
    pose proof (recover_orphans_ok fate orphans s1 Hs1 (im_inos _ _ (iw_orphan _ _ Hs)) Hfe) as Hr.
    destruct (recover_orphans fate orphans s1) as [[[err fsck] s2] gone]. destruct Hr as [R1 R2]. split.
    + intros Hall. destruct (R1 Hall) as (-> & -> & -> & Hno). split_and!; try done; try apply Hno.
      change (c_true 0) with false. cbv iota. unfold is_set_ckpt_flags, clear_ckpt_flags. simpl.
      apply clear_flag_clears; [apply Hp..|done].
    + intros pre ino post Ho Hpre Hne. destruct (R2 pre ino post Ho Hpre Hne) as (He & -> & Hl).
      split_and!; try done. by rewrite (proj2 (c_true_true err) He).
  - symmetry in Hflag. apply c_true_false in Hflag. rewrite Hflag in Hnum.
    assert (orphans = []) as -> by (destruct orphans; [done|unfold zlen in Hnum; simpl in Hnum; lia]).
    unfold recover_orphan_inodes. rewrite Ef. simpl. split; [by intros _; split_and!|].
    by intros [|] ? ? [=].
Qed.

(** C18. Orphans survive: a mount that finds the pack a checkpoint wrote reads
    back from its orphan blocks exactly the inodes that were on the orphan
    list, in their order, however many blocks they fill.  When all of them can
    be removed they are, each once, and afterwards no orphan is left and the
    flag of the checkpoint is clear; otherwise those before the first one that
    fails are removed, that one stays listed and the mount gets an error. *)
Theorem orphans_roundtrip (cp : cp_info) (s s1 : ino_state) (d : disk) (fate : Z -> orphan_fate) :
  ino_wf 0 s -> orphan_pack cp s -> no_orphans s1 ->
  on_disk d (write_orphan_inodes s (u32 (__start_cp_addr cp + 1 + __cp_payload cp))) ->
  (forall ino e, fate ino = Iget_error e -> e <> 0) ->
  let orphans := ino_list (get_im ORPHAN_INO s) in
  let '(err, fsck, cp', s2, gone) := recover_orphan_inodes fate cp d s1 in
  (Forall (fun ino => fate ino = Orphan_gone) orphans ->
     err = 0 /\ fsck = false /\ gone = orphans /\ no_orphans s2 /\
     is_set_ckpt_flags cp' CP_ORPHAN_PRESENT_FLAG = false) /\
  (forall pre ino post, orphans = pre ++ ino :: post -> Forall (fun ino => fate ino = Orphan_gone) pre ->
     fate ino <> Orphan_gone ->
     err <> 0 /\ gone = pre /\ ino_list (get_im ORPHAN_INO s2) = [ino] /\
     is_set_ckpt_flags cp' CP_ORPHAN_PRESENT_FLAG = true).
Proof. apply orphans_back. Qed.

(** ** Witnesses *)

Definition orphan_cp0 : cp_info :=
  mk_cpinfo super0 (set_le32 cp_pack_start_sum 2 (set_le32 ckpt_flags CP_ORPHAN_PRESENT_FLAG zero_block)) 1.
Definition ino_s0 : ino_state := init_ino_entry_info orphan_cp0.
Definition ino_s1 : ino_state := (acquire_orphan_inode false (acquire_orphan_inode false ino_s0).2).2.
Definition ino_s2 : ino_state := add_orphan_inode 5 (add_orphan_inode 7 ino_s1).
Definition orphan_d0 : disk := fun a => if a =? 513 then zget zero_block (map snd (write_orphan_inodes ino_s2 513)) 0 else zero_block.

Lemma ino_s2_steps : rtc ino_step (0, ino_s0) (0, ino_s2).
Proof.
  apply rtc_l with (1, (acquire_orphan_inode false ino_s0).2); [exact (step_acquire 0 ino_s0 false)|].
  apply rtc_l with (2, ino_s1); [exact (step_acquire 1 (acquire_orphan_inode false ino_s0).2 false)|].
  apply rtc_l with (1, add_orphan_inode 7 ino_s1).
  { apply (step_orphan 2 ino_s1 7); [done|done|]. apply not_elem_of_nil. }
  apply rtc_once. apply (step_orphan 1 (add_orphan_inode 7 ino_s1) 5); [done|done|].
  change (~ 5 ∈ [7]). rewrite list_elem_of_singleton. lia.
Qed.

Lemma ino_lists_consistent_witness : ino_wf 0 ino_s2 /\ ino_list (get_im ORPHAN_INO ino_s2) = [7; 5].
Proof.
  split; [|reflexivity]. apply (ino_lists_consistent orphan_cp0 0 ino_s2); [|exact ino_s2_steps].
  split; [discriminate|discriminate].
Defined.

Lemma payload_ok : 0 <= __cp_payload orphan_cp0 <= blocks_per_seg - F2FS_CP_PACKS - NR_CURSEG_TYPE.
Proof. split; discriminate. Qed.

Lemma orphan_pack0 : orphan_pack orphan_cp0 ino_s2.
Proof.
  split; try reflexivity; try discriminate. apply bytes_put_le, bytes_put_le, (bw_bytes _ zero_block_wf).
Qed.

Lemma orphans_roundtrip_witness :
  (recover_orphan_inodes (fun _ => Orphan_gone) orphan_cp0 orphan_d0 ino_s0).2 = [7; 5].
Proof.
  pose proof (orphans_roundtrip orphan_cp0 ino_s2 ino_s0 orphan_d0 (fun _ => Orphan_gone)
    (proj1 (ino_steps_wf _ _ _ payload_ok ino_s2_steps)) orphan_pack0
    (conj (proj1 (init_ino_wf _ payload_ok)) (conj eq_refl (conj eq_refl eq_refl)))) as H.
  assert (on_disk orphan_d0 (write_orphan_inodes ino_s2 (u32 (__start_cp_addr orphan_cp0 + 1 + __cp_payload orphan_cp0)))) as Hd
    by (unfold on_disk; repeat constructor).
  specialize (H Hd). destruct (recover_orphan_inodes (fun _ => Orphan_gone) orphan_cp0 orphan_d0 ino_s0) as [[[[err fsck] cp'] s2] gone].
  destruct H as [H _]; [discriminate|]. destruct H as (_ & _ & H & _); [by repeat constructor|]. exact H.
Defined.
