(* ===== verification/Summary.v ===== *)
(** * The logs in a checkpoint pack (segment.c, segment.h, node.c)

    At checkpoint the summaries and the journals of the current segments go
    into the pack, compacted into fewer blocks when the data logs leave room;
    at mount they come back from it. *)

From S2P Require Import Prelude Blocks Journal FreeSeg Sit Segment Super Ckpt.
From Stdlib Require Import ZArith Lia.
From stdpp Require Import base numbers option gmap list.
#[local] Open Scope Z_scope.
#[local] Open Scope c_scope.

(** ** Data *)

Definition SUMMARY_SIZE : Z := 7.
Definition ENTRIES_IN_SUM : Z := 512.
Definition SUM_ENTRY_SIZE : Z := SUMMARY_SIZE * ENTRIES_IN_SUM.
Definition SUM_FOOTER_SIZE : Z := 5.

(** The current segments and the bytes of their journals ([struct
    f2fs_journal]), which begin with the number of entries. *)
Record log_state := mk_logs {
  segs : seg_state;
  journals : list (list Z)
}.
Definition get_journal (t : Z) (ls : log_state) : list Z := zget [] (journals ls) t.
Definition put_journal (t : Z) (j : list Z) (ls : log_state) : log_state := mk_logs (segs ls) (zset (journals ls) t j).
Definition put_segs (s : seg_state) (ls : log_state) : log_state := mk_logs s (journals ls).

Definition alloc_byte (m : alloc_mode) : Z := match m with LFS => 0 | SSR => 1 end.
Definition byte_alloc (x : Z) : alloc_mode := if x =? 1 then SSR else LFS.

Definition curseg_segno (t : Z) (ls : log_state) : Z := segno (CURSEG_I t (segs ls)).
Definition curseg_alloc_type (t : Z) (ls : log_state) : Z := alloc_byte (alloc_type (CURSEG_I t (segs ls))).
Definition curseg_blkoff (t : Z) (ls : log_state) : Z := next_blkoff (CURSEG_I t (segs ls)).

(** [struct f2fs_summary] at an offset of a block. *)
Definition put_summary (off : Z) (x : f2fs_summary) (b : list Z) : list Z :=
  set_le16 (off + 5) (sum_ofs_in_node x) (put_le 1 (off + 4) (sum_version x) (set_le32 off (sum_nid x) b)).
Definition get_summary (off : Z) (b : list Z) : f2fs_summary :=
  mk_sum (le32_at off b) (get_le 1 (off + 4) b) (le16_at (off + 5) b).

Definition CP_UMOUNT : Z := 0x1.
Definition CP_FASTBOOT : Z := 0x2.
Definition CP_TRIMMED : Z := 0x20.

Definition __remain_node_summaries (reason : Z) : bool := c_true (reason .& (CP_UMOUNT .| CP_FASTBOOT)).
Definition __exist_node_summaries (cp : cp_info) : bool :=
  is_set_ckpt_flags cp CP_UMOUNT_FLAG || is_set_ckpt_flags cp CP_FASTBOOT_FLAG.

(** ** Writing *)

Definition valid_sum_count (for_ra : bool) (cp : cp_info) (ls : log_state) (i : Z) : Z :=
  if byte_at (ckpt cp) (alloc_type_off i) =? alloc_byte SSR then blocks_per_seg
  else if for_ra then le16_at (cur_data_blkoff i) (ckpt cp) else curseg_blkoff i ls.

Definition npages_for_summary_flush (for_ra : bool) (cp : cp_info) (ls : log_state) : Z :=
  let valid_sum_count := zsum (valid_sum_count for_ra cp ls) [0; 1; 2] in
  let sum_in_page := (4096 - 2 * SUM_JOURNAL_SIZE - SUM_FOOTER_SIZE) / SUMMARY_SIZE in
  if valid_sum_count <=? sum_in_page then 1
  else if valid_sum_count - sum_in_page <=? (4096 - SUM_FOOTER_SIZE) / SUMMARY_SIZE then 2
  else 3.

(** The loop of [write_compacted_summaries]; [sw_page]: the page being filled
    and its address.  [cache]: what [grab_meta_page] finds in the page cache,
    which is not cleared. *)
Record sum_writer := mk_sw {
  sw_page : option (Z * list Z);
  written_size : Z;
  sw_next : Z;
  sw_out : list (Z * list Z)
}.

Section summary.
Variable ly : layout.

Definition write_sum (cache : disk) (w : sum_writer) (x : f2fs_summary) : sum_writer :=
  let '(addr, page, written, next) :=
    match sw_page w with
    | Some (addr, page) => (addr, page, written_size w, sw_next w)
    | None => (sw_next w, get_meta_page cache (sw_next w), 0, u32 (sw_next w + 1))
    end in
  let page := put_summary written x page in
  let written := written + SUMMARY_SIZE in
  if written + SUMMARY_SIZE <=? 4096 - SUM_FOOTER_SIZE
  then mk_sw (Some (addr, page)) written next (sw_out w)
  else mk_sw None written next (sw_out w ++ [(addr, page)]).

Definition compact_count (cp : cp_info) (ls : log_state) (i : Z) : Z :=
  if byte_at (ckpt cp) (alloc_type_off i) =? alloc_byte SSR then blocks_per_seg else curseg_blkoff i ls.

(** The blocks made dirty, with their addresses. *)
Definition write_compacted_summaries (cp : cp_info) (ls : log_state) (cache : disk) (blkaddr : Z) : list (Z * list Z) :=
  let page := put_bytes 0 (get_journal CURSEG_HOT_DATA ls) (get_meta_page cache blkaddr) in
  let page := put_bytes SUM_JOURNAL_SIZE (get_journal CURSEG_COLD_DATA ls) page in
  let w := foldl (fun w i =>
      foldl (fun w j => write_sum cache w (zget sum0 (sum_entries (sum_blk (CURSEG_I i (segs ls)))) j)) w
        (seqZ 0 (compact_count cp ls i)))
    (mk_sw (Some (blkaddr, page)) (2 * SUM_JOURNAL_SIZE) (u32 (blkaddr + 1)) [])
    [CURSEG_HOT_DATA; CURSEG_WARM_DATA; CURSEG_COLD_DATA] in
  match sw_page w with
  | Some ap => sw_out w ++ [ap]
  | None => sw_out w
  end.

(** The checksum of the footer is never set. *)
Definition write_current_sum_page (ls : log_state) (cache : disk) (type blk_addr : Z) : Z * list Z :=
  let c := CURSEG_I type (segs ls) in
  let dst := put_bytes SUM_ENTRY_SIZE (get_journal type ls) (get_meta_page cache blk_addr) in
  let dst := foldl (fun b j => put_summary (SUMMARY_SIZE * j) (zget sum0 (sum_entries (sum_blk c)) j) b) dst
               (seqZ 0 ENTRIES_IN_SUM) in
  (blk_addr, set_le32 4092 0 (put_le 1 4091 (sum_type (sum_blk c)) dst)).

Definition write_normal_summaries (ls : log_state) (cache : disk) (blkaddr type : Z) : list (Z * list Z) :=
  map (fun i => write_current_sum_page ls cache i (u32 (blkaddr + (i - type))))
    (seqZ type (if IS_DATASEG type then NR_CURSEG_DATA_TYPE else NR_CURSEG_NODE_TYPE)).

Definition write_data_summaries (cp : cp_info) (ls : log_state) (cache : disk) (start_blk : Z) : list (Z * list Z) :=
  if is_set_ckpt_flags cp CP_COMPACT_SUM_FLAG then write_compacted_summaries cp ls cache start_blk
  else write_normal_summaries ls cache start_blk CURSEG_HOT_DATA.

Definition write_node_summaries (ls : log_state) (cache : disk) (start_blk : Z) : list (Z * list Z) :=
  write_normal_summaries ls cache start_blk CURSEG_HOT_NODE.

(** ** Reading *)

Definition start_sum_block (cp : cp_info) : Z := u32 (__start_cp_addr cp + le32_at cp_pack_start_sum (ckpt cp)).
Definition sum_blk_addr (cp : cp_info) (base type : Z) : Z :=
  u32 (__start_cp_addr cp + le32_at cp_pack_total_block_count (ckpt cp) - (base + 1) + type).
Definition GET_SUM_BLOCK (cp : cp_info) (segno : Z) : Z := u32 (sb_ssa_blkaddr (raw_super cp) + segno).

(** The page being read, the offset in it, the address of the next one. *)
Record sum_reader := mk_sr {
  sr_page : list Z;
  sr_offset : Z;
  sr_next : Z
}.

Definition read_sum (d : disk) (r : sum_reader) : f2fs_summary * sum_reader :=
  let x := get_summary (sr_offset r) (sr_page r) in
  let offset := sr_offset r + SUMMARY_SIZE in
  (x, if offset + SUMMARY_SIZE <=? 4096 - SUM_FOOTER_SIZE then mk_sr (sr_page r) offset (sr_next r)
      else mk_sr (get_meta_page d (sr_next r)) 0 (u32 (sr_next r + 1))).

Definition read_entries (d : disk) (blk_off : Z) (st : list f2fs_summary * sum_reader) : list f2fs_summary * sum_reader :=
  foldl (fun '(entries, r) j => let '(x, r) := read_sum d r in (zset entries j x, r)) st (seqZ 0 blk_off).

Definition set_entries (l : list f2fs_summary) (c : curseg_info) : curseg_info := set_sum_blk (mk_sumblk l (sum_type (sum_blk c))) c.

(** The log [i] of the third step. *)
Definition read_compacted_log (cp : cp_info) (d : disk) (st : seg_state * sum_reader) (i : Z) : seg_state * sum_reader :=
  let '(s, r) := st in
  let segno := le32_at (cur_data_segno i) (ckpt cp) in
  let blk_off := le16_at (cur_data_blkoff i) (ckpt cp) in
  let s := reset_curseg ly i false (put_curseg i (set_next_segno segno (CURSEG_I i s)) s) in
  let c := set_next_blkoff blk_off (set_alloc_type (byte_alloc (byte_at (ckpt cp) (alloc_type_off i))) (CURSEG_I i s)) in
  let blk_off := match alloc_type c with SSR => blocks_per_seg | LFS => blk_off end in
  let '(entries, r) := read_entries d blk_off (sum_entries (sum_blk c), r) in
  (put_curseg i (set_entries entries c) s, r).

Definition read_compacted_summaries (cp : cp_info) (d : disk) (ls : log_state) : log_state :=
  let start := start_sum_block cp in
  let kaddr := get_meta_page d start in
  let ls := put_journal CURSEG_HOT_DATA (get_bytes 0 SUM_JOURNAL_SIZE kaddr) ls in
  let ls := put_journal CURSEG_COLD_DATA (get_bytes SUM_JOURNAL_SIZE SUM_JOURNAL_SIZE kaddr) ls in
  put_segs (foldl (read_compacted_log cp d) (segs ls, mk_sr kaddr (2 * SUM_JOURNAL_SIZE) (u32 (start + 1)))
              [CURSEG_HOT_DATA; CURSEG_WARM_DATA; CURSEG_COLD_DATA]).1 ls.

(** The node id in the footer of a node block. *)
Definition footer_nid (b : list Z) : Z := le32_at 4072 b.

Definition restore_node_summary (d : disk) (segno : Z) : list f2fs_summary :=
  map (fun i => mk_sum (footer_nid (get_meta_page d (u32 (START_BLOCK ly segno + i)))) 0 0) (seqZ 0 blocks_per_seg).

Definition sum_entries_of (b : list Z) : list f2fs_summary :=
  map (fun j => get_summary (SUMMARY_SIZE * j) b) (seqZ 0 ENTRIES_IN_SUM).

Definition read_normal_summaries (cp : cp_info) (d : disk) (ls : log_state) (type : Z) : log_state :=
  let '(segno, blk_off, blk_addr) :=
    if IS_DATASEG type
    then (le32_at (cur_data_segno type) (ckpt cp), le16_at (cur_data_blkoff type) (ckpt cp),
          if __exist_node_summaries cp then sum_blk_addr cp NR_CURSEG_TYPE type
          else sum_blk_addr cp NR_CURSEG_DATA_TYPE type)
    else (le32_at (cur_node_segno (type - CURSEG_HOT_NODE)) (ckpt cp),
          le16_at (cur_node_blkoff (type - CURSEG_HOT_NODE)) (ckpt cp),
          if __exist_node_summaries cp then sum_blk_addr cp NR_CURSEG_NODE_TYPE (type - CURSEG_HOT_NODE)
          else GET_SUM_BLOCK cp (le32_at (cur_node_segno (type - CURSEG_HOT_NODE)) (ckpt cp))) in
  let sum := get_meta_page d blk_addr in
  let entries :=
    if IS_NODESEG type then
      if __exist_node_summaries cp then map (fun ns => mk_sum (sum_nid ns) 0 0) (sum_entries_of sum)
      else restore_node_summary d segno
    else sum_entries_of sum in
  let ls := put_journal type (get_bytes SUM_ENTRY_SIZE SUM_JOURNAL_SIZE sum) ls in
  let s := segs ls in
  let s := put_curseg type (set_next_segno segno (set_entries entries (CURSEG_I type s))) s in
  let s := reset_curseg ly type false s in
  let c := set_next_blkoff blk_off (set_alloc_type (byte_alloc (byte_at (ckpt cp) (alloc_type_off type))) (CURSEG_I type s)) in
  put_segs (put_curseg type c s) ls.

Definition restore_curseg_summaries (cp : cp_info) (d : disk) (ls : log_state) : Z * log_state :=
  let '(type, ls) :=
    if is_set_ckpt_flags cp CP_COMPACT_SUM_FLAG then (CURSEG_HOT_NODE, read_compacted_summaries cp d ls)
    else (CURSEG_HOT_DATA, ls) in
  let ls := foldl (read_normal_summaries cp d) ls (seqZ type (NR_CURSEG_TYPE - type)) in
  if (le16_at 0 (get_journal CURSEG_HOT_DATA ls) >? NAT_JOURNAL_ENTRIES) ||
     (le16_at 0 (get_journal CURSEG_COLD_DATA ls) >? SIT_JOURNAL_ENTRIES)
  then (- EINVAL, ls) else (0, ls).

(** The logs before the summaries are read. *)
Definition build_curseg (cp : cp_info) (d : disk) (s : seg_state) : Z * log_state :=
  let c := mk_curseg (mk_sumblk (replicate 512 sum0) SUM_TYPE_DATA) LFS NULL_SEGNO 0 0 0 in
  restore_curseg_summaries cp d (mk_logs (set_curseg_array (replicate 6 c) s) (replicate 6 (replicate (Z.to_nat SUM_JOURNAL_SIZE) 0))).

(** ** Proofs: the layout of compacted summaries *)

Record sum_ok (x : f2fs_summary) : Prop := {
  so_nid : 0 <= sum_nid x < 2 ^ 32;
  so_version : 0 <= sum_version x < 2 ^ 8;
  so_ofs : 0 <= sum_ofs_in_node x < 2 ^ 16
}.

Lemma sum0_ok : sum_ok sum0.
Proof. split; simpl; lia. Qed.

Lemma zlen_put_summary off x b : zlen (put_summary off x b) = zlen b.
Proof. unfold put_summary. by rewrite !zlen_put_le. Qed.

Lemma get_put_summary off x b : 0 <= off -> off + 7 <= zlen b -> sum_ok x -> get_summary off (put_summary off x b) = x.
Proof.
  intros Ho Hl [H1 H2 H3]. unfold get_summary, put_summary. destruct x as [n v o]. simpl sum_nid in *. simpl sum_version in *.
  simpl sum_ofs_in_node in *. f_equal.
  - rewrite !get_put_other, get_put_le32 by (rewrite ?zlen_put_le; lia). by apply u32_small.
  - rewrite get_put_other, get_put_same by (rewrite ?zlen_put_le; lia). by apply Z.mod_small.
  - rewrite get_put_le16 by (rewrite ?zlen_put_le; lia). by apply u16_small.
Qed.

Lemma put_summary_out off x b i : i < off \/ off + 7 <= i -> byte_at (put_summary off x b) i = byte_at b i.
Proof. intros H. unfold put_summary. by rewrite !zget_put_le_out by lia. Qed.

Lemma get_summary_ext off b b' : (forall i, off <= i < off + 7 -> byte_at b i = byte_at b' i) -> get_summary off b = get_summary off b'.
Proof. intros H. unfold get_summary. f_equal; apply get_le_ext; intros i Hi; apply H; lia. Qed.

Lemma get_summary_put off off' x b : off' + 7 <= off \/ off + 7 <= off' -> get_summary off' (put_summary off x b) = get_summary off' b.
Proof. intros H. apply get_summary_ext. intros i Hi. apply put_summary_out. lia. Qed.

(** The page and the offset of the [k]-th summary. *)
Definition sum_page (k : Z) : Z := if k <? 439 then 0 else 1 + (k - 439) / 584.
Definition sum_off (k : Z) : Z := if k <? 439 then 1014 + 7 * k else 7 * ((k - 439) mod 584).

Lemma sum_place_next k : 0 <= k ->
  (sum_page (k + 1), sum_off (k + 1)) =
  (if sum_off k + 7 + 7 <=? 4091 then (sum_page k, sum_off k + 7) else (sum_page k + 1, 0)).
Proof.
  intros Hk. unfold sum_page, sum_off.
  destruct (Z.ltb_spec k 439), (Z.ltb_spec (k + 1) 439); try lia.
  - rewrite (proj2 (Z.leb_le _ _)) by lia. f_equal. lia.
  - assert (k = 438) as -> by lia. reflexivity.
  - replace (k + 1 - 439) with ((k - 439) + 1) by lia. set (m := k - 439) in *.
    assert (0 <= m) by lia. destruct (Z.leb_spec (7 * (m mod 584) + 7 + 7) 4091); f_equal; zdiv.
Qed.

Lemma sum_off_range k : 0 <= k -> 0 <= sum_off k /\ sum_off k + 7 <= 4091 /\ (sum_page k = 0 -> 1014 <= sum_off k) /\ 0 <= sum_page k.
Proof. intros Hk. unfold sum_page, sum_off. case_if; zdiv. Qed.

Lemma sum_place_lt j k : 0 <= j < k -> sum_page j < sum_page k \/ sum_page j = sum_page k /\ sum_off j + 7 <= sum_off k.
Proof.
  intros Hjk. unfold sum_page, sum_off. destruct (Z.ltb_spec j 439), (Z.ltb_spec k 439); try lia.
  - left. zdiv.
  - set (a := j - 439). set (b := k - 439). assert (0 <= a < b) by lia.
    destruct (Z.eq_dec (a / 584) (b / 584)); [right; zdiv|left].
    assert (a / 584 <= b / 584) by (apply Z.div_le_mono; lia). lia.
Qed.

(** ** Writing *)

Definition sw_pages (w : sum_writer) : list (list Z) :=
  map snd (sw_out w) ++ match sw_page w with Some (_, p) => [p] | None => [] end.

(** The writer after the summaries [l]. *)
Record written_sums (start : Z) (jn js : list Z) (w : sum_writer) (l : list f2fs_summary) : Prop := {
  ws_out : zlen (sw_out w) = sum_page (zlen l);
  ws_addr : map fst (sw_out w) = map (fun i => u32 (start + i)) (seqZ 0 (zlen (sw_out w)));
  ws_page :
    match sw_page w with
    | Some (a, p) => a = u32 (start + sum_page (zlen l)) /\ written_size w = sum_off (zlen l) /\
                     sw_next w = u32 (start + sum_page (zlen l) + 1) /\ 0 < sum_off (zlen l)
    | None => sum_off (zlen l) = 0 /\ 0 < sum_page (zlen l) /\ sw_next w = u32 (start + sum_page (zlen l))
    end;
  ws_wf : Forall (fun p => zlen p = 4096) (sw_pages w);
  ws_sums : forall j, 0 <= j < zlen l -> get_summary (sum_off j) (zget [] (sw_pages w) (sum_page j)) = zget sum0 l j;
  ws_journals : get_bytes 0 507 (zget [] (sw_pages w) 0) = jn /\ get_bytes 507 507 (zget [] (sw_pages w) 0) = js
}.

Lemma zlen_map {A B} (f : A -> B) l : zlen (map f l) = zlen l.
Proof. unfold zlen. by rewrite length_map. Qed.

Lemma zget_snoc {A} (d : A) l x i : 0 <= i <= zlen l -> zget d (l ++ [x]) i = if i <? zlen l then zget d l i else x.
Proof.
  intros Hi. rewrite zget_app by lia. case_if; [done|]. by replace (i - zlen l) with 0 by lia.
Qed.

(** The pages after a step: the last one has changed or is new. *)
Lemma step_pages start cache jn js w l x : (forall a, zlen (cache a) = 4096) -> written_sums start jn js w l ->
  exists ps p, sw_pages (write_sum cache w x) = ps ++ [put_summary (sum_off (zlen l)) x p] /\
    zlen ps = sum_page (zlen l) /\ zlen p = 4096 /\ Forall (fun p => zlen p = 4096) ps /\
    (sw_pages w = ps ++ [p] \/ sw_pages w = ps /\ 0 < sum_page (zlen l) /\ sum_off (zlen l) = 0) /\
    zlen (sw_out (write_sum cache w x)) = sum_page (zlen l + 1) /\
    map fst (sw_out (write_sum cache w x)) = map (fun i => u32 (start + i)) (seqZ 0 (zlen (sw_out (write_sum cache w x)))) /\
    match sw_page (write_sum cache w x) with
    | Some (a, p) => a = u32 (start + sum_page (zlen l + 1)) /\ written_size (write_sum cache w x) = sum_off (zlen l + 1) /\
                     sw_next (write_sum cache w x) = u32 (start + sum_page (zlen l + 1) + 1) /\ 0 < sum_off (zlen l + 1)
    | None => sum_off (zlen l + 1) = 0 /\ 0 < sum_page (zlen l + 1) /\
              sw_next (write_sum cache w x) = u32 (start + sum_page (zlen l + 1))
    end.
Proof.
  intros Hc [W1 W2 W3 W4 _ _]. pose proof (zlen_nonneg l) as Hl. pose proof (zlen_nonneg (sw_out w)) as Hlo.
  pose proof (sum_place_next (zlen l) Hl) as Hn. pose proof (sum_off_range (zlen l) Hl) as (R1 & R2 & _ & R3).
  assert (exists addr page next, (match sw_page w with Some (addr, page) => (addr, page, written_size w, sw_next w)
      | None => (sw_next w, get_meta_page cache (sw_next w), 0, u32 (sw_next w + 1)) end) =
        (addr, page, sum_off (zlen l), next) /\
      zlen page = 4096 /\ addr = u32 (start + sum_page (zlen l)) /\ next = u32 (start + sum_page (zlen l) + 1) /\
      (sw_pages w = map snd (sw_out w) ++ [page] \/
       sw_pages w = map snd (sw_out w) /\ 0 < sum_page (zlen l) /\ sum_off (zlen l) = 0)) as (addr & page & next & He & Hp & Ha & Hx & Hor).
  { unfold sw_pages in *. destruct (sw_page w) as [[a p]|].
    - destruct W3 as (-> & Hw & -> & _). eexists _, _, _. rewrite Hw. split; [done|].
      apply Forall_app in W4 as [_ W4]. apply Forall_cons in W4 as [W4 _].
      split; [done|]. split; [done|]. split; [done|]. by left.
    - destruct W3 as (H0 & H1 & ->). eexists _, _, _. rewrite H0. split; [done|]. rewrite u32_succ.
      split; [apply Hc|]. split; [done|]. split; [done|]. right. by rewrite app_nil_r. }
  assert (Hps : Forall (fun p => zlen p = 4096) (map snd (sw_out w))) by (unfold sw_pages in W4; by apply Forall_app in W4 as [W4 _]).
  unfold write_sum. rewrite He. change SUMMARY_SIZE with 7. change (4096 - SUM_FOOTER_SIZE) with 4091.
  exists (map snd (sw_out w)), page. rewrite zlen_map.
  destruct (sum_off (zlen l) + 7 + 7 <=? 4091); injection Hn as Hn1 Hn2; unfold sw_pages at 1; simpl; rewrite Hn1, Hn2.
  - split_and!; try done. lia.
  - split_and!; try done; try lia.
    + by rewrite map_app, app_nil_r.
    + by rewrite zlen_app, W1.
    + rewrite map_app, zlen_app, W2, W1. change (zlen [_]) with 1. rewrite seqZ_snoc, map_app by done. simpl. by rewrite Ha, Z.add_0_l.
    + by rewrite Hx, Z.add_assoc.
Qed.

Lemma put_summary_bytes off n o x b : 0 <= o -> 0 <= n -> o + n <= off -> off + 7 <= zlen b ->
  get_bytes o n (put_summary off x b) = get_bytes o n b.
Proof.
  intros Ho Hn Hl Hb. apply get_bytes_ext; rewrite ?zlen_put_summary; try lia.
  intros i Hi. apply put_summary_out. lia.
Qed.

Lemma write_sum_step start cache jn js w l x : (forall a, zlen (cache a) = 4096) -> sum_ok x ->
  written_sums start jn js w l -> written_sums start jn js (write_sum cache w x) (l ++ [x]).
Proof.
  intros Hc Hx Hw. pose proof (zlen_nonneg l) as Hl.
  destruct (step_pages start cache jn js w l x Hc Hw) as (ps & p & Hps & Hzps & Hp & Hfps & Hold & H1 & H2 & H3).
  destruct Hw as [_ _ _ _ W5 [W6 W7]]. pose proof (sum_off_range (zlen l) Hl) as (R1 & R2 & R3 & R4).
  assert (Hat : forall i, 0 <= i < sum_page (zlen l) ->
    zget [] (ps ++ [put_summary (sum_off (zlen l)) x p]) i = zget [] (sw_pages w) i).
  { intros i Hi. rewrite zget_snoc, (proj2 (Z.ltb_lt _ _)) by lia.
    destruct Hold as [-> |[-> _]]; [|done]. by rewrite zget_snoc, (proj2 (Z.ltb_lt _ _)) by lia. }
  assert (Hlast : zget [] (ps ++ [put_summary (sum_off (zlen l)) x p]) (sum_page (zlen l)) = put_summary (sum_off (zlen l)) x p).
  { rewrite zget_snoc, (proj2 (Z.ltb_ge _ _)) by lia. done. }
  assert (Hcur : sw_pages w = ps ++ [p] -> zget [] (sw_pages w) (sum_page (zlen l)) = p).
  { intros ->. rewrite zget_snoc, (proj2 (Z.ltb_ge _ _)) by lia. done. }
  assert (Hz : zlen (l ++ [x]) = zlen l + 1) by (by rewrite zlen_app).
  split; rewrite ?Hz; try done; rewrite ?Hps.
  - apply Forall_app. split; [done|]. constructor; [by rewrite zlen_put_summary|constructor].
  - intros j Hj. rewrite (zget_snoc sum0) by lia. destruct (Z.ltb_spec j (zlen l)) as [Hlt|Hge].
    + rewrite <- W5 by lia. pose proof (sum_off_range j ltac:(lia)) as (_ & _ & _ & Rj).
      destruct (sum_place_lt j (zlen l) ltac:(lia)) as [Hpg|[Hpg Hof]]; [by rewrite Hat by lia|].
      rewrite Hpg, Hlast, get_summary_put by lia. destruct Hold as [Ho|(_ & _ & Ho)].
      * by rewrite (Hcur Ho).
      * pose proof (sum_off_range j ltac:(lia)). lia.
    + assert (j = zlen l) as -> by lia. rewrite Hlast. apply get_put_summary; [lia|lia|done].
  - destruct (Z.eq_dec (sum_page (zlen l)) 0) as [H0|Hn0]; [|by rewrite !Hat by lia].
    destruct Hold as [Ho|(_ & Ho & _)]; [|lia]. specialize (Hcur Ho). specialize (R3 H0).
    rewrite H0 in Hlast, Hcur. rewrite Hlast. rewrite Hcur in W6, W7. by rewrite !put_summary_bytes by lia.
Qed.

Lemma write_sums_ok start cache jn js w l0 l : (forall a, zlen (cache a) = 4096) -> Forall sum_ok l ->
  written_sums start jn js w l0 -> written_sums start jn js (foldl (write_sum cache) w l) (l0 ++ l).
Proof.
  intros Hc Hl. revert w l0. induction Hl as [|x l Hx Hl IH]; intros w l0 Hw; simpl; [by rewrite app_nil_r|].
  rewrite cons_middle, app_assoc. by apply IH, write_sum_step.
Qed.

(** ** Reading *)

(** The reader before the [k]-th summary. *)
Definition reading (start : Z) (d : disk) (k : Z) (r : sum_reader) : Prop :=
  r = mk_sr (d (u32 (start + sum_page k))) (sum_off k) (u32 (start + sum_page k + 1)).

Lemma read_sum_step start d k r : 0 <= k -> reading start d k r ->
  (read_sum d r).1 = get_summary (sum_off k) (d (u32 (start + sum_page k))) /\ reading start d (k + 1) (read_sum d r).2.
Proof.
  intros Hk ->. split; [done|]. unfold reading, read_sum, get_meta_page. simpl.
  change SUMMARY_SIZE with 7. change (4096 - SUM_FOOTER_SIZE) with 4091.
  pose proof (sum_place_next k Hk) as Hn. destruct (sum_off k + 7 + 7 <=? 4091); injection Hn as -> ->; [done|].
  rewrite u32_succ. do 2 f_equal; [f_equal|f_equal]; lia.
Qed.

Lemma read_entries_ok start d k n entries r : 0 <= k -> 0 <= n <= zlen entries -> reading start d k r ->
  let '(entries', r') := read_entries d n (entries, r) in
  reading start d (k + n) r' /\ zlen entries' = zlen entries /\
  forall j, zget sum0 entries' j =
    if (0 <=? j) && (j <? n) then get_summary (sum_off (k + j)) (d (u32 (start + sum_page (k + j)))) else zget sum0 entries j.
Proof.
  intros Hk Hn Hr. unfold read_entries. destruct Hn as [Hn0 Hn]. revert Hn. pattern n. apply natlike_ind; [|clear n Hn0|done].
  - intros _. simpl. rewrite Z.add_0_r. split_and!; [done|done|]. intros j. case_if; [lia|done].
  - intros n Hn0 IH Hn. unfold Z.succ in *. specialize (IH ltac:(lia)). rewrite seqZ_snoc, foldl_app, Z.add_0_l by done. cbn [foldl].
    destruct (foldl _ (entries, r) (seqZ 0 n)) as [e1 r1]. destruct IH as (I1 & I2 & I3).
    pose proof (read_sum_step start d (k + n) r1 ltac:(lia) I1) as [S1 S2]. destruct (read_sum d r1) as [x r2].
    simpl in S1, S2. subst x. rewrite Z.add_assoc, zlen_zset. split_and!; [done|done|]. intros j.
    rewrite zget_zset by lia. destruct (Z.eqb_spec n j) as [->|Hne].
    + rewrite (proj2 (Z.leb_le 0 j)), (proj2 (Z.ltb_lt _ _)) by lia. done.
    + rewrite I3. destruct (Z.leb_spec 0 j), (Z.ltb_spec j n), (Z.ltb_spec j (n + 1)); simpl; done || lia.
Qed.

(** ** The logs *)

Definition CURSEG (t : Z) (ls : log_state) : curseg_info := CURSEG_I t (segs ls).

Record log_ok (t : Z) (c : curseg_info) : Prop := {
  lo_len : zlen (sum_entries (sum_blk c)) = 512;
  lo_sums : Forall sum_ok (sum_entries (sum_blk c));
  lo_type : sum_type (sum_blk c) = if IS_NODESEG t then SUM_TYPE_NODE else SUM_TYPE_DATA;
  lo_next : 0 <= next_blkoff c <= 512
}.

Record logs_ok (ls : log_state) : Prop := {
  ls_len : zlen (curseg_array (segs ls)) = NR_CURSEG_TYPE;
  ls_log : forall t, is_type t -> log_ok t (CURSEG t ls);
  ls_jlen : zlen (journals ls) = NR_CURSEG_TYPE;
  ls_journal : forall t, is_type t -> zlen (get_journal t ls) = SUM_JOURNAL_SIZE
}.

(** The checkpoint block describes the logs. *)
Record ckpt_logs (cp : cp_info) (ls : log_state) : Prop := {
  cl_data : forall i, 0 <= i < 3 ->
    le32_at (cur_data_segno i) (ckpt cp) = curseg_segno i ls /\ le16_at (cur_data_blkoff i) (ckpt cp) = curseg_blkoff i ls;
  cl_node : forall i, 0 <= i < 3 ->
    le32_at (cur_node_segno i) (ckpt cp) = curseg_segno (3 + i) ls /\ le16_at (cur_node_blkoff i) (ckpt cp) = curseg_blkoff (3 + i) ls;
  cl_alloc : forall t, is_type t -> byte_at (ckpt cp) (alloc_type_off t) = curseg_alloc_type t ls
}.

Definition log_count (c : curseg_info) : Z := match alloc_type c with SSR => 512 | LFS => next_blkoff c end.

Lemma log_count_range t c : log_ok t c -> 0 <= log_count c <= 512.
Proof. intros H. unfold log_count. destruct (alloc_type c); [apply H|lia]. Qed.

Lemma compact_count_eq cp ls i : ckpt_logs cp ls -> 0 <= i < 3 -> compact_count cp ls i = log_count (CURSEG i ls).
Proof.
  intros Hc Hi. unfold compact_count. rewrite (cl_alloc _ _ Hc) by (unfold is_type, NR_CURSEG_TYPE; lia).
  unfold curseg_alloc_type, log_count, CURSEG. by destruct (alloc_type _).
Qed.

Lemma valid_count_eq cp ls ra i : ckpt_logs cp ls -> 0 <= i < 3 -> valid_sum_count ra cp ls i = log_count (CURSEG i ls).
Proof.
  intros Hc Hi. unfold valid_sum_count. rewrite (cl_alloc _ _ Hc) by (unfold is_type, NR_CURSEG_TYPE; lia).
  rewrite (proj2 (cl_data _ _ Hc i Hi)). unfold curseg_alloc_type, log_count, CURSEG. destruct (alloc_type _); [by destruct ra|done].
Qed.

(** The summaries that are compacted, and where those of log [i] begin. *)
Definition log_sums (c : curseg_info) : list f2fs_summary := map (zget sum0 (sum_entries (sum_blk c))) (seqZ 0 (log_count c)).
Definition all_sums (ls : log_state) : list f2fs_summary :=
  log_sums (CURSEG 0 ls) ++ log_sums (CURSEG 1 ls) ++ log_sums (CURSEG 2 ls).
Definition base (ls : log_state) (i : Z) : Z :=
  if i =? 0 then 0 else if i =? 1 then log_count (CURSEG 0 ls) else log_count (CURSEG 0 ls) + log_count (CURSEG 1 ls).

Lemma zlen_seqZ a n : 0 <= n -> zlen (seqZ a n) = n.
Proof. intros Hn. unfold zlen. rewrite length_seqZ. lia. Qed.

Lemma zget_map_seqZ {A} (d : A) (f : Z -> A) n j : 0 <= j < n -> zget d (map f (seqZ 0 n)) j = f j.
Proof.
  intros Hj. rewrite zget_lookup by lia. change (map f (seqZ 0 n)) with (f <$> seqZ 0 n).
  rewrite list_lookup_fmap, lookup_seqZ_lt by lia. simpl. f_equal. lia.
Qed.

Lemma zlen_log_sums t c : log_ok t c -> zlen (log_sums c) = log_count c.
Proof. intros H. unfold log_sums. rewrite zlen_map, zlen_seqZ; [done|]. by apply (log_count_range t). Qed.

Lemma log_sums_ok t c : log_ok t c -> Forall sum_ok (log_sums c).
Proof.
  intros H. apply Forall_forall. intros x Hx. apply list_elem_of_In, in_map_iff in Hx as (j & <- & _).
  apply (Forall_zget sum_ok); [apply H|apply sum0_ok].
Qed.

Lemma all_sums_at ls i j : logs_ok ls -> 0 <= i < 3 -> 0 <= j < log_count (CURSEG i ls) ->
  zget sum0 (all_sums ls) (base ls i + j) = zget sum0 (sum_entries (sum_blk (CURSEG i ls))) j /\
  0 <= base ls i + j < zlen (all_sums ls).
Proof.
  intros Hls Hi Hj.
  pose proof (fun t (Ht : 0 <= t < 3) => zlen_log_sums t _ (ls_log _ Hls t ltac:(unfold is_type, NR_CURSEG_TYPE; lia))) as Hz.
  pose proof (fun t (Ht : 0 <= t < 3) => log_count_range t _ (ls_log _ Hls t ltac:(unfold is_type, NR_CURSEG_TYPE; lia))) as Hr.
  pose proof (Hz 0 ltac:(lia)) as Z0. pose proof (Hz 1 ltac:(lia)) as Z1. pose proof (Hz 2 ltac:(lia)) as Z2.
  pose proof (Hr 0 ltac:(lia)) as R0. pose proof (Hr 1 ltac:(lia)) as R1. pose proof (Hr 2 ltac:(lia)) as R2.
  unfold all_sums, base. rewrite !zlen_app, Z0, Z1, Z2.
  assert (i = 0 \/ i = 1 \/ i = 2) as [-> |[-> | ->]] by lia; simpl; (split; [|lia]); rewrite zget_app, Z0 by lia.
  - rewrite (proj2 (Z.ltb_lt _ _)) by lia. by apply zget_map_seqZ.
  - rewrite (proj2 (Z.ltb_ge _ _)) by lia. rewrite zget_app, Z1, (proj2 (Z.ltb_lt _ _)) by lia.
    replace (log_count (CURSEG 0 ls) + j - log_count (CURSEG 0 ls)) with j by lia. by apply zget_map_seqZ.
  - rewrite (proj2 (Z.ltb_ge _ _)) by lia. rewrite zget_app, Z1, (proj2 (Z.ltb_ge _ _)) by lia.
    replace (log_count (CURSEG 0 ls) + log_count (CURSEG 1 ls) + j - log_count (CURSEG 0 ls) - log_count (CURSEG 1 ls)) with j by lia.
    by apply zget_map_seqZ.
Qed.

(** The blocks [write_compacted_summaries] writes. *)
Record compacted (start : Z) (ls : log_state) (out : list (Z * list Z)) : Prop := {
  co_addr : map fst out = map (fun i => u32 (start + i)) (seqZ 0 (zlen out));
  co_len : zlen out = if zlen (all_sums ls) <=? 439 then 1 else if zlen (all_sums ls) - 439 <=? 584 then 2 else 3;
  co_wf : Forall (fun ab => zlen ab.2 = 4096) out;
  co_sums : forall j, 0 <= j < zlen (all_sums ls) ->
    get_summary (sum_off j) (zget [] (map snd out) (sum_page j)) = zget sum0 (all_sums ls) j /\ sum_page j < zlen out;
  co_journals : get_bytes 0 507 (zget [] (map snd out) 0) = get_journal CURSEG_HOT_DATA ls /\
                get_bytes 507 507 (zget [] (map snd out) 0) = get_journal CURSEG_COLD_DATA ls
}.

Lemma foldl_sums cache c w :
  foldl (fun w j => write_sum cache w (zget sum0 (sum_entries (sum_blk c)) j)) w (seqZ 0 (log_count c)) =
  foldl (write_sum cache) w (log_sums c).
Proof.
  unfold log_sums. generalize (seqZ 0 (log_count c)). intros l. revert w.
  induction l as [|x l IH]; intros w; [done|]. simpl. apply IH.
Qed.

Lemma write_compacted_ok cp ls cache start : logs_ok ls -> ckpt_logs cp ls -> (forall a, zlen (cache a) = 4096) ->
  compacted start ls (write_compacted_summaries cp ls cache (u32 start)).
Proof.
  intros Hls Hcl Hc. unfold write_compacted_summaries.
  assert (J0 := ls_journal _ Hls 0 ltac:(done)). assert (J2 := ls_journal _ Hls 2 ltac:(done)).
  change CURSEG_HOT_DATA with 0 in *. change CURSEG_COLD_DATA with 2 in *. change CURSEG_WARM_DATA with 1.
  change SUM_JOURNAL_SIZE with 507 in *. change (2 * 507) with 1014.
  set (page := put_bytes 507 _ _).
  assert (Hp0 : zlen (put_bytes 0 (get_journal 0 ls) (get_meta_page cache (u32 start))) = 4096) by
    (rewrite zlen_put_bytes; unfold get_meta_page; rewrite ?Hc; lia).
  assert (Hp : zlen page = 4096) by (unfold page; rewrite zlen_put_bytes; lia).
  assert (Hj : get_bytes 0 507 page = get_journal 0 ls /\ get_bytes 507 507 page = get_journal 2 ls).
  { unfold page. split.
    - pose proof (get_put_bytes 0 (get_journal 0 ls) (get_meta_page cache (u32 start))) as Hg. rewrite J0 in Hg.
      etransitivity; [|apply Hg; unfold get_meta_page; rewrite ?Hc; lia].
      apply get_bytes_ext; [by rewrite zlen_put_bytes by lia|lia|lia|rewrite zlen_put_bytes by lia; lia|].
      intros i Hi. rewrite byte_at_put_bytes by lia. by rewrite (proj2 (Z.leb_gt _ _)) by lia.
    - rewrite <- J2 at 2. apply get_put_bytes; lia. }
  cbn [foldl]. rewrite !(compact_count_eq cp ls _ Hcl) by lia.
  change (CURSEG_I 0 (segs ls)) with (CURSEG 0 ls). change (CURSEG_I 1 (segs ls)) with (CURSEG 1 ls).
  change (CURSEG_I 2 (segs ls)) with (CURSEG 2 ls). rewrite !foldl_sums, <- !foldl_app.
  fold (all_sums ls).
  assert (Hok : Forall sum_ok (all_sums ls)).
  { unfold all_sums. rewrite !Forall_app. split_and!; (eapply log_sums_ok, Hls; unfold is_type, NR_CURSEG_TYPE; lia). }
  pose proof (write_sums_ok start cache (get_journal 0 ls) (get_journal 2 ls)
    (mk_sw (Some (u32 start, page)) 1014 (u32 (u32 start + 1)) []) [] (all_sums ls) Hc Hok) as Hw.
  rewrite app_nil_l in Hw. destruct Hw as [W1 W2 W3 W4 W5 W6].
  { split; simpl; try done.
    - rewrite Z.add_0_r, u32_succ. done.
    - by constructor.
    - intros j Hj'. unfold zlen in Hj'. simpl in Hj'. lia. }
  set (w := foldl _ _ _) in *. clearbody w.
  set (out := match sw_page w with Some _ => _ | None => _ end).
  assert (Hpages : map snd out = sw_pages w).
  { unfold out, sw_pages. destruct (sw_page w) as [[a p]|]; [by rewrite map_app|by rewrite app_nil_r]. }
  assert (Hcnt : 0 <= zlen (all_sums ls) <= 1536).
  { unfold all_sums. rewrite !zlen_app.
    assert (Hr : forall t, 0 <= t < 3 -> 0 <= zlen (log_sums (CURSEG t ls)) <= 512).
    { intros t Ht. assert (is_type t) as Hty by (unfold is_type, NR_CURSEG_TYPE; lia).
      rewrite (zlen_log_sums t) by (by apply Hls). by apply (log_count_range t), Hls. }
    pose proof (Hr 0 ltac:(lia)). pose proof (Hr 1 ltac:(lia)). pose proof (Hr 2 ltac:(lia)). lia. }
  assert (Hlen : zlen out = if zlen (all_sums ls) <=? 439 then 1 else if zlen (all_sums ls) - 439 <=? 584 then 2 else 3).
  { assert (zlen out = sum_page (zlen (all_sums ls)) + c_int (0 <? sum_off (zlen (all_sums ls)))) as ->.
    { unfold out. destruct (sw_page w) as [[a p]|].
      - rewrite zlen_app, W1. destruct W3 as (_ & _ & _ & Hpos). by rewrite (proj2 (Z.ltb_lt _ _) Hpos).
      - destruct W3 as (-> & _). simpl. lia. }
    revert Hcnt. generalize (zlen (all_sums ls)). intros n Hn. unfold sum_page, sum_off.
    destruct (Z.ltb_spec n 439), (Z.leb_spec n 439); try lia.
    - by rewrite (proj2 (Z.ltb_lt _ _)) by lia.
    - assert (n = 439) as -> by lia. done.
    - destruct (Z.leb_spec (n - 439) 584), (Z.ltb_spec 0 (7 * ((n - 439) mod 584))); simpl; zdiv. }
  split; [|done|..].
  - rewrite <- (zlen_map fst out). unfold out. destruct (sw_page w) as [[a p]|]; [|by rewrite W2, zlen_map, zlen_seqZ by apply zlen_nonneg].
    destruct W3 as (-> & _). rewrite map_app, W2, zlen_app, zlen_map, zlen_seqZ by apply zlen_nonneg.
    change (zlen (map fst [(u32 (start + sum_page (zlen (all_sums ls))), p)])) with 1.
    rewrite seqZ_snoc, map_app by apply zlen_nonneg. simpl. by rewrite W1.
  - rewrite <- Hpages in W4. by apply Forall_map in W4.
  - intros j Hj'. rewrite Hpages. split; [by apply W5|]. rewrite <- (zlen_map snd out), Hpages.
    unfold sw_pages. rewrite zlen_app, zlen_map, W1. destruct (sum_place_lt j (zlen (all_sums ls)) Hj') as [Hlt|[Heq Hof]].
    + pose proof (zlen_nonneg (match sw_page w with Some (_, p) => [p] | None => [] end)). lia.
    + destruct (sw_page w) as [[a p]|]; [change (zlen [p]) with 1; lia|]. destruct W3 as (H0 & _).
      pose proof (sum_off_range j ltac:(lia)). lia.
  - rewrite Hpages. done.
Qed.

(** ** Restoring the logs *)

(** Log [t] is the one of the checkpoint; its next segment is not chosen. *)
Record log_restored (t : Z) (c c' : curseg_info) : Prop := {
  lr_segno : segno c' = segno c;
  lr_alloc : alloc_type c' = alloc_type c;
  lr_next : next_blkoff c' = next_blkoff c;
  lr_zone : zone c' = GET_ZONE_FROM_SEG (ly_geom ly) (segno c);
  lr_next_segno : next_segno c' = NULL_SEGNO;
  lr_type : sum_type (sum_blk c') = if IS_NODESEG t then SUM_TYPE_NODE else SUM_TYPE_DATA;
  lr_len : zlen (sum_entries (sum_blk c')) = 512
}.

Lemma reset_log t t' m s : zlen (curseg_array s) = NR_CURSEG_TYPE -> is_type t ->
  CURSEG_I t' (reset_curseg ly t m s) =
    (if t =? t' then mk_curseg (mk_sumblk (sum_entries (sum_blk (CURSEG_I t s))) (if IS_NODESEG t then SUM_TYPE_NODE else SUM_TYPE_DATA))
       (alloc_type (CURSEG_I t s)) (next_segno (CURSEG_I t s)) 0 (GET_ZONE_FROM_SEG (ly_geom ly) (next_segno (CURSEG_I t s))) NULL_SEGNO
     else CURSEG_I t' s) /\
  zlen (curseg_array (reset_curseg ly t m s)) = NR_CURSEG_TYPE.
Proof.
  intros Hl Ht. unfold reset_curseg. cbv zeta. set (c := mk_curseg _ _ _ _ _ _).
  change (CURSEG_I t' (set_sit ?x ?y)) with (CURSEG_I t' y). split.
  - unfold set_sit, CURSEG_I at 1. simpl. change (zget curseg0 (zset (curseg_array s) t c) t') with (CURSEG_I t' (put_curseg t c s)).
    by apply curseg_put.
  - unfold set_sit. simpl. by rewrite zlen_zset.
Qed.

Lemma byte_alloc_alloc m : byte_alloc (alloc_byte m) = m.
Proof. by destruct m. Qed.

(** Giving log [t] its place: what both readers do around [reset_curseg]. *)
Lemma place_log cp ls t s entries seg blk : logs_ok ls -> ckpt_logs cp ls -> is_type t ->
  zlen (curseg_array s) = NR_CURSEG_TYPE -> zlen entries = 512 ->
  seg = curseg_segno t ls -> blk = curseg_blkoff t ls ->
  let s1 := reset_curseg ly t false (put_curseg t (set_next_segno seg (CURSEG_I t s)) s) in
  let c := set_next_blkoff blk (set_alloc_type (byte_alloc (byte_at (ckpt cp) (alloc_type_off t))) (CURSEG_I t s1)) in
  alloc_type c = alloc_type (CURSEG t ls) /\ sum_entries (sum_blk c) = sum_entries (sum_blk (CURSEG_I t s)) /\
  log_restored t (CURSEG t ls) (set_entries entries c) /\
  (zlen (sum_entries (sum_blk (CURSEG_I t s))) = 512 -> log_restored t (CURSEG t ls) c) /\
  (forall t' x, t' <> t -> CURSEG_I t' (put_curseg t x s1) = CURSEG_I t' s) /\
  (forall x, CURSEG_I t (put_curseg t x s1) = x) /\
  (forall x, zlen (curseg_array (put_curseg t x s1)) = NR_CURSEG_TYPE).
Proof.
  intros Hls Hcl Ht Hl He -> ->. cbv zeta.
  set (s0 := put_curseg t _ s). assert (Hl0 : zlen (curseg_array s0) = NR_CURSEG_TYPE) by (unfold s0; by rewrite cursegs_len).
  assert (H0 : CURSEG_I t s0 = set_next_segno (curseg_segno t ls) (CURSEG_I t s)) by (unfold s0; rewrite curseg_put by done; by rewrite Z.eqb_refl).
  destruct (reset_log t t false s0 Hl0 Ht) as [H1 Hl1]. rewrite Z.eqb_refl, H0 in H1.
  rewrite (cl_alloc _ _ Hcl t Ht), H1. unfold curseg_alloc_type. rewrite byte_alloc_alloc. simpl.
  split; [done|]. split; [done|]. split; [by split|]. split; [by split|]. split_and!.
  - intros t' x Hne. rewrite curseg_put by done. rewrite (proj2 (Z.eqb_neq t t')) by done.
    rewrite (proj1 (reset_log t t' false s0 Hl0 Ht)), (proj2 (Z.eqb_neq t t')) by done.
    unfold s0. rewrite curseg_put by done. by rewrite (proj2 (Z.eqb_neq t t')) by done.
  - intros x. rewrite curseg_put by done. by rewrite Z.eqb_refl.
  - intros x. by rewrite zlen_zset.
Qed.

(** The summaries in use come back. *)
Definition sums_restored (n : Z) (c c' : curseg_info) : Prop :=
  forall j, 0 <= j < n -> zget sum0 (sum_entries (sum_blk c')) j = zget sum0 (sum_entries (sum_blk c)) j.

Lemma pages_on_disk start d out p : on_disk d out -> map fst out = map (fun i => u32 (start + i)) (seqZ 0 (zlen out)) ->
  0 <= p < zlen out -> d (u32 (start + p)) = zget [] (map snd out) p.
Proof.
  intros Ho Ha Hp. pose proof (read_blocks (fun b => b) (fun i => u32 (start + i)) d out _ Ho Ha) as Hr.
  rewrite <- (zget_map_seqZ [] (fun i => get_meta_page d (u32 (start + i))) (zlen out)) by done. by rewrite Hr.
Qed.

Lemma base_next ls i : 0 <= i < 2 -> base ls (i + 1) = base ls i + log_count (CURSEG i ls).
Proof. intros Hi. assert (i = 0 \/ i = 1) as [-> | ->] by lia; unfold base; simpl; lia. Qed.

Lemma read_log_ok cp ls d out start i s r : logs_ok ls -> ckpt_logs cp ls -> 0 <= i < 3 ->
  on_disk d out -> compacted start ls out ->
  zlen (curseg_array s) = NR_CURSEG_TYPE -> zlen (sum_entries (sum_blk (CURSEG_I i s))) = 512 ->
  reading start d (base ls i) r ->
  let '(s', r') := read_compacted_log cp d (s, r) i in
  reading start d (base ls i + log_count (CURSEG i ls)) r' /\ zlen (curseg_array s') = NR_CURSEG_TYPE /\
  log_restored i (CURSEG i ls) (CURSEG_I i s') /\ sums_restored (log_count (CURSEG i ls)) (CURSEG i ls) (CURSEG_I i s') /\
  forall t, t <> i -> CURSEG_I t s' = CURSEG_I t s.
Proof.
  intros Hls Hcl Hi Ho Hco Hl He Hr. assert (Ht : is_type i) by (unfold is_type, NR_CURSEG_TYPE; lia).
  destruct (cl_data _ _ Hcl i Hi) as [Hseg Hblk].
  unfold read_compacted_log. rewrite Hseg, Hblk.
  set (s1 := reset_curseg ly i false _). set (c := set_next_blkoff _ _).
  pose proof (fun entries H512 => place_log cp ls i s entries _ _ Hls Hcl Ht Hl H512 eq_refl eq_refl) as Hpl.
  cbv zeta in Hpl. fold s1 in Hpl. fold c in Hpl.
  assert (Hcnt : match alloc_type c with SSR => blocks_per_seg | LFS => curseg_blkoff i ls end = log_count (CURSEG i ls)).
  { destruct (Hpl _ He) as (-> & _). done. }
  rewrite Hcnt. assert (Hce : sum_entries (sum_blk c) = sum_entries (sum_blk (CURSEG_I i s))) by apply (Hpl _ He). rewrite Hce.
  pose proof (log_count_range i _ (ls_log _ Hls i Ht)) as Hcr.
  assert (Hb : 0 <= base ls i).
  { unfold base. pose proof (log_count_range 0 _ (ls_log _ Hls 0 ltac:(done))).
    pose proof (log_count_range 1 _ (ls_log _ Hls 1 ltac:(done))). repeat case_if; lia. }
  pose proof (read_entries_ok start d (base ls i) (log_count (CURSEG i ls)) (sum_entries (sum_blk (CURSEG_I i s))) r Hb ltac:(lia) Hr) as Hre.
  destruct (read_entries d _ _) as [entries r']. destruct Hre as (R1 & R2 & R3). rewrite He in R2.
  destruct (Hpl entries R2) as (_ & _ & P1 & _ & P2 & P3 & P4).
  split_and!; [done|apply P4|by rewrite P3| |intros t Hne; by apply P2].
  intros j Hj. rewrite P3. simpl. rewrite R3, (proj2 (Z.leb_le 0 j)), (proj2 (Z.ltb_lt _ _)) by lia. simpl.
  destruct (all_sums_at ls i j Hls Hi Hj) as [<- Hrange]. destruct (co_sums _ _ _ Hco _ Hrange) as [<- Hpg].
  f_equal. apply pages_on_disk; [done|apply Hco|]. pose proof (sum_off_range (base ls i + j) ltac:(lia)). lia.
Qed.

Lemma read_compacted_ok cp ls ls0 d out : logs_ok ls -> ckpt_logs cp ls ->
  zlen (curseg_array (segs ls0)) = NR_CURSEG_TYPE -> zlen (journals ls0) = NR_CURSEG_TYPE ->
  (forall t, 0 <= t < 3 -> zlen (sum_entries (sum_blk (CURSEG t ls0))) = 512) ->
  on_disk d out -> compacted (start_sum_block cp) ls out ->
  let ls' := read_compacted_summaries cp d ls0 in
  zlen (curseg_array (segs ls')) = NR_CURSEG_TYPE /\ zlen (journals ls') = NR_CURSEG_TYPE /\
  get_journal CURSEG_HOT_DATA ls' = get_journal CURSEG_HOT_DATA ls /\
  get_journal CURSEG_COLD_DATA ls' = get_journal CURSEG_COLD_DATA ls /\
  (forall t, 0 <= t < 3 -> log_restored t (CURSEG t ls) (CURSEG t ls') /\
     sums_restored (log_count (CURSEG t ls)) (CURSEG t ls) (CURSEG t ls')) /\
  forall t, 3 <= t -> CURSEG t ls' = CURSEG t ls0.
Proof.
  intros Hls Hcl Hl Hjl He Ho Hco. cbv zeta.
  remember (read_compacted_summaries cp d ls0) as ls' eqn:E. unfold read_compacted_summaries in E.
  set (start := start_sum_block cp) in *.
  assert (Hd : d start = zget [] (map snd out) 0).
  { pose proof (co_len _ _ _ Hco) as Hlen. rewrite <- (pages_on_disk start d out 0 Ho (co_addr _ _ _ Hco)) by (repeat case_if_in Hlen; lia).
    rewrite Z.add_0_r. f_equal. unfold start, start_sum_block, u32. by rewrite Zmod_mod. }
  destruct (co_journals _ _ _ Hco) as [J0 J2]. change (get_meta_page d start) with (d start) in E. change SUM_JOURNAL_SIZE with 507 in E.
  rewrite Hd, J0, J2, <- Hd in E. change (d start) with (get_meta_page d start) in E.
  set (ls1 := put_journal CURSEG_COLD_DATA _ _) in E. change (segs ls1) with (segs ls0) in E.
  assert (HJ : zlen (journals ls1) = NR_CURSEG_TYPE /\ get_journal CURSEG_HOT_DATA ls1 = get_journal CURSEG_HOT_DATA ls /\
    get_journal CURSEG_COLD_DATA ls1 = get_journal CURSEG_COLD_DATA ls).
  { unfold ls1, put_journal, get_journal. simpl. split; [by rewrite !zlen_zset|]. split.
    - rewrite zget_zset_ne by done. apply zget_zset_eq. by rewrite Hjl.
    - apply zget_zset_eq. by rewrite zlen_zset, Hjl. }
  clearbody ls1.
  assert (Hr0 : reading start d (base ls 0) (mk_sr (get_meta_page d start) (2 * 507) (u32 (start + 1)))).
  { unfold reading, base, get_meta_page. simpl. rewrite Z.add_0_r. do 2 f_equal. unfold start, start_sum_block, u32. by rewrite Zmod_mod. }
  cbn [foldl] in E.
  pose proof (read_log_ok cp ls d out start CURSEG_HOT_DATA (segs ls0) _ Hls Hcl ltac:(done) Ho Hco Hl (He 0 ltac:(done)) Hr0) as R0.
  destruct (read_compacted_log cp d (segs ls0, _) CURSEG_HOT_DATA) as [s1 r1]. destruct R0 as (A0 & A1 & A2 & A3 & A4).
  change CURSEG_HOT_DATA with 0 in *. change CURSEG_WARM_DATA with 1 in *. change CURSEG_COLD_DATA with 2 in *.
  rewrite <- base_next in A0 by lia.
  pose proof (read_log_ok cp ls d out start 1 s1 r1 Hls Hcl ltac:(done) Ho Hco A1 ltac:(rewrite A4 by done; by apply He) A0) as R1.
  destruct (read_compacted_log cp d (s1, r1) 1) as [s2 r2]. destruct R1 as (B0 & B1 & B2 & B3 & B4).
  rewrite <- base_next in B0 by lia.
  pose proof (read_log_ok cp ls d out start 2 s2 r2 Hls Hcl ltac:(done) Ho Hco B1
    ltac:(rewrite B4, A4 by done; by apply He) B0) as R2.
  destruct (read_compacted_log cp d (s2, r2) 2) as [s3 r3]. destruct R2 as (_ & C1 & C2 & C3 & C4).
  subst ls'. destruct HJ as (HJ1 & HJ2 & HJ3). split; [exact C1|]. split; [exact HJ1|]. split; [exact HJ2|]. split; [exact HJ3|].
  assert (Hcur : forall t, CURSEG t (put_segs (s3, r3).1 ls1) = CURSEG_I t s3) by done.
  split; intros t Ht; rewrite Hcur; [|by rewrite C4, B4, A4 by lia].
  assert (t = 0 \/ t = 1 \/ t = 2) as [-> |[-> | ->]] by lia; [by rewrite C4, B4 by done|by rewrite C4 by done|done].
Qed.

(** ** Blocks of one log *)

(** The summaries of a block, written one by one. *)
Lemma put_summaries_ok entries b n : 0 <= n -> 7 * n <= zlen b -> Forall sum_ok entries ->
  let b' := foldl (fun b j => put_summary (SUMMARY_SIZE * j) (zget sum0 entries j) b) b (seqZ 0 n) in
  zlen b' = zlen b /\ (forall i, 7 * n <= i -> byte_at b' i = byte_at b i) /\
  forall j, 0 <= j < n -> get_summary (SUMMARY_SIZE * j) b' = zget sum0 entries j.
Proof.
  intros Hn Hl Hs. cbv zeta. change SUMMARY_SIZE with 7. revert Hl. pattern n. apply natlike_ind; [|clear n Hn|done].
  - intros _. simpl. split_and!; [done|done|lia].
  - intros n Hn IH Hl. unfold Z.succ in *. rewrite seqZ_snoc, foldl_app, Z.add_0_l by done. cbn [foldl].
    set (b1 := foldl _ b (seqZ 0 n)) in *. destruct (IH ltac:(lia)) as (I1 & I2 & I3). split_and!.
    + by rewrite zlen_put_summary.
    + intros i Hi. rewrite put_summary_out by lia. apply I2. lia.
    + intros j Hj. destruct (Z.eq_dec j n) as [->|Hne].
      * apply get_put_summary; [lia|lia|]. apply (Forall_zget sum_ok); [done|apply sum0_ok].
      * rewrite get_summary_put by lia. apply I3. lia.
Qed.

(** The block of log [t]. *)
Record sum_block_of (ls : log_state) (t : Z) (b : list Z) : Prop := {
  sb_len : zlen b = 4096;
  sb_entries : sum_entries_of b = sum_entries (sum_blk (CURSEG t ls));
  sb_journal : get_bytes SUM_ENTRY_SIZE SUM_JOURNAL_SIZE b = get_journal t ls
}.

Lemma write_current_ok ls cache t a : logs_ok ls -> (forall a, zlen (cache a) = 4096) -> is_type t ->
  (write_current_sum_page ls cache t a).1 = a /\ sum_block_of ls t (write_current_sum_page ls cache t a).2.
Proof.
  intros Hls Hc Ht. split; [reflexivity|]. unfold write_current_sum_page. cbv zeta. cbn [snd].
  pose proof (ls_journal _ Hls t Ht) as HJ. pose proof (ls_log _ Hls t Ht) as Hlog.
  change (CURSEG_I t (segs ls)) with (CURSEG t ls). change SUM_ENTRY_SIZE with 3584. change ENTRIES_IN_SUM with 512.
  change SUM_JOURNAL_SIZE with 507 in *.
  set (b0 := put_bytes 3584 _ _). assert (H0 : zlen b0 = 4096) by (unfold b0, get_meta_page; rewrite zlen_put_bytes; rewrite ?Hc; lia).
  pose proof (put_summaries_ok (sum_entries (sum_blk (CURSEG t ls))) b0 512 ltac:(lia) ltac:(lia) (lo_sums _ _ Hlog)) as (P1 & P2 & P3).
  set (b1 := foldl _ b0 _) in *. set (b2 := set_le32 4092 0 _).
  assert (H2 : forall i, i < 4091 -> byte_at b2 i = byte_at b1 i) by (intros i Hi; unfold b2; by rewrite !zget_put_le_out by lia).
  assert (L2 : zlen b2 = 4096) by (unfold b2; rewrite !zlen_put_le; lia). split; [done|..].
  - unfold sum_entries_of. apply (zlist_ext sum0); rewrite zlen_map, zlen_seqZ by done; [by rewrite (lo_len _ _ Hlog)|].
    intros j Hj. change ENTRIES_IN_SUM with 512 in Hj. rewrite zget_map_seqZ by done. rewrite <- (P3 j Hj).
    apply get_summary_ext. change SUMMARY_SIZE with 7. intros i Hi. apply H2. lia.
  - change SUM_ENTRY_SIZE with 3584. change SUM_JOURNAL_SIZE with 507.
    rewrite <- (get_put_bytes 3584 (get_journal t ls) (get_meta_page cache a)), HJ by (unfold get_meta_page; rewrite ?Hc; lia).
    fold b0. apply get_bytes_ext; [lia..|]. intros i Hi. rewrite H2, P2 by lia. done.
Qed.

(** ** Reading all logs *)

Definition nid_only (x : f2fs_summary) : f2fs_summary := mk_sum (sum_nid x) 0 0.

Lemma sum_entries_of_len b : zlen (sum_entries_of b) = 512.
Proof. unfold sum_entries_of. by rewrite zlen_map, zlen_seqZ. Qed.

(** The entries a log gets from a block. *)
Definition normal_entries (cp : cp_info) (ls : log_state) (d : disk) (t : Z) : list f2fs_summary :=
  if IS_NODESEG t then
    if __exist_node_summaries cp then map nid_only (sum_entries (sum_blk (CURSEG t ls)))
    else restore_node_summary d (curseg_segno t ls)
  else sum_entries (sum_blk (CURSEG t ls)).

(** The address at which the block of log [t] is looked for. *)
Definition normal_addr (cp : cp_info) (t : Z) : Z :=
  if IS_DATASEG t then
    if __exist_node_summaries cp then sum_blk_addr cp NR_CURSEG_TYPE t else sum_blk_addr cp NR_CURSEG_DATA_TYPE t
  else sum_blk_addr cp NR_CURSEG_NODE_TYPE (t - CURSEG_HOT_NODE).

Lemma read_normal_ok cp ls ls0 d t : logs_ok ls -> ckpt_logs cp ls -> is_type t ->
  zlen (curseg_array (segs ls0)) = NR_CURSEG_TYPE -> zlen (journals ls0) = NR_CURSEG_TYPE ->
  (IS_DATASEG t = true \/ __exist_node_summaries cp = true -> sum_block_of ls t (d (normal_addr cp t))) ->
  let ls' := read_normal_summaries cp d ls0 t in
  zlen (curseg_array (segs ls')) = NR_CURSEG_TYPE /\ zlen (journals ls') = NR_CURSEG_TYPE /\
  log_restored t (CURSEG t ls) (CURSEG t ls') /\
  sum_entries (sum_blk (CURSEG t ls')) = normal_entries cp ls d t /\
  (IS_DATASEG t = true \/ __exist_node_summaries cp = true -> get_journal t ls' = get_journal t ls) /\
  forall t', t' <> t -> CURSEG t' ls' = CURSEG t' ls0 /\ get_journal t' ls' = get_journal t' ls0.
Proof.
  intros Hls Hcl Ht Hl Hjl Hb. cbv zeta. unfold read_normal_summaries.
  assert (Hseg : IS_DATASEG t = negb (IS_NODESEG t)) by (unfold IS_DATASEG, IS_NODESEG, CURSEG_COLD_DATA, CURSEG_HOT_NODE;
    destruct (Z.leb_spec t 2), (Z.leb_spec 3 t); simpl; lia).
  set (addr := if IS_DATASEG t then _ else _).
  assert (Ha : exists a, addr = (curseg_segno t ls, curseg_blkoff t ls, a) /\
    (IS_DATASEG t = true \/ __exist_node_summaries cp = true -> a = normal_addr cp t)).
  { unfold addr, normal_addr. destruct (IS_DATASEG t) eqn:Ed.
    - unfold IS_DATASEG, CURSEG_COLD_DATA in Ed. apply Z.leb_le in Ed. unfold is_type in Ht.
      destruct (cl_data _ _ Hcl t ltac:(lia)) as [-> ->]. eexists. by split.
    - unfold IS_DATASEG, CURSEG_COLD_DATA in Ed. apply Z.leb_gt in Ed. unfold is_type, NR_CURSEG_TYPE in Ht.
      unfold CURSEG_HOT_NODE. destruct (cl_node _ _ Hcl (t - 3) ltac:(lia)) as [-> ->].
      replace (3 + (t - 3)) with t by lia. eexists. split; [done|]. intros [?| ->]; done. }
  clearbody addr. destruct Ha as (a & -> & Hna).
  set (entries := if IS_NODESEG t then _ else _).
  assert (He : entries = normal_entries cp ls d t).
  { unfold entries, normal_entries. rewrite Hseg in Hb, Hna. destruct (IS_NODESEG t); simpl in Hb, Hna.
    - destruct (__exist_node_summaries cp); [|done]. unfold get_meta_page. rewrite Hna by auto.
      by rewrite (sb_entries _ _ _ (Hb (or_intror eq_refl))).
    - unfold get_meta_page. rewrite Hna by auto. apply (sb_entries _ _ _ (Hb (or_introl eq_refl))). }
  assert (Hlen : zlen (normal_entries cp ls d t) = 512).
  { pose proof (lo_len _ _ (ls_log _ Hls t Ht)). unfold normal_entries, restore_node_summary.
    destruct (IS_NODESEG t); [|done]. destruct (__exist_node_summaries cp); [by rewrite zlen_map|by rewrite zlen_map, zlen_seqZ]. }
  rewrite He. clear entries He. set (ls1 := put_journal t _ ls0).
  assert (Hl1 : segs ls1 = segs ls0) by done.
  assert (HJ : zlen (journals ls1) = NR_CURSEG_TYPE /\ forall t', get_journal t' ls1 =
    if t =? t' then get_bytes SUM_ENTRY_SIZE SUM_JOURNAL_SIZE (get_meta_page d a) else get_journal t' ls0).
  { unfold ls1, put_journal, get_journal. simpl. split; [by rewrite zlen_zset|]. intros t'. apply zget_zset. rewrite Hjl. apply Ht. }
  clearbody ls1. rewrite Hl1. set (s0 := segs ls0) in *. set (es := normal_entries cp ls d t) in *.
  set (c0 := set_next_segno (curseg_segno t ls) (set_entries es (CURSEG_I t s0))).
  assert (Hs0 : put_curseg t c0 s0 = put_curseg t (set_next_segno (curseg_segno t ls) (CURSEG_I t (put_curseg t (set_entries es (CURSEG_I t s0)) s0)))
    (put_curseg t (set_entries es (CURSEG_I t s0)) s0)).
  { rewrite curseg_put, Z.eqb_refl by done. unfold put_curseg, set_curseg_array. simpl. by rewrite zset_zset. }
  rewrite Hs0. set (sx := put_curseg t (set_entries es (CURSEG_I t s0)) s0).
  assert (Hlx : zlen (curseg_array sx) = NR_CURSEG_TYPE) by (unfold sx; by rewrite cursegs_len).
  assert (Hcx : CURSEG_I t sx = set_entries es (CURSEG_I t s0)) by (unfold sx; rewrite curseg_put by done; by rewrite Z.eqb_refl).
  pose proof (place_log cp ls t sx es _ _ Hls Hcl Ht Hlx Hlen eq_refl eq_refl) as Hpl. cbv zeta in Hpl.
  set (s1 := reset_curseg ly t false _) in *. set (c := set_next_blkoff _ _) in *.
  destruct Hpl as (_ & P2 & _ & P4 & P5 & P6 & P7). rewrite Hcx in P2, P4. destruct HJ as [HJ1 HJ2].
  split; [apply P7|]. split; [exact HJ1|].
  assert (Hc : CURSEG t (put_segs (put_curseg t c s1) ls1) = c) by apply P6. rewrite Hc.
  split; [by apply P4|]. split; [exact P2|]. split.
  - intros Hor. change (get_journal t (put_segs (put_curseg t c s1) ls1)) with (get_journal t ls1). rewrite HJ2, Z.eqb_refl.
    unfold get_meta_page. rewrite Hna by done. apply (sb_journal _ _ _ (Hb Hor)).
  - intros t' Hne. change (get_journal t' (put_segs (put_curseg t c s1) ls1)) with (get_journal t' ls1).
    rewrite HJ2, (proj2 (Z.eqb_neq t t')) by done. split; [|done].
    change (CURSEG_I t' (put_curseg t c s1) = CURSEG_I t' s0). rewrite P5 by done. unfold sx. rewrite curseg_put by done.
    by rewrite (proj2 (Z.eqb_neq t t')) by done.
Qed.

Definition block_found (cp : cp_info) (ls : log_state) (d : disk) (t : Z) : Prop :=
  IS_DATASEG t = true \/ __exist_node_summaries cp = true -> sum_block_of ls t (d (normal_addr cp t)).

(** What [read_normal_summaries] restores of log [t]. *)
Definition normally_restored (cp : cp_info) (ls : log_state) (d : disk) (t : Z) (ls' : log_state) : Prop :=
  log_restored t (CURSEG t ls) (CURSEG t ls') /\
  sum_entries (sum_blk (CURSEG t ls')) = normal_entries cp ls d t /\
  (IS_DATASEG t = true \/ __exist_node_summaries cp = true -> get_journal t ls' = get_journal t ls).

Lemma read_normals_ok cp ls d l ls0 : logs_ok ls -> ckpt_logs cp ls ->
  NoDup l -> Forall (fun t => is_type t /\ block_found cp ls d t) l ->
  zlen (curseg_array (segs ls0)) = NR_CURSEG_TYPE -> zlen (journals ls0) = NR_CURSEG_TYPE ->
  let ls' := foldl (read_normal_summaries cp d) ls0 l in
  (forall t, t ∈ l -> normally_restored cp ls d t ls') /\
  forall t, t ∉ l -> CURSEG t ls' = CURSEG t ls0 /\ get_journal t ls' = get_journal t ls0.
Proof.
  intros Hls Hcl. cbv zeta. revert ls0. induction l as [|t l IH]; intros ls0 Hnd Hall Hl Hj.
  { split; [by intros t Ht%elem_of_nil|done]. }
  apply NoDup_cons in Hnd as [Hni Hnd]. apply Forall_cons in Hall as [[Ht Hb] Hall].
  destruct (read_normal_ok cp ls ls0 d t Hls Hcl Ht Hl Hj Hb) as (R1 & R2 & R3 & R4 & R5 & R6).
  cbn [foldl]. set (ls1 := read_normal_summaries cp d ls0 t) in *. clearbody ls1.
  destruct (IH ls1 Hnd Hall R1 R2) as [I1 I2]. split.
  - intros t' [-> |Ht']%elem_of_cons; [|by apply I1]. destruct (I2 t Hni) as [Hc Hg].
    unfold normally_restored. by rewrite Hc, Hg.
  - intros t' [Hne Hni']%not_elem_of_cons. destruct (I2 t' Hni') as [-> ->]. by apply R6.
Qed.

(** The pack the checkpoint describes: its data summaries are compacted when
    they fit two blocks; the node summaries follow when there are any; the
    last block is the second copy of the checkpoint block. *)
Record sum_pack (cp : cp_info) (ls : log_state) : Prop := {
  sp_compact : is_set_ckpt_flags cp CP_COMPACT_SUM_FLAG = (npages_for_summary_flush false cp ls <? 3);
  sp_total : le32_at cp_pack_total_block_count (ckpt cp) =
    le32_at cp_pack_start_sum (ckpt cp) + npages_for_summary_flush false cp ls +
    (if __exist_node_summaries cp then 3 else 0) + 1
}.

Lemma npages_eq cp ls : logs_ok ls -> ckpt_logs cp ls ->
  npages_for_summary_flush false cp ls =
  if zlen (all_sums ls) <=? 439 then 1 else if zlen (all_sums ls) - 439 <=? 584 then 2 else 3.
Proof.
  intros Hls Hcl. unfold npages_for_summary_flush.
  assert (zsum (valid_sum_count false cp ls) [0; 1; 2] = zlen (all_sums ls)) as ->; [|done].
  simpl. rewrite !(valid_count_eq cp ls false _ Hcl) by lia. unfold all_sums. rewrite !zlen_app.
  rewrite (zlen_log_sums 0), (zlen_log_sums 1), (zlen_log_sums 2) by (apply Hls; unfold is_type, NR_CURSEG_TYPE; lia). lia.
Qed.

(** Each block [write_normal_summaries] writes is the one of its log. *)
Lemma normal_blocks ls cache start type : logs_ok ls -> (forall a, zlen (cache a) = 4096) ->
  type = CURSEG_HOT_DATA \/ type = CURSEG_HOT_NODE ->
  Forall (fun ab => zlen ab.2 = 4096) (write_normal_summaries ls cache start type) /\
  forall d t, on_disk d (write_normal_summaries ls cache start type) -> type <= t < type + 3 ->
    sum_block_of ls t (d (u32 (start + (t - type)))).
Proof.
  intros Hls Hc Hty.
  assert (Hn : (if IS_DATASEG type then NR_CURSEG_DATA_TYPE else NR_CURSEG_NODE_TYPE) = 3) by (by destruct (IS_DATASEG type)).
  unfold write_normal_summaries, on_disk. rewrite Hn.
  assert (Hin : forall t, type <= t < type + 3 -> is_type t).
  { unfold is_type, NR_CURSEG_TYPE, CURSEG_HOT_DATA, CURSEG_HOT_NODE in *. lia. }
  rewrite !Forall_map, Forall_forall. split.
  - intros t Ht%elem_of_seqZ. apply (sb_len ls t), write_current_ok; [done|done|]. apply Hin. lia.
  - intros d t Hd Ht. rewrite Forall_map, Forall_forall in Hd.
    assert (Hs : t ∈ seqZ type 3) by (apply elem_of_seqZ; lia). specialize (Hd t Hs). cbv beta in Hd.
    destruct (write_current_ok ls cache t (u32 (start + (t - type))) Hls Hc (Hin t Ht)) as [Ha Hb].
    rewrite Ha in Hd. by rewrite Hd.
Qed.

Lemma data_summaries_len cp ls cache start : logs_ok ls -> ckpt_logs cp ls -> sum_pack cp ls -> (forall a, zlen (cache a) = 4096) ->
  let out := write_data_summaries cp ls cache (u32 start) in
  zlen out = npages_for_summary_flush false cp ls /\ map fst out = map (fun i => u32 (start + i)) (seqZ 0 (zlen out)) /\
  Forall (fun ab => zlen ab.2 = 4096) out.
Proof.
  intros Hls Hcl Hsp Hc. cbv zeta. unfold write_data_summaries. rewrite (sp_compact _ _ Hsp). case_if.
  - destruct (write_compacted_ok cp ls cache start Hls Hcl Hc) as [C1 C2 C3 _ _]. split_and!; [|done|done].
    by rewrite C2, npages_eq.
  - assert (npages_for_summary_flush false cp ls = 3) as -> by (rewrite npages_eq in * by done; repeat case_if; lia).
    split; [done|]. split.
    + unfold write_normal_summaries. simpl. unfold write_current_sum_page. simpl. rewrite !u32_add_idemp. done.
    + apply (proj1 (normal_blocks ls cache (u32 start) CURSEG_HOT_DATA Hls Hc (or_introl eq_refl))).
Qed.

(** The logs before they are restored. *)
Definition blank_logs (s : seg_state) : log_state :=
  mk_logs (set_curseg_array (replicate 6 (mk_curseg (mk_sumblk (replicate 512 sum0) SUM_TYPE_DATA) LFS NULL_SEGNO 0 0 0)) s)
    (replicate 6 (replicate (Z.to_nat SUM_JOURNAL_SIZE) 0)).

(** The device holds the summaries of the pack. *)
Record sums_on_disk (cp : cp_info) (ls : log_state) (cache d : disk) : Prop := {
  sd_data : on_disk d (write_data_summaries cp ls cache (start_sum_block cp));
  sd_node : __exist_node_summaries cp = true ->
    on_disk d (write_node_summaries ls cache (u32 (start_sum_block cp + npages_for_summary_flush false cp ls)))
}.

Lemma start_sum_idemp cp : u32 (start_sum_block cp) = start_sum_block cp.
Proof. unfold start_sum_block, u32. by rewrite Zmod_mod. Qed.

(** The block found at one address is looked for at an equal one. *)
Ltac same_addr Hb :=
  match type of Hb with
  | sum_block_of _ _ (_ (u32 ?y)) =>
      match goal with |- sum_block_of _ _ (_ (u32 ?x)) => replace x with y by lia; exact Hb end
  end.

(** The blocks of the logs that are not compacted are where they are looked for. *)
Lemma blocks_found cp ls cache d t : logs_ok ls -> ckpt_logs cp ls -> sum_pack cp ls -> (forall a, zlen (cache a) = 4096) ->
  sums_on_disk cp ls cache d -> is_type t -> (IS_DATASEG t = true -> is_set_ckpt_flags cp CP_COMPACT_SUM_FLAG = false) ->
  block_found cp ls d t.
Proof.
  intros Hls Hcl [Hco Htot] Hc [Hd Hn] Ht Hnc Hor. unfold normal_addr, sum_blk_addr. rewrite Htot.
  unfold NR_CURSEG_TYPE, NR_CURSEG_DATA_TYPE, NR_CURSEG_NODE_TYPE, CURSEG_HOT_NODE.
  destruct (IS_DATASEG t) eqn:Et.
  - specialize (Hnc eq_refl). unfold write_data_summaries in Hd. rewrite Hnc in Hd.
    assert (Hp : npages_for_summary_flush false cp ls = 3).
    { rewrite Hnc in Hco. rewrite npages_eq in * by done. repeat case_if; zbool; lia || done. }
    unfold IS_DATASEG, CURSEG_COLD_DATA in Et. apply Z.leb_le in Et. unfold is_type in Ht.
    pose proof (proj2 (normal_blocks ls cache (start_sum_block cp) CURSEG_HOT_DATA Hls Hc (or_introl eq_refl)) d t Hd
      ltac:(unfold CURSEG_HOT_DATA; lia)) as Hb.
    unfold start_sum_block in Hb. rewrite u32_add_idemp in Hb. rewrite Hp.
    unfold CURSEG_HOT_DATA in Hb. destruct (__exist_node_summaries cp); same_addr Hb.
  - destruct Hor as [|He]; [done|]. rewrite He. specialize (Hn He). unfold write_node_summaries in Hn.
    unfold IS_DATASEG, CURSEG_COLD_DATA in Et. apply Z.leb_gt in Et. unfold is_type, NR_CURSEG_TYPE in Ht.
    pose proof (proj2 (normal_blocks ls cache _ CURSEG_HOT_NODE Hls Hc (or_intror eq_refl)) d t Hn
      ltac:(unfold CURSEG_HOT_NODE; lia)) as Hb.
    unfold start_sum_block, CURSEG_HOT_NODE in Hb. rewrite u32_add_idemp, <- Z.add_assoc, u32_add_idemp in Hb. same_addr Hb.
Qed.

Lemma blank_at s t : is_type t ->
  CURSEG t (blank_logs s) = mk_curseg (mk_sumblk (replicate 512 sum0) SUM_TYPE_DATA) LFS NULL_SEGNO 0 0 0 /\
  zlen (curseg_array (segs (blank_logs s))) = NR_CURSEG_TYPE /\ zlen (journals (blank_logs s)) = NR_CURSEG_TYPE.
Proof.
  intros Ht. split; [|done]. unfold is_type, NR_CURSEG_TYPE in Ht. unfold CURSEG, CURSEG_I, blank_logs, set_curseg_array.
  cbn [segs curseg_array]. rewrite zget_lookup by lia. rewrite lookup_replicate_2 by lia. done.
Qed.

Lemma build_curseg_eq cp d s : build_curseg cp d s = restore_curseg_summaries cp d (blank_logs s).
Proof. done. Qed.

Definition is_compact (cp : cp_info) : bool := is_set_ckpt_flags cp CP_COMPACT_SUM_FLAG.

(** What a mount gets back of log [t]. *)
Definition log_back (cp : cp_info) (ls : log_state) (d : disk) (t : Z) (c' : curseg_info) : Prop :=
  log_restored t (CURSEG t ls) c' /\
  if IS_DATASEG t && is_compact cp then sums_restored (log_count (CURSEG t ls)) (CURSEG t ls) c'
  else sum_entries (sum_blk c') = normal_entries cp ls d t.

Lemma restore_ok cp ls cache d s : logs_ok ls -> ckpt_logs cp ls -> sum_pack cp ls -> (forall a, zlen (cache a) = 4096) ->
  sums_on_disk cp ls cache d ->
  let ls' := (restore_curseg_summaries cp d (blank_logs s)).2 in
  (forall t, is_type t -> log_back cp ls d t (CURSEG t ls')) /\
  get_journal CURSEG_HOT_DATA ls' = get_journal CURSEG_HOT_DATA ls /\
  get_journal CURSEG_COLD_DATA ls' = get_journal CURSEG_COLD_DATA ls /\
  (__exist_node_summaries cp = true -> forall t, 3 <= t < 6 -> get_journal t ls' = get_journal t ls).
Proof.
  intros Hls Hcl Hsp Hc Hd. cbv zeta. unfold restore_curseg_summaries.
  destruct (blank_at s 0 ltac:(done)) as (_ & Hbl & Hbj).
  assert (Hex : forall (P : log_state -> Prop) ls' (b : bool), P ls' -> P (if b then (- EINVAL, ls') else (0, ls')).2) by (intros P ls' [] HP; done).
  pose proof (fun t Ht Hnc => blocks_found cp ls cache d t Hls Hcl Hsp Hc Hd Ht Hnc) as Hbf.
  destruct (is_set_ckpt_flags cp CP_COMPACT_SUM_FLAG) eqn:Ec.
  - assert (Hco : compacted (start_sum_block cp) ls (write_compacted_summaries cp ls cache (start_sum_block cp))).
    { pose proof (write_compacted_ok cp ls cache (start_sum_block cp) Hls Hcl Hc) as H. by rewrite start_sum_idemp in H. }
    pose proof (sd_data _ _ _ _ Hd) as Ho. unfold write_data_summaries in Ho. rewrite Ec in Ho.
    assert (H512 : forall t, 0 <= t < 3 -> zlen (sum_entries (sum_blk (CURSEG t (blank_logs s)))) = 512).
    { intros t Ht. destruct (blank_at s t ltac:(unfold is_type, NR_CURSEG_TYPE; lia)) as [-> _]. done. }
    destruct (read_compacted_ok cp ls (blank_logs s) d _ Hls Hcl Hbl Hbj H512 Ho Hco) as (R1 & R2 & R3 & R4 & R5 & _).
    set (ls1 := read_compacted_summaries cp d (blank_logs s)) in *. clearbody ls1.
    change (seqZ CURSEG_HOT_NODE (NR_CURSEG_TYPE - CURSEG_HOT_NODE)) with (seqZ 3 3).
    destruct (read_normals_ok cp ls d (seqZ 3 3) ls1 Hls Hcl (NoDup_seqZ _ _)) as [N1 N2]; [|done|done|].
    { apply Forall_forall. intros t Ht%elem_of_seqZ. split; [unfold is_type, NR_CURSEG_TYPE; lia|].
      apply Hbf; [unfold is_type, NR_CURSEG_TYPE; lia|]. unfold IS_DATASEG, CURSEG_COLD_DATA. intros Hx. apply Z.leb_le in Hx. lia. }
    apply Hex. set (ls2 := foldl _ ls1 _) in *. clearbody ls2.
    assert (Hlow : forall t, t < 3 -> CURSEG t ls2 = CURSEG t ls1 /\ get_journal t ls2 = get_journal t ls1).
    { intros t Ht. apply N2. rewrite elem_of_seqZ. lia. }
    split; [|split; [|split]].
    + intros t Ht. unfold is_type, NR_CURSEG_TYPE in Ht. unfold log_back, is_compact. rewrite Ec.
      destruct (Z.ltb_spec t 3).
      * rewrite (proj1 (Hlow t ltac:(lia))). unfold IS_DATASEG, CURSEG_COLD_DATA. rewrite (proj2 (Z.leb_le t 2)) by lia.
        apply R5. lia.
      * destruct (N1 t) as (M1 & M2 & _); [apply elem_of_seqZ; lia|]. split; [done|].
        unfold IS_DATASEG, CURSEG_COLD_DATA. by rewrite (proj2 (Z.leb_gt t 2)) by lia.
    + rewrite (proj2 (Hlow CURSEG_HOT_DATA ltac:(done))). done.
    + rewrite (proj2 (Hlow CURSEG_COLD_DATA ltac:(done))). done.
    + intros He t Ht. apply N1; [apply elem_of_seqZ; lia|by right].
  - change (seqZ CURSEG_HOT_DATA (NR_CURSEG_TYPE - CURSEG_HOT_DATA)) with (seqZ 0 6).
    destruct (read_normals_ok cp ls d (seqZ 0 6) (blank_logs s) Hls Hcl (NoDup_seqZ _ _)) as [N1 _]; [|done|done|].
    { apply Forall_forall. intros t Ht%elem_of_seqZ. split; [unfold is_type, NR_CURSEG_TYPE; lia|].
      apply Hbf; [unfold is_type, NR_CURSEG_TYPE; lia|done]. }
    apply Hex. set (ls2 := foldl _ (blank_logs s) _) in *. clearbody ls2.
    assert (HN : forall t, 0 <= t < 6 -> normally_restored cp ls d t ls2) by (intros t Ht; apply N1, elem_of_seqZ; lia).
    split; [|split; [|split]].
    + intros t Ht. destruct (HN t Ht) as (M1 & M2 & _). split; [done|]. unfold is_compact. by rewrite Ec, andb_false_r.
    + apply (HN 0); [lia|by left].
    + apply (HN 2); [lia|by left].
    + intros He t Ht. apply (HN t); [lia|by right].
Qed.

(** [restore_ok] with the result of the mount. *)
Lemma build_curseg_ok (cp : cp_info) (ls : log_state) (cache d : disk) (s : seg_state) :
  logs_ok ls -> ckpt_logs cp ls -> sum_pack cp ls -> (forall a, zlen (cache a) = 4096) ->
  sums_on_disk cp ls cache d ->
  le16_at 0 (get_journal CURSEG_HOT_DATA ls) <= NAT_JOURNAL_ENTRIES ->
  le16_at 0 (get_journal CURSEG_COLD_DATA ls) <= SIT_JOURNAL_ENTRIES ->
  let '(err, ls') := build_curseg cp d s in
  err = 0 /\ (forall t, is_type t -> log_back cp ls d t (CURSEG t ls')) /\
  get_journal CURSEG_HOT_DATA ls' = get_journal CURSEG_HOT_DATA ls /\
  get_journal CURSEG_COLD_DATA ls' = get_journal CURSEG_COLD_DATA ls.
Proof.
  intros Hls Hcl Hsp Hc Hd Hn Hs. rewrite build_curseg_eq.
  destruct (restore_ok cp ls cache d s Hls Hcl Hsp Hc Hd) as (R1 & R2 & R3 & _).
  destruct (restore_curseg_summaries cp d (blank_logs s)) as [err ls'] eqn:E. simpl in R1, R2, R3.
  split; [|done]. unfold restore_curseg_summaries in E.
  set (p := if is_set_ckpt_flags cp CP_COMPACT_SUM_FLAG then _ else _) in E. destruct p as [ty l0].
  case_if_in E; [|by inversion E]. exfalso. inversion E as [[He Hl]]. rewrite Hl, R2, R3 in E0.
  apply orb_true_iff in E0 as [E0|E0]; zbool; lia.
Qed.

(** C20. The logs survive: a mount that finds the pack of a checkpoint restores
    the six logs, each with its segment, its position and its way of
    allocation, from one, two or three blocks of data summaries; the summaries
    of every block that the log has used come back (of node blocks the node
    id, from the pack or, when the pack has no node summaries, from the node
    blocks themselves), and so do the two journals, byte by byte. *)
Theorem logs_roundtrip (cp : cp_info) (ls : log_state) (cache d : disk) (s : seg_state) :
  logs_ok ls -> ckpt_logs cp ls -> sum_pack cp ls -> (forall a, zlen (cache a) = 4096) ->
  sums_on_disk cp ls cache d ->
  le16_at 0 (get_journal CURSEG_HOT_DATA ls) <= NAT_JOURNAL_ENTRIES ->
  le16_at 0 (get_journal CURSEG_COLD_DATA ls) <= SIT_JOURNAL_ENTRIES ->
  let '(err, ls') := build_curseg cp d s in
  err = 0 /\ (forall t, is_type t -> log_back cp ls d t (CURSEG t ls')) /\
  get_journal CURSEG_HOT_DATA ls' = get_journal CURSEG_HOT_DATA ls /\
  get_journal CURSEG_COLD_DATA ls' = get_journal CURSEG_COLD_DATA ls.
Proof. apply build_curseg_ok. Qed.

End summary.
