(* ===== verification/CkptWrite.v ===== *)
(** * Writing a checkpoint (checkpoint.c, node.c, super.c)

    What a checkpoint puts into the checkpoint block, the pack it writes, in
    which order, and what a mount finds after a crash at any moment. *)

From S2P Require Import Prelude Blocks Counts FreeNid Journal FreeSeg Sit Segment Super Ckpt Orphan Summary.
From Stdlib Require Import ZArith Lia.
From stdpp Require Import base numbers option gmap list.
#[local] Open Scope Z_scope.
#[local] Open Scope c_scope.

(** ** State *)

Definition CP_SYNC : Z := 0x4.
Definition CP_DISCARD : Z := 0x10.

Record cp_state := mk_cps {
  cp : cp_info;
  logs : log_state;
  inos : ino_state;
  cnt : counts;
  last_valid_block_count : Z;
  nat_bits : list Z;           (* nm_i->nat_bits, nat_bits_blocks blocks *)
  nat_bits_blocks : Z;
  need_fsck : bool;            (* SBI_NEED_FSCK *)
  sbi_dirty : bool;            (* SBI_IS_DIRTY *)
  need_cp : bool               (* SBI_NEED_CP *)
}.

Definition set_cp (x : cp_info) (st : cp_state) : cp_state :=
  mk_cps x (logs st) (inos st) (cnt st) (last_valid_block_count st) (nat_bits st) (nat_bits_blocks st)
    (need_fsck st) (sbi_dirty st) (need_cp st).
Definition set_logs (x : log_state) (st : cp_state) : cp_state :=
  mk_cps (cp st) x (inos st) (cnt st) (last_valid_block_count st) (nat_bits st) (nat_bits_blocks st)
    (need_fsck st) (sbi_dirty st) (need_cp st).
Definition set_inos (x : ino_state) (st : cp_state) : cp_state :=
  mk_cps (cp st) (logs st) x (cnt st) (last_valid_block_count st) (nat_bits st) (nat_bits_blocks st)
    (need_fsck st) (sbi_dirty st) (need_cp st).
Definition set_nat_bits (x : list Z) (fsck : bool) (st : cp_state) : cp_state :=
  mk_cps (cp st) (logs st) (inos st) (cnt st) (last_valid_block_count st) x (nat_bits_blocks st)
    fsck (sbi_dirty st) (need_cp st).
Definition set_last_valid (st : cp_state) : cp_state :=
  mk_cps (cp st) (logs st) (inos st) (set_alloc_valid_block_count 0 (cnt st)) (total_valid_block_count (cnt st))
    (nat_bits st) (nat_bits_blocks st) (need_fsck st) (sbi_dirty st) (need_cp st).
Definition set_sbi_flags (dirty need : bool) (st : cp_state) : cp_state :=
  mk_cps (cp st) (logs st) (inos st) (cnt st) (last_valid_block_count st) (nat_bits st) (nat_bits_blocks st)
    (need_fsck st) dirty need.
Definition on_ckpt (f : list Z -> list Z) (st : cp_state) : cp_state := set_cp (set_ckpt (f (ckpt (cp st))) (cp st)) st.

(** What the rest of the system gives a checkpoint: its reason, the time, the
    version bit maps, the kilobytes written, the page cache, whether metadata
    is dirty at the start and again at the end, the errors that other threads
    and the completion of writes report before the [n]-th test of
    [f2fs_cp_error], and what [write_checkpoint] asks before it begins. *)
Record cp_env := mk_env {
  reason : Z;
  e_mtime : Z;
  sit_bitmap : list Z;
  nat_bitmap : list Z;
  kbytes_written : Z;
  cache : disk;
  dirty_meta : bool;
  redirtied : bool;
  io_error : Z -> bool;
  flush_error : Z;            (* of f2fs_flush_device_cache *)
  readonly : bool;            (* f2fs_readonly *)
  block_error : Z;            (* of block_operations, before __prepare_cp_block *)
  discard_blks : Z;
  trim_candidates : bool;     (* exist_trim_candidates *)
  tables_clean : bool         (* no dirty NAT or SIT entry, no prefree segment *)
}.

(** ** The checkpoint block *)

Definition next_free_nid (fn : free_nids) (nid : Z) : Z :=
  if nid_cnt_free fn <=? 0 then nid else zget 0 (free_nid_list fn) 0.

Definition valid_inode_count (c : counts) : Z := Z.max 0 (total_valid_inode_count c).

Definition __prepare_cp_block (fn : free_nids) (st : cp_state) : cp_state :=
  let last_nid := next_free_nid fn (next_scan_nid fn) in
  on_ckpt (fun b =>
    set_le32 next_free_nid_off last_nid
      (set_le32 valid_inode_count_off (valid_inode_count (cnt st))
        (set_le32 valid_node_count_off (total_valid_node_count (cnt st))
          (set_le64 valid_block_count_off (valid_user_blocks (cnt st)) b)))) st.

(** The counters a mount reads back (fill_super). *)
Definition load_counts (info : cp_info) (c : counts) : counts :=
  let b := ckpt info in
  mk_counts (u32 (le64_at user_block_count_off b)) (u32 (le64_at valid_block_count_off b)) (current_reserved_blocks c)
    (reserved_blocks c) (root_reserved_blocks c) (total_node_count c) (le32_at valid_node_count_off b)
    (alloc_valid_block_count c) (le32_at valid_inode_count_off b).

(** The positions of the logs. *)
Definition fill_node_log (ls : log_state) (b : list Z) (i : Z) : list Z :=
  put_le 1 (alloc_type_off (i + CURSEG_HOT_NODE)) (curseg_alloc_type (i + CURSEG_HOT_NODE) ls)
    (set_le16 (cur_node_blkoff i) (curseg_blkoff (i + CURSEG_HOT_NODE) ls)
      (set_le32 (cur_node_segno i) (curseg_segno (i + CURSEG_HOT_NODE) ls) b)).
Definition fill_data_log (ls : log_state) (b : list Z) (i : Z) : list Z :=
  put_le 1 (alloc_type_off (i + CURSEG_HOT_DATA)) (curseg_alloc_type (i + CURSEG_HOT_DATA) ls)
    (set_le16 (cur_data_blkoff i) (curseg_blkoff (i + CURSEG_HOT_DATA) ls)
      (set_le32 (cur_data_segno i) (curseg_segno (i + CURSEG_HOT_DATA) ls) b)).

Definition fill_logs (e : cp_env) (st : cp_state) : cp_state :=
  let ls := logs st in
  on_ckpt (fun b =>
    let b := set_le64 elapsed_time (e_mtime e) b in
    let b := set_le32 free_segment_count (free_segments (free_i (segs ls))) b in
    let b := foldl (fill_node_log ls) b [0; 1; 2] in
    foldl (fill_data_log ls) b [0; 1; 2]) st.

Definition put_flag (f : Z) (on : bool) (b : list Z) : list Z :=
  if on then __set_ckpt_flags f b else __clear_ckpt_flags f b.

(** Where the parts of the pack begin. *)
Definition orphan_blocks (st : cp_state) : Z := GET_ORPHAN_BLOCKS (ino_num (get_im ORPHAN_INO (inos st))).
Definition data_sum_blocks (st : cp_state) : Z := npages_for_summary_flush false (cp st) (logs st).

Definition fill_pack (e : cp_env) (st : cp_state) : cp_state :=
  let data_sum_blocks := data_sum_blocks st in
  let st := on_ckpt (put_flag CP_COMPACT_SUM_FLAG (data_sum_blocks <? NR_CURSEG_DATA_TYPE)) st in
  let start_sum := 1 + __cp_payload (cp st) + orphan_blocks st in
  let st := on_ckpt (set_le32 cp_pack_start_sum start_sum) st in
  let total := F2FS_CP_PACKS + __cp_payload (cp st) + data_sum_blocks + orphan_blocks st +
               (if __remain_node_summaries (reason e) then NR_CURSEG_NODE_TYPE else 0) in
  on_ckpt (set_le32 cp_pack_total_block_count total) st.

Definition disable_nat_bits (st : cp_state) : cp_state :=
  set_nat_bits [] true (on_ckpt (__clear_ckpt_flags CP_NAT_BITS_FLAG) st).

Definition enabled_nat_bits (umount : option Z) (info : cp_info) : bool :=
  let set := is_set_ckpt_flags info CP_NAT_BITS_FLAG in
  match umount with Some reason => c_true (reason .& CP_UMOUNT) && set | None => set end.

Definition update_ckpt_flags (e : cp_env) (st : cp_state) : cp_state :=
  let orphan_num := ino_num (get_im ORPHAN_INO (inos st)) in
  let st := if c_true (reason e .& CP_UMOUNT) &&
               (le32_at cp_pack_total_block_count (ckpt (cp st)) >? u32 (blocks_per_seg - nat_bits_blocks st))
            then disable_nat_bits st else st in
  let st := if c_true (reason e .& CP_TRIMMED) then on_ckpt (__set_ckpt_flags CP_TRIMMED_FLAG) st else st in
  let st := on_ckpt (put_flag CP_UMOUNT_FLAG (c_true (reason e .& CP_UMOUNT))) st in
  let st := on_ckpt (put_flag CP_FASTBOOT_FLAG (c_true (reason e .& CP_FASTBOOT))) st in
  let st := on_ckpt (put_flag CP_ORPHAN_PRESENT_FLAG (c_true orphan_num)) st in
  let st := if need_fsck st then on_ckpt (__set_ckpt_flags CP_FSCK_FLAG) st else st in
  on_ckpt (__clear_ckpt_flags CP_NOCRC_RECOVERY_FLAG) (on_ckpt (__set_ckpt_flags CP_CRC_RECOVERY_FLAG) st).

Definition put_bitmaps (e : cp_env) (st : cp_state) : cp_state :=
  let st := on_ckpt (put_bytes (__bitmap_ptr (cp st) SIT_BITMAP) (sit_bitmap e)) st in
  on_ckpt (put_bytes (__bitmap_ptr (cp st) NAT_BITMAP) (nat_bitmap e)) st.

Section write.
Context (f2fs_crc32 : list Z -> Z).

Definition put_crc (st : cp_state) : cp_state :=
  on_ckpt (fun b => let cso := le32_at checksum_offset b in set_le32 cso (f2fs_crc32 (get_bytes 0 cso b)) b) st.

(** The checkpoint block of this checkpoint. *)
Definition fill_ckpt (e : cp_env) (st : cp_state) : cp_state :=
  put_crc (put_bitmaps e (update_ckpt_flags e (fill_pack e (fill_logs e st)))).

(** ** The pack *)

(** Block [i] of a buffer. *)
Definition buf_block (b : list Z) (i : Z) : list Z := get_bytes (F2FS_BLKSIZE * i) F2FS_BLKSIZE b.

(** The NAT bits, tied to the checkpoint by its version and checksum. *)
Definition write_nat_bits (crc32 : Z) (start_blk : Z) (st : cp_state) : cp_state * list (Z * list Z) :=
  let cp_ver := cur_cp_version (ckpt (cp st)) .| Z.shiftl crc32 32 in
  let bits := set_le64 0 cp_ver (nat_bits st) in
  let blk := u32 (start_blk + blocks_per_seg - nat_bits_blocks st) in
  (set_nat_bits bits (need_fsck st) st,
   map (fun i => (u32 (blk + i), buf_block bits i)) (seqZ 0 (nat_bits_blocks st))).

(** The write statistics go into the journal of the hot node log. *)
Definition put_kbytes (e : cp_env) (ls : log_state) : log_state :=
  put_journal CURSEG_HOT_NODE (set_le64 2 (kbytes_written e) (get_journal CURSEG_HOT_NODE ls)) ls.

Definition payload_blocks (st : cp_state) (start_blk : Z) : list (Z * list Z) :=
  map (fun i => (u32 (start_blk + i), buf_block (ckpt (cp st)) i)) (seqZ 1 (__cp_payload (cp st))).

(** The blocks of the pack, in the order in which they are made dirty. *)
Definition pack_blocks (e : cp_env) (st : cp_state) (start_blk : Z) : cp_state * list (Z * list Z) :=
  let head := buf_block (ckpt (cp st)) 0 in
  let orphan_num := ino_num (get_im ORPHAN_INO (inos st)) in
  let blk := u32 (start_blk + 1 + __cp_payload (cp st)) in
  let orphans := if c_true orphan_num then write_orphan_inodes (inos st) blk else [] in
  let blk := if c_true orphan_num then u32 (blk + orphan_blocks st) else blk in
  let data := write_data_summaries (cp st) (logs st) (cache e) blk in
  let blk := u32 (blk + data_sum_blocks st) in
  let st := set_logs (put_kbytes e (logs st)) st in
  let nodes := if __remain_node_summaries (reason e) then write_node_summaries (logs st) (cache e) blk else [] in
  let blk := if __remain_node_summaries (reason e) then u32 (blk + NR_CURSEG_NODE_TYPE) else blk in
  (st, (start_blk, head) :: payload_blocks st start_blk ++ orphans ++ data ++ nodes ++ [(blk, head)]).

(** The state at the [n]-th test of the error flag, and the test. *)
Definition cp_check (e : cp_env) (n : Z) (st : cp_state) : bool * cp_state :=
  let st := if io_error e n then set_cp (f2fs_stop_checkpoint (cp st)) st else st in
  (f2fs_cp_error (cp st), st).

(** The end of [do_checkpoint], when the pack [out2] is dirty. *)
Definition finish_checkpoint (e : cp_env) (st : cp_state) (out1 out2 : list (Z * list Z))
    : Z * cp_state * list (Z * list Z) * list (Z * list Z) :=
  let '(bad, st) := cp_check e 4 st in
  if bad then (- EIO, st, out1, [])
  else
    let st := set_last_valid st in
    let st := set_inos (release_ino_entry false (inos st)) st in
    let '(bad, st) := cp_check e 5 st in
    if bad then (- EIO, st, out1, out2)
    else
      let st := set_sbi_flags false false st in
      let st := set_cp (__set_cp_next_pack (cp st)) st in
      (0, if redirtied e then set_sbi_flags true (need_cp st) st else st, out1, out2).

(** The part of [do_checkpoint] that writes, with the block filled. *)
Definition write_pack (e : cp_env) (st : cp_state) : Z * cp_state * list (Z * list Z) * list (Z * list Z) :=
  let crc32 := cur_cp_crc (ckpt (cp st)) in
  let start_blk := __start_cp_next_addr (cp st) in
  let bits := enabled_nat_bits (Some (reason e)) (cp st) in
  let '(st, out1) := if bits then write_nat_bits crc32 start_blk st else (st, []) in
  let '(bad, st) := cp_check e 2 st in
  if bits && bad then (- EIO, st, out1, [])
  else
    let '(bad, st) := cp_check e 3 st in
    if bad then (- EIO, st, out1, [])
    else if c_true (flush_error e) then (flush_error e, st, out1, [])
    else
      let '(st, out2) := pack_blocks e st start_blk in
      finish_checkpoint e st out1 out2.

(** The result, the state, the blocks written before the pack and those of the
    pack.  The blocks of one group are written in any order; the second group
    goes to the device after the first. *)
Definition do_checkpoint (e : cp_env) (st : cp_state) : Z * cp_state * list (Z * list Z) * list (Z * list Z) :=
  let '(bad, st) := cp_check e 1 st in
  if dirty_meta e && bad then (- EIO, st, [], [])
  else write_pack e (fill_ckpt e st).

(** [flush]: [flush_nat_entries] and [flush_sit_entries], which change the
    logs and their journals; [flush_sit]: the second of them alone. *)
Definition write_checkpoint (flush flush_sit : log_state -> log_state) (fn : free_nids) (e : cp_env) (st : cp_state)
    : Z * cp_state * list (Z * list Z) * list (Z * list Z) :=
  let has f := c_true (reason e .& f) in
  if negb (sbi_dirty st) && (has CP_FASTBOOT || has CP_SYNC || (has CP_DISCARD && (discard_blks e =? 0))) then (0, st, [], [])
  else if f2fs_cp_error (cp st) then (- EIO, st, [], [])
  else if readonly e then (- EROFS, st, [], [])
  else if c_true (block_error e) then (block_error e, st, [], [])
  else
    let st := __prepare_cp_block fn st in
    if has CP_DISCARD && negb (trim_candidates e) then (0, st, [], [])
    else if has CP_DISCARD && tables_clean e then (0, set_logs (flush_sit (logs st)) st, [], [])
    else
      let st := on_ckpt (fun b => set_le64 checkpoint_ver (cur_cp_version b + 1) b) st in
      do_checkpoint e (set_logs (flush (logs st)) st).

End write.

(** ** Reading at mount *)

(** [__get_nat_bitmaps]: the NAT bits of the pack, when they are enabled and
    belong to the checkpoint. *)
Definition __get_nat_bitmaps (info : cp_info) (d : disk) (nat_blocks : Z) (st : cp_state) : cp_state :=
  let nat_bits_bytes := nat_blocks / 8 in
  if negb (enabled_nat_bits None info) then st
  else
    let n := (nat_bits_bytes * 2 + 8 + F2FS_BLKSIZE - 1) / F2FS_BLKSIZE in
    let nat_bits_addr := u32 (__start_cp_addr info + blocks_per_seg - n) in
    let bits := concat (map (fun i => get_meta_page d (u32 (nat_bits_addr + i))) (seqZ 0 n)) in
    let st := mk_cps info (logs st) (inos st) (cnt st) (last_valid_block_count st) bits n
                (need_fsck st) (sbi_dirty st) (need_cp st) in
    let cp_ver := cur_cp_version (ckpt info) .| Z.shiftl (cur_cp_crc (ckpt info)) 32 in
    if cp_ver =? le64_at 0 bits then st else disable_nat_bits st.

(** ** Proofs: the fields of the checkpoint block *)

(** [f] changes a buffer within the bytes of [P] only. *)
Definition changes_only (P : Z -> Prop) (b b' : list Z) : Prop :=
  zlen b' = zlen b /\ (bytes_ok b -> bytes_ok b') /\ forall i, 0 <= i -> ~ P i -> byte_at b' i = byte_at b i.

Lemma changes_refl P b : changes_only P b b.
Proof. by split_and!. Qed.

Lemma changes_trans P b1 b2 b3 : changes_only P b1 b2 -> changes_only P b2 b3 -> changes_only P b1 b3.
Proof.
  intros (A1 & A2 & A3) (B1 & B2 & B3). split_and!; [congruence|auto|]. intros i Hi HP. by rewrite B3, A3.
Qed.

Lemma changes_mono (P Q : Z -> Prop) b b' : (forall i, P i -> Q i) -> changes_only P b b' -> changes_only Q b b'.
Proof. intros HPQ (A1 & A2 & A3). split_and!; [done|done|]. intros i Hi HQ. apply A3; auto. Qed.

Lemma changes_put_le n off v b (P : Z -> Prop) : (forall i, off <= i < off + Z.of_nat n -> P i) -> changes_only P b (put_le n off v b).
Proof.
  intros HP. split_and!; [apply zlen_put_le|apply bytes_put_le|]. intros i Hi Hn. apply zget_put_le_out.
  destruct (decide (off <= i < off + Z.of_nat n)); [|lia]. by exfalso; apply Hn, HP.
Qed.

Lemma changes_get P b b' n off : changes_only P b b' -> 0 <= off -> (forall i, off <= i < off + Z.of_nat n -> ~ P i) ->
  get_le n off b' = get_le n off b.
Proof. intros (_ & _ & H) Ho HP. apply get_le_ext. intros i Hi. apply H; [lia|auto]. Qed.

Lemma changes_byte P b b' i : changes_only P b b' -> 0 <= i -> ~ P i -> byte_at b' i = byte_at b i.
Proof. intros (_ & _ & H) Hi HP. auto. Qed.

(** The bytes of the positions of the logs. *)
Definition log_bytes (i : Z) : Prop := 32 <= i < 132 \/ 168 <= i < 192.

Lemma fill_logs_changes e st : changes_only log_bytes (ckpt (cp st)) (ckpt (cp (fill_logs e st))).
Proof.
  unfold fill_logs, fill_node_log, fill_data_log, on_ckpt. cbn [cp set_cp ckpt set_ckpt foldl]. cbv zeta.
  repeat (eapply changes_trans; [|apply changes_put_le; unfold log_bytes, alloc_type_off, cur_node_blkoff, cur_node_segno,
    cur_data_blkoff, cur_data_segno, free_segment_count, elapsed_time, CURSEG_HOT_NODE, CURSEG_HOT_DATA; lia]).
  apply changes_refl.
Qed.

Lemma fill_logs_same e st : logs (fill_logs e st) = logs st /\ inos (fill_logs e st) = inos st /\
  raw_super (cp (fill_logs e st)) = raw_super (cp st) /\ cur_cp_pack (cp (fill_logs e st)) = cur_cp_pack (cp st).
Proof. done. Qed.

Lemma ckpt_on_ckpt f st : ckpt (cp (on_ckpt f st)) = f (ckpt (cp st)).
Proof. done. Qed.

(** The value of a field after a sequence of writes to other fields. *)
Ltac field_value :=
  rewrite ?get_put_other by lia; (rewrite get_put_le32 || rewrite get_put_le16); [|lia|rewrite ?zlen_put_le; lia].

(** The values a log has in the checkpoint block. *)
Record log_fits (ls : log_state) : Prop := {
  lf_segno : forall t, is_type t -> 0 <= curseg_segno t ls < 2 ^ 32;
  lf_blkoff : forall t, is_type t -> 0 <= curseg_blkoff t ls < 512
}.

Lemma alloc_byte_range t ls : 0 <= curseg_alloc_type t ls < 256.
Proof. unfold curseg_alloc_type, alloc_byte. destruct (alloc_type _); lia. Qed.

Lemma get_byte off v b : 0 <= v < 256 -> 0 <= off < zlen b -> byte_at (put_le 1 off v b) off = v.
Proof. intros Hv Ho. simpl. rewrite zget_zset_eq by done. by apply Z.mod_small. Qed.

(** The value of a log's field, whatever way the index is written. *)
Ltac same_log Hs Hb :=
  match goal with
  | |- u32 (curseg_segno ?a _) = curseg_segno ?b _ => change a with b; apply Hs; lia
  | |- u16 (curseg_blkoff ?a _) = curseg_blkoff ?b _ => change a with b; apply Hb; lia
  end.

Lemma fill_logs_ckpt e st : 192 <= zlen (ckpt (cp st)) -> log_fits (logs st) -> ckpt_logs (cp (fill_logs e st)) (logs st).
Proof.
  intros Hl [Hs Hb].
  assert (Hs' : forall t, 0 <= t < 6 -> u32 (curseg_segno t (logs st)) = curseg_segno t (logs st)) by (intros; by apply u32_small, Hs).
  assert (Hb' : forall t, 0 <= t < 6 -> u16 (curseg_blkoff t (logs st)) = curseg_blkoff t (logs st)).
  { intros t Ht. apply u16_small. specialize (Hb t Ht). lia. }
  unfold fill_logs, fill_node_log, fill_data_log. cbv zeta. set (b0 := ckpt (cp st)) in *.
  unfold alloc_type_off, cur_node_blkoff, cur_node_segno, cur_data_blkoff, cur_data_segno, free_segment_count, elapsed_time,
    CURSEG_HOT_NODE, CURSEG_HOT_DATA.
  split; rewrite ckpt_on_ckpt; cbn [foldl]; fold b0.
  - intros i Hi. unfold cur_data_segno, cur_data_blkoff.
    assert (i = 0 \/ i = 1 \/ i = 2) as [-> |[-> | ->]] by lia; split; field_value; same_log Hs' Hb'.
  - intros i Hi. unfold cur_node_segno, cur_node_blkoff.
    assert (i = 0 \/ i = 1 \/ i = 2) as [-> |[-> | ->]] by lia; split; field_value; same_log Hs' Hb'.
  - unfold is_type, Segment.NR_CURSEG_TYPE. intros t Ht.
    assert (t = 0 \/ t = 1 \/ t = 2 \/ t = 3 \/ t = 4 \/ t = 5) as [-> |[-> |[-> |[-> |[-> | ->]]]]] by lia;
      rewrite ?zget_put_le_out by (unfold alloc_type_off; lia); unfold alloc_type_off;
      (rewrite get_byte; [done|apply alloc_byte_range|rewrite ?zlen_put_le; lia]).
Qed.

(** ** The flags *)

(** Bit [k] of the flags of a checkpoint block. *)
Definition flag_bit (b : list Z) (k : Z) : bool := Z.testbit (le32_at ckpt_flags b) k.

Lemma is_set_bit b k : 0 <= k -> __is_set_ckpt_flags b (2 ^ k) = flag_bit b k.
Proof.
  intros Hk. unfold __is_set_ckpt_flags, flag_bit. rewrite land_pow2 by done.
  destruct (Z.testbit _ k); [|done]. apply c_true_true. lia.
Qed.

Lemma flag_bit_put f j on b k : bytes_ok b -> 136 <= zlen b -> f = 2 ^ j -> 0 <= j < 32 -> 0 <= k < 32 ->
  flag_bit (put_flag f on b) k = if j =? k then on else flag_bit b k.
Proof.
  intros Hb Hl -> Hj Hk. unfold flag_bit, put_flag, __set_ckpt_flags, __clear_ckpt_flags.
  pose proof (le32_range ckpt_flags b Hb) as Hr.
  assert (0 <= 2 ^ j < 2 ^ 32) as Hp by (split; [lia|apply Z.pow_lt_mono_r; lia]).
  unfold ckpt_flags in *. destruct on; rewrite get_put_le32 by lia; rewrite u32_small.
  - rewrite Z.lor_spec, Z.pow2_bits_eqb by lia. destruct (j =? k); [apply orb_true_r|apply orb_false_r].
  - by apply lor_below.
  - rewrite Z.ldiff_spec, Z.pow2_bits_eqb by lia. destruct (j =? k); [apply andb_false_r|apply andb_true_r].
  - apply ldiff_range; lia.
Qed.

Definition flag_bytes (i : Z) : Prop := 132 <= i < 136.

Lemma put_flag_changes f on b : changes_only flag_bytes b (put_flag f on b).
Proof. unfold put_flag, __set_ckpt_flags, __clear_ckpt_flags. destruct on; apply changes_put_le; unfold ckpt_flags, flag_bytes; lia. Qed.

(** A buffer that has the fields of a checkpoint block. *)
Definition buf_ok (b : list Z) : Prop := bytes_ok b /\ 4096 <= zlen b.

Lemma buf_ok_changes P b b' : changes_only P b b' -> buf_ok b -> buf_ok b'.
Proof. intros (H1 & H2 & _) [Hb Hl]. split; [auto|lia]. Qed.

(** A step that gives the flags of [g] a value and changes nothing else. *)
Record flags_set (g : Z -> option bool) (st st' : cp_state) : Prop := {
  fs_changes : changes_only flag_bytes (ckpt (cp st)) (ckpt (cp st'));
  fs_bits : buf_ok (ckpt (cp st)) -> forall k, 0 <= k < 32 ->
    flag_bit (ckpt (cp st')) k = default (flag_bit (ckpt (cp st)) k) (g k);
  fs_same : logs st' = logs st /\ inos st' = inos st /\ raw_super (cp st') = raw_super (cp st) /\
    cur_cp_pack (cp st') = cur_cp_pack (cp st) /\ cnt st' = cnt st /\ nat_bits_blocks st' = nat_bits_blocks st
}.

Definition flag_at (j : Z) (on : bool) (k : Z) : option bool := if j =? k then Some on else None.
Definition flags_then (g1 g2 : Z -> option bool) (k : Z) : option bool :=
  match g2 k with Some b => Some b | None => g1 k end.

Lemma flags_set_none st : flags_set (fun _ => None) st st.
Proof. split; [apply changes_refl|done|done]. Qed.

Lemma flags_set_put f j on st : f = 2 ^ j -> 0 <= j < 32 -> flags_set (flag_at j on) st (on_ckpt (put_flag f on) st).
Proof.
  intros Hf Hj. split; [apply put_flag_changes| |done]. intros [Hb Hl] k Hk. rewrite ckpt_on_ckpt, (flag_bit_put f j) by (done || lia).
  unfold flag_at. by case_if.
Qed.

Lemma flags_set_trans g1 g2 st1 st2 st3 : flags_set g1 st1 st2 -> flags_set g2 st2 st3 -> flags_set (flags_then g1 g2) st1 st3.
Proof.
  intros [A1 A2 (A3 & A4 & A5 & A6 & A7 & A8)] [B1 B2 (B3 & B4 & B5 & B6 & B7 & B8)].
  split; [by eapply changes_trans| |split_and!; congruence].
  intros Hb k Hk. rewrite B2, A2 by (done || by eapply buf_ok_changes). unfold flags_then. by destruct (g2 k).
Qed.

Lemma flags_set_if (c : bool) g st st' : (c = true -> flags_set g st st') ->
  flags_set (fun k => if c then g k else None) st (if c then st' else st).
Proof. intros H. destruct c; [by apply H|apply flags_set_none]. Qed.

Lemma flags_disable st : flags_set (flag_at 7 false) st (disable_nat_bits st).
Proof. destruct (flags_set_put CP_NAT_BITS_FLAG 7 false st eq_refl ltac:(lia)) as [H1 H2 H3]. by split. Qed.

(** The flags [update_ckpt_flags] gives a value. *)
Definition updated_flags (e : cp_env) (st : cp_state) (nb fsck : bool) : Z -> option bool :=
  flags_then (flags_then (flags_then (flags_then (flags_then (flags_then (flags_then
    (fun k => if nb then flag_at 7 false k else None)
    (fun k => if c_true (reason e .& CP_TRIMMED) then flag_at 8 true k else None))
    (flag_at 0 (c_true (reason e .& CP_UMOUNT))))
    (flag_at 5 (c_true (reason e .& CP_FASTBOOT))))
    (flag_at 1 (c_true (ino_num (get_im ORPHAN_INO (inos st))))))
    (fun k => if fsck then flag_at 4 true k else None))
    (flag_at 6 true)) (flag_at 9 false).

Lemma updated_flags_at e st nb fsck : let g := updated_flags e st nb fsck in
  g 0 = Some (c_true (reason e .& CP_UMOUNT)) /\ g 1 = Some (c_true (ino_num (get_im ORPHAN_INO (inos st)))) /\
  g 2 = None /\ g 3 = None /\ g 5 = Some (c_true (reason e .& CP_FASTBOOT)) /\ (nb = true -> g 7 = Some false).
Proof.
  cbv zeta. unfold updated_flags, flags_then, flag_at. generalize (reason e .& CP_UMOUNT), (reason e .& CP_FASTBOOT),
    (reason e .& CP_TRIMMED), (ino_num (get_im ORPHAN_INO (inos st))). intros a b c d.
  destruct nb, fsck, (c_true c); by split_and!.
Qed.

Definition nat_bits_too_long (e : cp_env) (st : cp_state) : bool :=
  c_true (reason e .& CP_UMOUNT) &&
  (le32_at cp_pack_total_block_count (ckpt (cp st)) >? u32 (blocks_per_seg - nat_bits_blocks st)).

Lemma update_flags_set e st : exists fsck,
  flags_set (updated_flags e st (nat_bits_too_long e st) fsck) st (update_ckpt_flags e st).
Proof.
  unfold update_ckpt_flags. fold (nat_bits_too_long e st). eexists. unfold updated_flags.
  eapply flags_set_trans; [|by apply (flags_set_put CP_NOCRC_RECOVERY_FLAG 9 false)].
  eapply flags_set_trans; [|by apply (flags_set_put CP_CRC_RECOVERY_FLAG 6 true)].
  eapply flags_set_trans; [|apply flags_set_if; intros _; by apply (flags_set_put CP_FSCK_FLAG 4 true)].
  eapply flags_set_trans; [|by apply flags_set_put].
  eapply flags_set_trans; [|by apply flags_set_put].
  eapply flags_set_trans; [|by apply flags_set_put].
  eapply flags_set_trans; [|apply flags_set_if; intros _; by apply (flags_set_put CP_TRIMMED_FLAG 8 true)].
  apply flags_set_if. intros _. apply flags_disable.
Qed.

(** ** The whole block *)

Lemma ckpt_logs_changes P info info' ls : changes_only P (ckpt info) (ckpt info') ->
  (forall i, 36 <= i < 132 \/ 176 <= i < 192 -> ~ P i) -> ckpt_logs info ls -> ckpt_logs info' ls.
Proof.
  intros Hch HP [C1 C2 C3]. split.
  - intros i Hi. destruct (C1 i Hi) as [<- <-]. unfold cur_data_segno, cur_data_blkoff.
    split; apply (changes_get _ _ _ _ _ Hch); try lia; intros k Hk; apply HP; lia.
  - intros i Hi. destruct (C2 i Hi) as [<- <-]. unfold cur_node_segno, cur_node_blkoff.
    split; apply (changes_get _ _ _ _ _ Hch); try lia; intros k Hk; apply HP; lia.
  - intros t Ht. rewrite <- (C3 t Ht). unfold alloc_type_off, is_type, Segment.NR_CURSEG_TYPE in *.
    apply (changes_byte _ _ _ _ Hch); [lia|]. apply HP. lia.
Qed.

(** What the pack needs of the system. *)
Record pack_input (e : cp_env) (st : cp_state) : Prop := {
  pi_len : zlen (ckpt (cp st)) = F2FS_BLKSIZE * (1 + __cp_payload (cp st));
  pi_bytes : bytes_ok (ckpt (cp st));
  pi_payload : 0 <= __cp_payload (cp st) <= blocks_per_seg - F2FS_CP_PACKS - NR_CURSEG_TYPE;
  pi_cso : 192 <= le32_at checksum_offset (ckpt (cp st)) <= F2FS_BLKSIZE - 4;
  pi_sit : zlen (sit_bitmap e) = __bitmap_size (cp st) SIT_BITMAP /\ bytes_ok (sit_bitmap e);
  pi_nat : zlen (nat_bitmap e) = __bitmap_size (cp st) NAT_BITMAP /\ bytes_ok (nat_bitmap e);
  pi_fit : if __cp_payload (cp st) =? 0
           then 192 + zlen (sit_bitmap e) + zlen (nat_bitmap e) <= le32_at checksum_offset (ckpt (cp st))
           else 192 + zlen (nat_bitmap e) <= le32_at checksum_offset (ckpt (cp st)) /\
                zlen (sit_bitmap e) <= F2FS_BLKSIZE * __cp_payload (cp st);
  pi_logs : logs_ok (logs st);
  pi_fits : log_fits (logs st);
  pi_inos : ino_wf 0 (inos st);
  pi_orphans : max_orphans (inos st) =
    (blocks_per_seg - F2FS_CP_PACKS - NR_CURSEG_TYPE - __cp_payload (cp st)) * F2FS_ORPHANS_PER_BLOCK;
  pi_cache : forall a, zlen (cache e a) = F2FS_BLKSIZE
}.

Lemma pi_buf e st : pack_input e st -> buf_ok (ckpt (cp st)).
Proof.
  intros H. split; [apply H|]. rewrite (pi_len _ _ H). pose proof (pi_payload _ _ H). unfold F2FS_BLKSIZE. lia.
Qed.

Lemma orphan_room e st : pack_input e st ->
  0 <= orphan_blocks st <= blocks_per_seg - F2FS_CP_PACKS - NR_CURSEG_TYPE - __cp_payload (cp st).
Proof.
  intros H. pose proof (iw_max _ _ (pi_inos _ _ H)) as Hm. pose proof (im_num _ _ (iw_orphan _ _ (pi_inos _ _ H))) as Hn.
  pose proof (zlen_nonneg (ino_list (get_im ORPHAN_INO (inos st)))). rewrite (pi_orphans _ _ H) in Hm.
  unfold orphan_blocks, GET_ORPHAN_BLOCKS, F2FS_ORPHANS_PER_BLOCK in *. zdiv.
Qed.

Lemma npages_range b info ls : 1 <= npages_for_summary_flush b info ls <= 3.
Proof. unfold npages_for_summary_flush. repeat case_if; lia. Qed.

(** The first 192 bytes without the bit maps and the checksum. *)
Definition head_bytes (i : Z) : Prop := 32 <= i < 144 \/ 168 <= i < 192.

(** The buffer before the bit maps are put in. *)
Definition filled_fields (e : cp_env) (st : cp_state) : cp_state := update_ckpt_flags e (fill_pack e (fill_logs e st)).

Definition node_sum_blocks (e : cp_env) : Z := if __remain_node_summaries (reason e) then 3 else 0.

Record fields_filled (P : Z -> Prop) (e : cp_env) (st st' : cp_state) : Prop := {
  ff_changes : changes_only P (ckpt (cp st)) (ckpt (cp st'));
  ff_same : logs st' = logs st /\ inos st' = inos st /\ raw_super (cp st') = raw_super (cp st) /\
    cur_cp_pack (cp st') = cur_cp_pack (cp st) /\ cnt st' = cnt st /\ nat_bits_blocks st' = nat_bits_blocks st;
  ff_logs : ckpt_logs (cp st') (logs st);
  ff_compact : flag_bit (ckpt (cp st')) 2 = (npages_for_summary_flush false (cp st') (logs st) <? 3);
  ff_umount : flag_bit (ckpt (cp st')) 0 = c_true (reason e .& CP_UMOUNT);
  ff_fastboot : flag_bit (ckpt (cp st')) 5 = c_true (reason e .& CP_FASTBOOT);
  ff_orphan : flag_bit (ckpt (cp st')) 1 = c_true (ino_num (get_im ORPHAN_INO (inos st)));
  ff_error : flag_bit (ckpt (cp st')) 3 = flag_bit (ckpt (cp st)) 3;
  ff_sum : le32_at cp_pack_start_sum (ckpt (cp st')) = 1 + __cp_payload (cp st) + orphan_blocks st;
  ff_total : le32_at cp_pack_total_block_count (ckpt (cp st')) =
    F2FS_CP_PACKS + __cp_payload (cp st) + npages_for_summary_flush false (cp st') (logs st) + orphan_blocks st + node_sum_blocks e;
  ff_nat_bits : flag_bit (ckpt (cp st')) 7 = true -> c_true (reason e .& CP_UMOUNT) = true ->
    le32_at cp_pack_total_block_count (ckpt (cp st')) <= u32 (blocks_per_seg - nat_bits_blocks st) /\ nat_bits st' = nat_bits st
}.

(** The number of summary blocks depends on the positions of the logs only. *)
Lemma npages_logs info info' ls : ckpt_logs info ls -> ckpt_logs info' ls ->
  npages_for_summary_flush false info ls = npages_for_summary_flush false info' ls.
Proof.
  intros H H'. unfold npages_for_summary_flush.
  assert (zsum (valid_sum_count false info ls) [0; 1; 2] = zsum (valid_sum_count false info' ls) [0; 1; 2]) as ->; [|done].
  simpl. by rewrite !(valid_count_eq info ls false _ H), !(valid_count_eq info' ls false _ H') by lia.
Qed.

Lemma flag_bit_same P b b' k : changes_only P b b' -> (forall i, flag_bytes i -> ~ P i) -> flag_bit b' k = flag_bit b k.
Proof.
  intros Hc HP. unfold flag_bit. rewrite (changes_get _ _ _ 4 ckpt_flags Hc); [done|unfold ckpt_flags; lia|].
  intros i Hi. apply HP. unfold flag_bytes, ckpt_flags in *. lia.
Qed.

Definition pack_bytes (i : Z) : Prop := 132 <= i < 144.

Lemma fill_pack_ok e st : buf_ok (ckpt (cp st)) ->
  let n := npages_for_summary_flush false (cp st) (logs st) in
  let total := F2FS_CP_PACKS + __cp_payload (cp st) + n + orphan_blocks st + node_sum_blocks e in
  let st' := fill_pack e st in
  changes_only pack_bytes (ckpt (cp st)) (ckpt (cp st')) /\
  (forall k, 0 <= k < 32 -> flag_bit (ckpt (cp st')) k = default (flag_bit (ckpt (cp st)) k) (flag_at 2 (n <? 3) k)) /\
  le32_at cp_pack_start_sum (ckpt (cp st')) = u32 (1 + __cp_payload (cp st) + orphan_blocks st) /\
  le32_at cp_pack_total_block_count (ckpt (cp st')) = u32 total /\
  logs st' = logs st /\ inos st' = inos st /\ raw_super (cp st') = raw_super (cp st) /\
  cur_cp_pack (cp st') = cur_cp_pack (cp st) /\ cnt st' = cnt st /\ nat_bits_blocks st' = nat_bits_blocks st /\
  nat_bits st' = nat_bits st.
Proof.
  intros Hb. cbv zeta. unfold fill_pack. change (data_sum_blocks st) with (npages_for_summary_flush false (cp st) (logs st)).
  set (n := npages_for_summary_flush false (cp st) (logs st)). change (n <? NR_CURSEG_DATA_TYPE) with (n <? 3).
  pose proof (flags_set_put CP_COMPACT_SUM_FLAG 2 (n <? 3) st eq_refl ltac:(lia)) as [F1 F2 _].
  set (st1 := on_ckpt (put_flag CP_COMPACT_SUM_FLAG (n <? 3)) st) in *.
  assert (Hb1 : buf_ok (ckpt (cp st1))) by (by eapply buf_ok_changes).
  change (__cp_payload (cp (on_ckpt _ st1))) with (__cp_payload (cp st)). change (__cp_payload (cp st1)) with (__cp_payload (cp st)).
  change (orphan_blocks (on_ckpt _ st1)) with (orphan_blocks st). change (orphan_blocks st1) with (orphan_blocks st).
  change (if __remain_node_summaries (reason e) then NR_CURSEG_NODE_TYPE else 0) with (node_sum_blocks e).
  set (total := F2FS_CP_PACKS + _ + _ + _ + _). set (start := 1 + _ + _).
  rewrite !ckpt_on_ckpt. destruct Hb1 as [Hbytes Hlen]. unfold cp_pack_total_block_count, cp_pack_start_sum.
  assert (Hch : changes_only (fun i => 136 <= i < 144) (ckpt (cp st1)) (set_le32 136 total (set_le32 140 start (ckpt (cp st1))))).
  { eapply changes_trans; apply changes_put_le; lia. }
  split_and!; try done.
  - eapply changes_trans; [eapply changes_mono, F1|eapply changes_mono, Hch]; unfold flag_bytes, pack_bytes; lia.
  - intros k Hk. rewrite (flag_bit_same _ _ _ _ Hch) by (unfold flag_bytes; lia). by apply F2.
  - by field_value.
  - by field_value.
Qed.

Lemma nat_bits_update e st : nat_bits_too_long e st = false -> nat_bits (update_ckpt_flags e st) = nat_bits st.
Proof.
  intros Hn. unfold update_ckpt_flags. fold (nat_bits_too_long e st). rewrite Hn.
  destruct (c_true (reason e .& CP_TRIMMED)); by case_match.
Qed.

Lemma filled_fields_ok e st : pack_input e st -> fields_filled head_bytes e st (filled_fields e st).
Proof.
  intros Hin. pose proof (pi_buf e st Hin) as Hb. unfold filled_fields.
  pose proof (fill_logs_changes e st) as Ch1.
  assert (Hb1 : buf_ok (ckpt (cp (fill_logs e st)))) by (by eapply buf_ok_changes).
  assert (Hl1 : ckpt_logs (cp (fill_logs e st)) (logs st)).
  { apply fill_logs_ckpt; [destruct Hb; lia|apply Hin]. }
  assert (He1 : flag_bit (ckpt (cp (fill_logs e st))) 3 = flag_bit (ckpt (cp st)) 3).
  { apply (flag_bit_same _ _ _ _ Ch1). unfold log_bytes, flag_bytes. lia. }
  pose proof (fill_logs_same e st) as (S1 & S2 & S3 & S4).
  assert (Hpay : __cp_payload (cp (fill_logs e st)) = __cp_payload (cp st)) by done.
  assert (Hor : orphan_blocks (fill_logs e st) = orphan_blocks st) by done.
  assert (Hcn : cnt (fill_logs e st) = cnt st /\ nat_bits_blocks (fill_logs e st) = nat_bits_blocks st /\
    nat_bits (fill_logs e st) = nat_bits st) by done.
  set (st1 := fill_logs e st) in *. clearbody st1. rewrite <- S1 in Hl1.
  pose proof (fill_pack_ok e st1 Hb1) as (P1 & P2 & P3 & P4 & P5 & P6 & P7 & P8 & P9 & P10 & P11).
  set (n := npages_for_summary_flush false (cp st1) (logs st1)) in *.
  set (st2 := fill_pack e st1) in *. clearbody st2.
  assert (Hb2 : buf_ok (ckpt (cp st2))) by (by eapply buf_ok_changes).
  destruct (update_flags_set e st2) as (fsck & [U1 U2 (U3 & U4 & U5 & U6 & U7 & U8)]). specialize (U2 Hb2).
  pose proof (nat_bits_update e st2) as Hnb. set (st3 := update_ckpt_flags e st2) in *. clearbody st3.
  assert (Hl2 : ckpt_logs (cp st2) (logs st1)) by (eapply ckpt_logs_changes; [exact P1|unfold pack_bytes; lia|done]).
  assert (Hl3 : ckpt_logs (cp st3) (logs st1)) by (eapply ckpt_logs_changes; [exact U1|unfold flag_bytes; lia|done]).
  assert (Hn3 : npages_for_summary_flush false (cp st3) (logs st) = n) by (rewrite <- S1; by apply npages_logs).
  pose proof (orphan_room e st Hin) as Ho. pose proof (pi_payload _ _ Hin) as Hp. pose proof (npages_range false (cp st1) (logs st1)) as Hr.
  fold n in Hr.
  assert (0 <= node_sum_blocks e <= 3) as Hns by (unfold node_sum_blocks; case_if; lia).
  unfold blocks_per_seg, F2FS_CP_PACKS, NR_CURSEG_TYPE in *. rewrite Hpay, Hor in *.
  assert (Hget : forall off, 136 <= off -> le32_at off (ckpt (cp st3)) = le32_at off (ckpt (cp st2))).
  { intros off Hoff. apply (changes_get _ _ _ _ _ U1); [lia|unfold flag_bytes; lia]. }
  rewrite u32_small in P3, P4 by lia.
  destruct (updated_flags_at e st2 (nat_bits_too_long e st2) fsck) as (G0 & G1 & G2 & G3 & G5 & G7).
  split; rewrite ?Hn3.
  - eapply changes_trans; [eapply changes_trans|]; eapply changes_mono; [|exact Ch1| |exact P1| |exact U1];
      unfold log_bytes, pack_bytes, flag_bytes, head_bytes; lia.
  - split_and!; intuition congruence.
  - by rewrite <- S1.
  - rewrite U2, G2, P2 by lia. done.
  - by rewrite U2, G0 by lia.
  - by rewrite U2, G5 by lia.
  - by rewrite U2, G1, P6, S2 by lia.
  - rewrite U2, G3, P2, He1 by lia. done.
  - rewrite Hget by (unfold cp_pack_start_sum; lia). done.
  - rewrite Hget by (unfold cp_pack_total_block_count; lia). done.
  - intros H7 Hum. rewrite U2 in H7 by lia. rewrite Hget by (unfold cp_pack_total_block_count; lia).
    destruct (nat_bits_too_long e st2) eqn:En.
    { by rewrite (G7 eq_refl) in H7. }
    specialize (Hnb eq_refl). unfold nat_bits_too_long in En. rewrite Hum, andb_true_l in En. zbool.
    destruct Hcn as (_ & Hc2 & Hc3). split; [|congruence].
    by rewrite <- Hc2, <- P10.
Qed.

(** The bytes behind the fields, and all that a checkpoint changes. *)
Definition tail_bytes (i : Z) : Prop := 192 <= i.
Definition ckpt_bytes (i : Z) : Prop := head_bytes i \/ tail_bytes i.

Lemma fields_filled_tail e st st1 st2 : fields_filled head_bytes e st st1 -> changes_only tail_bytes (ckpt (cp st1)) (ckpt (cp st2)) ->
  logs st2 = logs st1 /\ inos st2 = inos st1 /\ raw_super (cp st2) = raw_super (cp st1) /\
  cur_cp_pack (cp st2) = cur_cp_pack (cp st1) /\ cnt st2 = cnt st1 /\ nat_bits_blocks st2 = nat_bits_blocks st1 /\
  nat_bits st2 = nat_bits st1 ->
  fields_filled ckpt_bytes e st st2.
Proof.
  intros [F1 (F2 & F3 & F4 & F5 & F6 & F7) Fl F8 F9 F10 F11 F12 F13 F14 F15] Hch (S1 & S2 & S3 & S4 & S5 & S6 & S7).
  assert (Hf : forall k, flag_bit (ckpt (cp st2)) k = flag_bit (ckpt (cp st1)) k).
  { intros k. apply (flag_bit_same _ _ _ _ Hch). unfold flag_bytes, tail_bytes. lia. }
  assert (Hg : forall off, 0 <= off <= 188 -> le32_at off (ckpt (cp st2)) = le32_at off (ckpt (cp st1))).
  { intros off Ho. apply (changes_get _ _ _ _ _ Hch); [lia|unfold tail_bytes; lia]. }
  assert (Hl : ckpt_logs (cp st2) (logs st)) by (eapply ckpt_logs_changes; [exact Hch|unfold tail_bytes; lia|done]).
  assert (Hn : npages_for_summary_flush false (cp st2) (logs st) = npages_for_summary_flush false (cp st1) (logs st)) by (by apply npages_logs).
  split; rewrite ?Hf, ?Hn, ?(Hg cp_pack_start_sum), ?(Hg cp_pack_total_block_count) by (unfold cp_pack_start_sum, cp_pack_total_block_count; lia);
    try done.
  - eapply changes_trans; eapply changes_mono; [|exact F1| |exact Hch]; unfold ckpt_bytes; tauto.
  - split_and!; congruence.
  - intros H7 Hum. rewrite S7. auto.
Qed.

Lemma changes_put_bytes off l b (P : Z -> Prop) : bytes_ok l -> 0 <= off -> off + zlen l <= zlen b ->
  (forall i, off <= i < off + zlen l -> P i) -> changes_only P b (put_bytes off l b).
Proof.
  intros Hl Ho Hb HP. split_and!; [by apply zlen_put_bytes|by apply bytes_put_bytes|]. intros i Hi Hn.
  rewrite byte_at_put_bytes by done. destruct (Z.leb_spec off i), (Z.ltb_spec i (off + zlen l)); try done.
  exfalso. apply Hn, HP. lia.
Qed.

Lemma get_bytes_changes P b b' off n : changes_only P b b' -> 0 <= off -> 0 <= n -> off + n <= zlen b ->
  (forall i, off <= i < off + n -> ~ P i) -> get_bytes off n b' = get_bytes off n b.
Proof.
  intros (H1 & _ & H3) Ho Hn Hl HP. apply get_bytes_ext; [done|done|done|lia|]. intros i Hi. apply H3; [lia|auto].
Qed.

(** Both bit maps are in the buffer. *)
Definition bitmaps_in (e : cp_env) (info : cp_info) : Prop :=
  get_bytes (__bitmap_ptr info SIT_BITMAP) (zlen (sit_bitmap e)) (ckpt info) = sit_bitmap e /\
  get_bytes (__bitmap_ptr info NAT_BITMAP) (zlen (nat_bitmap e)) (ckpt info) = nat_bitmap e.

(** The bytes of the bit maps lie behind the fields and not on the checksum. *)
Definition bitmap_bytes (cso i : Z) : Prop := 192 <= i < cso \/ F2FS_BLKSIZE <= i.

(** What the buffer must be like for the bit maps to fit. *)
Record bitmap_room (e : cp_env) (info : cp_info) (cso : Z) : Prop := {
  br_payload : 0 <= __cp_payload info;
  br_len : zlen (ckpt info) = F2FS_BLKSIZE * (1 + __cp_payload info);
  br_cso : le32_at checksum_offset (ckpt info) = cso /\ cso <= F2FS_BLKSIZE - 4;
  br_sit : le32_at sit_ver_bitmap_bytesize (ckpt info) = zlen (sit_bitmap e) /\ bytes_ok (sit_bitmap e);
  br_nat : bytes_ok (nat_bitmap e);
  br_fit : if __cp_payload info =? 0 then 192 + zlen (sit_bitmap e) + zlen (nat_bitmap e) <= cso
           else 192 + zlen (nat_bitmap e) <= cso /\ zlen (sit_bitmap e) <= F2FS_BLKSIZE * __cp_payload info
}.

Lemma bitmap_room_changes P e info info' cso : bitmap_room e info cso -> changes_only P (ckpt info) (ckpt info') ->
  __cp_payload info' = __cp_payload info -> (forall i, 156 <= i < 168 -> ~ P i) -> bitmap_room e info' cso.
Proof.
  intros [R1 R2 [R3 R3'] [R4 R4'] R5 R6] Hch Hp HP.
  assert (Hk : forall off, 156 <= off <= 164 -> le32_at off (ckpt info') = le32_at off (ckpt info)).
  { intros off Ho. apply (changes_get _ _ _ _ _ Hch); [lia|]. intros i Hi. apply HP. lia. }
  split; rewrite ?Hp, ?Hk, ?(proj1 Hch) by (unfold checksum_offset, sit_ver_bitmap_bytesize; lia); done.
Qed.

Lemma put_bitmaps_ok e st cso : bitmap_room e (cp st) cso ->
  let st' := put_bitmaps e st in
  changes_only (bitmap_bytes cso) (ckpt (cp st)) (ckpt (cp st')) /\ bitmaps_in e (cp st').
Proof.
  intros [R1 R2 [R3 R3'] [R4 R4'] R5 R6]. cbv zeta. unfold put_bitmaps.
  pose proof (zlen_nonneg (sit_bitmap e)) as Hs. pose proof (zlen_nonneg (nat_bitmap e)) as Hn. unfold F2FS_BLKSIZE in *.
  set (b := ckpt (cp st)) in *.
  set (ps := __bitmap_ptr (cp st) SIT_BITMAP). set (st1 := on_ckpt _ st).
  assert (Hps : ps = if __cp_payload (cp st) =? 0 then 192 else 4096).
  { unfold ps, __bitmap_ptr, SIT_BITMAP, F2FS_BLKSIZE, sit_nat_version_bitmap.
    destruct (Z.gtb_spec (__cp_payload (cp st)) 0), (Z.eqb_spec (__cp_payload (cp st)) 0); lia. }
  assert (C1 : changes_only (bitmap_bytes cso) b (put_bytes ps (sit_bitmap e) b)).
  { apply changes_put_bytes; [done|rewrite Hps; case_if; lia|rewrite Hps; case_if; lia|].
    intros i Hi. unfold bitmap_bytes, F2FS_BLKSIZE. rewrite Hps in Hi. case_if_in Hi; lia. }
  assert (Hb1 : ckpt (cp st1) = put_bytes ps (sit_bitmap e) b) by done.
  assert (Hsz : le32_at sit_ver_bitmap_bytesize (ckpt (cp st1)) = zlen (sit_bitmap e)).
  { rewrite <- R4, Hb1. apply (changes_get _ _ _ _ _ C1); unfold sit_ver_bitmap_bytesize, bitmap_bytes, F2FS_BLKSIZE; lia. }
  set (pn := __bitmap_ptr (cp st1) NAT_BITMAP).
  assert (Hpn : pn = if __cp_payload (cp st) =? 0 then 192 + zlen (sit_bitmap e) else 192).
  { unfold pn, __bitmap_ptr, NAT_BITMAP, F2FS_BLKSIZE, sit_nat_version_bitmap. rewrite Hsz.
    change (__cp_payload (cp st1)) with (__cp_payload (cp st)).
    destruct (Z.gtb_spec (__cp_payload (cp st)) 0), (Z.eqb_spec (__cp_payload (cp st)) 0); lia. }
  assert (Hl1 : zlen (ckpt (cp st1)) = zlen b) by (rewrite Hb1; apply C1).
  assert (C2 : changes_only (fun i => pn <= i < pn + zlen (nat_bitmap e)) (ckpt (cp st1)) (put_bytes pn (nat_bitmap e) (ckpt (cp st1)))).
  { apply changes_put_bytes; [done|rewrite Hpn; case_if; lia|rewrite Hpn, Hl1; case_if; lia|done]. }
  assert (C2' : changes_only (bitmap_bytes cso) (ckpt (cp st1)) (put_bytes pn (nat_bitmap e) (ckpt (cp st1)))).
  { eapply changes_mono, C2. intros i Hi. cbv beta in Hi. rewrite Hpn in Hi. unfold bitmap_bytes, F2FS_BLKSIZE. case_if_in Hi; lia. }
  rewrite ckpt_on_ckpt. split; [eapply changes_trans; [exact C1|by rewrite <- Hb1]|].
  set (st2 := on_ckpt (put_bytes pn (nat_bitmap e)) st1).
  assert (Hp2 : __bitmap_ptr (cp st2) SIT_BITMAP = ps) by (rewrite Hps; unfold __bitmap_ptr, SIT_BITMAP, F2FS_BLKSIZE, sit_nat_version_bitmap;
    change (__cp_payload (cp st2)) with (__cp_payload (cp st));
    destruct (Z.gtb_spec (__cp_payload (cp st)) 0), (Z.eqb_spec (__cp_payload (cp st)) 0); lia).
  assert (Hn2 : __bitmap_ptr (cp st2) NAT_BITMAP = pn).
  { assert (Hsz2 : le32_at sit_ver_bitmap_bytesize (ckpt (cp st2)) = le32_at sit_ver_bitmap_bytesize (ckpt (cp st1))).
    { apply (changes_get _ _ _ _ _ C2'); unfold sit_ver_bitmap_bytesize, bitmap_bytes, F2FS_BLKSIZE; lia. }
    unfold pn, __bitmap_ptr. change (__cp_payload (cp st2)) with (__cp_payload (cp st1)). unfold NAT_BITMAP.
    by rewrite Hsz2. }
  split; rewrite ?Hp2, ?Hn2.
  - etransitivity; [apply (get_bytes_changes _ _ _ _ _ C2); [rewrite Hps; case_if; lia|done|rewrite Hl1, Hps; case_if; lia|]|].
    + intros i Hi. cbv beta. rewrite Hpn, Hps in *. repeat case_if_in Hi; lia.
    + rewrite Hb1. apply get_put_bytes; rewrite Hps; case_if; lia.
  - apply get_put_bytes; rewrite ?Hl1, Hpn; case_if; lia.
Qed.

Lemma bitmaps_in_changes P e info info' : changes_only P (ckpt info) (ckpt info') ->
  __cp_payload info' = __cp_payload info -> (forall i, bitmap_bytes (le32_at checksum_offset (ckpt info)) i \/ 156 <= i < 160 -> ~ P i) ->
  bitmap_room e info (le32_at checksum_offset (ckpt info)) -> bitmaps_in e info -> bitmaps_in e info'.
Proof.
  intros Hch Hp HP [R1 R2 [_ R3] [R4 _] _ R6] [B1 B2]. set (cso := le32_at checksum_offset (ckpt info)) in *.
  pose proof (zlen_nonneg (sit_bitmap e)) as Hs. pose proof (zlen_nonneg (nat_bitmap e)) as Hn. unfold F2FS_BLKSIZE in *.
  assert (Hsz : le32_at sit_ver_bitmap_bytesize (ckpt info') = le32_at sit_ver_bitmap_bytesize (ckpt info)).
  { apply (changes_get _ _ _ _ _ Hch); unfold sit_ver_bitmap_bytesize; [lia|]. intros i Hi. apply HP. lia. }
  assert (Hptr : forall m, __bitmap_ptr info' m = __bitmap_ptr info m) by (intros m; unfold __bitmap_ptr; by rewrite Hp, Hsz).
  split; rewrite Hptr; [rewrite <- B1 at 2|rewrite <- B2 at 2]; apply (get_bytes_changes _ _ _ _ _ Hch);
    unfold __bitmap_ptr, SIT_BITMAP, NAT_BITMAP, F2FS_BLKSIZE, sit_nat_version_bitmap; rewrite ?R4;
    case_if_in R6; destruct (Z.gtb_spec (__cp_payload info) 0); try lia;
    intros i Hi; apply HP; left; unfold bitmap_bytes, F2FS_BLKSIZE; lia.
Qed.

(** ** The checksum and the two copies of the block *)

Section filled.
Context (f2fs_crc32 : list Z -> Z).
Hypothesis crc_range : forall b, 0 <= f2fs_crc32 b < 2 ^ 32.

Lemma get_le_head n off b : 0 <= off -> off + Z.of_nat n <= F2FS_BLKSIZE -> get_le n off (buf_block b 0) = get_le n off b.
Proof.
  unfold F2FS_BLKSIZE. intros H1 H2. apply get_le_ext. intros i Hi. unfold buf_block, F2FS_BLKSIZE.
  by rewrite byte_at_get_bytes by lia.
Qed.

Lemma get_bytes_head n b : 0 <= n <= F2FS_BLKSIZE -> get_bytes 0 n (buf_block b 0) = get_bytes 0 n b.
Proof.
  unfold buf_block, get_bytes, F2FS_BLKSIZE. intros Hn.
  change (Z.to_nat 0) with 0%nat. change (Z.to_nat (4096 * 0)) with 0%nat. rewrite !drop_0, take_take. f_equal. lia.
Qed.

(** A checkpoint block with its checksum. *)
Definition sealed (b : list Z) : Prop :=
  let cso := le32_at checksum_offset b in
  192 <= cso <= F2FS_BLKSIZE - 4 /\ le32_at cso b = f2fs_crc32 (get_bytes 0 cso b).

Lemma sealed_version b d a : sealed b -> d a = buf_block b 0 -> get_checkpoint_version f2fs_crc32 d a = Some (cur_cp_version b).
Proof.
  intros [Hr Hc] Hd. unfold get_checkpoint_version, get_meta_page, cur_cp_crc, f2fs_crc_valid, F2FS_BLKSIZE in *. rewrite Hd.
  rewrite (get_le_head 4 checksum_offset) by (unfold checksum_offset, F2FS_BLKSIZE; lia).
  set (cso := le32_at checksum_offset b) in *.
  rewrite (get_le_head 4 cso), get_bytes_head, Hc by (unfold F2FS_BLKSIZE; lia).
  rewrite Z.eqb_refl, Z.gtb_ltb, (proj2 (Z.ltb_ge _ _)) by lia. cbn [negb].
  unfold cur_cp_version. by rewrite get_le_head by (unfold checkpoint_ver, F2FS_BLKSIZE; lia).
Qed.

Lemma put_crc_ok b cso : cso = le32_at checksum_offset b -> 192 <= cso <= F2FS_BLKSIZE - 4 -> F2FS_BLKSIZE <= zlen b ->
  let b' := set_le32 cso (f2fs_crc32 (get_bytes 0 cso b)) b in
  changes_only (fun i => cso <= i < cso + 4) b b' /\ sealed b' /\ le32_at checksum_offset b' = cso.
Proof.
  intros -> Hr Hl. set (cso := le32_at checksum_offset b) in *. cbv zeta. unfold F2FS_BLKSIZE in *.
  set (b' := set_le32 cso _ b).
  assert (Hch : changes_only (fun i => cso <= i < cso + 4) b b') by (apply changes_put_le; lia).
  assert (Hcs : le32_at checksum_offset b' = cso).
  { unfold b'. rewrite get_put_other by (unfold checksum_offset; lia). done. }
  split_and!; [done| |done]. unfold sealed. rewrite Hcs. unfold F2FS_BLKSIZE. split; [lia|].
  rewrite (get_bytes_changes _ _ _ _ _ Hch) by lia. unfold b'. rewrite get_put_le32 by lia. by apply u32_small.
Qed.

(** What a checkpoint block holds. *)
Record ckpt_filled (e : cp_env) (st st' : cp_state) : Prop := {
  cf_fields : fields_filled ckpt_bytes e st st';
  cf_bitmaps : bitmaps_in e (cp st');
  cf_sealed : sealed (ckpt (cp st'))
}.

Definition same_rest (st st' : cp_state) : Prop :=
  logs st' = logs st /\ inos st' = inos st /\ raw_super (cp st') = raw_super (cp st) /\
  cur_cp_pack (cp st') = cur_cp_pack (cp st) /\ cnt st' = cnt st /\ nat_bits_blocks st' = nat_bits_blocks st /\
  nat_bits st' = nat_bits st.

Lemma on_ckpt_same f st : same_rest st (on_ckpt f st).
Proof. by split_and!. Qed.

Lemma same_rest_trans st1 st2 st3 : same_rest st1 st2 -> same_rest st2 st3 -> same_rest st1 st3.
Proof. unfold same_rest. intuition congruence. Qed.

Lemma put_bitmaps_same e st : same_rest st (put_bitmaps e st).
Proof. unfold put_bitmaps. eapply same_rest_trans; apply on_ckpt_same. Qed.

Lemma same_payload st st' : same_rest st st' -> __cp_payload (cp st') = __cp_payload (cp st).
Proof. intros (_ & _ & H & _). unfold __cp_payload. by rewrite H. Qed.

Lemma put_crc_seals e st cso : bitmap_room e (cp st) cso -> 192 <= cso -> bitmaps_in e (cp st) ->
  let st' := put_crc f2fs_crc32 st in
  changes_only tail_bytes (ckpt (cp st)) (ckpt (cp st')) /\ bitmaps_in e (cp st') /\ sealed (ckpt (cp st')).
Proof.
  intros Hr Hc HB. cbv zeta. destruct (br_cso _ _ _ Hr) as [Hcs Hc2]. pose proof (br_payload _ _ _ Hr). pose proof (br_len _ _ _ Hr).
  destruct (put_crc_ok (ckpt (cp st)) cso (eq_sym Hcs)) as (C1 & C2 & C3); [unfold F2FS_BLKSIZE in *; lia..|].
  assert (He : ckpt (cp (put_crc f2fs_crc32 st)) = set_le32 cso (f2fs_crc32 (get_bytes 0 cso (ckpt (cp st)))) (ckpt (cp st))).
  { unfold put_crc. rewrite ckpt_on_ckpt. cbv zeta. by rewrite Hcs. }
  pose proof (same_payload _ _ (on_ckpt_same _ _ : same_rest st (put_crc f2fs_crc32 st))) as Hp.
  set (st' := put_crc f2fs_crc32 st) in *. clearbody st'. rewrite <- He in C1, C2, C3. split_and!.
  - eapply changes_mono, C1. unfold tail_bytes. lia.
  - eapply bitmaps_in_changes; [exact C1|done| |by rewrite Hcs|done].
    intros i. rewrite Hcs. unfold bitmap_bytes, F2FS_BLKSIZE in *. lia.
  - done.
Qed.

Lemma pack_input_room e st st1 : pack_input e st -> fields_filled head_bytes e st st1 ->
  bitmap_room e (cp st1) (le32_at checksum_offset (ckpt (cp st))).
Proof.
  intros Hin F. destruct (ff_same _ _ _ _ F) as (_ & _ & Fs & _). pose proof (ff_changes _ _ _ _ F) as Fc.
  assert (Hpay : __cp_payload (cp st1) = __cp_payload (cp st)) by (unfold __cp_payload; by rewrite Fs).
  assert (Hkeep : forall off, 144 <= off <= 164 -> le32_at off (ckpt (cp st1)) = le32_at off (ckpt (cp st))).
  { intros off Ho. apply (changes_get _ _ _ _ _ Fc); [lia|unfold head_bytes; lia]. }
  pose proof (pi_payload _ _ Hin). pose proof (pi_cso _ _ Hin).
  split; rewrite ?Hpay, ?Hkeep by (unfold checksum_offset, sit_ver_bitmap_bytesize; lia).
  - lia.
  - rewrite (proj1 Fc). apply Hin.
  - split; [done|lia].
  - split; [by rewrite (proj1 (pi_sit _ _ Hin))|apply Hin].
  - apply Hin.
  - apply Hin.
Qed.

Lemma seal_ok e st st1 : pack_input e st -> fields_filled head_bytes e st st1 ->
  ckpt_filled e st (put_crc f2fs_crc32 (put_bitmaps e st1)).
Proof.
  intros Hin F. pose proof (pack_input_room e st st1 Hin F) as Hroom. destruct (pi_cso _ _ Hin) as [Hc1 Hc2].
  set (cso := le32_at checksum_offset (ckpt (cp st))) in *.
  destruct (put_bitmaps_ok e st1 cso Hroom) as [B1 B2]. pose proof (put_bitmaps_same e st1) as Bs.
  set (st2 := put_bitmaps e st1) in *. clearbody st2.
  assert (Hc12 : changes_only tail_bytes (ckpt (cp st1)) (ckpt (cp st2))).
  { eapply changes_mono, B1. unfold bitmap_bytes, tail_bytes, F2FS_BLKSIZE in *. lia. }
  assert (Hroom2 : bitmap_room e (cp st2) cso).
  { eapply bitmap_room_changes; [exact Hroom|exact Hc12|by apply same_payload|unfold tail_bytes; lia]. }
  destruct (put_crc_seals e st2 cso Hroom2 Hc1 B2) as (C1 & C2 & C3).
  pose proof (on_ckpt_same _ _ : same_rest st2 (put_crc f2fs_crc32 st2)) as Cs.
  set (st3 := put_crc f2fs_crc32 st2) in *. clearbody st3. split; [|done..].
  eapply fields_filled_tail; [exact F|by eapply changes_trans|]. exact (same_rest_trans _ _ _ Bs Cs).
Qed.

Lemma fill_ckpt_ok e st : pack_input e st -> ckpt_filled e st (fill_ckpt f2fs_crc32 e st).
Proof. intros Hin. exact (seal_ok e st _ Hin (filled_fields_ok e st Hin)). Qed.

End filled.
