(* ===== verification/CkptMount.v ===== *)
(** * From a checkpoint to the next mount (checkpoint.c)

    What the blocks a checkpoint writes look like on the device, what a mount
    finds when all of them arrived, and what it finds after a crash when only
    some of them did. *)

From S2P Require Import Prelude Blocks Counts FreeNid Journal FreeSeg Sit Segment Super Ckpt Orphan Summary CkptWrite.
From Stdlib Require Import ZArith Lia.
From stdpp Require Import base numbers option gmap list.
#[local] Open Scope Z_scope.
#[local] Open Scope c_scope.

(** ** The addresses of the pack *)

(** [out] is written to consecutive addresses from [start]. *)
Definition laid_out (start : Z) (out : list (Z * list Z)) : Prop :=
  map fst out = map (fun i => u32 (start + i)) (seqZ 0 (zlen out)).

Lemma laid_nil start : laid_out start [].
Proof. done. Qed.

Lemma map_addr start k n : map (fun i => u32 (start + k + i)) (seqZ 0 n) = map (fun i => u32 (start + i)) (seqZ k n).
Proof.
  replace (seqZ k n) with (map (Z.add k) (seqZ 0 n)) by (rewrite <- (Z.add_0_r k) at 2; apply fmap_add_seqZ).
  rewrite map_map. apply map_ext. intros i. f_equal. lia.
Qed.

Lemma laid_app start l1 l2 : laid_out start l1 -> laid_out (start + zlen l1) l2 -> laid_out start (l1 ++ l2).
Proof.
  unfold laid_out. intros H1 H2. pose proof (zlen_nonneg l1). pose proof (zlen_nonneg l2).
  rewrite map_app, H1, H2, zlen_app, map_addr, seqZ_app, map_app by lia. do 2 f_equal.
Qed.

Lemma laid_u32 start out : laid_out (u32 start) out <-> laid_out start out.
Proof. unfold laid_out. by setoid_rewrite u32_add_idemp. Qed.

Lemma laid_one start b : laid_out start [(u32 start, b)].
Proof. unfold laid_out. simpl. by rewrite Z.add_0_r. Qed.

Lemma u32_inj_near x i j : u32 (x + i) = u32 (x + j) -> Z.abs (i - j) < 2 ^ 32 -> i = j.
Proof.
  unfold u32. intros H Hij. pose proof (Z.mod_divide (x + i - (x + j)) (2 ^ 32) ltac:(lia)) as [Hd _].
  rewrite Zminus_mod, H, Z.sub_diag in Hd. destruct (Hd eq_refl) as [k Hk].
  assert (k = 0) by nia. lia.
Qed.

(** The block at place [i], and it alone, goes to address [start + i]. *)
Lemma laid_in start out a b : laid_out start out -> (a, b) ∈ out -> exists i, 0 <= i < zlen out /\ a = u32 (start + i).
Proof.
  unfold laid_out. intros Hl Hin. assert (Ha : a ∈ map fst out) by (apply list_elem_of_fmap; by exists (a, b)).
  rewrite Hl in Ha. apply list_elem_of_fmap in Ha as (i & -> & Hi%elem_of_seqZ). exists i. split; [lia|done].
Qed.

Lemma laid_same start out a b b' : laid_out start out -> zlen out < 2 ^ 32 -> (a, b) ∈ out -> (a, b') ∈ out -> b = b'.
Proof.
  unfold laid_out. intros Hl Hn H1 H2.
  assert (Hnd : NoDup (map fst out)).
  { rewrite Hl. apply NoDup_fmap_2_strong; [|apply NoDup_seqZ].
    intros i j Hi%elem_of_seqZ Hj%elem_of_seqZ He. apply (u32_inj_near start); [done|lia]. }
  clear Hl Hn. induction out as [|[a0 b0] out IH]; [by apply elem_of_nil in H1|]. simpl in Hnd. apply NoDup_cons in Hnd as [Hni Hnd].
  assert (Hout : forall c, (a, c) ∈ out -> a <> a0).
  { intros c Hc ->. apply Hni. apply list_elem_of_fmap. by exists (a0, c). }
  rewrite elem_of_cons in H1, H2. destruct H1 as [H1|H1], H2 as [H2|H2]; simplify_eq/=; [done| | |by auto].
  - by destruct (Hout _ H2).
  - by destruct (Hout _ H1).
Qed.

(** ** The parts of the pack *)

Section pack.
Context (f2fs_crc32 : list Z -> Z) (crc_range : forall b, 0 <= f2fs_crc32 b < 2 ^ 32).

(** [put_kbytes] changes the journal of the hot node log only. *)
Lemma write_data_kbytes info e ls cache start : zlen (journals ls) = Segment.NR_CURSEG_TYPE ->
  write_data_summaries info (put_kbytes e ls) cache start = write_data_summaries info ls cache start.
Proof.
  intros Hj.
  assert (Hg : forall t, t <> CURSEG_HOT_NODE -> get_journal t (put_kbytes e ls) = get_journal t ls).
  { intros t Ht. unfold get_journal, put_kbytes, put_journal. cbn [journals]. by apply zget_zset_ne. }
  unfold write_data_summaries. case_if.
  - unfold write_compacted_summaries. rewrite !Hg by done. done.
  - unfold write_normal_summaries. change (IS_DATASEG CURSEG_HOT_DATA) with true. cbv iota.
    apply map_ext_Forall, Forall_forall. intros t Ht%elem_of_seqZ.
    unfold write_current_sum_page. rewrite Hg; [done|]. unfold CURSEG_HOT_DATA, CURSEG_HOT_NODE, NR_CURSEG_DATA_TYPE in *. lia.
Qed.

Lemma logs_kbytes_ok e ls : logs_ok ls -> logs_ok (put_kbytes e ls).
Proof.
  intros [L1 L2 L3 L4]. unfold put_kbytes. split; [done|done|by unfold put_journal; cbn [journals]; rewrite zlen_zset|].
  intros t Ht. unfold get_journal, put_journal. cbn [journals].
  destruct (decide (t = CURSEG_HOT_NODE)) as [->|Hne]; [|rewrite zget_zset_ne by done; by apply L4].
  rewrite zget_zset_eq by (rewrite L3; done). rewrite zlen_put_le. by apply L4.
Qed.

Lemma ckpt_logs_kbytes e info ls : ckpt_logs info ls -> ckpt_logs info (put_kbytes e ls).
Proof. intros [C1 C2 C3]. by split. Qed.

Lemma sum_pack_kbytes e info ls : sum_pack info ls -> sum_pack info (put_kbytes e ls).
Proof. intros [S1 S2]. by split. Qed.

Lemma zlen_payload st start : 0 <= __cp_payload (cp st) -> zlen (payload_blocks st start) = __cp_payload (cp st).
Proof. intros Hp. unfold payload_blocks. by rewrite zlen_map, zlen_seqZ. Qed.

Lemma payload_laid st start : 0 <= __cp_payload (cp st) -> laid_out (start + 1) (payload_blocks st start).
Proof.
  intros Hp. unfold laid_out. rewrite zlen_payload by done. unfold payload_blocks. rewrite map_map. simpl.
  by rewrite map_addr.
Qed.

Lemma zlen_cons {A} (x : A) l : zlen (x :: l) = 1 + zlen l.
Proof. unfold zlen. simpl length. lia. Qed.

Lemma remain_flags r : __remain_node_summaries r = c_true (r .& CP_UMOUNT) || c_true (r .& CP_FASTBOOT).
Proof.
  unfold __remain_node_summaries. rewrite Z.land_lor_distr_r. unfold c_true.
  destruct (Z.eqb_spec (r .& CP_UMOUNT) 0) as [->|H1]; [by rewrite Z.lor_0_l|]. simpl.
  destruct (Z.eqb_spec ((r .& CP_UMOUNT) .| (r .& CP_FASTBOOT)) 0) as [H|]; [|done]. apply Z.lor_eq_0_iff in H. tauto.
Qed.

(** The filled block describes its pack. *)
Lemma filled_flags P e st st1 info : fields_filled P e st st1 -> ckpt info = ckpt (cp st1) ->
  __exist_node_summaries info = __remain_node_summaries (reason e).
Proof.
  intros F Hi. unfold __exist_node_summaries, is_set_ckpt_flags. rewrite Hi, remain_flags.
  rewrite (is_set_bit _ 0), (is_set_bit _ 5) by lia. by rewrite (ff_umount _ _ _ _ F), (ff_fastboot _ _ _ _ F).
Qed.

Lemma ckpt_logs_buf info info' ls : ckpt info' = ckpt info -> ckpt_logs info ls -> ckpt_logs info' ls.
Proof. intros H [C1 C2 C3]. split; by rewrite H. Qed.

Lemma filled_sum_pack P e st st1 info : fields_filled P e st st1 -> ckpt info = ckpt (cp st1) -> sum_pack info (logs st).
Proof.
  intros F Hi. pose proof (filled_flags _ _ _ _ _ F Hi) as He.
  assert (Hn : npages_for_summary_flush false info (logs st) = npages_for_summary_flush false (cp st1) (logs st)).
  { apply npages_logs; [|apply (ff_logs _ _ _ _ F)]. eapply ckpt_logs_buf; [exact Hi|apply (ff_logs _ _ _ _ F)]. }
  split; rewrite Hn.
  - unfold is_set_ckpt_flags. rewrite (is_set_bit _ 2), Hi by lia. apply (ff_compact _ _ _ _ F).
  - rewrite He, Hi, (ff_total _ _ _ _ F), (ff_sum _ _ _ _ F). unfold node_sum_blocks, F2FS_CP_PACKS. lia.
Qed.

Lemma filled_orphan_pack e st st1 info : pack_input e st -> fields_filled ckpt_bytes e st st1 ->
  ckpt info = ckpt (cp st1) -> raw_super info = raw_super (cp st) -> orphan_pack info (inos st).
Proof.
  intros Hin F Hi Hs. assert (Hp : __cp_payload info = __cp_payload (cp st)) by (unfold __cp_payload; by rewrite Hs).
  pose proof (pi_payload _ _ Hin). pose proof (ff_changes _ _ _ _ F) as (C1 & C2 & _).
  split; rewrite ?Hp, ?Hi.
  - lia.
  - unfold __start_sum_addr. rewrite Hi. apply (ff_sum _ _ _ _ F).
  - unfold is_set_ckpt_flags. rewrite (is_set_bit _ 1), Hi by lia. apply (ff_orphan _ _ _ _ F).
  - rewrite C1, (pi_len _ _ Hin). unfold F2FS_BLKSIZE. lia.
  - apply C2, Hin.
Qed.

(** The blocks of the pack of [st1], from address [start]. *)
Record pack_parts (e : cp_env) (st st1 : cp_state) (start : Z) (d : disk) : Prop := {
  pp_head : d start = buf_block (ckpt (cp st1)) 0;
  pp_tail : d (u32 (start + (le32_at cp_pack_total_block_count (ckpt (cp st1)) - 1))) = buf_block (ckpt (cp st1)) 0;
  pp_payload : on_disk d (payload_blocks st1 start);
  pp_orphans : c_true (ino_num (get_im ORPHAN_INO (inos st))) = true ->
    on_disk d (write_orphan_inodes (inos st) (u32 (start + 1 + __cp_payload (cp st))));
  pp_data : on_disk d (write_data_summaries (cp st1) (logs st) (cache e) (u32 (start + le32_at cp_pack_start_sum (ckpt (cp st1)))));
  pp_node : __remain_node_summaries (reason e) = true ->
    on_disk d (write_node_summaries (put_kbytes e (logs st)) (cache e)
      (u32 (start + le32_at cp_pack_start_sum (ckpt (cp st1)) + npages_for_summary_flush false (cp st1) (logs st))))
}.

(** The parts of [pack_blocks] with their addresses written out. *)
Lemma pack_blocks_eq e st st1 start : pack_input e st -> fields_filled ckpt_bytes e st st1 -> u32 start = start ->
  let head := buf_block (ckpt (cp st1)) 0 in
  let n := npages_for_summary_flush false (cp st1) (logs st) in
  let a1 := start + 1 + __cp_payload (cp st) in
  let a2 := a1 + orphan_blocks st in
  let a3 := a2 + n in
  let a4 := a3 + node_sum_blocks e in
  pack_blocks e st1 start =
    (set_logs (put_kbytes e (logs st)) st1,
     (u32 start, head) :: payload_blocks st1 start ++
     (if c_true (ino_num (get_im ORPHAN_INO (inos st))) then write_orphan_inodes (inos st) (u32 a1) else []) ++
     write_data_summaries (cp st1) (logs st) (cache e) (u32 a2) ++
     (if __remain_node_summaries (reason e) then write_node_summaries (put_kbytes e (logs st)) (cache e) (u32 a3) else []) ++
     [(u32 a4, head)]).
Proof.
  intros Hin F Hst. cbv zeta. destruct (ff_same _ _ _ _ F) as (Hl & Hi & Hs & _).
  assert (Hp : __cp_payload (cp st1) = __cp_payload (cp st)) by (unfold __cp_payload; by rewrite Hs).
  unfold pack_blocks, data_sum_blocks. rewrite Hl, Hi, Hp, Hst. cbv zeta.
  assert (Ho : orphan_blocks st1 = orphan_blocks st) by (unfold orphan_blocks; by rewrite Hi). rewrite Ho.
  assert (Ha2 : (if c_true (ino_num (get_im ORPHAN_INO (inos st))) then u32 (u32 (start + 1 + __cp_payload (cp st)) + orphan_blocks st)
    else u32 (start + 1 + __cp_payload (cp st))) = u32 (start + 1 + __cp_payload (cp st) + orphan_blocks st)).
  { case_if; [apply u32_add_idemp|]. apply c_true_false in E. unfold orphan_blocks. rewrite E. f_equal. unfold GET_ORPHAN_BLOCKS, F2FS_ORPHANS_PER_BLOCK. zdiv. }
  rewrite Ha2, u32_add_idemp. unfold node_sum_blocks. change NR_CURSEG_NODE_TYPE with 3.
  destruct (__remain_node_summaries (reason e)); rewrite ?u32_add_idemp, ?Z.add_0_r; done.
Qed.

(** The data and node summaries fill the addresses between the orphans and
    the last block. *)
Lemma node_laid e ls start : laid_out start (write_node_summaries ls (cache e) (u32 start)).
Proof.
  unfold laid_out, write_node_summaries, write_normal_summaries. simpl. unfold write_current_sum_page. simpl.
  rewrite !u32_add_idemp. done.
Qed.

Lemma zlen_node e ls start : zlen (write_node_summaries ls (cache e) start) = 3.
Proof. done. Qed.

Lemma orphans_laid e st start : pack_input e st ->
  let out := if c_true (ino_num (get_im ORPHAN_INO (inos st))) then write_orphan_inodes (inos st) (u32 start) else [] in
  laid_out start out /\ zlen out = orphan_blocks st.
Proof.
  intros Hin. cbv zeta. pose proof (orphan_room e st Hin) as Hr.
  assert (Hnum : ino_num (get_im ORPHAN_INO (inos st)) = zlen (ino_list (get_im ORPHAN_INO (inos st)))).
  { rewrite (im_num _ _ (iw_orphan _ _ (pi_inos _ _ Hin))). lia. }
  case_if.
  - destruct (write_orphans_ok 0 (inos st) start (pi_inos _ _ Hin)) as [_ Ha _]. rewrite <- Hnum in Ha. fold (orphan_blocks st) in Ha.
    set (out := write_orphan_inodes _ _) in *. clearbody out.
    assert (Hl : zlen out = orphan_blocks st) by (rewrite <- (zlen_map fst out), Ha, zlen_map; apply zlen_seqZ; lia).
    split; [by unfold laid_out; rewrite Hl|done].
  - apply c_true_false in E. split; [apply laid_nil|]. unfold orphan_blocks. rewrite E. done.
Qed.

Lemma pack_blocks_ok e st st1 start : pack_input e st -> fields_filled ckpt_bytes e st st1 -> u32 start = start ->
  let out := (pack_blocks e st1 start).2 in
  laid_out start out /\ zlen out = le32_at cp_pack_total_block_count (ckpt (cp st1)) /\
  (u32 start, buf_block (ckpt (cp st1)) 0) ∈ out /\
  (u32 (start + (zlen out - 1)), buf_block (ckpt (cp st1)) 0) ∈ out /\
  forall d, on_disk d out -> pack_parts e st st1 start d.
Proof.
  intros Hin F Hst. cbv zeta. rewrite (pack_blocks_eq e st st1 start Hin F Hst). cbn [snd].
  destruct (ff_same _ _ _ _ F) as (_ & _ & Hs & _).
  assert (Hp : __cp_payload (cp st1) = __cp_payload (cp st)) by (unfold __cp_payload; by rewrite Hs).
  pose proof (pi_payload _ _ Hin) as Hp0.
  set (head := buf_block (ckpt (cp st1)) 0). set (n := npages_for_summary_flush false (cp st1) (logs st)).
  set (pay := payload_blocks st1 start). set (a1 := start + 1 + __cp_payload (cp st)).
  destruct (orphans_laid e st a1 Hin) as [O1 O2]. set (orp := if c_true _ then _ else _) in *.
  set (a2 := a1 + orphan_blocks st).
  destruct (data_summaries_len (cp st1) (logs st) (cache e) a2 (pi_logs _ _ Hin) (ff_logs _ _ _ _ F)
    (filled_sum_pack _ _ _ _ _ F eq_refl) (pi_cache _ _ Hin)) as (D1 & D2 & _). fold n in D1.
  set (dat := write_data_summaries _ _ _ _) in *. fold (laid_out a2 dat) in D2. set (a3 := a2 + n).
  assert (N : laid_out a3 (if __remain_node_summaries (reason e) then write_node_summaries (put_kbytes e (logs st)) (cache e) (u32 a3) else []) /\
    zlen (if __remain_node_summaries (reason e) then write_node_summaries (put_kbytes e (logs st)) (cache e) (u32 a3) else []) = node_sum_blocks e).
  { unfold node_sum_blocks. case_if; [split; [apply node_laid|apply zlen_node]|split; [apply laid_nil|done]]. }
  destruct N as [N1 N2]. set (nod := if __remain_node_summaries (reason e) then _ else _) in *.
  set (a4 := a3 + node_sum_blocks e). set (rest := pay ++ _).
  assert (P1 : laid_out (start + 1) pay) by (apply payload_laid; lia).
  assert (P2 : zlen pay = __cp_payload (cp st)) by (unfold pay; rewrite zlen_payload; lia).
  assert (Hrest : laid_out (start + 1) rest).
  { apply laid_app; [done|]. rewrite P2. fold a1. apply laid_app; [done|]. rewrite O2. fold a2. apply laid_app; [done|]. rewrite D1. fold a3.
    apply laid_app; [done|]. rewrite N2. fold a4. apply laid_one. }
  assert (Hlen : 1 + zlen rest = le32_at cp_pack_total_block_count (ckpt (cp st1))).
  { unfold rest. rewrite !zlen_app, P2, O2, D1, N2, (ff_total _ _ _ _ F). change (zlen [(u32 a4, head)]) with 1. fold n. unfold F2FS_CP_PACKS. lia. }
  assert (Ha4 : a4 = start + zlen rest).
  { unfold rest. rewrite !zlen_app, P2, O2, D1, N2. change (zlen [(u32 a4, head)]) with 1. unfold a4, a3, a2, a1. lia. }
  split; [|split; [|split; [|split]]].
  - apply (laid_app start [(u32 start, head)]); [apply laid_one|exact Hrest].
  - by rewrite zlen_cons.
  - apply elem_of_cons. by left.
  - rewrite zlen_cons. replace (1 + zlen rest - 1) with (zlen rest) by lia. rewrite <- Ha4.
    unfold rest. rewrite !elem_of_cons, !elem_of_app. set_solver.
  - unfold on_disk. intros d Hd. rewrite Forall_cons in Hd. destruct Hd as [Hd Hr]. unfold rest in Hr. rewrite !Forall_app in Hr.
    destruct Hr as (R1 & R2 & R3 & R4 & R5). rewrite Hst in Hd. rewrite Forall_cons in R5. destruct R5 as [R5 _]. cbn [fst snd] in *.
    split; [done| |done| | |].
    + rewrite <- Hlen. replace (1 + zlen rest - 1) with (zlen rest) by lia. by rewrite <- Ha4.
    + intros Hn. unfold orp in R2. by rewrite Hn in R2.
    + unfold a2, a1 in *. by rewrite (ff_sum _ _ _ _ F), !Z.add_assoc.
    + intros Hn. unfold nod in R4. rewrite Hn in R4. unfold a3, a2, a1 in R4. by rewrite (ff_sum _ _ _ _ F), !Z.add_assoc.
Qed.

(** ** The steps of [do_checkpoint] *)

Lemma error_flag info : f2fs_cp_error info = flag_bit (ckpt info) 3.
Proof. unfold f2fs_cp_error, is_set_ckpt_flags. by apply (is_set_bit _ 3). Qed.

Lemma stop_flag info k : buf_ok (ckpt info) -> 0 <= k < 32 ->
  flag_bit (ckpt (f2fs_stop_checkpoint info)) k = if 3 =? k then true else flag_bit (ckpt info) k.
Proof. intros [Hb Hl] Hk. apply (flag_bit_put CP_ERROR_FLAG 3 true); [done|lia|done|lia|lia]. Qed.

Lemma cp_check_ok e n st : buf_ok (ckpt (cp st)) ->
  if io_error e n then (cp_check e n st).1 = true else cp_check e n st = (flag_bit (ckpt (cp st)) 3, st).
Proof.
  intros Hb. unfold cp_check. destruct (io_error e n).
  - cbn [fst]. rewrite error_flag. cbn [set_cp cp]. by rewrite stop_flag.
  - by rewrite error_flag.
Qed.

(** A test that passes has changed nothing. *)
Lemma cp_check_false e n st st' : buf_ok (ckpt (cp st)) -> cp_check e n st = (false, st') ->
  st' = st /\ flag_bit (ckpt (cp st)) 3 = false.
Proof.
  intros Hb Hc. pose proof (cp_check_ok e n st Hb) as H. rewrite Hc in H. destruct (io_error e n); [done|]. by inversion H.
Qed.

Lemma cp_check_twice e n m st st1 st2 b : buf_ok (ckpt (cp st)) -> cp_check e n st = (b, st1) ->
  cp_check e m st1 = (false, st2) -> st1 = st /\ st2 = st /\ flag_bit (ckpt (cp st)) 3 = false.
Proof.
  intros Hb Hn Hm.
  assert (Hb1 : buf_ok (ckpt (cp st1))).
  { unfold cp_check in Hn. inversion Hn. destruct (io_error e n); [|done]. by eapply buf_ok_changes; [apply (put_flag_changes CP_ERROR_FLAG true)|]. }
  destruct (cp_check_false e m st1 st2 Hb1 Hm) as [-> Hf]. pose proof (cp_check_ok e n st Hb) as H. rewrite Hn in H.
  destruct (io_error e n).
  - cbn [fst] in H. subst b. unfold cp_check in Hn. inversion Hn as [[H1 H2]]. rewrite H2 in H1. by rewrite error_flag, Hf in H1.
  - by inversion H; subst.
Qed.

(** The state of a checkpoint that may have seen an error at its start. *)
Lemma pack_input_flags e st st' : pack_input e st -> changes_only flag_bytes (ckpt (cp st)) (ckpt (cp st')) ->
  same_rest st st' -> pack_input e st'.
Proof.
  intros [] Hch (S1 & S2 & S3 & S4 & S5 & S6 & S7).
  assert (Hp : __cp_payload (cp st') = __cp_payload (cp st)) by (unfold __cp_payload; by rewrite S3).
  assert (Hk : forall off, 136 <= off -> le32_at off (ckpt (cp st')) = le32_at off (ckpt (cp st))).
  { intros off Ho. apply (changes_get _ _ _ _ _ Hch); [lia|unfold flag_bytes; lia]. }
  assert (Hm : forall m, __bitmap_size (cp st') m = __bitmap_size (cp st) m).
  { intros m. unfold __bitmap_size, nat_ver_bitmap_bytesize, sit_ver_bitmap_bytesize. destruct m; by apply Hk. }
  split; rewrite ?Hp, ?Hm, ?Hk, ?S1, ?S2 by (unfold checksum_offset; lia); try done.
  - by rewrite (proj1 Hch).
  - by apply (proj1 (proj2 Hch)).
Qed.

Lemma cp_check_input e n st : pack_input e st -> pack_input e (cp_check e n st).2 /\
  cur_cp_version (ckpt (cp (cp_check e n st).2)) = cur_cp_version (ckpt (cp st)) /\ same_rest st (cp_check e n st).2.
Proof.
  intros Hin. unfold cp_check. cbn [snd]. destruct (io_error e n); [|done].
  assert (Hch : changes_only flag_bytes (ckpt (cp st)) (ckpt (cp (set_cp (f2fs_stop_checkpoint (cp st)) st)))) by (apply (put_flag_changes CP_ERROR_FLAG true)).
  assert (Hsr : same_rest st (set_cp (f2fs_stop_checkpoint (cp st)) st)) by apply (on_ckpt_same (__set_ckpt_flags CP_ERROR_FLAG)).
  split; [by eapply pack_input_flags|]. split; [|done].
  apply (changes_get _ _ _ 8 checkpoint_ver Hch); [done|]. unfold flag_bytes, checkpoint_ver. lia.
Qed.

Lemma pack_blocks_nat_bits e x f st start :
  pack_blocks e (set_nat_bits x f st) start = (set_nat_bits x f (pack_blocks e st start).1, (pack_blocks e st start).2).
Proof. done. Qed.

Lemma finish_ok e st out1 out2 err st' o1 o2 : buf_ok (ckpt (cp st)) ->
  finish_checkpoint e st out1 out2 = (err, st', o1, o2) ->
  o1 = out1 /\ (o2 = [] \/ o2 = out2) /\
  (err = 0 -> o2 = out2 /\ cp st' = __set_cp_next_pack (cp st) /\ logs st' = logs st /\
     inos st' = release_ino_entry false (inos st) /\ flag_bit (ckpt (cp st)) 3 = false).
Proof.
  intros Hb. unfold finish_checkpoint. destruct (cp_check e 4 st) as [[] st4] eqn:E4.
  { intros [= <- <- <- <-]. split; [done|]. split; [by left|done]. }
  destruct (cp_check_false e 4 st st4 Hb E4) as [-> Hf]. cbv zeta.
  destruct (cp_check e 5 _) as [[] st5] eqn:E5.
  { intros [= <- <- <- <-]. split; [done|]. split; [by right|done]. }
  apply cp_check_false in E5 as [-> _]; [|exact Hb].
  intros [= <- <- <- <-]. split; [done|]. split; [by right|]. intros _. by destruct (redirtied e).
Qed.

(** What [write_pack] writes, before or after an error. *)
Definition bits_written (e : cp_env) (st1 : cp_state) (out1 : list (Z * list Z)) : Prop :=
  out1 = [] \/ enabled_nat_bits (Some (reason e)) (cp st1) = true /\
    out1 = (write_nat_bits (cur_cp_crc (ckpt (cp st1))) (__start_cp_next_addr (cp st1)) st1).2.

Definition pack_of (e : cp_env) (st1 : cp_state) : list (Z * list Z) := (pack_blocks e st1 (__start_cp_next_addr (cp st1))).2.

Lemma write_pack_ok e st1 err st' out1 out2 : buf_ok (ckpt (cp st1)) -> write_pack e st1 = (err, st', out1, out2) ->
  bits_written e st1 out1 /\ (out2 = [] \/ out2 = pack_of e st1) /\
  (err = 0 -> out2 = pack_of e st1 /\ cp st' = __set_cp_next_pack (cp st1) /\ logs st' = put_kbytes e (logs st1) /\
     inos st' = release_ino_entry false (inos st1) /\ flag_bit (ckpt (cp st1)) 3 = false).
Proof.
  intros Hb1. unfold write_pack, pack_of, bits_written. cbv zeta. set (start := __start_cp_next_addr (cp st1)).
  set (bits := enabled_nat_bits _ _). destruct (if bits then _ else _) as [st2 o1] eqn:Eb.
  assert (Ho1 : (o1 = [] \/ bits = true /\ o1 = (write_nat_bits (cur_cp_crc (ckpt (cp st1))) start st1).2) /\
    exists x f, st2 = set_nat_bits x f st1).
  { destruct bits; [split; [right; by rewrite Eb|]|]; inversion Eb; subst; [by eexists _, _|].
    split; [by left|]. exists (nat_bits st2), (need_fsck st2). by destruct st2. }
  destruct Ho1 as [Ho1 (x & f & Hst2)]. clear Eb.
  assert (Hb2 : buf_ok (ckpt (cp st2))) by (by subst st2).
  destruct (cp_check e 2 st2) as [bad2 st3] eqn:E2.
  case_if. { intros [= <- <- <- <-]. split; [done|]. split; [by left|done]. }
  destruct (cp_check e 3 st3) as [[] st4] eqn:E3. { intros [= <- <- <- <-]. split; [done|]. split; [by left|done]. }
  destruct (cp_check_twice e 2 3 st2 st3 st4 bad2 Hb2 E2 E3) as (-> & -> & _).
  case_if. { intros [= <- <- <- <-]. apply c_true_true in E0. split; [done|]. split; [by left|done]. }
  subst st2. rewrite pack_blocks_nat_bits. destruct (pack_blocks e st1 start) as [st5 o2] eqn:Ep. cbn [fst snd].
  assert (H5 : logs st5 = put_kbytes e (logs st1) /\ inos st5 = inos st1 /\ cp st5 = cp st1) by (by inversion Ep).
  clear Ep. intros Hf. destruct H5 as (L5 & I5 & C5).
  assert (Hb5 : buf_ok (ckpt (cp st5))) by (by rewrite C5).
  destruct (finish_ok e (set_nat_bits x f st5) o1 o2 err st' out1 out2 Hb5 Hf) as (-> & Hp & Hd).
  change (cp (set_nat_bits x f st5)) with (cp st5) in Hd. change (logs (set_nat_bits x f st5)) with (logs st5) in Hd.
  change (inos (set_nat_bits x f st5)) with (inos st5) in Hd. by rewrite L5, I5, C5 in Hd.
Qed.

(** What a checkpoint has written and left behind; [st0]: the state in which
    it fills the block, [st1]: the one after it has. *)
Record cp_outcome (e : cp_env) (st : cp_state) (err : Z) (st' : cp_state) (out1 out2 : list (Z * list Z))
    (st0 st1 : cp_state) : Prop := {
  oc_input : pack_input e st0;
  oc_version : cur_cp_version (ckpt (cp st0)) = cur_cp_version (ckpt (cp st));
  oc_same : same_rest st st0;
  oc_fill : ckpt_filled f2fs_crc32 e st0 st1;
  oc_bits : bits_written e st1 out1;
  oc_pack : out2 = [] \/ out2 = pack_of e st1;
  oc_done : err = 0 -> st0 = st /\ out2 = pack_of e st1 /\
    cp st' = __set_cp_next_pack (cp st1) /\ logs st' = put_kbytes e (logs st1) /\
    inos st' = release_ino_entry false (inos st1) /\ flag_bit (ckpt (cp st1)) 3 = false
}.

Lemma do_checkpoint_ok e st err st' out1 out2 : pack_input e st ->
  do_checkpoint f2fs_crc32 e st = (err, st', out1, out2) -> exists st0 st1, cp_outcome e st err st' out1 out2 st0 st1.
Proof.
  intros Hin. unfold do_checkpoint. destruct (cp_check_input e 1 st Hin) as (Hin0 & Hv & Hs).
  pose proof (cp_check_ok e 1 st (pi_buf _ _ Hin)) as Hc.
  assert (Hbad : (cp_check e 1 st).1 = f2fs_cp_error (cp (cp_check e 1 st).2)) by done.
  destruct (cp_check e 1 st) as [bad st0] eqn:E1. cbn [fst snd] in *.
  pose proof (fill_ckpt_ok f2fs_crc32 crc_range e st0 Hin0) as Hfill.
  generalize dependent (fill_ckpt f2fs_crc32 e st0). intros st1 Hfill H. exists st0, st1.
  destruct (dirty_meta e && bad).
  { inversion H; subst. split; try done; by left. }
  assert (Hb1 : buf_ok (ckpt (cp st1))).
  { eapply buf_ok_changes; [apply (ff_changes _ _ _ _ (cf_fields _ _ _ _ Hfill))|by eapply pi_buf]. }
  destruct (write_pack_ok e st1 err st' out1 out2 Hb1 H) as (W1 & W2 & W3). split; try done.
  intros He. destruct (W3 He) as (D1 & D2 & D3 & D4 & D5). split_and!; try done.
  destruct (io_error e 1); [|by inversion Hc]. subst bad.
  rewrite (ff_error _ _ _ _ (cf_fields _ _ _ _ Hfill)) in D5. by rewrite error_flag, D5 in Hbad.
Qed.

(** ** Reading a pack *)

Lemma take_add {A} n m (l : list A) : take (n + m) l = take n l ++ take m (drop n l).
Proof. revert l. induction n as [|n IH]; intros [|x l]; simpl; try done; [by rewrite take_nil|]. by rewrite IH. Qed.

(** A buffer is its blocks. *)
Lemma buf_blocks b n : 0 <= n -> zlen b = F2FS_BLKSIZE * (1 + n) ->
  b = buf_block b 0 ++ concat (map (buf_block b) (seqZ 1 n)).
Proof.
  intros Hn Hl. assert (Hall : b = take (Z.to_nat (F2FS_BLKSIZE * (1 + n))) b) by (by rewrite take_ge by (unfold zlen in Hl; lia)).
  rewrite Hall at 1. clear Hall Hl. unfold F2FS_BLKSIZE. revert n Hn. apply natlike_ind; [by rewrite app_nil_r|].
  intros n Hn IH. replace (4096 * (1 + Z.succ n)) with (4096 * (1 + n) + 4096) by lia.
  rewrite Z2Nat.inj_add, take_add, IH by lia. unfold Z.succ. rewrite seqZ_snoc, map_app, concat_app, app_assoc by done. f_equal.
  cbn [map concat]. by rewrite app_nil_r.
Qed.

Lemma validate_sealed b d start : sealed f2fs_crc32 b ->
  1 <= le32_at cp_pack_total_block_count b < 2 ^ 32 -> d start = buf_block b 0 ->
  d (u32 (start + (le32_at cp_pack_total_block_count b - 1))) = buf_block b 0 ->
  validate_checkpoint f2fs_crc32 d start = Some (buf_block b 0, cur_cp_version b).
Proof.
  intros Hs Ht H1 H2. unfold validate_checkpoint, get_meta_page. rewrite (sealed_version _ _ _ _ Hs H1), H1.
  rewrite get_le_head by (unfold cp_pack_total_block_count, F2FS_BLKSIZE; lia). rewrite (u32_small (_ - 1)) by lia.
  by rewrite (sealed_version _ _ _ _ Hs H2), Z.eqb_refl.
Qed.

(** The versions a mount compares. *)
Lemma ver_after_spec a b : 0 <= a < 2 ^ 63 -> 0 <= b < 2 ^ 63 -> ver_after a b = (b <? a).
Proof.
  intros Ha Hb. unfold ver_after. replace (s64 (u64 (a - b))) with (a - b).
  { destruct (Z.ltb_spec b a), (Z.ltb_spec 0 (a - b)); lia || done. }
  rewrite <- (s64_small (a - b)) at 1 by lia. unfold s64, u64. by rewrite Zplus_mod_idemp_l.
Qed.

(** Where the two packs are. *)
Record super_place (sb : f2fs_super_block) : Prop := {
  sp_seg : sb_log_blocks_per_seg sb = 9;
  sp_addr : 0 <= sb_cp_blkaddr sb < 2 ^ 32
}.

Definition pack_addr (sb : f2fs_super_block) (pack : Z) : Z :=
  if pack =? 1 then sb_cp_blkaddr sb else u32 (sb_cp_blkaddr sb + 512).
Definition other_pack (pack : Z) : Z := if pack =? 1 then 2 else 1.

(** The pack at address [a] is not valid, or older than [v]. *)
Definition older_pack (d : disk) (a v : Z) : Prop :=
  forall b w, validate_checkpoint f2fs_crc32 d a = Some (b, w) -> 0 <= w < v.

Definition payload_read (sb : f2fs_super_block) (d : disk) (start : Z) : list Z :=
  concat (map (fun i => get_meta_page d (u32 (start + i))) (seqZ 1 (sb_cp_payload sb))).

Lemma mount_chooses sb d pack b v : super_place sb -> pack = 1 \/ pack = 2 -> 0 <= v < 2 ^ 63 ->
  validate_checkpoint f2fs_crc32 d (pack_addr sb pack) = Some (b, v) ->
  older_pack d (pack_addr sb (other_pack pack)) v ->
  get_valid_checkpoint f2fs_crc32 false sb d =
    if c_true (sanity_check_ckpt (mk_cpinfo sb b pack)) then (- EINVAL, None)
    else (0, Some (mk_cpinfo sb (b ++ payload_read sb d (pack_addr sb pack)) pack)).
Proof.
  intros [H9 Ha] Hp Hv Hval Hold. unfold get_valid_checkpoint, payload_read. rewrite H9. change (Z.shiftl 1 9) with 512.
  replace (1 + sb_cp_payload sb - 1) with (sb_cp_payload sb) by lia.
  unfold older_pack in Hold. change (pack_addr sb 2) with (u32 (sb_cp_blkaddr sb + 512)) in *.
  destruct Hp as [-> | ->]; [change (other_pack 1) with 2 in *|change (other_pack 2) with 1 in *];
    change (pack_addr sb 2) with (u32 (sb_cp_blkaddr sb + 512)) in *; change (pack_addr sb 1) with (sb_cp_blkaddr sb) in *.
  - rewrite Hval.
    destruct (validate_checkpoint f2fs_crc32 d (u32 (sb_cp_blkaddr sb + 512))) as [[b2 w]|]; [|done].
    pose proof (Hold _ _ eq_refl). rewrite ver_after_spec by lia. by rewrite (proj2 (Z.ltb_ge v w)) by lia.
  - rewrite Hval.
    destruct (validate_checkpoint f2fs_crc32 d (sb_cp_blkaddr sb)) as [[b2 w]|]; [|done].
    pose proof (Hold _ _ eq_refl). rewrite ver_after_spec by lia. by rewrite (proj2 (Z.ltb_lt w v)) by lia.
Qed.

(** ** The filled block *)

(** A mount accepts the block a checkpoint filled. *)
Lemma filled_sane e st st1 info : pack_input e st -> fields_filled ckpt_bytes e st st1 -> flag_bit (ckpt (cp st1)) 3 = false ->
  sanity_check_ckpt (cp st) = 0 -> (forall t, is_type t -> curseg_segno t (logs st) < sb_segment_count_main (raw_super (cp st))) ->
  raw_super info = raw_super (cp st) -> ckpt info = buf_block (ckpt (cp st1)) 0 ->
  sanity_check_ckpt info = 0.
Proof.
  intros Hin F Herr Hs Hm Hraw Hck. unfold sanity_check_ckpt in *. rewrite Hraw, Hck.
  pose proof (pi_fits _ _ Hin) as [Hf1 Hf2]. destruct (ff_logs _ _ _ _ F) as [C1 C2 _].
  rewrite !get_le_head by (unfold rsvd_segment_count, overprov_segment_count, F2FS_BLKSIZE; lia).
  rewrite !(changes_get _ _ _ _ _ (ff_changes _ _ _ _ F)) by (unfold rsvd_segment_count, overprov_segment_count, ckpt_bytes, head_bytes, tail_bytes; lia).
  case_if_in Hs; [done|]. case_if_in Hs; [done|]. clear Hs.
  assert (Hx : forall so bo, (forall i, 0 <= i < 3 -> exists t, is_type t /\
      le32_at (so i) (buf_block (ckpt (cp st1)) 0) = curseg_segno t (logs st) /\ le16_at (bo i) (buf_block (ckpt (cp st1)) 0) = curseg_blkoff t (logs st)) ->
    existsb (fun i => curseg_bad (sb_segment_count_main (raw_super (cp st))) (le32_at (so i) (buf_block (ckpt (cp st1)) 0)) (le16_at (bo i) (buf_block (ckpt (cp st1)) 0))) [0; 1; 2] = false).
  { intros so bo Hso. assert (Hb : forall i, 0 <= i < 3 -> curseg_bad (sb_segment_count_main (raw_super (cp st)))
        (le32_at (so i) (buf_block (ckpt (cp st1)) 0)) (le16_at (bo i) (buf_block (ckpt (cp st1)) 0)) = false).
    { intros i Hi. destruct (Hso i Hi) as (t & Ht & -> & ->). unfold curseg_bad, blocks_per_seg. specialize (Hm t Ht). specialize (Hf2 t Ht).
      apply orb_false_iff. split; apply Z.leb_gt; lia. }
    cbn [existsb]. by rewrite !Hb by lia. }
  rewrite (Hx cur_node_segno cur_node_blkoff), (Hx cur_data_segno cur_data_blkoff).
  - rewrite error_flag, Hck. unfold flag_bit in *. rewrite get_le_head by (unfold ckpt_flags, F2FS_BLKSIZE; lia). by rewrite Herr.
  - intros i Hi. exists i. split; [unfold is_type, Segment.NR_CURSEG_TYPE; lia|].
    rewrite !get_le_head by (unfold cur_data_segno, cur_data_blkoff, F2FS_BLKSIZE; lia). by apply C1.
  - intros i Hi. exists (3 + i). split; [unfold is_type, Segment.NR_CURSEG_TYPE; lia|].
    rewrite !get_le_head by (unfold cur_node_segno, cur_node_blkoff, F2FS_BLKSIZE; lia). by apply C2.
Qed.

(** What the filled block keeps of the one before. *)
Lemma filled_keeps n off e st st1 : fields_filled ckpt_bytes e st st1 -> 0 <= off ->
  off + Z.of_nat n <= 32 \/ 144 <= off /\ off + Z.of_nat n <= 168 -> get_le n off (ckpt (cp st1)) = get_le n off (ckpt (cp st)).
Proof.
  intros F Ho H. apply (changes_get _ _ _ _ _ (ff_changes _ _ _ _ F)); [done|]. unfold ckpt_bytes, head_bytes, tail_bytes. lia.
Qed.

(** ** Checkpoint, then mount *)

(** The state in which [do_checkpoint] starts. *)
Definition cp_ready (flush : log_state -> log_state) (fn : free_nids) (st : cp_state) : cp_state :=
  let st := __prepare_cp_block fn st in
  let st := on_ckpt (fun b => set_le64 checkpoint_ver (cur_cp_version b + 1) b) st in
  set_logs (flush (logs st)) st.

Lemma write_checkpoint_ok flush flush_sit fn e st err st' out1 out2 :
  write_checkpoint f2fs_crc32 flush flush_sit fn e st = (err, st', out1, out2) ->
  out1 = [] /\ out2 = [] \/ do_checkpoint f2fs_crc32 e (cp_ready flush fn st) = (err, st', out1, out2).
Proof.
  unfold write_checkpoint. fold (cp_ready flush fn st). repeat (case_if; [intros [= <- <- <- <-]; by left|]). by right.
Qed.

(** The pack a checkpoint writes is the other one of the two. *)
Lemma next_addr info : cur_cp_pack info = 1 \/ cur_cp_pack info = 2 ->
  __start_cp_next_addr info = pack_addr (raw_super info) (other_pack (cur_cp_pack info)) /\
  __start_cp_addr (__set_cp_next_pack info) = __start_cp_next_addr info /\
  cur_cp_pack (__set_cp_next_pack info) = other_pack (cur_cp_pack info).
Proof.
  intros Hp. unfold __start_cp_next_addr, __start_cp_addr, __set_cp_next_pack, pack_addr, other_pack. cbn [cur_cp_pack set_cur_cp_pack raw_super].
  destruct Hp as [-> | ->]; done.
Qed.

Lemma pack_addr_u32 sb pack : super_place sb -> u32 (pack_addr sb pack) = pack_addr sb pack.
Proof.
  intros [_ Ha]. unfold pack_addr. case_if; [by apply u32_small|]. unfold u32. by rewrite Zmod_mod.
Qed.

(** The new pack on the device: the mount reads back the block in memory. *)
Lemma mount_new_pack e st st1 d : pack_input e st -> ckpt_filled f2fs_crc32 e st st1 -> flag_bit (ckpt (cp st1)) 3 = false ->
  super_place (raw_super (cp st)) -> cur_cp_pack (cp st) = 1 \/ cur_cp_pack (cp st) = 2 ->
  sanity_check_ckpt (cp st) = 0 -> (forall t, is_type t -> curseg_segno t (logs st) < sb_segment_count_main (raw_super (cp st))) ->
  cur_cp_version (ckpt (cp st)) < 2 ^ 63 ->
  pack_parts e st st1 (__start_cp_next_addr (cp st1)) d ->
  older_pack d (pack_addr (raw_super (cp st)) (cur_cp_pack (cp st))) (cur_cp_version (ckpt (cp st))) ->
  get_valid_checkpoint f2fs_crc32 false (raw_super (cp st)) d = (0, Some (__set_cp_next_pack (cp st1))).
Proof.
  intros Hin [F _ Hse] Herr Hpl Hpk Hs Hm Hv [P1 P2 P3 _ _ _] Hold.
  destruct (ff_same _ _ _ _ F) as (_ & _ & S3 & S4 & _).
  destruct (next_addr (cp st1) ltac:(by rewrite S4)) as (N1 & N2 & N3). rewrite S3, S4 in N1. rewrite S4 in N3.
  pose proof (filled_keeps 8 checkpoint_ver e st st1 F ltac:(done) ltac:(left; done)) as Hver.
  assert (Hvr : 0 <= cur_cp_version (ckpt (cp st))) by (unfold cur_cp_version; pose proof (le64_range checkpoint_ver _ (pi_bytes _ _ Hin)); lia).
  pose proof (orphan_room e st Hin). pose proof (pi_payload _ _ Hin) as Hpay. pose proof (npages_range false (cp st1) (logs st)).
  assert (Htot : 1 <= le32_at cp_pack_total_block_count (ckpt (cp st1)) < 2 ^ 32).
  { rewrite (ff_total _ _ _ _ F). unfold node_sum_blocks, F2FS_CP_PACKS, NR_CURSEG_TYPE, blocks_per_seg in *. case_if; lia. }
  pose proof (validate_sealed _ _ _ Hse Htot P1 P2) as Hval. rewrite N1 in Hval, P3.
  change (cur_cp_version (ckpt (cp st1)) = cur_cp_version (ckpt (cp st))) in Hver. rewrite Hver in Hval.
  rewrite (mount_chooses _ d (other_pack (cur_cp_pack (cp st))) _ _ Hpl) with (2 := conj Hvr Hv) (3 := Hval).
  2: by destruct Hpk as [-> | ->]; [right|left].
  2: by destruct Hpk as [Hk|Hk]; rewrite Hk in *.
  rewrite (filled_sane e st st1 _ Hin F Herr Hs Hm) by done. change (c_true 0) with false. cbv iota. do 2 f_equal.
  assert (Hlen : zlen (ckpt (cp st1)) = F2FS_BLKSIZE * (1 + __cp_payload (cp st))) by (rewrite (proj1 (ff_changes _ _ _ _ F)); apply Hin).
  set (start := pack_addr (raw_super (cp st)) (other_pack (cur_cp_pack (cp st)))) in *.
  assert (Hbuf : buf_block (ckpt (cp st1)) 0 ++ payload_read (raw_super (cp st)) d start = ckpt (cp st1)).
  { symmetry. etransitivity; [apply (buf_blocks _ _ (proj1 Hpay) Hlen)|]. f_equal. unfold payload_read. f_equal.
    apply map_ext_Forall. unfold on_disk, payload_blocks in P3. rewrite Forall_map in P3.
    change (sb_cp_payload (raw_super (cp st))) with (__cp_payload (cp st)).
    assert (Hpp : __cp_payload (cp st1) = __cp_payload (cp st)) by (unfold __cp_payload; by rewrite S3). rewrite Hpp in P3.
    eapply Forall_impl; [exact P3|]. by intros i Hi. }
  rewrite Hbuf, <- N3. unfold __set_cp_next_pack, set_cur_cp_pack. cbn [cur_cp_pack]. by rewrite S3.
Qed.

(** The summaries are where the mount looks for them. *)
Lemma mount_sums e st st1 d : pack_input e st -> fields_filled ckpt_bytes e st st1 ->
  cur_cp_pack (cp st) = 1 \/ cur_cp_pack (cp st) = 2 -> pack_parts e st st1 (__start_cp_next_addr (cp st1)) d ->
  sums_on_disk (__set_cp_next_pack (cp st1)) (put_kbytes e (logs st)) (cache e) d.
Proof.
  intros Hin F Hpk [_ _ _ _ P5 P6]. destruct (ff_same _ _ _ _ F) as (_ & _ & _ & S4 & _).
  destruct (next_addr (cp st1) ltac:(by rewrite S4)) as (_ & N2 & _).
  assert (Hst : start_sum_block (__set_cp_next_pack (cp st1)) =
    u32 (__start_cp_next_addr (cp st1) + le32_at cp_pack_start_sum (ckpt (cp st1)))) by (unfold start_sum_block; by rewrite N2).
  split; rewrite Hst.
  - rewrite write_data_kbytes by apply (ls_jlen _ (pi_logs _ _ Hin)). exact P5.
  - intros He. rewrite u32_add_idemp. apply P6. by rewrite <- (filled_flags _ _ _ _ _ F eq_refl).
Qed.

(** The counters the block takes from memory. *)
Record counts_fit (c : counts) : Prop := {
  cf_blocks : 0 <= total_valid_block_count c < 2 ^ 32;
  cf_nodes : 0 <= total_valid_node_count c < 2 ^ 32;
  cf_inodes : 0 <= total_valid_inode_count c < 2 ^ 32
}.

Lemma ready_fields flush fn st : 192 <= zlen (ckpt (cp st)) ->
  let b := ckpt (cp (cp_ready flush fn st)) in
  cur_cp_version b = u64 (cur_cp_version (ckpt (cp st)) + 1) /\
  le64_at valid_block_count_off b = u64 (total_valid_block_count (cnt st)) /\
  le32_at valid_node_count_off b = u32 (total_valid_node_count (cnt st)) /\
  le32_at valid_inode_count_off b = u32 (Z.max 0 (total_valid_inode_count (cnt st))) /\
  le32_at next_free_nid_off b = u32 (next_free_nid fn (next_scan_nid fn)).
Proof.
  intros Hl. cbv zeta. unfold cp_ready, __prepare_cp_block, cur_cp_version. cbn [set_logs cp]. rewrite !ckpt_on_ckpt.
  change (cnt (on_ckpt _ st)) with (cnt st).
  unfold checkpoint_ver, valid_block_count_off, valid_node_count_off, valid_inode_count_off, next_free_nid_off, valid_inode_count, valid_user_blocks.
  set (v := _ + 1). split_and!.
  - rewrite get_put_le64 by (rewrite ?zlen_put_le; lia). unfold v. by rewrite !get_put_other by lia.
  - rewrite !(get_put_other _ _ 8 16) by lia. apply get_put_le64; lia.
  - rewrite !(get_put_other _ _ 4 144) by lia. apply get_put_le32; rewrite ?zlen_put_le; lia.
  - rewrite !(get_put_other _ _ 4 148) by lia. apply get_put_le32; rewrite ?zlen_put_le; lia.
  - rewrite !(get_put_other _ _ 4 152) by lia. apply get_put_le32; rewrite ?zlen_put_le; lia.
Qed.

(** What a checkpoint needs of the system when it starts to write. *)
Record cp_startable (e : cp_env) (st : cp_state) : Prop := {
  cs_input : pack_input e st;
  cs_super : super_place (raw_super (cp st));
  cs_pack : cur_cp_pack (cp st) = 1 \/ cur_cp_pack (cp st) = 2;
  cs_sane : sanity_check_ckpt (cp st) = 0;
  cs_segs : forall t, is_type t -> curseg_segno t (logs st) < sb_segment_count_main (raw_super (cp st));
  cs_journals : le16_at 0 (get_journal CURSEG_HOT_DATA (logs st)) <= NAT_JOURNAL_ENTRIES /\
    le16_at 0 (get_journal CURSEG_COLD_DATA (logs st)) <= SIT_JOURNAL_ENTRIES;
  cs_version : cur_cp_version (ckpt (cp st)) < 2 ^ 63
}.

(** What the system keeps in memory comes back at the mount. *)
Record mounted (ly : layout) (e : cp_env) (st st' : cp_state) (d : disk) : Prop := {
  mt_ckpt : get_valid_checkpoint f2fs_crc32 false (raw_super (cp st)) d = (0, Some (cp st'));
  mt_bitmaps : bitmaps_in e (cp st');
  mt_logs : forall s, let '(err, ls') := build_curseg ly (cp st') d s in
    err = 0 /\ (forall t, is_type t -> log_back ly (cp st') (logs st') d t (CURSEG t ls')) /\
    get_journal CURSEG_HOT_DATA ls' = get_journal CURSEG_HOT_DATA (logs st) /\
    get_journal CURSEG_COLD_DATA ls' = get_journal CURSEG_COLD_DATA (logs st);
  mt_orphans : forall s, no_orphans s -> let '(err, _, _, s', gone) := recover_orphan_inodes (fun _ => Orphan_gone) (cp st') d s in
    err = 0 /\ gone = ino_list (get_im ORPHAN_INO (inos st)) /\ no_orphans s'
}.

Lemma journals_kbytes e ls t : t <> CURSEG_HOT_NODE -> get_journal t (put_kbytes e ls) = get_journal t ls.
Proof. intros Ht. unfold get_journal, put_kbytes, put_journal. cbn [journals]. by apply zget_zset_ne. Qed.

Lemma mounted_ok ly e st st1 st' d : cp_startable e st -> ckpt_filled f2fs_crc32 e st st1 -> flag_bit (ckpt (cp st1)) 3 = false ->
  cp st' = __set_cp_next_pack (cp st1) -> logs st' = put_kbytes e (logs st1) ->
  pack_parts e st st1 (__start_cp_next_addr (cp st1)) d ->
  older_pack d (pack_addr (raw_super (cp st)) (cur_cp_pack (cp st))) (cur_cp_version (ckpt (cp st))) ->
  mounted ly e st st' d.
Proof.
  intros [Hin Hpl Hpk Hs Hm [Hj1 Hj2] Hv] Hf Herr Hcp Hlg Hpp Hold. pose proof (cf_fields _ _ _ _ Hf) as F.
  destruct (ff_same _ _ _ _ F) as (S1 & S2 & S3 & S4 & _). destruct (next_addr (cp st1) ltac:(by rewrite S4)) as (_ & N2 & _).
  assert (Hpay : __cp_payload (__set_cp_next_pack (cp st1)) = __cp_payload (cp st)) by (unfold __cp_payload; cbn; by rewrite S3).
  split; rewrite ?Hcp.
  - by eapply mount_new_pack.
  - exact (cf_bitmaps _ _ _ _ Hf).
  - intros s. rewrite Hlg, S1.
    pose proof (build_curseg_ok ly (__set_cp_next_pack (cp st1)) (put_kbytes e (logs st)) (cache e) d s
      (logs_kbytes_ok _ _ (pi_logs _ _ Hin))) as H.
    rewrite !journals_kbytes in H by done. apply H; [|..|by apply (pi_cache _ _ Hin)| |done|done].
    + apply ckpt_logs_kbytes. eapply ckpt_logs_buf; [|apply (ff_logs _ _ _ _ F)]. done.
    + apply sum_pack_kbytes. exact (filled_sum_pack _ _ _ _ (__set_cp_next_pack (cp st1)) F eq_refl).
    + by eapply mount_sums.
  - intros s Hno. pose proof (orphans_back (__set_cp_next_pack (cp st1)) (inos st) s d (fun _ => Orphan_gone) (pi_inos _ _ Hin)
      (filled_orphan_pack _ _ _ (__set_cp_next_pack (cp st1)) Hin F eq_refl S3) Hno) as H.
    destruct (recover_orphan_inodes _ _ d s) as [[[[err fsck] cp'] s'] gone].
    destruct H as [H _]; [|done|].
    + rewrite N2, Hpay. destruct (c_true (ino_num (get_im ORPHAN_INO (inos st)))) eqn:En; [by apply (pp_orphans _ _ _ _ _ Hpp)|].
      apply c_true_false in En. unfold write_orphan_inodes. rewrite (im_num _ _ (iw_orphan _ _ (pi_inos _ _ Hin))) in En.
      assert (ino_list (get_im ORPHAN_INO (inos st)) = []) as ->; [|by apply Forall_nil].
      destruct (ino_list _); [done|]. unfold zlen in En. cbn [length] in En. lia.
    + destruct H as (-> & _ & -> & Hno' & _); [by apply Forall_forall|]. done.
Qed.

(** C2. A checkpoint that succeeds is what the next mount finds.  When
    [write_checkpoint] has returned 0 and the blocks it wrote are on the
    device, [get_valid_checkpoint] picks the pack it wrote and rebuilds, byte
    for byte, the checkpoint buffer that is in memory; its version is the old
    one plus 1; it holds the version bit maps, the three counters and the next
    free node id; the six logs, their journals and all the orphans are read
    back from it. *)
Theorem checkpoint_then_mount (ly : layout) (flush flush_sit : log_state -> log_state) (fn : free_nids) (e : cp_env)
    (st st' : cp_state) (out1 out2 : list (Z * list Z)) (d : disk) :
  192 <= zlen (ckpt (cp st)) -> counts_fit (cnt st) -> cp_startable e (cp_ready flush fn st) ->
  write_checkpoint f2fs_crc32 flush flush_sit fn e st = (0, st', out1, out2) -> out2 <> [] ->
  on_disk d out2 ->
  older_pack d (pack_addr (raw_super (cp st)) (cur_cp_pack (cp st))) (u64 (cur_cp_version (ckpt (cp st)) + 1)) ->
  mounted ly e (cp_ready flush fn st) st' d /\
  cur_cp_version (ckpt (cp st')) = u64 (cur_cp_version (ckpt (cp st)) + 1) /\
  le32_at next_free_nid_off (ckpt (cp st')) = u32 (next_free_nid fn (next_scan_nid fn)) /\
  forall c, let c' := load_counts (cp st') c in
    total_valid_block_count c' = total_valid_block_count (cnt st) /\
    total_valid_node_count c' = total_valid_node_count (cnt st) /\
    total_valid_inode_count c' = total_valid_inode_count (cnt st).
Proof.
  intros Hl Hc Hcs Hw Hne Hd Hold. destruct (ready_fields flush fn st Hl) as (R1 & R2 & R3 & R4 & R5).
  apply write_checkpoint_ok in Hw as [[_ Hno]|Hw]; [done|]. pose proof (cs_input _ _ Hcs) as Hin.
  change (raw_super (cp st)) with (raw_super (cp (cp_ready flush fn st))) in Hold.
  change (cur_cp_pack (cp st)) with (cur_cp_pack (cp (cp_ready flush fn st))) in Hold. rewrite <- R1 in Hold |- *.
  set (st0 := cp_ready flush fn st) in *. clearbody st0.
  destruct (do_checkpoint_ok e st0 0 st' out1 out2 Hin Hw) as (st00 & st1 & [_ _ _ O4 _ _ O7]).
  destruct (O7 eq_refl) as (-> & Ho & Hcp & Hlg & _ & Herr). pose proof (cf_fields _ _ _ _ O4) as F.
  destruct (ff_same _ _ _ _ F) as (_ & _ & S3 & S4 & _).
  destruct (next_addr (cp st1)) as (N1 & _). { rewrite S4. apply Hcs. }
  assert (Hst : u32 (__start_cp_next_addr (cp st1)) = __start_cp_next_addr (cp st1)) by (rewrite N1, S3; apply pack_addr_u32, Hcs).
  destruct (pack_blocks_ok e st0 st1 _ Hin F Hst) as (_ & _ & _ & _ & Hpp). unfold pack_of in Ho. rewrite Ho in Hd.
  split; [eapply mounted_ok; eauto|].
  assert (Hk : forall n off, 0 <= off -> off + Z.of_nat n <= 32 \/ 144 <= off /\ off + Z.of_nat n <= 168 ->
    get_le n off (ckpt (cp st')) = get_le n off (ckpt (cp st0))) by (intros n off Hoff Hr; rewrite Hcp; by apply (filled_keeps n off e st0 st1)).
  destruct Hc as [C1 C2 C3]. split; [by apply Hk; [|left]|]. split; [by rewrite Hk, R5 by (unfold next_free_nid_off; lia)|].
  intros c. cbv zeta. unfold load_counts.
  cbn [total_valid_block_count total_valid_node_count total_valid_inode_count].
  rewrite !Hk, R2, R3, R4 by (unfold valid_block_count_off, valid_node_count_off, valid_inode_count_off; lia).
  rewrite u64_small, !u32_small by lia. split_and!; lia || done.
Qed.

(** ** A crash *)

Lemma is_set_nat_bits e st st1 : fields_filled ckpt_bytes e st st1 -> enabled_nat_bits (Some (reason e)) (cp st1) = true ->
  le32_at cp_pack_total_block_count (ckpt (cp st1)) <= u32 (blocks_per_seg - nat_bits_blocks st1).
Proof.
  intros F He. unfold enabled_nat_bits in He. apply andb_true_iff in He as [Hu Hf].
  unfold is_set_ckpt_flags in Hf. rewrite (is_set_bit _ 7) in Hf by lia.
  destruct (ff_same _ _ _ _ F) as (_ & _ & _ & _ & _ & ->). by apply (ff_nat_bits _ _ _ _ F).
Qed.

(** Every block goes to the new pack's segment, and only the two copies of
    the checkpoint block to the places of its first and its last block. *)
Lemma written_place e st st1 out1 out2 : pack_input e st -> fields_filled ckpt_bytes e st st1 ->
  u32 (__start_cp_next_addr (cp st1)) = __start_cp_next_addr (cp st1) -> 0 <= nat_bits_blocks st <= blocks_per_seg ->
  bits_written e st1 out1 -> out2 = [] \/ out2 = pack_of e st1 ->
  let start := __start_cp_next_addr (cp st1) in
  let total := le32_at cp_pack_total_block_count (ckpt (cp st1)) in
  2 <= total <= blocks_per_seg /\
  forall a b, (a, b) ∈ out1 ++ out2 -> exists i, 0 <= i < blocks_per_seg /\ a = u32 (start + i) /\
    (i = 0 \/ i = total - 1 -> b = buf_block (ckpt (cp st1)) 0 /\ (a, b) ∈ out2).
Proof.
  intros Hin F Hst Hn Hb Hp. cbv zeta. set (start := __start_cp_next_addr (cp st1)) in *.
  destruct (pack_blocks_ok e st st1 start Hin F Hst) as (L1 & L2 & L3 & L4 & _). fold (pack_of e st1) in L1, L2, L3, L4.
  pose proof (orphan_room e st Hin). pose proof (pi_payload _ _ Hin). pose proof (npages_range false (cp st1) (logs st)).
  assert (Htot : 2 <= le32_at cp_pack_total_block_count (ckpt (cp st1)) <= blocks_per_seg).
  { rewrite (ff_total _ _ _ _ F). unfold node_sum_blocks, F2FS_CP_PACKS, NR_CURSEG_TYPE, blocks_per_seg in *. case_if; lia. }
  split; [done|]. set (total := le32_at cp_pack_total_block_count (ckpt (cp st1))) in *. unfold blocks_per_seg in *.
  intros a b [Hab|Hab]%elem_of_app.
  - destruct Hb as [-> |[He Hb]]; [by apply elem_of_nil in Hab|].
    pose proof (is_set_nat_bits e st st1 F He) as Hle. destruct (ff_same _ _ _ _ F) as (_ & _ & _ & _ & _ & Hnb).
    rewrite Hb in Hab. unfold write_nat_bits in Hab. cbn [snd] in Hab. apply list_elem_of_fmap in Hab as (i & [= -> ->] & Hi%elem_of_seqZ).
    rewrite Hnb in *. unfold blocks_per_seg in *. rewrite u32_small in Hle by lia. fold total in Hle. fold start.
    exists (512 - nat_bits_blocks st + i). split; [lia|]. split; [rewrite u32_add_idemp; f_equal; lia|]. lia.
  - destruct Hp as [-> | ->]; [by apply elem_of_nil in Hab|].
    destruct (laid_in _ _ _ _ L1 Hab) as (i & Hi & ->). exists i. split; [lia|]. split; [done|]. intros Hi'.
    split; [|done]. eapply (laid_same start _ _ _ _ L1); [lia|exact Hab|].
    destruct Hi' as [-> | ->]; [by rewrite Z.add_0_r|]. by rewrite <- L2.
Qed.

(** What the crash leaves of each block of the checkpoint area: what was
    there, or what was written. *)
Definition torn (sb : f2fs_super_block) (d : disk) (out : list (Z * list Z)) (d' : disk) : Prop :=
  forall i, 0 <= i < 2 * blocks_per_seg -> let a := u32 (sb_cp_blkaddr sb + i) in d' a = d a \/ (a, d' a) ∈ out.

Lemma version_ext d d' a : d a = d' a -> get_checkpoint_version f2fs_crc32 d a = get_checkpoint_version f2fs_crc32 d' a.
Proof. intros H. unfold get_checkpoint_version, get_meta_page. by rewrite H. Qed.

Lemma version_value d a w : get_checkpoint_version f2fs_crc32 d a = Some w -> w = cur_cp_version (d a).
Proof. unfold get_checkpoint_version, get_meta_page. repeat case_if; [done|done|]. by intros [= <-]. Qed.

Lemma validate_ext d d' a : d a = d' a ->
  (let a2 := u32 (a + u32 (le32_at cp_pack_total_block_count (d a) - 1)) in d a2 = d' a2) ->
  validate_checkpoint f2fs_crc32 d a = validate_checkpoint f2fs_crc32 d' a.
Proof.
  cbv zeta. intros H1 H2. unfold validate_checkpoint, get_meta_page.
  rewrite (version_ext d d' a H1), (version_ext d d' _ H2), H1. done.
Qed.

(** The device between two checkpoints: a valid pack of version [v], and
    nothing in the other one that could be taken for the next version. *)
Record last_ckpt (sb : f2fs_super_block) (pack : Z) (d : disk) (v : Z) : Prop := {
  lc_super : super_place sb;
  lc_pack : pack = 1 \/ pack = 2;
  lc_version : 0 <= v < 2 ^ 63 - 1;
  lc_payload : 0 <= sb_cp_payload sb < blocks_per_seg;
  lc_valid : validate_checkpoint f2fs_crc32 d (pack_addr sb pack) = Some (d (pack_addr sb pack), v);
  lc_sane : sanity_check_ckpt (mk_cpinfo sb (d (pack_addr sb pack)) pack) = 0;
  lc_total : 1 <= le32_at cp_pack_total_block_count (d (pack_addr sb pack)) <= blocks_per_seg;
  lc_blocks : forall p i w, 0 <= i < blocks_per_seg ->
    get_checkpoint_version f2fs_crc32 d (u32 (pack_addr sb p + i)) = Some w -> 0 <= w <= v;
  lc_other : forall w, get_checkpoint_version f2fs_crc32 d (pack_addr sb (other_pack pack)) = Some w -> w < v
}.

Definition pack_off (pack : Z) : Z := if pack =? 1 then 0 else 512.

Lemma pack_addr_off sb pack i : u32 (pack_addr sb pack + i) = u32 (sb_cp_blkaddr sb + (pack_off pack + i)).
Proof. unfold pack_addr, pack_off. case_if; [f_equal; lia|]. rewrite u32_add_idemp. f_equal. lia. Qed.

Lemma validate_version d a b w : validate_checkpoint f2fs_crc32 d a = Some (b, w) ->
  get_checkpoint_version f2fs_crc32 d a = Some w /\
  get_checkpoint_version f2fs_crc32 d (u32 (a + u32 (le32_at cp_pack_total_block_count (d a) - 1))) = Some w.
Proof.
  unfold validate_checkpoint, get_meta_page. destruct (get_checkpoint_version f2fs_crc32 d a) as [v|]; [|done].
  destruct (get_checkpoint_version _ _ (u32 _)) as [v'|]; [|done]. case_if; [|done]. by intros [= <- <-]; subst.
Qed.

Lemma last_older sb pack d v : last_ckpt sb pack d v -> older_pack d (pack_addr sb (other_pack pack)) v.
Proof.
  intros L b w [Hw _]%validate_version. pose proof (lc_other _ _ _ _ L w Hw).
  rewrite <- (pack_addr_u32 sb (other_pack pack) (lc_super _ _ _ _ L)), <- (Z.add_0_r (pack_addr _ _)) in Hw.
  apply (lc_blocks _ _ _ _ L) in Hw; [lia|done].
Qed.

(** The writes [out] of a checkpoint whose block is [head]. *)
Definition new_pack_writes (sb : f2fs_super_block) (pack : Z) (head : list Z) (out out2 : list (Z * list Z)) : Prop :=
  let start := pack_addr sb (other_pack pack) in
  let total := le32_at cp_pack_total_block_count head in
  2 <= total <= blocks_per_seg /\
  forall a b, (a, b) ∈ out -> exists i, 0 <= i < blocks_per_seg /\ a = u32 (start + i) /\
    (i = 0 \/ i = total - 1 -> b = head /\ (a, b) ∈ out2).

(** A place that is not written has kept its block. *)
Lemma torn_at sb pack d out out2 d' head p i : torn sb d out d' -> new_pack_writes sb pack head out out2 ->
  pack = 1 \/ pack = 2 -> p = pack \/ p = other_pack pack -> 0 <= i < blocks_per_seg ->
  let a := u32 (pack_addr sb p + i) in
  d' a = d a \/ p = other_pack pack /\ (i = 0 \/ i = le32_at cp_pack_total_block_count head - 1 -> d' a = head /\ (a, head) ∈ out2).
Proof.
  intros Ht [_ Hw] Hpk Hp Hi. cbv zeta. unfold blocks_per_seg in *.
  assert (Ho : 0 <= pack_off p + i < 2 * 512) by (unfold pack_off; case_if; lia).
  destruct (Ht (pack_off p + i) Ho) as [H|H]; rewrite <- pack_addr_off in H; [by left|].
  right. destruct (Hw _ _ H) as (j & Hj & Ha & Hk). rewrite !pack_addr_off in Ha. apply u32_inj_near in Ha; [|unfold pack_off in *; repeat case_if; lia].
  assert (p = other_pack pack) as Hpo.
  { destruct Hp as [-> |]; [|done]. exfalso. destruct Hpk as [-> | ->]; unfold pack_off, other_pack in Ha; cbn in Ha; lia. }
  split; [done|]. rewrite Hpo in Ha. intros Hi'. destruct (Hk ltac:(lia)) as [Hh Ho2]. rewrite Hh in *. done.
Qed.

Lemma valid_kept sb pack d d' v : last_ckpt sb pack d v ->
  (forall i, 0 <= i < blocks_per_seg -> d' (u32 (pack_addr sb pack + i)) = d (u32 (pack_addr sb pack + i))) ->
  validate_checkpoint f2fs_crc32 d' (pack_addr sb pack) = validate_checkpoint f2fs_crc32 d (pack_addr sb pack).
Proof.
  intros L Hold. pose proof L as [L1 _ _ _ _ _ L7 _ _]. unfold blocks_per_seg in *. symmetry. apply validate_ext.
  - assert (Ha0 : u32 (pack_addr sb pack + 0) = pack_addr sb pack) by (by rewrite Z.add_0_r, pack_addr_u32).
    by rewrite <- Ha0, Hold by lia.
  - cbv zeta. rewrite (u32_small (_ - 1)) by lia. by rewrite Hold by lia.
Qed.

(** The mount does not change when the valid pack does not and the other one
    stays older. *)
Lemma mount_keeps sb pack d d' v : last_ckpt sb pack d v ->
  (forall i, 0 <= i < blocks_per_seg -> d' (u32 (pack_addr sb pack + i)) = d (u32 (pack_addr sb pack + i))) ->
  older_pack d' (pack_addr sb (other_pack pack)) v ->
  get_valid_checkpoint f2fs_crc32 false sb d' = get_valid_checkpoint f2fs_crc32 false sb d.
Proof.
  intros L Hold Hol. pose proof L as [L1 L2 L3 L4 L5 L6 L7 L8 L9]. unfold blocks_per_seg in *.
  pose proof (valid_kept sb pack d d' v L Hold) as Hval. rewrite L5 in Hval.
  assert (Hpay : payload_read sb d' (pack_addr sb pack) = payload_read sb d (pack_addr sb pack)).
  { unfold payload_read, get_meta_page. f_equal. apply map_ext_Forall, Forall_forall. intros i Hi%elem_of_seqZ. apply Hold. lia. }
  assert (Hv63 : 0 <= v < 2 ^ 63) by lia. rewrite (mount_chooses sb d' pack _ _ L1 L2 Hv63 Hval Hol).
  rewrite (mount_chooses sb d pack _ _ L1 L2 Hv63 L5 (last_older _ _ _ _ L)). by rewrite Hpay.
Qed.

Lemma crash_core sb pack d v d' head out out2 : last_ckpt sb pack d v -> new_pack_writes sb pack head out out2 ->
  get_checkpoint_version f2fs_crc32 (fun _ => head) 0 = Some (v + 1) -> torn sb d out d' ->
  get_valid_checkpoint f2fs_crc32 false sb d' = get_valid_checkpoint f2fs_crc32 false sb d \/
  let start := pack_addr sb (other_pack pack) in
  let tail := u32 (start + (le32_at cp_pack_total_block_count head - 1)) in
  d' start = head /\ d' tail = head /\ (start, head) ∈ out2 /\ (tail, head) ∈ out2.
Proof.
  intros L Hnw Hver Ht. pose proof L as [L1 L2 L3 L4 L5 L6 L7 L8 L9]. cbv zeta. unfold blocks_per_seg in *.
  assert (Ha0 : forall p, u32 (pack_addr sb p + 0) = pack_addr sb p) by (intros p; by rewrite Z.add_0_r, pack_addr_u32).
  pose proof (fun p i Hp Hi => torn_at sb pack d out out2 d' head p i Ht Hnw L2 Hp Hi) as Hat. cbv zeta in Hat. unfold blocks_per_seg in Hat.
  assert (Hold : forall i, 0 <= i < 512 -> d' (u32 (pack_addr sb pack + i)) = d (u32 (pack_addr sb pack + i))).
  { intros i Hi. destruct (Hat pack i (or_introl eq_refl) Hi) as [|[Hp _]]; [done|].
    destruct L2 as [-> | ->]; discriminate Hp. }
  pose proof (mount_keeps sb pack d d' v L Hold) as Hkeep.
  pose proof (Ha0 (other_pack pack)) as Hs0. set (start := pack_addr sb (other_pack pack)) in *. destruct Hnw as [Htot _]. unfold blocks_per_seg in *.
  pose proof (Hat (other_pack pack) 0 (or_intror eq_refl) ltac:(lia)) as H0. rewrite Ha0 in H0. fold start in H0.
  pose proof (Hat (other_pack pack) (le32_at cp_pack_total_block_count head - 1) (or_intror eq_refl) ltac:(lia)) as H1. fold start in H1.
  set (tail := u32 (start + (le32_at cp_pack_total_block_count head - 1))) in *.
  destruct H0 as [H0|[_ H0]].
  - left. apply Hkeep. intros b w [Hw _]%validate_version. rewrite (version_ext d' d start H0) in Hw.
    pose proof (L9 w Hw). rewrite <- Hs0 in Hw. apply (L8 (other_pack pack) 0) in Hw; [lia|done].
  - destruct (H0 (or_introl eq_refl)) as [H0h H0o]. destruct H1 as [H1|[_ H1]].
    + left. apply Hkeep. intros b w [Hw1 Hw2]%validate_version. exfalso.
      assert (Hv1 : get_checkpoint_version f2fs_crc32 d' start = Some (v + 1)) by (rewrite <- Hver; unfold get_checkpoint_version, get_meta_page; by rewrite H0h).
      rewrite Hv1 in Hw1. inversion Hw1; subst w. rewrite H0h, (u32_small (_ - 1)) in Hw2 by lia. fold tail in Hw2.
      rewrite (version_ext d' d tail H1) in Hw2. apply (L8 (other_pack pack)) in Hw2; [lia|lia].
    + right. destruct (H1 (or_intror eq_refl)). done.
Qed.

(** *** The writes of a checkpoint are those of a new pack *)

Lemma outcome_writes e st err st' out1 out2 st0 st1 : cp_outcome e st err st' out1 out2 st0 st1 ->
  super_place (raw_super (cp st)) -> cur_cp_pack (cp st) = 1 \/ cur_cp_pack (cp st) = 2 ->
  0 <= nat_bits_blocks st <= blocks_per_seg ->
  let head := buf_block (ckpt (cp st1)) 0 in
  new_pack_writes (raw_super (cp st)) (cur_cp_pack (cp st)) head (out1 ++ out2) out2 /\
  get_checkpoint_version f2fs_crc32 (fun _ => head) 0 = Some (cur_cp_version (ckpt (cp st))) /\
  __start_cp_next_addr (cp st1) = pack_addr (raw_super (cp st)) (other_pack (cur_cp_pack (cp st))) /\
  le32_at cp_pack_total_block_count head = le32_at cp_pack_total_block_count (ckpt (cp st1)).
Proof.
  intros [O1 O2 (S1 & S2 & S3 & S4 & S5 & S6 & S7) [F _ Hse] O5 O6 _] Hpl Hpk Hn. cbv zeta.
  destruct (ff_same _ _ _ _ F) as (_ & _ & T3 & T4 & _).
  destruct (next_addr (cp st1)) as (N1 & _). { by rewrite T4, S4. }
  rewrite T3, T4, S3, S4 in N1.
  assert (Hst : u32 (__start_cp_next_addr (cp st1)) = __start_cp_next_addr (cp st1)) by (rewrite N1; by apply pack_addr_u32).
  assert (Hth : le32_at cp_pack_total_block_count (buf_block (ckpt (cp st1)) 0) = le32_at cp_pack_total_block_count (ckpt (cp st1)))
    by (by apply get_le_head).
  destruct (written_place e st0 st1 out1 out2 O1 F Hst ltac:(by rewrite S6) O5 O6) as [W1 W2].
  split; [|split; [|done]].
  - unfold new_pack_writes. cbv zeta. rewrite Hth, <- N1. done.
  - rewrite (sealed_version f2fs_crc32 (ckpt (cp st1)) (fun _ => buf_block (ckpt (cp st1)) 0) 0 Hse eq_refl), <- O2. f_equal.
    apply (filled_keeps 8 checkpoint_ver e st0 st1 F); [done|by left].
Qed.

Lemma next_version v : 0 <= v < 2 ^ 63 - 1 -> u64 (v + 1) = v + 1.
Proof. intros Hv. apply u64_small. lia. Qed.

Lemma ready_len flush fn st : zlen (ckpt (cp (cp_ready flush fn st))) = zlen (ckpt (cp st)).
Proof. unfold cp_ready, __prepare_cp_block. cbn [set_logs cp]. rewrite !ckpt_on_ckpt. by rewrite !zlen_put_le. Qed.

Lemma mount_last sb pack d v : last_ckpt sb pack d v -> get_valid_checkpoint f2fs_crc32 false sb d =
  (0, Some (mk_cpinfo sb (d (pack_addr sb pack) ++ payload_read sb d (pack_addr sb pack)) pack)).
Proof.
  intros L. assert (Hv63 : 0 <= v < 2 ^ 63) by (pose proof (lc_version _ _ _ _ L); lia).
  rewrite (mount_chooses sb d pack _ _ (lc_super _ _ _ _ L) (lc_pack _ _ _ _ L) Hv63 (lc_valid _ _ _ _ L) (last_older _ _ _ _ L)).
  by rewrite (lc_sane _ _ _ _ L).
Qed.

(** C1. A crash during a checkpoint loses nothing.  Whatever part of the blocks
    that [write_checkpoint] hands out, in whatever order, has reached the
    device when the system stops -- and whether or not the checkpoint reports
    an error -- the next mount finds the last complete checkpoint, unchanged
    to the last byte, unless the first and the last block of the new pack,
    both copies of the new checkpoint block, are on the device: nothing less
    makes the new pack the valid one.  In particular no write before the pack
    (the NAT bits) does. *)
Theorem checkpoint_crash_safe (flush flush_sit : log_state -> log_state) (fn : free_nids) (e : cp_env)
    (st st' : cp_state) (err : Z) (out1 out2 : list (Z * list Z)) (d d' : disk) :
  let sb := raw_super (cp st) in
  let pack := cur_cp_pack (cp st) in
  let v := cur_cp_version (ckpt (cp st)) in
  last_ckpt sb pack d v -> pack_input e (cp_ready flush fn st) -> 0 <= nat_bits_blocks st <= blocks_per_seg ->
  write_checkpoint f2fs_crc32 flush flush_sit fn e st = (err, st', out1, out2) ->
  torn sb d (out1 ++ out2) d' ->
  get_valid_checkpoint f2fs_crc32 false sb d' =
    (0, Some (mk_cpinfo sb (d (pack_addr sb pack) ++ payload_read sb d (pack_addr sb pack)) pack)) \/
  exists head, let start := pack_addr sb (other_pack pack) in
    let tail := u32 (start + (le32_at cp_pack_total_block_count head - 1)) in
    cur_cp_version head = v + 1 /\ (start, head) ∈ out2 /\ (tail, head) ∈ out2 /\ d' start = head /\ d' tail = head.
Proof.
  cbv zeta. intros L Hin Hn Hw Ht. rewrite <- (mount_last _ _ _ _ L).
  apply write_checkpoint_ok in Hw as [[-> ->]|Hw].
  - left. assert (Heq : forall p i, 0 <= i < blocks_per_seg -> d' (u32 (pack_addr (raw_super (cp st)) p + i)) = d (u32 (pack_addr (raw_super (cp st)) p + i))).
    { intros p i Hi. rewrite pack_addr_off. assert (Hr : 0 <= pack_off p + i < 2 * blocks_per_seg) by (unfold pack_off, blocks_per_seg in *; case_if; lia).
      destruct (Ht _ Hr) as [|Hx]; [done|by apply elem_of_nil in Hx]. }
    apply (mount_keeps _ _ _ _ _ L); [intros i Hi; by apply Heq|]. intros b w [Hw _]%validate_version.
    rewrite (version_ext d' d) in Hw by (rewrite <- (pack_addr_u32 _ _ (lc_super _ _ _ _ L)), <- (Z.add_0_r (pack_addr _ _)); by apply Heq).
    pose proof (lc_other _ _ _ _ L w Hw). rewrite <- (pack_addr_u32 _ _ (lc_super _ _ _ _ L)), <- (Z.add_0_r (pack_addr _ _)) in Hw.
    apply (lc_blocks _ _ _ _ L) in Hw; [lia|done].
  - assert (Hl : 192 <= zlen (ckpt (cp st))).
    { rewrite <- (ready_len flush fn), (pi_len _ _ Hin). pose proof (pi_payload _ _ Hin). unfold F2FS_BLKSIZE. lia. }
    destruct (ready_fields flush fn st Hl) as (Hv & _). pose proof (lc_version _ _ _ _ L) as Hvr. rewrite next_version in Hv by done.
    destruct (do_checkpoint_ok e _ err st' out1 out2 Hin Hw) as (st0 & st1 & Hoc).
    destruct (outcome_writes e _ err st' out1 out2 st0 st1 Hoc (lc_super _ _ _ _ L) (lc_pack _ _ _ _ L) Hn) as (W1 & W2 & W3 & W4).
    cbv zeta in W1, W2. rewrite Hv in W2.
    destruct (crash_core _ _ d _ d' _ _ _ L W1 W2 Ht) as [->|(C1 & C2 & C3 & C4)]; [by left|].
    right. eexists. cbv zeta. split; [|split; [exact C3|split; [exact C4|split; [exact C1|exact C2]]]].
    symmetry. by apply version_value in W2.
Qed.

(** ** One checkpoint after the other *)

Lemma disk_write_app o1 o2 d : disk_write (o1 ++ o2) d = disk_write o2 (disk_write o1 d).
Proof. apply foldl_app. Qed.

Lemma disk_write_or out d a : disk_write out d a = d a \/ (a, disk_write out d a) ∈ out.
Proof.
  induction out as [|[a0 b0] out IH] using rev_ind; [by left|]. rewrite disk_write_app. cbn [disk_write foldl fst snd].
  rewrite elem_of_app, list_elem_of_singleton. destruct (Z.eqb_spec a a0) as [->|]; [by right; right|].
  destruct IH as [|]; [by left|right; by left].
Qed.

Lemma disk_write_laid start out d : laid_out start out -> zlen out < 2 ^ 32 -> on_disk (disk_write out d) out.
Proof.
  intros Hl Hn. apply Forall_forall. intros [a b] Hin. cbn [fst snd].
  destruct (disk_write_or out d a) as [Hd|Hd]; [|by eapply laid_same].
  assert (Hw : forall o, (exists c, (a, c) ∈ o) -> (a, disk_write o d a) ∈ o).
  { clear. induction o as [|[a0 b0] o IH] using rev_ind; intros [c Hc]; [by apply elem_of_nil in Hc|].
    rewrite disk_write_app. cbn [disk_write foldl fst snd]. rewrite elem_of_app, list_elem_of_singleton in *.
    destruct (Z.eqb_spec a a0) as [->|Hne]; [by right|]. left. apply IH. destruct Hc as [|[= -> _]]; [by exists c|done]. }
  eapply laid_same; [exact Hl|exact Hn| |exact Hin]. apply Hw. by exists b.
Qed.

(** Blocks that are not taken for a checkpoint block of a later version. *)
Definition no_later (v : Z) (out : list (Z * list Z)) : Prop :=
  Forall (fun ab => forall w, get_checkpoint_version f2fs_crc32 (fun _ => ab.2) 0 = Some w -> 0 <= w <= v) out.

Lemma old_pack_kept sb pack d d' v out head out2 i : last_ckpt sb pack d v -> torn sb d out d' -> new_pack_writes sb pack head out out2 ->
  0 <= i < blocks_per_seg -> d' (u32 (pack_addr sb pack + i)) = d (u32 (pack_addr sb pack + i)).
Proof.
  intros L Ht Hnw Hi.
  destruct (torn_at sb pack d out out2 d' head pack i Ht Hnw (lc_pack _ _ _ _ L) (or_introl eq_refl) Hi) as [|[Hp _]]; [done|].
  destruct (lc_pack _ _ _ _ L) as [-> | ->]; discriminate Hp.
Qed.

Lemma next_last e st st' st1 d out1 out2 v : cp_startable e st -> cp_outcome e st 0 st' out1 out2 st st1 ->
  0 <= nat_bits_blocks st <= blocks_per_seg -> cur_cp_version (ckpt (cp st)) = v + 1 -> v + 1 < 2 ^ 63 - 1 ->
  last_ckpt (raw_super (cp st)) (cur_cp_pack (cp st)) d v -> no_later (v + 1) (out1 ++ out2) ->
  last_ckpt (raw_super (cp st)) (other_pack (cur_cp_pack (cp st))) (disk_write (out1 ++ out2) d) (v + 1).
Proof.
  intros Hcs Hoc Hn Hv Hv63 L Hno. pose proof L as [L1 L2 L3 L4 L5 L6 L7 L8 L9].
  destruct (outcome_writes e st 0 st' out1 out2 st st1 Hoc L1 L2 Hn) as (W1 & W2 & W3 & W4). cbv zeta in W1, W2.
  destruct Hoc as [Hin _ _ [F _ Hse] _ _ O7]. destruct (O7 eq_refl) as (_ & Ho2 & _ & _ & _ & Herr).
  pose proof (pack_addr_u32 (raw_super (cp st)) (other_pack (cur_cp_pack (cp st))) L1) as Hst. rewrite <- W3 in Hst.
  destruct (pack_blocks_ok e st st1 _ Hin F Hst) as (P1 & P2 & _ & _ & P5). fold (pack_of e st1) in P1, P2, P5.
  destruct (proj1 W1) as [Wt1 Wt2]. rewrite W4 in Wt1, Wt2. unfold blocks_per_seg in Wt1, Wt2.
  assert (Hd : on_disk (disk_write (out1 ++ out2) d) (pack_of e st1)).
  { rewrite disk_write_app, Ho2. apply (disk_write_laid _ _ _ P1). lia. }
  destruct (P5 _ Hd) as [Q1 Q2 _ _ _ _]. rewrite W3 in Q1, Q2.
  assert (Ht : torn (raw_super (cp st)) d (out1 ++ out2) (disk_write (out1 ++ out2) d)) by (intros i Hi; apply disk_write_or).
  set (d' := disk_write (out1 ++ out2) d) in *. set (pack := cur_cp_pack (cp st)) in *. set (sb := raw_super (cp st)) in *.
  assert (Hoo : other_pack (other_pack pack) = pack) by (by destruct L2 as [-> | ->]).
  split; try done.
  - destruct L2 as [-> | ->]; [by right|by left].
  - lia.
  - rewrite (validate_sealed _ d' _ Hse) by (done || lia). rewrite Q1. do 2 f_equal. rewrite <- Hv.
    apply (filled_keeps 8 checkpoint_ver e st st1 F); [done|by left].
  - apply (filled_sane e st st1 _ Hin F Herr (cs_sane _ _ Hcs) (cs_segs _ _ Hcs)); [done|exact Q1].
  - rewrite Q1, W4. unfold blocks_per_seg. lia.
  - intros p i w Hi Hw. unfold blocks_per_seg in Hi. rewrite pack_addr_off in Hw.
    assert (Hr : 0 <= pack_off p + i < 2 * blocks_per_seg) by (unfold pack_off, blocks_per_seg; case_if; lia).
    destruct (Ht _ Hr) as [He|He].
    + rewrite (version_ext d' d _ He), <- pack_addr_off in Hw. apply L8 in Hw; [lia|done].
    + unfold no_later in Hno. rewrite Forall_forall in Hno. apply (Hno _ He w). exact Hw.
  - rewrite Hoo. intros w Hw. pose proof (fun i => old_pack_kept sb pack d d' v _ _ _ i L Ht W1) as Hk.
    pose proof (valid_kept sb pack d d' v L Hk) as Hx. rewrite L5 in Hx.
    destruct (validate_version _ _ _ _ Hx) as [Hw' _]. rewrite Hw' in Hw. inversion Hw. lia.
Qed.

(** C7. Checkpoints alternate between the two packs.  When a checkpoint has
    succeeded and its blocks are on the device, the pack it wrote is the valid
    one of the two, its version the next one, the other pack is still there
    and older, and the state in memory points to the new pack: what the next
    checkpoint relies on holds again.  (Of the blocks written none may look
    like a checkpoint block of a later version; the checksums of orphan and
    summary blocks do not exclude it.) *)
Theorem checkpoints_alternate (flush flush_sit : log_state -> log_state) (fn : free_nids) (e : cp_env)
    (st st' : cp_state) (out1 out2 : list (Z * list Z)) (d : disk) :
  let v := cur_cp_version (ckpt (cp st)) in
  last_ckpt (raw_super (cp st)) (cur_cp_pack (cp st)) d v -> v + 1 < 2 ^ 63 - 1 ->
  cp_startable e (cp_ready flush fn st) -> 0 <= nat_bits_blocks st <= blocks_per_seg ->
  write_checkpoint f2fs_crc32 flush flush_sit fn e st = (0, st', out1, out2) -> out2 <> [] ->
  no_later (v + 1) (out1 ++ out2) ->
  let d' := disk_write (out1 ++ out2) d in
  last_ckpt (raw_super (cp st')) (cur_cp_pack (cp st')) d' (cur_cp_version (ckpt (cp st'))) /\
  cur_cp_version (ckpt (cp st')) = v + 1 /\ cur_cp_pack (cp st') = other_pack (cur_cp_pack (cp st)) /\
  validate_checkpoint f2fs_crc32 d' (pack_addr (raw_super (cp st)) (cur_cp_pack (cp st))) =
    validate_checkpoint f2fs_crc32 d (pack_addr (raw_super (cp st)) (cur_cp_pack (cp st))).
Proof.
  cbv zeta. intros L Hv63 Hcs Hn Hw Hne Hno. apply write_checkpoint_ok in Hw as [[_ Hx]|Hw]; [done|].
  pose proof (cs_input _ _ Hcs) as Hin.
  assert (Hl : 192 <= zlen (ckpt (cp st))).
  { rewrite <- (ready_len flush fn), (pi_len _ _ Hin). pose proof (pi_payload _ _ Hin). unfold F2FS_BLKSIZE. lia. }
  destruct (ready_fields flush fn st Hl) as (Hv & _). rewrite next_version in Hv by (pose proof (lc_version _ _ _ _ L); lia).
  change (raw_super (cp st)) with (raw_super (cp (cp_ready flush fn st))) in *.
  change (cur_cp_pack (cp st)) with (cur_cp_pack (cp (cp_ready flush fn st))) in *.
  change (nat_bits_blocks st) with (nat_bits_blocks (cp_ready flush fn st)) in *.
  set (v := cur_cp_version (ckpt (cp st))) in *. clearbody v. set (st0 := cp_ready flush fn st) in *. clearbody st0.
  destruct (do_checkpoint_ok e st0 0 st' out1 out2 Hin Hw) as (st00 & st1 & Hoc).
  destruct (oc_done _ _ _ _ _ _ _ _ Hoc eq_refl) as (-> & _ & Hcp & _).
  pose proof (next_last e st0 st' st1 d out1 out2 v Hcs Hoc Hn Hv Hv63 L Hno) as Hnext.
  destruct (outcome_writes _ _ _ _ _ _ _ _ Hoc (lc_super _ _ _ _ L) (lc_pack _ _ _ _ L) Hn) as (W1 & _ & _ & _). cbv zeta in W1.
  pose proof (cf_fields _ _ _ _ (oc_fill _ _ _ _ _ _ _ _ Hoc)) as F. destruct (ff_same _ _ _ _ F) as (_ & _ & S3 & S4 & _).
  destruct (next_addr (cp st1)) as (_ & _ & N3). { rewrite S4. apply Hcs. }
  assert (Hsb : raw_super (cp st') = raw_super (cp st0)) by (rewrite Hcp; exact S3).
  assert (Hpk : cur_cp_pack (cp st') = other_pack (cur_cp_pack (cp st0))) by (by rewrite Hcp, N3, S4).
  assert (Hvr : cur_cp_version (ckpt (cp st')) = v + 1).
  { rewrite Hcp, <- Hv. apply (filled_keeps 8 checkpoint_ver e st0 st1 F); [done|by left]. }
  rewrite Hsb, Hpk, Hvr. split_and!; try done. apply (valid_kept _ _ _ _ _ L). intros i Hi.
  by apply (old_pack_kept _ _ d _ v _ _ _ i L (fun i _ => disk_write_or _ d _) W1).
Qed.

End pack.

(** A first and a last block of two different checkpoints of the same version
    and the same length are taken for one pack: this is what a second crash in
    a row can leave, since the checkpoint after a crash has the version and
    the place of the one that did not complete. *)
Lemma mixed_pack_valid crc b1 b2 d start : sealed crc b1 -> sealed crc b2 ->
  cur_cp_version b1 = cur_cp_version b2 ->
  1 <= le32_at cp_pack_total_block_count b1 < 2 ^ 32 -> d start = buf_block b1 0 ->
  d (u32 (start + (le32_at cp_pack_total_block_count b1 - 1))) = buf_block b2 0 ->
  validate_checkpoint crc d start = Some (buf_block b1 0, cur_cp_version b1).
Proof.
  intros Hs1 Hs2 Hv Ht H1 H2. unfold validate_checkpoint, get_meta_page. rewrite (sealed_version _ _ _ _ Hs1 H1), H1.
  rewrite get_le_head by (unfold cp_pack_total_block_count, F2FS_BLKSIZE; lia). rewrite (u32_small (_ - 1)) by lia.
  by rewrite (sealed_version _ _ _ _ Hs2 H2), Hv, Z.eqb_refl.
Qed.

(** ** Witnesses *)

Definition crc0 (b : list Z) : Z := 99.

(** The block of the last checkpoint: version 1, bit maps of 64 bytes. *)
Definition ckpt0 : list Z :=
  set_le32 4092 99 (set_le32 checksum_offset 4092 (set_le32 nat_ver_bitmap_bytesize 64 (set_le32 sit_ver_bitmap_bytesize 64
    (set_le32 cp_pack_total_block_count 2 (set_le32 overprov_segment_count 5 (set_le32 rsvd_segment_count 4 (set_le64 checkpoint_ver 1 zero_block))))))).

Definition log0 (t : Z) : curseg_info :=
  mk_curseg (mk_sumblk (replicate 512 (mk_sum 5 0 t)) (if IS_NODESEG t then SUM_TYPE_NODE else SUM_TYPE_DATA)) LFS t (t + 1) 0 NULL_SEGNO.
Definition logs0 : log_state :=
  mk_logs (set_curseg_array (map log0 (seqZ 0 6)) seg_state0) (replicate 6 (replicate 507 0)).
Definition fn0 : free_nids := mk_free ∅ [9; 12] 2 0 100 ∅ ∅ ∅ 455 910 2.
Definition cp_st0 : cp_state :=
  mk_cps (mk_cpinfo super0 ckpt0 1) logs0 ino_s2 counts0 900 [] 0 false true false.
Definition cp_env0 : cp_env :=
  mk_env CP_UMOUNT 1000 (replicate 64 1) (replicate 64 2) 77 (fun _ => zero_block) false false (fun _ => false) 0 false 0 0 false false.
Definition written0 := write_checkpoint crc0 id id fn0 cp_env0 cp_st0.
Definition cp_st1 : cp_state := written0.1.1.2.
Definition disk0 : disk := fun a => if (a =? 512) || (a =? 513) then ckpt0 else zero_block.
Definition disk1 : disk := disk_write written0.2 disk0.

Lemma bytes_check l : forallb (fun x => (0 <=? x) && (x <? 256)) l = true -> bytes_ok l.
Proof.
  intros H. apply Forall_forall. intros x Hx%list_elem_of_In. rewrite forallb_forall in H. specialize (H x Hx). zbool. unfold is_byte. lia.
Qed.

Lemma types_forall (P : Z -> Prop) : P 0 -> P 1 -> P 2 -> P 3 -> P 4 -> P 5 -> forall t, is_type t -> P t.
Proof.
  intros H0 H1 H2 H3 H4 H5 t Ht. unfold is_type, Segment.NR_CURSEG_TYPE in Ht.
  assert (t = 0 \/ t = 1 \/ t = 2 \/ t = 3 \/ t = 4 \/ t = 5) as [-> |[-> |[-> |[-> |[-> | ->]]]]] by lia; done.
Qed.

Lemma logs0_ok : logs_ok logs0.
Proof.
  assert (Hs : forall t, 0 <= t < 6 -> sum_ok (mk_sum 5 0 t)) by (intros t Ht; split; cbn [sum_nid sum_version sum_ofs_in_node]; lia).
  split; [done| |done|].
  - apply types_forall; (split; [reflexivity|apply Forall_replicate, Hs; lia|reflexivity|split; discriminate]).
  - by apply types_forall.
Qed.

Lemma input0 : pack_input cp_env0 (cp_ready id fn0 cp_st0).
Proof.
  split.
  - vm_compute. reflexivity.
  - apply bytes_check. vm_compute. reflexivity.
  - split; discriminate.
  - vm_compute. split; discriminate.
  - split; [vm_compute; reflexivity|]. apply bytes_check. reflexivity.
  - split; [vm_compute; reflexivity|]. apply bytes_check. reflexivity.
  - vm_compute. discriminate.
  - exact logs0_ok.
  - split; apply types_forall; vm_compute; (split; [discriminate|reflexivity]).
  - exact (proj1 (ino_steps_wf _ _ _ payload_ok ino_s2_steps)).
  - vm_compute. reflexivity.
  - done.
Qed.

Lemma startable0 : cp_startable cp_env0 (cp_ready id fn0 cp_st0).
Proof.
  split.
  - exact input0.
  - split; [reflexivity|split; [discriminate|reflexivity]].
  - by left.
  - vm_compute. reflexivity.
  - apply types_forall; vm_compute; reflexivity.
  - split; vm_compute; discriminate.
  - vm_compute. reflexivity.
Qed.

Lemma written0_laid : laid_out 1024 written0.2 /\ zlen written0.2 = 7.
Proof.
  assert (H : map fst written0.2 = [1024; 1025; 1026; 1027; 1028; 1029; 1030]) by (vm_compute; reflexivity).
  assert (Hz : zlen written0.2 = 7) by (unfold zlen; rewrite <- (length_map fst), H; reflexivity).
  split; [|done]. unfold laid_out. rewrite H, Hz. reflexivity.
Qed.

Lemma written0_some : written0.2 <> [].
Proof. intros H. pose proof (proj2 written0_laid) as Hz. rewrite H in Hz. discriminate. Qed.

Lemma written0_disk : on_disk disk1 written0.2.
Proof. destruct written0_laid as [Hl Hz]. unfold disk1. eapply disk_write_laid; [exact Hl|rewrite Hz; reflexivity]. Qed.

Lemma disk0_version a w : get_checkpoint_version crc0 disk0 a = Some w -> w = 1 /\ (a = 512 \/ a = 513).
Proof.
  assert (H1 : get_checkpoint_version crc0 (fun _ => ckpt0) a = Some 1) by (vm_compute; reflexivity).
  assert (H0 : get_checkpoint_version crc0 (fun _ => zero_block) a = None) by (vm_compute; reflexivity).
  destruct ((a =? 512) || (a =? 513)) eqn:E.
  - rewrite (version_ext crc0 disk0 (fun _ => ckpt0) a), H1 by (unfold disk0; by rewrite E). intros H. injection H as <-.
    split; [reflexivity|]. apply orb_true_iff in E. destruct E; zbool; lia.
  - rewrite (version_ext crc0 disk0 (fun _ => zero_block) a), H0 by (unfold disk0; by rewrite E). discriminate.
Qed.

Lemma disk0_last : last_ckpt crc0 super0 1 disk0 1.
Proof.
  split.
  - split; [reflexivity|split; [discriminate|reflexivity]].
  - by left.
  - lia.
  - split; [discriminate|reflexivity].
  - vm_compute. reflexivity.
  - vm_compute. reflexivity.
  - vm_compute. split; discriminate.
  - intros p i w _ [-> _]%disk0_version. lia.
  - intros w [_ Hw]%disk0_version. exfalso. vm_compute in Hw. destruct Hw; discriminate.
Qed.

Lemma written0_eq : write_checkpoint crc0 id id fn0 cp_env0 cp_st0 = (0, cp_st1, written0.1.2, written0.2).
Proof.
  unfold cp_st1, written0. assert ((write_checkpoint crc0 id id fn0 cp_env0 cp_st0).1.1.1 = 0) as He by (vm_compute; reflexivity).
  destruct (write_checkpoint crc0 id id fn0 cp_env0 cp_st0) as [[[err st] o1] o2]. cbn [fst snd] in *. by subst.
Qed.

Lemma checkpoint_then_mount_witness :
  get_valid_checkpoint crc0 false super0 disk1 = (0, Some (cp cp_st1)) /\ cur_cp_version (ckpt (cp cp_st1)) = 2 /\
  le32_at next_free_nid_off (ckpt (cp cp_st1)) = 9.
Proof.
  assert (Hc : forall b, 0 <= crc0 b < 2 ^ 32) by (intros b; unfold crc0; lia).
  assert (Hf : counts_fit counts0) by (split; vm_compute; split; discriminate || reflexivity).
  assert (Hl : 192 <= zlen (ckpt (cp cp_st0))) by (vm_compute; discriminate).
  pose proof written0_disk as Hd.
  pose proof written0_some as Hne.
  assert (Hold : older_pack crc0 disk1 512 2).
  { intros b w Hw%validate_version. destruct Hw as [Hw _]. vm_compute in Hw. injection Hw as <-. lia. }
  destruct (checkpoint_then_mount crc0 Hc ly0 id id fn0 cp_env0 cp_st0 cp_st1 written0.1.2 written0.2 disk1 Hl Hf startable0 written0_eq Hne Hd Hold)
    as (Hm & Hv & Hn & _).
  split; [exact (mt_ckpt _ _ _ _ _ _ Hm)|]. split; [rewrite Hv; reflexivity|rewrite Hn; reflexivity].
Defined.

Lemma first_block (a : Z) (out : list (Z * list Z)) : head (map fst out) = Some a -> (a, zget zero_block (map snd out) 0) ∈ out.
Proof. destruct out as [|[a0 b0] out]; [done|]. intros [= <-]. by left. Qed.

(** Only the first block of the pack has reached the device. *)
Definition torn1 : disk := fun a => if a =? 1024 then zget zero_block (map snd written0.2) 0 else disk0 a.

Lemma checkpoint_crash_safe_witness :
  get_valid_checkpoint crc0 false super0 torn1 = (0, Some (cp cp_st0)).
Proof.
  assert (Hc : forall b, 0 <= crc0 b < 2 ^ 32) by (intros b; unfold crc0; lia).
  assert (Hn : 0 <= nat_bits_blocks cp_st0 <= blocks_per_seg) by (split; discriminate).
  assert (Ht : torn super0 disk0 (written0.1.2 ++ written0.2) torn1).
  { intros i Hi. cbv zeta. unfold torn1. destruct (Z.eqb_spec (u32 (sb_cp_blkaddr super0 + i)) 1024) as [->|]; [right|by left].
    apply elem_of_app. right. apply first_block. vm_compute. reflexivity. }
  destruct (checkpoint_crash_safe crc0 Hc id id fn0 cp_env0 cp_st0 cp_st1 0 written0.1.2 written0.2 disk0 torn1 disk0_last input0 Hn written0_eq Ht)
    as [H|(head & Hv & _ & _ & H1 & H2)].
  - etransitivity; [exact H|]. vm_compute. reflexivity.
  - exfalso. change (pack_addr (raw_super (cp cp_st0)) (other_pack (cur_cp_pack (cp cp_st0)))) with 1024 in H1, H2. subst head.
    vm_compute in H2. discriminate H2.
Defined.

Lemma checkpoints_alternate_witness :
  last_ckpt crc0 super0 2 (disk_write (written0.1.2 ++ written0.2) disk0) 2 /\
  validate_checkpoint crc0 (disk_write (written0.1.2 ++ written0.2) disk0) 512 = Some (ckpt0, 1).
Proof.
  assert (Hc : forall b, 0 <= crc0 b < 2 ^ 32) by (intros b; unfold crc0; lia).
  assert (Hn : 0 <= nat_bits_blocks cp_st0 <= blocks_per_seg) by (split; discriminate).
  pose proof written0_some as Hne.
  assert (Hno : no_later crc0 2 (written0.1.2 ++ written0.2)).
  { apply Forall_forall. intros ab Hab%list_elem_of_In.
    assert (Hall : forallb (fun ab => match get_checkpoint_version crc0 (fun _ => ab.2) 0 with Some w => (0 <=? w) && (w <=? 2) | None => true end)
      (written0.1.2 ++ written0.2) = true) by (vm_compute; reflexivity).
    rewrite forallb_forall in Hall. specialize (Hall ab Hab). intros w Hw. rewrite Hw in Hall. zbool. lia. }
  destruct (checkpoints_alternate crc0 Hc id id fn0 cp_env0 cp_st0 cp_st1 written0.1.2 written0.2 disk0 disk0_last eq_refl startable0 Hn
    written0_eq Hne Hno) as (H1 & Hv & Hp & H2).
  rewrite Hv, Hp in H1. split; [exact H1|]. etransitivity; [exact H2|]. vm_compute. reflexivity.
Defined.

Lemma filled0 : exists st1, cp_outcome crc0 cp_env0 (cp_ready id fn0 cp_st0) 0 cp_st1 written0.1.2 written0.2 (cp_ready id fn0 cp_st0) st1.
Proof.
  assert (Hc : forall b, 0 <= crc0 b < 2 ^ 32) by (intros b; unfold crc0; lia).
  destruct (write_checkpoint_ok crc0 id id fn0 cp_env0 cp_st0 _ _ _ _ written0_eq) as [[_ Hno]|Hw].
  - exfalso. by apply written0_some.
  - destruct (do_checkpoint_ok crc0 Hc cp_env0 _ _ _ _ _ input0 Hw) as (st0 & st1 & Hoc).
    destruct (oc_done _ _ _ _ _ _ _ _ _ Hoc eq_refl) as [Hst _]. rewrite Hst in Hoc. by exists st1.
Qed.

Lemma logs_roundtrip_witness :
  let r := build_curseg ly0 (cp cp_st1) disk1 seg_state0 in
  r.1 = 0 /\ (log_back ly0 (cp cp_st1) (logs cp_st1) disk1 CURSEG_HOT_DATA (CURSEG CURSEG_HOT_DATA r.2) /\
  log_back ly0 (cp cp_st1) (logs cp_st1) disk1 CURSEG_COLD_NODE (CURSEG CURSEG_COLD_NODE r.2)).
Proof.
  cbv zeta.
  assert (Hc : forall b, 0 <= crc0 b < 2 ^ 32) by (intros b; unfold crc0; lia).
  destruct filled0 as (st1 & Hoc). destruct (oc_done _ _ _ _ _ _ _ _ _ Hoc eq_refl) as (_ & Ho & Hcp & Hlg & _).
  pose proof (cf_fields _ _ _ _ (oc_fill _ _ _ _ _ _ _ _ _ Hoc)) as F. destruct (ff_same _ _ _ _ F) as (S1 & _ & _ & S4 & _).
  assert (Hst : u32 (__start_cp_next_addr (cp st1)) = __start_cp_next_addr (cp st1)).
  { destruct (next_addr (cp st1)) as (-> & _); [by left; rewrite S4|]. destruct (ff_same _ _ _ _ F) as (_ & _ & -> & _). by rewrite S4. }
  pose proof written0_disk as Hd. rewrite Ho in Hd.
  destruct (pack_blocks_ok crc0 Hc cp_env0 _ st1 _ input0 F Hst) as (_ & _ & _ & _ & Hpp). specialize (Hpp disk1 Hd).
  pose proof (logs_roundtrip ly0 (cp cp_st1) (logs cp_st1) (cache cp_env0) disk1 seg_state0) as H. rewrite Hcp, Hlg, S1 in *.
  destruct (build_curseg ly0 (__set_cp_next_pack (cp st1)) disk1 seg_state0) as [err ls'].
  destruct H as (He & Hl & _); [| | | | | | |split; [exact He|split; apply Hl; unfold is_type; vm_compute; split; congruence]].
  - apply logs_kbytes_ok, logs0_ok.
  - apply ckpt_logs_kbytes. eapply ckpt_logs_buf; [|exact (ff_logs _ _ _ _ F)]. done.
  - apply sum_pack_kbytes. exact (filled_sum_pack _ _ _ _ (__set_cp_next_pack (cp st1)) F eq_refl).
  - done.
  - eapply mount_sums; [exact input0|exact F|by left|exact Hpp].
  - vm_compute. discriminate.
  - vm_compute. discriminate.
Defined.
