(* ===== verification/Dir.v ===== *)
(** * Blocks of directory entries (dir.c, f2fs.h, f2fs_fs.h)

    The slots of a dentry block, whether it fills a block of its own or the
    inline area of an inode: a bit map (least significant bit first), a header
    per slot and eight bytes of name per slot.  Search, room for a name, adding
    and removing an entry, listing. *)

From S2P Require Import Prelude Blocks Inode.
From Stdlib Require Import ZArith Lia.
From stdpp Require Import base numbers option list.
#[local] Open Scope Z_scope.
#[local] Open Scope c_scope.

(** ** Data *)

Definition F2FS_SLOT_LEN : Z := 8.
Definition F2FS_SLOT_LEN_BITS : Z := 3.
Definition F2FS_NAME_LEN : Z := 255.
Definition NR_DENTRY_IN_BLOCK : Z := 214.
Definition SIZE_OF_DENTRY_BITMAP : Z := (NR_DENTRY_IN_BLOCK + 8 - 1) / 8.

Definition GET_DENTRY_SLOTS (x : Z) : Z := Z.shiftr (x + F2FS_SLOT_LEN - 1) F2FS_SLOT_LEN_BITS.

Record f2fs_dir_entry := mk_de {
  hash_code : Z;
  de_ino : Z;
  name_len : Z;
  file_type : Z
}.
Definition de0 : f2fs_dir_entry := mk_de 0 0 0 0.
Definition set_name_len (x : Z) (de : f2fs_dir_entry) : f2fs_dir_entry :=
  mk_de (hash_code de) (de_ino de) x (file_type de).
Definition set_de_ino (x : Z) (de : f2fs_dir_entry) : f2fs_dir_entry :=
  mk_de (hash_code de) x (name_len de) (file_type de).
Definition set_file_type (x : Z) (de : f2fs_dir_entry) : f2fs_dir_entry :=
  mk_de (hash_code de) (de_ino de) (name_len de) x.

(** [filename]: the name slots one behind the other. *)
Record f2fs_dentry_ptr := mk_dptr {
  d_max : Z;
  d_bitmap : list Z;
  d_dentry : list f2fs_dir_entry;
  d_filename : list Z
}.
Definition set_d_bitmap (x : list Z) (d : f2fs_dentry_ptr) : f2fs_dentry_ptr := mk_dptr (d_max d) x (d_dentry d) (d_filename d).
Definition set_d_dentry (x : list f2fs_dir_entry) (d : f2fs_dentry_ptr) : f2fs_dentry_ptr := mk_dptr (d_max d) (d_bitmap d) x (d_filename d).
Definition set_d_filename (x : list Z) (d : f2fs_dentry_ptr) : f2fs_dentry_ptr := mk_dptr (d_max d) (d_bitmap d) (d_dentry d) x.

(** An empty block of [max] slots with [nr] bytes of bit map. *)
Definition empty_dentries (max nr : Z) : f2fs_dentry_ptr :=
  mk_dptr max (replicate (Z.to_nat nr) 0) (replicate (Z.to_nat max) de0) (replicate (Z.to_nat (F2FS_SLOT_LEN * max)) 0).
Definition empty_dentry_block : f2fs_dentry_ptr := empty_dentries NR_DENTRY_IN_BLOCK SIZE_OF_DENTRY_BITMAP.

(** ** Little-endian bit maps *)

Definition test_bit_le (nr : Z) (b : list Z) : bool := Z.testbit (byte_at b (nr / 8)) (nr mod 8).
Definition __set_bit_le (nr : Z) (b : list Z) : list Z := zset b (nr / 8) (byte_at b (nr / 8) .| 2 ^ (nr mod 8)).
Definition __clear_bit_le (nr : Z) (b : list Z) : list Z := zset b (nr / 8) (Z.ldiff (byte_at b (nr / 8)) (2 ^ (nr mod 8))).

(** The first bit with the value [v] at or behind [off], or [size]. *)
Fixpoint find_bit_le (fuel : nat) (v : bool) (b : list Z) (size off : Z) : Z :=
  match fuel with
  | O => size
  | S fuel =>
    if size <=? off then size
    else if Bool.eqb (test_bit_le off b) v then off else find_bit_le fuel v b size (off + 1)
  end.
Definition find_next_bit_le (b : list Z) (size off : Z) : Z := find_bit_le (Z.to_nat (size - off)) true b size off.
Definition find_next_zero_bit_le (b : list Z) (size off : Z) : Z := find_bit_le (Z.to_nat (size - off)) false b size off.

(** ** Operations *)

(** The loop [next]. *)
Fixpoint room_loop (fuel : nat) (bitmap : list Z) (slots max_slots bit_start : Z) : Z :=
  match fuel with
  | O => max_slots
  | S fuel =>
    let zero_start := find_next_zero_bit_le bitmap max_slots bit_start in
    if max_slots <=? zero_start then max_slots
    else
      let zero_end := find_next_bit_le bitmap max_slots zero_start in
      if slots <=? zero_end - zero_start then zero_start
      else
        let bit_start := zero_end + 1 in
        if max_slots <=? zero_end + 1 then max_slots else room_loop fuel bitmap slots max_slots bit_start
  end.

Definition room_for_filename (bitmap : list Z) (slots max_slots : Z) : Z :=
  room_loop (S (Z.to_nat max_slots)) bitmap slots max_slots 0.

Definition de_at (d : f2fs_dentry_ptr) (p : Z) : f2fs_dir_entry := zget de0 (d_dentry d) p.
Definition name_at (d : f2fs_dentry_ptr) (p : Z) : list Z := get_bytes (F2FS_SLOT_LEN * p) (name_len (de_at d p)) (d_filename d).

(** [fscrypt_match_name] of a directory that is not encrypted. *)
Definition match_name (name : list Z) (d : f2fs_dentry_ptr) (p : Z) : bool := bool_decide (name_at d p = name).

(** The position of the entry and [*max_slots]. *)
Fixpoint find_target_loop (fuel : nat) (name : list Z) (namehash : Z) (d : f2fs_dentry_ptr) (bit_pos max_len max_slots : Z) : option Z * Z :=
  match fuel with
  | O => (None, max_slots)
  | S fuel =>
    if d_max d <=? bit_pos then (None, if max_len >? max_slots then max_len else max_slots)
    else if negb (test_bit_le bit_pos (d_bitmap d)) then find_target_loop fuel name namehash d (bit_pos + 1) (max_len + 1) max_slots
    else
      let de := de_at d bit_pos in
      if name_len de =? 0 then find_target_loop fuel name namehash d (bit_pos + 1) max_len max_slots
      else if (hash_code de =? namehash) && match_name name d bit_pos
      then (Some bit_pos, if max_len >? max_slots then max_len else max_slots)
      else
        let max_slots := if max_len >? max_slots then max_len else max_slots in
        find_target_loop fuel name namehash d (bit_pos + GET_DENTRY_SLOTS (name_len de)) 0 max_slots
  end.

Definition find_target_dentry (name : list Z) (namehash : Z) (d : f2fs_dentry_ptr) : option Z * Z :=
  find_target_loop (S (Z.to_nat (d_max d))) name namehash d 0 0 0.

(** The file type of a mode ([f2fs_type_by_mode]), and back. *)
Definition S_SHIFT : Z := 12.
Definition F2FS_FT_MAX : Z := 8.
(* By mode / 4096: FIFO 1, character device 2, directory 4, block device 6,
   regular 8, link 10, socket 12. *)
Definition f2fs_type_by_mode : list Z := [0; 5; 3; 0; 2; 0; 4; 0; 1; 0; 7; 0; 6; 0; 0].
(* DT_UNKNOWN, DT_REG, DT_DIR, DT_CHR, DT_BLK, DT_FIFO, DT_SOCK, DT_LNK. *)
Definition f2fs_filetype_table : list Z := [0; 8; 4; 2; 6; 1; 12; 10].

Definition set_de_type (mode : Z) (de : f2fs_dir_entry) : f2fs_dir_entry :=
  set_file_type (zget 0 f2fs_type_by_mode (Z.shiftr (mode .& S_IFMT) S_SHIFT)) de.
Definition get_de_type (de : f2fs_dir_entry) : Z :=
  if file_type de <? F2FS_FT_MAX then zget 0 f2fs_filetype_table (file_type de) else 0.

Definition on_de (p : Z) (f : f2fs_dir_entry -> f2fs_dir_entry) (d : f2fs_dentry_ptr) : f2fs_dentry_ptr :=
  set_d_dentry (zset (d_dentry d) p (f (de_at d p))) d.

(** Slot [i] of the new entry. *)
Definition take_slot (bit_pos : Z) (d : f2fs_dentry_ptr) (i : Z) : f2fs_dentry_ptr :=
  let d := set_d_bitmap (__set_bit_le (bit_pos + i) (d_bitmap d)) d in
  if c_true i then on_de (bit_pos + i) (set_name_len 0) d else d.

Definition f2fs_update_dentry (ino mode : Z) (d : f2fs_dentry_ptr) (name : list Z) (name_hash bit_pos : Z) : f2fs_dentry_ptr :=
  let slots := GET_DENTRY_SLOTS (zlen name) in
  let d := on_de bit_pos (fun de => mk_de name_hash (de_ino de) (zlen name) (file_type de)) d in
  let d := set_d_filename (put_bytes (F2FS_SLOT_LEN * bit_pos) name (d_filename d)) d in
  let d := on_de bit_pos (fun de => set_de_type mode (set_de_ino ino de)) d in
  foldl (take_slot bit_pos) d (seqZ 0 slots).

(** The slots of an entry that is removed. *)
Definition clear_slots (bit_pos slots : Z) (d : f2fs_dentry_ptr) : f2fs_dentry_ptr :=
  set_d_bitmap (foldl (fun b i => __clear_bit_le (bit_pos + i) b) (d_bitmap d) (seqZ 0 slots)) d.

Definition do_make_empty_dir (ino mode parent_ino parent_mode : Z) (d : f2fs_dentry_ptr) : f2fs_dentry_ptr :=
  let d := f2fs_update_dentry ino mode d [46] 0 0 in
  f2fs_update_dentry parent_ino parent_mode d [46; 46] 0 1.

(** What [dir_emit] is given: name, inode, type.  It takes the first [room]
    entries. *)
Definition emitted : Type := list Z * Z * Z.

(** The loop of [f2fs_fill_dentries]: the result, [ctx->pos] and the entries
    taken.  [start_pos + bit_pos] is an unsigned int in C; it does not wrap in a
    directory of less than 2^32 slots. *)
Fixpoint fill_loop (fuel : nat) (room : nat) (d : f2fs_dentry_ptr) (start_pos bit_pos pos : Z) (out : list emitted)
    : Z * Z * list emitted :=
  match fuel with
  | O => (0, pos, out)
  | S fuel =>
    if d_max d <=? bit_pos then (0, pos, out)
    else
      let bit_pos := find_next_bit_le (d_bitmap d) (d_max d) bit_pos in
      if d_max d <=? bit_pos then (0, pos, out)
      else
        let de := de_at d bit_pos in
        if name_len de =? 0 then fill_loop fuel room d start_pos (bit_pos + 1) (start_pos + (bit_pos + 1)) out
        else
          match room with
          | O => (1, pos, out)
          | S room =>
            let out := out ++ [(name_at d bit_pos, de_ino de, get_de_type de)] in
            let bit_pos := bit_pos + GET_DENTRY_SLOTS (name_len de) in
            fill_loop fuel room d start_pos bit_pos (start_pos + bit_pos) out
          end
  end.

Definition f2fs_fill_dentries (room : nat) (pos : Z) (d : f2fs_dentry_ptr) (start_pos : Z) : Z * Z * list emitted :=
  fill_loop (S (Z.to_nat (d_max d))) room d start_pos (pos mod d_max d) pos [].

(** ** Bit maps *)

Lemma test_bit_range nr b : bytes_ok b -> test_bit_le nr b = true -> 0 <= nr -> nr / 8 < zlen b.
Proof.
  intros Hb Ht Hn. destruct (Z.lt_ge_cases (nr / 8) (zlen b)); [done|]. unfold test_bit_le in Ht.
  by rewrite zget_ge, Z.bits_0 in Ht.
Qed.

Lemma bytes_set_bit nr b : bytes_ok b -> bytes_ok (__set_bit_le nr b).
Proof.
  intros Hb. apply Forall_zset; [done|]. unfold is_byte. change 256 with (2 ^ 8). apply lor_below; [lia|by apply byte_at_range|].
  pose proof (Z.mod_pos_bound nr 8 ltac:(lia)). split; [lia|]. apply Z.pow_lt_mono_r; lia.
Qed.

Lemma bytes_clear_bit nr b : bytes_ok b -> bytes_ok (__clear_bit_le nr b).
Proof.
  intros Hb. apply Forall_zset; [done|]. unfold is_byte. pose proof (byte_at_range b (nr / 8) Hb).
  assert (0 <= Z.ldiff (byte_at b (nr / 8)) (2 ^ (nr mod 8))) by (apply Z.ldiff_nonneg; lia). split; [done|].
  change 256 with (2 ^ 8). apply bits_below; [lia..|]. intros i Hi.
  rewrite Z.ldiff_spec, (testbit_high _ 8) by (change (2 ^ 8) with 256; lia). done.
Qed.

Lemma zlen_set_bit nr b : zlen (__set_bit_le nr b) = zlen b.
Proof. apply zlen_zset. Qed.
Lemma zlen_clear_bit nr b : zlen (__clear_bit_le nr b) = zlen b.
Proof. apply zlen_zset. Qed.

Lemma div_mod_eq a b : 0 <= a -> 0 <= b -> a / 8 = b / 8 -> a mod 8 = b mod 8 -> a = b.
Proof. intros. rewrite (Z.div_mod a 8), (Z.div_mod b 8) by lia. congruence. Qed.

Lemma test_set_bit nr i b : 0 <= nr -> nr / 8 < zlen b -> 0 <= i -> test_bit_le i (__set_bit_le nr b) = (i =? nr) || test_bit_le i b.
Proof.
  intros Hn Hl Hi. unfold test_bit_le, __set_bit_le. rewrite zget_zset by (split; [apply Z.div_pos; lia|done]).
  destruct (Z.eqb_spec (nr / 8) (i / 8)) as [He|Hne].
  - rewrite Z.lor_spec, Z.pow2_bits_eqb by (apply Z.mod_pos_bound; lia). rewrite He, orb_comm. f_equal.
    destruct (Z.eqb_spec i nr) as [->|]; [apply Z.eqb_refl|]. apply Z.eqb_neq. intros Hm. apply n. symmetry. by apply div_mod_eq.
  - by rewrite (proj2 (Z.eqb_neq i nr)) by congruence.
Qed.

Lemma test_clear_bit nr i b : 0 <= nr -> nr / 8 < zlen b -> 0 <= i -> test_bit_le i (__clear_bit_le nr b) = negb (i =? nr) && test_bit_le i b.
Proof.
  intros Hn Hl Hi. unfold test_bit_le, __clear_bit_le. rewrite zget_zset by (split; [apply Z.div_pos; lia|done]).
  destruct (Z.eqb_spec (nr / 8) (i / 8)) as [He|Hne].
  - rewrite Z.ldiff_spec, Z.pow2_bits_eqb by (apply Z.mod_pos_bound; lia). rewrite He, andb_comm. do 2 f_equal.
    destruct (Z.eqb_spec i nr) as [->|]; [apply Z.eqb_refl|]. apply Z.eqb_neq. intros Hm. apply n. symmetry. by apply div_mod_eq.
  - by rewrite (proj2 (Z.eqb_neq i nr)) by congruence.
Qed.

Lemma find_bit_spec fuel v b size off : (Z.to_nat (size - off) <= fuel)%nat -> 0 <= off <= size ->
  let r := find_bit_le fuel v b size off in
  off <= r <= size /\ (r < size -> test_bit_le r b = v) /\ forall i, off <= i < r -> test_bit_le i b = negb v.
Proof.
  revert off. induction fuel as [|fuel IH]; intros off Hf Ho; simpl; [split_and!; lia|].
  destruct (Z.leb_spec size off); [split_and!; lia|].
  destruct (Bool.eqb (test_bit_le off b) v) eqn:E.
  - apply eqb_prop in E. split_and!; [lia..|done|lia].
  - apply eqb_false_iff in E. destruct (IH (off + 1)) as (H1 & H2 & H3); [lia|lia|]. split_and!; [lia..|done|].
    intros i Hi. destruct (Z.eq_dec i off) as [->|]; [|apply H3; lia]. destruct (test_bit_le off b), v; done.
Qed.

Lemma find_next_spec b size off : 0 <= off <= size -> let r := find_next_bit_le b size off in
  off <= r <= size /\ (r < size -> test_bit_le r b = true) /\ forall i, off <= i < r -> test_bit_le i b = false.
Proof. intros Ho. by apply (find_bit_spec _ true). Qed.

Lemma find_zero_spec b size off : 0 <= off <= size -> let r := find_next_zero_bit_le b size off in
  off <= r <= size /\ (r < size -> test_bit_le r b = false) /\ forall i, off <= i < r -> test_bit_le i b = true.
Proof. intros Ho. by apply (find_bit_spec _ false). Qed.


(** ** Well-formed blocks *)

Definition used (d : f2fs_dentry_ptr) (p : Z) : bool := test_bit_le p (d_bitmap d).
Definition slots_at (d : f2fs_dentry_ptr) (p : Z) : Z := GET_DENTRY_SLOTS (name_len (de_at d p)).

(** An entry starts at slot [p]: used, with a name. *)
Definition is_start (d : f2fs_dentry_ptr) (p : Z) : bool :=
  (0 <=? p) && (p <? d_max d) && used d p && negb (name_len (de_at d p) =? 0).

(** The slots behind the first one of an entry are used and have no name of
    their own, and no other slot is like that. *)
Record dentries_wf (d : f2fs_dentry_ptr) : Prop := {
  dw_max : 0 < d_max d <= 8 * zlen (d_bitmap d);
  dw_bytes : bytes_ok (d_bitmap d);
  dw_len : zlen (d_dentry d) = d_max d /\ zlen (d_filename d) = F2FS_SLOT_LEN * d_max d;
  dw_end p : is_start d p = true -> 0 < name_len (de_at d p) /\ p + slots_at d p <= d_max d;
  dw_inner p q : is_start d p = true -> p < q < p + slots_at d p -> used d q = true /\ name_len (de_at d q) = 0;
  dw_cover q : 0 <= q < d_max d -> used d q = true -> name_len (de_at d q) = 0 ->
    exists p, is_start d p = true /\ p < q < p + slots_at d p
}.

(** The slots [z .. z + s) are free. *)
Definition free_run (d : f2fs_dentry_ptr) (z s : Z) : Prop :=
  0 <= z /\ z + s <= d_max d /\ forall i, z <= i < z + s -> used d i = false.

(** What the search compares. *)
Definition is_target (name : list Z) (hash : Z) (d : f2fs_dentry_ptr) (p : Z) : bool :=
  (hash_code (de_at d p) =? hash) && match_name name d p.

Definition boundary (d : f2fs_dentry_ptr) (b : Z) : Prop :=
  0 <= b <= d_max d /\ forall p, is_start d p = true -> ~ p < b < p + slots_at d p.

Lemma slots_div x : GET_DENTRY_SLOTS x = (x + 7) / 8.
Proof. unfold GET_DENTRY_SLOTS, F2FS_SLOT_LEN, F2FS_SLOT_LEN_BITS. rewrite Z.shiftr_div_pow2 by lia. f_equal. lia. Qed.

Lemma slots_fit x : 0 < x -> 1 <= GET_DENTRY_SLOTS x /\ x <= F2FS_SLOT_LEN * GET_DENTRY_SLOTS x.
Proof. intros. rewrite slots_div. unfold F2FS_SLOT_LEN. zdiv. Qed.

Lemma is_start_iff d p : is_start d p = true <-> 0 <= p < d_max d /\ used d p = true /\ name_len (de_at d p) <> 0.
Proof. unfold is_start. rewrite !andb_true_iff, negb_true_iff, Z.eqb_neq, Z.leb_le, Z.ltb_lt. tauto. Qed.

Lemma slots_pos d p : dentries_wf d -> is_start d p = true -> 1 <= slots_at d p.
Proof. intros Hw Hp. apply slots_fit, (dw_end d Hw p Hp). Qed.

(** At a boundary, a used slot starts an entry, and the slot behind an entry is a
    boundary again. *)
Lemma boundary_used d b : dentries_wf d -> boundary d b -> b < d_max d -> used d b = true -> is_start d b = true.
Proof.
  intros Hw [Hb Hn] Hlt Hu. apply is_start_iff. split_and!; [lia..|done|]. intros H0.
  destruct (dw_cover d Hw b) as (p & Hp & Hr); [lia|done..|]. by apply (Hn p Hp).
Qed.

Lemma boundary_step d b : dentries_wf d -> boundary d b -> b < d_max d -> used d b = false -> boundary d (b + 1).
Proof.
  intros Hw [Hb Hn] Hlt Hu. split; [lia|]. intros p Hp Hr. destruct (Z.eq_dec p b) as [->|Hne].
  - apply is_start_iff in Hp. destruct Hp as (_ & Hp & _). congruence.
  - apply (Hn p Hp). lia.
Qed.

Lemma boundary_next d b : dentries_wf d -> boundary d b -> is_start d b = true -> boundary d (b + slots_at d b).
Proof.
  intros Hw [Hb Hn] Hs. pose proof (slots_pos d b Hw Hs). pose proof (dw_end d Hw b Hs). split; [lia|].
  intros p Hp Hr. destruct (Z.lt_trichotomy p b) as [Hl|[->|Hg]]; [apply (Hn p Hp); lia|lia|].
  destruct (dw_inner d Hw b p Hs) as [_ Hz]; [lia|]. apply is_start_iff in Hp. by destruct Hp as (_ & _ & ?).
Qed.

Lemma boundary_0 d : dentries_wf d -> boundary d 0.
Proof. intros Hw. pose proof (dw_max d Hw). split; [lia|]. intros p Hp Hr. apply is_start_iff in Hp. lia. Qed.

Lemma inner_used d p q : dentries_wf d -> is_start d p = true -> p <= q < p + slots_at d p -> used d q = true.
Proof.
  intros Hw Hp Hq. destruct (Z.eq_dec q p) as [->|]; [by apply is_start_iff in Hp as (_ & ? & _)|].
  apply (dw_inner d Hw p q Hp). lia.
Qed.

(** Entries do not overlap. *)
Lemma starts_apart d p q : dentries_wf d -> is_start d p = true -> is_start d q = true -> p < q -> p + slots_at d p <= q.
Proof.
  intros Hw Hp Hq Hlt. destruct (Z.le_gt_cases (p + slots_at d p) q); [done|].
  destruct (dw_inner d Hw p q Hp) as [_ H0]; [lia|]. apply is_start_iff in Hq. by destruct Hq as (_ & _ & ?).
Qed.

(** ** Room for a name *)

Definition bit_run (b : list Z) (max z s : Z) : Prop :=
  0 <= z /\ z + s <= max /\ forall i, z <= i < z + s -> test_bit_le i b = false.

Lemma room_loop_ok fuel b slots max bs : 0 <= bs <= max -> 1 <= slots -> (Z.to_nat (max - bs) < fuel)%nat ->
  (forall z, 0 <= z < bs -> ~ bit_run b max z slots) ->
  let r := room_loop fuel b slots max bs in
  (r < max /\ bit_run b max r slots \/ r = max) /\ forall z, 0 <= z < r -> ~ bit_run b max z slots.
Proof.
  revert bs. induction fuel as [|fuel IH]; intros bs Hb Hs Hf Hno; [lia|]. cbn [room_loop].
  destruct (find_zero_spec b max bs Hb) as (Hz1 & Hz2 & Hz3). set (zs := find_next_zero_bit_le b max bs) in *.
  assert (Hno2 : forall z, 0 <= z < zs -> ~ bit_run b max z slots).
  { intros z Hz (H1 & H2 & H3). destruct (Z.lt_ge_cases z bs); [by apply (Hno z); [lia|]|].
    pose proof (Hz3 z ltac:(lia)) as Hu. rewrite (H3 z) in Hu by lia. done. }
  destruct (Z.leb_spec max zs). { split; [by right|]. intros z Hz. apply Hno2. lia. }
  destruct (find_next_spec b max zs ltac:(lia)) as (He1 & He2 & He3). set (ze := find_next_bit_le b max zs) in *.
  assert (Hlt : zs < ze). { destruct (Z.eq_dec zs ze) as [Heq|]; [|lia]. rewrite <- Heq in He2. rewrite Hz2 in He2 by lia. by discriminate He2. }
  destruct (Z.leb_spec slots (ze - zs)).
  - split; [|done]. left. split; [lia|]. split_and!; [lia..|]. intros i Hi. apply He3. lia.
  - assert (Hno3 : forall z, 0 <= z < Z.min (ze + 1) max -> ~ bit_run b max z slots).
    { intros z Hz (H1 & H2 & H3). destruct (Z.lt_ge_cases z zs); [by apply (Hno2 z); [lia|]|].
      assert (Hu : test_bit_le ze b = true) by (apply He2; lia). rewrite (H3 ze) in Hu by lia. done. }
    destruct (Z.leb_spec max (ze + 1)).
    + split; [by right|]. intros z Hz. apply Hno3. lia.
    + apply IH; [lia..|]. intros z Hz. apply Hno3. lia.
Qed.

Lemma room_ok b slots max : 0 <= max -> 1 <= slots -> let r := room_for_filename b slots max in
  (r < max /\ bit_run b max r slots \/ r = max) /\ forall z, 0 <= z < r -> ~ bit_run b max z slots.
Proof. intros. apply room_loop_ok; [lia..|]. intros z Hz. lia. Qed.

(** ** Search *)

(** A free run of [s] slots below [b]. *)
Definition run_below (d : f2fs_dentry_ptr) (b s : Z) : Prop := exists z, 0 <= z /\ z + s <= b /\ forall i, z <= i < z + s -> used d i = false.

Definition larger (x y : Z) : Z := if x >? y then x else y.
Lemma larger_max x y : larger x y = Z.max x y.
Proof. unfold larger. destruct (Z.gtb_spec x y); lia. Qed.

Lemma run_below_free d b ml ms : 0 <= ml <= b -> 0 <= ms -> used d b = false ->
  (forall i, b - ml <= i < b -> used d i = false) -> (0 < b - ml -> used d (b - ml - 1) = true) ->
  (forall s, 1 <= s -> run_below d b s <-> s <= Z.max ml ms) ->
  forall s, 1 <= s -> run_below d (b + 1) s <-> s <= Z.max (ml + 1) ms.
Proof.
  intros Hm Hms Hu Hf Hl Hr s Hs. split.
  - intros (z & H0 & H1 & H2). destruct (Z.lt_ge_cases (z + s) (b + 1)).
    + pose proof (proj1 (Hr s Hs) ltac:(exists z; split_and!; [lia..|done])). lia.
    + destruct (Z.lt_ge_cases z (b - ml)); [|lia]. pose proof (H2 (b - ml - 1) ltac:(lia)) as Hx. rewrite Hl in Hx by lia. done.
  - intros Hle. destruct (Z.le_gt_cases s (Z.max ml ms)) as [Hx|Hx].
    + apply Hr in Hx as (z & H0 & H1 & H2); [|done]. exists z. split_and!; [lia..|done].
    + assert (s = ml + 1) as -> by lia. exists (b - ml). split_and!; [lia..|]. intros i Hi.
      destruct (Z.eq_dec i b) as [->|]; [done|]. apply Hf. lia.
Qed.

(** A run does not reach into used slots. *)
Lemma run_below_used d b n : (forall i, b <= i < b + n -> used d i = true) -> 0 <= n ->
  forall s, 1 <= s -> run_below d (b + n) s <-> run_below d b s.
Proof.
  intros Hu Hn s Hs. split; intros (z & H0 & H1 & H2).
  - exists z. split_and!; [lia| |done]. destruct (Z.le_gt_cases (z + s) b); [done|]. exfalso.
    assert (Hx : used d (z + s - 1) = true) by (apply Hu; lia). rewrite H2 in Hx by lia. done.
  - exists z. split_and!; [lia..|done].
Qed.

Record search_inv (name : list Z) (h : Z) (d : f2fs_dentry_ptr) (b ml ms : Z) : Prop := {
  si_pos : boundary d b;
  si_len : 0 <= ml <= b /\ 0 <= ms;
  si_free i : b - ml <= i < b -> used d i = false;
  si_edge : 0 < b - ml -> used d (b - ml - 1) = true;
  si_runs s : 1 <= s -> run_below d b s <-> s <= Z.max ml ms;
  si_none q : q < b -> is_start d q = true -> is_target name h d q = false
}.

Definition search_result (name : list Z) (h : Z) (d : f2fs_dentry_ptr) (r : option Z * Z) : Prop :=
  match r.1 with
  | Some p => is_start d p = true /\ is_target name h d p = true /\ forall q, q < p -> is_start d q = true -> is_target name h d q = false
  | None => (forall q, is_start d q = true -> is_target name h d q = false) /\
            forall s, 1 <= s -> (s <= r.2 <-> exists z, free_run d z s)
  end.

Lemma search_end name h d ml ms : search_inv name h d (d_max d) ml ms -> search_result name h d (None, Z.max ml ms).
Proof.
  intros [Hp Hl Hf He Hr Hn]. split; cbn [fst snd].
  - intros q Hq. apply Hn; [|done]. apply is_start_iff in Hq. lia.
  - intros s Hs. rewrite <- (Hr s Hs). unfold run_below, free_run. done.
Qed.

Lemma target_skip name h d b ml ms : dentries_wf d -> b < d_max d -> used d b = false ->
  search_inv name h d b ml ms -> search_inv name h d (b + 1) (ml + 1) ms.
Proof.
  intros Hw Hb Hu [Hp Hl Hf He Hr Hn]. split; [by apply boundary_step|lia|..].
  - intros i Hi. destruct (Z.eq_dec i b) as [->|]; [done|]. apply Hf. lia.
  - intros H0. replace (b + 1 - (ml + 1) - 1) with (b - ml - 1) by lia. apply He. lia.
  - intros s Hs. destruct Hl. by apply (run_below_free d b ml ms).
  - intros q Hq Hs. destruct (Z.eq_dec q b) as [->|]; [|apply Hn; [lia|done]]. apply is_start_iff in Hs as (_ & Hs & _). congruence.
Qed.

Lemma search_pass name h d b ml ms : dentries_wf d -> is_start d b = true -> is_target name h d b = false ->
  search_inv name h d b ml ms -> search_inv name h d (b + slots_at d b) 0 (Z.max ml ms).
Proof.
  intros Hw Hb Ht [Hp Hl Hf He Hr Hn]. pose proof (slots_pos d b Hw Hb).
  split; [by apply boundary_next|lia|intros; lia|..].
  - intros _. apply (inner_used d b); [done..|lia].
  - intros s Hs. rewrite run_below_used; [|intros i Hi; by apply (inner_used d b)|lia|done]. rewrite (Hr s Hs). lia.
  - intros q Hq Hs. destruct (Z.lt_trichotomy q b) as [|[->|]]; [by apply Hn|done|].
    pose proof (starts_apart d b q Hw Hb Hs). lia.
Qed.

Lemma find_target_loop_ok fuel name h d b ml ms : dentries_wf d -> (Z.to_nat (d_max d - b) < fuel)%nat ->
  search_inv name h d b ml ms -> search_result name h d (find_target_loop fuel name h d b ml ms).
Proof.
  intros Hw. revert b ml ms. induction fuel as [|fuel IH]; intros b ml ms Hf Hi; [lia|]. cbn [find_target_loop].
  fold (larger ml ms). fold (used d b). rewrite larger_max. pose proof (si_pos _ _ _ _ _ _ Hi) as Hp. destruct (Hp) as [Hb _].
  destruct (Z.leb_spec (d_max d) b). { assert (b = d_max d) as -> by lia. by apply search_end. }
  destruct (used d b) eqn:Hu; cbn [negb].
  - pose proof (boundary_used d b Hw Hp ltac:(lia) Hu) as Hs. pose proof (slots_pos d b Hw Hs).
    destruct (Z.eqb_spec (name_len (de_at d b)) 0) as [Hz|Hz]. { by apply is_start_iff in Hs as (_ & _ & ?). }
    fold (is_target name h d b). destruct (is_target name h d b) eqn:Ht.
    + unfold search_result. cbn [fst]. split_and!; [done..|]. intros q Hq. by apply (si_none _ _ _ _ _ _ Hi).
    + fold (slots_at d b). apply IH; [lia|]. by apply search_pass.
  - apply IH; [lia|]. by apply target_skip.
Qed.

Lemma find_target_ok name h d : dentries_wf d -> search_result name h d (find_target_dentry name h d).
Proof.
  intros Hw. apply find_target_loop_ok; [done|lia|]. split; [by apply boundary_0|lia|intros; lia..| |].
  - intros s Hs. split; [intros (z & ? & ? & _)|]; lia.
  - intros q Hq Hs. apply is_start_iff in Hs. lia.
Qed.

(** ** Adding an entry *)

Lemma de_at_on p f d q : 0 <= p < zlen (d_dentry d) -> de_at (on_de p f d) q = if p =? q then f (de_at d p) else de_at d q.
Proof. intros Hp. unfold de_at, on_de. cbn [d_dentry set_d_dentry]. by rewrite zget_zset. Qed.

Lemma de_at_names x d q : de_at (set_d_filename x d) q = de_at d q.
Proof. done. Qed.

(** Slots taken: what changes. *)
Record taken (pos n : Z) (d d' : f2fs_dentry_ptr) : Prop := {
  tk_max : d_max d' = d_max d;
  tk_names : d_filename d' = d_filename d;
  tk_bytes : bytes_ok (d_bitmap d');
  tk_bits : zlen (d_bitmap d') = zlen (d_bitmap d);
  tk_len : zlen (d_dentry d') = zlen (d_dentry d);
  tk_used i : 0 <= i -> used d' i = (pos <=? i) && (i <? pos + n) || used d i;
  tk_de i : 0 <= i -> de_at d' i = if (pos <? i) && (i <? pos + n) then set_name_len 0 (de_at d i) else de_at d i
}.

Lemma take_slots_ok pos n d : bytes_ok (d_bitmap d) -> 0 <= pos -> 0 <= n -> pos + n <= 8 * zlen (d_bitmap d) ->
  pos + n <= zlen (d_dentry d) -> taken pos n d (foldl (take_slot pos) d (seqZ 0 n)).
Proof.
  intros Hb Hp Hn. revert n Hn. refine (natlike_ind (fun n : Z => pos + n <= 8 * zlen (d_bitmap d) -> pos + n <= zlen (d_dentry d) -> taken pos n d (foldl (take_slot pos) d (seqZ 0 n))) _ _).
  - intros _ _. split; try done; intros i Hi; (destruct (Z.leb_spec pos i); destruct (Z.ltb_spec i (pos + 0)); destruct (Z.ltb_spec pos i); try lia; done).
  - intros n Hn IH H1 H2. rewrite <- Z.add_1_r, seqZ_snoc, foldl_app by lia. destruct IH as [T1 T2 T3 T4 T5 T6 T7]; [lia..|].
    set (d1 := foldl _ _ _) in *. cbn [foldl]. rewrite Z.add_0_l. unfold take_slot. cbn zeta.
    set (d2 := set_d_bitmap (__set_bit_le (pos + n) (d_bitmap d1)) d1).
    assert (Hu : forall i, 0 <= i -> used d2 i = (i =? pos + n) || used d1 i).
    { intros i Hi. apply test_set_bit; [lia| |done]. rewrite T4. apply Z.div_lt_upper_bound; lia. }
    assert (Hd : forall b : bool, taken pos (n + 1) d (if b then on_de (pos + n) (set_name_len 0) d2 else d2) <-> (forall i, 0 <= i ->
      (if b && (i =? pos + n) then set_name_len 0 (de_at d1 i) else de_at d1 i) =
      if (pos <? i) && (i <? pos + (n + 1)) then set_name_len 0 (de_at d i) else de_at d i)).
    { intros b.
      assert (Hde : forall i, de_at (if b then on_de (pos + n) (set_name_len 0) d2 else d2) i = if b && (i =? pos + n) then set_name_len 0 (de_at d1 i) else de_at d1 i).
      { intros i. destruct b; [|done]. rewrite de_at_on by (cbn [d_dentry d2 set_d_bitmap]; lia). rewrite Z.eqb_sym. cbn [andb].
        by destruct (Z.eqb_spec i (pos + n)) as [->|]. }
      split; [intros [? ? ? ? ? ? T]; intros i Hi; by rewrite <- Hde, <- T|]. intros T.
      split; try (destruct b; done).
      - destruct b; by apply bytes_set_bit.
      - destruct b; (etrans; [apply zlen_set_bit|done]).
      - destruct b; [etrans; [apply zlen_zset|done]|done].
      - intros i Hi. transitivity (used d2 i); [by destruct b|]. rewrite Hu, T6 by done.
        destruct (Z.eqb_spec i (pos + n)), (Z.leb_spec pos i), (Z.ltb_spec i (pos + n)), (Z.ltb_spec i (pos + (n + 1))); try lia; done.
      - intros i Hi. by rewrite Hde, T. }
    apply Hd. intros i Hi. rewrite T7 by done. unfold c_true.
    destruct (Z.eqb_spec n 0), (Z.eqb_spec i (pos + n)), (Z.ltb_spec pos i), (Z.ltb_spec i (pos + n)), (Z.ltb_spec i (pos + (n + 1))); try lia; done.
Qed.

(** The new entry. *)
Definition new_de (ino mode : Z) (name : list Z) (hash : Z) (old : f2fs_dir_entry) : f2fs_dir_entry :=
  set_de_type mode (mk_de hash ino (zlen name) (file_type old)).

Record entry_added (ino mode : Z) (name : list Z) (hash pos : Z) (d d' : f2fs_dentry_ptr) : Prop := {
  ea_max : d_max d' = d_max d;
  ea_lens : zlen (d_bitmap d') = zlen (d_bitmap d) /\ zlen (d_dentry d') = zlen (d_dentry d) /\ zlen (d_filename d') = zlen (d_filename d);
  ea_bytes : bytes_ok (d_bitmap d');
  ea_used i : 0 <= i -> used d' i = (pos <=? i) && (i <? pos + GET_DENTRY_SLOTS (zlen name)) || used d i;
  ea_de i : 0 <= i -> de_at d' i =
    if i =? pos then new_de ino mode name hash (de_at d pos)
    else if (pos <? i) && (i <? pos + GET_DENTRY_SLOTS (zlen name)) then set_name_len 0 (de_at d i) else de_at d i;
  ea_names : d_filename d' = put_bytes (F2FS_SLOT_LEN * pos) name (d_filename d)
}.

Lemma update_added ino mode d name hash pos : dentries_wf d -> 0 < zlen name ->
  free_run d pos (GET_DENTRY_SLOTS (zlen name)) ->
  entry_added ino mode name hash pos d (f2fs_update_dentry ino mode d name hash pos).
Proof.
  intros [Hm Hb [Hl1 Hl2] _ _ _] Hn (H0 & H1 & _). destruct (slots_fit _ Hn) as [Hs1 Hs2].
  unfold f2fs_update_dentry. set (n := GET_DENTRY_SLOTS (zlen name)) in *. cbn zeta.
  set (d3 := on_de pos _ (set_d_filename _ _)).
  assert (Hl3 : zlen (d_dentry d3) = d_max d) by (etrans; [apply zlen_zset|]; etrans; [apply zlen_zset|done]).
  destruct (take_slots_ok pos n d3 Hb H0) as [T1 T2 T3 T4 T5 T6 T7]; [lia|cbn; lia|lia|].
  split.
  - done.
  - split_and!; [done|lia|]. rewrite T2. unfold d3, on_de. cbn [d_filename set_d_dentry set_d_filename].
    apply zlen_put_bytes; unfold F2FS_SLOT_LEN in *; lia.
  - done.
  - done.
  - intros i Hi. rewrite T7 by done. unfold d3. rewrite de_at_on by (cbn [d_dentry set_d_filename on_de set_d_dentry]; rewrite ?zlen_zset; lia).
    rewrite !de_at_names, !de_at_on by lia. rewrite (Z.eqb_sym pos i), Z.eqb_refl. destruct (Z.eqb_spec i pos) as [->|Hne]; [by rewrite Z.ltb_irrefl|done].
  - exact T2.
Qed.

Section added.
Context (ino mode : Z) (name : list Z) (hash pos : Z) (d d' : f2fs_dentry_ptr).
Context (Hw : dentries_wf d) (Hn : 0 < zlen name).
Context (Hrun : free_run d pos (GET_DENTRY_SLOTS (zlen name))).
Context (Ha : entry_added ino mode name hash pos d d').
Notation n := (GET_DENTRY_SLOTS (zlen name)).

Lemma added_range : 1 <= n /\ zlen name <= F2FS_SLOT_LEN * n /\ 0 <= pos /\ pos + n <= d_max d.
Proof. destruct (slots_fit _ Hn), Hrun as (? & ? & _). lia. Qed.

Lemma added_at : de_at d' pos = new_de ino mode name hash (de_at d pos).
Proof. rewrite (ea_de _ _ _ _ _ _ _ Ha) by (pose proof added_range; lia). by rewrite Z.eqb_refl. Qed.

Lemma added_slots : slots_at d' pos = n.
Proof. unfold slots_at. by rewrite added_at. Qed.

Lemma added_in q : pos < q < pos + n -> used d' q = true /\ name_len (de_at d' q) = 0.
Proof.
  intros Hq. pose proof added_range. rewrite (ea_used _ _ _ _ _ _ _ Ha), (ea_de _ _ _ _ _ _ _ Ha) by lia.
  destruct (Z.leb_spec pos q), (Z.ltb_spec pos q), (Z.ltb_spec q (pos + n)), (Z.eqb_spec q pos); try lia; done.
Qed.

Lemma added_out q : 0 <= q -> ~ pos <= q < pos + n -> used d' q = used d q /\ de_at d' q = de_at d q.
Proof.
  intros H0 Hq. pose proof added_range. rewrite (ea_used _ _ _ _ _ _ _ Ha), (ea_de _ _ _ _ _ _ _ Ha) by lia.
  destruct (Z.leb_spec pos q), (Z.ltb_spec pos q), (Z.ltb_spec q (pos + n)), (Z.eqb_spec q pos); try lia; done.
Qed.

Lemma run_no_start q : pos <= q < pos + n -> is_start d q = false.
Proof.
  intros Hq. destruct (is_start d q) eqn:Hs; [|done]. apply is_start_iff in Hs as (_ & Hs & _).
  destruct Hrun as (_ & _ & Hf). by rewrite Hf in Hs.
Qed.

Lemma added_start q : is_start d' q = (q =? pos) || is_start d q.
Proof.
  pose proof added_range. destruct (Z.eqb_spec q pos) as [->|Hne]; cbn [orb].
  - apply is_start_iff. rewrite (ea_max _ _ _ _ _ _ _ Ha), added_at. split_and!; [lia..| |cbn; lia].
    rewrite (ea_used _ _ _ _ _ _ _ Ha) by lia. destruct (Z.leb_spec pos pos), (Z.ltb_spec pos (pos + n)); try lia; done.
  - apply eq_true_iff_eq. rewrite !is_start_iff, (ea_max _ _ _ _ _ _ _ Ha).
    destruct (Z.lt_ge_cases q 0); [lia|]. destruct (decide (pos <= q < pos + n)) as [Hi|Ho].
    + destruct (added_in q ltac:(lia)) as [_ H0']. pose proof (run_no_start q Hi) as Hs. split; [tauto|].
      intros Hx. apply is_start_iff in Hx. congruence.
    + destruct (added_out q) as [-> ->]; done.
Qed.

Lemma start_outside q : is_start d q = true -> 0 <= q /\ ~ pos <= q < pos + n.
Proof. intros Hq. split; [apply is_start_iff in Hq; lia|]. intros Hi. by rewrite run_no_start in Hq. Qed.

(** The other entries are what they were. *)
Lemma added_other q : is_start d q = true -> de_at d' q = de_at d q /\ name_at d' q = name_at d q.
Proof.
  intros Hq. destruct (start_outside q Hq) as [H0 Ho]. destruct (added_out q H0 Ho) as [_ He]. split; [done|].
  pose proof added_range. destruct (dw_end d Hw q Hq) as [Hp He2]. destruct (slots_fit _ Hp) as [_ Hfit].
  destruct (dw_len d Hw) as [_ Hlf]. fold (slots_at d q) in Hfit.
  assert (Hap : q + slots_at d q <= pos \/ pos + n <= q).
  { destruct (Z.lt_ge_cases q pos); [left|lia]. destruct (Z.le_gt_cases (q + slots_at d q) pos); [done|].
    assert (Hu : used d pos = true) by (apply (inner_used d q); [done..|lia]). destruct Hrun as (_ & _ & Hf). rewrite Hf in Hu by lia. done. }
  unfold name_at. rewrite He, (ea_names _ _ _ _ _ _ _ Ha). unfold F2FS_SLOT_LEN in *.
  apply get_bytes_ext; rewrite ?zlen_put_bytes by lia; [done|lia..|]. intros i Hi. rewrite byte_at_put_bytes by lia.
  destruct (Z.leb_spec (8 * pos) i), (Z.ltb_spec i (8 * pos + zlen name)); try lia; done.
Qed.

Lemma added_name : name_at d' pos = name.
Proof.
  unfold name_at. rewrite added_at, (ea_names _ _ _ _ _ _ _ Ha). cbn [name_len new_de set_de_type set_file_type].
  pose proof added_range. destruct (dw_len d Hw) as [_ Hlf]. unfold F2FS_SLOT_LEN in *. apply get_put_bytes; lia.
Qed.

Lemma added_wf : dentries_wf d'.
Proof.
  pose proof added_range. destruct (ea_lens _ _ _ _ _ _ _ Ha) as (E1 & E2 & E3). pose proof (ea_max _ _ _ _ _ _ _ Ha) as Em.
  assert (Hss : forall q, is_start d q = true -> slots_at d' q = slots_at d q) by (intros q Hq; unfold slots_at; by rewrite (proj1 (added_other q Hq))).
  split.
  - rewrite Em, E1. apply Hw.
  - apply Ha.
  - rewrite Em, E2, E3. apply Hw.
  - intros q. rewrite added_start, Em. destruct (Z.eqb_spec q pos) as [->|]; cbn [orb].
    + intros _. rewrite added_slots, added_at. cbn. lia.
    + intros Hq. rewrite (Hss q Hq), (proj1 (added_other q Hq)). by apply Hw.
  - intros q r. rewrite added_start. destruct (Z.eqb_spec q pos) as [->|]; cbn [orb].
    + intros _. rewrite added_slots. apply added_in.
    + intros Hq. rewrite (Hss q Hq). intros Hr. destruct (start_outside q Hq).
      destruct (dw_inner d Hw q r Hq Hr) as [Hu Hz]. destruct (added_out r) as [-> ->]; [lia| |done].
      intros Hx. destruct Hrun as (_ & _ & Hf). by rewrite Hf in Hu.
  - intros q Hq Hu Hz. rewrite Em in Hq. destruct (decide (pos <= q < pos + n)) as [Hi|Ho].
    + exists pos. rewrite added_start, Z.eqb_refl, added_slots. split; [done|]. destruct (Z.eq_dec q pos) as [->|]; [|lia].
      rewrite added_at in Hz. cbn in Hz. lia.
    + destruct (added_out q) as [Eu Ed]; [lia|done|]. rewrite Eu in Hu. rewrite Ed in Hz.
      destruct (dw_cover d Hw q Hq Hu Hz) as (p & Hp & Hr). exists p. rewrite added_start, Hp, orb_true_r, (Hss p Hp). done.
Qed.
End added.

(** ** Removing an entry *)

Lemma clear_bits_ok pos n b : bytes_ok b -> 0 <= pos -> 0 <= n -> pos + n <= 8 * zlen b ->
  let b' := foldl (fun b i => __clear_bit_le (pos + i) b) b (seqZ 0 n) in
  bytes_ok b' /\ zlen b' = zlen b /\ forall i, 0 <= i -> test_bit_le i b' = negb ((pos <=? i) && (i <? pos + n)) && test_bit_le i b.
Proof.
  intros Hb Hp Hn. revert n Hn. refine (natlike_ind (fun n : Z => pos + n <= _ -> let b' := foldl (fun b i => __clear_bit_le (pos + i) b) b (seqZ 0 n) in _) _ _).
  - intros _. cbn. split_and!; [done..|]. intros i Hi. destruct (Z.leb_spec pos i), (Z.ltb_spec i (pos + 0)); try lia; done.
  - intros n Hn IH H1. rewrite <- Z.add_1_r, seqZ_snoc, foldl_app by lia. destruct IH as (B & L & T); [lia|].
    set (b1 := foldl _ _ _) in *. cbn [foldl]. rewrite Z.add_0_l. cbn zeta. split_and!.
    + by apply bytes_clear_bit.
    + etrans; [apply zlen_clear_bit|done].
    + intros i Hi. rewrite test_clear_bit, T by (try done; try (rewrite L; apply Z.div_lt_upper_bound); lia).
      destruct (Z.eqb_spec i (pos + n)), (Z.leb_spec pos i), (Z.ltb_spec i (pos + n)), (Z.ltb_spec i (pos + (n + 1))); try lia; done.
Qed.

Section cleared.
Context (d : f2fs_dentry_ptr) (pos : Z) (Hw : dentries_wf d) (Hs : is_start d pos = true).
Notation n := (slots_at d pos).
Notation d' := (clear_slots pos n d).

Lemma cleared_bits : bytes_ok (d_bitmap d') /\ zlen (d_bitmap d') = zlen (d_bitmap d) /\
  forall i, 0 <= i -> used d' i = negb ((pos <=? i) && (i <? pos + n)) && used d i.
Proof.
  pose proof (slots_pos d pos Hw Hs). pose proof (dw_end d Hw pos Hs). pose proof (dw_max d Hw). pose proof (proj1 (is_start_iff d pos) Hs).
  apply clear_bits_ok; [by apply Hw|lia..].
Qed.

Lemma cleared_start q : is_start d' q = negb (q =? pos) && is_start d q.
Proof.
  destruct cleared_bits as (_ & _ & Hu). pose proof (slots_pos d pos Hw Hs). apply eq_true_iff_eq.
  rewrite andb_true_iff, negb_true_iff, Z.eqb_neq, !is_start_iff.
  change (d_max d') with (d_max d). change (de_at d' q) with (de_at d q). destruct (Z.lt_ge_cases q 0); [lia|]. rewrite Hu by done.
  destruct (Z.leb_spec pos q), (Z.ltb_spec q (pos + n)); cbn [andb negb]; try (split; [|tauto]; intros; split; [lia|tauto]).
  split; [intros (_ & ? & _); done|]. intros (Hne & Hq & Hus & Hnl).
  destruct (dw_inner d Hw pos q Hs) as [_ Hz]; [lia|]. done.
Qed.

Lemma cleared_wf : dentries_wf d'.
Proof.
  destruct cleared_bits as (Hb & Hl & Hu). pose proof (slots_pos d pos Hw Hs). split.
  - rewrite Hl. apply Hw.
  - done.
  - apply Hw.
  - intros q. rewrite cleared_start. intros [_ Hq]%andb_true_iff. by apply Hw.
  - intros q r. rewrite cleared_start. intros [Hne Hq]%andb_true_iff Hr. apply negb_true_iff, Z.eqb_neq in Hne.
    destruct (dw_inner d Hw q r Hq Hr) as [Hx Hz]. split; [|done]. pose proof (proj1 (is_start_iff d q) Hq).
    rewrite Hu by lia. rewrite Hx, andb_true_r.
    destruct (Z.leb_spec pos r), (Z.ltb_spec r (pos + n)); try done. exfalso. change (slots_at d' q) with (slots_at d q) in Hr.
    destruct (Z.lt_trichotomy q pos) as [Hlt|[|Hgt]]; [|done|].
    + pose proof (starts_apart d q pos Hw Hq Hs Hlt). lia.
    + pose proof (starts_apart d pos q Hw Hs Hq Hgt). lia.
  - intros q Hq. rewrite Hu by lia. intros [Hne Hx]%andb_true_iff Hz.
    destruct (dw_cover d Hw q Hq Hx Hz) as (p & Hp & Hr). exists p. rewrite cleared_start, Hp. split; [|done].
    destruct (Z.eqb_spec p pos) as [->|]; [|done]. destruct (Z.leb_spec pos q), (Z.ltb_spec q (pos + n)); try lia; done.
Qed.
End cleared.

(** ** The entries of a block *)

(** The entry [nm], [de] starts at slot [p]. *)
Definition entry (d : f2fs_dentry_ptr) (p : Z) (nm : list Z) (de : f2fs_dir_entry) : Prop :=
  is_start d p = true /\ name_at d p = nm /\ de_at d p = de.

Lemma added_entry ino mode name hash pos d d' : dentries_wf d -> 0 < zlen name ->
  free_run d pos (GET_DENTRY_SLOTS (zlen name)) -> entry_added ino mode name hash pos d d' ->
  forall p nm de, entry d' p nm de <-> p = pos /\ nm = name /\ de = new_de ino mode name hash (de_at d pos) \/ entry d p nm de.
Proof.
  intros Hw Hn Hr Ha p nm de. unfold entry. rewrite (added_start _ _ _ _ _ _ _ Hn Hr Ha p).
  assert (Hp : is_start d pos = false). { apply (run_no_start _ _ _ Hr). pose proof (added_range _ _ _ Hn Hr). lia. }
  destruct (Z.eqb_spec p pos) as [->|Hne]; cbn [orb].
  - rewrite Hp, (added_name _ _ _ _ _ _ _ Hw Hn Hr Ha), (added_at _ _ _ _ _ _ _ Hn Hr Ha).
    split; [intros (_ & <- & <-); by left|]. intros [(_ & -> & ->)|(? & _)]; done.
  - split.
    + intros (Hs & H1 & H2). destruct (added_other _ _ _ _ _ _ _ Hw Hn Hr Ha p Hs) as [E1 E2]. right. rewrite E1 in H2. by rewrite E2 in H1.
    + intros [(? & _)|(Hs & H1 & H2)]; [done|]. destruct (added_other _ _ _ _ _ _ _ Hw Hn Hr Ha p Hs) as [-> ->]. done.
Qed.

Lemma cleared_entry d pos : dentries_wf d -> is_start d pos = true ->
  forall p nm de, entry (clear_slots pos (slots_at d pos) d) p nm de <-> p <> pos /\ entry d p nm de.
Proof.
  intros Hw Hs p nm de. unfold entry. rewrite (cleared_start d pos Hw Hs p), andb_true_iff, negb_true_iff, Z.eqb_neq.
  change (name_at (clear_slots _ _ d) p) with (name_at d p). change (de_at (clear_slots _ _ d) p) with (de_at d p). tauto.
Qed.

Lemma empty_wf max nr : 0 < max <= 8 * nr -> dentries_wf (empty_dentries max nr) /\ forall p, is_start (empty_dentries max nr) p = false.
Proof.
  intros Hm. set (d := empty_dentries max nr).
  assert (Hu : forall i, used d i = false) by (intros i; unfold used, test_bit_le; cbn [d d_bitmap empty_dentries]; by rewrite zget_replicate, Z.bits_0).
  assert (Hs : forall p, is_start d p = false). { intros p. destruct (is_start d p) eqn:H; [|done]. apply is_start_iff in H as (_ & H & _). by rewrite Hu in H. }
  split; [|done]. split.
  - cbn. unfold zlen. rewrite length_replicate. lia.
  - apply Forall_replicate, is_byte_0.
  - cbn [d d_dentry d_filename d_max empty_dentries]. unfold zlen. rewrite !length_replicate. unfold F2FS_SLOT_LEN. lia.
  - intros p Hp. by rewrite Hs in Hp.
  - intros p q Hp. by rewrite Hs in Hp.
  - intros q _ Hq. by rewrite Hu in Hq.
Qed.

(** ** Listing *)

Definition item (d : f2fs_dentry_ptr) (p : Z) : emitted := (name_at d p, de_ino (de_at d p), get_de_type (de_at d p)).
Definition entries_from (d : f2fs_dentry_ptr) (b : Z) : list emitted :=
  map (item d) (filter (fun p => is_start d p = true) (seqZ b (d_max d - b))).

Lemma entries_end d b : d_max d <= b -> entries_from d b = [].
Proof. intros H. unfold entries_from. by rewrite seqZ_nil by lia. Qed.

Lemma entries_none d b b' : b <= b' -> (forall i, b <= i < b' -> is_start d i = false) -> entries_from d b = entries_from d b'.
Proof.
  intros Hb Hn. destruct (Z.le_gt_cases (d_max d) b); [by rewrite !entries_end by lia|].
  unfold entries_from. assert (exists m, m = Z.min b' (d_max d)) as [m Hm] by eauto.
  replace (d_max d - b) with ((m - b) + (d_max d - m)) by lia. rewrite seqZ_app, filter_app, map_app by lia.
  replace (filter _ (seqZ b (m - b))) with (@nil Z).
  - cbn. replace (b + (m - b)) with m by lia. destruct (Z.le_gt_cases b' (d_max d)).
    + by replace m with b' by lia.
    + by rewrite !seqZ_nil by lia.
  - destruct (filter _ _) as [|x l] eqn:E; [done|]. assert (Hx : x ∈ x :: l) by by left.
    rewrite <- E in Hx. apply list_elem_of_filter in Hx as [Hx Hr%elem_of_seqZ]. by rewrite Hn in Hx by lia.
Qed.

Lemma entries_start d b : dentries_wf d -> is_start d b = true -> entries_from d b = item d b :: entries_from d (b + slots_at d b).
Proof.
  intros Hw Hs. pose proof (slots_pos d b Hw Hs). pose proof (proj1 (is_start_iff d b) Hs).
  rewrite <- (entries_none d (b + 1) (b + slots_at d b)); [|lia|].
  - unfold entries_from. rewrite seqZ_cons by lia. rewrite filter_cons_True by done. cbn [map].
    replace (Z.pred (d_max d - b)) with (d_max d - (b + 1)) by lia. by replace (Z.succ b) with (b + 1) by lia.
  - intros i Hi. destruct (is_start d i) eqn:E; [|done]. pose proof (starts_apart d b i Hw Hs E). lia.
Qed.

(** The first used slot behind a boundary starts the next entry. *)
Lemma next_used d b : dentries_wf d -> boundary d b -> let b' := find_next_bit_le (d_bitmap d) (d_max d) b in
  b <= b' <= d_max d /\ boundary d b' /\ entries_from d b = entries_from d b' /\ (b' < d_max d -> is_start d b' = true).
Proof.
  intros Hw Hb. destruct (find_next_spec (d_bitmap d) (d_max d) b) as (H1 & H2 & H3); [by destruct Hb|].
  set (b' := find_next_bit_le _ _ _) in *. cbn zeta.
  assert (Hns : forall i, b <= i < b' -> is_start d i = false).
  { intros i Hi. destruct (is_start d i) eqn:E; [|done]. apply is_start_iff in E as (_ & E & _). unfold used in E. by rewrite H3 in E. }
  assert (Hb' : boundary d b').
  { split; [destruct Hb; lia|]. intros p Hp Hr. destruct (Z.lt_ge_cases p b) as [Hl|Hg].
    - destruct (Z.eq_dec b b') as [E|]; [rewrite <- E in Hr; by apply (proj2 Hb p Hp)|]. apply (proj2 Hb p Hp). split; [done|].
      destruct (Z.le_gt_cases (p + slots_at d p) b); [|done]. lia.
    - by rewrite Hns in Hp by lia. }
  split_and!; [lia..|done|by apply entries_none; [lia|]|].
  intros Hlt. apply boundary_used; [done..|lia|by apply H2].
Qed.

Lemma fill_loop_ok fuel room d sp b b0 out : dentries_wf d -> boundary d b -> boundary d b0 -> (Z.to_nat (d_max d - b) < fuel)%nat ->
  entries_from d b0 = entries_from d b ->
  exists b1, boundary d b1 /\ entries_from d b1 = drop room (entries_from d b) /\
    fill_loop fuel room d sp b (sp + b0) out =
      (if (length (entries_from d b) <=? room)%nat then 0 else 1, sp + b1, out ++ take room (entries_from d b)).
Proof.
  intros Hw. revert room b b0 out. induction fuel as [|fuel IH]; intros room b b0 out Hb Hb0 Hf He; [lia|]. cbn [fill_loop].
  destruct (Z.leb_spec (d_max d) b).
  { exists b0. rewrite He, (entries_end d b) by done. rewrite drop_nil, take_nil, app_nil_r. done. }
  destruct (next_used d b Hw Hb) as (H1 & Hb' & He' & Hs). set (b' := find_next_bit_le _ _ _) in *. rewrite He'.
  destruct (Z.leb_spec (d_max d) b').
  { exists b0. rewrite He, He', (entries_end d b') by done. rewrite drop_nil, take_nil, app_nil_r. done. }
  specialize (Hs ltac:(lia)). pose proof (slots_pos d b' Hw Hs). pose proof (proj1 (is_start_iff d b') Hs) as (_ & _ & Hnl).
  cbn zeta. rewrite (proj2 (Z.eqb_neq _ _) Hnl). rewrite (entries_start d b' Hw Hs).
  destruct room as [|room].
  - exists b0. rewrite He, He', (entries_start d b' Hw Hs). cbn [drop take length]. by rewrite app_nil_r.
  - destruct (IH room (b' + slots_at d b') (b' + slots_at d b') (out ++ [item d b'])) as (b1 & Hb1 & Hd & Heq);
      [by apply boundary_next..|lia|done|]. exists b1. split_and!; [done..|]. etrans; [exact Heq|]. cbn [take length]. by rewrite <- app_assoc.
Qed.

Lemma fill_ok room d sp b : dentries_wf d -> boundary d b -> b < d_max d -> (sp + b) mod d_max d = b ->
  exists b1, boundary d b1 /\ entries_from d b1 = drop room (entries_from d b) /\
    f2fs_fill_dentries room (sp + b) d sp =
      (if (length (entries_from d b) <=? room)%nat then 0 else 1, sp + b1, take room (entries_from d b)).
Proof.
  intros Hw Hb Hlt Hm. unfold f2fs_fill_dentries. rewrite Hm. by apply fill_loop_ok; [..|destruct Hb; lia|].
Qed.

(** ** A new directory *)

Lemma free_added ino mode name hash pos d d' z s : entry_added ino mode name hash pos d d' ->
  free_run d z s -> z + s <= pos \/ pos + GET_DENTRY_SLOTS (zlen name) <= z -> free_run d' z s.
Proof.
  intros Ha (H0 & H1 & H2) Hap. split_and!; [done|by rewrite (ea_max _ _ _ _ _ _ _ Ha)|]. intros i Hi.
  rewrite (ea_used _ _ _ _ _ _ _ Ha), H2 by lia.
  destruct (Z.leb_spec pos i), (Z.ltb_spec i (pos + GET_DENTRY_SLOTS (zlen name))); try lia; done.
Qed.

Lemma empty_free max nr z s : 0 <= z -> z + s <= max -> free_run (empty_dentries max nr) z s.
Proof.
  intros. split_and!; [done..|]. intros i _. unfold used, test_bit_le. cbn [d_bitmap empty_dentries]. by rewrite zget_replicate, Z.bits_0.
Qed.

Definition dot : list Z := [46].
Definition dotdot : list Z := [46; 46].

Lemma make_empty_ok ino mode pino pmode max nr : 2 <= max <= 8 * nr ->
  let d := do_make_empty_dir ino mode pino pmode (empty_dentries max nr) in
  dentries_wf d /\ d_max d = max /\ zlen (d_bitmap d) = Z.of_nat (Z.to_nat nr) /\
  (forall p nm de, entry d p nm de <-> p = 0 /\ nm = dot /\ de = new_de ino mode dot 0 de0 \/
                                     p = 1 /\ nm = dotdot /\ de = new_de pino pmode dotdot 0 de0) /\
  forall i, 0 <= i -> used d i = (i <? 2).
Proof.
  intros Hm. assert (N1 : 0 < zlen dot) by done. assert (N2 : 0 < zlen dotdot) by done.
  unfold do_make_empty_dir. fold dotdot. fold dot. set (d0 := empty_dentries max nr). destruct (empty_wf max nr ltac:(lia)) as [W0 S0]. fold d0 in W0, S0.
  pose proof (empty_free max nr 0 1 ltac:(lia) ltac:(lia)) as F0. fold d0 in F0.
  pose proof (empty_free max nr 1 1 ltac:(lia) ltac:(lia)) as F1. fold d0 in F1.
  pose proof (update_added ino mode d0 dot 0 0 W0 N1 F0) as A1.
  set (d1 := f2fs_update_dentry ino mode d0 dot 0 0). fold d1 in A1.
  pose proof (added_wf _ _ _ _ _ _ _ W0 N1 F0 A1) as W1.
  assert (F1' : free_run d1 1 (GET_DENTRY_SLOTS (zlen dotdot))) by (apply (free_added _ _ _ _ _ _ _ _ _ A1 F1); right; done).
  pose proof (update_added pino pmode d1 dotdot 0 1 W1 N2 F1') as A2.
  set (d2 := f2fs_update_dentry pino pmode d1 dotdot 0 1). fold d2 in A2. cbn zeta. split_and!.
  - exact (added_wf _ _ _ _ _ _ _ W1 N2 F1' A2).
  - by rewrite (ea_max _ _ _ _ _ _ _ A2), (ea_max _ _ _ _ _ _ _ A1).
  - rewrite (proj1 (ea_lens _ _ _ _ _ _ _ A2)), (proj1 (ea_lens _ _ _ _ _ _ _ A1)). cbn. unfold zlen. by rewrite length_replicate.
  - intros p nm de. rewrite (added_entry _ _ _ _ _ _ _ W1 N2 F1' A2), (added_entry _ _ _ _ _ _ _ W0 N1 F0 A1).
    assert (E0 : de_at d0 0 = de0) by apply zget_replicate.
    assert (E1 : de_at d1 1 = de0).
    { rewrite (ea_de _ _ _ _ _ _ _ A1) by lia. change (GET_DENTRY_SLOTS (zlen dot)) with 1. apply zget_replicate. }
    rewrite E0, E1. unfold entry. rewrite (S0 p). split; [intros [?|[?|[? _]]]; [by right|by left|done]|intros [?|?]; [right; by left|by left]].
  - intros i Hi. rewrite (ea_used _ _ _ _ _ _ _ A2), (ea_used _ _ _ _ _ _ _ A1) by lia.
    replace (used d0 i) with false by (symmetry; unfold used, test_bit_le; cbn [d0 d_bitmap empty_dentries]; by rewrite zget_replicate, Z.bits_0).
    change (GET_DENTRY_SLOTS (zlen dot)) with 1. change (GET_DENTRY_SLOTS (zlen dotdot)) with 1.
    destruct (Z.leb_spec 1 i), (Z.leb_spec 0 i), (Z.ltb_spec i (1 + 1)), (Z.ltb_spec i (0 + 1)), (Z.ltb_spec i 2); try lia; done.
Qed.

(** ** Properties *)

(** [room_for_filename] is a first fit: it returns the first run of [slots]
    free slots inside the block, and the number of slots of the block exactly
    when there is none. *)
Theorem room_for_filename_first_fit (bitmap : list Z) (slots max_slots : Z) : 0 <= max_slots -> 1 <= slots ->
  let r := room_for_filename bitmap slots max_slots in
  (r < max_slots -> bit_run bitmap max_slots r slots /\ forall z, 0 <= z < r -> ~ bit_run bitmap max_slots z slots) /\
  (max_slots <= r -> r = max_slots /\ forall z, ~ bit_run bitmap max_slots z slots).
Proof.
  intros Hm Hs. destruct (room_ok bitmap slots max_slots Hm Hs) as [Hr Hn]. cbn zeta. split.
  - intros Hlt. destruct Hr as [[_ Hr]|Hr]; [by split|lia].
  - intros Hle. destruct Hr as [[Hlt _]|Hr]; [lia|]. split; [done|]. intros z Hz. destruct (Hz) as (H0 & H1 & _). apply (Hn z); [lia|done].
Qed.

Lemma room_for_filename_first_fit_witness :
  0 <= 214 /\ 1 <= 3 /\ bit_run [0x9f] 214 8 3 /\ forall z, 0 <= z < 8 -> ~ bit_run [0x9f] 214 z 3.
Proof.
  split; [lia|]. split; [lia|]. apply (proj1 (room_for_filename_first_fit [0x9f] 3 214 ltac:(lia) ltac:(lia))). vm_compute. reflexivity.
Defined.

(** C32. On a well-formed block [find_target_dentry] returns the first entry with
    the name and hash asked for, and says there is none only when there is none;
    then [max_slots] is the length of the longest free run, so comparing it with
    the slots of the name decides whether the name fits. *)
Theorem find_target_dentry_correct (name : list Z) (namehash : Z) (d : f2fs_dentry_ptr) : dentries_wf d ->
  match find_target_dentry name namehash d with
  | (Some p, _) => is_start d p = true /\ is_target name namehash d p = true /\
                   forall q, q < p -> is_start d q = true -> is_target name namehash d q = false
  | (None, max_slots) => (forall q, is_start d q = true -> is_target name namehash d q = false) /\
                         forall s, 1 <= s -> (s <= max_slots <-> exists z, free_run d z s)
  end.
Proof. intros Hw. pose proof (find_target_ok name namehash d Hw) as H. by destruct (find_target_dentry name namehash d) as [[p|] m]. Qed.

Definition dentry_blk0 : f2fs_dentry_ptr := do_make_empty_dir 9 0x41ed 3 0x41ed empty_dentry_block.

Lemma dentry_blk0_wf : dentries_wf dentry_blk0.
Proof. apply (make_empty_ok 9 0x41ed 3 0x41ed 214 27). lia. Qed.

Lemma find_target_dentry_correct_witness :
  dentries_wf dentry_blk0 /\ is_target dotdot 0 dentry_blk0 1 = true /\ (212 <= 212 <-> exists z, free_run dentry_blk0 z 212).
Proof.
  split; [exact dentry_blk0_wf|]. split.
  - pose proof (find_target_dentry_correct dotdot 0 dentry_blk0 dentry_blk0_wf) as H.
    replace (find_target_dentry dotdot 0 dentry_blk0) with (Some 1, 0) in H by (vm_compute; reflexivity). exact (proj1 (proj2 H)).
  - pose proof (find_target_dentry_correct [97] 5 dentry_blk0 dentry_blk0_wf) as H.
    replace (find_target_dentry [97] 5 dentry_blk0) with (@None Z, 212) in H by (vm_compute; reflexivity). apply (proj2 H). lia.
Defined.

(** C33. [f2fs_update_dentry] into free slots adds exactly that entry and clearing
    the slots of an entry removes exactly that entry: all others keep their slot,
    their name and their header, and the block stays well-formed. *)
Theorem dentry_update_exact (ino mode : Z) (d : f2fs_dentry_ptr) (name : list Z) (hash pos : Z) :
  dentries_wf d -> 0 < zlen name -> free_run d pos (GET_DENTRY_SLOTS (zlen name)) ->
  let d' := f2fs_update_dentry ino mode d name hash pos in
  dentries_wf d' /\
  (forall p nm de, entry d' p nm de <->
     p = pos /\ nm = name /\ de = set_de_type mode (mk_de hash ino (zlen name) (file_type (de_at d pos))) \/ entry d p nm de) /\
  (forall q, is_start d' q = true -> let d'' := clear_slots q (slots_at d' q) d' in
     dentries_wf d'' /\ forall p nm de, entry d'' p nm de <-> p <> q /\ entry d' p nm de).
Proof.
  intros Hw Hn Hr. pose proof (update_added ino mode d name hash pos Hw Hn Hr) as Ha. cbn zeta.
  pose proof (added_wf _ _ _ _ _ _ _ Hw Hn Hr Ha) as Hw'. split_and!; [done|by apply added_entry|].
  intros q Hq. split; [by apply cleared_wf|by apply cleared_entry].
Qed.

Lemma dentry_update_exact_witness :
  dentries_wf dentry_blk0 /\ 0 < zlen [97; 98; 99] /\ free_run dentry_blk0 2 1 /\
  entry (f2fs_update_dentry 7 0x81a4 dentry_blk0 [97; 98; 99] 77 2) 2 [97; 98; 99] (mk_de 77 7 3 1).
Proof.
  assert (Hf : free_run dentry_blk0 2 1).
  { split_and!; [lia|vm_compute; discriminate|]. intros i Hi. assert (i = 2) as -> by lia. vm_compute. reflexivity. }
  split; [exact dentry_blk0_wf|]. split; [reflexivity|]. split; [exact Hf|].
  apply (proj1 (proj2 (dentry_update_exact 7 0x81a4 dentry_blk0 [97; 98; 99] 77 2 dentry_blk0_wf eq_refl Hf))).
  left. vm_compute. split_and!; reflexivity.
Defined.

(** C34. Listing a block: from the position of an entry boundary
    [f2fs_fill_dentries] emits the entries from there on, each once, in order of
    their slots, as many as the reader takes; it returns 1 exactly when some are
    left, and going on from the position it leaves emits exactly those. *)
Theorem fill_dentries_resumes (room more : nat) (d : f2fs_dentry_ptr) (start_pos b : Z) :
  dentries_wf d -> boundary d b -> b < d_max d -> start_pos mod d_max d = 0 ->
  exists b1, boundary d b1 /\
    f2fs_fill_dentries room (start_pos + b) d start_pos =
      (if (length (entries_from d b) <=? room)%nat then 0 else 1, start_pos + b1, take room (entries_from d b)) /\
    (b1 < d_max d ->
     (f2fs_fill_dentries more (start_pos + b1) d start_pos).2 = take more (drop room (entries_from d b))) /\
    (b1 = d_max d -> drop room (entries_from d b) = []).
Proof.
  intros Hw Hb Hlt Hm. assert (Hmod : forall x, 0 <= x < d_max d -> (start_pos + x) mod d_max d = x).
  { intros x Hx. rewrite Z.add_mod, Hm, Z.add_0_l, Z.mod_mod, Z.mod_small by lia. done. }
  destruct (fill_ok room d start_pos b Hw Hb Hlt) as (b1 & Hb1 & Hd & He); [apply Hmod; destruct Hb; lia|].
  exists b1. split_and!; [done..| |].
  - intros H1. destruct (fill_ok more d start_pos b1 Hw Hb1 H1) as (b2 & _ & _ & He2); [apply Hmod; destruct Hb1; lia|].
    rewrite He2. cbn [snd]. by rewrite Hd.
  - intros H1. rewrite <- Hd. apply entries_end. lia.
Qed.

Lemma fill_dentries_resumes_witness :
  dentries_wf dentry_blk0 /\ boundary dentry_blk0 0 /\ 0 < d_max dentry_blk0 /\ 428 mod d_max dentry_blk0 = 0 /\
  entries_from dentry_blk0 0 = [(dot, 9, 4); (dotdot, 3, 4)] /\
  exists b1, f2fs_fill_dentries 1 (428 + 0) dentry_blk0 428 = (1, 428 + b1, [(dot, 9, 4)]).
Proof.
  pose proof (boundary_0 _ dentry_blk0_wf) as Hb. split; [exact dentry_blk0_wf|]. split; [exact Hb|].
  assert (H0 : 0 < d_max dentry_blk0) by (vm_compute; reflexivity).
  assert (Hm : 428 mod d_max dentry_blk0 = 0) by (vm_compute; reflexivity). split; [exact H0|]. split; [exact Hm|].
  assert (He : entries_from dentry_blk0 0 = [(dot, 9, 4); (dotdot, 3, 4)]) by (vm_compute; reflexivity). split; [exact He|].
  destruct (fill_dentries_resumes 1 1 dentry_blk0 428 0 dentry_blk0_wf Hb H0 Hm) as (b1 & _ & H & _).
  exists b1. rewrite He in H. exact H.
Defined.
