(* ===== verification/DirOps.v ===== *)
(** * Directories (dir.c, inline.c)

    A directory is a hash table of dentry blocks in levels: level [l] has
    [dir_buckets l] buckets of [bucket_blocks l] blocks, the hash of a name
    chooses the bucket and a name sits in any block of its bucket on any level
    below [i_current_depth].  A small directory is one inline dentry area in its
    inode.  Search, adding a name (with the new inode's metadata), removing one,
    the conversion of an inline directory, listing.

    Directories are not encrypted here, so a name on disk is the name.  Marking
    the inode dirty, which the writers of a field do, is [Inode]'s. *)

From S2P Require Import Prelude Blocks Hash Inode NodePath Orphan Dir.
From Stdlib Require Import ZArith Lia.
From stdpp Require Import base numbers option list gmap.
#[local] Open Scope Z_scope.
#[local] Open Scope c_scope.

(** ** Data *)

Definition MAX_DIR_HASH_DEPTH : Z := 63.
Definition MAX_DIR_BUCKETS : Z := Z.shiftl 1 (MAX_DIR_HASH_DEPTH / 2 - 1).
Definition PAGE_SHIFT : Z := 12.
Definition PAGE_SIZE : Z := 4096.
Definition SIZE_OF_DIR_ENTRY : Z := 11.
Definition FI_INC_LINK : Z := 4.
Definition FADVISE_LOST_PINO_BIT : Z := 0x02.

Definition NR_INLINE_DENTRY (i : inode) : Z := MAX_INLINE_DATA i * 8 / ((SIZE_OF_DIR_ENTRY + F2FS_SLOT_LEN) * 8 + 1).
Definition INLINE_DENTRY_BITMAP_SIZE (i : inode) : Z := (NR_INLINE_DENTRY i + 8 - 1) / 8.

(** [area]: the inline dentry area of the inode; [same_task]: [task] is the
    current task. *)
Record dir_state := mk_dir {
  di : inode;
  pages : gmap Z f2fs_dentry_ptr;
  area : f2fs_dentry_ptr;
  chash : Z;
  clevel : Z;
  same_task : bool
}.
Definition on_di (f : inode -> inode) (s : dir_state) : dir_state := mk_dir (f (di s)) (pages s) (area s) (chash s) (clevel s) (same_task s).
Definition set_pages (x : gmap Z f2fs_dentry_ptr) (s : dir_state) : dir_state := mk_dir (di s) x (area s) (chash s) (clevel s) (same_task s).
Definition set_area (x : f2fs_dentry_ptr) (s : dir_state) : dir_state := mk_dir (di s) (pages s) x (chash s) (clevel s) (same_task s).
Definition set_hint (h l : Z) (s : dir_state) : dir_state := mk_dir (di s) (pages s) (area s) h l (same_task s).
Definition set_task (b : bool) (s : dir_state) : dir_state := mk_dir (di s) (pages s) (area s) (chash s) (clevel s) b.

(** What the calls out of this file answer: 0 or a negative error. *)
Record dir_env := mk_denv {
  e_now : Z * Z;       (* current_time *)
  e_node : Z;          (* get_node_page of the directory *)
  e_read : Z -> Z;     (* reading a data block that is there, or its address *)
  e_new : Z -> Z;      (* f2fs_reserve_block and the page of a block *)
  e_alloc : Z;         (* the page or the buffer of a conversion *)
  e_trunc : Z -> Z;    (* truncate_hole *)
  e_child : Z;         (* new_inode_page or get_node_page of the child *)
  e_child_dir : Z;     (* the first block of the child *)
  e_acl : Z;           (* f2fs_init_acl *)
  e_sec : Z;           (* f2fs_init_security *)
  e_junk : f2fs_dentry_ptr  (* what a page holds that was not cleared *)
}.

Definition name_hash (name : list Z) : Z := f2fs_dentry_hash (mk_qstr name (zlen name)) None.

(** ** Where a name goes *)

Definition dir_blocks (i : inode) : Z := Z.shiftr (u64 (i_size i + PAGE_SIZE - 1)) PAGE_SHIFT.
Definition dir_buckets (level dir_level : Z) : Z :=
  if u32 (level + dir_level) <? MAX_DIR_HASH_DEPTH / 2 then u32 (Z.shiftl 1 (level + dir_level)) else MAX_DIR_BUCKETS.
Definition bucket_blocks (level : Z) : Z := if level <? MAX_DIR_HASH_DEPTH / 2 then 2 else 4.

Definition dir_block_index (level dir_level idx : Z) : Z :=
  let bidx := foldl (fun bidx i => u64 (bidx + u32 (dir_buckets i dir_level * bucket_blocks i))) 0 (seqZ 0 level) in
  u64 (bidx + u32 (idx * bucket_blocks level)).

(** ** Blocks of a directory *)

Definition find_data_page (env : dir_env) (s : dir_state) (index : Z) : Z + f2fs_dentry_ptr :=
  match get_node_path (di s) index with
  | inl err => inl err
  | inr _ =>
    if c_true (e_read env index) then inl (e_read env index)
    else match pages s !! index with
         | None => inl (- ENOENT)
         | Some d => inr d
         end
  end.

(** [get_lock_data_page]: the same answers. *)
Definition get_lock_data_page (env : dir_env) (s : dir_state) (index : Z) : Z + f2fs_dentry_ptr := find_data_page env s index.

(** With [new_i_size]. *)
Definition get_new_data_page (env : dir_env) (s : dir_state) (index : Z) : (Z + f2fs_dentry_ptr) * dir_state :=
  match get_node_path (di s) index with
  | inl err => (inl err, s)
  | inr _ =>
    if c_true (e_new env index) then (inl (e_new env index), s)
    else
      let got (d : f2fs_dentry_ptr) (s : dir_state) :=
        let size := s64 (Z.shiftl (index + 1) PAGE_SHIFT) in
        (inr d, if i_size (di s) <? size then on_di (set_i_size size) s else s) in
      match pages s !! index with
      | None => got empty_dentry_block (set_pages (<[index := empty_dentry_block]> (pages s)) s)
      | Some d => if c_true (e_read env index) then (inl (e_read env index), s) else got d s
      end
  end.

(** ** Search *)

(** The loop over the blocks of a bucket: the entry, the error in [*res_page],
    [room]. *)
Fixpoint find_blocks (fuel : nat) (env : dir_env) (st : dir_state) (name : list Z) (namehash s bidx end_block : Z) (room : bool)
    : option (Z * Z) * Z * bool :=
  match fuel with
  | O => (None, 0, room)
  | S fuel =>
    if end_block <=? bidx then (None, 0, room)
    else
      match find_data_page env st bidx with
      | inl err =>
          if err =? - ENOENT then find_blocks fuel env st name namehash s (u32 (bidx + 1)) end_block true
          else (None, err, room)
      | inr d =>
          match find_target_dentry name namehash d with
          | (Some p, _) => (Some (bidx, p), 0, room)
          | (None, max_slots) =>
              find_blocks fuel env st name namehash s (u32 (bidx + 1)) end_block (room || (s <=? max_slots))
          end
      end
  end.

Definition find_in_level (env : dir_env) (st : dir_state) (level : Z) (name : list Z) : option (Z * Z) * Z * dir_state :=
  let s := GET_DENTRY_SLOTS (zlen name) in
  let namehash := name_hash name in
  let nbucket := dir_buckets level (i_dir_level (di st)) in
  let nblock := bucket_blocks level in
  let bidx := u32 (dir_block_index level (i_dir_level (di st)) (namehash mod nbucket)) in
  let end_block := u32 (bidx + nblock) in
  let '(de, err, room) := find_blocks (Z.to_nat nblock) env st name namehash s bidx end_block false in
  let hint := negb (bool_decide (is_Some de)) && room && negb (chash st =? namehash) in
  (de, err, if hint then set_hint namehash level st else st).

Fixpoint find_levels (fuel : nat) (env : dir_env) (st : dir_state) (name : list Z) (level max_depth : Z) : option (Z * Z) * Z * dir_state :=
  match fuel with
  | O => (None, 0, st)
  | S fuel =>
    if max_depth <=? level then (None, 0, st)
    else
      let '(de, err, st) := find_in_level env st level name in
      if bool_decide (is_Some de) || c_true err then (de, err, st)
      else find_levels fuel env st name (level + 1) max_depth
  end.

Definition find_in_inline_dir (env : dir_env) (st : dir_state) (name : list Z) : option (Z * Z) * Z :=
  if c_true (e_node env) then (None, e_node env)
  else match find_target_dentry name (name_hash name) (area st) with
       | (Some p, _) => (Some (0, p), 0)
       | (None, _) => (None, 0)
       end.

(** The block and the slot of the entry (block 0 in an inline directory) and
    the error in [*res_page]. *)
Definition __f2fs_find_entry (env : dir_env) (st : dir_state) (name : list Z) : option (Z * Z) * Z * dir_state :=
  let '(de, err, st) :=
    if f2fs_has_inline_dentry (di st) then let '(de, err) := find_in_inline_dir env st name in (de, err, st)
    else if dir_blocks (di st) =? 0 then (None, 0, st)
    else
      let max_depth := i_current_depth (di st) in
      let '(max_depth, st) :=
        if max_depth >? MAX_DIR_HASH_DEPTH then (MAX_DIR_HASH_DEPTH, on_di (set_i_current_depth MAX_DIR_HASH_DEPTH) st) else (max_depth, st) in
      find_levels (Z.to_nat max_depth) env st name 0 max_depth in
  (de, err, if bool_decide (is_Some de) then st else set_task true st).

(** The block an entry is in. *)
Definition block_of (st : dir_state) (b : Z) : option f2fs_dentry_ptr :=
  if f2fs_has_inline_dentry (di st) then (if b =? 0 then Some (area st) else None) else pages st !! b.
Definition put_block (b : Z) (d : f2fs_dentry_ptr) (st : dir_state) : dir_state :=
  if f2fs_has_inline_dentry (di st) then set_area d st else set_pages (<[b := d]> (pages st)) st.

Definition f2fs_inode_by_name (env : dir_env) (st : dir_state) (name : list Z) : Z * dir_state :=
  let '(de, _, st) := __f2fs_find_entry env st name in
  match de with
  | Some (b, p) => (match block_of st b with Some d => de_ino (de_at d p) | None => 0 end, st)
  | None => (0, st)
  end.

Definition touch (env : dir_env) (st : dir_state) : dir_state :=
  on_di (fun i => set_i_mtime_sec (e_now env).1 (set_i_mtime_nsec (e_now env).2
                    (set_i_ctime_sec (e_now env).1 (set_i_ctime_nsec (e_now env).2 i)))) st.

Definition f2fs_set_link (env : dir_env) (st : dir_state) (loc : Z * Z) (ino mode : Z) : dir_state :=
  let '(b, p) := loc in
  match block_of st b with
  | None => st
  | Some d => touch env (put_block b (on_de p (fun de => set_de_type mode (set_de_ino ino de)) d) st)
  end.

(** ** Adding a name *)

(** The child: its inode, its content when it is a directory, and the name in
    its inode block. *)
Record child := mk_child {
  c_st : dir_state;
  c_name : option (list Z)
}.
Definition on_child (f : dir_state -> dir_state) (c : child) : child := mk_child (f (c_st c)) (c_name c).
Definition c_inode (c : child) : inode := di (c_st c).

Definition f2fs_i_links (inc : bool) (i : inode) : inode := set_i_nlink (u32 (i_nlink i + (if inc then 1 else -1))) i.

Definition make_empty_inline_dir (parent : inode) (st : dir_state) : dir_state :=
  let i := di st in
  let st := set_area (do_make_empty_dir (i_ino i) (i_mode i) (i_ino parent) (i_mode parent) (area st)) st in
  if i_size i <? MAX_INLINE_DATA i then on_di (set_i_size (MAX_INLINE_DATA i)) st else st.

(** The new inode page gives a new first block. *)
Definition make_empty_dir (env : dir_env) (parent : inode) (st : dir_state) : Z * dir_state :=
  if f2fs_has_inline_dentry (di st) then (0, make_empty_inline_dir parent st)
  else if c_true (e_child_dir env) then (e_child_dir env, st)
  else
    let i := di st in
    let d := do_make_empty_dir (i_ino i) (i_mode i) (i_ino parent) (i_mode parent) empty_dentry_block in
    let st := set_pages (<[0 := d]> (pages st)) st in
    (0, if i_size i <? PAGE_SIZE then on_di (set_i_size PAGE_SIZE) st else st).

(** The error of a new inode, and what is there when it fails. *)
Definition init_new_inode (env : dir_env) (dir : inode) (c : child) : Z * child :=
  if c_true (e_child env) then (e_child env, c)
  else
    let '(err, st) := if S_ISDIR (i_mode (c_inode c)) then make_empty_dir env dir (c_st c) else (0, c_st c) in
    let c := mk_child st (c_name c) in
    let err := if c_true err then err else if c_true (e_acl env) then e_acl env else e_sec env in
    if c_true err then (err, on_child (on_di (set_i_nlink 0)) c) else (0, c).

(** [set_cold_node] marks the node page of an old inode, which is not here. *)
Definition init_inode_metadata (env : dir_env) (dir : inode) (new_name : option (list Z)) (c : child) (s : ino_state) : Z * child * ino_state :=
  let '(err, c) :=
    if is_inode_flag_set (c_inode c) FI_NEW_INODE then init_new_inode env dir c else (e_child env, c) in
  if c_true err then (err, c, s)
  else
    let c := match new_name with Some n => mk_child (c_st c) (Some n) | None => c end in
    if is_inode_flag_set (c_inode c) FI_INC_LINK then
      let c := if S_ISDIR (i_mode (c_inode c)) then c
               else on_child (on_di (fun i => set_i_advise (u8 (i_advise i .| FADVISE_LOST_PINO_BIT)) i)) c in
      let s := if i_nlink (c_inode c) =? 0 then remove_orphan_inode (i_ino (c_inode c)) s else s in
      (0, on_child (on_di (f2fs_i_links true)) c, s)
    else (0, c, s).

Definition count_new_child (st : dir_state) (c : child) : dir_state * child :=
  if is_inode_flag_set (c_inode c) FI_NEW_INODE
  then (if S_ISDIR (i_mode (c_inode c)) then on_di (f2fs_i_links true) st else st, on_child (on_di (clear_flag_bit FI_NEW_INODE)) c)
  else (st, c).

Definition with_depth (env : dir_env) (current_depth : Z) (st : dir_state) : dir_state :=
  let st := touch env st in
  if i_current_depth (di st) =? current_depth then st else on_di (set_i_current_depth current_depth) st.

Definition link_counted (c : child) : child :=
  if is_inode_flag_set (c_inode c) FI_INC_LINK then on_child (on_di (clear_flag_bit FI_INC_LINK)) c else c.

Definition update_parent_metadata (env : dir_env) (st : dir_state) (c : option child) (current_depth : Z) : dir_state * option child :=
  match c with
  | Some c => let '(st, c) := count_new_child st c in (with_depth env current_depth st, Some (link_counted c))
  | None => (with_depth env current_depth st, None)
  end.

(** The directory, the child and the inode lists. *)
Definition add_state : Type := dir_state * option child * ino_state.

(** The loop over the blocks of a bucket: a block with room, made if need be. *)
Fixpoint room_blocks (fuel : nat) (env : dir_env) (st : dir_state) (slots block : Z) : (Z + option (Z * Z)) * dir_state :=
  match fuel with
  | O => (inr None, st)
  | S fuel =>
    match get_new_data_page env st block with
    | (inl err, st) => (inl err, st)
    | (inr d, st) =>
        let bit_pos := room_for_filename (d_bitmap d) slots NR_DENTRY_IN_BLOCK in
        if bit_pos <? NR_DENTRY_IN_BLOCK then (inr (Some (block, bit_pos)), st)
        else room_blocks fuel env st slots (u64 (block + 1))
    end
  end.

(** The loop [start] over the levels, with the depth it ends with.  It runs out
    of [fuel] never: the result 1 stands for that. *)
Fixpoint room_levels (fuel : nat) (env : dir_env) (st : dir_state) (slots dentry_hash level current_depth : Z)
    : (Z + Z * Z * Z) * dir_state :=
  match fuel with
  | O => (inl 1, st)
  | S fuel =>
    if current_depth =? MAX_DIR_HASH_DEPTH then (inl (- ENOSPC), st)
    else
      let current_depth := if level =? current_depth then u32 (current_depth + 1) else current_depth in
      let nbucket := dir_buckets level (i_dir_level (di st)) in
      let nblock := bucket_blocks level in
      let bidx := dir_block_index level (i_dir_level (di st)) (dentry_hash mod nbucket) in
      match room_blocks (Z.to_nat nblock) env st slots bidx with
      | (inl err, st) => (inl err, st)
      | (inr (Some (block, bit_pos)), st) => (inr (block, bit_pos, current_depth), st)
      | (inr None, st) => room_levels fuel env st slots dentry_hash (level + 1) current_depth
      end
  end.

Definition f2fs_add_regular_entry (env : dir_env) (a : add_state) (new_name : list Z) (ino mode : Z) : Z * add_state :=
  let '(st, inode, s) := a in
  let slots := GET_DENTRY_SLOTS (zlen new_name) in
  let dentry_hash := name_hash new_name in
  let current_depth := i_current_depth (di st) in
  let '(level, st) := if chash st =? dentry_hash then (clevel st, set_hint 0 (clevel st) st) else (0, st) in
  match room_levels (S (Z.to_nat MAX_DIR_HASH_DEPTH)) env st slots dentry_hash level current_depth with
  | (inl err, st) => (err, (st, inode, s))
  | (inr (block, bit_pos, current_depth), st) =>
      let '(err, inode, s) :=
        match inode with
        | Some c => let '(err, c, s) := init_inode_metadata env (di st) (Some new_name) c s in (err, Some c, s)
        | None => (0, None, s)
        end in
      if c_true err then (err, (st, inode, s))
      else
        let d := default empty_dentry_block (pages st !! block) in
        let d := f2fs_update_dentry ino mode d new_name dentry_hash bit_pos in
        let st := set_pages (<[block := d]> (pages st)) st in
        let inode := option_map (on_child (on_di (set_i_pino (i_ino (di st))))) inode in
        let '(st, inode) := update_parent_metadata env st inode current_depth in
        (0, (st, inode, s))
  end.

(** ** Inline directories *)

Definition empty_area (i : inode) : f2fs_dentry_ptr := empty_dentries (NR_INLINE_DENTRY i) (INLINE_DENTRY_BITMAP_SIZE i).

Definition truncate_inline_inode (st : dir_state) : dir_state :=
  on_di (clear_flag_bit FI_DATA_EXIST) (set_area (empty_area (di st)) st).

(** The entries of the area, at their slots, in a block of their own. *)
Definition move_dentries (src junk : f2fs_dentry_ptr) : f2fs_dentry_ptr :=
  mk_dptr NR_DENTRY_IN_BLOCK
    (d_bitmap src ++ replicate (Z.to_nat (SIZE_OF_DENTRY_BITMAP - zlen (d_bitmap src))) 0)
    (d_dentry src ++ drop (Z.to_nat (d_max src)) (d_dentry junk))
    (d_filename src ++ drop (Z.to_nat (F2FS_SLOT_LEN * d_max src)) (d_filename junk)).

Definition f2fs_move_inline_dirents (env : dir_env) (st : dir_state) : Z * dir_state :=
  if c_true (e_alloc env) then (- ENOMEM, st)
  else if c_true (e_new env 0) then (e_new env 0, st)
  else
    let st := set_pages (<[0 := move_dentries (area st) (e_junk env)]> (pages st)) st in
    let st := truncate_inline_inode st in
    let st := on_di (clear_flag_bit FI_INLINE_DENTRY) st in
    let st := on_di (set_i_current_depth 1) st in
    (0, if i_size (di st) <? PAGE_SIZE then on_di (set_i_size PAGE_SIZE) st else st).

(** The loop of [f2fs_add_inline_entries] over [d]. *)
Fixpoint add_inline_loop (fuel : nat) (env : dir_env) (st : dir_state) (d : f2fs_dentry_ptr) (bit_pos : Z) : Z * dir_state :=
  match fuel with
  | O => (1, st)
  | S fuel =>
    if d_max d <=? bit_pos then (0, st)
    else if negb (test_bit_le bit_pos (d_bitmap d)) then add_inline_loop fuel env st d (bit_pos + 1)
    else
      let de := de_at d bit_pos in
      if name_len de =? 0 then add_inline_loop fuel env st d (bit_pos + 1)
      else
        let fake_mode := u16 (Z.shiftl (get_de_type de) S_SHIFT) in
        match f2fs_add_regular_entry env (st, None, mk_ino [] 0 false) (name_at d bit_pos) (de_ino de) fake_mode with
        | (err, (st, _, _)) =>
            if c_true err then (err, st) else add_inline_loop fuel env st d (bit_pos + GET_DENTRY_SLOTS (name_len de))
        end
  end.

Definition f2fs_add_inline_entries (env : dir_env) (st : dir_state) (d : f2fs_dentry_ptr) : Z * dir_state :=
  let '(err, st) := add_inline_loop (S (Z.to_nat (d_max d))) env st d 0 in
  (* truncate_inode_pages and truncate_blocks from 0 *)
  if c_true err then (err, set_pages ∅ st) else (0, st).

Definition f2fs_move_rehashed_dirents (env : dir_env) (st : dir_state) : Z * dir_state :=
  if c_true (e_alloc env) then (- ENOMEM, st)
  else
    let backup_dentry := area st in
    let st := truncate_inline_inode st in
    let '(err, st) := f2fs_add_inline_entries env st backup_dentry in
    if c_true err then
      let st := set_area backup_dentry st in
      let st := on_di (set_i_current_depth 0) st in
      (err, on_di (set_i_size (MAX_INLINE_DATA (di st))) st)
    else (0, on_di (clear_flag_bit FI_INLINE_DENTRY) st).

Definition f2fs_convert_inline_dir (env : dir_env) (st : dir_state) : Z * dir_state :=
  if i_dir_level (di st) =? 0 then f2fs_move_inline_dirents env st else f2fs_move_rehashed_dirents env st.

Definition f2fs_add_inline_entry (env : dir_env) (a : add_state) (new_name : list Z) (ino mode : Z) : Z * add_state :=
  let '(st, inode, s) := a in
  if c_true (e_node env) then (e_node env, a)
  else
    let d := area st in
    let bit_pos := room_for_filename (d_bitmap d) (GET_DENTRY_SLOTS (zlen new_name)) (d_max d) in
    if d_max d <=? bit_pos then
      let '(err, st) := f2fs_convert_inline_dir env st in
      if c_true err then (err, (st, inode, s)) else (- EAGAIN, (st, inode, s))
    else
      let '(err, inode, s) :=
        match inode with
        | Some c => let '(err, c, s) := init_inode_metadata env (di st) (Some new_name) c s in (err, Some c, s)
        | None => (0, None, s)
        end in
      if c_true err then (err, (st, inode, s))
      else
        let st := set_area (f2fs_update_dentry ino mode d new_name (name_hash new_name) bit_pos) st in
        let inode := option_map (on_child (on_di (set_i_pino (i_ino (di st))))) inode in
        let '(st, inode) := update_parent_metadata env st inode 0 in
        (0, (st, inode, s)).

Definition __f2fs_do_add_link (env : dir_env) (a : add_state) (name : list Z) (ino mode : Z) : Z * add_state :=
  let '(err, a) :=
    if f2fs_has_inline_dentry (di a.1.1) then f2fs_add_inline_entry env a name ino mode else (- EAGAIN, a) in
  if err =? - EAGAIN then f2fs_add_regular_entry env a name ino mode else (err, a).

Definition __f2fs_add_link (env : dir_env) (a : add_state) (name : list Z) (ino mode : Z) : Z * add_state :=
  let '(st, inode, s) := a in
  let '(de, err, st) :=
    if same_task st then (None, 0, st)
    else let '(de, err, st) := __f2fs_find_entry env st name in (de, err, set_task false st) in
  if bool_decide (is_Some de) then (- EEXIST, (st, inode, s))
  else if c_true err then (err, (st, inode, s))
  else __f2fs_do_add_link env (st, inode, s) name ino mode.

(** [f2fs_add_link] (f2fs.h). *)
Definition f2fs_add_link (env : dir_env) (st : dir_state) (name : list Z) (c : child) (s : ino_state) : Z * add_state :=
  __f2fs_add_link env (st, Some c, s) name (i_ino (c_inode c)) (i_mode (c_inode c)).

Definition f2fs_do_tmpfile (env : dir_env) (dir : inode) (c : child) (s : ino_state) : Z * child * ino_state :=
  let '(err, c, s) := init_inode_metadata env dir None c s in
  (err, if c_true err then c else on_child (on_di (clear_flag_bit FI_NEW_INODE)) c, s).

(** ** Removing a name *)

Definition f2fs_drop_nlink (env : dir_env) (st : dir_state) (c : child) (s : ino_state) : dir_state * child * ino_state :=
  let isdir := S_ISDIR (i_mode (c_inode c)) in
  let st := if isdir then on_di (f2fs_i_links false) st else st in
  let c := on_child (on_di (fun i => set_i_ctime_sec (e_now env).1 (set_i_ctime_nsec (e_now env).2 i))) c in
  let c := on_child (on_di (f2fs_i_links false)) c in
  let c := if isdir then on_child (on_di (fun i => set_i_size 0 (f2fs_i_links false i))) c else c in
  (st, c, if i_nlink (c_inode c) =? 0 then add_orphan_inode (i_ino (c_inode c)) s else release_orphan_inode s).

(** The child goes unless only the name does. *)
Definition drop_child (env : dir_env) (st : dir_state) (inode : option child) (s : ino_state) : add_state :=
  match inode with
  | Some c => let '(st, c, s) := f2fs_drop_nlink env st c s in (st, Some c, s)
  | None => (st, None, s)
  end.

Definition f2fs_delete_inline_entry (env : dir_env) (p : Z) (st : dir_state) (inode : option child) (s : ino_state) : add_state :=
  let d := area st in
  let d := clear_slots p (GET_DENTRY_SLOTS (name_len (de_at d p))) d in
  let st := touch env (set_area d st) in
  drop_child env st inode s.

(** [loc]: the block and the slot of the entry. *)
Definition f2fs_delete_entry (env : dir_env) (loc : Z * Z) (st : dir_state) (inode : option child) (s : ino_state) : add_state :=
  let '(b, p) := loc in
  let s := add_ino_entry (i_ino (di st)) TRANS_DIR_INO s in
  if f2fs_has_inline_dentry (di st) then f2fs_delete_inline_entry env p st inode s
  else
    match pages st !! b with
    | None => (st, inode, s)
    | Some d =>
        let d := clear_slots p (GET_DENTRY_SLOTS (name_len (de_at d p))) d in
        let bit_pos := find_next_bit_le (d_bitmap d) NR_DENTRY_IN_BLOCK 0 in
        let st := touch env (set_pages (<[b := d]> (pages st)) st) in
        let '(st, inode, s) := drop_child env st inode s in
        let gone := (bit_pos =? NR_DENTRY_IN_BLOCK) && negb (c_true (e_trunc env b)) in
        (if gone then set_pages (delete b (pages st)) st else st, inode, s)
    end.

Fixpoint empty_blocks (fuel : nat) (env : dir_env) (st : dir_state) (bidx nblock : Z) : bool :=
  match fuel with
  | O => true
  | S fuel =>
    if nblock <=? bidx then true
    else
      match get_lock_data_page env st bidx with
      | inl err => if err =? - ENOENT then empty_blocks fuel env st (bidx + 1) nblock else false
      | inr d =>
          let bit_pos := find_next_bit_le (d_bitmap d) NR_DENTRY_IN_BLOCK (if bidx =? 0 then 2 else 0) in
          if bit_pos <? NR_DENTRY_IN_BLOCK then false else empty_blocks fuel env st (bidx + 1) nblock
      end
  end.

Definition f2fs_empty_inline_dir (env : dir_env) (st : dir_state) : bool :=
  if c_true (e_node env) then false
  else negb (find_next_bit_le (d_bitmap (area st)) (d_max (area st)) 2 <? d_max (area st)).

Definition f2fs_empty_dir (env : dir_env) (st : dir_state) : bool :=
  let nblock := dir_blocks (di st) in
  if f2fs_has_inline_dentry (di st) then f2fs_empty_inline_dir env st
  else empty_blocks (Z.to_nat nblock) env st 0 nblock.

(** ** Listing *)

(** The loop of [f2fs_readdir]: the result, [ctx->pos], what was taken. *)
Fixpoint readdir_loop (fuel : nat) (env : dir_env) (st : dir_state) (room : nat) (n npages pos : Z) (out : list emitted)
    : Z * Z * list emitted :=
  match fuel with
  | O => (0, pos, out)
  | S fuel =>
    if npages <=? n then (0, pos, out)
    else
      let next := u32 (n + 1) in
      match get_lock_data_page env st n with
      | inl err =>
          if err =? - ENOENT then readdir_loop fuel env st room next npages (u32 (next * NR_DENTRY_IN_BLOCK)) out
          else (err, pos, out)
      | inr d =>
          let '(err, pos, l) := f2fs_fill_dentries room pos d (u32 (n * NR_DENTRY_IN_BLOCK)) in
          if c_true err then (0, pos, out ++ l)
          else readdir_loop fuel env st (room - length l) next npages (u32 (next * NR_DENTRY_IN_BLOCK)) (out ++ l)
      end
  end.

Definition f2fs_read_inline_dir (env : dir_env) (st : dir_state) (room : nat) (pos : Z) : Z * Z * list emitted :=
  let d := area st in
  if pos =? d_max d then (0, pos, [])
  else if c_true (e_node env) then (e_node env, pos, [])
  else
    let '(err, pos, l) := f2fs_fill_dentries room pos d 0 in
    (0, if c_true err then pos else d_max d, l).

(** [room]: how many entries the reader takes. *)
Definition f2fs_readdir (env : dir_env) (st : dir_state) (room : nat) (pos : Z) : Z * Z * list emitted :=
  let npages := dir_blocks (di st) in
  let n := u32 (u64 pos / NR_DENTRY_IN_BLOCK) in
  if f2fs_has_inline_dentry (di st) then f2fs_read_inline_dir env st room pos
  else readdir_loop (Z.to_nat (npages - n)) env st room n npages pos [].
