(* ===== verification/DirMap.v ===== *)
(** * A directory is a map from names

    The invariant of a directory - every block well-formed, every entry in a
    bucket its hash leads to, no name twice - and the refinement: search, adding,
    removing and relinking a name, with the errors they meet, are lookup, insert
    and delete of a finite map, across the conversion of an inline directory. *)

From S2P Require Import Prelude Blocks Hash Inode NodePath Orphan Dir DirOps.
From Stdlib Require Import ZArith Lia.
From stdpp Require Import base numbers option list gmap.
#[local] Open Scope Z_scope.
#[local] Open Scope c_scope.

(** ** The invariant *)

Definition in_bucket (dir_level level hash b : Z) : Prop :=
  let bidx := dir_block_index level dir_level (hash mod dir_buckets level dir_level) in
  bidx <= b < bidx + bucket_blocks level.

Definition page_entry (pg : gmap Z f2fs_dentry_ptr) (b p : Z) (nm : list Z) (de : f2fs_dir_entry) : Prop :=
  exists d, pg !! b = Some d /\ entry d p nm de.

(** An entry in itself. *)
Definition entry_ok (nm : list Z) (de : f2fs_dir_entry) : Prop :=
  hash_code de = name_hash nm /\ 0 <= file_type de < F2FS_FT_MAX.

(** Hashed blocks, below [cl] and [i_current_depth] levels. *)
Record pages_wf (i : inode) (pg : gmap Z f2fs_dentry_ptr) (cl : Z) : Prop := {
  pw_geom : geom_ok i;
  pw_depth : 0 <= cl <= i_current_depth i /\ i_current_depth i <= MAX_DIR_HASH_DEPTH;
  pw_size : 0 <= i_size i < 2 ^ 63;
  pw_block b d : pg !! b = Some d ->
    dentries_wf d /\ d_max d = NR_DENTRY_IN_BLOCK /\ 0 <= b < 2 ^ 31 /\ (b + 1) * PAGE_SIZE <= i_size i;
  pw_entry b p nm de : page_entry pg b p nm de ->
    entry_ok nm de /\ exists l, 0 <= l < i_current_depth i /\ in_bucket (i_dir_level i) l (name_hash nm) b;
  pw_uniq b p de b' p' de' nm : page_entry pg b p nm de -> page_entry pg b' p' nm de' -> b = b' /\ p = p'
}.

(** An inline area. *)
Record area_wf (i : inode) (d : f2fs_dentry_ptr) : Prop := {
  aw_geom : geom_ok i;
  aw_max : d_max d = NR_INLINE_DENTRY i /\ 2 <= d_max d <= NR_DENTRY_IN_BLOCK;
  aw_bits : zlen (d_bitmap d) = INLINE_DENTRY_BITMAP_SIZE i;
  aw_wf : dentries_wf d;
  aw_tail k : d_max d <= k -> used d k = false;
  aw_entry p nm de : entry d p nm de -> entry_ok nm de;
  aw_uniq p de p' de' nm : entry d p nm de -> entry d p' nm de' -> p = p'
}.

Definition dir_entry (st : dir_state) (b p : Z) (nm : list Z) (de : f2fs_dir_entry) : Prop :=
  if f2fs_has_inline_dentry (di st) then b = 0 /\ entry (area st) p nm de else page_entry (pages st) b p nm de.

Definition dir_wf (st : dir_state) : Prop :=
  if f2fs_has_inline_dentry (di st)
  then area_wf (di st) (area st) /\ pages st = ∅ /\ clevel st = 0 /\ 0 <= i_current_depth (di st) < MAX_DIR_HASH_DEPTH /\ 0 <= i_size (di st) < 2 ^ 63
  else pages_wf (di st) (pages st) (clevel st).

(** The map: the inode and the type under a name. *)
Definition dir_map (st : dir_state) (m : gmap (list Z) (Z * Z)) : Prop :=
  forall nm ino ft, m !! nm = Some (ino, ft) <-> exists b p de, dir_entry st b p nm de /\ de_ino de = ino /\ file_type de = ft.

(** The answers from outside are errors, none that says that a block that is
    there is a hole, and none that asks for the conversion again. *)
Record env_ok (env : dir_env) : Prop := {
  eo_neg : e_node env <= 0 /\ e_alloc env <= 0 /\ e_child env <= 0 /\ e_child_dir env <= 0 /\ e_acl env <= 0 /\ e_sec env <= 0;
  eo_blk b : e_read env b <= 0 /\ e_new env b <= 0;
  eo_read b : e_read env b <> - ENOENT;
  eo_again : e_node env <> - EAGAIN /\ (forall b, e_new env b <> - EAGAIN /\ e_read env b <> - EAGAIN) /\ e_child env <> - EAGAIN /\ e_child_dir env <> - EAGAIN /\
             e_acl env <> - EAGAIN /\ e_sec env <> - EAGAIN;
  eo_junk : zlen (d_dentry (e_junk env)) = NR_DENTRY_IN_BLOCK /\ zlen (d_filename (e_junk env)) = F2FS_SLOT_LEN * NR_DENTRY_IN_BLOCK
}.

(** ** Search *)

Lemma path_cases i b : geom_ok i -> 0 <= b -> (exists r, get_node_path i b = inr r) /\ b < 2 ^ 31 \/ get_node_path i b = inl (- E2BIG).
Proof.
  intros Hg Hb. destruct (addrs_per_inode_ok i Hg) as [_ Ha].
  destruct (Z.lt_ge_cases b (addrs_per_inode i + max_file_blocks)) as [H|H].
  - left. split.
    + destruct (node_path_exists (addrs_per_inode i) b) as (l & o & n & Hp); [done|lia|]. eexists. by eapply node_path_get.
    + assert (max_file_blocks < 2 ^ 31 - 1000) by (vm_compute; done). unfold DEF_ADDRS_PER_INODE in Ha. lia.
  - right. by apply get_node_path_big.
Qed.

Lemma target_entry name d p : is_start d p = true -> is_target name (name_hash name) d p = true ->
  exists de, entry d p name de.
Proof.
  intros Hs Ht. apply andb_true_iff in Ht as [_ Ht]. unfold match_name in Ht. apply bool_decide_eq_true in Ht. exists (de_at d p). done.
Qed.

Lemma entry_target name d p de : entry d p name de -> entry_ok name de -> is_target name (name_hash name) d p = true.
Proof.
  intros (_ & Hn & Hd) [Hh _]. unfold is_target, match_name. rewrite Hd, Hh, Z.eqb_refl, Hn, bool_decide_true by done. done.
Qed.

Section search.
Context (env : dir_env) (Henv : env_ok env).

Lemma find_page_cases st b : geom_ok (di st) -> 0 <= b ->
  match find_data_page env st b with
  | inl err => err < 0 /\ (err = - ENOENT -> pages st !! b = None)
  | inr d => pages st !! b = Some d
  end.
Proof.
  intros Hg Hb. unfold find_data_page. destruct (path_cases _ b Hg Hb) as [[[r ->] _]| ->]; [|by split].
  pose proof (eo_blk env Henv b). pose proof (eo_read env Henv b). destruct (c_true (e_read env b)) eqn:E.
  - apply c_true_true in E. split; [lia|done].
  - destruct (pages st !! b); [done|]. split; [done|done].
Qed.

Lemma find_blocks_ok fuel st name s bidx eb room : geom_ok (di st) -> (forall b d, pages st !! b = Some d -> dentries_wf d) ->
  0 <= bidx -> eb < 2 ^ 32 -> eb - bidx <= Z.of_nat fuel ->
  let '(de, err, _) := find_blocks fuel env st name (name_hash name) s bidx eb room in
  match de with
  | Some (b, p) => err = 0 /\ exists d, pages st !! b = Some d /\ is_start d p = true /\ is_target name (name_hash name) d p = true
  | None => err <= 0 /\ (err = 0 -> forall b d p, bidx <= b < eb -> pages st !! b = Some d -> is_start d p = true ->
                          is_target name (name_hash name) d p = false)
  end.
Proof.
  intros Hg Hw. revert bidx room. induction fuel as [|fuel IH]; intros bidx room Hb He Hf; cbn [find_blocks]; [split; lia|].
  destruct (Z.leb_spec eb bidx); [split; lia|].
  pose proof (find_page_cases st bidx Hg Hb) as Hp. assert (Hu : u32 (bidx + 1) = bidx + 1) by (apply u32_small; lia).
  destruct (find_data_page env st bidx) as [err|d].
  - destruct Hp as [Hneg Hne]. destruct (Z.eqb_spec err (- ENOENT)) as [Heq|]; [|split; [lia|lia]].
    rewrite Hu. specialize (IH (bidx + 1) true ltac:(lia) He ltac:(lia)).
    destruct (find_blocks fuel env st name _ s (bidx + 1) eb true) as [[[[b p]|] err'] room']; [done|].
    destruct IH as [He' IH]. split; [done|]. intros H0 b d p Hr Hd. destruct (Z.eq_dec b bidx) as [->|]; [by rewrite (Hne Heq) in Hd|].
    apply (IH H0 b d p); [lia|done].
  - pose proof (find_target_ok name (name_hash name) d (Hw _ _ Hp)) as Ht. unfold search_result in Ht.
    destruct (find_target_dentry name (name_hash name) d) as [[p|] ms]; cbn [fst snd] in Ht.
    + split; [done|]. exists d. by destruct Ht as (? & ? & _).
    + rewrite Hu. specialize (IH (bidx + 1) (room || (s <=? ms)) ltac:(lia) He ltac:(lia)).
      destruct (find_blocks fuel env st name _ s (bidx + 1) eb _) as [[[[b p]|] err'] room']; [done|].
      destruct IH as [He' IH]. split; [done|]. intros H0 b d' p Hr Hd. destruct (Z.eq_dec b bidx) as [->|]; [|apply (IH H0 b d' p); [lia|done]].
      rewrite Hp in Hd. injection Hd as <-. apply (proj1 Ht).
Qed.

(** Search leaves all but the hint and the task. *)
Definition hinted (st st' : dir_state) : Prop :=
  di st' = di st /\ pages st' = pages st /\ area st' = area st /\ (clevel st' = clevel st \/ 0 <= clevel st' < i_current_depth (di st)).

Lemma hinted_refl st : hinted st st.
Proof. by split_and!; [..|left]. Qed.

Lemma hinted_trans s1 s2 s3 : hinted s1 s2 -> hinted s2 s3 -> hinted s1 s3.
Proof.
  intros (A1 & A2 & A3 & A4) (B1 & B2 & B3 & B4). split_and!; [congruence..|]. rewrite A1 in B4. destruct B4 as [B4|]; [|by right].
  rewrite B4. done.
Qed.

Lemma find_in_level_ok st level name : pages_wf (di st) (pages st) (clevel st) -> 0 <= level < i_current_depth (di st) ->
  let '(de, err, st') := find_in_level env st level name in
  hinted st st' /\
  match de with
  | Some (b, p) => err = 0 /\ exists de', page_entry (pages st) b p name de'
  | None => err <= 0 /\ (err = 0 -> forall b p de', in_bucket (i_dir_level (di st)) level (name_hash name) b -> ~ page_entry (pages st) b p name de')
  end.
Proof.
  intros Hw Hl. unfold find_in_level. set (h := name_hash name). set (x := dir_block_index _ _ _). set (n := bucket_blocks level).
  assert (Hn : 0 <= n <= 4) by (unfold n, bucket_blocks; destruct (level <? _); lia).
  pose proof (u32_range x). pose proof (u32_range (u32 x + n)).
  assert (Hwr : u32 x + n < 2 ^ 32 \/ u32 (u32 x + n) < u32 x).
  { destruct (Z.lt_ge_cases (u32 x + n) (2 ^ 32)); [by left|]. right. unfold u32 at 1. rewrite (Z.mod_eq _ (2 ^ 32)) by lia.
    assert ((u32 x + n) / 2 ^ 32 = 1) as -> by (symmetry; apply (Z.div_unique _ _ _ (u32 x + n - 2 ^ 32)); lia). lia. }
  assert (Hf : u32 (u32 x + n) - u32 x <= Z.of_nat (Z.to_nat n)) by (destruct Hwr as [Hx|]; [rewrite (u32_small (u32 x + n)) by lia; lia|lia]).
  pose proof (find_blocks_ok (Z.to_nat n) st name (GET_DENTRY_SLOTS (zlen name)) (u32 x) (u32 (u32 x + n)) false (pw_geom _ _ _ Hw)
    (fun b d Hd => proj1 (pw_block _ _ _ Hw b d Hd)) ltac:(lia) ltac:(lia) Hf) as Hfb. fold h in Hfb.
  destruct (find_blocks (Z.to_nat n) env st name h _ (u32 x) (u32 (u32 x + n)) false) as [[de err] room]. split.
  - destruct (negb _ && room && _); [|apply hinted_refl]. split_and!; [done..|]. right. done.
  - destruct de as [[b p]|].
    + destruct Hfb as (-> & d & Hd & Hs & Ht). split; [done|]. destruct (target_entry name d p Hs Ht) as [de' He]. exists de', d. done.
    + destruct Hfb as [He Hfb]. split; [done|]. intros Hz b p de' Hb (d & Hd & Hen). specialize (Hfb Hz).
      destruct (pw_block _ _ _ Hw b d Hd) as (_ & _ & Hbr & _). unfold in_bucket in Hb. fold x n h in Hb.
      destruct (pw_entry _ _ _ Hw b p name de') as [Hok _]; [by exists d|].
      pose proof (entry_target name d p de' Hen Hok) as Ht. fold h in Ht. destruct Hen as (Hs & _).
      assert (Hx : 0 <= x) by apply u64_range. assert (Hux : u32 x = x) by (apply u32_small; lia).
      rewrite (Hfb b d p) in Ht; [done| |done..]. rewrite Hux, u32_small by lia. lia.
Qed.

Lemma hinted_wf st st' : pages_wf (di st) (pages st) (clevel st) -> hinted st st' -> pages_wf (di st') (pages st') (clevel st').
Proof.
  intros [? ? ? ? ? ?] (-> & -> & _ & Hc). split; try done. split; [|lia]. destruct Hc; lia.
Qed.

Lemma find_levels_ok fuel st name level : pages_wf (di st) (pages st) (clevel st) -> 0 <= level ->
  i_current_depth (di st) - level <= Z.of_nat fuel ->
  let '(de, err, st') := find_levels fuel env st name level (i_current_depth (di st)) in
  hinted st st' /\
  match de with
  | Some (b, p) => err = 0 /\ exists de', page_entry (pages st) b p name de'
  | None => err <= 0 /\ (err = 0 -> forall l b p de', level <= l < i_current_depth (di st) ->
      in_bucket (i_dir_level (di st)) l (name_hash name) b -> ~ page_entry (pages st) b p name de')
  end.
Proof.
  revert st level. induction fuel as [|fuel IH]; intros st level Hw Hl Hf; cbn [find_levels].
  { split; [apply hinted_refl|]. split; [done|]. intros. lia. }
  destruct (Z.leb_spec (i_current_depth (di st)) level). { split; [apply hinted_refl|]. split; [done|]. intros. lia. }
  pose proof (find_in_level_ok st level name Hw ltac:(lia)) as H1. destruct (find_in_level env st level name) as [[de err] st1].
  destruct H1 as [Hh H1]. destruct de as [[b p]|]; [by rewrite bool_decide_true by eauto|].
  rewrite bool_decide_false by (by intros [? ?]). cbn [orb]. destruct H1 as [Hle H1]. destruct (c_true err) eqn:E.
  - apply c_true_true in E. split; [done|]. split; [done|]. done.
  - apply c_true_false in E. specialize (H1 E). pose proof (hinted_wf _ _ Hw Hh) as Hw1. destruct (Hh) as (Hd & Hp & _).
    specialize (IH st1 (level + 1) Hw1 ltac:(lia) ltac:(rewrite Hd; lia)). rewrite Hd in IH.
    destruct (find_levels fuel env st1 name (level + 1) _) as [[[[b p]|] err'] st2]; destruct IH as [Hh2 IH]; rewrite Hp in IH.
    + split; [by eapply hinted_trans|done].
    + split; [by eapply hinted_trans|]. destruct IH as [Hle' IH]. split; [done|]. intros H0 l b p de' Hr Hb.
      destruct (Z.eq_dec l level) as [->|]; [by apply H1|]. apply (IH H0 l); [lia|done].
Qed.

Lemma no_pages st b d : pages_wf (di st) (pages st) (clevel st) -> dir_blocks (di st) = 0 -> pages st !! b = Some d -> False.
Proof.
  intros Hw H0 Hd. destruct (pw_block _ _ _ Hw b d Hd) as (_ & _ & Hb & Hs). pose proof (pw_size _ _ _ Hw).
  unfold dir_blocks, PAGE_SHIFT, PAGE_SIZE in *. rewrite u64_small, Z.shiftr_div_pow2 in H0 by lia.
  change (2 ^ 12) with 4096 in H0. apply Z.div_small_iff in H0; lia.
Qed.

Lemma find_entry_ok st name : dir_wf st ->
  let '(de, err, st') := __f2fs_find_entry env st name in
  hinted st st' /\ dir_wf st' /\ (forall b p nm de, dir_entry st' b p nm de <-> dir_entry st b p nm de) /\
  match de with
  | Some (b, p) => err = 0 /\ exists de', dir_entry st b p name de'
  | None => err <= 0 /\ (err = 0 -> forall b p de', ~ dir_entry st b p name de')
  end.
Proof.
  intros Hw. unfold __f2fs_find_entry.
  assert (Hres : forall (r : option (Z * Z) * Z * dir_state), 
    (let '(de, err, st') := r in hinted st st' /\ dir_wf st' /\
     match de with Some (b, p) => err = 0 /\ exists de', dir_entry st b p name de'
     | None => err <= 0 /\ (err = 0 -> forall b p de', ~ dir_entry st b p name de') end) ->
    let '(de, err, st') := (let '(de, err, st') := r in (de, err, if bool_decide (is_Some de) then st' else set_task true st')) in
    hinted st st' /\ dir_wf st' /\ (forall b p nm de, dir_entry st' b p nm de <-> dir_entry st b p nm de) /\
    match de with Some (b, p) => err = 0 /\ exists de', dir_entry st b p name de'
    | None => err <= 0 /\ (err = 0 -> forall b p de', ~ dir_entry st b p name de') end).
  { intros [[de err] st'] (Hh & Hw' & H). set (st2 := if bool_decide (is_Some de) then st' else set_task true st').
    assert (H2 : di st2 = di st' /\ pages st2 = pages st' /\ area st2 = area st' /\ clevel st2 = clevel st') by (unfold st2; by destruct (bool_decide _)).
    destruct H2 as (E1 & E2 & E3 & E4). split_and!; [| | |done].
    - unfold hinted. by rewrite E1, E2, E3, E4.
    - unfold dir_wf. by rewrite E1, E2, E3, E4.
    - intros. unfold dir_entry. rewrite E1, E2, E3. destruct Hh as (-> & -> & -> & _). done. }
  apply Hres. clear Hres. destruct (f2fs_has_inline_dentry (di st)) eqn:Ei.
  - pose proof Hw as Hw2. unfold dir_wf in Hw2. rewrite Ei in Hw2. destruct Hw2 as (Ha & _). unfold find_in_inline_dir.
    pose proof (eo_neg env Henv). destruct (c_true (e_node env)) eqn:E.
    + apply c_true_true in E. split_and!; [apply hinted_refl|done|lia|done].
    + pose proof (find_target_ok name (name_hash name) _ (aw_wf _ _ Ha)) as Ht. unfold search_result in Ht.
      destruct (find_target_dentry name (name_hash name) (area st)) as [[p|] ms]; cbn [fst snd] in Ht.
      * split_and!; [apply hinted_refl|done|done|]. destruct Ht as (Hs & Ht & _). destruct (target_entry _ _ _ Hs Ht) as [de' He].
        exists de'. unfold dir_entry. by rewrite Ei.
      * split_and!; [apply hinted_refl|done|done|]. intros _ b p de'. unfold dir_entry. rewrite Ei. intros [-> He].
        pose proof (entry_target _ _ _ _ He (aw_entry _ _ Ha _ _ _ He)) as Hx. destruct He as (Hs & _). rewrite (proj1 Ht p Hs) in Hx. done.
  - pose proof Hw as Hw2. unfold dir_wf in Hw2. rewrite Ei in Hw2. destruct (pw_depth _ _ _ Hw2) as [Hc Hd].
    destruct (Z.eqb_spec (dir_blocks (di st)) 0) as [H0|H0].
    + split_and!; [apply hinted_refl|done|done|]. intros _ b p de'. unfold dir_entry. rewrite Ei. intros (d & Hp & _). by eapply no_pages.
    + destruct (Z.gtb_spec (i_current_depth (di st)) MAX_DIR_HASH_DEPTH); [lia|].
      pose proof (find_levels_ok (Z.to_nat (i_current_depth (di st))) st name 0 Hw2 ltac:(lia) ltac:(lia)) as Hfl.
      destruct (find_levels _ env st name 0 _) as [[de err] st1]. destruct Hfl as [Hh Hfl]. split; [done|]. split.
      { unfold dir_wf. destruct (Hh) as (-> & _). rewrite Ei. destruct (Hh) as (<- & _). by apply (hinted_wf st). }
      unfold dir_entry. rewrite Ei. destruct de as [[b p]|]; [done|]. destruct Hfl as [Hle Hfl]. split; [done|]. intros Hz b p de' He.
      destruct (pw_entry _ _ _ Hw2 _ _ _ _ He) as [_ (l & Hl & Hb)]. by apply (Hfl Hz l b p de').
Qed.
End search.

(** ** Adding to the pages *)

(** A failure that is not the request for a conversion. *)
Definition failed (err : Z) : Prop := err < 0 /\ err <> - EAGAIN.

(** What no operation on names changes in the inode of the directory, but for
    the inline flag. *)
Record keeps (i i' : inode) : Prop := {
  kp_geom : i_extra_isize i' = i_extra_isize i /\ i_inline_xattr_size i' = i_inline_xattr_size i;
  kp_level : i_dir_level i' = i_dir_level i;
  kp_ino : i_ino i' = i_ino i;
  kp_inline : f2fs_has_inline_dentry i' = f2fs_has_inline_dentry i
}.

Lemma keeps_refl i : keeps i i.
Proof. split; [split|..]; done. Qed.
Lemma keeps_trans i1 i2 i3 : keeps i1 i2 -> keeps i2 i3 -> keeps i1 i3.
Proof. intros [[? ?] ? ? ?] [[? ?] ? ? ?]. split; [split|..]; congruence. Qed.

Definition same_entries (pg pg' : gmap Z f2fs_dentry_ptr) : Prop := forall b p nm de, page_entry pg' b p nm de <-> page_entry pg b p nm de.

(** Blocks allocated, nothing else. *)
Record grown (st st' : dir_state) : Prop := {
  gr_di : exists sz, di st' = set_i_size sz (di st);
  gr_rest : area st' = area st /\ clevel st' = clevel st;
  gr_entries : same_entries (pages st) (pages st');
  gr_wf : pages_wf (di st') (pages st') (clevel st')
}.

Lemma set_same_size i : set_i_size (i_size i) i = i.
Proof. by destruct i. Qed.

Lemma grown_refl st : pages_wf (di st) (pages st) (clevel st) -> grown st st.
Proof. intros Hw. split; [|done..]. exists (i_size (di st)). by rewrite set_same_size. Qed.

Lemma grown_trans s1 s2 s3 : grown s1 s2 -> grown s2 s3 -> grown s1 s3.
Proof.
  intros [[z1 D1] [A1 C1] E1 W1] [[z2 D2] [A2 C2] E2 W2]. split; [|split; congruence| |done].
  - exists z2. by rewrite D2, D1.
  - intros b p nm de. by rewrite (E2 b p nm de), (E1 b p nm de).
Qed.

Lemma grown_keeps st st' : grown st st' -> keeps (di st) (di st') /\ i_current_depth (di st') = i_current_depth (di st).
Proof. intros [[sz ->] _ _ _]. split; [|done]. split; [split|..]; done. Qed.

Lemma pages_wf_size i sz pg cl : pages_wf i pg cl -> i_size i <= sz < 2 ^ 63 -> pages_wf (set_i_size sz i) pg cl.
Proof.
  intros [W1 W2 W3 W4 W5 W6] Hs. split; [exact W1|exact W2|cbn; lia| |exact W5|exact W6].
  intros b d Hd. destruct (W4 b d Hd) as (? & ? & ? & ?). split_and!; [done|done|lia|lia|cbn [i_size set_i_size]; lia].
Qed.

Lemma empty_block_wf : dentries_wf empty_dentry_block /\ forall p, is_start empty_dentry_block p = false.
Proof. apply empty_wf. by vm_compute. Qed.

Lemma insert_empty_entries pg b : pg !! b = None -> same_entries pg (<[b := empty_dentry_block]> pg).
Proof.
  intros Hn b' p nm de. split; intros (d & Hd & He).
  - destruct (decide (b' = b)) as [->|Hne].
    + rewrite lookup_insert_eq in Hd. injection Hd as <-. destruct He as (He & _). by rewrite (proj2 empty_block_wf) in He.
    + rewrite lookup_insert_ne in Hd by done. by exists d.
  - exists d. split; [|done]. rewrite lookup_insert_ne; [done|]. intros ->. congruence.
Qed.

Lemma pages_wf_empty i pg cl b : pages_wf i pg cl -> pg !! b = None -> 0 <= b < 2 ^ 31 -> (b + 1) * PAGE_SIZE <= i_size i ->
  pages_wf i (<[b := empty_dentry_block]> pg) cl.
Proof.
  intros [W1 W2 W3 W4 W5 W6] Hn Hb Hs. pose proof (insert_empty_entries pg b Hn) as He. split; [done..| | |].
  - intros b' d Hd. destruct (decide (b' = b)) as [->|Hne].
    + rewrite lookup_insert_eq in Hd. injection Hd as <-. split_and!; [exact (proj1 empty_block_wf)|done|lia|lia|done].
    + rewrite lookup_insert_ne in Hd by done. by apply W4.
  - intros b' p nm de H%He. exact (W5 _ _ _ _ H).
  - intros b' p' de b2 p2 de2 nm H%He H2%He. by eapply W6.
Qed.

Section adding.
Context (env : dir_env) (Henv : env_ok env).

Lemma get_new_page_ok st idx : pages_wf (di st) (pages st) (clevel st) -> 0 <= idx ->
  match get_new_data_page env st idx with
  | (inl err, st') => failed err /\ st' = st
  | (inr d, st') => grown st st' /\ pages st' !! idx = Some d /\ idx < 2 ^ 31
  end.
Proof.
  intros Hw Hi. unfold get_new_data_page. destruct (path_cases _ idx (pw_geom _ _ _ Hw) Hi) as [[[r ->] Hlt]| ->]; [|by split].
  pose proof (eo_blk env Henv idx) as [Hr He]. destruct (proj1 (proj2 (eo_again env Henv)) idx) as [Hna Hra]. destruct (c_true (e_new env idx)) eqn:E. { apply c_true_true in E. split; [split; [lia|done]|done]. }
  cbv zeta. unfold PAGE_SHIFT. rewrite Z.shiftl_mul_pow2, s64_small by (rewrite ?Z.shiftl_mul_pow2; change (2 ^ 12) with 4096; lia).
  change (2 ^ 12) with PAGE_SIZE. assert (HP : PAGE_SIZE = 4096) by done. pose proof (pw_size _ _ _ Hw).
  destruct (pages st !! idx) as [d|] eqn:Ep.
  - destruct (c_true (e_read env idx)) eqn:E2. { apply c_true_true in E2. split; [split; [lia|done]|done]. }
    destruct (pw_block _ _ _ Hw idx d Ep) as (_ & _ & _ & Hs). rewrite (proj2 (Z.ltb_ge _ _)) by lia.
    split_and!; [by apply grown_refl|done|done].
  - set (pg := <[idx := empty_dentry_block]> (pages st)).
    set (sz := Z.max (i_size (di st)) ((idx + 1) * PAGE_SIZE)).
    assert (Hsz : pages_wf (set_i_size sz (di st)) pg (clevel st)).
    { apply pages_wf_empty; [apply pages_wf_size; [done|lia]|done|lia|cbn [i_size set_i_size]; lia]. }
    match goal with |- context [if ?c then ?a else ?b] => set (st' := if c then a else b) end.
    assert (Hst : st' = set_pages pg (on_di (set_i_size sz) st)).
    { unfold st', sz. cbn [di set_pages]. destruct (Z.ltb_spec (i_size (di st)) ((idx + 1) * PAGE_SIZE)).
      - rewrite Z.max_r by lia. done.
      - rewrite Z.max_l by lia. unfold set_pages, on_di. cbn. by rewrite set_same_size. }
    rewrite Hst. split_and!; [|apply lookup_insert_eq|done]. split; [by exists sz|done|by apply insert_empty_entries|done].
Qed.

Lemma room_blocks_ok fuel st slots block : pages_wf (di st) (pages st) (clevel st) -> 0 <= block -> 1 <= slots ->
  match room_blocks fuel env st slots block with
  | (inl err, st') => failed err /\ grown st st'
  | (inr None, st') => grown st st'
  | (inr (Some (b, p)), st') => grown st st' /\ block <= b < block + Z.of_nat fuel /\ exists d, pages st' !! b = Some d /\ free_run d p slots
  end.
Proof.
  revert st block. induction fuel as [|fuel IH]; intros st block Hw Hb Hs; cbn [room_blocks]; [by apply grown_refl|].
  pose proof (get_new_page_ok st block Hw Hb) as H. destruct (get_new_data_page env st block) as [[err|d] st1].
  { destruct H as [H ->]. split; [done|by apply grown_refl]. }
  destruct H as (Hg & Hd & Hlt). pose proof (gr_wf _ _ Hg) as Hw1. destruct (pw_block _ _ _ Hw1 block d Hd) as (Hdw & Hm & _).
  destruct (room_ok (d_bitmap d) slots NR_DENTRY_IN_BLOCK) as [Hr _]; [done|done|].
  destruct (Z.ltb_spec (room_for_filename (d_bitmap d) slots NR_DENTRY_IN_BLOCK) NR_DENTRY_IN_BLOCK).
  - destruct Hr as [[_ (R1 & R2 & R3)]|]; [|lia]. split_and!; [done|lia|lia|]. exists d. split; [done|]. unfold free_run. by rewrite Hm.
  - rewrite u64_small by lia. specialize (IH st1 (block + 1) Hw1 ltac:(lia) Hs).
    destruct (room_blocks fuel env st1 slots (block + 1)) as [[err|[[b p]|]] st2].
    + destruct IH. split; [done|by eapply grown_trans].
    + destruct IH as (? & ? & ?). split_and!; [by eapply grown_trans|lia|lia|done].
    + by eapply grown_trans.
Qed.

Lemma room_levels_ok fuel st slots hash level depth : pages_wf (di st) (pages st) (clevel st) -> 1 <= slots ->
  0 <= level <= depth -> depth <= MAX_DIR_HASH_DEPTH -> MAX_DIR_HASH_DEPTH - level < Z.of_nat fuel ->
  match room_levels fuel env st slots hash level depth with
  | (inl err, st') => failed err /\ grown st st'
  | (inr (b, p, depth'), st') => grown st st' /\ depth <= depth' <= MAX_DIR_HASH_DEPTH /\
      (exists l, 0 <= l < depth' /\ in_bucket (i_dir_level (di st)) l hash b) /\ exists d, pages st' !! b = Some d /\ free_run d p slots
  end.
Proof.
  unfold MAX_DIR_HASH_DEPTH.
  revert st level depth. induction fuel as [|fuel IH]; intros st level depth Hw Hs Hl Hd Hf; [lia|]. cbn [room_levels].
  unfold MAX_DIR_HASH_DEPTH. destruct (Z.eqb_spec depth 63); [split; [done|by apply grown_refl]|].
  set (depth1 := if level =? depth then u32 (depth + 1) else depth).
  assert (Hd1 : level < depth1 /\ depth <= depth1 <= 63).
  { unfold depth1. destruct (Z.eqb_spec level depth); [rewrite u32_small by lia|]; lia. }
  pose proof (room_blocks_ok (Z.to_nat (bucket_blocks level)) st slots
    (dir_block_index level (i_dir_level (di st)) (hash mod dir_buckets level (i_dir_level (di st)))) Hw ltac:(apply u64_range) Hs) as H.
  assert (Hbb : 0 <= bucket_blocks level) by (unfold bucket_blocks; destruct (level <? _); lia).
  destruct (room_blocks _ env st slots _) as [[err|[[b p]|]] st1].
  - done.
  - destruct H as (Hg & Hb & Hdd). split_and!; [done|lia|lia| |done]. exists level. split; [lia|]. unfold in_bucket. lia.
  - destruct (grown_keeps _ _ H) as [Hk _]. specialize (IH st1 (level + 1) depth1 (gr_wf _ _ H) Hs ltac:(lia) ltac:(lia) ltac:(lia)).
    rewrite (kp_level _ _ Hk) in IH. destruct (room_levels fuel env st1 slots hash (level + 1) depth1) as [[err|[[b p] depth']] st2].
    + destruct IH. split; [done|by eapply grown_trans].
    + destruct IH as (? & ? & ? & ?). split_and!; [by eapply grown_trans|lia|lia|done|done].
Qed.
End adding.

(** One more entry. *)
Definition entries_plus (pg pg' : gmap Z f2fs_dentry_ptr) (name : list Z) (ino ft : Z) : Prop :=
  exists b0 p0 de0, de_ino de0 = ino /\ file_type de0 = ft /\
    forall b p nm de, page_entry pg' b p nm de <-> b = b0 /\ p = p0 /\ nm = name /\ de = de0 \/ page_entry pg b p nm de.

Definition mode_type (mode : Z) : Z := zget 0 f2fs_type_by_mode (Z.shiftr (mode .& S_IFMT) S_SHIFT).

Lemma mode_type_range mode : 0 <= mode_type mode < F2FS_FT_MAX.
Proof. unfold mode_type. apply (Forall_zget (fun x => 0 <= x < F2FS_FT_MAX)); [|by unfold F2FS_FT_MAX; lia]. repeat constructor; done. Qed.

Lemma insert_entries pg b d d' ino mode name hash pos : pg !! b = Some d -> dentries_wf d -> 0 < zlen name ->
  free_run d pos (GET_DENTRY_SLOTS (zlen name)) -> entry_added ino mode name hash pos d d' ->
  forall b' p nm de, page_entry (<[b := d']> pg) b' p nm de <->
    b' = b /\ p = pos /\ nm = name /\ de = new_de ino mode name hash (de_at d pos) \/ page_entry pg b' p nm de.
Proof.
  intros Hd Hw Hn Hr Ha b' p nm de. unfold page_entry. destruct (decide (b' = b)) as [->|Hne].
  - rewrite lookup_insert_eq, Hd. split.
    + intros (d0 & [= <-] & He). apply (added_entry _ _ _ _ _ _ _ Hw Hn Hr Ha) in He. destruct He; [by left|right; by exists d].
    + intros H. exists d'. split; [done|]. apply (added_entry _ _ _ _ _ _ _ Hw Hn Hr Ha).
      destruct H as [(_ & H)|(d0 & [= <-] & He)]; [by left|by right].
  - rewrite lookup_insert_ne by done. split; [by right|]. intros [[? _]|H]; done.
Qed.

Lemma pages_wf_add i i' pg cl b d ino mode name pos l : pages_wf i pg cl -> pg !! b = Some d -> 0 < zlen name ->
  free_run d pos (GET_DENTRY_SLOTS (zlen name)) -> (forall b p de, ~ page_entry pg b p name de) ->
  keeps i i' -> i_size i' = i_size i -> i_current_depth i <= i_current_depth i' <= MAX_DIR_HASH_DEPTH ->
  0 <= l < i_current_depth i' -> in_bucket (i_dir_level i) l (name_hash name) b ->
  let pg' := <[b := f2fs_update_dentry ino mode d name (name_hash name) pos]> pg in
  pages_wf i' pg' cl /\ entries_plus pg pg' name ino (mode_type mode).
Proof.
  intros Hw Hd Hn Hr Hno Hk Hsz Hdep Hl Hb. destruct (pw_block _ _ _ Hw b d Hd) as (Hdw & Hm & Hbr & Hbs).
  pose proof (update_added ino mode d name (name_hash name) pos Hdw Hn Hr) as Ha.
  set (d' := f2fs_update_dentry _ _ _ _ _ _) in *. pose proof (insert_entries pg b d d' _ _ _ _ _ Hd Hdw Hn Hr Ha) as Hiff.
  cbv zeta. split; [|exists b, pos, (new_de ino mode name (name_hash name) (de_at d pos)); done].
  destruct Hk as [[K1 K2] K3 _ _]. split.
  - unfold geom_ok. rewrite K1, K2. apply Hw.
  - pose proof (pw_depth _ _ _ Hw). lia.
  - rewrite Hsz. apply Hw.
  - intros b' d0. destruct (decide (b' = b)) as [->|Hne].
    + rewrite lookup_insert_eq. intros [= <-]. rewrite Hsz. split_and!; [by apply (added_wf _ _ _ _ _ _ _ Hdw Hn Hr Ha)| |lia..].
      by rewrite (ea_max _ _ _ _ _ _ _ Ha).
    + rewrite lookup_insert_ne, Hsz by done. apply Hw.
  - intros b' p nm de [(-> & -> & -> & ->)|H]%Hiff.
    + rewrite K3. split; [split; [done|apply mode_type_range]|]. by exists l.
    + destruct (pw_entry _ _ _ Hw _ _ _ _ H) as [? (l' & ? & ?)]. rewrite K3. split; [done|]. exists l'. split; [lia|done].
  - intros b1 p1 de1 b2 p2 de2 nm [(-> & -> & -> & _)|H1]%Hiff [(-> & -> & E & _)|H2]%Hiff; try done.
    + by apply Hno in H2.
    + rewrite E in H1. by apply Hno in H1.
    + by eapply (pw_uniq _ _ _ Hw).
Qed.

(** ** The whole of adding *)

(** The directory but for its inode and its pages. *)
Definition same_rest (st st' : dir_state) : Prop := pages st' = pages st /\ area st' = area st /\ clevel st' = clevel st.

Lemma touch_ok env st : keeps (di st) (di (touch env st)) /\ i_size (di (touch env st)) = i_size (di st) /\
  i_current_depth (di (touch env st)) = i_current_depth (di st) /\ same_rest st (touch env st).
Proof. split; [split; [split|..]; done|done]. Qed.

Lemma with_depth_ok env depth st : let st' := with_depth env depth st in
  keeps (di st) (di st') /\ i_size (di st') = i_size (di st) /\ i_current_depth (di st') = depth /\ same_rest st st'.
Proof.
  cbv zeta. unfold with_depth. destruct (touch_ok env st) as (K2 & S2 & D2 & R2). set (st2 := touch env st) in *. cbv zeta.
  destruct (Z.eqb_spec (i_current_depth (di st2)) depth); [done|]. split_and!; [|done..]. destruct K2 as [[? ?] ? ? ?]. split; [split|..]; done.
Qed.

Lemma count_new_ok st c : let st1 := (count_new_child st c).1 in keeps (di st) (di st1) /\ i_size (di st1) = i_size (di st) /\ same_rest st st1.
Proof.
  unfold count_new_child. destruct (is_inode_flag_set _ _); [|split; [apply keeps_refl|done]].
  destruct (S_ISDIR _); [|split; [apply keeps_refl|done]]. split; [split; [split|..]; done|done].
Qed.

Lemma update_parent_ok env st c depth : let st' := (update_parent_metadata env st c depth).1 in
  keeps (di st) (di st') /\ i_size (di st') = i_size (di st) /\ i_current_depth (di st') = depth /\ same_rest st st'.
Proof.
  destruct c as [c|]; cbn [update_parent_metadata]; [|apply with_depth_ok].
  pose proof (count_new_ok st c) as H. destruct (count_new_child st c) as [st1 c1]. cbn [fst] in *. destruct H as (K1 & S1 & (P1 & A1 & C1)).
  destruct (with_depth_ok env depth st1) as (K2 & S2 & D2 & (P2 & A2 & C2)). cbv zeta.
  split_and!; [by eapply keeps_trans|congruence|done|]. split_and!; congruence.
Qed.

Lemma first_err a b c : a <= 0 -> b <= 0 -> c <= 0 -> (if c_true a then a else if c_true b then b else c) <= 0.
Proof. intros. by destruct (c_true a); [|destruct (c_true b)]. Qed.

Lemma metadata_err env dir nm c s : env_ok env -> let err := (init_inode_metadata env dir nm c s).1.1 in err <= 0 /\ err <> - EAGAIN.
Proof.
  intros Henv. destruct (eo_neg env Henv) as (_ & _ & N1 & N2 & N3 & N4). destruct (eo_again env Henv) as (_ & _ & A1 & A2 & A3 & A4).
  unfold init_inode_metadata. cbv zeta.
  assert (H : let err := (if is_inode_flag_set (c_inode c) FI_NEW_INODE then init_new_inode env dir c else (e_child env, c)).1 in err <= 0 /\ err <> - EAGAIN).
  { cbv zeta. destruct (is_inode_flag_set _ _); [|done]. unfold init_new_inode. destruct (c_true (e_child env)); [done|].
    assert (Hm : forall r : Z * dir_state, r.1 <= 0 /\ r.1 <> - EAGAIN ->
      let err := (let '(err, st) := r in let c := mk_child st (c_name c) in
        let err := if c_true err then err else if c_true (e_acl env) then e_acl env else e_sec env in
        if c_true err then (err, on_child (on_di (set_i_nlink 0)) c) else (0, c)).1 in err <= 0 /\ err <> - EAGAIN).
    { intros [err st] [L1 L2]. cbn [fst] in *. cbv zeta. set (e := if c_true err then err else _).
      assert (He : e <= 0 /\ e <> - EAGAIN) by (unfold e; destruct (c_true err); [done|]; by destruct (c_true (e_acl env))).
      by destruct (c_true e). }
    apply Hm. destruct (S_ISDIR _); [|done]. unfold make_empty_dir. destruct (f2fs_has_inline_dentry _); [done|].
    destruct (c_true (e_child_dir env)); [done|]. cbv zeta. done. }
  destruct (if is_inode_flag_set (c_inode c) FI_NEW_INODE then _ else _) as [err c1]. cbn [fst] in H.
  destruct (c_true err); [done|]. by destruct (is_inode_flag_set _ _).
Qed.

(** What adding a name to the pages does. *)
Record added_regular (st st' : dir_state) (err : Z) (name : list Z) (ino mode : Z) : Prop := {
  ar_err : err = 0 \/ failed err;
  ar_keeps : keeps (di st) (di st');
  ar_rest : area st' = area st /\ clevel st' = clevel st;
  ar_wf : pages_wf (di st') (pages st') (clevel st');
  ar_fail : err <> 0 -> same_entries (pages st) (pages st');
  ar_done : err = 0 -> entries_plus (pages st) (pages st') name ino (mode_type mode)
}.

Lemma add_regular_ok env st c s name ino mode : env_ok env -> pages_wf (di st) (pages st) (clevel st) -> 0 < zlen name ->
  (forall b p de, ~ page_entry (pages st) b p name de) ->
  let '(err, (st', _, _)) := f2fs_add_regular_entry env (st, c, s) name ino mode in added_regular st st' err name ino mode.
Proof.
  intros Henv Hw Hn Hno. unfold f2fs_add_regular_entry. destruct (slots_fit _ Hn) as [Hs1 _].
  assert (Hst0 : exists level st0, (if chash st =? name_hash name then (clevel st, set_hint 0 (clevel st) st) else (0, st)) = (level, st0) /\
    0 <= level <= i_current_depth (di st) /\ di st0 = di st /\ same_rest st st0).
  { pose proof (pw_depth _ _ _ Hw). destruct (_ =? _); do 2 eexists; (split; [reflexivity|]); split; try lia; done. }
  destruct Hst0 as (level & st0 & -> & Hl & Hd0 & P0 & A0 & C0). cbv zeta.
  assert (Hw0 : pages_wf (di st0) (pages st0) (clevel st0)) by (rewrite Hd0, P0, C0; done).
  pose proof (room_levels_ok env Henv (S (Z.to_nat MAX_DIR_HASH_DEPTH)) st0 (GET_DENTRY_SLOTS (zlen name)) (name_hash name) level
    (i_current_depth (di st)) Hw0 Hs1 Hl (proj2 (pw_depth _ _ _ Hw)) ltac:(unfold MAX_DIR_HASH_DEPTH; lia)) as H.
  assert (Hgr : forall st1, grown st0 st1 -> keeps (di st) (di st1) /\ area st1 = area st /\ clevel st1 = clevel st /\
    same_entries (pages st) (pages st1) /\ pages_wf (di st1) (pages st1) (clevel st1) /\ i_current_depth (di st1) = i_current_depth (di st)).
  { intros st1 Hg. destruct (grown_keeps _ _ Hg) as [K D]. destruct Hg as [_ [? ?] E W]. rewrite Hd0 in K, D. rewrite P0 in E. split_and!; [done|congruence..|done|done|done]. }
  destruct (room_levels _ env st0 _ _ level _) as [[err|[[b p] depth]] st1].
  { destruct H as [He Hg]. destruct (Hgr st1 Hg) as (? & ? & ? & ? & ? & _). split; [by right|done..|by destruct He; lia]. }
  destruct H as (Hg & Hdep & (l & Hl2 & Hb) & d & Hd & Hr). destruct (Hgr st1 Hg) as (K1 & A1 & C1 & E1 & W1 & D1). rewrite Hd, Hd0 in *.
  assert (Hc : exists err c1 s1, match c with Some c => let '(err, c, s) := init_inode_metadata env (di st1) (Some name) c s in (err, Some c, s) | None => (0, None, s) end = (err, c1, s1) /\ err <= 0 /\ err <> - EAGAIN).
  { destruct c as [c|]; [|by do 3 eexists]. pose proof (metadata_err env (di st1) (Some name) c s Henv) as He.
    destruct (init_inode_metadata _ _ _ _ _) as [[e c'] s']. by do 3 eexists. }
  destruct Hc as (err & c1 & s1 & -> & He). destruct (c_true err) eqn:Ee.
  { apply c_true_true in Ee. split; [right; split; [lia|by apply He]|done|done|done|done|lia]. }
  cbv zeta. change (default empty_dentry_block (Some d)) with d. set (pg' := <[b := f2fs_update_dentry ino mode d name (name_hash name) p]> (pages st1)).
  set (st2 := set_pages pg' st1). set (oc := option_map _ c1).
  destruct (update_parent_ok env st2 oc depth) as (K3 & S3 & D3 & P3 & A3 & C3).
  destruct (update_parent_metadata env st2 oc depth) as [st3 c3]. cbn [fst] in *.
  destruct (pages_wf_add (di st1) (di st3) (pages st1) (clevel st1) b d ino mode name p l W1 Hd Hn Hr) as [Hw3 Hp3].
  - intros b' p' de' Hx%E1. by apply Hno in Hx.
  - exact K3.
  - exact S3.
  - lia.
  - lia.
  - by rewrite (kp_level _ _ K1).
  - fold pg' in Hw3, Hp3. cbv beta iota. split; [by left|by eapply keeps_trans|split; [etrans; [exact A3|exact A1]|etrans; [exact C3|exact C1]]|by rewrite P3, C3|done|].
    intros _. rewrite P3. destruct Hp3 as (b0 & p0 & de0 & ? & ? & Hp3). exists b0, p0, de0. split_and!; [done|done|].
    intros b' p' nm de. change (pages st2) with pg'. rewrite (Hp3 b' p' nm de), (E1 b' p' nm de). done.
Qed.

(** ** The conversion of an inline directory *)

(** A name leads to an inode and a type. *)
Definition page_names (pg : gmap Z f2fs_dentry_ptr) (nm : list Z) (ino ft : Z) : Prop :=
  exists b p de, page_entry pg b p nm de /\ de_ino de = ino /\ file_type de = ft.
Definition names (st : dir_state) (nm : list Z) (ino ft : Z) : Prop :=
  exists b p de, dir_entry st b p nm de /\ de_ino de = ino /\ file_type de = ft.
Definition same_names (st st' : dir_state) : Prop := forall nm ino ft, names st' nm ino ft <-> names st nm ino ft.

Lemma names_regular st nm ino ft : f2fs_has_inline_dentry (di st) = false -> names st nm ino ft <-> page_names (pages st) nm ino ft.
Proof. intros H. unfold names, dir_entry. by rewrite H. Qed.

Lemma names_inline st nm ino ft : f2fs_has_inline_dentry (di st) = true ->
  names st nm ino ft <-> exists p de, entry (area st) p nm de /\ de_ino de = ino /\ file_type de = ft.
Proof. intros H. unfold names, dir_entry. rewrite H. split; [intros (b & p & de & [_ He] & Hx); by exists p, de|intros (p & de & He & Hx); by exists 0, p, de]. Qed.

Lemma same_entries_names pg pg' nm ino ft : same_entries pg pg' -> page_names pg' nm ino ft <-> page_names pg nm ino ft.
Proof. intros H. unfold page_names. split; intros (b & p & de & He & Hx); exists b, p, de; (split; [by apply H|done]). Qed.

Lemma plus_names pg pg' name ino ft : entries_plus pg pg' name ino ft ->
  forall nm i f, page_names pg' nm i f <-> nm = name /\ i = ino /\ f = ft \/ page_names pg nm i f.
Proof.
  intros (b0 & p0 & de0 & Hi & Hf & H) nm i f. unfold page_names. split.
  - intros (b & p & de & He & <- & <-). apply H in He as [(_ & _ & -> & ->)|He]; [by left|right; by exists b, p, de].
  - intros [(-> & -> & ->)|(b & p & de & He & Hx)].
    + exists b0, p0, de0. split; [apply H; by left|done].
    + exists b, p, de. split; [apply H; by right|done].
Qed.

Lemma byte_at_zeros b n i : 0 <= i -> byte_at (b ++ replicate n 0) i = byte_at b i.
Proof.
  intros Hi. rewrite zget_app by done. destruct (Z.ltb_spec i (zlen b)); [done|]. by rewrite zget_replicate, zget_ge.
Qed.

Section move.
Context (i : inode) (d junk : f2fs_dentry_ptr) (Ha : area_wf i d).
Context (Hj : zlen (d_dentry junk) = NR_DENTRY_IN_BLOCK /\ zlen (d_filename junk) = F2FS_SLOT_LEN * NR_DENTRY_IN_BLOCK).
Notation d' := (move_dentries d junk).

Lemma move_used k : 0 <= k -> used d' k = used d k.
Proof. intros Hk. unfold used, test_bit_le, move_dentries. cbn [d_bitmap]. by rewrite byte_at_zeros by (apply Z.div_pos; lia). Qed.

Lemma move_de k : k < d_max d -> de_at d' k = de_at d k.
Proof.
  intros Hk. destruct (Z.lt_ge_cases k 0) as [Hn|Hn].
  - unfold de_at, zget. by rewrite (proj2 (Z.leb_gt 0 k) Hn).
  - unfold de_at, move_dentries. cbn [d_dentry]. rewrite zget_app by done. rewrite (proj1 (dw_len _ (aw_wf _ _ Ha))).
    destruct (Z.ltb_spec k (d_max d)); [done|lia].
Qed.

Lemma move_start k : is_start d' k = is_start d k.
Proof.
  destruct (aw_max _ _ Ha) as [_ Hm]. apply eq_true_iff_eq. rewrite !is_start_iff. change (d_max d') with NR_DENTRY_IN_BLOCK.
  destruct (Z.lt_ge_cases k 0); [lia|]. rewrite move_used by done. destruct (Z.lt_ge_cases k (d_max d)).
  - rewrite move_de by done. split; intros (? & ? & ?); (split; [lia|done]).
  - rewrite (aw_tail _ _ Ha) by done. split; [intros (_ & ? & _)|]; [done|lia].
Qed.

Lemma move_name k : is_start d k = true -> name_at d' k = name_at d k.
Proof.
  intros Hs. pose proof (proj1 (is_start_iff d k) Hs) as (Hr & _). destruct (dw_end _ (aw_wf _ _ Ha) k Hs) as [Hp He].
  destruct (dw_len _ (aw_wf _ _ Ha)) as [_ Hl]. destruct (slots_fit _ Hp) as [_ Hf]. fold (slots_at d k) in Hf. unfold name_at. rewrite move_de by lia.
  unfold get_bytes, move_dentries. cbn [d_filename]. set (fn := d_filename d) in *. unfold F2FS_SLOT_LEN in *.
  rewrite drop_app_le by (unfold zlen in Hl; lia). rewrite take_app_le; [done|]. rewrite length_drop. unfold zlen in Hl. lia.
Qed.

Lemma move_wf : dentries_wf d' /\ d_max d' = NR_DENTRY_IN_BLOCK /\ forall p nm de, entry d' p nm de <-> entry d p nm de.
Proof.
  destruct (aw_max _ _ Ha) as [Hnr Hm]. pose proof (aw_wf _ _ Ha) as [W1 W2 [W3 W3'] W4 W5 W6]. destruct Hj as [J1 J2].
  pose proof (aw_bits _ _ Ha) as Hb. unfold INLINE_DENTRY_BITMAP_SIZE in Hb. rewrite <- Hnr in Hb.
  assert (HN : NR_DENTRY_IN_BLOCK = 214) by done. assert (HS : SIZE_OF_DENTRY_BITMAP = 27) by done.
  assert (Hlen : zlen (d_bitmap d) <= 27) by zdiv.
  assert (Hsl : forall q, is_start d q = true -> slots_at d' q = slots_at d q).
  { intros q Hq. unfold slots_at. rewrite move_de; [done|]. apply is_start_iff in Hq. lia. }
  split; [|split; [done|]].
  - split.
    + cbn [d_max d_bitmap move_dentries]. rewrite zlen_app, HS. unfold zlen at 2. rewrite length_replicate. pose proof (zlen_nonneg (d_bitmap d)). lia.
    + apply Forall_app. split; [done|]. apply Forall_replicate, is_byte_0.
    + cbn [d_dentry d_filename d_max move_dentries]. unfold F2FS_SLOT_LEN in *. rewrite !zlen_app, !zlen_drop; lia.
    + intros p. rewrite move_start. intros Hp. rewrite (Hsl p Hp), move_de by (apply is_start_iff in Hp; lia). specialize (W4 p Hp).
      change (d_max d') with NR_DENTRY_IN_BLOCK. lia.
    + intros p q. rewrite move_start. intros Hp. rewrite (Hsl p Hp). intros Hq. specialize (W4 p Hp). pose proof (proj1 (is_start_iff d p) Hp).
      rewrite move_used, move_de by lia. by apply (W5 p).
    + intros q Hq. rewrite move_used by lia. intros Hu. destruct (Z.lt_ge_cases q (d_max d)); [|by rewrite (aw_tail _ _ Ha) in Hu].
      rewrite move_de by done. intros Hz. destruct (W6 q ltac:(lia) Hu Hz) as (p & Hp & Hr). exists p. by rewrite move_start, (Hsl p Hp).
  - intros p nm de. unfold entry. rewrite move_start. split; intros (Hs & H1 & H2).
    + rewrite move_name in H1 by done. rewrite move_de in H2 by (apply is_start_iff in Hs; lia). done.
    + rewrite move_name by done. rewrite move_de by (apply is_start_iff in Hs; lia). done.
Qed.
End move.

Lemma other_flag f i : f <> FI_INLINE_DENTRY -> 0 <= f -> f2fs_has_inline_dentry (clear_flag_bit f i) = f2fs_has_inline_dentry i.
Proof. intros Hf H0. unfold f2fs_has_inline_dentry, is_inode_flag_set, clear_flag_bit. cbn [flags set_flags]. by rewrite Z.clearbit_neq. Qed.

Lemma cleared_flag f i : 0 <= f -> is_inode_flag_set (clear_flag_bit f i) f = false.
Proof. intros H0. unfold is_inode_flag_set, clear_flag_bit. cbn [flags set_flags]. apply Z.clearbit_eq. Qed.

Lemma level0_block h : in_bucket 0 0 h 0.
Proof. unfold in_bucket. change (dir_buckets 0 0) with 1. rewrite Z.mod_1_r. vm_compute. done. Qed.

(** What a conversion leaves. *)
Record converted (st st' : dir_state) (err : Z) : Prop := {
  cv_err : err = 0 \/ failed err;
  cv_ino : i_ino (di st') = i_ino (di st);
  cv_wf : dir_wf st';
  cv_names : same_names st st';
  cv_inline : f2fs_has_inline_dentry (di st') = negb (err =? 0)
}.

Lemma move_inline_ok env st : env_ok env -> dir_wf st -> f2fs_has_inline_dentry (di st) = true -> i_dir_level (di st) = 0 ->
  let '(err, st') := f2fs_move_inline_dirents env st in converted st st' err.
Proof.
  intros Henv Hw Hi Hl. pose proof Hw as Hw2. unfold dir_wf in Hw2. rewrite Hi in Hw2. destruct Hw2 as (Ha & Hpg & Hc & Hd & Hs).
  assert (Hfail : forall err, failed err -> converted st st err).
  { intros err He. split; [by right|done|done|done|]. rewrite Hi. destruct (Z.eqb_spec err 0) as [->|]; [by destruct He|done]. }
  unfold f2fs_move_inline_dirents. destruct (c_true (e_alloc env)); [by apply Hfail|].
  destruct (c_true (e_new env 0)) eqn:E.
  { apply c_true_true in E. apply Hfail. pose proof (eo_blk env Henv 0). pose proof (proj1 (proj2 (eo_again env Henv)) 0). split; [lia|tauto]. }
  destruct (move_wf (di st) (area st) (e_junk env) Ha (eo_junk env Henv)) as (Wm & Mm & Em).
  set (d' := move_dentries _ _) in *. cbv zeta. unfold truncate_inline_inode. set (i1 := clear_flag_bit FI_DATA_EXIST (di st)).
  set (i2 := set_i_current_depth 1 (clear_flag_bit FI_INLINE_DENTRY i1)).
  set (sz := Z.max (i_size (di st)) PAGE_SIZE).
  assert (Hst : forall st1, di st1 = i2 -> (if i_size (di st1) <? PAGE_SIZE then on_di (set_i_size PAGE_SIZE) st1 else st1) =
    mk_dir (set_i_size sz i2) (pages st1) (area st1) (chash st1) (clevel st1) (same_task st1)).
  { intros st1 E1. change (i_size (di st)) with (i_size i2) in sz. rewrite E1. unfold sz. destruct (Z.ltb_spec (i_size i2) PAGE_SIZE).
    - rewrite Z.max_r by lia. unfold on_di. by rewrite E1.
    - rewrite Z.max_l by lia. rewrite set_same_size, <- E1. by destruct st1. }
  rewrite Hst by done. clear Hst. cbn [pages area chash clevel same_task on_di set_area set_pages]. rewrite Hpg, Hc.
  assert (Hni : f2fs_has_inline_dentry (set_i_size sz i2) = false) by (apply (cleared_flag FI_INLINE_DENTRY i1); done).
  assert (Hpe : forall b p nm de, page_entry {[0 := d']} b p nm de <-> b = 0 /\ entry (area st) p nm de).
  { intros b p nm de. unfold page_entry. split.
    - intros (d & [<- <-]%lookup_singleton_Some & He). by apply Em in He.
    - intros [-> He]. exists d'. split; [apply lookup_singleton_eq|by apply Em]. }
  split; [by left|done| | |done].
  - unfold dir_wf. cbn [di pages clevel]. rewrite Hni. split.
    + apply (aw_geom _ _ Ha).
    + cbn. unfold MAX_DIR_HASH_DEPTH. lia.
    + cbn [i_size set_i_size]. assert (PAGE_SIZE = 4096) by done. lia.
    + intros b d [<- <-]%lookup_singleton_Some. split_and!; [done|done|lia|done|]. cbn [i_size set_i_size]. lia.
    + intros b p nm de [-> He]%Hpe. split; [by apply (aw_entry _ _ Ha _ _ _ He)|]. exists 0. split; [cbn; lia|].
      change (i_dir_level (set_i_size sz i2)) with (i_dir_level (di st)). rewrite Hl. apply level0_block.
    + intros b p de b' p' de' nm [-> H1]%Hpe [-> H2]%Hpe. split; [done|]. by eapply (aw_uniq _ _ Ha).
  - intros nm ino ft. rewrite names_regular, names_inline by done. cbn [pages]. unfold page_names. split.
    + intros (b & p & de & [_ He]%Hpe & Hx). by exists p, de.
    + intros (p & de & He & Hx). exists 0, p, de. split; [by apply Hpe|done].
Qed.

(** The type survives the detour over a mode. *)
Lemma fake_mode_type de : 0 <= file_type de < F2FS_FT_MAX -> mode_type (u16 (Z.shiftl (get_de_type de) S_SHIFT)) = file_type de.
Proof.
  destruct de as [h n l t]. cbn [file_type]. intros Ht. unfold F2FS_FT_MAX in Ht.
  assert (H : Forall (fun x => mode_type (u16 (Z.shiftl (get_de_type (mk_de h n l x)) S_SHIFT)) = x) (seqZ 0 8)) by (repeat constructor).
  rewrite Forall_forall in H. apply H, elem_of_seqZ. lia.
Qed.

Lemma entry_name_len d p nm de : dentries_wf d -> entry d p nm de -> 0 < zlen nm.
Proof.
  intros Hw (Hs & <- & _). destruct (dw_end _ Hw p Hs) as [Hl He]. pose proof (proj1 (is_start_iff d p) Hs) as (Hr & _).
  destruct (slots_fit _ Hl) as [_ Hf]. fold (slots_at d p) in Hf. destruct (dw_len _ Hw) as [_ Hz]. unfold F2FS_SLOT_LEN in *.
  unfold name_at. rewrite zlen_get_bytes; unfold F2FS_SLOT_LEN; lia.
Qed.

(** The entries of [d] below [b]. *)
Definition names_below (d : f2fs_dentry_ptr) (b : Z) (nm : list Z) (ino ft : Z) : Prop :=
  exists p de, p < b /\ entry d p nm de /\ de_ino de = ino /\ file_type de = ft.

Lemma below_skip d b b' : b <= b' -> (forall q, b <= q < b' -> is_start d q = false) ->
  forall nm ino ft, names_below d b' nm ino ft <-> names_below d b nm ino ft.
Proof.
  intros Hle Hn nm ino ft. split; intros (p & de & Hp & He & Hx); exists p, de; (split; [|done]).
  - destruct (Z.lt_ge_cases p b); [done|]. destruct He as (Hs & _). by rewrite Hn in Hs by lia.
  - lia.
Qed.

Section rehash.
Context (env : dir_env) (Henv : env_ok env) (d : f2fs_dentry_ptr) (Hd : dentries_wf d).
Context (Hok : forall p nm de, entry d p nm de -> entry_ok nm de).
Context (Huniq : forall p de p' de' nm, entry d p nm de -> entry d p' nm de' -> p = p').

Lemma add_loop_ok fuel st b : pages_wf (di st) (pages st) (clevel st) -> boundary d b -> (Z.to_nat (d_max d - b) < fuel)%nat ->
  (forall nm ino ft, page_names (pages st) nm ino ft <-> names_below d b nm ino ft) ->
  let '(err, st') := add_inline_loop fuel env st d b in
  (err = 0 \/ failed err) /\ keeps (di st) (di st') /\ clevel st' = clevel st /\ pages_wf (di st') (pages st') (clevel st') /\
  (err = 0 -> forall nm ino ft, page_names (pages st') nm ino ft <-> names_below d (d_max d) nm ino ft).
Proof.
  revert st b. induction fuel as [|fuel IH]; intros st b Hw Hb Hf Hn; [lia|]. cbn [add_inline_loop]. destruct (Hb) as [Hbr _].
  destruct (Z.leb_spec (d_max d) b).
  { assert (b = d_max d) as -> by lia. split_and!; [by left|apply keeps_refl|done|done|done]. }
  fold (used d b). destruct (used d b) eqn:Hu; cbn [negb].
  - pose proof (boundary_used d b Hd Hb ltac:(lia) Hu) as Hs. pose proof (slots_pos d b Hd Hs).
    destruct (Z.eqb_spec (name_len (de_at d b)) 0) as [Hz|_]. { by apply is_start_iff in Hs as (_ & _ & ?). }
    assert (He : entry d b (name_at d b) (de_at d b)) by done. pose proof (entry_name_len _ _ _ _ Hd He) as Hlen. cbv zeta.
    pose proof (add_regular_ok env st None (mk_ino [] 0 false) (name_at d b) (de_ino (de_at d b)) (u16 (Z.shiftl (get_de_type (de_at d b)) S_SHIFT)) Henv Hw Hlen) as Ha.
    assert (Hno : forall b0 p de, ~ page_entry (pages st) b0 p (name_at d b) de).
    { intros b0 p de Hp. assert (Hx : page_names (pages st) (name_at d b) (de_ino de) (file_type de)) by (by exists b0, p, de).
      apply Hn in Hx as (p' & de' & Hlt & He' & _). pose proof (Huniq _ _ _ _ _ He He'). lia. }
    specialize (Ha Hno). destruct (f2fs_add_regular_entry _ _ _ _ _) as [err [[st1 c1] s1]]. destruct Ha as [A1 A2 [_ A3] A4 _ A5].
    destruct (c_true err) eqn:Ee. { apply c_true_true in Ee. by split_and!. }
    apply c_true_false in Ee. specialize (A5 Ee). fold (slots_at d b).
    specialize (IH st1 (b + slots_at d b) A4 (boundary_next _ _ Hd Hb Hs) ltac:(lia)).
    destruct (add_inline_loop fuel env st1 d (b + slots_at d b)) as [err2 st2]. destruct IH as (I1 & I2 & I3 & I4 & I5).
    + intros nm ino ft. rewrite (plus_names _ _ _ _ _ A5), Hn, (fake_mode_type _ (proj2 (Hok _ _ _ He))). split.
      * intros [(-> & -> & ->)|(p & de & Hp & Hx)]; [exists b, (de_at d b); split_and!; [lia|done..]|exists p, de; split; [lia|done]].
      * intros (p & de & Hp & He' & Hi & Hft). destruct (Z.lt_trichotomy p b) as [|[->|Hgt]].
        -- right. by exists p, de.
        -- left. destruct He' as (_ & <- & <-). done.
        -- destruct He' as (Hs' & _). pose proof (starts_apart d b p Hd Hs Hs' Hgt). lia.
    + split_and!; [done|by eapply keeps_trans|congruence|done|done].
  - apply IH; [done|by apply boundary_step|lia|]. intros nm ino ft. rewrite Hn. symmetry. apply below_skip; [lia|]. intros q Hq.
    assert (q = b) as -> by lia. destruct (is_start d b) eqn:E; [|done]. apply is_start_iff in E as (_ & E & _). congruence.
Qed.
End rehash.

Lemma inline_geom i i' : keeps i i' -> MAX_INLINE_DATA i' = MAX_INLINE_DATA i.
Proof.
  intros [[K1 K2] _ _ _]. unfold MAX_INLINE_DATA, CUR_ADDRS_PER_INODE, get_inline_xattr_addrs, get_extra_isize. by rewrite K1, K2.
Qed.

Lemma area_wf_keeps i i' d : area_wf i d -> keeps i i' -> area_wf i' d.
Proof.
  intros [W1 W2 W3 W4 W5 W6 W7] Hk. pose proof (inline_geom _ _ Hk) as Hm. destruct Hk as [[K1 K2] _ _ _]. split; try done.
  - unfold geom_ok. by rewrite K1, K2.
  - unfold NR_INLINE_DENTRY. rewrite Hm. exact W2.
  - unfold INLINE_DENTRY_BITMAP_SIZE, NR_INLINE_DENTRY. rewrite Hm. exact W3.
Qed.

Lemma inline_size i d : area_wf i d -> 0 <= MAX_INLINE_DATA i < 2 ^ 63.
Proof.
  intros Ha. destruct (aw_max _ _ Ha) as [H1 [_ H2]]. rewrite H1 in H2. unfold NR_INLINE_DENTRY, SIZE_OF_DIR_ENTRY, F2FS_SLOT_LEN, NR_DENTRY_IN_BLOCK in H2.
  pose proof (u64_range (4 * (CUR_ADDRS_PER_INODE i - get_inline_xattr_addrs i - DEF_INLINE_RESERVED_SIZE))) as Hr. fold (MAX_INLINE_DATA i) in Hr.
  revert Hr H2. generalize (MAX_INLINE_DATA i). intros m Hr H2. change ((11 + 8) * 8 + 1) with 153 in H2. zdiv.
Qed.

Lemma pages_wf_none i cl : geom_ok i -> 0 <= cl <= i_current_depth i -> i_current_depth i <= MAX_DIR_HASH_DEPTH -> 0 <= i_size i < 2 ^ 63 -> pages_wf i ∅ cl.
Proof.
  intros. split; [done..| | |].
  - intros b d Hd. by rewrite lookup_empty in Hd.
  - intros b p nm de (d & Hd & _). by rewrite lookup_empty in Hd.
  - intros b p de b' p' de' nm (d & Hd & _). by rewrite lookup_empty in Hd.
Qed.

Lemma rehash_ok env st : env_ok env -> dir_wf st -> f2fs_has_inline_dentry (di st) = true ->
  let '(err, st') := f2fs_move_rehashed_dirents env st in converted st st' err.
Proof.
  intros Henv Hw Hi. pose proof Hw as Hw2. unfold dir_wf in Hw2. rewrite Hi in Hw2. destruct Hw2 as (Ha & Hpg & Hc & Hd & Hs).
  unfold f2fs_move_rehashed_dirents. destruct (c_true (e_alloc env)).
  { split; [by right|done|done|done|by rewrite Hi]. }
  cbv zeta. set (st0 := truncate_inline_inode st).
  assert (K0 : keeps (di st) (di st0)) by (split; [split|..]; try done; by apply other_flag).
  assert (Hw0 : pages_wf (di st0) (pages st0) (clevel st0)).
  { change (pages st0) with (pages st). change (clevel st0) with (clevel st). rewrite Hpg, Hc.
    apply pages_wf_none; [apply Ha|change (i_current_depth (di st0)) with (i_current_depth (di st)); lia..|done]. }
  pose proof (aw_wf _ _ Ha) as Hdw. unfold f2fs_add_inline_entries.
  pose proof (add_loop_ok env Henv (area st) Hdw (aw_entry _ _ Ha) (aw_uniq _ _ Ha) (S (Z.to_nat (d_max (area st)))) st0 0 Hw0 (boundary_0 _ Hdw) ltac:(lia)) as H.
  destruct (add_inline_loop _ env st0 (area st) 0) as [err st1]. destruct H as (I1 & K1 & C1 & W1 & N1).
  { intros nm ino ft. change (pages st0) with (pages st). rewrite Hpg. split.
    - intros (b & p & de & (d & Hx & _) & _). by rewrite lookup_empty in Hx.
    - intros (p & de & Hp & (Hst & _) & _). apply is_start_iff in Hst. lia. }
  pose proof (keeps_trans _ _ _ K0 K1) as K. pose proof (kp_inline _ _ K) as Hi1. rewrite Hi in Hi1.
  assert (Ecl : clevel st1 = 0) by (rewrite C1; done).
  destruct (c_true err) eqn:Ee.
  - rewrite Ee. cbv zeta. apply c_true_true in Ee.
    set (st2 := on_di (set_i_current_depth 0) (set_area (area st) (set_pages ∅ st1))).
    set (st3 := on_di (set_i_size (MAX_INLINE_DATA (di st2))) st2).
    assert (K3 : keeps (di st) (di st3)) by (destruct K as [[? ?] ? ? ?]; split; [split|..]; done).
    assert (Hi3 : f2fs_has_inline_dentry (di st3) = true) by (by rewrite (kp_inline _ _ K3)).
    split; [done|apply (kp_ino _ _ K3)| | |rewrite Hi3; by destruct (Z.eqb_spec err 0)].
    + unfold dir_wf. rewrite Hi3. split_and!; [by apply (area_wf_keeps (di st))|done|exact Ecl|done|done|..];
        change (i_size (di st3)) with (MAX_INLINE_DATA (di st2)); rewrite (inline_geom (di st) (di st2)) by (destruct K as [[? ?] ? ? ?]; split; [split|..]; done);
        by apply (inline_size _ (area st)).
    + intros nm ino ft. by rewrite !names_inline.
  - apply c_true_false in Ee. change (c_true 0) with false. cbv iota beta.
    set (st2 := on_di (clear_flag_bit FI_INLINE_DENTRY) st1).
    assert (Hi2 : f2fs_has_inline_dentry (di st2) = false) by (apply (cleared_flag FI_INLINE_DENTRY (di st1)); done).
    split; [by left|apply (kp_ino _ _ K)| | |done].
    + unfold dir_wf. rewrite Hi2. destruct W1. by split.
    + intros nm ino ft. rewrite names_regular, names_inline by done. change (pages st2) with (pages st1). rewrite (N1 Ee). split.
      * intros (p & de & _ & Hx). by exists p, de.
      * intros (p & de & He & Hx). exists p, de. split; [|done]. destruct He as (Hst & _). apply is_start_iff in Hst. lia.
Qed.

Lemma convert_ok env st : env_ok env -> dir_wf st -> f2fs_has_inline_dentry (di st) = true ->
  let '(err, st') := f2fs_convert_inline_dir env st in converted st st' err.
Proof.
  intros Henv Hw Hi. unfold f2fs_convert_inline_dir. destruct (Z.eqb_spec (i_dir_level (di st)) 0); [by apply move_inline_ok|by apply rehash_ok].
Qed.

(** ** Adding a name *)

(** What adding a name to a directory does. *)
Record added (st st' : dir_state) (err : Z) (name : list Z) (ino mode : Z) : Prop := {
  ad_err : err <= 0;
  ad_ino : i_ino (di st') = i_ino (di st);
  ad_wf : dir_wf st';
  ad_fail : err <> 0 -> same_names st st';
  ad_done : err = 0 -> (forall i f, ~ names st name i f) /\
    forall nm i f, names st' nm i f <-> nm = name /\ i = ino /\ f = mode_type mode \/ names st nm i f
}.

Lemma regular_added env st c s name ino mode : env_ok env -> dir_wf st -> f2fs_has_inline_dentry (di st) = false -> 0 < zlen name ->
  (forall i f, ~ names st name i f) ->
  let '(err, (st', _, _)) := f2fs_add_regular_entry env (st, c, s) name ino mode in added st st' err name ino mode.
Proof.
  intros Henv Hw Hi Hn Hno. pose proof Hw as Hw2. unfold dir_wf in Hw2. rewrite Hi in Hw2.
  assert (Hno2 : forall b p de, ~ page_entry (pages st) b p name de).
  { intros b p de He. apply (Hno (de_ino de) (file_type de)). rewrite names_regular by done. by exists b, p, de. }
  pose proof (add_regular_ok env st c s name ino mode Henv Hw2 Hn Hno2) as H.
  destruct (f2fs_add_regular_entry _ _ _ _ _) as [err [[st' c'] s']]. destruct H as [A1 A2 A3 A4 A5 A6].
  assert (Hi' : f2fs_has_inline_dentry (di st') = false) by (rewrite (kp_inline _ _ A2); done). split.
  - destruct A1 as [->|[? _]]; lia.
  - apply A2.
  - unfold dir_wf. by rewrite Hi'.
  - intros He nm i f. rewrite !names_regular by done. by apply same_entries_names, A5.
  - intros He. split; [done|]. intros nm i f. rewrite !names_regular by done. by apply plus_names, A6.
Qed.

Lemma used_range_tail ino mode name hash pos d d' k : entry_added ino mode name hash pos d d' ->
  free_run d pos (GET_DENTRY_SLOTS (zlen name)) -> d_max d <= k -> 0 <= k -> used d k = false -> used d' k = false.
Proof.
  intros Ha (_ & H1 & _) Hk H0 Hu. rewrite (ea_used _ _ _ _ _ _ _ Ha), Hu by done.
  destruct (Z.leb_spec pos k), (Z.ltb_spec k (pos + GET_DENTRY_SLOTS (zlen name))); try lia; done.
Qed.

Lemma area_wf_add i d ino mode name pos : area_wf i d -> 0 < zlen name -> free_run d pos (GET_DENTRY_SLOTS (zlen name)) ->
  (forall p de, ~ entry d p name de) ->
  let d' := f2fs_update_dentry ino mode d name (name_hash name) pos in
  area_wf i d' /\ forall p nm de, entry d' p nm de <->
    p = pos /\ nm = name /\ de = new_de ino mode name (name_hash name) (de_at d pos) \/ entry d p nm de.
Proof.
  intros Ha Hn Hr Hno. pose proof (aw_wf _ _ Ha) as Hw. pose proof (update_added ino mode d name (name_hash name) pos Hw Hn Hr) as Hx.
  set (d' := f2fs_update_dentry _ _ _ _ _ _) in *. pose proof (added_entry _ _ _ _ _ _ _ Hw Hn Hr Hx) as Hiff. cbv zeta. split; [|done].
  destruct Ha as [W1 W2 W3 W4 W5 W6 W7]. split.
  - done.
  - by rewrite (ea_max _ _ _ _ _ _ _ Hx).
  - by rewrite (proj1 (ea_lens _ _ _ _ _ _ _ Hx)).
  - exact (added_wf _ _ _ _ _ _ _ Hw Hn Hr Hx).
  - intros k Hk. rewrite (ea_max _ _ _ _ _ _ _ Hx) in Hk. apply (used_range_tail _ _ _ _ _ _ _ k Hx Hr Hk); [lia|by apply W5].
  - intros p nm de [(-> & -> & ->)|He]%Hiff; [split; [done|apply mode_type_range]|by apply (W6 p)].
  - intros p de p' de' nm [(-> & -> & _)|H1]%Hiff [(-> & E & _)|H2]%Hiff; [done|by apply Hno in H2| |by eapply W7].
    rewrite E in H1. by apply Hno in H1.
Qed.

Lemma inline_added env st c s name ino mode : env_ok env -> dir_wf st -> f2fs_has_inline_dentry (di st) = true -> 0 < zlen name ->
  (forall i f, ~ names st name i f) ->
  let '(err, (st', _, _)) := f2fs_add_inline_entry env (st, c, s) name ino mode in
  if err =? - EAGAIN then converted st st' 0 else added st st' err name ino mode.
Proof.
  intros Henv Hw Hi Hn Hno. pose proof Hw as Hw2. unfold dir_wf in Hw2. rewrite Hi in Hw2. destruct Hw2 as (Ha & Hpg & Hc & Hd & Hsz).
  unfold f2fs_add_inline_entry. destruct (slots_fit _ Hn) as [Hs1 _]. pose proof (eo_neg env Henv) as (Nn & _). pose proof (eo_again env Henv) as (Nag & _).
  assert (Hfail : forall err st', err <= 0 -> err <> 0 -> err <> - EAGAIN -> same_names st st' -> dir_wf st' -> i_ino (di st') = i_ino (di st) ->
    if err =? - EAGAIN then converted st st' 0 else added st st' err name ino mode).
  { intros err st' H1 H2 H3 H4 H5 H6. destruct (Z.eqb_spec err (- EAGAIN)); [done|]. by split. }
  destruct (c_true (e_node env)) eqn:E. { apply c_true_true in E. by apply Hfail. }
  destruct (room_ok (d_bitmap (area st)) (GET_DENTRY_SLOTS (zlen name)) (d_max (area st))) as [Hr _]; [pose proof (aw_max _ _ Ha); lia|done|].
  set (pos := room_for_filename _ _ _) in *. destruct (Z.leb_spec (d_max (area st)) pos).
  - pose proof (convert_ok env st Henv Hw Hi) as H1. destruct (f2fs_convert_inline_dir env st) as [err st1].
    destruct H1 as [C1 C2 C3 C4 C5]. destruct (c_true err) eqn:Ee.
    + apply c_true_true in Ee. destruct C1 as [|[? ?]]; [done|]. apply Hfail; [lia|done..].
    + apply c_true_false in Ee. subst err. rewrite Z.eqb_refl. split; [by left|done..].
  - destruct Hr as [[_ Hr]|]; [|lia].
    assert (Hcc : exists err c1 s1, match c with Some c => let '(err, c, s) := init_inode_metadata env (di st) (Some name) c s in (err, Some c, s) | None => (0, None, s) end = (err, c1, s1) /\ err <= 0 /\ err <> - EAGAIN).
    { destruct c as [c|]; [|by do 3 eexists]. pose proof (metadata_err env (di st) (Some name) c s Henv) as He.
      destruct (init_inode_metadata _ _ _ _ _) as [[e c'] s']. by do 3 eexists. }
    destruct Hcc as (err & c1 & s1 & -> & He & Hna). destruct (c_true err) eqn:Ee.
    { apply c_true_true in Ee. by apply Hfail. }
    cbv zeta. set (d' := f2fs_update_dentry _ _ _ _ _ _). set (st2 := set_area d' st). set (oc := option_map _ c1).
    destruct (update_parent_ok env st2 oc 0) as (K3 & S3 & D3 & P3 & A3 & C3).
    destruct (update_parent_metadata env st2 oc 0) as [st3 c3]. cbn [fst] in *. cbv beta iota. change (0 =? - EAGAIN) with false. cbv iota.
    assert (Hno2 : forall p de, ~ entry (area st) p name de).
    { intros p de He2. apply (Hno (de_ino de) (file_type de)). rewrite names_inline by done. by exists p, de. }
    destruct (area_wf_add (di st) (area st) ino mode name pos Ha Hn Hr Hno2) as [Ha2 Hiff]. fold d' in Ha2, Hiff.
    assert (Hi3 : f2fs_has_inline_dentry (di st3) = true) by (rewrite (kp_inline _ _ K3); done). split.
    + done.
    + apply (kp_ino _ _ K3).
    + unfold dir_wf. rewrite Hi3, A3, P3, C3, D3, S3. split_and!; [by apply (area_wf_keeps (di st))|done|done|done|done|apply Hsz|apply Hsz].
    + done.
    + intros _. split; [done|]. intros nm i f. rewrite !names_inline by done. rewrite A3. change (area st2) with d'. split.
      * intros (p & de & [(-> & -> & ->)|He2]%Hiff & <- & <-); [by left|right; by exists p, de].
      * intros [(-> & -> & ->)|(p & de & He2 & Hx)].
        -- exists pos, (new_de ino mode name (name_hash name) (de_at (area st) pos)). split; [apply Hiff; by left|done].
        -- exists p, de. split; [apply Hiff; by right|done].
Qed.

Lemma do_add_ok env st c s name ino mode : env_ok env -> dir_wf st -> 0 < zlen name -> (forall i f, ~ names st name i f) ->
  let '(err, (st', _, _)) := __f2fs_do_add_link env (st, c, s) name ino mode in added st st' err name ino mode.
Proof.
  intros Henv Hw Hn Hno. unfold __f2fs_do_add_link. cbn [fst]. destruct (f2fs_has_inline_dentry (di st)) eqn:Hi.
  - pose proof (inline_added env st c s name ino mode Henv Hw Hi Hn Hno) as H.
    destruct (f2fs_add_inline_entry env (st, c, s) name ino mode) as [err [[st1 c1] s1]].
    destruct (Z.eqb_spec err (- EAGAIN)); [|exact H]. destruct H as [C1 C2 C3 C4 C5]. cbn in C5.
    assert (Hno1 : forall i f, ~ names st1 name i f) by (intros i f Hx%C4; by apply Hno in Hx).
    pose proof (regular_added env st1 c1 s1 name ino mode Henv C3 C5 Hn Hno1) as H2.
    destruct (f2fs_add_regular_entry _ _ _ _ _) as [err2 [[st2 c2] s2]]. destruct H2 as [A1 A2 A3 A4 A5]. split.
    + done.
    + congruence.
    + done.
    + intros He nm i f. by rewrite (A4 He nm i f), (C4 nm i f).
    + intros He. split; [done|]. intros nm i f. by rewrite (proj2 (A5 He) nm i f), (C4 nm i f).
  - rewrite Z.eqb_refl. by apply regular_added.
Qed.

(** The task that looked a name up in vain adds without looking again. *)
Lemma add_link_ok env st c s name ino mode : env_ok env -> dir_wf st -> 0 < zlen name ->
  (same_task st = true -> forall i f, ~ names st name i f) ->
  let '(err, (st', _, _)) := __f2fs_add_link env (st, c, s) name ino mode in
  added st st' err name ino mode /\
  (forall i f, names st name i f -> err = - EEXIST \/ err = (__f2fs_find_entry env st name).1.2 /\ err <> 0).
Proof.
  intros Henv Hw Hn Ht. unfold __f2fs_add_link.
  assert (Hs : exists de err st1, (if same_task st then (None, 0, st) else
      let '(de, err, st) := __f2fs_find_entry env st name in (de, err, set_task false st)) = (de, err, st1) /\
    i_ino (di st1) = i_ino (di st) /\ dir_wf st1 /\ same_names st st1 /\ err <= 0 /\
    (err <> 0 -> err = (__f2fs_find_entry env st name).1.2) /\ (de = None -> err = 0 -> forall i f, ~ names st name i f)).
  { destruct (same_task st).
    - exists None, 0, st. split_and!; [done..|by intros _ _; apply Ht].
    - pose proof (find_entry_ok env Henv st name Hw) as H. destruct (__f2fs_find_entry env st name) as [[de err] st1].
      destruct H as (Hh & Hw1 & He & H). exists de, err, (set_task false st1). destruct Hh as (Hd & _). split_and!; [done| | | | |done|].
      + by rewrite <- Hd.
      + exact Hw1.
      + intros nm i f. unfold names. split; intros (b & p & de' & Hx & Hy); exists b, p, de'; (split; [by apply He|done]).
      + destruct de as [[b p]|]; destruct H; lia.
      + intros -> Hz i f (b & p & de1 & Hx & _). by apply (proj2 H Hz) in Hx. }
  destruct Hs as (de & err & st1 & -> & Hino & Hw1 & Hsn & Hle & Herr & Hnone).
  destruct (bool_decide (is_Some de)) eqn:E1; [|destruct (c_true err) eqn:E2].
  - split; [|intros; by left]. by split.
  - apply c_true_true in E2. split; [by split|]. intros i f _. right. split; [by apply Herr|done].
  - apply c_true_false in E2. apply bool_decide_eq_false in E1. destruct de; [by destruct E1|]. specialize (Hnone eq_refl E2).
    assert (Hno1 : forall i f, ~ names st1 name i f) by (intros i f Hx%Hsn; by apply Hnone in Hx).
    pose proof (do_add_ok env st1 c s name ino mode Henv Hw1 Hn Hno1) as H.
    destruct (__f2fs_do_add_link _ _ _ _ _) as [err2 [[st2 c2] s2]]. destruct H as [A1 A2 A3 A4 A5]. split.
    + split; [done|congruence|done|..].
      * intros He nm i f. by rewrite (A4 He nm i f), (Hsn nm i f).
      * intros He. split; [done|]. intros nm i f. by rewrite (proj2 (A5 He) nm i f), (Hsn nm i f).
    + intros i f Hx. by apply Hnone in Hx.
Qed.

(** ** Removing and relinking a name *)

(** Fewer entries, in blocks that are well-formed. *)
Lemma pages_wf_fewer i i' pg pg' cl : pages_wf i pg cl -> keeps i i' -> i_size i' = i_size i -> i_current_depth i' = i_current_depth i ->
  (forall b d, pg' !! b = Some d -> dentries_wf d /\ exists d0, pg !! b = Some d0 /\ d_max d = d_max d0) ->
  (forall b p nm de, page_entry pg' b p nm de -> exists de0, page_entry pg b p nm de0 /\ (entry_ok nm de0 -> entry_ok nm de)) ->
  pages_wf i' pg' cl.
Proof.
  intros [W1 W2 W3 W4 W5 W6] [[K1 K2] K3 _ _] Hs Hd Hb He. split.
  - unfold geom_ok. by rewrite K1, K2.
  - by rewrite Hd.
  - by rewrite Hs.
  - intros b d Hx. destruct (Hb b d Hx) as (Hw & d0 & H0 & Hm). destruct (W4 b d0 H0) as (_ & ? & ? & ?). rewrite Hs, Hm. tauto.
  - intros b p nm de Hx. destruct (He _ _ _ _ Hx) as (de0 & H0 & Hok). destruct (W5 _ _ _ _ H0). rewrite K3, Hd. split; [by apply Hok|done].
  - intros b p de b' p' de' nm H1 H2. destruct (He _ _ _ _ H1) as (? & H1' & _). destruct (He _ _ _ _ H2) as (? & H2' & _). by eapply W6.
Qed.

Lemma page_entry_at pg b d : pg !! b = Some d -> forall p nm de, page_entry pg b p nm de <-> entry d p nm de.
Proof. intros H p nm de. unfold page_entry. rewrite H. split; [by intros (? & [= <-] & ?)|by exists d]. Qed.

Lemma page_entry_insert pg b d b' p nm de : page_entry (<[b := d]> pg) b' p nm de <-> (b' = b /\ entry d p nm de \/ b' <> b /\ page_entry pg b' p nm de).
Proof.
  unfold page_entry. destruct (decide (b' = b)) as [->|Hne].
  - rewrite lookup_insert_eq. split; [intros (? & [= <-] & ?); by left|intros [[_ ?]|[? _]]; [by exists d|done]].
  - rewrite lookup_insert_ne by done. split; [by right|intros [[? _]|[_ ?]]; done].
Qed.

(** The slots of an entry cleared, in the pages or in the area. *)
Lemma cleared_pages i pg cl b d p : pages_wf i pg cl -> pg !! b = Some d -> is_start d p = true ->
  let d' := clear_slots p (slots_at d p) d in
  let pg' := <[b := d']> pg in
  pages_wf i pg' cl /\ forall b' p' nm de, page_entry pg' b' p' nm de <-> ~ (b' = b /\ p' = p) /\ page_entry pg b' p' nm de.
Proof.
  intros Hw Hd Hs. destruct (pw_block _ _ _ Hw b d Hd) as (Hdw & _). cbv zeta.
  pose proof (cleared_entry d p Hdw Hs) as Hc. pose proof (cleared_wf d p Hdw Hs) as Hcw. set (d' := clear_slots _ _ _) in *.
  assert (Hiff : forall b' p' nm de, page_entry (<[b := d']> pg) b' p' nm de <-> ~ (b' = b /\ p' = p) /\ page_entry pg b' p' nm de).
  { intros b' p' nm de. rewrite page_entry_insert. destruct (decide (b' = b)) as [->|Hne].
    - rewrite (page_entry_at pg b d Hd), Hc. naive_solver.
    - naive_solver. }
  split; [|done]. apply (pages_wf_fewer i i pg _ cl Hw); [apply keeps_refl|done|done|..].
  - intros b' d0. destruct (decide (b' = b)) as [->|Hne].
    + rewrite lookup_insert_eq. intros [= <-]. split; [done|by exists d].
    + rewrite lookup_insert_ne by done. intros H0. destruct (pw_block _ _ _ Hw b' d0 H0) as (? & _). split; [done|by exists d0].
  - intros b' p' nm de [_ Hx]%Hiff. by exists de.
Qed.

Lemma empty_next d : find_next_bit_le (d_bitmap d) (d_max d) 0 = d_max d -> 0 <= d_max d -> forall p, is_start d p = false.
Proof.
  intros H Hm p. destruct (is_start d p) eqn:E; [|done]. apply is_start_iff in E as (Hr & Hu & _).
  destruct (find_next_spec (d_bitmap d) (d_max d) 0) as (_ & _ & Hz); [lia|]. rewrite H in Hz. unfold used in Hu. by rewrite Hz in Hu.
Qed.

Lemma deleted_pages i pg cl b d : pages_wf i pg cl -> pg !! b = Some d -> (forall p, is_start d p = false) ->
  pages_wf i (delete b pg) cl /\ same_entries pg (delete b pg).
Proof.
  intros Hw Hd Hn.
  assert (Hs : same_entries pg (delete b pg)).
  { intros b' p nm de. unfold page_entry. destruct (decide (b' = b)) as [->|Hne].
    - rewrite lookup_delete_eq, Hd. split; [by intros (? & ? & _)|]. intros (? & [= <-] & (Hs & _)). by rewrite Hn in Hs.
    - by rewrite lookup_delete_ne. }
  split; [|done]. apply (pages_wf_fewer i i pg _ cl Hw); [apply keeps_refl|done|done|..].
  - intros b' d0 H0. apply lookup_delete_Some in H0 as [_ H0]. destruct (pw_block _ _ _ Hw b' d0 H0) as (? & _). split; [done|by exists d0].
  - intros b' p nm de Hx%Hs. by exists de.
Qed.

(** The directory after its child is unlinked. *)
Lemma drop_child_ok env st (inode : option child) s : exists st1 c1 s1, drop_child env st inode s = (st1, c1, s1) /\
  keeps (di st) (di st1) /\ i_size (di st1) = i_size (di st) /\ i_current_depth (di st1) = i_current_depth (di st) /\ same_rest st st1.
Proof.
  destruct inode as [c|]; [|do 3 eexists; split; [reflexivity|]; split_and!; [apply keeps_refl|done..]].
  unfold drop_child, f2fs_drop_nlink. cbv zeta. destruct (S_ISDIR (i_mode (c_inode c))); do 3 eexists; (split; [reflexivity|]); split_and!; try done;
    split; try split; done.
Qed.

Lemma set_pages_same pg st : pages st = pg -> set_pages pg st = st.
Proof. intros <-. by destruct st. Qed.

(** What removing a name does. *)
Record removed (st st' : dir_state) (name : list Z) : Prop := {
  rm_ino : i_ino (di st') = i_ino (di st);
  rm_wf : dir_wf st';
  rm_names : forall nm i f, names st' nm i f <-> nm <> name /\ names st nm i f
}.

Lemma entry_block st b p name de : dir_wf st -> dir_entry st b p name de ->
  exists d, block_of st b = Some d /\ is_start d p = true /\ dentries_wf d /\ entry d p name de.
Proof.
  unfold dir_wf, dir_entry, block_of. destruct (f2fs_has_inline_dentry (di st)).
  - intros (Ha & _) [-> He]. exists (area st). split_and!; [done|apply He|apply Ha|done].
  - intros Hw (d & Hd & He). exists d. split_and!; [done|apply He|by apply (pw_block _ _ _ Hw b d)|done].
Qed.

Lemma delete_regular_ok env st c s b p name de : dir_wf st -> f2fs_has_inline_dentry (di st) = false -> dir_entry st b p name de ->
  let '(st', _, _) := f2fs_delete_entry env (b, p) st c s in removed st st' name.
Proof.
  intros Hw Hi He. destruct (entry_block st b p name de Hw He) as (d & Hbo & Hs & Hdw & Hen). pose proof He as He2. unfold dir_entry in He2. rewrite Hi in He2.
  unfold f2fs_delete_entry. unfold block_of in Hbo. rewrite Hi in Hbo |- *. rewrite Hbo. pose proof Hw as Hw2. unfold dir_wf in Hw2. rewrite Hi in Hw2.
  cbv zeta. fold (slots_at d p). set (d' := clear_slots p (slots_at d p) d).
  set (pg' := <[b := d']> (pages st)). set (st1 := touch env (set_pages pg' st)).
  destruct (cleared_pages _ _ _ b d p Hw2 Hbo Hs) as [Hw' Hiff]. fold d' pg' in Hw', Hiff.
  destruct (touch_ok env (set_pages pg' st)) as (Kt & St & Dt & (Pt & At & Ct)). fold st1 in Kt, St, Dt, Pt, At, Ct.
  set (s0 := add_ino_entry _ _ s). destruct (drop_child_ok env st1 c s0) as (st2 & c2 & s2 & -> & K2 & S2 & D2 & (P2 & A2 & C2)).
  set (gone := (_ =? NR_DENTRY_IN_BLOCK) && _).
  assert (K : keeps (di st) (di st2)) by (eapply keeps_trans; [exact Kt|exact K2]).
  assert (Hfin : forall pg2, pages_wf (di st) pg2 (clevel st) -> same_entries pg' pg2 -> removed st (set_pages pg2 st2) name).
  { intros pg2 Hpw Hse. assert (Hi2 : f2fs_has_inline_dentry (di (set_pages pg2 st2)) = false) by (etrans; [apply (kp_inline _ _ K)|done]). split.
    - apply (kp_ino _ _ K).
    - unfold dir_wf. rewrite Hi2. change (di (set_pages pg2 st2)) with (di st2). change (clevel (set_pages pg2 st2)) with (clevel st2).
      rewrite C2, Ct. apply (pages_wf_fewer (di st) (di st2) pg2 pg2 _ Hpw K); [by rewrite S2, St|by rewrite D2, Dt|..].
      + intros b' d0 H0. destruct (pw_block _ _ _ Hpw b' d0 H0) as (? & _). split; [done|by exists d0].
      + intros b' p' nm de' Hx. by exists de'.
    - intros nm i f. rewrite !names_regular by done. change (pages (set_pages pg2 st2)) with pg2. unfold page_names. split.
      + intros (b' & p' & de' & Hx%Hse%Hiff & Hy). destruct Hx as [Hne Hx]. split; [|by exists b', p', de'].
        intros ->. destruct (pw_uniq _ _ _ Hw2 _ _ _ _ _ _ _ Hx He2). tauto.
      + intros [Hne (b' & p' & de' & Hx & Hy)]. exists b', p', de'. split; [|done]. apply Hse, Hiff. split; [|done].
        intros [-> ->]. rewrite (page_entry_at _ _ _ Hbo) in Hx. destruct Hx as (_ & <- & _), Hen as (_ & <- & _). done. }
  destruct gone eqn:Eg.
  - rewrite P2, Pt. change (pages (set_pages pg' st)) with pg'. apply andb_true_iff in Eg as [Eg _]. apply Z.eqb_eq in Eg.
    destruct (pw_block _ _ _ Hw2 b d Hbo) as (_ & Hm & _).
    destruct (deleted_pages _ _ _ b d' Hw' (lookup_insert_eq _ _ _)) as [Hw3 Hse]; [|by apply Hfin].
    apply empty_next; change (d_max d') with (d_max d); rewrite Hm; done.
  - specialize (Hfin pg' Hw'). rewrite set_pages_same in Hfin; [by apply Hfin|]. etrans; [exact P2|exact Pt].
Qed.

Lemma delete_inline_ok env st c s b p name de : dir_wf st -> f2fs_has_inline_dentry (di st) = true -> dir_entry st b p name de ->
  let '(st', _, _) := f2fs_delete_entry env (b, p) st c s in removed st st' name.
Proof.
  intros Hw Hi He. destruct (entry_block st b p name de Hw He) as (d & Hbo & Hs & Hdw & Hen).
  unfold f2fs_delete_entry, f2fs_delete_inline_entry. unfold block_of in Hbo. rewrite Hi in Hbo |- *. pose proof Hw as Hw2. unfold dir_wf in Hw2. rewrite Hi in Hw2.
  destruct Hw2 as (Ha & Hpg & Hc & Hd & Hsz). destruct (b =? 0); [|done]. injection Hbo as <-.
  cbv zeta. fold (slots_at (area st) p). set (d' := clear_slots _ _ _). set (st1 := touch env (set_area d' st)).
  pose proof (cleared_entry _ p Hdw Hs) as Hce. pose proof (cleared_wf _ p Hdw Hs) as Hcw. fold d' in Hce, Hcw.
  destruct (touch_ok env (set_area d' st)) as (Kt & St & Dt & (Pt & At & Ct)). fold st1 in Kt, St, Dt, Pt, At, Ct.
  set (s0 := add_ino_entry _ _ s). destruct (drop_child_ok env st1 c s0) as (st2 & c2 & s2 & -> & K2 & S2 & D2 & (P2 & A2 & C2)).
  assert (K : keeps (di st) (di st2)) by (eapply keeps_trans; [exact Kt|exact K2]).
  assert (Hi2 : f2fs_has_inline_dentry (di st2) = true) by (etrans; [apply (kp_inline _ _ K)|done]). split.
  - apply (kp_ino _ _ K).
  - unfold dir_wf. rewrite Hi2, A2, P2, C2, D2, S2, At, Pt, Ct, Dt, St. split_and!; [|done|done|apply Hd|apply Hd|apply Hsz|apply Hsz].
    apply (area_wf_keeps (di st)); [|done]. destruct (cleared_bits (area st) p Hdw Hs) as (_ & Hl & Hu). fold d' in Hl, Hu.
    destruct Ha as [W1 W2 W3 W4 W5 W6 W7]. split; try done.
    + etrans; [exact Hl|done].
    + intros k Hk. change (d_max (area (set_area d' st))) with (d_max (area st)) in Hk. pose proof (dw_max _ Hdw).
      etrans; [apply Hu; lia|]. rewrite W5 by done. apply andb_false_r.
    + intros p' nm de' [_ Hx]%Hce. by apply (W6 p').
    + intros p1 de1 p2 de2 nm [_ H1]%Hce [_ H2]%Hce. by eapply W7.
  - intros nm i f. rewrite !names_inline by done. rewrite A2, At. change (area (set_area d' st)) with d'. split.
    + intros (p' & de' & [Hne Hx]%Hce & Hy). split; [|by exists p', de']. intros ->. apply Hne. by eapply (aw_uniq _ _ Ha).
    + intros [Hne (p' & de' & Hx & Hy)]. exists p', de'. split; [|done]. apply Hce. split; [|done]. intros ->.
      destruct Hx as (_ & <- & _), Hen as (_ & <- & _). done.
Qed.

Lemma delete_ok env st c s b p name de : dir_wf st -> dir_entry st b p name de ->
  let '(st', _, _) := f2fs_delete_entry env (b, p) st c s in removed st st' name.
Proof. intros Hw He. destruct (f2fs_has_inline_dentry (di st)) eqn:Hi; [by apply (delete_inline_ok env st c s b p name de)|by apply (delete_regular_ok env st c s b p name de)]. Qed.

(** An entry led to another inode. *)
Definition relink (ino mode : Z) (de : f2fs_dir_entry) : f2fs_dir_entry := set_de_type mode (set_de_ino ino de).

Section relink.
Context (ino mode p : Z) (d : f2fs_dentry_ptr) (Hw : dentries_wf d) (Hs : is_start d p = true).
Notation d' := (on_de p (relink ino mode) d).

Lemma relink_de q : de_at d' q = if p =? q then relink ino mode (de_at d p) else de_at d q.
Proof. apply de_at_on. rewrite (proj1 (dw_len _ Hw)). apply is_start_iff in Hs. lia. Qed.

Lemma relink_len q : name_len (de_at d' q) = name_len (de_at d q) /\ hash_code (de_at d' q) = hash_code (de_at d q).
Proof. rewrite relink_de. by destruct (Z.eqb_spec p q) as [->|]. Qed.

Lemma relink_start q : is_start d' q = is_start d q.
Proof. unfold is_start. by rewrite (proj1 (relink_len q)). Qed.

Lemma relink_slots q : slots_at d' q = slots_at d q.
Proof. unfold slots_at. by rewrite (proj1 (relink_len q)). Qed.

Lemma relink_wf : dentries_wf d'.
Proof.
  destruct Hw as [W1 W2 W3 W4 W5 W6]. split.
  - exact W1.
  - exact W2.
  - cbn [d_dentry d_filename d_max on_de set_d_dentry]. by rewrite zlen_zset.
  - intros q. rewrite relink_start, relink_slots, (proj1 (relink_len q)). apply W4.
  - intros q r. rewrite relink_start, relink_slots, (proj1 (relink_len r)). apply W5.
  - intros q Hq Hu. rewrite (proj1 (relink_len q)). intros Hz. destruct (W6 q Hq Hu Hz) as (r & Hr & Hx). exists r. by rewrite relink_start, relink_slots.
Qed.

Lemma relink_entry q nm de : entry d' q nm de <->
  q = p /\ nm = name_at d p /\ de = relink ino mode (de_at d p) \/ q <> p /\ entry d q nm de.
Proof.
  unfold entry. rewrite relink_start. assert (Hn : name_at d' q = name_at d q) by (unfold name_at; by rewrite (proj1 (relink_len q))).
  rewrite Hn, relink_de. destruct (Z.eqb_spec p q) as [->|].
  - split; [intros (_ & <- & <-); by left|intros [(_ & -> & ->)|[? _]]; done].
  - split; [by right|intros [(-> & _)|[_ ?]]; done].
Qed.
End relink.

Record relinked (st st' : dir_state) (name : list Z) (ino mode : Z) : Prop := {
  rl_ino : i_ino (di st') = i_ino (di st);
  rl_wf : dir_wf st';
  rl_names : forall nm i f, names st' nm i f <-> nm = name /\ i = ino /\ f = mode_type mode \/ nm <> name /\ names st nm i f
}.

Lemma set_link_ok env st b p name de ino mode : dir_wf st -> dir_entry st b p name de ->
  relinked st (f2fs_set_link env st (b, p) ino mode) name ino mode.
Proof.
  intros Hw He. destruct (entry_block st b p name de Hw He) as (d & Hbo & Hs & Hdw & Hen).
  pose proof Hw as Hw2. pose proof He as He2. unfold dir_wf in Hw2. unfold dir_entry in He2. cbn [f2fs_set_link]. rewrite Hbo. unfold block_of in Hbo. unfold put_block.
  pose proof (relink_entry ino mode p d Hdw Hs) as Hre. pose proof (relink_wf ino mode p d Hdw Hs) as Hrw.
  fold (relink ino mode). set (d' := on_de p (relink ino mode) d) in *. assert (Hnm : name_at d p = name) by apply Hen.
  assert (Hok : forall nm0 de0, entry_ok nm0 de0 -> entry_ok nm0 (relink ino mode de0)).
  { intros nm0 de0 [Hh _]. split; [done|apply mode_type_range]. }
  destruct (f2fs_has_inline_dentry (di st)) eqn:Hi.
  - destruct Hw2 as (Ha & Hpg & Hc & Hd & Hsz). destruct (b =? 0); [|done]. injection Hbo as <-.
    destruct (touch_ok env (set_area d' st)) as (Kt & St & Dt & (Pt & At & Ct)). set (st1 := touch env (set_area d' st)) in *.
    assert (Hi2 : f2fs_has_inline_dentry (di st1) = true) by (etrans; [apply (kp_inline _ _ Kt)|done]). split.
    + apply (kp_ino _ _ Kt).
    + unfold dir_wf. rewrite Hi2, At, Pt, Ct, Dt, St. split_and!; [|done|done|apply Hd|apply Hd|apply Hsz|apply Hsz].
      apply (area_wf_keeps (di st)); [|done]. destruct Ha as [W1 W2 W3 W4 W5 W6 W7]. split; try done.
      * intros q nm de0 [(-> & -> & ->)|[_ Hx]]%Hre; [by apply Hok, (W6 p)|by apply (W6 q)].
      * intros q1 de1 q2 de2 nm H1 H2.
        assert (Hx : forall q de0, entry d' q nm de0 -> exists de3, entry (area st) q nm de3).
        { intros q de0 [(-> & -> & ->)|[_ Hx]]%Hre; [by exists (de_at (area st) p)|by exists de0]. }
        destruct (Hx _ _ H1) as [? ?], (Hx _ _ H2) as [? ?]. by eapply W7.
    + intros nm i f. rewrite !names_inline by done. rewrite At. change (area (set_area d' st)) with d'. split.
      * intros (q & de0 & [(-> & -> & ->)|[Hne Hx]]%Hre & <- & <-); [left; by rewrite Hnm|]. right. split; [|by exists q, de0].
        intros ->. apply Hne. by eapply (aw_uniq _ _ Ha).
      * intros [(-> & -> & ->)|[Hne (q & de0 & Hx & Hy)]].
        -- exists p, (relink ino mode (de_at (area st) p)). split; [apply Hre; left; by rewrite Hnm|done].
        -- exists q, de0. split; [apply Hre; right; split; [|done]|done]. intros ->. destruct Hx as (_ & <- & _). done.
  - set (pg' := <[b := d']> (pages st)).
    destruct (touch_ok env (set_pages pg' st)) as (Kt & St & Dt & (Pt & At & Ct)). set (st1 := touch env (set_pages pg' st)) in *.
    assert (Hi2 : f2fs_has_inline_dentry (di st1) = false) by (etrans; [apply (kp_inline _ _ Kt)|done]).
    assert (Hiff : forall b' q nm de0, page_entry pg' b' q nm de0 <->
      b' = b /\ q = p /\ nm = name /\ de0 = relink ino mode (de_at d p) \/ ~ (b' = b /\ q = p) /\ page_entry (pages st) b' q nm de0).
    { intros b' q nm de0. unfold pg'. rewrite page_entry_insert, Hre, Hnm. destruct (decide (b' = b)) as [->|]; [|naive_solver].
      rewrite (page_entry_at _ _ _ Hbo). naive_solver. }
    split.
    + apply (kp_ino _ _ Kt).
    + unfold dir_wf. rewrite Hi2, Pt, Ct. change (pages (set_pages pg' st)) with pg'. change (clevel (set_pages pg' st)) with (clevel st).
      apply (pages_wf_fewer (di st) (di st1) (pages st) pg' _ Hw2 Kt St Dt).
      * intros b' d0. unfold pg'. destruct (decide (b' = b)) as [->|Hne].
        -- rewrite lookup_insert_eq. intros [= <-]. split; [done|by exists d].
        -- rewrite lookup_insert_ne by done. intros H0. destruct (pw_block _ _ _ Hw2 b' d0 H0) as (? & _). split; [done|by exists d0].
      * intros b' q nm de0 [(-> & -> & -> & ->)|[_ Hx]]%Hiff; [|by exists de0]. exists de. split; [done|].
        destruct Hen as (_ & _ & <-). apply Hok.
    + intros nm i f. rewrite !names_regular by done. rewrite Pt. change (pages (set_pages pg' st)) with pg'. unfold page_names. split.
      * intros (b' & q & de0 & [(-> & -> & -> & ->)|[Hne Hx]]%Hiff & <- & <-); [by left|]. right. split; [|by exists b', q, de0].
        intros ->. apply Hne. destruct (pw_uniq _ _ _ Hw2 _ _ _ _ _ _ _ Hx He2). done.
      * intros [(-> & -> & ->)|[Hne (b' & q & de0 & Hx & Hy)]].
        -- exists b, p, (relink ino mode (de_at d p)). split; [apply Hiff; by left|done].
        -- exists b', q, de0. split; [apply Hiff; right; split; [|done]|done]. intros [-> ->].
           rewrite (page_entry_at _ _ _ Hbo) in Hx. destruct Hx as (_ & <- & _). done.
Qed.

(** ** Properties *)

(** The directory [st] is the map [m]. *)
Definition is_map (st : dir_state) (m : gmap (list Z) (Z * Z)) : Prop := dir_wf st /\ dir_map st m.

Lemma map_names st m nm ino ft : is_map st m -> m !! nm = Some (ino, ft) <-> names st nm ino ft.
Proof. intros [_ H]. apply H. Qed.

Lemma map_none st m nm : is_map st m -> m !! nm = None <-> forall i f, ~ names st nm i f.
Proof.
  intros H. split.
  - intros Hn i f Hx. apply (map_names _ _ _ _ _ H) in Hx. congruence.
  - intros Hn. destruct (m !! nm) as [[i f]|] eqn:E; [|done]. apply (map_names _ _ _ _ _ H) in E. by apply Hn in E.
Qed.

Lemma same_map st st' m : is_map st m -> dir_wf st' -> same_names st st' -> is_map st' m.
Proof. intros [_ H] Hw Hs. split; [done|]. intros nm i f. transitivity (names st nm i f); [apply H|symmetry; apply Hs]. Qed.

Lemma relinked_map st st' m name ino mode : is_map st m -> relinked st st' name ino mode -> is_map st' (<[name := (ino, mode_type mode)]> m).
Proof.
  intros Hm [_ Hw Hn]. split; [done|]. intros nm i f.
  transitivity (names st' nm i f); [|done]. rewrite Hn, <- (map_names _ _ _ _ _ Hm). destruct (decide (nm = name)) as [->|Hne].
  - rewrite lookup_insert_eq. naive_solver.
  - rewrite lookup_insert_ne by done. naive_solver.
Qed.

Lemma removed_map st st' m name : is_map st m -> removed st st' name -> is_map st' (delete name m).
Proof.
  intros Hm [_ Hw Hn]. split; [done|]. intros nm i f. transitivity (names st' nm i f); [|done]. rewrite Hn, <- (map_names _ _ _ _ _ Hm).
  rewrite lookup_delete_Some. naive_solver.
Qed.

Lemma added_map st st' m err name ino mode : is_map st m -> added st st' err name ino mode ->
  if err =? 0 then m !! name = None /\ is_map st' (<[name := (ino, mode_type mode)]> m) else is_map st' m.
Proof.
  intros Hm [_ _ Hw Hf Hd]. destruct (Z.eqb_spec err 0) as [->|Hne]; [|apply (same_map st); [done|done|by apply Hf]].
  destruct (Hd eq_refl) as [Hno Hn]. split; [by apply (map_none st)|]. split; [done|]. intros nm i f. transitivity (names st' nm i f); [|done].
  rewrite Hn, <- (map_names _ _ _ _ _ Hm). destruct (decide (nm = name)) as [->|Hx].
  - rewrite lookup_insert_eq, (proj2 (map_none st m name Hm) Hno). naive_solver.
  - rewrite lookup_insert_ne by done. naive_solver.
Qed.

Lemma found_names st b p name de : dir_entry st b p name de -> names st name (de_ino de) (file_type de).
Proof. intros H. by exists b, p, de. Qed.

Lemma entry_at_block st b p name de : dir_wf st -> dir_entry st b p name de -> exists d, block_of st b = Some d /\ de = de_at d p.
Proof. intros Hw He. destruct (entry_block st b p name de Hw He) as (d & Hb & _ & _ & (_ & _ & Hd)). by exists d. Qed.

(** A directory that was just made: nothing in it but, in the inline case, the
    cleared area. *)
Record fresh (st : dir_state) : Prop := {
  fr_geom : geom_ok (di st);
  fr_pages : pages st = ∅;
  fr_hint : clevel st = 0;
  fr_depth : i_current_depth (di st) = 1;
  fr_size : 0 <= i_size (di st) < 2 ^ 63;
  fr_area : f2fs_has_inline_dentry (di st) = true -> area st = empty_area (di st) /\ 2 <= NR_INLINE_DENTRY (di st) <= NR_DENTRY_IN_BLOCK
}.

Definition dots_map (ino mode pino pmode : Z) : gmap (list Z) (Z * Z) := {[dot := (ino, mode_type mode); dotdot := (pino, mode_type pmode)]}.

Lemma dot_ok ino mode nm : nm = dot \/ nm = dotdot -> entry_ok nm (new_de ino mode nm 0 de0).
Proof. intros H. split; [|apply mode_type_range]. destruct H as [->| ->]; reflexivity. Qed.

Lemma dots_lookup ino mode pino pmode nm i f : dots_map ino mode pino pmode !! nm = Some (i, f) <->
  nm = dot /\ i = ino /\ f = mode_type mode \/ nm = dotdot /\ i = pino /\ f = mode_type pmode.
Proof.
  unfold dots_map. destruct (decide (nm = dot)) as [->|H1].
  - rewrite lookup_insert_eq. naive_solver.
  - rewrite lookup_insert_ne by done. destruct (decide (nm = dotdot)) as [->|H2].
    + rewrite lookup_singleton_eq. naive_solver.
    + rewrite lookup_singleton_ne by done. naive_solver.
Qed.

Lemma zero_bucket dl : 0 <= dl -> in_bucket dl 0 0 0.
Proof. intros Hd. unfold in_bucket. rewrite Zmod_0_l. vm_compute. split; congruence. Qed.

Section newdir.
Context (ino mode pino pmode : Z).
Definition is_dots (nm : list Z) (p : Z) (de : f2fs_dir_entry) : Prop :=
  p = 0 /\ nm = dot /\ de = new_de ino mode dot 0 de0 \/ p = 1 /\ nm = dotdot /\ de = new_de pino pmode dotdot 0 de0.

Lemma is_dots_ok nm p de : is_dots nm p de -> entry_ok nm de.
Proof. intros [(_ & -> & ->)|(_ & -> & ->)]; apply dot_ok; tauto. Qed.

Lemma is_dots_uniq nm p de p' de' : is_dots nm p de -> is_dots nm p' de' -> p = p'.
Proof. intros [(-> & -> & _)|(-> & -> & _)] [(-> & ? & _)|(-> & ? & _)]; done. Qed.

Lemma is_dots_map nm i f : (exists p de, is_dots nm p de /\ de_ino de = i /\ file_type de = f) <-> dots_map ino mode pino pmode !! nm = Some (i, f).
Proof.
  rewrite dots_lookup. split.
  - intros (p & de & [(_ & -> & ->)|(_ & -> & ->)] & <- & <-); [by left|by right].
  - intros [(-> & -> & ->)|(-> & -> & ->)]; [exists 0, (new_de ino mode dot 0 de0)|exists 1, (new_de pino pmode dotdot 0 de0)]; (split; [|done]); unfold is_dots; tauto.
Qed.
End newdir.

Lemma new_dir_ok env (parent : inode) st : fresh st -> 0 <= i_dir_level (di st) ->
  let '(err, st') := make_empty_dir env parent st in
  if c_true err then st' = st else is_map st' (dots_map (i_ino (di st)) (i_mode (di st)) (i_ino parent) (i_mode parent)).
Proof.
  intros [F1 F2 F3 F4 F5 F6] Hl. unfold make_empty_dir. set (i := di st) in *.
  destruct (f2fs_has_inline_dentry i) eqn:Hi.
  - destruct (F6 eq_refl) as [F7 F8]. change (c_true 0) with false. cbv iota beta. unfold make_empty_inline_dir. fold i. rewrite F7.
    destruct (make_empty_ok (i_ino i) (i_mode i) (i_ino parent) (i_mode parent) (NR_INLINE_DENTRY i) (INLINE_DENTRY_BITMAP_SIZE i)) as (M1 & M2 & M3 & M4 & M5);
      [unfold INLINE_DENTRY_BITMAP_SIZE; zdiv|].
    fold (empty_area i) in M1, M2, M3, M4, M5. set (d := do_make_empty_dir _ _ _ _ (empty_area i)) in *. cbv zeta.
    assert (Ha : area_wf i d).
    { split; [done|lia| |done| | |].
      - rewrite M3. unfold INLINE_DENTRY_BITMAP_SIZE. rewrite Z2Nat.id; [done|zdiv].
      - intros k Hk. rewrite M5 by lia. destruct (Z.ltb_spec k 2); [lia|done].
      - intros p nm de He. apply M4 in He. by apply (is_dots_ok _ _ _ _ _ _ _ He).
      - intros p de p' de' nm H1 H2. apply M4 in H1, H2. by eapply (is_dots_uniq _ _ _ _ _ _ _ _ _ H1). }
    pose proof (inline_size _ _ Ha) as Hm.
    assert (Hst : exists sz, (if i_size i <? MAX_INLINE_DATA i then on_di (set_i_size (MAX_INLINE_DATA i)) (set_area d st) else set_area d st) =
      mk_dir (set_i_size sz i) ∅ d (chash st) 0 (same_task st) /\ 0 <= sz < 2 ^ 63).
    { destruct (Z.ltb_spec (i_size i) (MAX_INLINE_DATA i)); [exists (MAX_INLINE_DATA i)|exists (i_size i)]; (split; [|done]); unfold set_area, on_di; cbn; rewrite F2, F3; [done|].
      unfold i. by rewrite set_same_size. }
    destruct Hst as (sz & -> & Hsz). split.
    + unfold dir_wf. cbn [di area pages clevel]. change (f2fs_has_inline_dentry (set_i_size sz i)) with (f2fs_has_inline_dentry i). rewrite Hi.
      split_and!; [|done|done| | |apply Hsz|apply Hsz].
      * apply (area_wf_keeps i); [done|]. split; [split|..]; done.
      * cbn [i_current_depth set_i_size]. lia.
      * cbn [i_current_depth set_i_size]. unfold MAX_DIR_HASH_DEPTH. lia.
    + intros nm ino ft. rewrite <- is_dots_map. unfold dir_entry. cbn [di area].
      change (f2fs_has_inline_dentry (set_i_size sz i)) with (f2fs_has_inline_dentry i). rewrite Hi. split.
      * intros (p & de & He & Hx). exists 0, p, de. split; [split; [done|by apply M4]|done].
      * intros (b & p & de & [_ He] & Hx). exists p, de. split; [by apply M4|done].
  - destruct (c_true (e_child_dir env)) eqn:E; [by rewrite E|]. cbv zeta. change (c_true 0) with false. cbv iota beta.
    destruct (make_empty_ok (i_ino i) (i_mode i) (i_ino parent) (i_mode parent) NR_DENTRY_IN_BLOCK SIZE_OF_DENTRY_BITMAP) as (M1 & M2 & _ & M4 & _); [by vm_compute|].
    fold empty_dentry_block in M1, M2, M4. set (d := do_make_empty_dir _ _ _ _ empty_dentry_block) in *. rewrite F2. change (<[0:=d]> ∅) with ({[0 := d]} : gmap Z f2fs_dentry_ptr).
    assert (Hst : exists sz, (if i_size i <? PAGE_SIZE then on_di (set_i_size PAGE_SIZE) (set_pages {[0 := d]} st) else set_pages {[0 := d]} st) =
      mk_dir (set_i_size sz i) {[0 := d]} (area st) (chash st) 0 (same_task st) /\ PAGE_SIZE <= sz < 2 ^ 63).
    { assert (PAGE_SIZE = 4096) by done. destruct (Z.ltb_spec (i_size i) PAGE_SIZE); [exists PAGE_SIZE|exists (i_size i)]; (split; [|lia]); unfold set_pages, on_di; cbn; rewrite F3; [done|].
      unfold i. by rewrite set_same_size. }
    destruct Hst as (sz & -> & Hsz).
    assert (Hpe : forall b p nm de, page_entry {[0 := d]} b p nm de <-> b = 0 /\ is_dots (i_ino i) (i_mode i) (i_ino parent) (i_mode parent) nm p de).
    { intros b p nm de. unfold page_entry. split.
      - intros (d0 & [<- <-]%lookup_singleton_Some & He). by apply M4 in He.
      - intros [-> He]. exists d. split; [apply lookup_singleton_eq|by apply M4]. }
    split.
    + unfold dir_wf. cbn [di pages clevel]. change (f2fs_has_inline_dentry (set_i_size sz i)) with (f2fs_has_inline_dentry i). rewrite Hi. split.
      * done.
      * cbn [i_current_depth set_i_size]. rewrite F4. unfold MAX_DIR_HASH_DEPTH. lia.
      * cbn [i_size set_i_size]. assert (PAGE_SIZE = 4096) by done. lia.
      * intros b d0 [<- <-]%lookup_singleton_Some. split_and!; [done|done|lia|done|]. cbn [i_size set_i_size]. lia.
      * intros b p nm de [-> He]%Hpe. pose proof (is_dots_ok _ _ _ _ _ _ _ He) as Hok. split; [done|]. exists 0. cbn [i_current_depth set_i_size]. rewrite F4.
        split; [lia|]. change (i_dir_level (set_i_size sz i)) with (i_dir_level i).
        replace (name_hash nm) with 0; [by apply zero_bucket|]. destruct He as [(_ & -> & _)|(_ & -> & _)]; reflexivity.
      * intros b p de b' p' de' nm [-> H1]%Hpe [-> H2]%Hpe. split; [done|]. by eapply is_dots_uniq.
    + intros nm ino ft. rewrite <- is_dots_map. unfold dir_entry. cbn [di pages].
      change (f2fs_has_inline_dentry (set_i_size sz i)) with (f2fs_has_inline_dentry i). rewrite Hi. split.
      * intros (p & de & He & Hx). exists 0, p, de. split; [by apply Hpe|done].
      * intros (b & p & de & [_ He]%Hpe & Hx). by exists p, de.
Qed.

Lemma env_bad_find env st m name : env_ok env -> is_map st m ->
  let '(de, err, st') := __f2fs_find_entry env st name in
  is_map st' m /\ match de with
                  | Some (b, p) => err = 0 /\ exists d, block_of st' b = Some d /\ m !! name = Some (de_ino (de_at d p), file_type (de_at d p)) /\
                                                       dir_entry st' b p name (de_at d p)
                  | None => err <= 0 /\ (err = 0 -> m !! name = None)
                  end.
Proof.
  intros Henv Hm. pose proof (find_entry_ok env Henv st name (proj1 Hm)) as H. destruct (__f2fs_find_entry env st name) as [[de err] st'].
  destruct H as (_ & Hw & He & H).
  assert (Hm' : is_map st' m).
  { apply (same_map st); [done|done|]. intros nm i f. unfold names. split; intros (b & p & de' & Hx & Hy); exists b, p, de'; (split; [by apply He|done]). }
  split; [done|]. destruct de as [[b p]|].
  - destruct H as (-> & de' & Hd). split; [done|]. apply He in Hd. destruct (entry_at_block _ _ _ _ _ Hw Hd) as (d & Hb & ->).
    exists d. split_and!; [done| |done]. apply (map_names _ _ _ _ _ Hm'). by apply (found_names _ b p).
  - destruct H as [Hle H]. split; [done|]. intros H0. apply (map_none _ _ _ Hm). intros i f (b & p & de' & Hx & _). by apply (H H0 b p de').
Qed.

(** C8. Looking a name up in a directory - through its levels, buckets and
    blocks, or in its inline area - is looking it up in the map the directory
    stands for: an entry found is the one of that name and holds its inode and
    type, and "not found" without an error is said only of a name that is not
    there.  The hint it leaves changes nothing. *)
Theorem find_entry_is_lookup (env : dir_env) (st : dir_state) (m : gmap (list Z) (Z * Z)) (name : list Z) : env_ok env -> is_map st m ->
  let '(de, err, st') := __f2fs_find_entry env st name in
  is_map st' m /\ match de with
                  | Some (b, p) => err = 0 /\ exists d, block_of st' b = Some d /\ m !! name = Some (de_ino (de_at d p), file_type (de_at d p)) /\
                                                       dir_entry st' b p name (de_at d p)
                  | None => err <= 0 /\ (err = 0 -> m !! name = None)
                  end.
Proof. apply env_bad_find. Qed.

(** C4. Adding a name is inserting it in the map, or nothing: on success the name
    was free and the directory stands for the map with it; on any error the map is
    what it was, also when an inline directory was converted to blocks on the way
    or failed to be.  A name that is there is refused with [-EEXIST] or with the
    error of the search.  (A task that has just looked a name up is trusted that
    it is free.) *)
Theorem add_link_is_insert (env : dir_env) (st : dir_state) (c : option child) (s : ino_state) (m : gmap (list Z) (Z * Z)) (name : list Z) (ino mode : Z) :
  env_ok env -> is_map st m -> 0 < zlen name -> (same_task st = true -> m !! name = None) ->
  let '(err, (st', _, _)) := __f2fs_add_link env (st, c, s) name ino mode in
  (if err =? 0 then m !! name = None /\ is_map st' (<[name := (ino, mode_type mode)]> m) else err < 0 /\ is_map st' m) /\
  (is_Some (m !! name) -> err = - EEXIST \/ err = (__f2fs_find_entry env st name).1.2 /\ err < 0).
Proof.
  intros Henv Hm Hn Ht. pose proof (add_link_ok env st c s name ino mode Henv (proj1 Hm) Hn) as H.
  specialize (H (fun E => proj1 (map_none st m name Hm) (Ht E))). destruct (__f2fs_add_link env (st, c, s) name ino mode) as [err [[st' c'] s']].
  destruct H as [Ha Hx]. pose proof (ad_err _ _ _ _ _ _ Ha) as Hle. pose proof (added_map _ _ _ _ _ _ _ Hm Ha) as Hmap. split.
  - destruct (Z.eqb_spec err 0); [done|split; [lia|done]].
  - intros [[i f] Hs]. apply (map_names _ _ _ _ _ Hm) in Hs. destruct (Hx i f Hs) as [|[? ?]]; [by left|right; split; [done|lia]].
Qed.

(** C9. The entry a search finds can be removed and led elsewhere: deleting it
    deletes exactly its name from the map, with all its slots and, when it was the
    last of its block, the block; relinking it changes the inode and the type of
    that name only. *)
Theorem found_entry_delete_relink (env : dir_env) (st st' : dir_state) (c : option child) (s : ino_state) (m : gmap (list Z) (Z * Z))
    (name : list Z) (loc : Z * Z) (ino mode : Z) :
  env_ok env -> is_map st m -> __f2fs_find_entry env st name = (Some loc, 0, st') ->
  (let '(st2, _, _) := f2fs_delete_entry env loc st' c s in is_map st2 (delete name m)) /\
  is_map (f2fs_set_link env st' loc ino mode) (<[name := (ino, mode_type mode)]> m).
Proof.
  intros Henv Hm Hf. pose proof (env_bad_find env st m name Henv Hm) as H. rewrite Hf in H. destruct loc as [b p].
  destruct H as (Hm' & _ & d & _ & _ & He). split.
  - pose proof (delete_ok env st' c s b p name _ (proj1 Hm') He) as Hd. destruct (f2fs_delete_entry env (b, p) st' c s) as [[st2 c2] s2].
    by apply (removed_map st').
  - apply (relinked_map st'); [done|]. exact (set_link_ok env st' b p name _ ino mode (proj1 Hm') He).
Qed.

(** C37. A new directory, inline or with a block of its own, is well-formed and
    holds [.] for itself and [..] for its parent and nothing else. *)
Theorem new_directory_holds_dots (env : dir_env) (parent : inode) (st : dir_state) : fresh st -> 0 <= i_dir_level (di st) ->
  let '(err, st') := make_empty_dir env parent st in
  if c_true err then st' = st else is_map st' (dots_map (i_ino (di st)) (i_mode (di st)) (i_ino parent) (i_mode parent)).
Proof. apply new_dir_ok. Qed.

(** *** At a concrete directory *)

Definition dir_env0 : dir_env := mk_denv (7, 0) 0 (fun _ => 0) (fun _ => 0) 0 (fun _ => 0) 0 0 0 0 empty_dentry_block.
Definition dir_inode (fl : Z) : inode := set_flags fl (set_i_current_depth 1 (set_i_mode 0x41ed (set_i_ino 9 inode0))).
(** With blocks, and inline. *)
Definition dir_fresh0 : dir_state := mk_dir (dir_inode 0) ∅ (empty_area (dir_inode 0)) 0 0 false.
Definition dir_fresh1 : dir_state := mk_dir (dir_inode (2 ^ FI_INLINE_DENTRY)) ∅ (empty_area (dir_inode 0)) 0 0 false.
Definition dir_made (st : dir_state) : dir_state := (make_empty_dir dir_env0 inode0 st).2.
Definition dir_map0 : gmap (list Z) (Z * Z) := dots_map 9 0x41ed 4 0x81a4.

Lemma dir_env0_ok : env_ok dir_env0.
Proof.
  split; cbn; unfold ENOENT, EAGAIN; [lia|intros b; lia|intros b; lia| |split; vm_compute; reflexivity].
  split_and!; [lia|intros b; lia|lia..].
Qed.

Lemma dir_geom0 fl : geom_ok (dir_inode fl).
Proof. split; [|split]; vm_compute; congruence. Qed.

Lemma dir_fresh0_ok : fresh dir_fresh0.
Proof. split; [apply dir_geom0|done..| |]; [split; vm_compute; congruence|discriminate]. Qed.

Lemma dir_fresh1_ok : fresh dir_fresh1.
Proof. split; [apply dir_geom0|done..| |]; [split; vm_compute; congruence|]. intros _. split; [done|]. split; vm_compute; congruence. Qed.

Lemma dir_made0 : is_map (dir_made dir_fresh0) dir_map0.
Proof. exact (new_dir_ok dir_env0 inode0 dir_fresh0 dir_fresh0_ok ltac:(vm_compute; congruence)). Qed.

Lemma dir_made1 : is_map (dir_made dir_fresh1) dir_map0.
Proof. exact (new_dir_ok dir_env0 inode0 dir_fresh1 dir_fresh1_ok ltac:(vm_compute; congruence)). Qed.

Lemma find_entry_is_lookup_witness :
  env_ok dir_env0 /\ is_map (dir_made dir_fresh0) dir_map0 /\
  (__f2fs_find_entry dir_env0 (dir_made dir_fresh0) dotdot).1 = (Some (0, 1), 0) /\
  dir_map0 !! dotdot = Some (4, 1) /\ dir_map0 !! [97] = None.
Proof.
  split; [exact dir_env0_ok|]. split; [exact dir_made0|].
  pose proof (find_entry_is_lookup dir_env0 (dir_made dir_fresh0) dir_map0 dotdot dir_env0_ok dir_made0) as H.
  pose proof (find_entry_is_lookup dir_env0 (dir_made dir_fresh0) dir_map0 [97] dir_env0_ok dir_made0) as H2.
  assert (E : (__f2fs_find_entry dir_env0 (dir_made dir_fresh0) dotdot).1 = (Some (0, 1), 0)) by (vm_compute; reflexivity).
  assert (E2 : (__f2fs_find_entry dir_env0 (dir_made dir_fresh0) [97]).1 = (None, 0)) by (vm_compute; reflexivity).
  split; [exact E|].
  destruct (__f2fs_find_entry dir_env0 (dir_made dir_fresh0) dotdot) as [de st1]. cbn [fst] in E. subst de.
  destruct (__f2fs_find_entry dir_env0 (dir_made dir_fresh0) [97]) as [de2 st2]. cbn [fst] in E2. subst de2.
  split; [|exact (proj2 (proj2 H2) eq_refl)]. destruct H as (_ & _ & d & _ & H & _). rewrite H.
  assert (Hm : dir_map0 !! dotdot = Some (4, 1)) by (vm_compute; reflexivity). rewrite <- H. exact Hm.
Defined.

(** An inline directory whose area has no room any more is converted. *)
Definition long_name (x : Z) : list Z := replicate 255 x.
Definition dir_full1 : dir_state :=
  let add st x := (__f2fs_do_add_link dir_env0 (st, None, mk_ino [] 0 false) (long_name x) (100 + x) 0x81a4).2.1.1 in
  foldl add (dir_made dir_fresh1) [97; 98; 99; 100; 101].

Lemma add_link_is_insert_witness :
  env_ok dir_env0 /\ is_map (dir_made dir_fresh1) dir_map0 /\ 0 < zlen [97] /\ dir_map0 !! [97] = None /\
  is_map (__f2fs_add_link dir_env0 (dir_made dir_fresh1, None, mk_ino [] 0 false) [97] 7 0x81a4).2.1.1 (<[[97] := (7, 1)]> dir_map0) /\
  f2fs_has_inline_dentry (di dir_full1) = true /\
  f2fs_has_inline_dentry (di (__f2fs_do_add_link dir_env0 (dir_full1, None, mk_ino [] 0 false) (long_name 102) 202 0x81a4).2.1.1) = false.
Proof.
  split; [exact dir_env0_ok|]. split; [exact dir_made1|]. split; [reflexivity|].
  pose proof (add_link_is_insert dir_env0 (dir_made dir_fresh1) None (mk_ino [] 0 false) dir_map0 [97] 7 0x81a4 dir_env0_ok dir_made1 eq_refl) as H.
  assert (Hn : dir_map0 !! [97] = None) by (vm_compute; reflexivity). specialize (H (fun _ => Hn)).
  split; [exact Hn|]. split; [|split; vm_compute; reflexivity].
  assert (E : (__f2fs_add_link dir_env0 (dir_made dir_fresh1, None, mk_ino [] 0 false) [97] 7 0x81a4).1 = 0) by (vm_compute; reflexivity).
  destruct (__f2fs_add_link dir_env0 (dir_made dir_fresh1, None, mk_ino [] 0 false) [97] 7 0x81a4) as [err [[st' c'] s']].
  cbn [fst] in E. subst err. exact (proj2 (proj1 H)).
Defined.

Lemma with_snd {A B} (x : A * B) (a : A) : x.1 = a -> x = (a, x.2).
Proof. intros <-. by destruct x. Qed.

Lemma found_entry_delete_relink_witness : exists st',
  env_ok dir_env0 /\ is_map (dir_made dir_fresh0) dir_map0 /\
  __f2fs_find_entry dir_env0 (dir_made dir_fresh0) dotdot = (Some (0, 1), 0, st') /\
  is_map (f2fs_set_link dir_env0 st' (0, 1) 12 0x41ed) (<[dotdot := (12, mode_type 0x41ed)]> dir_map0).
Proof.
  assert (E : (__f2fs_find_entry dir_env0 (dir_made dir_fresh0) dotdot).1 = (Some (0, 1), 0)) by (vm_compute; reflexivity).
  apply with_snd in E. revert E. generalize (__f2fs_find_entry dir_env0 (dir_made dir_fresh0) dotdot).2. intros st' E. exists st'.
  split; [exact dir_env0_ok|]. split; [exact dir_made0|]. split; [exact E|].
  exact (proj2 (found_entry_delete_relink dir_env0 (dir_made dir_fresh0) st' None (mk_ino [] 0 false) dir_map0 dotdot (0, 1) 12 0x41ed dir_env0_ok dir_made0 E)).
Defined.

Lemma new_directory_holds_dots_witness :
  fresh dir_fresh1 /\ 0 <= i_dir_level (di dir_fresh1) /\ is_map (make_empty_dir dir_env0 inode0 dir_fresh1).2 dir_map0.
Proof.
  split; [exact dir_fresh1_ok|]. assert (Hl : 0 <= i_dir_level (di dir_fresh1)) by (vm_compute; congruence). split; [exact Hl|].
  exact (new_directory_holds_dots dir_env0 inode0 dir_fresh1 dir_fresh1_ok Hl).
Defined.
