(* ===== verification/DirRead.v ===== *)
(** * Layout and listing of a directory (dir.c, inline.c)

    The buckets of the levels tile the blocks of the directory; the emptiness
    check before a directory is removed; reading a directory in pieces lists the
    names of its map, each once. *)

From S2P Require Import Prelude Blocks Hash Inode NodePath Orphan Dir DirOps DirMap.
From Stdlib Require Import ZArith Lia.
From stdpp Require Import base numbers option list gmap.
#[local] Open Scope Z_scope.
#[local] Open Scope c_scope.

(** ** Buckets *)

Definition level_start (dl level : Z) : Z :=
  foldl (fun bidx i => u64 (bidx + u32 (dir_buckets i dl * bucket_blocks i))) 0 (seqZ 0 level).

Lemma buckets_range l dl : 0 <= l -> 0 <= dl -> l + dl < 2 ^ 32 -> 1 <= dir_buckets l dl <= 2 ^ 30.
Proof.
  intros Hl Hd Hs. unfold dir_buckets, MAX_DIR_BUCKETS, MAX_DIR_HASH_DEPTH. change (63 / 2) with 31. rewrite (u32_small (l + dl)) by lia.
  destruct (Z.ltb_spec (l + dl) 31).
  - rewrite shiftl_1_pow2 by lia. assert (2 ^ (l + dl) <= 2 ^ 30) by (apply Z.pow_le_mono_r; lia).
    assert (0 < 2 ^ (l + dl)) by (apply Z.pow_pos_nonneg; lia). rewrite u32_small; [lia|]. change (2 ^ 30) with 1073741824 in *. lia.
  - change (Z.shiftl 1 (31 - 1)) with (2 ^ 30). lia.
Qed.

Lemma level_start_succ dl l : 0 <= l -> level_start dl (l + 1) = u64 (level_start dl l + u32 (dir_buckets l dl * bucket_blocks l)).
Proof. intros Hl. unfold level_start. rewrite seqZ_snoc, foldl_app by lia. cbn [foldl]. by rewrite Z.add_0_l. Qed.

Lemma level_start_exact dl l : 0 <= dl < 2 ^ 31 -> 0 <= l <= 31 ->
  0 <= level_start dl l <= l * 2 ^ 31 /\ (l < 31 -> level_start dl (l + 1) = level_start dl l + dir_buckets l dl * bucket_blocks l).
Proof.
  intros Hd [Hl Hl2]. revert l Hl Hl2. refine (natlike_ind (fun l : Z => l <= 31 -> _) _ _).
  - intros _. split; [done|]. intros _. rewrite level_start_succ by lia. pose proof (buckets_range 0 dl).
    change (level_start dl 0) with 0. change (bucket_blocks 0) with 2. rewrite u32_small by lia. rewrite u64_small by lia. done.
  - intros l Hl IH H1. rewrite <- Z.add_1_r. destruct IH as [IH1 IH2]; [lia|]. specialize (IH2 ltac:(lia)).
    assert (Hbb : forall x, x < 31 -> bucket_blocks x = 2) by (intros x Hx; unfold bucket_blocks; change (MAX_DIR_HASH_DEPTH / 2) with 31; destruct (Z.ltb_spec x 31); lia).
    pose proof (buckets_range l dl). rewrite (Hbb l) in IH2 by lia. split; [lia|]. intros Hlt.
    rewrite level_start_succ by lia. rewrite Hbb by lia. pose proof (buckets_range (l + 1) dl). rewrite (u32_small (_ * 2)) by lia. rewrite u64_small by lia. done.
Qed.

Lemma level_start_mono dl l l' : 0 <= dl < 2 ^ 31 -> 0 <= l -> l <= l' <= 31 -> level_start dl l <= level_start dl l'.
Proof.
  intros Hd Hl Hl2. replace l' with (l + (l' - l)) by lia. assert (Hn : 0 <= l' - l) by lia. assert (Hm : l + (l' - l) <= 31) by lia.
  revert Hm. generalize (l' - l) Hn. clear Hl2 Hn. refine (natlike_ind _ _ _).
  - intros _. rewrite Z.add_0_r. lia.
  - intros n Hn IH Hm. replace (l + Z.succ n) with (l + n + 1) by lia. rewrite (proj2 (level_start_exact dl (l + n) Hd ltac:(lia))) by lia.
    pose proof (buckets_range (l + n) dl). unfold bucket_blocks. destruct (_ <? _); lia.
Qed.

Lemma block_index_start l dl idx : dir_block_index l dl idx = u64 (level_start dl l + u32 (idx * bucket_blocks l)).
Proof. reflexivity. Qed.

Lemma block_index_exact l dl idx : 0 <= dl < 2 ^ 31 -> 0 <= l <= 31 -> 0 <= idx < dir_buckets l dl ->
  dir_block_index l dl idx = level_start dl l + idx * bucket_blocks l.
Proof.
  intros Hd Hl Hi. pose proof (buckets_range l dl). pose proof (proj1 (level_start_exact dl l Hd Hl)).
  rewrite block_index_start. assert (Hbb : bucket_blocks l = 2 \/ bucket_blocks l = 4) by (unfold bucket_blocks; destruct (_ <? _); lia).
  rewrite (u32_small (idx * _)) by nia. apply u64_small. nia.
Qed.

(** Block [b] belongs to bucket [i] of level [l]. *)
Definition in_bucket (dl l i b : Z) : Prop :=
  0 <= i < dir_buckets l dl /\ dir_block_index l dl i <= b < dir_block_index l dl i + bucket_blocks l.

(** The end of a level, the end of its last bucket. *)
Definition level_end (dl l : Z) : Z := dir_block_index l dl (dir_buckets l dl - 1) + bucket_blocks l.

Lemma bucket_blocks_pos l : 2 <= bucket_blocks l.
Proof. unfold bucket_blocks. destruct (_ <? _); lia. Qed.

Lemma level_end_exact dl l : 0 <= dl < 2 ^ 31 -> 0 <= l <= 31 ->
  level_end dl l = level_start dl l + dir_buckets l dl * bucket_blocks l.
Proof.
  intros Hd Hl. pose proof (buckets_range l dl). unfold level_end.
  rewrite block_index_exact by lia. ring.
Qed.

(** A block of level [l] lies in the bucket found by division. *)
Lemma level_cover dl l b : 0 <= dl < 2 ^ 31 -> 0 <= l <= 31 -> level_start dl l <= b < level_end dl l ->
  in_bucket dl l ((b - level_start dl l) / bucket_blocks l) b.
Proof.
  intros Hd Hl. rewrite level_end_exact by done. pose proof (bucket_blocks_pos l). intros Hb.
  set (k := bucket_blocks l) in *. set (i := (b - level_start dl l) / k).
  assert (Hi : 0 <= i < dir_buckets l dl) by (split; [apply Z.div_pos; lia|apply Z.div_lt_upper_bound; lia]).
  split; [done|]. rewrite block_index_exact by done. fold k.
  pose proof (Z.div_mod (b - level_start dl l) k ltac:(lia)) as Hdm. fold i in Hdm.
  pose proof (Z.mod_pos_bound (b - level_start dl l) k ltac:(lia)). lia.
Qed.

Lemma levels_cover dl L : 0 <= dl < 2 ^ 31 -> 0 <= L -> L <= 31 -> forall b, 0 <= b < level_end dl L ->
  exists l i, 0 <= l <= L /\ in_bucket dl l i b.
Proof.
  intros Hd. revert L. refine (natlike_ind (fun L : Z => L <= 31 -> _) _ _).
  - intros _ b Hb. exists 0. eexists. split; [lia|]. by apply level_cover.
  - intros L HL IH HL2 b Hb. destruct (Z.lt_ge_cases b (level_end dl L)) as [Hlt|Hge].
    + destruct (IH ltac:(lia) b ltac:(lia)) as (l & i & Hl & Hin). exists l, i. split; [lia|done].
    + exists (Z.succ L). eexists. split; [lia|]. apply level_cover; [done|lia|]. split; [|lia].
      rewrite <- Z.add_1_r, (proj2 (level_start_exact dl L Hd ltac:(lia))) by lia.
      by rewrite <- level_end_exact by lia.
Qed.

(** C36. The buckets of the first 32 levels tile the blocks of a directory: every
    block up to the end of a level L below 32 lies in a bucket of a level up to L,
    and in one only: the blocks of two buckets, of one level or of two, are
    disjoint.  From there on the 32-bit product of buckets and blocks wraps to 0,
    so level 32 lies on the blocks of level 31. *)
Theorem dir_levels_tile (dl : Z) : 0 <= dl < 2 ^ 31 ->
  (forall L b, 0 <= L <= 31 -> 0 <= b < level_end dl L -> exists l i, 0 <= l <= L /\ in_bucket dl l i b) /\
  (forall l1 i1 l2 i2, 0 <= l1 <= l2 -> l2 <= 31 -> 0 <= i1 < dir_buckets l1 dl -> 0 <= i2 < dir_buckets l2 dl ->
     dir_block_index l1 dl i1 + bucket_blocks l1 <= dir_block_index l2 dl i2 \/
     dir_block_index l2 dl i2 + bucket_blocks l2 <= dir_block_index l1 dl i1 \/ (l1 = l2 /\ i1 = i2)) /\
  dir_block_index 32 dl 0 = dir_block_index 31 dl 0.
Proof.
  intros Hd. split; [|split].
  - intros L b [HL HL2]. by apply levels_cover.
  - intros l1 i1 l2 i2 Hl Hl2 H1 H2. rewrite !block_index_exact by lia. pose proof bucket_blocks_pos as Hbb.
    destruct (Z.eq_dec l1 l2) as [->|Hne].
    + specialize (Hbb l2). destruct (Z.lt_trichotomy i1 i2) as [|[|]]; [left; nia|right; right; done|right; left; nia].
    + left. pose proof (level_start_mono dl (l1 + 1) l2 Hd ltac:(lia) ltac:(lia)) as Hm.
      rewrite (proj2 (level_start_exact dl l1 Hd ltac:(lia))) in Hm by lia. pose proof (Hbb l1). pose proof (Hbb l2).
      assert ((i1 + 1) * bucket_blocks l1 <= dir_buckets l1 dl * bucket_blocks l1) by (apply Z.mul_le_mono_nonneg_r; lia).
      assert (0 <= i2 * bucket_blocks l2) by (apply Z.mul_nonneg_nonneg; lia). lia.
  - rewrite !block_index_start, !Z.mul_0_l. change (u32 0) with 0. rewrite !Z.add_0_r.
    pose proof (level_start_succ dl 31 ltac:(lia)) as Hs. change (31 + 1) with 32 in Hs. rewrite Hs.
    assert (E : dir_buckets 31 dl = 2 ^ 30).
    { unfold dir_buckets. change (MAX_DIR_HASH_DEPTH / 2) with 31. rewrite u32_small by lia. destruct (Z.ltb_spec (31 + dl) 31); [lia|done]. }
    rewrite E. change (bucket_blocks 31) with 4. change (u32 (2 ^ 30 * 4)) with 0. rewrite Z.add_0_r. unfold u64. by rewrite Z.mod_mod by lia.
Qed.

Lemma dir_levels_tile_witness : 0 <= 3 < 2 ^ 31 /\
  (exists l i, 0 <= l <= 2 /\ in_bucket 3 l i 100) /\
  dir_block_index 1 3 15 + bucket_blocks 1 <= dir_block_index 2 3 0 /\ dir_block_index 32 3 0 = dir_block_index 31 3 0.
Proof.
  assert (H3 : 0 <= 3 < 2 ^ 31) by lia. split; [exact H3|]. destruct (dir_levels_tile 3 H3) as (H0 & H1 & H2).
  split; [apply H0; vm_compute; repeat split; congruence|]. split; [|exact H2].
  destruct (H1 1 15 2 0) as [H|[H|[H _]]]; [lia|lia|vm_compute; split; congruence|vm_compute; split; congruence|exact H| |lia].
  exfalso. revert H. vm_compute. intros H. apply H. reflexivity.
Defined.

(** ** Emptiness *)

Lemma next_none b size off : 0 <= off <= size -> size <= find_next_bit_le b size off -> forall i, off <= i < size -> test_bit_le i b = false.
Proof. intros Ho Hf i Hi. destruct (find_next_spec b size off Ho) as (H1 & _ & H3). apply H3. lia. Qed.

Section reading.
Context (env : dir_env) (Henv : env_ok env).

Lemma empty_blocks_ok fuel st bidx nblock : pages_wf (di st) (pages st) (clevel st) -> 0 <= bidx -> nblock - bidx <= Z.of_nat fuel ->
  empty_blocks fuel env st bidx nblock = true ->
  forall b p nm de, page_entry (pages st) b p nm de -> bidx <= b < nblock -> b = 0 /\ p < 2.
Proof.
  intros Hw. revert bidx. induction fuel as [|fuel IH]; intros bidx Hb Hf; cbn [empty_blocks]; [intros _ b p nm de _ Hr; lia|].
  destruct (Z.leb_spec nblock bidx); [intros _ b p nm de _ Hr; lia|]. unfold get_lock_data_page.
  pose proof (find_page_cases env Henv st bidx (pw_geom _ _ _ Hw) Hb) as Hc. destruct (find_data_page env st bidx) as [err|d].
  - destruct (Z.eqb_spec err (- ENOENT)) as [->|]; [|done]. intros He b p nm de Hp Hr. destruct (Z.eq_dec b bidx) as [->|].
    + destruct Hp as (d & Hd & _). by rewrite (proj2 Hc eq_refl) in Hd.
    + apply (IH (bidx + 1) ltac:(lia) ltac:(lia) He b p nm de Hp). lia.
  - destruct (Z.ltb_spec (find_next_bit_le (d_bitmap d) NR_DENTRY_IN_BLOCK (if bidx =? 0 then 2 else 0)) NR_DENTRY_IN_BLOCK) as [|Hge]; [done|].
    intros He b p nm de Hp Hr. destruct (Z.eq_dec b bidx) as [->|]; [|apply (IH (bidx + 1) ltac:(lia) ltac:(lia) He b p nm de Hp); lia].
    rewrite (page_entry_at _ _ _ Hc) in Hp. destruct Hp as (Hs & _). destruct (pw_block _ _ _ Hw _ _ Hc) as (_ & Hm & _).
    apply is_start_iff in Hs as (Hpr & Hu & _). rewrite Hm in Hpr. unfold NR_DENTRY_IN_BLOCK in *.
    pose proof (next_none (d_bitmap d) 214 (if bidx =? 0 then 2 else 0) ltac:(destruct (bidx =? 0); lia) Hge p) as Hn. unfold used in Hu.
    destruct (Z.eqb_spec bidx 0).
    + split; [done|]. destruct (Z.lt_ge_cases p 2); [done|]. rewrite Hn in Hu by lia. done.
    + rewrite Hn in Hu by lia. done.
Qed.

Lemma empty_dir_ok st : dir_wf st -> f2fs_empty_dir env st = true -> forall b p nm de, dir_entry st b p nm de -> b = 0 /\ p < 2.
Proof.
  intros Hw. unfold f2fs_empty_dir, dir_wf, dir_entry in *. destruct (f2fs_has_inline_dentry (di st)).
  - destruct Hw as (Ha & _). unfold f2fs_empty_inline_dir. destruct (c_true (e_node env)); [done|]. intros He b p nm de [-> Hen]. split; [done|].
    apply negb_true_iff, Z.ltb_ge in He. destruct Hen as (Hs & _). apply is_start_iff in Hs as (Hr & Hu & _).
    destruct (aw_max _ _ Ha) as [_ Hm]. destruct (Z.lt_ge_cases p 2); [done|]. pose proof (next_none (d_bitmap (area st)) (d_max (area st)) 2 ltac:(lia) He p ltac:(lia)) as Hn. unfold used in Hu. congruence.
  - intros He b p nm de Hp. pose proof Hp as (d & Hd & _). destruct (pw_block _ _ _ Hw b d Hd) as (_ & _ & Hb & Hs). pose proof (pw_size _ _ _ Hw).
    apply (empty_blocks_ok (Z.to_nat (dir_blocks (di st))) st 0 (dir_blocks (di st)) Hw ltac:(lia) ltac:(lia) He b p nm de Hp). split; [lia|].
    unfold dir_blocks, PAGE_SHIFT, PAGE_SIZE in *. rewrite u64_small, Z.shiftr_div_pow2 by lia. change (2 ^ 12) with 4096. zdiv.
Qed.
End reading.

(** C35. A directory the check finds empty has no names but its dots (which sit in
    the first two slots), whether it is inline or hashed and whatever errors the
    check meets, so removing it loses no name. *)
Theorem empty_dir_has_only_dots (env : dir_env) (st : dir_state) (m : gmap (list Z) (Z * Z)) (de de' : f2fs_dir_entry) :
  env_ok env -> is_map st m -> dir_entry st 0 0 dot de -> dir_entry st 0 1 dotdot de' -> f2fs_empty_dir env st = true ->
  forall nm, is_Some (m !! nm) -> nm = dot \/ nm = dotdot.
Proof.
  intros Henv Hm H0 H1 He nm [[i f] Hs]. apply (map_names _ _ _ _ _ Hm) in Hs as (b & p & de2 & Hp & _).
  destruct (empty_dir_ok env Henv st (proj1 Hm) He b p nm de2 Hp) as [-> Hlt].
  assert (Hge : 0 <= p) by (destruct (entry_block st 0 p nm de2 (proj1 Hm) Hp) as (d & _ & Hst & _); apply is_start_iff in Hst; lia).
  assert (Hsame : forall n1 d1 n2 d2, dir_entry st 0 p n1 d1 -> dir_entry st 0 p n2 d2 -> n1 = n2).
  { unfold dir_entry. destruct (f2fs_has_inline_dentry (di st)).
    - intros n1 d1 n2 d2 [_ (_ & <- & _)] [_ (_ & <- & _)]. done.
    - intros n1 d1 n2 d2 (d & Hd & (_ & <- & _)) (d3 & Hd3 & (_ & <- & _)). congruence. }
  destruct (Z.eq_dec p 0) as [->|]; [left; by eapply Hsame|]. assert (p = 1) as -> by lia. right. by eapply Hsame.
Qed.

Lemma empty_dir_has_only_dots_witness : exists de de',
  env_ok dir_env0 /\ is_map (dir_made dir_fresh1) dir_map0 /\ dir_entry (dir_made dir_fresh1) 0 0 dot de /\ dir_entry (dir_made dir_fresh1) 0 1 dotdot de' /\
  f2fs_empty_dir dir_env0 (dir_made dir_fresh1) = true /\ (is_Some (dir_map0 !! dot) -> dot = dot \/ dot = dotdot).
Proof.
  exists (de_at (area (dir_made dir_fresh1)) 0), (de_at (area (dir_made dir_fresh1)) 1).
  assert (Hi : f2fs_has_inline_dentry (di (dir_made dir_fresh1)) = true) by (vm_compute; reflexivity).
  assert (H0 : dir_entry (dir_made dir_fresh1) 0 0 dot (de_at (area (dir_made dir_fresh1)) 0)).
  { unfold dir_entry. rewrite Hi. split; [reflexivity|]. split; [vm_compute; reflexivity|]. split; [vm_compute; reflexivity|reflexivity]. }
  assert (H1 : dir_entry (dir_made dir_fresh1) 0 1 dotdot (de_at (area (dir_made dir_fresh1)) 1)).
  { unfold dir_entry. rewrite Hi. split; [reflexivity|]. split; [vm_compute; reflexivity|]. split; [vm_compute; reflexivity|reflexivity]. }
  assert (He : f2fs_empty_dir dir_env0 (dir_made dir_fresh1) = true) by (vm_compute; reflexivity).
  split; [exact dir_env0_ok|]. split; [exact dir_made1|]. split; [exact H0|]. split; [exact H1|]. split; [exact He|].
  exact (empty_dir_has_only_dots dir_env0 (dir_made dir_fresh1) dir_map0 _ _ dir_env0_ok dir_made1 H0 H1 He dot).
Defined.
