(* ===== verification/RbTree.v ===== *)
(** * Red-black trees of ranges (extent_cache.c, f2fs.h)

    The lookups that extent_cache.c implements on the kernel's red-black trees,
    for nodes that are ranges [ofs, ofs + len): the extent cache uses them, and
    the discard commands.  The tree is the shape of the nodes, which are
    pointers; the ranges are read through them.  The balancing of the tree and
    the walks over it are the kernel's (lib/rbtree.c): [RbOps], and what f2fs
    relies on, [RbLaws], is that balancing keeps the order of the nodes and that
    the walks follow this order. *)

From stdpp Require Import base numbers option list sorting.
From S2P Require Import Prelude.

Inductive rb_tree :=
| Leaf
| Node (l : rb_tree) (p : positive) (r : rb_tree).

Fixpoint inorder (t : rb_tree) : list positive :=
  match t with
  | Leaf => []
  | Node l p r => inorder l ++ p :: inorder r
  end.

(** A pointer to a link (a [struct rb_node **]): of a node, or of the root. *)
Inductive side := LeftLink | RightLink.
#[global] Instance side_eq_dec : EqDecision side.
Proof. solve_decision. Defined.
Definition link : Type := option (positive * side).

(** The store through a link that rb_link_node does. *)
Fixpoint set_link_of (t : rb_tree) (n q : positive) (s : side) : rb_tree :=
  match t with
  | Leaf => Leaf
  | Node l p r =>
      if decide (p = q) then
        match s with
        | LeftLink => Node (Node Leaf n Leaf) p r
        | RightLink => Node l p (Node Leaf n Leaf)
        end
      else Node (set_link_of l n q s) p (set_link_of r n q s)
  end.

Definition rb_link_node (t : rb_tree) (n : positive) (at_ : link) : rb_tree :=
  match at_ with
  | None => Node Leaf n Leaf
  | Some (q, s) => set_link_of t n q s
  end.

Class RbOps := {
  rb_insert_color : rb_tree -> positive -> rb_tree;
  rb_erase : rb_tree -> positive -> rb_tree;
  rb_first : rb_tree -> option positive;
  rb_next : rb_tree -> positive -> option positive;
  rb_prev : rb_tree -> positive -> option positive
}.

Class RbLaws `{RbOps} : Prop := {
  insert_color_order t n : inorder (rb_insert_color t n) = inorder t;
  erase_order t p l1 l2 :
    NoDup (inorder t) -> inorder t = l1 ++ p :: l2 -> inorder (rb_erase t p) = l1 ++ l2;
  first_order t : rb_first t = head (inorder t);
  next_order t p l1 l2 : NoDup (inorder t) -> inorder t = l1 ++ p :: l2 -> rb_next t p = head l2;
  prev_order t p l1 l2 : NoDup (inorder t) -> inorder t = l1 ++ p :: l2 -> rb_prev t p = last l1
}.

Section ranges.
Context `{RbOps}.
(** struct rb_entry: the fields of the node a pointer points to. *)
Context (ofs len : positive -> Z).

(** re->ofs + re->len, an unsigned int. *)
Definition rb_end (p : positive) : Z := u32 (ofs p + len p).

Definition __lookup_rb_tree_fast (cached_re : option positive) (o : Z) : option positive :=
  match cached_re with
  | Some re => if (ofs re <=? o) && (o <? rb_end re) then Some re else None
  | None => None
  end.

Fixpoint __lookup_rb_tree_slow (t : rb_tree) (o : Z) : option positive :=
  match t with
  | Leaf => None
  | Node l re r =>
      if o <? ofs re then __lookup_rb_tree_slow l o
      else if rb_end re <=? o then __lookup_rb_tree_slow r o
      else Some re
  end.

Definition __lookup_rb_tree (t : rb_tree) (cached_re : option positive) (o : Z) : option positive :=
  match __lookup_rb_tree_fast cached_re o with
  | None => __lookup_rb_tree_slow t o
  | re => re
  end.

(** The way down to a node that contains the offset, or to the link where it
    would be. *)
Fixpoint walk_down (t : rb_tree) (pnode : link) (o : Z) : positive + link :=
  match t with
  | Leaf => inr pnode
  | Node l re r =>
      if o <? ofs re then walk_down l (Some (re, LeftLink)) o
      else if rb_end re <=? o then walk_down r (Some (re, RightLink)) o
      else inl re
  end.

(** None: the BUG of a node that contains the offset. *)
Definition __lookup_rb_tree_for_insert (t : rb_tree) (o : Z) : option link :=
  match walk_down t None o with
  | inl _ => None
  | inr p => Some p
  end.

Record lookup_ret := mk_lret {
  lr_entry : option positive;
  prev_entry : option positive;
  next_entry : option positive;
  insert_p : link  (* with insert_parent; None for NULL *)
}.

Definition lookup_neighbors (t : rb_tree) (re : positive) (o : Z) (force : bool) : lookup_ret :=
  mk_lret (Some re)
    (if (o =? ofs re) || force then rb_prev t re else None)
    (if (o =? u32 (rb_end re - 1)) || force then rb_next t re else None) None.

Definition __lookup_rb_tree_ret (t : rb_tree) (cached_re : option positive) (o : Z) (force : bool) : lookup_ret :=
  match t with
  | Leaf => mk_lret None None None None
  | _ =>
      match __lookup_rb_tree_fast cached_re o with
      | Some re => lookup_neighbors t re o force
      | None =>
          match walk_down t None o with
          | inl re => lookup_neighbors t re o force
          | inr None => mk_lret None None None None
          | inr (Some (parent, s)) =>
              let next := if ofs parent <? o then rb_next t parent else Some parent in
              let prev := if o <? ofs parent then rb_prev t parent else Some parent in
              mk_lret None prev next (Some (parent, s))
          end
      end
  end.

(** The consistency check of CONFIG_F2FS_CHECK_FS. *)
Fixpoint check_from (fuel : nat) (t : rb_tree) (cur : positive) : bool :=
  match fuel with
  | O => true
  | S fuel =>
      match rb_next t cur with
      | None => true
      | Some next => if ofs next <? rb_end cur then false else check_from fuel t next
      end
  end.
Definition __check_rb_tree_consistence (t : rb_tree) : bool :=
  match rb_first t with
  | None => true
  | Some cur => check_from (length (inorder t)) t cur
  end.

(** ** Well-formed trees *)

Definition range_ok (p : positive) : Prop := 0 <= ofs p /\ 0 < len p /\ ofs p + len p < 2 ^ 32.
Definition rb_before (p q : positive) : Prop := ofs p + len p <= ofs q.
Definition in_range (p : positive) (o : Z) : Prop := ofs p <= o < ofs p + len p.

(** The ranges of a list of nodes are proper, disjoint and in order. *)
Definition ranges_wf (l : list positive) : Prop := StronglySorted rb_before l /\ Forall range_ok l.
Definition rb_wf (t : rb_tree) : Prop := ranges_wf (inorder t).

(** ** Lists of ranges *)

Lemma ranges_app l1 l2 :
  ranges_wf (l1 ++ l2) <->
  ranges_wf l1 /\ ranges_wf l2 /\ (forall p q, p ∈ l1 -> q ∈ l2 -> rb_before p q).
Proof.
  unfold ranges_wf. rewrite Forall_app. split.
  - intros (Hs & H1 & H2). apply StronglySorted_app in Hs as (Hc & S1 & S2). done.
  - intros ((S1 & F1) & (S2 & F2) & Hc). split; [|done]. by apply StronglySorted_app_2.
Qed.

Lemma ranges_cons p l :
  ranges_wf (p :: l) <-> range_ok p /\ ranges_wf l /\ (forall q, q ∈ l -> rb_before p q).
Proof.
  unfold ranges_wf. rewrite Forall_cons. split.
  - intros (Hs & H1 & H2). apply StronglySorted_inv in Hs as (Hs & Hf). rewrite Forall_forall in Hf. done.
  - intros (H1 & (Hs & H2) & Hc). split; [|done]. constructor; [done|]. by apply Forall_forall.
Qed.

Lemma ranges_nil : ranges_wf [].
Proof. split; constructor. Qed.

Lemma ranges_ok l p : ranges_wf l -> p ∈ l -> range_ok p.
Proof. intros (_ & Hf). rewrite Forall_forall in Hf. apply Hf. Qed.

Lemma ranges_NoDup l : ranges_wf l -> NoDup l.
Proof.
  induction l as [|p l IH]; [constructor|]. intros (Ho & Hw & Hb)%ranges_cons.
  constructor; [|auto]. intros Hp. specialize (Hb _ Hp). unfold rb_before in Hb.
  destruct Ho as (? & ? & ?). lia.
Qed.

Lemma rb_end_exact p : range_ok p -> rb_end p = ofs p + len p.
Proof. intros (? & ? & ?). apply u32_small. lia. Qed.

(** At most one range of the list contains an offset. *)
Lemma in_range_unique l p q o :
  ranges_wf l -> p ∈ l -> q ∈ l -> in_range p o -> in_range q o -> p = q.
Proof.
  intros Hw Hp Hq Ip Iq. apply list_elem_of_split in Hp as (l1 & l2 & ->).
  apply ranges_app in Hw as (_ & (_ & _ & H2)%ranges_cons & H1).
  unfold in_range, rb_before in *.
  apply elem_of_app in Hq as [Hq|[->|Hq]%elem_of_cons]; [|done|].
  - specialize (H1 _ p Hq (list_elem_of_here _ _)). lia.
  - specialize (H2 _ Hq). lia.
Qed.

(** ** The way down *)

Lemma set_link_other t n q s : q ∉ inorder t -> set_link_of t n q s = t.
Proof.
  induction t as [|l IHl p r IHr]; [done|]. cbn. intros Hq. rewrite elem_of_app, elem_of_cons in Hq.
  rewrite decide_False by naive_solver. rewrite IHl, IHr by naive_solver. done.
Qed.

(** What a link found on the way down to an offset is: storing a node through it
    puts the node between the ranges before the offset and those behind it. *)
Record link_between (t : rb_tree) (at_ : link) (l1 l2 : list positive) : Prop := {
  lb_list : inorder t = l1 ++ l2;
  lb_link : forall n, n ∉ inorder t -> inorder (rb_link_node t n at_) = l1 ++ n :: l2;
  lb_parent : t <> Leaf -> exists q s, at_ = Some (q, s) /\
    match s with LeftLink => head l2 = Some q | RightLink => last l1 = Some q end
}.

Lemma walk_down_leaf pnode o : walk_down Leaf pnode o = inr pnode.
Proof. done. Qed.

Lemma link_left l p r q s l1 l2 :
  NoDup (inorder (Node l p r)) -> q ∈ inorder l -> link_between l (Some (q, s)) l1 l2 ->
  link_between (Node l p r) (Some (q, s)) l1 (l2 ++ p :: inorder r).
Proof.
  intros Hnd Hq [Hl Hk Hp]. cbn in Hnd. apply NoDup_app in Hnd as (_ & Hd & Hr).
  assert (Hl0 : l <> Leaf) by (intros ->; by apply elem_of_nil in Hq).
  constructor; cbn.
  - rewrite Hl, <- app_assoc. done.
  - intros n Hn. rewrite elem_of_app in Hn. rewrite decide_False by (intros ->; apply (Hd _ Hq); left). cbn.
    rewrite (set_link_other r) by (intros Hx; apply (Hd _ Hq); by right).
    specialize (Hk n ltac:(naive_solver)). cbn in Hk. rewrite Hk. rewrite <- app_assoc. done.
  - intros _. destruct (Hp Hl0) as (q' & s' & [= <- <-] & Hs). exists q, s. split; [done|].
    destruct s; [|done]. destruct l2; done.
Qed.

Lemma link_right l p r q s l1 l2 :
  NoDup (inorder (Node l p r)) -> q ∈ inorder r -> link_between r (Some (q, s)) l1 l2 ->
  link_between (Node l p r) (Some (q, s)) (inorder l ++ p :: l1) l2.
Proof.
  intros Hnd Hq [Hl Hk Hp]. cbn in Hnd. apply NoDup_app in Hnd as (_ & Hd & Hr).
  apply NoDup_cons in Hr as (Hpr & _).
  assert (Hr0 : r <> Leaf) by (intros ->; by apply elem_of_nil in Hq).
  constructor; cbn.
  - rewrite Hl, <- app_assoc. done.
  - intros n Hn. rewrite elem_of_app, elem_of_cons in Hn. rewrite decide_False by (intros ->; done). cbn.
    rewrite (set_link_other l) by (intros Hx; apply (Hd _ Hx); by right).
    specialize (Hk n ltac:(naive_solver)). cbn in Hk. rewrite Hk. rewrite <- app_assoc. done.
  - intros _. destruct (Hp Hr0) as (q' & s' & [= <- <-] & Hs). exists q, s. split; [done|].
    destruct s; [done|]. rewrite last_app, last_cons, Hs. done.
Qed.

Lemma link_leaf_left p r : NoDup (p :: inorder r) ->
  link_between (Node Leaf p r) (Some (p, LeftLink)) [] (p :: inorder r).
Proof.
  intros Hnd. constructor; cbn; [done| |].
  - intros n Hn. rewrite decide_True by done. done.
  - intros _. by exists p, LeftLink.
Qed.

Lemma link_leaf_right l p :
  link_between (Node l p Leaf) (Some (p, RightLink)) (inorder l ++ [p]) [].
Proof.
  constructor; cbn; [by rewrite app_nil_r| |].
  - intros n Hn. rewrite decide_True by done. cbn. by rewrite <- app_assoc.
  - intros _. exists p, RightLink. split; [done|]. by rewrite last_snoc.
Qed.

Lemma walk_down_ok t pnode o : rb_wf t ->
  match walk_down t pnode o with
  | inl p => p ∈ inorder t /\ in_range p o
  | inr at_ =>
      match t with
      | Leaf => at_ = pnode
      | _ => exists l1 l2, link_between t at_ l1 l2 /\
          (forall p, p ∈ l1 -> ofs p + len p <= o) /\ (forall p, p ∈ l2 -> o < ofs p)
      end
  end.
Proof.
  revert pnode. induction t as [|l IHl p r IHr]; intros pnode Hw; [done|].
  pose proof Hw as Hw'. unfold rb_wf in Hw'. cbn in Hw'.
  apply ranges_app in Hw' as (Wl & (Op & Wr & Hpr)%ranges_cons & Hlp).
  pose proof (ranges_NoDup _ Hw) as Hnd. cbn. rewrite (rb_end_exact _ Op).
  assert (Hlp' : forall q, q ∈ inorder l -> rb_before q p) by (intros; apply Hlp; [done|left]).
  unfold rb_before in *. destruct (Z.ltb_spec o (ofs p)).
  - specialize (IHl (Some (p, LeftLink)) Wl).
    destruct (walk_down l _ o) as [q|at_]; [destruct IHl; split; [apply elem_of_app; by left|done]|].
    destruct l as [|la lp lb]; [subst; exists [], (p :: inorder r); split; [|split]|].
    + apply link_leaf_left. by cbn in Hnd.
    + intros q Hq. by apply elem_of_nil in Hq.
    + intros q [->|Hq]%elem_of_cons; [done|]. specialize (Hpr _ Hq). destruct Op as (? & ? & ?). lia.
    + destruct IHl as (l1 & l2 & Hlk & Ha & Hb). exists l1, (l2 ++ p :: inorder r).
      destruct (lb_parent _ _ _ _ Hlk ltac:(done)) as (q & s & -> & Hs). split; [|split; [done|]].
      * apply link_left; [done| |done]. rewrite (lb_list _ _ _ _ Hlk).
        apply elem_of_app. destruct s; [right; destruct l2; [done|]; injection Hs as ->; left|left].
        apply last_Some in Hs as (l' & ->). apply elem_of_app. right. left.
      * intros x [Hx|[->|Hx]%elem_of_cons]%elem_of_app; [auto|done|].
        specialize (Hpr _ Hx). destruct Op as (? & ? & ?). lia.
  - destruct (Z.leb_spec (ofs p + len p) o).
    + specialize (IHr (Some (p, RightLink)) Wr).
      destruct (walk_down r _ o) as [q|at_];
        [destruct IHr; split; [apply elem_of_app; right; by right|done]|].
      destruct r as [|ra rp rb]; [subst; exists (inorder l ++ [p]), []; split; [|split]|].
      * apply link_leaf_right.
      * intros q [Hq| ->%list_elem_of_singleton]%elem_of_app; [|done].
        specialize (Hlp' _ Hq). destruct Op as (? & ? & ?). lia.
      * intros q Hq. by apply elem_of_nil in Hq.
      * destruct IHr as (l1 & l2 & Hlk & Ha & Hb). exists (inorder l ++ p :: l1), l2.
        destruct (lb_parent _ _ _ _ Hlk ltac:(done)) as (q & s & -> & Hs). split; [|split; [|done]].
        -- apply link_right; [done| |done]. rewrite (lb_list _ _ _ _ Hlk).
           apply elem_of_app. destruct s; [right; destruct l2; [done|]; injection Hs as ->; left|left].
           apply last_Some in Hs as (l' & ->). apply elem_of_app. right. left.
        -- intros x [Hx|[->|Hx]%elem_of_cons]%elem_of_app; [|done|auto].
           specialize (Hlp' _ Hx). destruct Op as (? & ? & ?). lia.
    + split; [apply elem_of_app; right; left|]. unfold in_range. lia.
Qed.

(** ** The lookups *)

Lemma slow_walk t pnode o :
  __lookup_rb_tree_slow t o = match walk_down t pnode o with inl p => Some p | inr _ => None end.
Proof. revert pnode. induction t as [|l IHl p r IHr]; intros; cbn; [done|]. by repeat case_if. Qed.

Lemma fast_ok t cached o p : rb_wf t -> (forall c, cached = Some c -> c ∈ inorder t) ->
  __lookup_rb_tree_fast cached o = Some p -> p ∈ inorder t /\ in_range p o.
Proof.
  intros Hw Hc. destruct cached as [c|]; [|done]. cbn. case_if; [|done]. intros [= <-].
  specialize (Hc _ eq_refl). rewrite (rb_end_exact c) in * by (eapply ranges_ok; eauto). done.
Qed.

Lemma between_none t at_ l1 l2 o : link_between t at_ l1 l2 ->
  (forall p, p ∈ l1 -> ofs p + len p <= o) -> (forall p, p ∈ l2 -> o < ofs p) ->
  forall p, p ∈ inorder t -> ~ in_range p o.
Proof.
  intros [Hl _ _] Ha Hb p Hp [H1 H2]. rewrite Hl in Hp.
  apply elem_of_app in Hp as [Hp|Hp]; [specialize (Ha _ Hp)|specialize (Hb _ Hp)]; lia.
Qed.

(** A lookup finds the node whose range contains the offset, and says none only
    when there is none, whatever node is cached. *)
Lemma lookup_rb_tree_ok t cached o : rb_wf t -> (forall c, cached = Some c -> c ∈ inorder t) ->
  match __lookup_rb_tree t cached o with
  | Some p => p ∈ inorder t /\ in_range p o
  | None => forall p, p ∈ inorder t -> ~ in_range p o
  end.
Proof.
  intros Hw Hc. unfold __lookup_rb_tree. destruct (__lookup_rb_tree_fast cached o) eqn:E.
  - eapply fast_ok; eauto.
  - rewrite (slow_walk t None). pose proof (walk_down_ok t None o Hw) as Ho.
    destruct (walk_down t None o); [done|]. destruct t; [intros p Hp; by apply elem_of_nil in Hp|].
    destruct Ho as (l1 & l2 & Hlk & Ha & Hb). eapply between_none; eauto.
Qed.

Lemma for_insert_ok t o : rb_wf t -> (forall p, p ∈ inorder t -> ~ in_range p o) ->
  exists at_ l1 l2, __lookup_rb_tree_for_insert t o = Some at_ /\ link_between t at_ l1 l2 /\
    (forall p, p ∈ l1 -> ofs p + len p <= o) /\ (forall p, p ∈ l2 -> o < ofs p).
Proof.
  intros Hw Hn. unfold __lookup_rb_tree_for_insert. pose proof (walk_down_ok t None o Hw) as Ho.
  destruct (walk_down t None o) as [p|at_]; [destruct Ho; exfalso; by eapply Hn|].
  exists at_. destruct t; [|destruct Ho as (l1 & l2 & Ho); by exists l1, l2].
  subst. exists [], []. split; [done|]. split; [|split; intros p Hp; by apply elem_of_nil in Hp].
  by constructor.
Qed.

(** What __lookup_rb_tree_ret returns: the node found with its neighbours if they
    can be merged with (or always, by force), or the place between two neighbours
    where a range that starts at the offset belongs. *)
Inductive ret_ok (t : rb_tree) (o : Z) (force : bool) : lookup_ret -> Prop :=
| ret_found p l1 l2 :
    inorder t = l1 ++ p :: l2 -> in_range p o ->
    ret_ok t o force (mk_lret (Some p) (if (o =? ofs p) || force then last l1 else None)
      (if (o =? ofs p + len p - 1) || force then head l2 else None) None)
| ret_empty : t = Leaf -> ret_ok t o force (mk_lret None None None None)
| ret_between q s l1 l2 :
    link_between t (Some (q, s)) l1 l2 ->
    (forall p, p ∈ l1 -> ofs p + len p <= o) -> (forall p, p ∈ l2 -> o < ofs p) ->
    ret_ok t o force (mk_lret None (last l1) (head l2) (Some (q, s))).

Lemma neighbors_ok `{!RbLaws} t p o force : rb_wf t -> p ∈ inorder t -> in_range p o ->
  ret_ok t o force (lookup_neighbors t p o force).
Proof.
  intros Hw Hp Hr. pose proof (ranges_ok _ _ Hw Hp) as Ho. pose proof (ranges_NoDup _ Hw) as Hnd.
  apply list_elem_of_split in Hp as (l1 & l2 & Hl). unfold lookup_neighbors.
  rewrite (prev_order _ _ _ _ Hnd Hl), (next_order _ _ _ _ Hnd Hl), (rb_end_exact _ Ho).
  destruct Ho as (? & ? & ?). rewrite u32_small by lia. by apply ret_found.
Qed.

Lemma between_neighbors `{!RbLaws} t q s l1 l2 o : rb_wf t -> link_between t (Some (q, s)) l1 l2 ->
  (forall p, p ∈ l1 -> ofs p + len p <= o) -> (forall p, p ∈ l2 -> o < ofs p) -> t <> Leaf ->
  (if o <? ofs q then rb_prev t q else Some q) = last l1 /\
  (if ofs q <? o then rb_next t q else Some q) = head l2.
Proof.
  intros Hw Hlk Ha Hb Ht. pose proof (ranges_NoDup _ Hw) as Hnd. destruct Hlk as [Hl _ Hp].
  destruct (Hp Ht) as (q' & s' & [= <- <-] & Hs). destruct s.
  - destruct l2 as [|q' l2]; [done|]. injection Hs as ->. specialize (Hb q (list_elem_of_here _ _)).
    rewrite (prev_order _ _ _ _ Hnd Hl). repeat case_if; try lia. done.
  - apply last_Some in Hs as (l1' & ->). specialize (Ha q ltac:(apply elem_of_app; right; left)).
    rewrite Hl, <- app_assoc in Hnd. cbn in Hnd.
    assert (Hq : inorder t = l1' ++ q :: l2) by (rewrite Hl, <- app_assoc; done).
    assert (Ho : range_ok q).
    { eapply ranges_ok; [exact Hw|]. rewrite Hq. apply elem_of_app. right. left. }
    destruct Ho as (? & ? & ?). rewrite (next_order _ _ _ _ ltac:(by rewrite Hq) Hq).
    rewrite last_snoc. repeat case_if; try lia; done.
Qed.

Lemma lookup_ret_ok `{!RbLaws} t cached o force : rb_wf t -> (forall c, cached = Some c -> c ∈ inorder t) ->
  ret_ok t o force (__lookup_rb_tree_ret t cached o force).
Proof.
  intros Hw Hc. pose proof (fast_ok t cached o) as Hf. pose proof (walk_down_ok t None o Hw) as Ho.
  unfold __lookup_rb_tree_ret. destruct t as [|l p r]; [by apply ret_empty|].
  destruct (__lookup_rb_tree_fast cached o) as [q|]; [destruct (Hf q); auto using neighbors_ok|].
  destruct (walk_down _ None o) as [q|at_]; [destruct Ho; auto using neighbors_ok|].
  destruct Ho as (l1 & l2 & Hlk & Ha & Hb).
  destruct (lb_parent _ _ _ _ Hlk ltac:(done)) as (q & s & -> & _).
  destruct (between_neighbors _ _ _ _ _ _ Hw Hlk Ha Hb ltac:(done)) as (-> & ->).
  by apply ret_between.
Qed.

(** The consistency check accepts well-formed trees. *)
Lemma check_from_ok `{!RbLaws} fuel t l1 p l2 : rb_wf t -> inorder t = l1 ++ p :: l2 ->
  check_from fuel t p = true.
Proof.
  intros Hw. pose proof (ranges_NoDup _ Hw) as Hnd. revert l1 p l2.
  induction fuel as [|fuel IH]; intros l1 p l2 Hl; [done|]. cbn.
  rewrite (next_order _ _ _ _ Hnd Hl). destruct l2 as [|q l2]; [done|]. cbn.
  assert (Hpq : rb_before p q /\ range_ok p).
  { unfold rb_wf in Hw. rewrite Hl in Hw. apply ranges_app in Hw as (_ & (Ho & _ & Hb)%ranges_cons & _).
    split; [apply Hb; left|done]. }
  destruct Hpq as (Hpq & Ho). rewrite (rb_end_exact _ Ho). unfold rb_before in Hpq. case_if; [lia|].
  apply (IH (l1 ++ [p]) q l2). rewrite <- app_assoc. done.
Qed.

Lemma consistence_ok `{!RbLaws} t : rb_wf t -> __check_rb_tree_consistence t = true.
Proof.
  intros Hw. unfold __check_rb_tree_consistence. rewrite first_order.
  destruct (inorder t) as [|p l] eqn:E; [done|]. cbn [head]. by apply (check_from_ok _ _ [] _ l).
Qed.
End ranges.

(** ** A tree without balancing, for the examples *)

Fixpoint glue (l r : rb_tree) : rb_tree :=
  match l with
  | Leaf => r
  | Node a p b => Node a p (glue b r)
  end.
Fixpoint plain_erase (t : rb_tree) (p : positive) : rb_tree :=
  match t with
  | Leaf => Leaf
  | Node l q r => if decide (q = p) then glue l r else Node (plain_erase l p) q (plain_erase r p)
  end.
Fixpoint after (l : list positive) (p : positive) : option positive :=
  match l with
  | [] => None
  | q :: l => if decide (q = p) then head l else after l p
  end.
#[global] Instance plain_ops : RbOps := {|
  rb_insert_color t _ := t;
  rb_erase := plain_erase;
  rb_first t := head (inorder t);
  rb_next t p := after (inorder t) p;
  rb_prev t p := after (reverse (inorder t)) p
|}.

Lemma glue_order l r : inorder (glue l r) = inorder l ++ inorder r.
Proof. induction l as [|a IHa p b IHb]; cbn; [done|]. rewrite IHb, <- app_assoc. done. Qed.

Lemma filter_other (p : positive) (l : list positive) : p ∉ l -> filter (fun q : positive => q <> p) l = l.
Proof.
  induction l as [|a l IH]; [done|]. rewrite not_elem_of_cons. intros (Hn & Hl).
  rewrite filter_cons_True by done. by rewrite IH.
Qed.

Lemma plain_erase_order t p :
  NoDup (inorder t) -> inorder (plain_erase t p) = filter (fun q : positive => q <> p) (inorder t).
Proof.
  induction t as [|l IHl q r IHr]; cbn; [done|]. intros Hnd.
  pose proof Hnd as (Hl & Hd & (Hq & Hr)%NoDup_cons)%NoDup_app.
  rewrite list.filter_app. case_decide; [subst|].
  - rewrite glue_order, filter_cons_False, !filter_other; [done|done| |naive_solver].
    intros Hx. apply (Hd _ Hx). left.
  - rewrite filter_cons_True by done. cbn. by rewrite IHl, IHr.
Qed.

Lemma after_order l1 p l2 : NoDup (l1 ++ p :: l2) -> after (l1 ++ p :: l2) p = head l2.
Proof.
  induction l1 as [|a l1 IH]; cbn; [intros; by rewrite decide_True|].
  intros (Ha & Hnd)%NoDup_cons. rewrite decide_False; [auto|]. intros ->. apply Ha.
  apply elem_of_app. right. left.
Qed.

#[global] Instance plain_laws : RbLaws.
Proof.
  constructor; cbn; [done| |done| |].
  - intros t p l1 l2 Hnd Hl. rewrite plain_erase_order by done. rewrite Hl in *.
    apply NoDup_app in Hnd as (_ & Hd & (Hp & _)%NoDup_cons).
    rewrite list.filter_app, filter_cons_False by naive_solver.
    rewrite !filter_other; [done|done|]. intros Hx. apply (Hd _ Hx). left.
  - intros t p l1 l2 Hnd Hl. rewrite Hl in *. by apply after_order.
  - intros t p l1 l2 Hnd Hl. rewrite Hl in *. rewrite reverse_app, reverse_cons, <- app_assoc. cbn.
    rewrite after_order; [by rewrite head_reverse|].
    replace (reverse l2 ++ p :: reverse l1) with (reverse (l1 ++ p :: l2))
      by (rewrite reverse_app, reverse_cons, <- app_assoc; done).
    by rewrite (reverse_Permutation (l1 ++ p :: l2)).
Qed.
