(* ===== verification/Extent.v ===== *)
(** * The extent cache (extent_cache.c, f2fs.h)

    A cache of the mapping of file offsets to block addresses, for regular files:
    per inode a tree of extents, the largest of them kept apart, and a list of
    all extents in the order of their use, which the shrinker frees from.

    Nodes of the trees are pointers into one store, as the list is shared by all
    trees and a tree keeps a pointer to the node used last.  An extent tree is
    found by its inode number in a radix tree; the trees of inodes that have been
    evicted stay behind as zombies.  The sequence of locks is left out; what a
    trylock returns is an argument.

    The theorems are in [ExtentReach], over [ExtentWf] (the invariant and the
    primitives), [ExtentUpdate] (updates and lookups against the map of a file)
    and [ExtentSafe] (every operation keeps the invariant). *)

From stdpp Require Import base numbers option gmap list sorting.
From S2P Require Import Prelude Inode NodePath RbTree.

(** struct extent_info *)
Record extent_info := mk_ei {
  fofs : Z;  (* start offset in a file *)
  len : Z;  (* length of the extent *)
  blk : Z  (* start block address of the extent *)
}.

Definition set_len (x : Z) (r : extent_info) : extent_info :=
  mk_ei (fofs r) x (blk r).
(** struct extent_node; its place in the list of all nodes is in [extent_list] *)
Record extent_node := mk_en {
  ei : extent_info;
  et : Z  (* the extent tree, by its inode number *)
}.

Definition set_ei (x : extent_info) (r : extent_node) : extent_node :=
  mk_en x (et r).
#[global] Instance extent_info_eq_dec : EqDecision extent_info.
Proof. solve_decision. Defined.
#[global] Instance extent_node_eq_dec : EqDecision extent_node.
Proof. solve_decision. Defined.

(** struct extent_tree; its place in the zombie list is in [zombie_list] *)
Record extent_tree := mk_et {
  root : rb_tree;
  cached_en : option positive;  (* recently accessed extent node *)
  largest : extent_info;  (* largest extent info *)
  node_cnt : Z  (* number of nodes in the tree *)
}.

Definition set_root (x : rb_tree) (r : extent_tree) : extent_tree :=
  mk_et x (cached_en r) (largest r) (node_cnt r).
Definition set_cached_en (x : option positive) (r : extent_tree) : extent_tree :=
  mk_et (root r) x (largest r) (node_cnt r).
Definition set_largest (x : extent_info) (r : extent_tree) : extent_tree :=
  mk_et (root r) (cached_en r) x (node_cnt r).
Definition set_node_cnt (x : Z) (r : extent_tree) : extent_tree :=
  mk_et (root r) (cached_en r) (largest r) x.
(** What the extent cache uses of an inode *)
Record ext_inode := mk_xi {
  x_extent_tree : bool;  (* the inode points to its extent tree *)
  x_no_extent : bool;  (* FI_NO_EXTENT *)
  x_reg : bool;  (* S_ISREG *)
  x_nlink : Z;
  x_bad : bool;  (* is_bad_inode *)
  x_dirty : bool  (* f2fs_mark_inode_dirty_sync has been called *)
}.

Definition set_x_extent_tree (x : bool) (r : ext_inode) : ext_inode :=
  mk_xi x (x_no_extent r) (x_reg r) (x_nlink r) (x_bad r) (x_dirty r).
Definition set_x_no_extent (x : bool) (r : ext_inode) : ext_inode :=
  mk_xi (x_extent_tree r) x (x_reg r) (x_nlink r) (x_bad r) (x_dirty r).
Definition set_x_dirty (x : bool) (r : ext_inode) : ext_inode :=
  mk_xi (x_extent_tree r) (x_no_extent r) (x_reg r) (x_nlink r) (x_bad r) x.
(** The fields of the super block info that the cache uses, with its nodes and inodes *)
Record ext_state := mk_xs {
  extent_cache_opt : bool;  (* mount option EXTENT_CACHE *)
  nodes : gmap positive extent_node;  (* the allocated nodes *)
  extent_list : list positive;  (* lru list for shrinker *)
  extent_tree_root : gmap Z extent_tree;  (* the trees by inode number *)
  zombie_list : list Z;
  total_ext_tree : Z;
  total_zombie_tree : Z;
  total_ext_node : Z;
  xinodes : gmap Z ext_inode;  (* the inodes in memory *)
  xbug : bool  (* a BUG check has failed *)
}.

Definition set_nodes (x : gmap positive extent_node) (r : ext_state) : ext_state :=
  mk_xs (extent_cache_opt r) x (extent_list r) (extent_tree_root r) (zombie_list r) (total_ext_tree r) (total_zombie_tree r) (total_ext_node r) (xinodes r) (xbug r).
Definition set_extent_list (x : list positive) (r : ext_state) : ext_state :=
  mk_xs (extent_cache_opt r) (nodes r) x (extent_tree_root r) (zombie_list r) (total_ext_tree r) (total_zombie_tree r) (total_ext_node r) (xinodes r) (xbug r).
Definition set_extent_tree_root (x : gmap Z extent_tree) (r : ext_state) : ext_state :=
  mk_xs (extent_cache_opt r) (nodes r) (extent_list r) x (zombie_list r) (total_ext_tree r) (total_zombie_tree r) (total_ext_node r) (xinodes r) (xbug r).
Definition set_zombie_list (x : list Z) (r : ext_state) : ext_state :=
  mk_xs (extent_cache_opt r) (nodes r) (extent_list r) (extent_tree_root r) x (total_ext_tree r) (total_zombie_tree r) (total_ext_node r) (xinodes r) (xbug r).
Definition set_total_ext_tree (x : Z) (r : ext_state) : ext_state :=
  mk_xs (extent_cache_opt r) (nodes r) (extent_list r) (extent_tree_root r) (zombie_list r) x (total_zombie_tree r) (total_ext_node r) (xinodes r) (xbug r).
Definition set_total_zombie_tree (x : Z) (r : ext_state) : ext_state :=
  mk_xs (extent_cache_opt r) (nodes r) (extent_list r) (extent_tree_root r) (zombie_list r) (total_ext_tree r) x (total_ext_node r) (xinodes r) (xbug r).
Definition set_total_ext_node (x : Z) (r : ext_state) : ext_state :=
  mk_xs (extent_cache_opt r) (nodes r) (extent_list r) (extent_tree_root r) (zombie_list r) (total_ext_tree r) (total_zombie_tree r) x (xinodes r) (xbug r).
Definition set_xinodes (x : gmap Z ext_inode) (r : ext_state) : ext_state :=
  mk_xs (extent_cache_opt r) (nodes r) (extent_list r) (extent_tree_root r) (zombie_list r) (total_ext_tree r) (total_zombie_tree r) (total_ext_node r) x (xbug r).
Definition set_xbug (x : bool) (r : ext_state) : ext_state :=
  mk_xs (extent_cache_opt r) (nodes r) (extent_list r) (extent_tree_root r) (zombie_list r) (total_ext_tree r) (total_zombie_tree r) (total_ext_node r) (xinodes r) x.
Definition F2FS_MIN_EXTENT_LEN : Z := 64.
Definition UINT_MAX : Z := 2 ^ 32 - 1.
Definition no_ei : extent_info := mk_ei 0 0 0.

(** ** Extents (f2fs.h) *)

(** fofs, blk and len of an on-disk extent are those of the extent. *)
Definition get_extent_info (i_ext : Z * Z * Z) : extent_info :=
  let '(f, b, l) := i_ext in mk_ei f l b.
Definition set_raw_extent (ext : extent_info) : Z * Z * Z := (fofs ext, blk ext, len ext).
Definition set_extent_info (f b l : Z) : extent_info := mk_ei (u32 f) l (u32 b).

Definition __is_extent_mergeable (back front : extent_info) : bool :=
  (u32 (fofs back + len back) =? fofs front) && (u32 (blk back + len back) =? blk front).
Definition __is_back_mergeable (cur back : extent_info) : bool := __is_extent_mergeable back cur.
Definition __is_front_mergeable (cur front : extent_info) : bool := __is_extent_mergeable cur front.

(** ** Access to the store *)

Definition empty_tree : extent_tree := mk_et Leaf None no_ei 0.
Definition no_inode : ext_inode := mk_xi false false false 0 false false.

Definition node_ei (s : ext_state) (p : positive) : extent_info :=
  match nodes s !! p with Some n => ei n | None => no_ei end.
Definition en_fofs (s : ext_state) (p : positive) : Z := fofs (node_ei s p).
Definition en_len (s : ext_state) (p : positive) : Z := len (node_ei s p).
Definition tree_of (s : ext_state) (ino : Z) : extent_tree := default empty_tree (extent_tree_root s !! ino).
Definition inode_of (s : ext_state) (ino : Z) : ext_inode := default no_inode (xinodes s !! ino).

Definition upd_node (p : positive) (f : extent_info -> extent_info) (s : ext_state) : ext_state :=
  set_nodes (alter (fun n => set_ei (f (ei n)) n) p (nodes s)) s.
Definition upd_tree (ino : Z) (f : extent_tree -> extent_tree) (s : ext_state) : ext_state :=
  set_extent_tree_root (<[ino := f (tree_of s ino)]> (extent_tree_root s)) s.
Definition upd_inode (ino : Z) (f : ext_inode -> ext_inode) (s : ext_state) : ext_state :=
  set_xinodes (alter f ino (xinodes s)) s.
Definition mark_dirty (ino : Z) : ext_state -> ext_state := upd_inode ino (set_x_dirty true).
Definition no_extent_flag (s : ext_state) (ino : Z) : bool := x_no_extent (inode_of s ino).
Definition set_no_extent (ino : Z) : ext_state -> ext_state := upd_inode ino (set_x_no_extent true).
Definition f2fs_bug_on (b : bool) (s : ext_state) : ext_state := if b then set_xbug true s else s.

Definition list_del (p : positive) (l : list positive) : list positive := filter (fun q => q <> p) l.
Definition list_add_tail (p : positive) (s : ext_state) : ext_state :=
  set_extent_list (extent_list s ++ [p]) s.
Definition list_del_init (p : positive) (s : ext_state) : ext_state :=
  set_extent_list (list_del p (extent_list s)) s.

(** A node that is used moves to the end of the list and is cached. *)
Definition use_node (ino : Z) (p : positive) (s : ext_state) : ext_state :=
  if bool_decide (p ∈ extent_list s) then
    upd_tree ino (set_cached_en (Some p)) (list_add_tail p (list_del_init p s))
  else s.

Definition f2fs_may_extent_tree (s : ext_state) (ino : Z) : bool :=
  if negb (extent_cache_opt s) || no_extent_flag s ino then false else x_reg (inode_of s ino).

Section extent_cache.
Context `{RbOps}.
(** kmem_cache_alloc with GFP_ATOMIC, which may fail. *)
Context (kmem_cache_alloc : ext_state -> option positive).

Definition __try_update_largest_extent (ino : Z) (en : positive) (s : ext_state) : ext_state :=
  if len (largest (tree_of s ino)) <? en_len s en then
    mark_dirty ino (upd_tree ino (set_largest (node_ei s en)) s)
  else s.

Definition __attach_extent_node (ino : Z) (e : extent_info) (p : link) (s : ext_state) : option positive * ext_state :=
  match kmem_cache_alloc s with
  | None => (None, s)
  | Some en =>
      let s := set_nodes (<[en := mk_en e ino]> (nodes s)) s in
      let s := upd_tree ino (fun t => set_root (rb_insert_color (rb_link_node (root t) en p) en) t) s in
      let s := upd_tree ino (fun t => set_node_cnt (node_cnt t + 1) t) s in
      (Some en, set_total_ext_node (total_ext_node s + 1) s)
  end.

Definition __detach_extent_node (ino : Z) (en : positive) (s : ext_state) : ext_state :=
  let s := upd_tree ino (fun t => set_root (rb_erase (root t) en) t) s in
  let s := upd_tree ino (fun t => set_node_cnt (node_cnt t - 1) t) s in
  let s := set_total_ext_node (total_ext_node s - 1) s in
  let s := if decide (cached_en (tree_of s ino) = Some en) then upd_tree ino (set_cached_en None) s else s in
  set_nodes (delete en (nodes s)) s.

Definition __release_extent_node (ino : Z) (en : positive) (s : ext_state) : ext_state :=
  let s := f2fs_bug_on (negb (bool_decide (en ∈ extent_list s))) s in
  let s := list_del_init en s in
  __detach_extent_node ino en s.

Definition __grab_extent_tree (ino : Z) (s : ext_state) : ext_state :=
  let s :=
    match extent_tree_root s !! ino with
    | None =>
        let s := set_extent_tree_root (<[ino := empty_tree]> (extent_tree_root s)) s in
        set_total_ext_tree (total_ext_tree s + 1) s
    | Some _ =>
        let s := set_total_zombie_tree (total_zombie_tree s - 1) s in
        set_zombie_list (filter (fun i => i <> ino) (zombie_list s)) s
    end in
  upd_inode ino (set_x_extent_tree true) s.

Definition __init_extent_tree (ino : Z) (e : extent_info) (s : ext_state) : option positive * ext_state :=
  match __attach_extent_node ino e None s with
  | (None, s) => (None, s)
  | (Some en, s) =>
      (Some en, upd_tree ino (fun t => set_cached_en (Some en) (set_largest (node_ei s en) t)) s)
  end.

(** The nodes of the tree from one on, each released after its successor is known. *)
Fixpoint free_from (fuel : nat) (ino : Z) (node : option positive) (s : ext_state) : ext_state :=
  match fuel, node with
  | _, None => s
  | O, Some _ => f2fs_bug_on true s
  | S fuel, Some node =>
      let next := rb_next (root (tree_of s ino)) node in
      free_from fuel ino next (__release_extent_node ino node s)
  end.
Definition __free_extent_tree (ino : Z) (s : ext_state) : Z * ext_state :=
  let count := node_cnt (tree_of s ino) in
  let t := root (tree_of s ino) in
  let s := free_from (length (inorder t)) ino (rb_first t) s in
  (count - node_cnt (tree_of s ino), s).

Definition __drop_largest_extent (ino : Z) (f l : Z) (s : ext_state) : ext_state :=
  let lg := largest (tree_of s ino) in
  if (f <? u32 (fofs lg + len lg)) && (fofs lg <? u64 (f + l)) then
    mark_dirty ino (upd_tree ino (set_largest (set_len 0 lg)) s)
  else s.

(** Returns whether the inode page is changed, and the extent in it. *)
Definition __f2fs_init_extent_tree (ino : Z) (i_ext : option (Z * Z * Z)) (s : ext_state)
  : bool * option (Z * Z * Z) * ext_state :=
  if negb (f2fs_may_extent_tree s ino) then
    match i_ext with
    | Some (f, b, l) => if c_true l then (true, Some (f, b, 0), s) else (false, i_ext, s)
    | None => (false, i_ext, s)
    end
  else
    let s := __grab_extent_tree ino s in
    match i_ext with
    | Some (f, b, l) =>
        if c_true l then
          if c_true (node_cnt (tree_of s ino)) then (false, i_ext, s)
          else
            match __init_extent_tree ino (get_extent_info (f, b, l)) s with
            | (Some en, s) => (false, i_ext, list_add_tail en s)
            | (None, s) => (false, i_ext, s)
            end
        else (false, i_ext, s)
    | None => (false, i_ext, s)
    end.

Definition f2fs_init_extent_tree (ino : Z) (i_ext : option (Z * Z * Z)) (s : ext_state)
  : bool * option (Z * Z * Z) * ext_state :=
  let '(ret, i_ext, s) := __f2fs_init_extent_tree ino i_ext s in
  (ret, i_ext, if x_extent_tree (inode_of s ino) then s else set_no_extent ino s).

Definition f2fs_lookup_extent_tree (ino pgofs : Z) (s : ext_state) : option extent_info * ext_state :=
  let s := f2fs_bug_on (negb (x_extent_tree (inode_of s ino))) s in
  let t := tree_of s ino in
  if (fofs (largest t) <=? pgofs) && (pgofs <? u32 (fofs (largest t) + len (largest t))) then
    (Some (largest t), s)
  else
    match __lookup_rb_tree (en_fofs s) (en_len s) (root t) (cached_en t) (u32 pgofs) with
    | None => (None, s)
    | Some en => (Some (node_ei s en), use_node ino en s)
    end.

(** The extent is merged into its neighbours; [prev_ex] is released when it has
    been merged into [next_ex]. *)
Definition merge_back (e : extent_info) (prev_ex : option positive) (s : ext_state)
  : extent_info * option positive * ext_state :=
  match prev_ex with
  | Some p =>
      if __is_back_mergeable e (node_ei s p) then
        let s := upd_node p (fun x => set_len (u32 (len x + len e)) x) s in
        (node_ei s p, Some p, s)
      else (e, None, s)
  | None => (e, None, s)
  end.

Definition merge_front (ino : Z) (e : extent_info) (en prev_ex next_ex : option positive) (s : ext_state)
  : option positive * ext_state :=
  match next_ex with
  | Some n =>
      if __is_front_mergeable e (node_ei s n) then
        let s := upd_node n (fun x => mk_ei (fofs e) (u32 (len x + len e)) (blk e)) s in
        let s := match en, prev_ex with Some _, Some p => __release_extent_node ino p s | _, _ => s end in
        (Some n, s)
      else (en, s)
  | None => (en, s)
  end.

Definition __try_merge_extent_node (ino : Z) (e : extent_info) (prev_ex next_ex : option positive) (s : ext_state)
  : option positive * ext_state :=
  let '(e, en, s) := merge_back e prev_ex s in
  match merge_front ino e en prev_ex next_ex s with
  | (None, s) => (None, s)
  | (Some en, s) => (Some en, use_node ino en (__try_update_largest_extent ino en s))
  end.

(** Where the extent goes: at the given link, or at the one found for it. *)
Definition insert_link (ino : Z) (e : extent_info) (insert_p : link) (s : ext_state) : option link * ext_state :=
  match insert_p with
  | Some _ => (Some insert_p, s)
  | None =>
      match __lookup_rb_tree_for_insert (en_fofs s) (en_len s) (root (tree_of s ino)) (fofs e) with
      | Some p => (Some p, s)
      | None => (None, f2fs_bug_on true s)
      end
  end.

Definition __insert_extent_tree (ino : Z) (e : extent_info) (insert_p : link) (s : ext_state)
  : option positive * ext_state :=
  match insert_link ino e insert_p s with
  | (None, s) => (None, s)
  | (Some p, s) =>
      match __attach_extent_node ino e p s with
      | (None, s) => (None, s)
      | (Some en, s) =>
          let s := __try_update_largest_extent ino en s in
          let s := list_add_tail en s in
          (Some en, upd_tree ino (set_cached_en (Some en)) s)
      end
  end.

(** The local variables of f2fs_update_extent_tree_range. *)
Record upd_vars := mk_uv {
  uv_en : option positive;
  uv_prev : option positive;
  uv_next : option positive;
  uv_dei : extent_info;
  uv_ins : link
}.

(** One extent in the range: what lies outside is kept if it is long enough. *)
Definition update_node (ino pos end_ : Z) (en : positive) (v : upd_vars) (s : ext_state) : upd_vars * ext_state :=
  let dei := node_ei s en in
  let org_end := u32 (fofs dei + len dei) in
  let s := f2fs_bug_on (org_end <=? pos) s in
  let front := (fofs dei <? pos) && (F2FS_MIN_EXTENT_LEN <=? u32 (pos - fofs dei)) in
  let back := (end_ <? org_end) && (F2FS_MIN_EXTENT_LEN <=? u32 (org_end - end_)) in
  let s := if front then upd_node en (fun x => set_len (u32 (pos - fofs x)) x) s else s in
  let prev_en := if front then Some en else uv_prev v in
  let '(next_en, s) :=
    if back then
      if front then
        __insert_extent_tree ino (set_extent_info end_ (u32 (end_ - fofs dei + blk dei)) (u32 (org_end - end_))) None s
      else
        (Some en, upd_node en (fun x => mk_ei end_ (u32 (len x - u32 (end_ - fofs dei))) (u32 (blk x + u32 (end_ - fofs dei)))) s)
    else (None, s) in
  let next_en := match next_en with None => rb_next (root (tree_of s ino)) en | _ => next_en end in
  let s := if front || back then __try_update_largest_extent ino en s else __release_extent_node ino en s in
  (mk_uv next_en prev_en next_en dei (if xorb front back then uv_ins v else None), s).

Fixpoint update_loop (fuel : nat) (ino pos end_ : Z) (v : upd_vars) (s : ext_state) : upd_vars * ext_state :=
  match uv_en v with
  | None => (v, s)
  | Some en =>
      if negb (fofs (node_ei s en) <? end_) then (v, s)
      else
        match fuel with
        | O => (v, f2fs_bug_on true s)
        | S fuel =>
            let '(v, s) := update_node ino pos end_ en v s in
            update_loop fuel ino pos end_ v s
        end
  end.

(** Step 3: the new extent is merged or inserted. *)
Definition enter_extent (ino : Z) (e : extent_info) (v : upd_vars) (s : ext_state) : ext_state :=
  match __try_merge_extent_node ino e (uv_prev v) (uv_next v) s with
  | (None, s) => (__insert_extent_tree ino e (uv_ins v) s).2
  | (Some _, s) => s
  end.

(** The cache is given up when extents stay small. *)
Definition update_extent (ino f blkaddr l : Z) (prev : extent_info) (v : upd_vars) (s : ext_state) : ext_state :=
  let s := enter_extent ino (set_extent_info f blkaddr l) v s in
  if (1 <=? len (uv_dei v)) && (len prev <? F2FS_MIN_EXTENT_LEN) &&
     (len (largest (tree_of s ino)) <? F2FS_MIN_EXTENT_LEN)
  then set_no_extent ino (__drop_largest_extent ino 0 UINT_MAX s)
  else s.

Definition f2fs_update_extent_tree_range (ino f blkaddr l : Z) (s : ext_state) : ext_state :=
  if negb (x_extent_tree (inode_of s ino)) then s
  else if no_extent_flag s ino then s
  else
    let end_ := u32 (f + l) in
    let pos := u32 f in
    let prev := largest (tree_of s ino) in
    let s := __drop_largest_extent ino f l s in
    let t := tree_of s ino in
    let r := __lookup_rb_tree_ret (en_fofs s) (en_len s) (root t) (cached_en t) (u32 f) false in
    let en := match lr_entry r with None => next_entry r | en => en end in
    let v := mk_uv en (prev_entry r) (next_entry r) no_ei (insert_p r) in
    let '(v, s) := update_loop (S (length (inorder (root t)))) ino pos end_ v s in
    let s := if c_true blkaddr then update_extent ino f blkaddr l prev v s else s in
    if no_extent_flag s ino then (__free_extent_tree ino s).2 else s.

(** The trees of evicted inodes go first. *)
Fixpoint shrink_zombies (nr_shrink : Z) (l : list Z) (node_cnt_ tree_cnt : Z) (s : ext_state)
  : bool * Z * Z * ext_state :=
  match l with
  | [] => (false, node_cnt_, tree_cnt, s)
  | ino :: l =>
      let '(freed, s) := if c_true (node_cnt (tree_of s ino)) then __free_extent_tree ino s else (0, s) in
      let node_cnt_ := u32 (node_cnt_ + freed) in
      let s := f2fs_bug_on (c_true (node_cnt (tree_of s ino))) s in
      let s := set_zombie_list (filter (fun i => i <> ino) (zombie_list s)) s in
      let s := set_extent_tree_root (delete ino (extent_tree_root s)) s in
      let s := set_total_ext_tree (total_ext_tree s - 1) s in
      let s := set_total_zombie_tree (total_zombie_tree s - 1) s in
      let tree_cnt := u32 (tree_cnt + 1) in
      if u32 nr_shrink <=? u32 (node_cnt_ + tree_cnt) then (true, node_cnt_, tree_cnt, s)
      else shrink_zombies nr_shrink l node_cnt_ tree_cnt s
  end.

(** Then the extents used longest ago; [trylock] says whether the lock of their
    tree was free when [remained] was left to do. *)
Fixpoint shrink_lru (remained : nat) (trylock : nat -> bool) (node_cnt_ : Z) (s : ext_state) : Z * ext_state :=
  match remained with
  | O => (node_cnt_, s)
  | S rest =>
      match extent_list s with
      | [] => (node_cnt_, s)
      | en :: _ =>
          let ino := match nodes s !! en with Some n => et n | None => 0 end in
          if negb (trylock remained) then
            shrink_lru rest trylock node_cnt_ (list_add_tail en (list_del_init en s))
          else
            let s := list_del_init en s in
            let s := __detach_extent_node ino en s in
            shrink_lru rest trylock (u32 (node_cnt_ + 1)) s
      end
  end.

(** [lock1] and [lock2]: the two attempts to take extent_tree_lock. *)
Definition f2fs_shrink_extent_tree (nr_shrink : Z) (lock1 lock2 : bool) (trylock : nat -> bool) (s : ext_state)
  : Z * ext_state :=
  if negb (extent_cache_opt s) then (0, s)
  else
    let free_node (node_cnt_ tree_cnt : Z) (s : ext_state) :=
      if negb lock2 then (u32 (node_cnt_ + tree_cnt), s)
      else
        let remained := s32 (nr_shrink - u32 (node_cnt_ + tree_cnt)) in
        let '(node_cnt_, s) := shrink_lru (Z.to_nat remained) trylock node_cnt_ s in
        (u32 (node_cnt_ + tree_cnt), s) in
    if negb (c_true (total_zombie_tree s)) then free_node 0 0 s
    else if negb lock1 then (0, s)
    else
      let '(enough, node_cnt_, tree_cnt, s) := shrink_zombies nr_shrink (zombie_list s) 0 0 s in
      if enough : bool then (u32 (node_cnt_ + tree_cnt), s) else free_node node_cnt_ tree_cnt s.

Definition f2fs_destroy_extent_node (ino : Z) (s : ext_state) : Z * ext_state :=
  if negb (x_extent_tree (inode_of s ino)) || negb (c_true (node_cnt (tree_of s ino))) then (0, s)
  else __free_extent_tree ino s.

(** The code uses the tree without a look at the pointer: without a tree (the
    mount option off) that is a null pointer, here a BUG. *)
Definition f2fs_drop_extent_tree (ino : Z) (s : ext_state) : ext_state :=
  let s := set_no_extent ino s in
  let s := f2fs_bug_on (negb (x_extent_tree (inode_of s ino))) s in
  let '(_, s) := __free_extent_tree ino s in
  __drop_largest_extent ino 0 UINT_MAX s.

Definition f2fs_destroy_extent_tree (ino : Z) (s : ext_state) : ext_state :=
  if negb (x_extent_tree (inode_of s ino)) then s
  else if c_true (x_nlink (inode_of s ino)) && negb (x_bad (inode_of s ino)) && c_true (node_cnt (tree_of s ino)) then
    set_total_zombie_tree (total_zombie_tree s + 1) (set_zombie_list (zombie_list s ++ [ino]) s)
  else
    let '(_, s) := f2fs_destroy_extent_node ino s in
    let s := f2fs_bug_on (c_true (node_cnt (tree_of s ino))) s in
    let s := set_extent_tree_root (delete ino (extent_tree_root s)) s in
    let s := set_total_ext_tree (total_ext_tree s - 1) s in
    upd_inode ino (set_x_extent_tree false) s.

Definition f2fs_lookup_extent_cache (ino pgofs : Z) (s : ext_state) : option extent_info * ext_state :=
  if negb (f2fs_may_extent_tree s ino) then (None, s) else f2fs_lookup_extent_tree ino pgofs s.

(** dn is given by its inode, the offset of its node in the file, the index in
    the node and the address there. *)
Definition f2fs_update_extent_cache (i : inode) (ofs_of_node ofs_in_node data_blkaddr : Z) (s : ext_state) : ext_state :=
  if negb (f2fs_may_extent_tree s (i_ino i)) then s
  else
    let blkaddr := if data_blkaddr =? NEW_ADDR then NULL_ADDR else data_blkaddr in
    let f := start_bidx_of_node ofs_of_node i + ofs_in_node in
    f2fs_update_extent_tree_range (i_ino i) f blkaddr 1 s.

Definition f2fs_update_extent_cache_range (ino f blkaddr l : Z) (s : ext_state) : ext_state :=
  if negb (f2fs_may_extent_tree s ino) then s else f2fs_update_extent_tree_range ino f blkaddr l s.

Definition init_extent_cache_info (opt : bool) : ext_state :=
  mk_xs opt ∅ [] ∅ [] 0 0 0 ∅ false.
End extent_cache.
