(* ===== verification/ExtentWf.v ===== *)
(** * The extent cache: its invariant and the effect of its primitives

    [xs_ok] ties the trees, the store of nodes, the list of all nodes and the
    counters together.  The tree of an inode is described by its [view], the
    extents in their order; [eff] says that an operation on one inode keeps the
    invariant, leaves the other inodes alone ([frame]) and has a given view and
    largest extent as its result. *)

From stdpp Require Import base numbers option gmap list sorting fin_maps.
From S2P Require Import Prelude Inode NodePath RbTree Extent.

(** ** Views *)

Definition extents := list (positive * extent_info).
Definition view_of (s : ext_state) (l : list positive) : extents := map (fun p => (p, node_ei s p)) l.
Definition view (s : ext_state) (ino : Z) : extents := view_of s (inorder (root (tree_of s ino))).

Definition ei_end (e : extent_info) : Z := fofs e + len e.
Definition ei_ok (e : extent_info) : Prop := 0 <= fofs e /\ 0 < len e /\ ei_end e < 2 ^ 32.
Definition ei_before (a b : positive * extent_info) : Prop := ei_end a.2 <= fofs b.2.
Definition view_wf (v : extents) : Prop := StronglySorted ei_before v /\ Forall (fun a => ei_ok a.2) v.

Lemma view_app v1 v2 :
  view_wf (v1 ++ v2) <-> view_wf v1 /\ view_wf v2 /\ (forall a b, a ∈ v1 -> b ∈ v2 -> ei_before a b).
Proof.
  unfold view_wf. rewrite Forall_app. split.
  - intros (Hs & H1 & H2). apply StronglySorted_app in Hs as (Hc & S1 & S2). done.
  - intros ((S1 & F1) & (S2 & F2) & Hc). split; [|done]. by apply StronglySorted_app_2.
Qed.

Lemma view_cons a v :
  view_wf (a :: v) <-> ei_ok a.2 /\ view_wf v /\ (forall b, b ∈ v -> ei_before a b).
Proof.
  unfold view_wf. rewrite Forall_cons. split.
  - intros (Hs & H1 & H2). apply StronglySorted_inv in Hs as (Hs & Hf). rewrite Forall_forall in Hf. done.
  - intros (H1 & (Hs & H2) & Hc). split; [|done]. constructor; [done|]. by apply Forall_forall.
Qed.

Lemma view_nil : view_wf [].
Proof. split; constructor. Qed.

Lemma view_ranges s l : view_wf (view_of s l) <-> ranges_wf (en_fofs s) (en_len s) l.
Proof.
  induction l as [|p l IH]; cbn.
  - split; intros _; [apply ranges_nil|apply view_nil].
  - rewrite view_cons, ranges_cons, IH. unfold ei_ok, range_ok, ei_before, rb_before, ei_end, en_fofs, en_len. cbn.
    split; intros (H1 & H2 & H3); (split; [done|]); (split; [done|]).
    + intros q Hq. apply (H3 (q, node_ei s q)). apply list_elem_of_fmap. by exists q.
    + intros b (q & -> & Hq)%list_elem_of_fmap. by apply H3.
Qed.

Lemma view_of_app s l1 l2 : view_of s (l1 ++ l2) = view_of s l1 ++ view_of s l2.
Proof. apply map_app. Qed.

Lemma view_of_ext s s' l : (forall p, p ∈ l -> node_ei s' p = node_ei s p) -> view_of s' l = view_of s l.
Proof.
  intros H. induction l as [|p l IH]; [done|]. cbn. rewrite H by left. f_equal. apply IH. intros q Hq. apply H. by right.
Qed.

Lemma view_of_split s l v1 a v2 : view_of s l = v1 ++ a :: v2 ->
  exists l1 l2, l = l1 ++ a.1 :: l2 /\ view_of s l1 = v1 /\ view_of s l2 = v2 /\ node_ei s a.1 = a.2.
Proof.
  intros H. apply map_eq_app in H as (l1 & l2 & -> & H1 & H2).
  destruct l2 as [|p l2]; [done|]. injection H2 as Ha H2. exists l1, l2. subst a. done.
Qed.

Lemma view_of_split2 s l v1 v2 : view_of s l = v1 ++ v2 ->
  exists l1 l2, l = l1 ++ l2 /\ view_of s l1 = v1 /\ view_of s l2 = v2.
Proof. intros (l1 & l2 & -> & H1 & H2)%map_eq_app. by exists l1, l2. Qed.

(** ** The invariant *)

Record tree_ok (s : ext_state) (ino : Z) (t : extent_tree) : Prop := {
  to_nodup : NoDup (inorder (root t));
  to_nodes p : p ∈ inorder (root t) <-> exists e, nodes s !! p = Some (mk_en e ino);
  to_cnt : node_cnt t = Z.of_nat (length (inorder (root t)));
  to_cached c : cached_en t = Some c -> c ∈ inorder (root t)
}.

Record xs_ok (s : ext_state) : Prop := {
  ok_tree ino t : extent_tree_root s !! ino = Some t -> tree_ok s ino t;
  ok_node p n : nodes s !! p = Some n -> is_Some (extent_tree_root s !! et n);
  ok_list : NoDup (extent_list s) /\ forall p, p ∈ extent_list s <-> is_Some (nodes s !! p);
  ok_nodes : total_ext_node s = Z.of_nat (size (nodes s));
  ok_trees : total_ext_tree s = Z.of_nat (size (extent_tree_root s));
  ok_zombies : total_zombie_tree s = Z.of_nat (length (zombie_list s));
  ok_zombie : NoDup (zombie_list s) /\ forall i, i ∈ zombie_list s -> is_Some (extent_tree_root s !! i);
  ok_bug : xbug s = false
}.

(** What an operation on one inode leaves alone.  Changes of the largest extent,
    which the inode keeps on disk, mark the inode dirty. *)
Record frame (ino : Z) (s s' : ext_state) : Prop := {
  fr_view i : i <> ino -> view s' i = view s i;
  fr_largest i : i <> ino -> largest (tree_of s' i) = largest (tree_of s i);
  fr_tree i : is_Some (extent_tree_root s' !! i) <-> is_Some (extent_tree_root s !! i);
  fr_zombie : zombie_list s' = zombie_list s;
  fr_opt : extent_cache_opt s' = extent_cache_opt s;
  fr_inodes i : is_Some (xinodes s' !! i) <-> is_Some (xinodes s !! i);
  fr_inode i : set_x_dirty false (inode_of s' i) = set_x_dirty false (inode_of s i);
  fr_stay i : x_dirty (inode_of s i) = true -> x_dirty (inode_of s' i) = true;
  fr_dirty : is_Some (xinodes s !! ino) -> largest (tree_of s' ino) = largest (tree_of s ino) \/ x_dirty (inode_of s' ino) = true
}.

#[export] Instance frame_preorder ino : PreOrder (frame ino).
Proof.
  split; [split; auto; done|]. intros s1 s2 s3 [A1 A2 A3 A4 A5 A6 A7 A8 A9] [B1 B2 B3 B4 B5 B6 B7 B8 B9]. split.
  - intros i Hi. by rewrite B1, A1.
  - intros i Hi. by rewrite B2, A2.
  - intros i. by rewrite B3, A3.
  - by rewrite B4, A4.
  - by rewrite B5, A5.
  - intros i. by rewrite B6, A6.
  - intros i. by rewrite B7, A7.
  - auto.
  - intros Hi. destruct (B9 (proj2 (A6 ino) Hi)) as [->|]; [|by right]. destruct (A9 Hi); [by left|right; auto].
Qed.

Record eff (ino : Z) (s s' : ext_state) (v : extents) (lg : extent_info) : Prop := {
  ef_ok : xs_ok s';
  ef_frame : frame ino s s';
  ef_view : view s' ino = v;
  ef_largest : largest (tree_of s' ino) = lg
}.

Lemma eff_refl ino s : xs_ok s -> eff ino s s (view s ino) (largest (tree_of s ino)).
Proof. intros H. by split. Qed.

Lemma eff_trans ino s1 s2 s3 v2 lg2 v3 lg3 : eff ino s1 s2 v2 lg2 -> eff ino s2 s3 v3 lg3 -> eff ino s1 s3 v3 lg3.
Proof. intros [A1 A2 A3 A4] [B1 B2 B3 B4]. split; [done|by etrans|done|done]. Qed.

(** The flags of an inode are not touched. *)
Lemma frame_flag ino s s' i : frame ino s s' -> no_extent_flag s' i = no_extent_flag s i.
Proof.
  intros F. pose proof (fr_inode _ _ _ F i) as H. unfold no_extent_flag.
  destruct (inode_of s' i), (inode_of s i). cbn in H. by injection H as -> -> -> -> ->.
Qed.
Lemma frame_pointer ino s s' i : frame ino s s' -> x_extent_tree (inode_of s' i) = x_extent_tree (inode_of s i).
Proof.
  intros F. pose proof (fr_inode _ _ _ F i) as H.
  destruct (inode_of s' i), (inode_of s i). cbn in H. by injection H as -> -> -> -> ->.
Qed.

(** ** Changes of one tree *)

Definition mine (ino : Z) (n : option extent_node) : Prop := forall x, n = Some x -> et x = ino.

(** A change of the tree of one inode, of nodes of this tree and of the dirty
    flags of inodes. *)
Record local_change (ino : Z) (s s' : ext_state) (t' : extent_tree) : Prop := {
  lc_root : extent_tree_root s' = <[ino := t']> (extent_tree_root s);
  lc_nodes p : nodes s' !! p = nodes s !! p \/ mine ino (nodes s !! p) /\ mine ino (nodes s' !! p);
  lc_trees : total_ext_tree s' = total_ext_tree s;
  lc_zombies : total_zombie_tree s' = total_zombie_tree s;
  lc_zombie : zombie_list s' = zombie_list s;
  lc_opt : extent_cache_opt s' = extent_cache_opt s;
  lc_bug : xbug s' = xbug s;
  lc_inodes : xinodes s' = xinodes s \/ xinodes s' = xinodes (mark_dirty ino s);
  lc_dirty : largest t' = largest (tree_of s ino) \/ xinodes s' = xinodes (mark_dirty ino s)
}.

Lemma local_tree ino s s' t' : local_change ino s s' t' -> tree_of s' ino = t'.
Proof. intros H. unfold tree_of. by rewrite (lc_root _ _ _ _ H), lookup_insert_eq. Qed.

Lemma local_other ino s s' t' i : local_change ino s s' t' -> i <> ino -> tree_of s' i = tree_of s i.
Proof. intros H Hi. unfold tree_of. by rewrite (lc_root _ _ _ _ H), lookup_insert_ne. Qed.

Lemma node_of_tree s ino p : xs_ok s -> is_Some (extent_tree_root s !! ino) -> p ∈ inorder (root (tree_of s ino)) ->
  nodes s !! p = Some (mk_en (node_ei s p) ino).
Proof.
  intros Hok (t & Ht) Hp. unfold tree_of in Hp. rewrite Ht in Hp.
  apply (to_nodes _ _ _ (ok_tree _ Hok _ _ Ht)) in Hp as (e & He). unfold node_ei. by rewrite He.
Qed.

Lemma no_tree_view s i : extent_tree_root s !! i = None -> view s i = [].
Proof. intros H. unfold view, tree_of. by rewrite H. Qed.

Lemma local_view ino s s' t' i : xs_ok s -> local_change ino s s' t' -> i <> ino -> view s' i = view s i.
Proof.
  intros Hok Hl Hi. unfold view. rewrite (local_other _ _ _ _ _ Hl Hi).
  destruct (extent_tree_root s !! i) as [t|] eqn:Et; [|unfold tree_of; by rewrite Et].
  apply view_of_ext. intros p Hp. pose proof (node_of_tree _ _ _ Hok (mk_is_Some _ _ Et) Hp) as Hn.
  unfold node_ei. destruct (lc_nodes _ _ _ _ Hl p) as [->|[Hm _]]; [done|].
  exfalso. apply Hi. exact (Hm _ Hn).
Qed.

Lemma mark_dirty_inode ino s i :
  inode_of (mark_dirty ino s) i = (if decide (i = ino) then
    match xinodes s !! ino with Some x => set_x_dirty true x | None => no_inode end else inode_of s i).
Proof.
  unfold inode_of, mark_dirty, upd_inode. cbn. case_decide; subst.
  - rewrite lookup_alter_eq. by destruct (xinodes s !! ino).
  - by rewrite lookup_alter_ne.
Qed.

Lemma inodes_frame ino s s' : xinodes s' = xinodes s \/ xinodes s' = xinodes (mark_dirty ino s) ->
  (forall i, is_Some (xinodes s' !! i) <-> is_Some (xinodes s !! i)) /\
  (forall i, set_x_dirty false (inode_of s' i) = set_x_dirty false (inode_of s i)) /\
  (forall i, x_dirty (inode_of s i) = true -> x_dirty (inode_of s' i) = true).
Proof.
  intros [H|H].
  - unfold inode_of. rewrite H. done.
  - assert (Hi : forall i, inode_of s' i = inode_of (mark_dirty ino s) i) by (intros; unfold inode_of; by rewrite H).
    split; [|split]; intros i.
    + rewrite H. unfold mark_dirty, upd_inode. cbn. by rewrite lookup_alter_is_Some.
    + rewrite Hi, mark_dirty_inode. case_decide; [subst|done]. unfold inode_of. by destruct (xinodes s !! ino).
    + rewrite Hi, mark_dirty_inode. case_decide; [subst|done]. unfold inode_of. by destruct (xinodes s !! ino).
Qed.

Lemma local_frame ino s s' t' : xs_ok s -> is_Some (extent_tree_root s !! ino) -> local_change ino s s' t' -> frame ino s s'.
Proof.
  intros Hok Ht Hl. destruct (inodes_frame _ _ _ (lc_inodes _ _ _ _ Hl)) as (I1 & I2 & I3). split; auto.
  - intros i Hi. by apply (local_view _ _ _ _ _ Hok Hl).
  - intros i Hi. by rewrite (local_other _ _ _ _ _ Hl Hi).
  - intros i. rewrite (lc_root _ _ _ _ Hl). destruct (decide (i = ino)) as [->|].
    + rewrite lookup_insert_eq. by split.
    + by rewrite lookup_insert_ne.
  - apply (lc_zombie _ _ _ _ Hl).
  - apply (lc_opt _ _ _ _ Hl).
  - intros (x & Hx). rewrite (local_tree _ _ _ _ Hl). destruct (lc_dirty _ _ _ _ Hl) as [|H]; [by left|right].
    unfold inode_of. rewrite H. fold (inode_of (mark_dirty ino s) ino). rewrite mark_dirty_inode, decide_True, Hx by done. done.
Qed.

Lemma local_eff ino s s' t' : xs_ok s -> is_Some (extent_tree_root s !! ino) -> local_change ino s s' t' ->
  tree_ok s' ino t' -> (NoDup (extent_list s') /\ forall p, p ∈ extent_list s' <-> is_Some (nodes s' !! p)) ->
  total_ext_node s' = Z.of_nat (size (nodes s')) ->
  eff ino s s' (view_of s' (inorder (root t'))) (largest t').
Proof.
  intros Hok Ht Hl Hto Hlist Hn. pose proof (local_frame _ _ _ _ Hok Ht Hl) as F. split; [|done| |].
  - pose proof Hl as [L1 L2 L3 L4 L5 L6 L7 L8 L9]. pose proof Hok as [O1 O2 O3 O4 O5 O6 O7 O8]. split; auto.
    + intros i t. rewrite L1. destruct (decide (i = ino)) as [->|Hi]; [rewrite lookup_insert_eq; by intros [= <-]|].
      rewrite lookup_insert_ne by done. intros Hti. destruct (O1 _ _ Hti) as [T1 T2 T3 T4]. split; auto.
      intros p. rewrite T2. destruct (L2 p) as [->|[M1 M2]]; [done|].
      split; intros (e & He); exfalso; apply Hi; [exact (M1 _ He)|exact (M2 _ He)].
    + intros p n Hp. destruct (L2 p) as [E|[M1 M2]].
      * rewrite E in Hp. apply (fr_tree _ _ _ F). by apply O2 in Hp.
      * rewrite (M2 _ Hp). by apply (fr_tree _ _ _ F).
    + rewrite L3, O5, L1. by rewrite map_size_insert_Some by done.
    + by rewrite L4, L5.
    + rewrite L5. destruct O7 as (O7 & O7'). split; [done|]. intros i Hi. by apply (fr_tree _ _ _ F), O7'.
    + by rewrite L7.
  - unfold view. by rewrite (local_tree _ _ _ _ Hl).
  - by rewrite (local_tree _ _ _ _ Hl).
Qed.

(** ** The primitives *)

Lemma tree_upd ino f s : tree_of (upd_tree ino f s) ino = f (tree_of s ino).
Proof. unfold tree_of, upd_tree. cbn. by rewrite lookup_insert_eq. Qed.

Lemma root_upd ino f s : extent_tree_root (upd_tree ino f s) = <[ino := f (tree_of s ino)]> (extent_tree_root s).
Proof. done. Qed.

Lemma tree_insert ino s : is_Some (extent_tree_root s !! ino) -> <[ino := tree_of s ino]> (extent_tree_root s) = extent_tree_root s.
Proof. intros (t & Ht). apply insert_id. unfold tree_of. by rewrite Ht. Qed.

Lemma tree_of_ok s ino : xs_ok s -> is_Some (extent_tree_root s !! ino) -> tree_ok s ino (tree_of s ino).
Proof. intros Hok (t & Ht). unfold tree_of. rewrite Ht. by apply Hok. Qed.

Lemma view_elem s ino v1 p e v2 : xs_ok s -> is_Some (extent_tree_root s !! ino) -> view s ino = v1 ++ (p, e) :: v2 ->
  exists l1 l2, inorder (root (tree_of s ino)) = l1 ++ p :: l2 /\ view_of s l1 = v1 /\ view_of s l2 = v2 /\
    node_ei s p = e /\ nodes s !! p = Some (mk_en e ino) /\ p ∉ l1 /\ p ∉ l2.
Proof.
  intros Hok Ht (l1 & l2 & Hl & H1 & H2 & He)%view_of_split. cbn in *. exists l1, l2. pose proof (tree_of_ok _ _ Hok Ht) as [T1 _ _ _].
  rewrite Hl in T1. apply NoDup_app in T1 as (_ & T1 & (T2 & _)%NoDup_cons).
  split_and!; try done.
  - rewrite <- He. apply node_of_tree; [done..|]. rewrite Hl. apply elem_of_app. right. left.
  - intros Hp. apply (T1 _ Hp). left.
Qed.

Lemma size_alter (g : extent_node -> extent_node) p (m : gmap positive extent_node) : size (alter g p m) = size m.
Proof. by rewrite <- (size_dom (D := gset positive) m), <- (size_dom (D := gset positive) (alter g p m)), dom_alter_L. Qed.

(** Only the extent of one node changes. *)
Lemma upd_node_eff ino p f s v1 e v2 : xs_ok s -> is_Some (extent_tree_root s !! ino) -> view s ino = v1 ++ (p, e) :: v2 ->
  eff ino s (upd_node p f s) (v1 ++ (p, f e) :: v2) (largest (tree_of s ino)).
Proof.
  intros Hok Ht Hv. destruct (view_elem _ _ _ _ _ _ Hok Ht Hv) as (l1 & l2 & Hl & H1 & H2 & He & Hp & N1 & N2).
  assert (Hnew : nodes (upd_node p f s) !! p = Some (mk_en (f e) ino)).
  { unfold upd_node. cbn. by rewrite lookup_alter_eq, Hp. }
  assert (Hold : forall q, q <> p -> nodes (upd_node p f s) !! q = nodes s !! q).
  { intros q Hq. unfold upd_node. cbn. by rewrite lookup_alter_ne. }
  assert (Hsome : forall q, is_Some (nodes (upd_node p f s) !! q) <-> is_Some (nodes s !! q)).
  { intros q. destruct (decide (q = p)) as [->|]; [rewrite Hnew, Hp; by split|by rewrite Hold]. }
  assert (Hview : view_of (upd_node p f s) (inorder (root (tree_of s ino))) = v1 ++ (p, f e) :: v2).
  { rewrite Hl, view_of_app. cbn. rewrite <- H1, <- H2.
    replace (node_ei (upd_node p f s) p) with (f e) by (unfold node_ei; by rewrite Hnew). f_equal; [|f_equal].
    - apply view_of_ext. intros q Hq. unfold node_ei. rewrite Hold; [done|]. by intros ->.
    - apply view_of_ext. intros q Hq. unfold node_ei. rewrite Hold; [done|]. by intros ->. }
  rewrite <- Hview. pose proof (tree_of_ok _ _ Hok Ht) as [T1 T2 T3 T4]. apply local_eff; [done|done| | | |].
  - split; try done; try (by left).
    + cbn. by rewrite tree_insert.
    + intros q. destruct (decide (q = p)) as [->|]; [right|left; auto]. rewrite Hp, Hnew. by split; intros x [= <-].
  - split; [done| |done|done]. intros q. rewrite T2. destruct (decide (q = p)) as [->|]; [|by rewrite Hold].
    rewrite Hp, Hnew. split; intros _; by eexists.
  - destruct (ok_list _ Hok) as (L1 & L2). split; [done|]. intros q. rewrite Hsome. apply L2.
  - change (total_ext_node (upd_node p f s)) with (total_ext_node s). rewrite (ok_nodes _ Hok). cbn. by rewrite size_alter.
Qed.

(** Changes of the tree record only: the node used last and the largest extent. *)
Lemma upd_tree_eff ino f s : xs_ok s -> is_Some (extent_tree_root s !! ino) ->
  root (f (tree_of s ino)) = root (tree_of s ino) -> node_cnt (f (tree_of s ino)) = node_cnt (tree_of s ino) ->
  largest (f (tree_of s ino)) = largest (tree_of s ino) ->
  (forall c, cached_en (f (tree_of s ino)) = Some c -> c ∈ inorder (root (tree_of s ino))) ->
  eff ino s (upd_tree ino f s) (view s ino) (largest (tree_of s ino)).
Proof.
  intros Hok Ht Hr Hn Hlg Hc. pose proof (tree_of_ok _ _ Hok Ht) as [T1 T2 T3 T4].
  replace (view s ino) with (view_of (upd_tree ino f s) (inorder (root (f (tree_of s ino))))) by (unfold view; by rewrite Hr).
  rewrite <- Hlg. apply local_eff; [done|done| | | |].
  - split; try done; by left.
  - split; rewrite Hr, ?Hn; done.
  - apply Hok.
  - apply Hok.
Qed.

Lemma set_largest_eff ino lg s : xs_ok s -> is_Some (extent_tree_root s !! ino) ->
  eff ino s (mark_dirty ino (upd_tree ino (set_largest lg) s)) (view s ino) lg.
Proof.
  intros Hok Ht. pose proof (tree_of_ok _ _ Hok Ht) as [T1 T2 T3 T4].
  apply (local_eff ino s (mark_dirty ino (upd_tree ino (set_largest lg) s)) (set_largest lg (tree_of s ino)));
    [done|done| | |apply Hok|apply Hok].
  - split; try done; first [by left|by right].
  - by split.
Qed.

Lemma try_largest_eff ino en s : xs_ok s -> is_Some (extent_tree_root s !! ino) ->
  eff ino s (__try_update_largest_extent ino en s) (view s ino)
    (if len (largest (tree_of s ino)) <? en_len s en then node_ei s en else largest (tree_of s ino)).
Proof.
  intros Hok Ht. unfold __try_update_largest_extent. case_if; [by apply set_largest_eff|by apply eff_refl].
Qed.

Lemma drop_largest_eff ino f l s : xs_ok s -> is_Some (extent_tree_root s !! ino) ->
  eff ino s (__drop_largest_extent ino f l s) (view s ino)
    (let lg := largest (tree_of s ino) in
     if (f <? u32 (fofs lg + len lg)) && (fofs lg <? u64 (f + l)) then set_len 0 lg else lg).
Proof.
  intros Hok Ht. unfold __drop_largest_extent. cbv zeta. case_if; [by apply set_largest_eff|by apply eff_refl].
Qed.

(** Moving a node in the list of all nodes. *)
Lemma elem_list_del (p q : positive) l : q ∈ list_del p l <-> q <> p /\ q ∈ l.
Proof. unfold list_del. by rewrite list_elem_of_filter. Qed.

Lemma move_tail_ok p l : NoDup l -> p ∈ l -> NoDup (list_del p l ++ [p]) /\ forall q, q ∈ list_del p l ++ [p] <-> q ∈ l.
Proof.
  intros Hnd Hp. split.
  - apply NoDup_app. split; [by apply NoDup_filter|]. split; [|apply NoDup_singleton].
    intros q (Hq & _)%elem_list_del ->%list_elem_of_singleton. done.
  - intros q. rewrite elem_of_app, elem_list_del, list_elem_of_singleton. destruct (decide (q = p)); naive_solver.
Qed.

Lemma move_tail_eff ino p s : xs_ok s -> is_Some (extent_tree_root s !! ino) -> p ∈ extent_list s ->
  eff ino s (list_add_tail p (list_del_init p s)) (view s ino) (largest (tree_of s ino)).
Proof.
  intros Hok Ht Hp. destruct (ok_list _ Hok) as (L1 & L2). destruct (move_tail_ok _ _ L1 Hp) as (M1 & M2).
  apply (local_eff ino s (list_add_tail p (list_del_init p s)) (tree_of s ino)); [done|done| | | |apply Hok].
  - split; try done; try (by left). cbn. by rewrite tree_insert.
  - pose proof (tree_of_ok _ _ Hok Ht) as [T1 T2 T3 T4]. by split.
  - cbn. split; [done|]. intros q. by rewrite M2.
Qed.

Lemma use_node_eff ino p s : xs_ok s -> is_Some (extent_tree_root s !! ino) -> p ∈ inorder (root (tree_of s ino)) ->
  eff ino s (use_node ino p s) (view s ino) (largest (tree_of s ino)).
Proof.
  intros Hok Ht Hp. unfold use_node. case_bool_decide; [|by apply eff_refl].
  pose proof (move_tail_eff _ _ _ Hok Ht H) as E. eapply eff_trans; [exact E|].
  rewrite <- (ef_view _ _ _ _ _ E), <- (ef_largest _ _ _ _ _ E). apply upd_tree_eff; try done.
  - apply E.
  - intros c [= <-]. done.
Qed.

Section primitives.
Context `{Hrb : !RbOps} `{Hrl : !RbLaws}.

(** A node that leaves the list and the tree. *)
Definition detached_tree (en : positive) (t : extent_tree) : extent_tree :=
  let t := set_node_cnt (node_cnt t - 1) (set_root (rb_erase (root t) en) t) in
  if decide (cached_en t = Some en) then set_cached_en None t else t.

Lemma detach_root ino en s :
  extent_tree_root (__detach_extent_node ino en s) = <[ino := detached_tree en (tree_of s ino)]> (extent_tree_root s).
Proof.
  unfold __detach_extent_node, detached_tree. cbv zeta.
  set (s1 := set_total_ext_node _ _).
  assert (H1 : tree_of s1 ino = set_node_cnt (node_cnt (tree_of s ino) - 1) (set_root (rb_erase (root (tree_of s ino)) en) (tree_of s ino))).
  { unfold s1. change (tree_of (set_total_ext_node ?x ?y) ino) with (tree_of y ino). rewrite !tree_upd. done. }
  rewrite H1. cbn [node_cnt set_root]. case_decide.
  - subst s1. repeat progress (unfold tree_of, upd_tree; cbn; rewrite ?lookup_insert_eq). by rewrite !insert_insert_eq.
  - subst s1. repeat progress (unfold tree_of, upd_tree; cbn; rewrite ?lookup_insert_eq). by rewrite !insert_insert_eq.
Qed.

Lemma detach_rest ino en s : let s' := __detach_extent_node ino en s in
  nodes s' = delete en (nodes s) /\ extent_list s' = extent_list s /\ total_ext_node s' = total_ext_node s - 1 /\
  total_ext_tree s' = total_ext_tree s /\ total_zombie_tree s' = total_zombie_tree s /\ zombie_list s' = zombie_list s /\
  extent_cache_opt s' = extent_cache_opt s /\ xbug s' = xbug s /\ xinodes s' = xinodes s.
Proof. unfold __detach_extent_node. cbv zeta. by case_decide. Qed.

Lemma detach_eff ino en s v1 e v2 : xs_ok s -> is_Some (extent_tree_root s !! ino) -> view s ino = v1 ++ (en, e) :: v2 ->
  eff ino s (__detach_extent_node ino en (list_del_init en s)) (v1 ++ v2) (largest (tree_of s ino)).
Proof.
  intros Hok Ht Hv. destruct (view_elem _ _ _ _ _ _ Hok Ht Hv) as (l1 & l2 & Hl & H1 & H2 & He & Hp & N1 & N2).
  pose proof (detach_root ino en (list_del_init en s)) as Hr. change (tree_of (list_del_init en s) ino) with (tree_of s ino) in Hr.
  destruct (detach_rest ino en (list_del_init en s)) as (R1 & R2 & R3 & R4 & R5 & R6 & R7 & R8 & R9).
  set (s' := __detach_extent_node ino en (list_del_init en s)) in *. clearbody s'. cbn in R1, R2, R3, Hr.
  pose proof (tree_of_ok _ _ Hok Ht) as [T1 T2 T3 T4]. set (t := tree_of s ino) in *.
  assert (Ho : inorder (root (detached_tree en t)) = l1 ++ l2).
  { unfold detached_tree. case_decide; cbn; by apply erase_order. }
  assert (Hlg : largest (detached_tree en t) = largest t) by (unfold detached_tree; by case_decide).
  assert (Hold : forall q, q <> en -> nodes s' !! q = nodes s !! q) by (intros; rewrite R1; by rewrite lookup_delete_ne).
  assert (Hgone : nodes s' !! en = None) by (by rewrite R1, lookup_delete_eq).
  assert (Hview : view_of s' (inorder (root (detached_tree en t))) = v1 ++ v2).
  { rewrite Ho, view_of_app, <- H1, <- H2. f_equal; apply view_of_ext; intros q Hq; unfold node_ei; rewrite Hold; try done; by intros ->. }
  rewrite <- Hview, <- Hlg. apply local_eff; [done|done| | | |].
  - split; try done; [|by left|by left].
    intros q. destruct (decide (q = en)) as [->|]; [right|left; auto]. rewrite Hp, Hgone. split; [by intros x [= <-]|done].
  - rewrite Hl in T1, T2. split.
    + rewrite Ho. apply NoDup_app in T1 as (A & B & (C & D)%NoDup_cons). apply NoDup_app. split_and!; [done| |done].
      intros q Hq Hq'. apply (B q Hq). by right.
    + intros q. rewrite Ho. destruct (decide (q = en)) as [->|Hne].
      * rewrite Hgone, elem_of_app. split; [by intros [?|?]|by intros (? & ?)].
      * rewrite Hold, <- T2 by done. rewrite !elem_of_app, elem_of_cons. naive_solver.
    + rewrite Ho. unfold detached_tree. case_decide; cbn; rewrite T3, Hl, !length_app; cbn; lia.
    + intros c. rewrite Ho. unfold detached_tree. case_decide as Hce; cbn; [done|]. cbn in Hce. intros Hc.
      pose proof (T4 _ Hc) as Hin. rewrite Hl, elem_of_app, elem_of_cons in Hin. rewrite elem_of_app.
      destruct Hin as [|[->|]]; [by left|done|by right].
  - destruct (ok_list _ Hok) as (L1 & L2). rewrite R2. split; [by apply NoDup_filter|].
    intros q. rewrite elem_list_del, L2. destruct (decide (q = en)) as [->|Hne]; [rewrite Hgone|rewrite Hold by done; naive_solver].
    split; [naive_solver|]. by intros (? & ?).
  - rewrite R3, R1, (ok_nodes _ Hok), map_size_delete, Hp. cbn.
    enough (size (nodes s) <> O) by lia. intros Hz%map_size_empty_inv. by rewrite Hz in Hp.
Qed.

Lemma release_eff ino en s v1 e v2 : xs_ok s -> is_Some (extent_tree_root s !! ino) -> view s ino = v1 ++ (en, e) :: v2 ->
  eff ino s (__release_extent_node ino en s) (v1 ++ v2) (largest (tree_of s ino)).
Proof.
  intros Hok Ht Hv. unfold __release_extent_node. rewrite bool_decide_true; [by eapply detach_eff|].
  destruct (view_elem _ _ _ _ _ _ Hok Ht Hv) as (l1 & l2 & _ & _ & _ & _ & Hp & _). apply (ok_list _ Hok). by eexists.
Qed.

(** A place for a node between two parts of a tree. *)
Definition place (s : ext_state) (ino : Z) (at_ : link) (v1 v2 : extents) : Prop :=
  exists l1 l2, view_of s l1 = v1 /\ view_of s l2 = v2 /\ link_between (root (tree_of s ino)) at_ l1 l2.

Lemma place_view s ino at_ v1 v2 : place s ino at_ v1 v2 -> view s ino = v1 ++ v2.
Proof. intros (l1 & l2 & <- & <- & [Hl _ _]). unfold view. by rewrite Hl, view_of_app. Qed.

Definition attached_tree (en : positive) (at_ : link) (t : extent_tree) : extent_tree :=
  set_node_cnt (node_cnt t + 1) (set_root (rb_insert_color (rb_link_node (root t) en at_) en) t).

Lemma attach_eq (kmem_cache_alloc : ext_state -> option positive) ino e at_ s en : kmem_cache_alloc s = Some en ->
  __attach_extent_node kmem_cache_alloc ino e at_ s =
  (Some en, set_total_ext_node (total_ext_node s + 1) (set_extent_tree_root (<[ino := attached_tree en at_ (tree_of s ino)]> (extent_tree_root s))
     (set_nodes (<[en := mk_en e ino]> (nodes s)) s))).
Proof.
  intros Ha. unfold __attach_extent_node, attached_tree. rewrite Ha. cbv zeta. f_equal.
  unfold upd_tree, set_extent_tree_root, set_total_ext_node, set_nodes, tree_of. cbn. rewrite lookup_insert_eq, insert_insert_eq. done.
Qed.

(** A new node that enters tree and list, and becomes the node used last. *)
Lemma attach_eff ino e at_ s v1 v2 en s' lg : xs_ok s -> is_Some (extent_tree_root s !! ino) -> place s ino at_ v1 v2 ->
  nodes s !! en = None ->
  nodes s' = <[en := mk_en e ino]> (nodes s) -> extent_list s' = extent_list s ++ [en] ->
  total_ext_node s' = total_ext_node s + 1 ->
  local_change ino s s' (set_cached_en (Some en) (set_largest lg (attached_tree en at_ (tree_of s ino)))) ->
  eff ino s s' (v1 ++ (en, e) :: v2) lg.
Proof.
  intros Hok Ht (l1 & l2 & H1 & H2 & [Hl Hk _]) Ha Hn Hlist Htot Hlc.
  pose proof (tree_of_ok _ _ Hok Ht) as [T1 T2 T3 T4]. set (t := tree_of s ino) in *.
  set (t' := set_cached_en _ _) in *.
  assert (Hen : en ∉ inorder (root t)) by (rewrite T2; intros (? & ?); congruence).
  assert (Ho : inorder (root t') = l1 ++ en :: l2) by (cbn; by rewrite insert_color_order, Hk).
  assert (Hold : forall q, q <> en -> nodes s' !! q = nodes s !! q) by (intros; rewrite Hn; by rewrite lookup_insert_ne).
  assert (Hnew : nodes s' !! en = Some (mk_en e ino)) by (by rewrite Hn, lookup_insert_eq).
  assert (Hview : view_of s' (inorder (root t')) = v1 ++ (en, e) :: v2).
  { rewrite Ho, view_of_app, <- H1, <- H2. cbn.
    replace (node_ei s' en) with e by (unfold node_ei; by rewrite Hnew).
    rewrite Hl in Hen. f_equal; [|f_equal]; apply view_of_ext; intros q Hq; unfold node_ei; rewrite Hold; try done;
      intros ->; apply Hen, elem_of_app; auto. }
  rewrite <- Hview. change lg with (largest t'). apply local_eff; [done|done|done| | |].
  - split.
    + rewrite Ho, <- Permutation_middle. rewrite Hl in Hen, T1. by constructor.
    + intros q. rewrite Ho, elem_of_app, elem_of_cons. destruct (decide (q = en)) as [->|].
      * rewrite Hnew. split; [|naive_solver]. intros _. by eexists.
      * rewrite Hold, <- T2, Hl, elem_of_app by done. naive_solver.
    + rewrite Ho. cbn. rewrite T3, Hl, !length_app. cbn. lia.
    + intros c. cbn. intros [= <-]. change (en ∈ inorder (root t')). rewrite Ho. apply elem_of_app. right. left.
  - destruct (ok_list _ Hok) as (L1 & L2). rewrite Hlist. split.
    + apply NoDup_app. split; [done|]. split; [|apply NoDup_singleton].
      intros q Hq ->%list_elem_of_singleton. apply L2 in Hq. rewrite Ha in Hq. by destruct Hq.
    + intros q. rewrite elem_of_app, L2, list_elem_of_singleton. destruct (decide (q = en)) as [->|].
      * rewrite Hnew. split; [by eexists|by right].
      * rewrite Hold by done. naive_solver.
  - rewrite Htot, Hn, (ok_nodes _ Hok), map_size_insert, Ha. lia.
Qed.
End primitives.
