(* ===== verification/ExtentUpdate.v ===== *)
(** * The extent cache: updates and lookups

    The tree of an inode against the map from file offsets to block addresses
    that it caches: an extent is sound when the map agrees with it.  The loop of
    f2fs_update_extent_tree_range cuts the range out of the tree, the rest of
    the function merges or inserts the new extent. *)

From stdpp Require Import base numbers option gmap list sorting fin_maps.
From S2P Require Import Prelude Inode NodePath RbTree Extent ExtentWf.

(** The block of every offset of a file, None where there is none on disk. *)
Definition file_map := Z -> option Z.
Definition map_ok (m : file_map) : Prop := forall o a, m o = Some a -> 0 < a < 2 ^ 32.

Definition ext_sound (m : file_map) (e : extent_info) : Prop :=
  0 <= blk e < 2 ^ 32 /\ forall o, fofs e <= o < ei_end e -> m o = Some (blk e + (o - fofs e)).
Definition view_sound (m : file_map) (v : extents) : Prop := Forall (fun a => ext_sound m a.2) v.

(** The largest extent is kept as a copy: it is empty, or sound itself. *)
Definition largest_ok (m : file_map) (lg : extent_info) : Prop :=
  0 <= fofs lg < 2 ^ 32 /\ (len lg = 0 \/ ei_ok lg /\ ext_sound m lg).

Definition outside (pos end_ : Z) (e : extent_info) : Prop := len e = 0 \/ ei_end e <= pos \/ end_ <= fofs e.

(** The map with a range written: from the given block on, or without blocks. *)
Definition write_range (m : file_map) (f blkaddr l : Z) : file_map :=
  fun o => if (f <=? o) && (o <? f + l) then (if c_true blkaddr then Some (blkaddr + (o - f)) else None) else m o.

Definition covered (v : extents) (o : Z) : Prop := exists a, a ∈ v /\ fofs a.2 <= o < ei_end a.2.

Lemma sound_end m e : map_ok m -> ei_ok e -> ext_sound m e -> 0 < blk e /\ blk e + len e <= 2 ^ 32.
Proof.
  intros Hm (H1 & H2 & H3) (Hb & Hs). unfold ei_end in *.
  pose proof (Hm _ _ (Hs (fofs e) ltac:(lia))). pose proof (Hm _ _ (Hs (fofs e + len e - 1) ltac:(lia))). lia.
Qed.

Lemma ext_sound_piece m e e' : ext_sound m e -> fofs e <= fofs e' -> ei_end e' <= ei_end e ->
  blk e' = blk e + (fofs e' - fofs e) -> 0 <= blk e' < 2 ^ 32 -> ext_sound m e'.
Proof. intros (Hb & Hs) H1 H2 H3 H4. split; [done|]. intros o Ho. rewrite Hs by lia. f_equal. lia. Qed.

Lemma ext_sound_outside m f b l e : ext_sound m e -> ei_end e <= f \/ f + l <= fofs e -> ext_sound (write_range m f b l) e.
Proof.
  intros (Hb & Hs) H. split; [done|]. intros o Ho. unfold write_range. rewrite (proj2 (andb_false_iff _ _)); [by apply Hs|].
  rewrite Z.leb_gt, Z.ltb_ge. lia.
Qed.

Lemma largest_outside m f b l lg : largest_ok m lg -> outside f (f + l) lg -> largest_ok (write_range m f b l) lg.
Proof.
  intros (Hr & Hl) Ho. split; [done|]. destruct Hl as [|(H1 & H2)]; [by left|].
  destruct Ho as [|Ho]; [by left|]. right. split; [done|]. by apply ext_sound_outside.
Qed.

(** ** Lists split by a property *)

Lemma split_unique {A} (P : A -> Prop) l1 l2 k1 k2 : l1 ++ l2 = k1 ++ k2 ->
  (forall x, x ∈ l1 -> P x) -> (forall x, x ∈ l2 -> ~ P x) ->
  (forall x, x ∈ k1 -> P x) -> (forall x, x ∈ k2 -> ~ P x) -> l1 = k1 /\ l2 = k2.
Proof.
  revert k1. induction l1 as [|x l1 IH]; intros [|y k1]; cbn; intros H A1 A2 B1 B2.
  - done.
  - exfalso. subst. apply (A2 y (list_elem_of_here _ _)), B1. left.
  - exfalso. subst. apply (B2 x (list_elem_of_here _ _)), A1. left.
  - injection H as -> H. destruct (IH k1 H) as (-> & ->); auto; intros z Hz; [apply A1|apply B1]; by right.
Qed.

Section updates.
Context `{Hrb : !RbOps} `{Hrl : !RbLaws}.
Context (kmem_cache_alloc : ext_state -> option positive).
Context (alloc_fresh : forall s p, kmem_cache_alloc s = Some p -> nodes s !! p = None).

(** ** Inserting an extent *)

Lemma insert_at ino e at_ s v1 v2 en s1 : xs_ok s -> is_Some (extent_tree_root s !! ino) -> place s ino at_ v1 v2 ->
  __attach_extent_node kmem_cache_alloc ino e at_ s = (Some en, s1) ->
  eff ino s (upd_tree ino (set_cached_en (Some en)) (list_add_tail en (__try_update_largest_extent ino en s1)))
    (v1 ++ (en, e) :: v2) (if len (largest (tree_of s ino)) <? len e then e else largest (tree_of s ino)).
Proof.
  intros Hok Ht Hp Ha. assert (Hk : kmem_cache_alloc s = Some en).
  { unfold __attach_extent_node in Ha. destruct (kmem_cache_alloc s); [|done]. congruence. }
  rewrite (attach_eq _ _ _ _ _ _ Hk) in Ha. injection Ha as <-. set (s1 := set_total_ext_node _ _).
  assert (Hl1 : tree_of s1 ino = attached_tree en at_ (tree_of s ino)).
  { unfold tree_of at 1, s1. cbn. by rewrite lookup_insert_eq. }
  assert (He : node_ei s1 en = e) by (unfold node_ei, s1; cbn; by rewrite lookup_insert_eq).
  assert (Hn : forall p, nodes s1 !! p = nodes s !! p \/ mine ino (nodes s !! p) /\ mine ino (nodes s1 !! p)).
  { intros p. unfold s1. cbn. destruct (decide (p = en)) as [->|]; [right|left; by rewrite lookup_insert_ne].
    rewrite (alloc_fresh _ _ Hk), lookup_insert_eq. split; by intros x [= <-]. }
  unfold __try_update_largest_extent, en_len. rewrite Hl1, He. cbn [largest attached_tree set_node_cnt set_root].
  apply (attach_eff ino e at_ s v1 v2 en _ _ Hok Ht Hp (alloc_fresh _ _ Hk)); [by case_if..|].
  case_if; split; try done; try (by left); try (by right);
    unfold mark_dirty, upd_inode, list_add_tail, upd_tree; cbn; rewrite ?Hl1; unfold tree_of; cbn;
    rewrite ?lookup_insert_eq; cbn; by rewrite !insert_insert_eq.
Qed.

Lemma view_of_elem s l p : p ∈ l -> (p, node_ei s p) ∈ view_of s l.
Proof. intros Hp. apply list_elem_of_fmap. by exists p. Qed.

(** The place found for an extent is the one between the extents before and
    behind it. *)
Lemma for_insert_place ino e s v1 v2 : xs_ok s -> is_Some (extent_tree_root s !! ino) -> view s ino = v1 ++ v2 ->
  view_wf (v1 ++ v2) -> ei_ok e -> (forall a, a ∈ v1 -> ei_end a.2 <= fofs e) -> (forall a, a ∈ v2 -> ei_end e <= fofs a.2) ->
  exists at_, __lookup_rb_tree_for_insert (en_fofs s) (en_len s) (root (tree_of s ino)) (fofs e) = Some at_ /\ place s ino at_ v1 v2.
Proof.
  intros Hok Ht Hv Hw (E1 & E2 & E3) Ha Hb. unfold ei_end in *.
  destruct (view_of_split2 _ _ _ _ Hv) as (l1 & l2 & Hl & <- & <-).
  assert (Hr : rb_wf (en_fofs s) (en_len s) (root (tree_of s ino))).
  { unfold rb_wf. apply view_ranges. unfold view in Hv. rewrite Hv. done. }
  assert (Hlen : forall p, p ∈ inorder (root (tree_of s ino)) -> 0 < en_len s p).
  { intros p Hp. by destruct (ranges_ok _ _ _ _ Hr Hp) as (_ & ? & _). }
  assert (Ha' : forall p, p ∈ l1 -> en_fofs s p + en_len s p <= fofs e) by (intros p Hp; apply (Ha _ (view_of_elem s _ _ Hp))).
  assert (Hb' : forall p, p ∈ l2 -> fofs e + len e <= en_fofs s p) by (intros p Hp; apply (Hb _ (view_of_elem s _ _ Hp))).
  destruct (for_insert_ok (en_fofs s) (en_len s) _ (fofs e) Hr) as (at_ & k1 & k2 & Hf & Hlk & K1 & K2).
  { intros p Hp. unfold in_range. specialize (Hlen _ Hp). rewrite Hl in Hp.
    apply elem_of_app in Hp as [Hp|Hp]; [specialize (Ha' _ Hp)|specialize (Hb' _ Hp)]; lia. }
  exists at_. split; [done|]. pose proof (lb_list _ _ _ _ Hlk) as Hk. rewrite Hk in Hl.
  destruct (split_unique (fun p => en_fofs s p < fofs e) k1 k2 l1 l2 Hl) as (-> & ->).
  - intros p Hp. specialize (K1 _ Hp). specialize (Hlen p ltac:(rewrite Hk; apply elem_of_app; by left)). lia.
  - intros p Hp. specialize (K2 _ Hp). lia.
  - intros p Hp. specialize (Ha' _ Hp). specialize (Hlen p ltac:(rewrite Hk, Hl; apply elem_of_app; by left)). lia.
  - intros p Hp. specialize (Hb' _ Hp). lia.
  - by exists l1, l2.
Qed.

Inductive inserted (ino : Z) (e : extent_info) (s : ext_state) (v1 v2 : extents) : option positive * ext_state -> Prop :=
| ins_failed : kmem_cache_alloc s = None -> inserted ino e s v1 v2 (None, s)
| ins_done en s' :
    eff ino s s' (v1 ++ (en, e) :: v2) (if len (largest (tree_of s ino)) <? len e then e else largest (tree_of s ino)) ->
    inserted ino e s v1 v2 (Some en, s').

Lemma insert_ok ino e ins s v1 v2 : xs_ok s -> is_Some (extent_tree_root s !! ino) -> view s ino = v1 ++ v2 ->
  view_wf (v1 ++ v2) -> ei_ok e -> (forall a, a ∈ v1 -> ei_end a.2 <= fofs e) -> (forall a, a ∈ v2 -> ei_end e <= fofs a.2) ->
  (forall q, ins = Some q -> place s ino (Some q) v1 v2) ->
  inserted ino e s v1 v2 (__insert_extent_tree kmem_cache_alloc ino e ins s).
Proof.
  intros Hok Ht Hv Hw He Ha Hb Hins. unfold __insert_extent_tree.
  assert (Hat : exists at_, place s ino at_ v1 v2 /\ insert_link ino e ins s = (Some at_, s)).
  { unfold insert_link. destruct ins as [q|]; [exists (Some q); auto|].
    destruct (for_insert_place _ _ _ _ _ Hok Ht Hv Hw He Ha Hb) as (at_ & -> & Hp). by exists at_. }
  destruct Hat as (at_ & Hp & ->).
  destruct (__attach_extent_node kmem_cache_alloc ino e at_ s) as [[en|] s1] eqn:E.
  - apply ins_done. by eapply insert_at.
  - unfold __attach_extent_node in E. destruct (kmem_cache_alloc s) eqn:Ek; [done|]. injection E as <-. by apply ins_failed.
Qed.

(** ** Releasing all extents *)

Lemma view_head s ino p e v : view s ino = (p, e) :: v -> exists l, inorder (root (tree_of s ino)) = p :: l /\ view_of s l = v.
Proof.
  unfold view. destruct (inorder (root (tree_of s ino))) as [|q l]; [done|]. cbn. intros [= <- <- <-]. by exists l.
Qed.

Lemma next_of_view s ino v1 p e v2 : xs_ok s -> is_Some (extent_tree_root s !! ino) -> view s ino = v1 ++ (p, e) :: v2 ->
  rb_next (root (tree_of s ino)) p = head v2.*1.
Proof.
  intros Hok Ht Hv. destruct (view_elem _ _ _ _ _ _ Hok Ht Hv) as (l1 & l2 & Hl & _ & <- & _).
  rewrite (next_order _ _ _ _ (to_nodup _ _ _ (tree_of_ok _ _ Hok Ht)) Hl). by destruct l2.
Qed.

Lemma free_from_eff fuel ino s v : xs_ok s -> is_Some (extent_tree_root s !! ino) -> view s ino = v ->
  (length v <= fuel)%nat -> eff ino s (free_from fuel ino (head v.*1) s) [] (largest (tree_of s ino)).
Proof.
  revert s v. induction fuel as [|fuel IH]; intros s v Hok Ht Hv Hlen.
  - destruct v; [|cbn in Hlen; lia]. cbn. rewrite <- Hv. by apply eff_refl.
  - destruct v as [|[p e] v]; [cbn; rewrite <- Hv; by apply eff_refl|]. cbn [free_from head fmap list_fmap fst].
    rewrite (next_of_view _ _ [] p e v Hok Ht Hv).
    pose proof (release_eff ino p s [] e v Hok Ht Hv) as E. cbn [app] in E.
    eapply eff_trans; [exact E|]. rewrite <- (ef_largest _ _ _ _ _ E). apply IH; [apply E| |apply E|cbn in Hlen; lia].
    by apply (fr_tree _ _ _ (ef_frame _ _ _ _ _ E)).
Qed.

Lemma view_length s ino : length (view s ino) = length (inorder (root (tree_of s ino))).
Proof. apply length_map. Qed.

Lemma free_tree_eff ino s : xs_ok s -> is_Some (extent_tree_root s !! ino) ->
  eff ino s (__free_extent_tree ino s).2 [] (largest (tree_of s ino)) /\
  (__free_extent_tree ino s).1 = Z.of_nat (length (view s ino)).
Proof.
  intros Hok Ht. unfold __free_extent_tree. cbv zeta. cbn [fst snd].
  replace (rb_first (root (tree_of s ino))) with (head (view s ino).*1).
  2: { rewrite first_order. unfold view. by destruct (inorder (root (tree_of s ino))). }
  pose proof (free_from_eff (length (inorder (root (tree_of s ino)))) ino s _ Hok Ht eq_refl ltac:(by rewrite view_length)) as E.
  set (s' := free_from _ _ _ _) in *. clearbody s'. split; [exact E|]. rewrite (to_cnt _ _ _ (tree_of_ok _ _ Hok Ht)).
  pose proof (to_cnt _ _ _ (tree_of_ok _ _ (ef_ok _ _ _ _ _ E) ltac:(by apply (fr_tree _ _ _ (ef_frame _ _ _ _ _ E))))) as ->.
  rewrite <- !view_length, (ef_view _ _ _ _ _ E). cbn. lia.
Qed.

(** ** Cutting the range out of the tree *)

Lemma node_of_view s ino v1 p e v2 : xs_ok s -> is_Some (extent_tree_root s !! ino) -> view s ino = v1 ++ (p, e) :: v2 ->
  node_ei s p = e.
Proof. intros Hok Ht Hv. by destruct (view_elem _ _ _ _ _ _ Hok Ht Hv) as (l1 & l2 & _ & _ & _ & He & _). Qed.

(** What is kept of an extent in front of the range, and behind it. *)
Definition front_part (pos : Z) (e : extent_info) : extent_info := set_len (pos - fofs e) e.
Definition back_part (end_ : Z) (e : extent_info) : extent_info :=
  mk_ei end_ (ei_end e - end_) (blk e + (end_ - fofs e)).

Lemma front_ok m pos e : ei_ok e -> ext_sound m e -> fofs e < pos < ei_end e ->
  ei_ok (front_part pos e) /\ ext_sound m (front_part pos e) /\ ei_end (front_part pos e) = pos.
Proof.
  intros (H1 & H2 & H3) Hs Hp. unfold ei_end in *.
  split_and!; [split; cbn; unfold ei_end; cbn; lia|eapply ext_sound_piece; [exact Hs|..]|]; unfold ei_end; cbn; try lia.
  apply Hs.
Qed.

Lemma back_ok m end_ e : map_ok m -> ei_ok e -> ext_sound m e -> fofs e <= end_ < ei_end e ->
  ei_ok (back_part end_ e) /\ ext_sound m (back_part end_ e) /\ ei_end (back_part end_ e) = ei_end e /\
  blk e + (end_ - fofs e) < 2 ^ 32.
Proof.
  intros Hm Ho Hs Hp. destruct (sound_end _ _ Hm Ho Hs) as (Hb & He). destruct Ho as (H1 & H2 & H3).
  unfold ei_end in *.
  split_and!; [split; unfold back_part, ei_end; cbn; lia|eapply ext_sound_piece; [exact Hs|..]|..];
    unfold back_part, ei_end; cbn; lia.
Qed.

Context (m : file_map) (Hm : map_ok m) (ino pos end_ : Z).

Record loop_inv (v : upd_vars) (s : ext_state) (v1 v2 : extents) : Prop := {
  li_ok : xs_ok s;
  li_tree : is_Some (extent_tree_root s !! ino);
  li_view : view s ino = v1 ++ v2;
  li_wf : view_wf (v1 ++ v2);
  li_sound : view_sound m (v1 ++ v2);
  li_en : uv_en v = head v2.*1;
  li_before a : a ∈ v1 -> ei_end a.2 <= pos;
  li_after a : a ∈ v2 -> pos < ei_end a.2;
  li_prev p : uv_prev v = Some p -> last v1.*1 = Some p;
  li_ins q : uv_ins v = Some q -> place s ino (Some q) v1 v2 /\ forall a, a ∈ v2 -> pos < fofs a.2;
  li_largest : largest_ok m (largest (tree_of s ino)) /\ outside pos end_ (largest (tree_of s ino));
  li_next : uv_next v = uv_en v \/ exists a v2', v2 = a :: v2' /\ fofs a.2 < end_
}.

Lemma part_largest lg e : largest_ok m lg /\ outside pos end_ lg -> ei_ok e -> ext_sound m e -> outside pos end_ e ->
  let lg' := if len lg <? len e then e else lg in largest_ok m lg' /\ outside pos end_ lg'.
Proof.
  intros Hlg He Hs Ho. cbv zeta. case_if; [|done]. destruct He as (A & B & C). unfold ei_end in C.
  split; [|done]. split; [lia|]. right. split; [|done]. split; [lia|]. unfold ei_end. lia.
Qed.

(** The invariant after a step, from what the step did to the tree. *)
Lemma loop_inv_step s v v1 v2 s' v1' v2' lg en prev ins dei : loop_inv v s v1 v2 ->
  eff ino s s' (v1' ++ v2') lg -> view_wf (v1' ++ v2') -> view_sound m (v1' ++ v2') ->
  (forall a, a ∈ v1' -> ei_end a.2 <= pos) -> (forall a, a ∈ v2' -> pos < ei_end a.2) ->
  en = head v2'.*1 -> (forall p, prev = Some p -> last v1'.*1 = Some p) ->
  (forall q, ins = Some q -> place s' ino (Some q) v1' v2' /\ forall a, a ∈ v2' -> pos < fofs a.2) ->
  largest_ok m lg /\ outside pos end_ lg ->
  loop_inv (mk_uv en prev en dei ins) s' v1' v2'.
Proof.
  intros Hi E Hw Hs Hb Ha He Hp Hins Hlg. split; try done.
  - apply E.
  - by apply (fr_tree _ _ _ (ef_frame _ _ _ _ _ E)), (li_tree _ _ _ _ Hi).
  - apply E.
  - by rewrite (ef_largest _ _ _ _ _ E).
  - by left.
Qed.

Lemma wf_middle v1 a v2 : view_wf (v1 ++ a :: v2) -> view_wf (v1 ++ v2) /\ ei_ok a.2 /\
  (forall b, b ∈ v1 -> ei_end b.2 <= fofs a.2) /\ (forall b, b ∈ v2 -> ei_end a.2 <= fofs b.2).
Proof.
  intros (W1 & (Wa & W2 & H2)%view_cons & H1)%view_app. split_and!; [|done| |done].
  - apply view_app. split_and!; [done..|]. intros x y Hx Hy. apply H1; [done|by right].
  - intros b Hb. apply H1; [done|left].
Qed.

Lemma wf_insert v1 a v2 : view_wf (v1 ++ v2) -> ei_ok a.2 ->
  (forall b, b ∈ v1 -> ei_end b.2 <= fofs a.2) -> (forall b, b ∈ v2 -> ei_end a.2 <= fofs b.2) -> view_wf (v1 ++ a :: v2).
Proof.
  intros (W1 & W2 & H)%view_app Ha H1 H2. apply view_app. split; [done|]. rewrite view_cons. split; [done|].
  intros x y Hx [->|Hy]%elem_of_cons; [by apply H1|by apply H].
Qed.

Lemma sound_middle v1 a v2 : view_sound m (v1 ++ a :: v2) <-> view_sound m (v1 ++ v2) /\ ext_sound m a.2.
Proof. unfold view_sound. rewrite !Forall_app, Forall_cons. naive_solver. Qed.

Lemma place_keep s s' q v1 v2 v1' v2' : root (tree_of s' ino) = root (tree_of s ino) -> view s' ino = v1' ++ v2' ->
  length v1' = length v1 -> place s ino q v1 v2 -> place s' ino q v1' v2'.
Proof.
  intros Hr Hv Hlen (l1 & l2 & <- & <- & Hlk). exists l1, l2. rewrite Hr.
  unfold view in Hv. rewrite Hr, (lb_list _ _ _ _ Hlk), view_of_app in Hv.
  apply app_inj_1 in Hv as (-> & ->); [done|]. rewrite Hlen. unfold view_of. by rewrite !length_map.
Qed.

Lemma try_largest_root en s : root (tree_of (__try_update_largest_extent ino en s) ino) = root (tree_of s ino).
Proof. unfold __try_update_largest_extent. case_if; [|done]. change (tree_of (mark_dirty ino ?x)) with (tree_of x). by rewrite tree_upd. Qed.

Definition step_ok (s : ext_state) (n : nat) (r : upd_vars * ext_state) : Prop :=
  frame ino s r.2 /\ exists v1' v2', loop_inv r.1 r.2 v1' v2' /\ uv_next r.1 = uv_en r.1 /\
    ((length v2' <= n)%nat \/ forall a, a ∈ v2' -> end_ <= fofs a.2).

(** An extent that leaves nothing long enough on either side is released. *)
Lemma step_release v s v1 en e v2 dei : loop_inv v s v1 ((en, e) :: v2) -> 
  let s' := __release_extent_node ino en s in
  step_ok s (length v2) (mk_uv (head v2.*1) (uv_prev v) (head v2.*1) dei None, s').
Proof.
  intros Hi s'. destruct (wf_middle _ _ _ (li_wf _ _ _ _ Hi)) as (W & _).
  pose proof (proj1 (sound_middle _ _ _) (li_sound _ _ _ _ Hi)) as (S & _).
  pose proof (release_eff ino en s v1 e v2 (li_ok _ _ _ _ Hi) (li_tree _ _ _ _ Hi) (li_view _ _ _ _ Hi)) as E.
  split; [apply E|]. exists v1, v2. split; [|split; [done|by left]].
  eapply loop_inv_step; [exact Hi|exact E|done|done|exact (li_before _ _ _ _ Hi)| |done|exact (li_prev _ _ _ _ Hi)|done|exact (li_largest _ _ _ _ Hi)].
  intros a Ha. apply (li_after _ _ _ _ Hi). by right.
Qed.

(** What the front of an extent and the list become. *)
Lemma front_view v s v1 en e v2 : loop_inv v s v1 ((en, e) :: v2) -> fofs e < pos -> fofs e < end_ ->
  let s1 := upd_node en (fun x => set_len (u32 (pos - fofs x)) x) s in
  eff ino s s1 (v1 ++ (en, front_part pos e) :: v2) (largest (tree_of s ino)) /\
  view_wf ((v1 ++ [(en, front_part pos e)]) ++ v2) /\ view_sound m ((v1 ++ [(en, front_part pos e)]) ++ v2) /\
  ei_ok (front_part pos e) /\ ext_sound m (front_part pos e) /\ ei_end (front_part pos e) = pos.
Proof.
  intros Hi Hp He s1. destruct (wf_middle _ _ _ (li_wf _ _ _ _ Hi)) as (W & Ho & Hb & Ha).
  pose proof (proj1 (sound_middle _ _ _) (li_sound _ _ _ _ Hi)) as (S & Se). cbn in *.
  pose proof (li_after _ _ _ _ Hi _ (list_elem_of_here _ _)) as Hen. cbn in Hen.
  destruct (front_ok m pos e Ho Se ltac:(lia)) as (F1 & F2 & F3).
  assert (Hf : set_len (u32 (pos - fofs e)) e = front_part pos e).
  { unfold front_part. rewrite u32_small; [done|]. destruct Ho as (A & B & C). unfold ei_end in *. lia. }
  rewrite <- !app_assoc. cbn. split_and!; try done.
  - pose proof (upd_node_eff ino en (fun x => set_len (u32 (pos - fofs x)) x) s v1 e v2
      (li_ok _ _ _ _ Hi) (li_tree _ _ _ _ Hi) (li_view _ _ _ _ Hi)) as E. cbn in E. by rewrite Hf in E.
  - apply wf_insert; [done|done|done|]. cbn. rewrite F3. intros b Hb'. specialize (Ha _ Hb'). lia.
  - by apply sound_middle.
Qed.

Lemma step_front v s v1 en e v2 dei : 0 <= pos < end_ -> loop_inv v s v1 ((en, e) :: v2) -> fofs e < pos ->
  let s1 := upd_node en (fun x => set_len (u32 (pos - fofs x)) x) s in
  step_ok s (length v2) (mk_uv (head v2.*1) (Some en) (head v2.*1) dei (uv_ins v), __try_update_largest_extent ino en s1).
Proof.
  intros Hr Hi Hp s1. destruct (front_view _ _ _ _ _ _ Hi Hp ltac:(lia)) as (E1 & W & S & F1 & F2 & F3). fold s1 in E1.
  assert (Ht1 : is_Some (extent_tree_root s1 !! ino)) by (apply (fr_tree _ _ _ (ef_frame _ _ _ _ _ E1)), (li_tree _ _ _ _ Hi)).
  pose proof (try_largest_eff ino en s1 (ef_ok _ _ _ _ _ E1) Ht1) as E2.
  assert (Hn : node_ei s1 en = front_part pos e) by (eapply node_of_view; [apply E1|done|apply E1]).
  unfold en_len in E2. rewrite Hn, (ef_largest _ _ _ _ _ E1), (ef_view _ _ _ _ _ E1) in E2.
  pose proof (eff_trans _ _ _ _ _ _ _ _ E1 E2) as E. split; [apply E|].
  exists (v1 ++ [(en, front_part pos e)]), v2. split; [|split; [done|by left]].
  rewrite (cons_middle _ v1), app_assoc in E. eapply loop_inv_step; [exact Hi|exact E|done|done|..].
  - intros a [Ha| ->%list_elem_of_singleton]%elem_of_app; [by apply Hi|]. cbn. lia.
  - intros a Ha. apply (li_after _ _ _ _ Hi). by right.
  - done.
  - intros p [= <-]. rewrite fmap_app. cbn. by rewrite last_snoc.
  - intros q Hq. exfalso. destruct (li_ins _ _ _ _ Hi _ Hq) as (_ & Hx). specialize (Hx _ (list_elem_of_here _ _)). cbn in Hx. lia.
  - apply part_largest; [apply Hi|done|done|]. right. left. lia.
Qed.

Lemma back_view v s v1 en e v2 : map_ok m -> end_ < 2 ^ 32 -> loop_inv v s v1 ((en, e) :: v2) -> fofs e <= end_ < ei_end e ->
  view_wf (v1 ++ (en, back_part end_ e) :: v2) /\ view_sound m (v1 ++ (en, back_part end_ e) :: v2) /\
  ei_ok (back_part end_ e) /\ ext_sound m (back_part end_ e) /\ ei_end (back_part end_ e) = ei_end e /\
  set_extent_info end_ (u32 (end_ - fofs e + blk e)) (u32 (ei_end e - end_)) = back_part end_ e /\
  mk_ei end_ (u32 (len e - u32 (end_ - fofs e))) (u32 (blk e + u32 (end_ - fofs e))) = back_part end_ e.
Proof.
  intros Hmk Hr Hi He. destruct (wf_middle _ _ _ (li_wf _ _ _ _ Hi)) as (W & Ho & Hb & Ha).
  pose proof (proj1 (sound_middle _ _ _) (li_sound _ _ _ _ Hi)) as (S & Se). cbn in *.
  destruct (back_ok m end_ e Hmk Ho Se He) as (B1 & B2 & B3 & B4). destruct Ho as (O1 & O2 & O3). destruct Se as (Sb & _).
  unfold ei_end in *. split_and!; try done.
  - apply wf_insert; [done|done| |]; unfold back_part, ei_end; cbn; intros b Hb'; [specialize (Hb _ Hb')|specialize (Ha _ Hb')]; lia.
  - by apply sound_middle.
  - unfold set_extent_info, back_part, ei_end. rewrite (u32_small (end_ - fofs e + blk e)) by lia. rewrite !u32_small by lia.
    f_equal. lia.
  - unfold back_part, ei_end. rewrite (u32_small (end_ - fofs e)) by lia. rewrite !u32_small by lia. f_equal. lia.
Qed.

Lemma step_back v s v1 en e v2 dei : map_ok m -> 0 <= pos < end_ -> end_ < 2 ^ 32 -> loop_inv v s v1 ((en, e) :: v2) ->
  fofs e <= end_ < ei_end e ->
  let s1 := upd_node en (fun x => mk_ei end_ (u32 (len x - u32 (end_ - fofs e))) (u32 (blk x + u32 (end_ - fofs e)))) s in
  step_ok s (length v2) (mk_uv (Some en) (uv_prev v) (Some en) dei (uv_ins v), __try_update_largest_extent ino en s1).
Proof.
  intros Hmk Hr Hr' Hi He s1. destruct (back_view _ _ _ _ _ _ Hmk Hr' Hi He) as (W & S & B1 & B2 & B3 & _ & Hnew).
  pose proof (upd_node_eff ino en (fun x => mk_ei end_ (u32 (len x - u32 (end_ - fofs e))) (u32 (blk x + u32 (end_ - fofs e)))) s v1 e v2
      (li_ok _ _ _ _ Hi) (li_tree _ _ _ _ Hi) (li_view _ _ _ _ Hi)) as E1. cbn beta in E1. rewrite Hnew in E1. fold s1 in E1.
  assert (Ht1 : is_Some (extent_tree_root s1 !! ino)) by (apply (fr_tree _ _ _ (ef_frame _ _ _ _ _ E1)), (li_tree _ _ _ _ Hi)).
  pose proof (try_largest_eff ino en s1 (ef_ok _ _ _ _ _ E1) Ht1) as E2.
  assert (Hn : node_ei s1 en = back_part end_ e) by (eapply node_of_view; [apply E1|done|apply E1]).
  unfold en_len in E2. rewrite Hn, (ef_largest _ _ _ _ _ E1), (ef_view _ _ _ _ _ E1) in E2.
  pose proof (eff_trans _ _ _ _ _ _ _ _ E1 E2) as E. split; [apply E|].
  destruct (wf_middle _ _ _ W) as (_ & _ & _ & Ha). cbn in Ha.
  assert (Hend : forall a, a ∈ (en, back_part end_ e) :: v2 -> end_ <= fofs a.2).
  { intros a [->|Hx]%elem_of_cons; [done|]. specialize (Ha _ Hx). lia. }
  exists v1, ((en, back_part end_ e) :: v2). split; [|split; [done|by right]].
  eapply loop_inv_step; [exact Hi|exact E|done|done|exact (li_before _ _ _ _ Hi)| |done|exact (li_prev _ _ _ _ Hi)| |].
  - intros a [->|Hx]%elem_of_cons; [cbn; lia|]. apply (li_after _ _ _ _ Hi). by right.
  - intros q Hq. destruct (li_ins _ _ _ _ Hi _ Hq) as (Hp & _). split.
    + eapply (place_keep s); [exact (try_largest_root en s1)|apply E|done|exact Hp].
    + intros a Hx. specialize (Hend _ Hx). lia.
  - apply part_largest; [apply Hi|done|done|]. right. by right.
Qed.

(** The extent is cut into two: the part behind the range becomes a new node. *)
Lemma step_both v s v1 en e v2 dei : map_ok m -> 0 <= pos < end_ -> end_ < 2 ^ 32 -> loop_inv v s v1 ((en, e) :: v2) ->
  fofs e < pos -> end_ < ei_end e ->
  let s1 := upd_node en (fun x => set_len (u32 (pos - fofs x)) x) s in
  let '(next, s2) := __insert_extent_tree kmem_cache_alloc ino
    (set_extent_info end_ (u32 (end_ - fofs e + blk e)) (u32 (ei_end e - end_))) None s1 in
  let next := match next with None => rb_next (root (tree_of s2 ino)) en | _ => next end in
  step_ok s (length v2) (mk_uv next (Some en) next dei None, __try_update_largest_extent ino en s2).
Proof.
  intros Hmk Hr Hr' Hi Hp He s1. destruct (front_view _ _ _ _ _ _ Hi Hp ltac:(lia)) as (E1 & W & S & F1 & F2 & F3). fold s1 in E1.
  destruct (back_view _ _ _ _ _ _ Hmk Hr' Hi ltac:(lia)) as (Wb & Sb & B1 & B2 & B3 & Hnew & _). rewrite Hnew.
  destruct (wf_middle _ _ _ Wb) as (_ & _ & Hb & Ha). cbn in Ha, Hb.
  assert (Ht1 : is_Some (extent_tree_root s1 !! ino)) by (apply (fr_tree _ _ _ (ef_frame _ _ _ _ _ E1)), (li_tree _ _ _ _ Hi)).
  rewrite (cons_middle _ v1), app_assoc in E1. set (v1' := v1 ++ [(en, front_part pos e)]) in *.
  assert (Hv1 : forall a, a ∈ v1' -> ei_end a.2 <= pos).
  { intros a [Hx| ->%list_elem_of_singleton]%elem_of_app; [by apply (li_before _ _ _ _ Hi)|]. cbn. lia. }
  pose proof (insert_ok ino (back_part end_ e) None s1 v1' v2 (ef_ok _ _ _ _ _ E1) Ht1 (ef_view _ _ _ _ _ E1) W B1) as Hins.
  specialize (Hins ltac:(intros a Hx; specialize (Hv1 _ Hx); cbn; lia) ltac:(rewrite B3 in *; done) ltac:(done)).
  assert (Hlast : forall p, Some en = Some p -> last v1'.*1 = Some p).
  { intros p [= <-]. unfold v1'. rewrite fmap_app. cbn. by rewrite last_snoc. }
  assert (Hfr : outside pos end_ (front_part pos e)) by (right; left; lia).
  assert (Hbk : outside pos end_ (back_part end_ e)) by (right; by right).
  inversion Hins as [Hno Heq|en1 s2 E2 Heq]; rewrite <- ?Heq.
  - assert (Hn : node_ei s1 en = front_part pos e).
    { eapply node_of_view; [apply E1|done|]. rewrite (ef_view _ _ _ _ _ E1). unfold v1'. by rewrite <- app_assoc. }
    rewrite (next_of_view s1 ino v1 en (front_part pos e) v2);
      [|apply E1|done|rewrite (ef_view _ _ _ _ _ E1); unfold v1'; by rewrite <- app_assoc].
    pose proof (try_largest_eff ino en s1 (ef_ok _ _ _ _ _ E1) Ht1) as E3.
    unfold en_len in E3. rewrite Hn, (ef_largest _ _ _ _ _ E1), (ef_view _ _ _ _ _ E1) in E3.
    pose proof (eff_trans _ _ _ _ _ _ _ _ E1 E3) as E. split; [apply E|].
    exists v1', v2. split; [|split; [done|by left]].
    eapply loop_inv_step; [exact Hi|exact E|done|done|done| |done|done|done|apply part_largest; try done; apply Hi].
    intros a Hx. apply (li_after _ _ _ _ Hi). by right.
  - assert (Ht2 : is_Some (extent_tree_root s2 !! ino)) by (by apply (fr_tree _ _ _ (ef_frame _ _ _ _ _ E2))).
    assert (Hn : node_ei s2 en = front_part pos e).
    { eapply node_of_view; [apply E2|done|]. rewrite (ef_view _ _ _ _ _ E2). unfold v1'. by rewrite <- app_assoc. }
    pose proof (try_largest_eff ino en s2 (ef_ok _ _ _ _ _ E2) Ht2) as E3.
    unfold en_len in E3. rewrite Hn, (ef_largest _ _ _ _ _ E2), (ef_view _ _ _ _ _ E2), (ef_largest _ _ _ _ _ E1) in E3.
    pose proof (eff_trans _ _ _ _ _ _ _ _ E1 (eff_trans _ _ _ _ _ _ _ _ E2 E3)) as E. split; [apply E|].
    assert (Hend : forall a, a ∈ (en1, back_part end_ e) :: v2 -> end_ <= fofs a.2).
    { intros a [->|Hx]%elem_of_cons; [done|]. specialize (Ha _ Hx). lia. }
    exists v1', ((en1, back_part end_ e) :: v2). split; [|split; [done|by right]].
    eapply loop_inv_step; [exact Hi|exact E| | |done| |done|done|done|].
    + apply wf_insert; [done|done| |]; cbn; [|done]. intros b Hx. specialize (Hv1 _ Hx). lia.
    + by apply sound_middle.
    + intros a Hx. pose proof (Hend _ Hx) as Hx1. apply elem_of_cons in Hx as [->|Hx]; [cbn; lia|].
      apply (li_after _ _ _ _ Hi). by right.
    + apply part_largest; [|done|done|done]. apply part_largest; [apply Hi|done|done|done].
Qed.

Lemma update_node_ok v s v1 en e v2 : map_ok m -> 0 <= pos < end_ -> end_ < 2 ^ 32 -> loop_inv v s v1 ((en, e) :: v2) ->
  fofs e < end_ -> step_ok s (length v2) (update_node kmem_cache_alloc ino pos end_ en v s).
Proof.
  intros Hmk Hr Hr' Hi He. destruct (wf_middle _ _ _ (li_wf _ _ _ _ Hi)) as (_ & (O1 & O2 & O3) & _). cbn in O1, O2, O3.
  pose proof (li_after _ _ _ _ Hi _ (list_elem_of_here _ _)) as Hend. cbn in Hend.
  pose proof (node_of_view _ _ _ _ _ _ (li_ok _ _ _ _ Hi) (li_tree _ _ _ _ Hi) (li_view _ _ _ _ Hi)) as Hn.
  unfold update_node. cbv zeta. rewrite Hn. fold (ei_end e). unfold ei_end in *. rewrite (u32_small (fofs e + len e)) by lia.
  assert (Hb : (fofs e + len e <=? pos) = false) by (apply Z.leb_gt; lia). rewrite Hb. cbn [f2fs_bug_on].
  pose proof (next_of_view _ _ _ _ _ _ (li_ok _ _ _ _ Hi) (li_tree _ _ _ _ Hi) (li_view _ _ _ _ Hi)) as Hnext.
  destruct (Z.ltb_spec (fofs e) pos) as [Hp|Hp]; cbn [andb];
    [destruct (F2FS_MIN_EXTENT_LEN <=? u32 (pos - fofs e)); cbn [andb orb]|];
    (destruct (Z.ltb_spec end_ (fofs e + len e)) as [Hq|Hq]; cbn [andb];
      [destruct (F2FS_MIN_EXTENT_LEN <=? u32 (fofs e + len e - end_)); cbn [andb orb]|]); cbn [xorb orb];
    change (rb_next (root (tree_of (upd_node ?p ?f ?s) ?i)) ?q) with (rb_next (root (tree_of s i)) q); rewrite ?Hnext;
    try (by eapply step_release); try (eapply step_front; done); try (eapply step_back; [done..|unfold ei_end; lia]).
  pose proof (step_both _ _ _ _ _ _ e Hmk Hr Hr' Hi Hp Hq) as Hs. cbv zeta in Hs. unfold ei_end in Hs.
  by destruct (__insert_extent_tree _ _ _ _ _).
Qed.

(** The loop ends with the range cut out: what is left lies before or behind it. *)
Lemma update_loop_ok fuel v s v1 v2 : map_ok m -> 0 <= pos < end_ -> end_ < 2 ^ 32 -> loop_inv v s v1 v2 ->
  (length v2 <= fuel)%nat \/ (forall a, a ∈ v2 -> end_ <= fofs a.2) ->
  let r := update_loop kmem_cache_alloc fuel ino pos end_ v s in
  frame ino s r.2 /\ exists v1' v2', loop_inv r.1 r.2 v1' v2' /\ uv_next r.1 = head v2'.*1 /\
    forall a, a ∈ v2' -> end_ <= fofs a.2.
Proof.
  intros Hmk Hr Hr'. revert v s v1 v2. induction fuel as [|fuel IH]; intros v s v1 v2 Hi Hf.
  all: cbn [update_loop]; rewrite (li_en _ _ _ _ Hi); destruct v2 as [|[en e] v2]; cbn [fmap list_fmap head fst].
  - split; [done|]. exists v1, []. split; [done|]. split; [|by intros a Ha%elem_of_nil].
    destruct (li_next _ _ _ _ Hi) as [->|(a & v2' & [=] & _)]. by rewrite (li_en _ _ _ _ Hi).
  - destruct Hf as [Hf|Hf]; [cbn in Hf; lia|]. pose proof (Hf _ (list_elem_of_here _ _)) as Hx. cbn in Hx.
    rewrite (node_of_view _ _ _ _ _ _ (li_ok _ _ _ _ Hi) (li_tree _ _ _ _ Hi) (li_view _ _ _ _ Hi)).
    rewrite (proj2 (Z.ltb_ge (fofs e) end_)) by lia. cbn. split; [done|]. exists v1, ((en, e) :: v2). split; [done|]. split; [|done].
    destruct (li_next _ _ _ _ Hi) as [->|(a & v2' & [= <- <-] & Hc)]; [by rewrite (li_en _ _ _ _ Hi)|]. cbn in Hc. lia.
  - split; [done|]. exists v1, []. split; [done|]. split; [|by intros a Ha%elem_of_nil].
    destruct (li_next _ _ _ _ Hi) as [->|(a & v2' & [=] & _)]. by rewrite (li_en _ _ _ _ Hi).
  - rewrite (node_of_view _ _ _ _ _ _ (li_ok _ _ _ _ Hi) (li_tree _ _ _ _ Hi) (li_view _ _ _ _ Hi)).
    destruct (Z.ltb_spec (fofs e) end_) as [He|He]; cbn [negb].
    + pose proof (update_node_ok _ _ _ _ _ _ Hmk Hr Hr' Hi He) as (Hfr & v1' & v2' & Hi' & Hnx & Hlen).
      destruct (update_node _ _ _ _ _ _ _) as [v' s'] eqn:E. cbn [fst snd] in *.
      destruct (IH _ _ _ _ Hi') as (Hfr' & Hrest); [|split; [by etrans|done]].
      destruct Hlen as [Hlen|]; [|by right]. destruct Hf as [Hf|Hf]; [left; cbn in Hf; lia|].
      specialize (Hf _ (list_elem_of_here _ _)). cbn in Hf. lia.
    + cbn. split; [done|]. exists v1, ((en, e) :: v2). split; [done|]. split.
      * destruct (li_next _ _ _ _ Hi) as [->|(a & v2' & [= <- <-] & Hc)]; [by rewrite (li_en _ _ _ _ Hi)|]. cbn in Hc. lia.
      * destruct (wf_middle _ _ _ (li_wf _ _ _ _ Hi)) as (_ & (O1 & O2 & O3) & _ & Hb). cbn in *. unfold ei_end in *.
        intros a [->|Ha]%elem_of_cons; [done|]. specialize (Hb _ Ha). lia.
Qed.
End updates.

(** ** Merging the new extent *)

Section merge.
Context `{Hrb : !RbOps} `{Hrl : !RbLaws}.
Context (m : file_map) (Hm : map_ok m) (ino : Z).

Definition join (a b : extent_info) : extent_info := mk_ei (fofs a) (len a + len b) (blk a).

Lemma join_ok a b : ei_ok a -> ext_sound m a -> ei_ok b -> ext_sound m b ->
  fofs a + len a = fofs b -> blk a + len a = blk b ->
  ei_ok (join a b) /\ ext_sound m (join a b) /\ ei_end (join a b) = ei_end b.
Proof.
  intros (A1 & A2 & A3) (Ab & As) (B1 & B2 & B3) (Bb & Bs) Hf Hbk. unfold ei_ok, ext_sound, join, ei_end in *. cbn.
  split_and!; try lia. intros o Ho. destruct (Z.lt_ge_cases o (fofs b)); [apply As; lia|]. rewrite Bs by lia. f_equal. lia.
Qed.

(** The 32-bit sums of the code are exact on sound extents. *)
Lemma mergeable_exact a b : ei_ok a -> ext_sound m a -> ei_ok b -> ext_sound m b ->
  __is_extent_mergeable a b = true -> fofs a + len a = fofs b /\ blk a + len a = blk b.
Proof.
  intros Oa Sa Ob Sb H. destruct (sound_end _ _ Hm Oa Sa) as (P1 & P2). destruct (sound_end _ _ Hm Ob Sb) as (Q1 & Q2).
  destruct Oa as (A1 & A2 & A3). unfold ei_end in A3.
  unfold __is_extent_mergeable in H. zbool. rewrite u32_small in H by lia. split; [done|].
  destruct (Z.eq_dec (blk a + len a) (2 ^ 32)) as [E|]; [|rewrite u32_small in *; lia].
  exfalso. rewrite E in *. change (u32 (2 ^ 32)) with 0 in *. lia.
Qed.

Record merged (s s' : ext_state) (e : extent_info) (en : positive) (v1 : extents) (x : extent_info) (v2 : extents) : Prop := {
  mg_eff : eff ino s s' (v1 ++ (en, x) :: v2) (largest (tree_of s ino));
  mg_wf : view_wf (v1 ++ (en, x) :: v2);
  mg_sound : view_sound m (v1 ++ (en, x) :: v2);
  mg_covers : fofs x <= fofs e /\ ei_end e <= ei_end x
}.

Context (e : extent_info) (He : ei_ok e) (Hs : ext_sound m e).

Lemma set_len_join a : ei_ok a -> ei_end a = fofs e -> set_len (u32 (len a + len e)) a = join a e.
Proof.
  intros (A1 & A2 & A3) Ha. unfold set_len, join. destruct He as (E1 & E2 & E3). unfold ei_end in *. rewrite u32_small by lia. done.
Qed.

(** Into the extent before. *)
Lemma merge_back_ok s prev v1 v2 : xs_ok s -> is_Some (extent_tree_root s !! ino) -> view s ino = v1 ++ v2 ->
  view_wf (v1 ++ v2) -> view_sound m (v1 ++ v2) -> (forall a, a ∈ v2 -> ei_end e <= fofs a.2) ->
  (forall p, prev = Some p -> last v1.*1 = Some p) ->
  merge_back e prev s = (e, None, s) \/
  exists v1' p x s', prev = Some p /\ merge_back e prev s = (x, Some p, s') /\ merged s s' e p v1' x v2 /\ ei_end x = ei_end e.
Proof.
  intros Hok Ht Hv Hw Hsd Hb Hp. unfold merge_back. destruct prev as [p|]; [|by left]. specialize (Hp _ eq_refl).
  rewrite fmap_last in Hp. destruct (last v1) as [[q ep]|] eqn:El; [|done]. injection Hp as ->.
  apply last_Some in El as (v1' & ->). rewrite <- app_assoc in Hv, Hw, Hsd. cbn in Hv, Hw, Hsd.
  rewrite (node_of_view _ _ _ _ _ _ Hok Ht Hv). unfold __is_back_mergeable.
  destruct (__is_extent_mergeable ep e) eqn:Em; [right|by left].
  destruct (wf_middle _ _ _ Hw) as (W & Oe & Wb & Wa). cbn in Oe, Wa, Wb.
  apply (sound_middle m) in Hsd as (Sd & Se). cbn in Se.
  destruct (mergeable_exact ep e Oe Se He Hs Em) as (Hf & Hbk).
  destruct (join_ok ep e Oe Se He Hs Hf Hbk) as (J1 & J2 & J3).
  pose proof (upd_node_eff ino p (fun x => set_len (u32 (len x + len e)) x) s v1' ep v2 Hok Ht Hv) as E.
  cbn beta in E. rewrite (set_len_join ep Oe) in E by (unfold ei_end; lia).
  exists v1', p, (join ep e), (upd_node p (fun x => set_len (u32 (len x + len e)) x) s). split; [done|]. split; [|split; [|done]].
  - f_equal. f_equal. eapply node_of_view; [apply E| |apply E]. by apply (fr_tree _ _ _ (ef_frame _ _ _ _ _ E)).
  - split; [done| |by apply (sound_middle m)|].
    + apply wf_insert; [done|done|done|]. cbn. rewrite J3. done.
    + rewrite J3. destruct Oe as (? & ? & ?). cbn. lia.
Qed.

(** Into the extent behind. *)
Lemma merge_front_ok s x n en v1 v2 : xs_ok s -> is_Some (extent_tree_root s !! ino) -> view s ino = v1 ++ (n, en) :: v2 ->
  ei_ok x -> ext_sound m x -> ei_ok en -> ext_sound m en -> __is_front_mergeable x en = true ->
  eff ino s (upd_node n (fun y => mk_ei (fofs x) (u32 (len y + len x)) (blk x)) s) (v1 ++ (n, join x en) :: v2) (largest (tree_of s ino)) /\
  ei_ok (join x en) /\ ext_sound m (join x en) /\ ei_end (join x en) = ei_end en.
Proof.
  intros Hok Ht Hv Ox Sx On Sn Em. destruct (mergeable_exact x en Ox Sx On Sn Em) as (Hf & Hbk).
  destruct (join_ok x en Ox Sx On Sn Hf Hbk) as (J1 & J2 & J3). split; [|done].
  pose proof (upd_node_eff ino n (fun y => mk_ei (fofs x) (u32 (len y + len x)) (blk x)) s v1 en v2 Hok Ht Hv) as E.
  cbn beta in E. replace (join x en) with (mk_ei (fofs x) (u32 (len en + len x)) (blk x)); [done|].
  destruct J1 as (? & ? & ?). unfold join, ei_end in *. cbn in *. rewrite u32_small by (destruct Ox as (? & ? & ?); lia). f_equal. lia.
Qed.

(** The new extent is in the cache, alone or as a part of another. *)
Definition learned (s s' : ext_state) : Prop :=
  exists v' lg', eff ino s s' v' lg' /\ view_wf v' /\ view_sound m v' /\ largest_ok m lg' /\
    exists a, a ∈ v' /\ fofs a.2 <= fofs e /\ ei_end e <= ei_end a.2.

Lemma largest_or lg x : largest_ok m lg -> ei_ok x -> ext_sound m x -> largest_ok m (if len lg <? len x then x else lg).
Proof.
  intros Hlg Hx Sx. case_if; [|done]. pose proof Hx as (A & B & C). unfold ei_end in C. split; [lia|]. by right.
Qed.

Lemma merged_learned s s' n v1 x v2 : merged s s' e n v1 x v2 -> is_Some (extent_tree_root s !! ino) ->
  largest_ok m (largest (tree_of s ino)) -> learned s (use_node ino n (__try_update_largest_extent ino n s')).
Proof.
  intros [E W S C] Ht Hlg. destruct (wf_middle _ _ _ W) as (_ & Ox & _). pose proof (proj2 (proj1 (sound_middle m _ _ _) S)) as Sx. cbn in Ox, Sx.
  assert (Ht' : is_Some (extent_tree_root s' !! ino)) by (by apply (fr_tree _ _ _ (ef_frame _ _ _ _ _ E))).
  pose proof (try_largest_eff ino n s' (ef_ok _ _ _ _ _ E) Ht') as E2. set (s2 := __try_update_largest_extent ino n s') in *.
  assert (Hn : node_ei s' n = x) by (eapply node_of_view; [apply E|done|apply E]).
  unfold en_len in E2. rewrite Hn, (ef_largest _ _ _ _ _ E), (ef_view _ _ _ _ _ E) in E2.
  assert (Ht2 : is_Some (extent_tree_root s2 !! ino)) by (by apply (fr_tree _ _ _ (ef_frame _ _ _ _ _ E2))).
  destruct (view_elem _ _ _ _ _ _ (ef_ok _ _ _ _ _ E2) Ht2 (ef_view _ _ _ _ _ E2)) as (l1 & l2 & Hl & _).
  pose proof (use_node_eff ino n s2 (ef_ok _ _ _ _ _ E2) Ht2 ltac:(rewrite Hl; apply elem_of_app; right; left)) as E3.
  rewrite (ef_view _ _ _ _ _ E2), (ef_largest _ _ _ _ _ E2) in E3.
  eexists _, _. split; [exact (eff_trans _ _ _ _ _ _ _ _ E (eff_trans _ _ _ _ _ _ _ _ E2 E3))|].
  split; [done|]. split; [done|]. split; [by apply largest_or|]. exists (n, x). split; [apply elem_of_app; right; left|done].
Qed.

Lemma try_merge_ok s prev v1 v2 : xs_ok s -> is_Some (extent_tree_root s !! ino) -> view s ino = v1 ++ v2 ->
  view_wf (v1 ++ v2) -> view_sound m (v1 ++ v2) -> largest_ok m (largest (tree_of s ino)) ->
  (forall a, a ∈ v1 -> ei_end a.2 <= fofs e) -> (forall a, a ∈ v2 -> ei_end e <= fofs a.2) ->
  (forall p, prev = Some p -> last v1.*1 = Some p) ->
  match __try_merge_extent_node ino e prev (head v2.*1) s with
  | (None, s') => s' = s
  | (Some _, s') => learned s s'
  end.
Proof.
  intros Hok Ht Hv Hw Hsd Hlg Hb Ha Hp. unfold __try_merge_extent_node.
  destruct (merge_back_ok s prev v1 v2 Hok Ht Hv Hw Hsd Ha Hp) as [->|(v1' & p & x & s1 & -> & -> & Hmg & Hx)].
  - unfold merge_front. destruct v2 as [|[n en] v2]; [done|]. cbn [fmap list_fmap head fst].
    rewrite (node_of_view _ _ _ _ _ _ Hok Ht Hv). destruct (__is_front_mergeable e en) eqn:Em; [|done].
    destruct (wf_middle _ _ _ Hw) as (W & On & Wb & Wa). apply (sound_middle m) in Hsd as (Sd & Sn). cbn in *.
    destruct (merge_front_ok s e n en v1 v2 Hok Ht Hv He Hs On Sn Em) as (E & J1 & J2 & J3).
    eapply merged_learned; [split; [exact E| | |]|done|done].
    + apply wf_insert; [done|done|done|]. cbn. by rewrite J3.
    + by apply (sound_middle m).
    + rewrite J3. cbn. split; [done|]. specialize (Ha _ (list_elem_of_here _ _)). cbn in Ha. destruct On as (? & ? & ?). unfold ei_end in *. lia.
  - pose proof Hmg as [E W S C]. assert (Ht1 : is_Some (extent_tree_root s1 !! ino)) by (by apply (fr_tree _ _ _ (ef_frame _ _ _ _ _ E))).
    unfold merge_front. destruct v2 as [|[n en] v2]; [by eapply merged_learned|]. cbn [fmap list_fmap head fst].
    pose proof (ef_view _ _ _ _ _ E) as Hv1. rewrite cons_middle, app_assoc in Hv1.
    rewrite (node_of_view _ _ _ _ _ _ (ef_ok _ _ _ _ _ E) Ht1 Hv1).
    destruct (__is_front_mergeable x en) eqn:Em; [|by eapply merged_learned].
    destruct (wf_middle _ _ _ W) as (W2 & Ox & Wb & Wa). cbn in Ox, Wa, Wb.
    apply (sound_middle m) in S as (S & Sx). cbn in Sx.
    destruct (wf_middle _ _ _ W2) as (W3 & On & Wb2 & Wa2). apply (sound_middle m) in S as (S & Sn). cbn in On, Sn, Wb2, Wa2.
    destruct (merge_front_ok s1 x n en _ v2 (ef_ok _ _ _ _ _ E) Ht1 Hv1 Ox Sx On Sn Em) as (E2 & J1 & J2 & J3).
    rewrite <- app_assoc in E2. cbn [app] in E2.
    set (s2 := upd_node n _ s1) in *.
    assert (Ht2 : is_Some (extent_tree_root s2 !! ino)) by (by apply (fr_tree _ _ _ (ef_frame _ _ _ _ _ E2))).
    pose proof (release_eff ino p s2 v1' x ((n, join x en) :: v2) (ef_ok _ _ _ _ _ E2) Ht2 (ef_view _ _ _ _ _ E2)) as E3.
    rewrite (ef_largest _ _ _ _ _ E2) in E3.
    pose proof (eff_trans _ _ _ _ _ _ _ _ E (eff_trans _ _ _ _ _ _ _ _ E2 E3)) as E4. rewrite (ef_largest _ _ _ _ _ E) in E4.
    eapply merged_learned; [split; [exact E4| | |]|done|done].
    + apply wf_insert; [done|done|done|]. cbn. by rewrite J3.
    + by apply (sound_middle m).
    + rewrite J3. cbn. destruct C as (C1 & C2). split; [done|]. specialize (Ha _ (list_elem_of_here _ _)). cbn in Ha.
      destruct On as (? & ? & ?). unfold ei_end in *. lia.
Qed.
End merge.
