(* ===== verification/ExtentSafe.v ===== *)
(** * The extent cache never answers with a stale address

    The operations of the cache against the maps of all files: each keeps the
    invariant [xs_inv], under which an extent that a lookup finds says what the
    map of its file says. *)

From stdpp Require Import base numbers option gmap list sorting fin_maps.
From S2P Require Import Prelude Inode NodePath RbTree Extent ExtentWf ExtentUpdate.

(** [frame] for operations that may give the cache of the inode up. *)
Record wframe (ino : Z) (s s' : ext_state) : Prop := {
  wf_view i : i <> ino -> view s' i = view s i;
  wf_largest i : i <> ino -> largest (tree_of s' i) = largest (tree_of s i);
  wf_tree i : is_Some (extent_tree_root s' !! i) <-> is_Some (extent_tree_root s !! i);
  wf_zombie : zombie_list s' = zombie_list s;
  wf_opt : extent_cache_opt s' = extent_cache_opt s;
  wf_inodes i : is_Some (xinodes s' !! i) <-> is_Some (xinodes s !! i);
  wf_inode i : set_x_dirty false (set_x_no_extent false (inode_of s' i)) = set_x_dirty false (set_x_no_extent false (inode_of s i));
  wf_other i : i <> ino -> no_extent_flag s' i = no_extent_flag s i;
  wf_flag : no_extent_flag s ino = true -> no_extent_flag s' ino = true;
  wf_dirty : is_Some (xinodes s !! ino) -> largest (tree_of s' ino) = largest (tree_of s ino) \/ x_dirty (inode_of s' ino) = true;
  wf_stay i : x_dirty (inode_of s i) = true -> x_dirty (inode_of s' i) = true
}.

#[export] Instance wframe_preorder ino : PreOrder (wframe ino).
Proof.
  split; [split; auto; done|].
  intros s1 s2 s3 [A1 A2 A3 A4 A5 A6 A7 A8 A9 A10 A11] [B1 B2 B3 B4 B5 B6 B7 B8 B9 B10 B11]. split; auto.
  - intros i Hi. by rewrite B1, A1.
  - intros i Hi. by rewrite B2, A2.
  - intros i. by rewrite B3, A3.
  - by rewrite B4, A4.
  - by rewrite B5, A5.
  - intros i. by rewrite B6, A6.
  - intros i. by rewrite B7, A7.
  - intros i Hi. by rewrite B8, A8.
  - intros Hi. destruct (B10 (proj2 (A6 ino) Hi)) as [->|]; [|by right]. destruct (A10 Hi); [by left|right; auto].
Qed.

Lemma frame_wframe ino s s' : frame ino s s' -> wframe ino s s'.
Proof.
  intros F. pose proof F as [F1 F2 F3 F4 F5 F6 F7 F8 F9]. split; auto.
  - intros i. specialize (F7 i). destruct (inode_of s' i), (inode_of s i). cbn in *. by injection F7 as -> -> -> -> ->.
  - intros i _. by apply (frame_flag ino).
  - by rewrite (frame_flag ino s s' ino F).
Qed.

Lemma set_no_extent_inode ino s i :
  inode_of (set_no_extent ino s) i = (if decide (i = ino) then
    match xinodes s !! ino with Some x => set_x_no_extent true x | None => no_inode end else inode_of s i).
Proof.
  unfold inode_of, set_no_extent, upd_inode. cbn. case_decide; subst.
  - rewrite lookup_alter_eq. by destruct (xinodes s !! ino).
  - by rewrite lookup_alter_ne.
Qed.

Lemma set_no_extent_wframe ino s : wframe ino s (set_no_extent ino s).
Proof.
  split; try done; try by left.
  - intros i. unfold set_no_extent, upd_inode. cbn. by rewrite lookup_alter_is_Some.
  - intros i. rewrite set_no_extent_inode. case_decide; [subst|done]. unfold inode_of. by destruct (xinodes s !! ino).
  - intros i Hi. unfold no_extent_flag. by rewrite set_no_extent_inode, decide_False.
  - unfold no_extent_flag. rewrite set_no_extent_inode, decide_True by done. unfold inode_of. by destruct (xinodes s !! ino).
  - intros i. rewrite set_no_extent_inode. case_decide; [subst|done]. unfold inode_of. by destruct (xinodes s !! ino).
Qed.

Lemma set_no_extent_ok ino s : xs_ok s -> xs_ok (set_no_extent ino s).
Proof.
  intros [O1 O2 O3 O4 O5 O6 O7 O8]. split; auto. intros i t Ht. destruct (O1 _ _ Ht) as [T1 T2 T3 T4]. by split.
Qed.

Lemma set_no_extent_flag ino s : is_Some (xinodes s !! ino) -> no_extent_flag (set_no_extent ino s) ino = true.
Proof. intros (x & Hx). unfold no_extent_flag. by rewrite set_no_extent_inode, decide_True, Hx by done. Qed.

(** ** Updates *)

Section update_range.
Context `{Hrb : !RbOps} `{Hrl : !RbLaws}.
Context (kmem_cache_alloc : ext_state -> option positive).
Context (alloc_fresh : forall s p, kmem_cache_alloc s = Some p -> nodes s !! p = None).

(** What the tree of an inode must satisfy against the map of the file. *)
Record tree_sound (m : file_map) (s : ext_state) (ino : Z) : Prop := {
  ts_wf : view_wf (view s ino);
  ts_sound : view_sound m (view s ino);
  ts_largest : largest_ok m (largest (tree_of s ino));
  ts_given_up : no_extent_flag s ino = true -> view s ino = [] /\ len (largest (tree_of s ino)) = 0
}.

Lemma drop_outside m lg f l : largest_ok m lg -> 0 <= f -> 0 <= l -> f + l < 2 ^ 64 ->
  let lg' := if (f <? u32 (fofs lg + len lg)) && (fofs lg <? u64 (f + l)) then set_len 0 lg else lg in
  largest_ok m lg' /\ outside f (f + l) lg'.
Proof.
  intros (Hr & Hlg) Hf Hl Hb. cbv zeta. rewrite (u64_small (f + l)) by lia. case_if.
  - split; [split; [done|by left]|by left].
  - split; [done|]. destruct Hlg as [|((O1 & O2 & O3) & _)]; [by left|]. unfold outside, ei_end in *.
    rewrite u32_small in E by lia. apply andb_false_iff in E as [E|E]; zbool; lia.
Qed.

Lemma drop_all m lg : largest_ok m lg ->
  len (if (0 <? u32 (fofs lg + len lg)) && (fofs lg <? u64 (0 + UINT_MAX)) then set_len 0 lg else lg) = 0.
Proof.
  intros Hlg. destruct (drop_outside m lg 0 UINT_MAX Hlg) as (Ho & Hout); [done..|]. cbv zeta in Ho, Hout.
  destruct Ho as (Hr & [H|((O1 & O2 & O3) & _)]); [done|]. unfold outside, ei_end, UINT_MAX in *. lia.
Qed.

Lemma view_of_fst s l : (view_of s l).*1 = l.
Proof. unfold view_of. change (((fun p => (p, node_ei s p)) <$> l).*1 = l). rewrite <- list_fmap_compose. apply list_fmap_id. Qed.

(** The invariant of the loop holds when the lookup has been done. *)
Lemma loop_start m s ino pos end_ dei : xs_ok s -> is_Some (extent_tree_root s !! ino) -> view_wf (view s ino) -> view_sound m (view s ino) ->
  largest_ok m (largest (tree_of s ino)) /\ outside pos end_ (largest (tree_of s ino)) -> 0 <= pos < end_ ->
  let t := tree_of s ino in
  let r := __lookup_rb_tree_ret (en_fofs s) (en_len s) (root t) (cached_en t) pos false in
  let en := match lr_entry r with None => next_entry r | en => en end in
  exists v1 v2, loop_inv m ino pos end_ (mk_uv en (prev_entry r) (next_entry r) dei (insert_p r)) s v1 v2 /\
    (length v2 <= length (inorder (root t)))%nat.
Proof.
  intros Hok Ht Hw Hs Hlg Hr. cbv zeta. pose proof (tree_of_ok _ _ Hok Ht) as [T1 T2 T3 T4].
  pose proof (lookup_ret_ok (en_fofs s) (en_len s) (root (tree_of s ino)) (cached_en (tree_of s ino)) pos false
    ltac:(by apply view_ranges) T4) as Hret.
  inversion Hret as [p l1 l2 Hl Hp Heq|Hleaf Heq|q sd l1 l2 Hlk Ha Hb Heq]; cbn [lr_entry next_entry prev_entry insert_p].
  - assert (Hv : view s ino = view_of s l1 ++ (p, node_ei s p) :: view_of s l2) by (unfold view; by rewrite Hl, view_of_app).
    rewrite Hv in Hw, Hs. destruct (wf_middle _ _ _ Hw) as (_ & (O1 & O2 & O3) & Hbf & Haf). cbn in O1, O2, O3, Hbf, Haf.
    unfold in_range, en_fofs, en_len in Hp. unfold ei_end in *.
    exists (view_of s l1), ((p, node_ei s p) :: view_of s l2). split; [split; cbn; try done|].
    + intros a Hx. specialize (Hbf _ Hx). unfold ei_end. lia.
    + intros a [->|Hx]%elem_of_cons; [cbn; unfold ei_end; lia|]. specialize (Haf _ Hx).
      pose proof (proj2 (Forall_app _ _ _) (proj1 (Forall_app _ _ _) (proj2 Hw))) as Hf. rewrite Forall_forall in Hf.
      destruct (Hf a) as (? & ? & ?); [apply elem_of_app; right; by right|]. unfold ei_end. lia.
    + intros c. case_if; [|done]. by rewrite view_of_fst.
    + right. exists (p, node_ei s p), (view_of s l2). split; [done|]. cbn. lia.
    + rewrite Hl, length_app. cbn. unfold view_of. rewrite length_map. lia.
  - exists [], []. unfold view in *. rewrite Hleaf in *. cbn. split; [|lia]. split; cbn; try done; try (by intros ? ?%elem_of_nil); try by left.
    unfold view. by rewrite Hleaf.
  - assert (Hl := lb_list _ _ _ _ Hlk). assert (Hv : view s ino = view_of s l1 ++ view_of s l2) by (unfold view; by rewrite Hl, view_of_app).
    rewrite Hv in Hw, Hs.
    assert (Ha' : forall a, a ∈ view_of s l1 -> ei_end a.2 <= pos).
    { intros a (p & -> & Hp)%list_elem_of_fmap. apply (Ha _ Hp). }
    assert (Hb' : forall a, a ∈ view_of s l2 -> pos < fofs a.2).
    { intros a (p & -> & Hp)%list_elem_of_fmap. apply (Hb _ Hp). }
    exists (view_of s l1), (view_of s l2). split; [split; cbn; rewrite ?view_of_fst; try done|].
    + intros a Hx. specialize (Hb' _ Hx). pose proof (proj2 Hw) as Hf. rewrite Forall_forall in Hf.
      destruct (Hf a) as (? & ? & ?); [apply elem_of_app; by right|]. unfold ei_end. lia.
    + intros q' [= <-]. split; [|done]. by exists l1, l2.
    + by left.
    + rewrite Hl, length_app. unfold view_of. rewrite length_map. lia.
Qed.

Lemma sound_written m f b l v1 v2 : view_sound m (v1 ++ v2) ->
  (forall a, a ∈ v1 -> ei_end a.2 <= f) -> (forall a, a ∈ v2 -> f + l <= fofs a.2) -> view_sound (write_range m f b l) (v1 ++ v2).
Proof.
  unfold view_sound. rewrite !Forall_forall. intros Hs H1 H2 a Ha. apply ext_sound_outside; [by apply Hs|].
  apply elem_of_app in Ha as [Ha|Ha]; [left; by apply H1|right; by apply H2].
Qed.

(** The range has been cut out, the new extent enters the tree. *)
Lemma enter_ok m ino e v s v1 v2 : map_ok m -> ei_ok e -> ext_sound m e ->
  xs_ok s -> is_Some (extent_tree_root s !! ino) -> view s ino = v1 ++ v2 -> view_wf (v1 ++ v2) -> view_sound m (v1 ++ v2) ->
  largest_ok m (largest (tree_of s ino)) ->
  (forall a, a ∈ v1 -> ei_end a.2 <= fofs e) -> (forall a, a ∈ v2 -> ei_end e <= fofs a.2) ->
  (forall p, uv_prev v = Some p -> last v1.*1 = Some p) -> uv_next v = head v2.*1 ->
  (forall q, uv_ins v = Some q -> place s ino (Some q) v1 v2) ->
  let s' := enter_extent kmem_cache_alloc ino e v s in
  xs_ok s' /\ frame ino s s' /\ view_wf (view s' ino) /\ view_sound m (view s' ino) /\ largest_ok m (largest (tree_of s' ino)) /\
  ((forall s, kmem_cache_alloc s <> None) -> forall o, fofs e <= o < ei_end e -> covered (view s' ino) o).
Proof.
  intros Hm Oe Se Hok Ht Hv Hw Hs Hlg Hb Ha Hp Hn Hins. cbv zeta.
  assert (Hlearned : forall s', learned m ino e s s' -> xs_ok s' /\ frame ino s s' /\ view_wf (view s' ino) /\ view_sound m (view s' ino) /\
    largest_ok m (largest (tree_of s' ino)) /\ forall o, fofs e <= o < ei_end e -> covered (view s' ino) o).
  { intros s' (v' & lg' & [E1 E2 E3 E4] & W & S & G & a & A1 & A2 & A3). rewrite E3, E4. split_and!; try done.
    intros o Ho. exists a. split; [done|]. lia. }
  pose proof (try_merge_ok m Hm ino e Oe Se s (uv_prev v) v1 v2 Hok Ht Hv Hw Hs Hlg Hb Ha Hp) as Hmg.
  unfold enter_extent. rewrite Hn. destruct (__try_merge_extent_node _ _ _ _ _) as [[en|] s0]; [destruct (Hlearned _ Hmg); naive_solver|].
  subst s0. pose proof (insert_ok kmem_cache_alloc alloc_fresh ino e (uv_ins v) s v1 v2 Hok Ht Hv Hw Oe Hb Ha Hins) as Hi.
  inversion Hi as [Hno Heq|en s1 E Heq]; cbn.
  - rewrite Hv. split_and!; try done. intros Hal. by destruct (Hal s).
  - destruct (Hlearned s1); [|naive_solver]. eexists _, _. split; [exact E|]. split_and!.
    + by apply wf_insert.
    + by apply (sound_middle m).
    + by apply largest_or.
    + exists (en, e). split; [apply elem_of_app; right; left|done].
Qed.

(** A range of the map with blocks, as an extent. *)
Lemma written_extent m f b l : map_ok (write_range m f b l) -> 0 <= f -> 0 < l -> f + l < 2 ^ 32 -> b <> 0 ->
  set_extent_info f b l = mk_ei f l b /\ ext_sound (write_range m f b l) (mk_ei f l b).
Proof.
  intros Hm Hf Hl Hfl Hb. assert (Hr : forall o, f <= o < f + l -> write_range m f b l o = Some (b + (o - f))).
  { intros o Ho. unfold write_range. rewrite (proj2 (andb_true_iff _ _)) by (rewrite Z.leb_le, Z.ltb_lt; lia).
    by rewrite (proj2 (c_true_true b)). }
  pose proof (Hm _ _ (Hr f ltac:(lia))). split; [unfold set_extent_info; by rewrite !u32_small by lia|].
  split; [cbn; lia|]. unfold ei_end. cbn. exact Hr.
Qed.

Lemma update_extent_ok m ino f b l prev v s v1 v2 : map_ok (write_range m f b l) -> 0 <= f -> 0 < l -> f + l < 2 ^ 32 -> b <> 0 ->
  loop_inv m ino f (f + l) v s v1 v2 -> uv_next v = head v2.*1 -> (forall a, a ∈ v2 -> f + l <= fofs a.2) ->
  is_Some (xinodes s !! ino) -> no_extent_flag s ino = false ->
  let m' := write_range m f b l in
  let s' := update_extent kmem_cache_alloc ino f b l prev v s in
  xs_ok s' /\ wframe ino s s' /\ view_wf (view s' ino) /\ view_sound m' (view s' ino) /\ largest_ok m' (largest (tree_of s' ino)) /\
  (no_extent_flag s' ino = true -> len (largest (tree_of s' ino)) = 0) /\
  ((forall s, kmem_cache_alloc s <> None) -> forall o, f <= o < f + l -> covered (view s' ino) o).
Proof.
  intros Hm' Hf Hl Hfl Hb Hi Hnx Hv2 Hin Hfl0. cbv zeta. destruct (written_extent m f b l Hm' Hf Hl Hfl Hb) as (He & Se).
  unfold update_extent. rewrite He. pose proof Hi as [I1 I2 I3 I4 I5 _ I7 _ I9 I10 [I11 I12] _].
  destruct (enter_ok _ ino (mk_ei f l b) v s v1 v2 Hm' ltac:(unfold ei_ok, ei_end; cbn; lia) Se I1 I2 I3 I4
    (sound_written m f b l v1 v2 I5 I7 Hv2) (largest_outside _ _ _ _ _ I11 I12) I7 Hv2 I9 Hnx (fun q Hq => proj1 (I10 q Hq)))
    as (K1 & K2 & K3 & K4 & K5 & K6).
  set (s1 := enter_extent _ _ _ _ _) in *. clearbody s1.
  assert (Ht1 : is_Some (extent_tree_root s1 !! ino)) by (by apply (fr_tree _ _ _ K2)).
  case_if.
  - pose proof (drop_largest_eff ino 0 UINT_MAX s1 K1 Ht1) as [D1 D2 D3 D4]. cbv zeta in D4.
    set (s2 := __drop_largest_extent ino 0 UINT_MAX s1) in *. change (view (set_no_extent ino s2)) with (view s2).
    change (tree_of (set_no_extent ino s2)) with (tree_of s2). rewrite D3, D4. split_and!; try done.
    + by apply set_no_extent_ok.
    + etrans; [apply frame_wframe, K2|]. etrans; [apply frame_wframe, D2|]. apply set_no_extent_wframe.
    + by apply (drop_outside _ (largest (tree_of s1 ino)) 0 UINT_MAX).
    + intros _. by eapply drop_all.
  - split_and!; try done; [by apply frame_wframe|]. by rewrite (frame_flag _ _ _ _ K2), Hfl0.
Qed.

(** The exit of an update: with the cache given up, the tree is emptied. *)
Lemma empty_given_up m s ino : xs_ok s -> is_Some (extent_tree_root s !! ino) -> view_wf (view s ino) -> view_sound m (view s ino) ->
  largest_ok m (largest (tree_of s ino)) -> (no_extent_flag s ino = true -> len (largest (tree_of s ino)) = 0) ->
  let s' := if no_extent_flag s ino then (__free_extent_tree ino s).2 else s in
  xs_ok s' /\ frame ino s s' /\ tree_sound m s' ino /\ (no_extent_flag s' ino = false -> s' = s).
Proof.
  intros Hok Ht Hw Hs Hlg Hg. cbv zeta. destruct (no_extent_flag s ino) eqn:E.
  - destruct (free_tree_eff ino s Hok Ht) as ([F1 F2 F3 F4] & _). set (s' := (__free_extent_tree ino s).2) in *.
    split; [done|]. split; [done|]. rewrite (frame_flag _ _ _ _ F2), E. split; [|done].
    split; rewrite ?F3, ?F4; try done; [apply view_nil|by constructor|intros _; split; [done|by apply Hg]].
  - split; [done|]. split; [done|]. split; [|done]. split; try done. by rewrite E.
Qed.

Record update_pre (m : file_map) (ino f b l : Z) (s : ext_state) : Prop := {
  up_map : map_ok m;
  up_new : map_ok (write_range m f b l);
  up_range : 0 <= f /\ 0 < l /\ f + l < 2 ^ 32;
  up_tree : is_Some (extent_tree_root s !! ino);
  up_inode : is_Some (xinodes s !! ino);
  up_sound : tree_sound m s ino
}.

(** After an update the tree is sound for the map with the range written, and,
    unless the cache has been given up or memory has run out, it knows the range. *)
Lemma update_range_ok m ino f b l s : xs_ok s -> update_pre m ino f b l s -> x_extent_tree (inode_of s ino) = true ->
  let m' := write_range m f b l in
  let s' := f2fs_update_extent_tree_range kmem_cache_alloc ino f b l s in
  xs_ok s' /\ wframe ino s s' /\ tree_sound m' s' ino /\
  (b <> 0 -> no_extent_flag s' ino = false -> (forall s, kmem_cache_alloc s <> None) -> forall o, f <= o < f + l -> covered (view s' ino) o).
Proof.
  intros Hok [Hm Hm' (Hf & Hl & Hfl) Ht Hin [T1 T2 T3 T4]] Hptr. cbv zeta. unfold f2fs_update_extent_tree_range. rewrite Hptr. cbn [negb].
  destruct (no_extent_flag s ino) eqn:Efl.
  { destruct (T4 eq_refl) as (Hv & Hlen). split; [done|]. split; [done|]. split; [|congruence].
    split; rewrite ?Hv; [apply view_nil|by constructor|destruct T3 as (T3 & _); split; [done|by left]|done]. }
  rewrite (u32_small f), (u32_small (f + l)) by lia.
  pose proof (drop_largest_eff ino f l s Hok Ht) as [D1 D2 D3 D4]. cbv zeta in D4. set (s1 := __drop_largest_extent ino f l s) in *.
  assert (Ht1 : is_Some (extent_tree_root s1 !! ino)) by (by apply (fr_tree _ _ _ D2)).
  pose proof (drop_outside m (largest (tree_of s ino)) f l T3 Hf ltac:(lia) ltac:(lia)) as Hlg1. cbv zeta in Hlg1. rewrite <- D4 in Hlg1.
  destruct (loop_start m s1 ino f (f + l) no_ei D1 Ht1 ltac:(by rewrite D3) ltac:(by rewrite D3) Hlg1 ltac:(lia)) as (v1 & v2 & Hi & Hlen).
  match goal with |- context [update_loop _ _ _ _ _ ?x s1] => set (v := x) in * end.
  pose proof (update_loop_ok kmem_cache_alloc alloc_fresh m ino f (f + l) (S (length (inorder (root (tree_of s1 ino))))) v s1 v1 v2 Hm
    ltac:(lia) Hfl Hi ltac:(left; lia)) as Hloop. cbv zeta in Hloop.
  destruct (update_loop _ _ _ _ _ _ _) as [v' s2]. cbn [fst snd] in Hloop. destruct Hloop as (Hfr & k1 & k2 & Hi2 & Hnx & Hk2).
  assert (Hin2 : is_Some (xinodes s2 !! ino)) by (by apply (fr_inodes _ _ _ Hfr), (fr_inodes _ _ _ D2)).
  assert (Hfl2 : no_extent_flag s2 ino = false) by (by rewrite (frame_flag _ _ _ _ Hfr), (frame_flag _ _ _ _ D2)).
  assert (Hupd : exists s3, s3 = (if c_true b then update_extent kmem_cache_alloc ino f b l (largest (tree_of s ino)) v' s2 else s2) /\
    xs_ok s3 /\ wframe ino s2 s3 /\ view_wf (view s3 ino) /\ view_sound (write_range m f b l) (view s3 ino) /\
    largest_ok (write_range m f b l) (largest (tree_of s3 ino)) /\
    (no_extent_flag s3 ino = true -> len (largest (tree_of s3 ino)) = 0) /\
    (b <> 0 -> (forall s, kmem_cache_alloc s <> None) -> forall o, f <= o < f + l -> covered (view s3 ino) o)).
  { eexists. split; [reflexivity|]. destruct (c_true b) eqn:Eb.
    - apply c_true_true in Eb. destruct (update_extent_ok m ino f b l (largest (tree_of s ino)) v' s2 k1 k2 Hm' Hf Hl Hfl Eb Hi2 Hnx Hk2 Hin2 Hfl2)
        as (K1 & K2 & K3 & K4 & K5 & K6 & K7). split_and!; try done.
    - apply c_true_false in Eb. pose proof Hi2 as [I1 I2 I3 I4 I5 _ I7 _ _ _ [I11 I12] _]. rewrite I3. split_and!; try done.
      + by apply sound_written.
      + by apply largest_outside.
      + congruence. }
  destruct Hupd as (s3 & <- & K1 & K2 & K3 & K4 & K5 & K6 & K7).
  assert (Ht3 : is_Some (extent_tree_root s3 !! ino)) by (apply (wf_tree _ _ _ K2), (fr_tree _ _ _ Hfr); done).
  destruct (empty_given_up _ s3 ino K1 Ht3 K3 K4 K5 K6) as (G1 & G2 & G3 & G4).
  split; [done|]. split; [|split; [done|]].
  - etrans; [apply frame_wframe, D2|]. etrans; [apply frame_wframe, Hfr|]. etrans; [exact K2|]. by apply frame_wframe.
  - intros Hb0 Hno Hal o Ho. rewrite (G4 Hno). by apply K7.
Qed.
End update_range.

(** ** The invariant of all trees *)

Definition files := Z -> file_map.

Record xs_inv (M : files) (s : ext_state) : Prop := {
  xi_maps i : map_ok (M i);
  xi_ok : xs_ok s;
  xi_sound i : tree_sound (M i) s i;
  xi_zombie i : i ∈ zombie_list s <-> is_Some (extent_tree_root s !! i) /\ xinodes s !! i = None;
  xi_pointer i : is_Some (xinodes s !! i) -> (x_extent_tree (inode_of s i) = true <-> is_Some (extent_tree_root s !! i));
  xi_attached i : f2fs_may_extent_tree s i = true -> x_extent_tree (inode_of s i) = true;
  xi_opt i : is_Some (extent_tree_root s !! i) -> extent_cache_opt s = true;
  xi_reg i : x_extent_tree (inode_of s i) = true -> x_reg (inode_of s i) = true
}.

(** What holds of one inode, for [xs_inv]. *)
Record one_ok (m : file_map) (s : ext_state) (i : Z) : Prop := {
  oo_map : map_ok m;
  oo_sound : tree_sound m s i;
  oo_zombie : i ∈ zombie_list s <-> is_Some (extent_tree_root s !! i) /\ xinodes s !! i = None;
  oo_pointer : is_Some (xinodes s !! i) -> (x_extent_tree (inode_of s i) = true <-> is_Some (extent_tree_root s !! i));
  oo_attached : f2fs_may_extent_tree s i = true -> x_extent_tree (inode_of s i) = true;
  oo_opt : is_Some (extent_tree_root s !! i) -> extent_cache_opt s = true;
  oo_reg : x_extent_tree (inode_of s i) = true -> x_reg (inode_of s i) = true
}.

(** The other inodes are left alone. *)
Record oframe (ino : Z) (s s' : ext_state) : Prop := {
  of_view i : i <> ino -> view s' i = view s i;
  of_largest i : i <> ino -> largest (tree_of s' i) = largest (tree_of s i);
  of_tree i : i <> ino -> (is_Some (extent_tree_root s' !! i) <-> is_Some (extent_tree_root s !! i));
  of_zombie i : i <> ino -> (i ∈ zombie_list s' <-> i ∈ zombie_list s);
  of_opt : extent_cache_opt s' = extent_cache_opt s;
  of_inodes i : i <> ino -> (is_Some (xinodes s' !! i) <-> is_Some (xinodes s !! i));
  of_inode i : i <> ino -> set_x_dirty false (inode_of s' i) = set_x_dirty false (inode_of s i)
}.

#[export] Instance oframe_preorder ino : PreOrder (oframe ino).
Proof.
  split; [split; auto; done|]. intros s1 s2 s3 [A1 A2 A3 A4 A5 A6 A7] [B1 B2 B3 B4 B5 B6 B7].
  split; [..|by rewrite B5| |]; intros i Hi.
  - by rewrite B1, A1.
  - by rewrite B2, A2.
  - by rewrite B3, A3.
  - by rewrite B4, A4.
  - by rewrite B6, A6.
  - by rewrite B7, A7.
Qed.

Lemma clean_fields x y : set_x_dirty false x = set_x_dirty false y ->
  x_extent_tree x = x_extent_tree y /\ x_no_extent x = x_no_extent y /\ x_reg x = x_reg y.
Proof. destruct x, y. cbn. by intros [= -> -> -> -> ->]. Qed.

Lemma wframe_oframe ino s s' : wframe ino s s' -> oframe ino s s'.
Proof.
  intros [W1 W2 W3 W4 W5 W6 W7 W8 W9 W10 W11]. split; auto.
  - intros i _. by rewrite W4.
  - intros i Hi. specialize (W7 i). specialize (W8 i Hi). unfold no_extent_flag in W8.
    destruct (inode_of s' i), (inode_of s i). cbn in *. injection W7 as -> -> -> ->. by rewrite W8.
Qed.

Lemma oframe_none ino s s' i : oframe ino s s' -> i <> ino -> xinodes s' !! i = None <-> xinodes s !! i = None.
Proof. intros F Hi. rewrite !eq_None_not_Some. by rewrite (of_inodes _ _ _ F i Hi). Qed.

Lemma inv_local M M' ino s s' : xs_inv M s -> xs_ok s' -> oframe ino s s' -> (forall i, i <> ino -> M' i = M i) ->
  one_ok (M' ino) s' ino -> xs_inv M' s'.
Proof.
  intros [X1 X2 X3 X4 X5 X6 X7 X8] Hok F HM [O1 O2 O3 O4 O5 O6 O7].
  assert (Hfl : forall i, i <> ino -> no_extent_flag s' i = no_extent_flag s i).
  { intros i Hi. by destruct (clean_fields _ _ (of_inode _ _ _ F i Hi)) as (_ & H & _). }
  split; [|done|..]; intros i; (destruct (decide (i = ino)) as [->|Hi]; [done|]).
  - by rewrite HM.
  - rewrite HM by done. destruct (X3 i) as [T1 T2 T3 T4].
    split; rewrite ?(of_view _ _ _ F i Hi), ?(of_largest _ _ _ F i Hi), ?(Hfl i Hi); done.
  - rewrite (of_zombie _ _ _ F i Hi), (of_tree _ _ _ F i Hi), (oframe_none _ _ _ i F Hi). apply X4.
  - rewrite (of_inodes _ _ _ F i Hi), (of_tree _ _ _ F i Hi).
    destruct (clean_fields _ _ (of_inode _ _ _ F i Hi)) as (-> & _). apply X5.
  - unfold f2fs_may_extent_tree. rewrite (of_opt _ _ _ F), (Hfl i Hi).
    destruct (clean_fields _ _ (of_inode _ _ _ F i Hi)) as (-> & _ & ->). apply X6.
  - rewrite (of_tree _ _ _ F i Hi), (of_opt _ _ _ F). apply X7.
  - destruct (clean_fields _ _ (of_inode _ _ _ F i Hi)) as (-> & _ & ->). apply X8.
Qed.

(** An operation on the tree of one inode. *)
Lemma inv_tree M M' ino s s' : xs_inv M s -> xs_ok s' -> wframe ino s s' -> (forall i, i <> ino -> M' i = M i) ->
  map_ok (M' ino) -> tree_sound (M' ino) s' ino -> xs_inv M' s'.
Proof.
  intros Hx Hok F HM Hm Hs. apply (inv_local M M' ino s s' Hx Hok (wframe_oframe _ _ _ F) HM).
  destruct Hx as [X1 X2 X3 X4 X5 X6 X7 X8]. pose proof F as [W1 W2 W3 W4 W5 W6 W7 W8 W9 W10 W11].
  assert (Hc : x_extent_tree (inode_of s' ino) = x_extent_tree (inode_of s ino) /\ x_reg (inode_of s' ino) = x_reg (inode_of s ino)).
  { specialize (W7 ino). destruct (inode_of s' ino), (inode_of s ino). cbn in *. by injection W7 as -> -> -> ->. }
  split; try done.
  - rewrite W4, W3, X4, !eq_None_not_Some. by rewrite W6.
  - rewrite W6, W3. destruct Hc as (-> & _). apply X5.
  - unfold f2fs_may_extent_tree. rewrite W5. destruct Hc as (-> & ->). intros Hmay. apply X6. unfold f2fs_may_extent_tree.
    destruct (no_extent_flag s ino) eqn:E; [|by destruct (no_extent_flag s' ino), (negb (extent_cache_opt s))].
    rewrite (W9 eq_refl), orb_true_r in Hmay. done.
  - rewrite W3, W5. apply X7.
  - destruct Hc as (-> & ->). apply X8.
Qed.

(** ** The operations keep the invariant *)

Section operations.
Context `{Hrb : !RbOps} `{Hrl : !RbLaws}.
Context (kmem_cache_alloc : ext_state -> option positive).
Context (alloc_fresh : forall s p, kmem_cache_alloc s = Some p -> nodes s !! p = None).

Lemma may_present s ino : f2fs_may_extent_tree s ino = true -> is_Some (xinodes s !! ino).
Proof.
  unfold f2fs_may_extent_tree, inode_of. destruct (_ || _); [done|]. destruct (xinodes s !! ino); [by eexists|done].
Qed.

Lemma may_flag s ino : f2fs_may_extent_tree s ino = true -> no_extent_flag s ino = false.
Proof. unfold f2fs_may_extent_tree. by destruct (no_extent_flag s ino), (negb (extent_cache_opt s)). Qed.

Lemma attached_tree_some M s ino : xs_inv M s -> f2fs_may_extent_tree s ino = true ->
  x_extent_tree (inode_of s ino) = true /\ is_Some (extent_tree_root s !! ino).
Proof.
  intros Hx Hmay. pose proof (xi_attached _ _ Hx _ Hmay) as Hp. split; [done|].
  by apply (xi_pointer _ _ Hx ino (may_present _ _ Hmay)).
Qed.

Lemma eff_sound m s s' ino v lg : tree_sound m s ino -> eff ino s s' v lg ->
  view_wf v -> view_sound m v -> largest_ok m lg -> (no_extent_flag s ino = true -> v = [] /\ len lg = 0) -> tree_sound m s' ino.
Proof.
  intros Ht [E1 E2 E3 E4] Hw Hs Hlg Hg. split; rewrite ?E3, ?E4; try done. by rewrite (frame_flag _ _ _ _ E2).
Qed.

(** Both the tree and its largest extent answer with what the map says; none is
    found only when none of them contains the offset. *)
Lemma lookup_tree_ok M s ino o : xs_inv M s -> f2fs_may_extent_tree s ino = true -> 0 <= o < 2 ^ 32 ->
  let r := f2fs_lookup_extent_tree ino o s in
  xs_inv M r.2 /\
  match r.1 with
  | Some e => fofs e <= o < ei_end e /\ ext_sound (M ino) e
  | None => ~ covered (view s ino) o /\ ~ fofs (largest (tree_of s ino)) <= o < ei_end (largest (tree_of s ino))
  end.
Proof.
  intros Hx Hmay Ho. destruct (attached_tree_some _ _ _ Hx Hmay) as (Hp & Ht). pose proof (xi_ok _ _ Hx) as Hok.
  unfold f2fs_lookup_extent_tree. rewrite Hp. cbn [negb f2fs_bug_on]. cbv zeta.
  destruct (xi_sound _ _ Hx ino) as [T1 T2 T3 T4].
  assert (Hend : u32 (fofs (largest (tree_of s ino)) + len (largest (tree_of s ino))) = ei_end (largest (tree_of s ino))).
  { destruct T3 as (Hr & [Hz|((? & ? & ?) & _)]); unfold ei_end in *; apply u32_small; lia. }
  rewrite Hend. case_if.
  - cbn. split; [done|]. split; [lia|]. destruct T3 as (Hr & [Hz|(_ & Hs)]); [unfold ei_end in *; lia|done].
  - rewrite u32_small by lia.
    pose proof (lookup_rb_tree_ok (en_fofs s) (en_len s) (root (tree_of s ino)) (cached_en (tree_of s ino)) o
      ltac:(by apply view_ranges) (to_cached _ _ _ (tree_of_ok _ _ Hok Ht))) as Hl.
    destruct (__lookup_rb_tree _ _ _ _ _) as [p|]; cbn [fst snd].
    + destruct Hl as (Hin & Hr). pose proof (use_node_eff ino p s Hok Ht Hin) as Eu. split.
      * eapply (inv_tree M M); [exact Hx|apply Eu|apply frame_wframe, Eu|done|apply Hx|].
        eapply eff_sound; [by split|exact Eu|done|done|done|exact T4].
      * split; [exact Hr|]. unfold view_sound in T2. rewrite Forall_forall in T2. exact (T2 _ (view_of_elem s _ _ Hin)).
    + split; [done|]. split.
      * intros (a & (p & -> & Hin)%list_elem_of_fmap & Ha). exact (Hl _ Hin Ha).
      * apply andb_false_iff in E as [E|E]; zbool; lia.
Qed.

Definition set_file (ino : Z) (m : file_map) (M : files) : files := fun i => if i =? ino then m else M i.

Lemma set_file_eq ino m M : set_file ino m M ino = m.
Proof. unfold set_file. by rewrite Z.eqb_refl. Qed.
Lemma set_file_ne ino m M i : i <> ino -> set_file ino m M i = M i.
Proof. intros H. unfold set_file. by destruct (Z.eqb_spec i ino). Qed.

(** A file whose cache has been given up, or never existed, may change. *)
Lemma no_cache_empty M s ino m : xs_inv M s -> f2fs_may_extent_tree s ino = false -> is_Some (xinodes s !! ino) ->
  map_ok m -> no_extent_flag s ino = true \/ extent_tree_root s !! ino = None -> xs_inv (set_file ino m M) s.
Proof.
  intros Hx Hmay Hin Hm Hc. eapply (inv_tree M); [exact Hx|apply Hx|reflexivity|intros; by apply set_file_ne|by rewrite set_file_eq|].
  rewrite set_file_eq. destruct (xi_sound _ _ Hx ino) as [T1 T2 T3 T4].
  assert (Hv : view s ino = [] /\ len (largest (tree_of s ino)) = 0).
  { destruct Hc as [Hc|Hc]; [by apply T4|]. rewrite (no_tree_view _ _ Hc). unfold tree_of. by rewrite Hc. }
  destruct Hv as (Hv & Hlen). split; rewrite ?Hv; [apply view_nil|by constructor| |done]. destruct T3 as (T3 & _). split; [done|by left].
Qed.

Lemma update_inv M s ino f b l : xs_inv M s -> f2fs_may_extent_tree s ino = true -> map_ok (write_range (M ino) f b l) ->
  0 <= f -> 0 < l -> f + l < 2 ^ 32 ->
  let s' := f2fs_update_extent_cache_range kmem_cache_alloc ino f b l s in
  xs_inv (set_file ino (write_range (M ino) f b l) M) s' /\
  (b <> 0 -> f2fs_may_extent_tree s' ino = true -> (forall s, kmem_cache_alloc s <> None) ->
   forall o, f <= o < f + l -> covered (view s' ino) o).
Proof.
  intros Hx Hmay Hm Hf Hl Hfl. cbv zeta. unfold f2fs_update_extent_cache_range. rewrite Hmay. cbn [negb].
  destruct (attached_tree_some _ _ _ Hx Hmay) as (Hp & Ht).
  destruct (update_range_ok kmem_cache_alloc alloc_fresh (M ino) ino f b l s (xi_ok _ _ Hx)) as (K1 & K2 & K3 & K4);
    [split; try done; [apply Hx|by apply may_present|apply Hx]|done|].
  split.
  - eapply (inv_tree M); [exact Hx|done|done|intros; by apply set_file_ne|by rewrite set_file_eq|by rewrite set_file_eq].
  - intros Hb Hmay'. apply (K4 Hb). by apply may_flag.
Qed.

(** Dropping the cache of an inode that has one. *)
Lemma drop_inv M s ino : xs_inv M s -> x_extent_tree (inode_of s ino) = true -> is_Some (xinodes s !! ino) ->
  xs_inv M (f2fs_drop_extent_tree ino s) /\ no_extent_flag (f2fs_drop_extent_tree ino s) ino = true.
Proof.
  intros Hx Hp Hin. pose proof (proj1 (xi_pointer _ _ Hx _ Hin) Hp) as Ht. unfold f2fs_drop_extent_tree. cbv zeta.
  pose proof (set_no_extent_wframe ino s) as W1. pose proof (set_no_extent_ok ino s (xi_ok _ _ Hx)) as Hok1.
  pose proof (set_no_extent_flag ino s Hin) as Hf1. destruct (xi_sound _ _ Hx ino) as [T1 T2 T3 T4].
  assert (Hp1 : x_extent_tree (inode_of (set_no_extent ino s) ino) = true).
  { rewrite set_no_extent_inode, decide_True by done. destruct Hin as (x & Hx'). rewrite Hx'. unfold inode_of in Hp. by rewrite Hx' in Hp. }
  rewrite Hp1. cbn [negb f2fs_bug_on]. set (s1 := set_no_extent ino s) in *.
  assert (Ht1 : is_Some (extent_tree_root s1 !! ino)) by done.
  destruct (free_tree_eff ino s1 Hok1 Ht1) as (F & _). destruct (__free_extent_tree ino s1) as [n s2]. cbn [snd] in F.
  assert (Ht2 : is_Some (extent_tree_root s2 !! ino)) by (by apply (fr_tree _ _ _ (ef_frame _ _ _ _ _ F))).
  pose proof (drop_largest_eff ino 0 UINT_MAX s2 (ef_ok _ _ _ _ _ F) Ht2) as D. rewrite (ef_view _ _ _ _ _ F), (ef_largest _ _ _ _ _ F) in D.
  cbv zeta in D. pose proof (eff_trans _ _ _ _ _ _ _ _ F D) as [E1 E2 E3 E4].
  set (s3 := __drop_largest_extent ino 0 UINT_MAX s2) in *. change (tree_of s1 ino) with (tree_of s ino) in E4.
  split; [|by rewrite (frame_flag _ _ _ _ E2)].
  eapply (inv_tree M M); [exact Hx|done|etrans; [exact W1|by apply frame_wframe]|done|apply Hx|].
  split; rewrite ?E3, ?E4; [apply view_nil|by constructor| |].
  - by apply (drop_outside _ (largest (tree_of s ino)) 0 UINT_MAX).
  - intros _. split; [done|by eapply drop_all].
Qed.

(** ** The shrinker *)

Lemma listed_node s en : xs_ok s -> en ∈ extent_list s -> exists e ino v1 v2,
  nodes s !! en = Some (mk_en e ino) /\ is_Some (extent_tree_root s !! ino) /\ view s ino = v1 ++ (en, e) :: v2 /\
  en ∈ inorder (root (tree_of s ino)).
Proof.
  intros Hok (n & Hn)%(ok_list _ Hok). destruct n as [e ino]. pose proof (ok_node _ Hok _ _ Hn) as Ht. cbn in Ht.
  pose proof (tree_of_ok _ _ Hok Ht) as [T1 T2 T3 T4].
  assert (Hin : en ∈ inorder (root (tree_of s ino))) by (apply T2; by exists e).
  pose proof Hin as (l1 & l2 & Hl)%list_elem_of_split. exists e, ino, (view_of s l1), (view_of s l2).
  split; [done|]. split; [done|]. split; [|done]. unfold view. rewrite Hl, view_of_app. cbn.
  by replace (node_ei s en) with e by (unfold node_ei; by rewrite Hn).
Qed.

Lemma smaller_sound m s s' ino v1 a v2 : tree_sound m s ino -> view s ino = v1 ++ a :: v2 ->
  eff ino s s' (v1 ++ v2) (largest (tree_of s ino)) -> tree_sound m s' ino.
Proof.
  intros Hts Hv E. pose proof Hts as [T1 T2 T3 T4]. rewrite Hv in T1, T2. eapply eff_sound; [exact Hts|exact E| | |exact T3|].
  - by destruct (wf_middle _ _ _ T1) as (W & _).
  - by destruct (proj1 (sound_middle m _ _ _) T2) as (S & _).
  - intros Hf. destruct (T4 Hf) as (Hn & _). rewrite Hv in Hn. by destruct v1.
Qed.

Lemma shrink_lru_inv M n trylock c s : xs_inv M s -> xs_inv M (shrink_lru n trylock c s).2.
Proof.
  revert c s. induction n as [|n IH]; intros c s Hx; cbn [shrink_lru]; [done|].
  destruct (extent_list s) as [|en l] eqn:El; [done|].
  destruct (listed_node s en (xi_ok _ _ Hx)) as (e & ino & v1 & v2 & Hn & Ht & Hv & Hin); [rewrite El; left|].
  rewrite Hn. cbn [et]. destruct (negb (trylock (S n))); apply IH.
  - pose proof (move_tail_eff ino en s (xi_ok _ _ Hx) Ht ltac:(rewrite El; left)) as E.
    eapply (inv_tree M M); [exact Hx|apply E|apply frame_wframe, E|done|apply Hx|].
    destruct (xi_sound _ _ Hx ino) as [T1 T2 T3 T4]. by eapply eff_sound; [split|exact E|..].
  - pose proof (detach_eff ino en s v1 e v2 (xi_ok _ _ Hx) Ht Hv) as E.
    eapply (inv_tree M M); [exact Hx|apply E|apply frame_wframe, E|done|apply Hx|].
    eapply smaller_sound; [apply (xi_sound _ _ Hx)|exact Hv|exact E].
Qed.

(** An empty tree that leaves the radix tree. *)
Record tree_removed (ino : Z) (s s' : ext_state) : Prop := {
  tr_root : extent_tree_root s' = delete ino (extent_tree_root s);
  tr_nodes : nodes s' = nodes s;
  tr_list : extent_list s' = extent_list s;
  tr_cnt : total_ext_node s' = total_ext_node s;
  tr_trees : total_ext_tree s' = total_ext_tree s - 1;
  tr_zombie : zombie_list s' = filter (fun i => i <> ino) (zombie_list s);
  tr_zombies : total_zombie_tree s' = Z.of_nat (length (zombie_list s'));
  tr_opt : extent_cache_opt s' = extent_cache_opt s;
  tr_bug : xbug s' = xbug s
}.

Lemma removed_ok ino s s' : xs_ok s -> is_Some (extent_tree_root s !! ino) -> view s ino = [] -> tree_removed ino s s' -> xs_ok s'.
Proof.
  intros Hok (t & Ht) Hv [R1 R2 R3 R4 R5 R6 R7 R8 R9]. pose proof Hok as [O1 O2 O3 O4 O5 O6 O7 O8].
  assert (Hin : inorder (root t) = []).
  { unfold view, tree_of in Hv. rewrite Ht in Hv. cbn in Hv. by destruct (inorder (root t)). }
  split; rewrite ?R2, ?R3, ?R4, ?R5, ?R9; try done.
  - intros i t'. rewrite R1, lookup_delete_Some. intros (_ & Hi). destruct (O1 _ _ Hi) as [T1 T2 T3 T4]. split; rewrite ?R2; done.
  - intros p n Hn. rewrite R1. destruct (decide (ino = et n)) as [->|]; [|rewrite lookup_delete_ne by done; by eapply O2].
    exfalso. assert (Hp : p ∈ inorder (root t)) by (apply (to_nodes _ _ _ (O1 _ _ Ht)); exists (ei n); rewrite Hn; by destruct n).
    rewrite Hin in Hp. by apply elem_of_nil in Hp.
  - rewrite R1, map_size_delete, Ht, O5. enough (size (extent_tree_root s) <> O) by lia.
    intros Hz%map_size_empty_inv. by rewrite Hz in Ht.
  - rewrite R6. destruct O7 as (O7 & O7'). split; [by apply NoDup_filter|].
    intros i (Hi & Hz)%list_elem_of_filter. rewrite R1, lookup_delete_ne by done. by apply O7'.
Qed.

Lemma removed_view ino s s' i : tree_removed ino s s' -> i <> ino -> view s' i = view s i /\ tree_of s' i = tree_of s i.
Proof.
  intros [R1 R2 _ _ _ _ _ _ _] Hi. assert (Ht : tree_of s' i = tree_of s i) by (unfold tree_of; by rewrite R1, lookup_delete_ne).
  split; [|done]. unfold view. rewrite Ht. apply view_of_ext. intros p _. unfold node_ei. by rewrite R2.
Qed.

Lemma removed_oframe ino s s' : tree_removed ino s s' ->
  (forall i, i <> ino -> is_Some (xinodes s' !! i) <-> is_Some (xinodes s !! i)) ->
  (forall i, i <> ino -> inode_of s' i = inode_of s i) -> oframe ino s s'.
Proof.
  intros Hr H1 H2. pose proof Hr as [R1 R2 R3 R4 R5 R6 R7 R8 R9]. split; try done; intros i Hi.
  - by destruct (removed_view _ _ _ _ Hr Hi).
  - by destruct (removed_view _ _ _ _ Hr Hi) as (_ & ->).
  - by rewrite R1, lookup_delete_ne.
  - rewrite R6, list_elem_of_filter. naive_solver.
  - by rewrite H2.
Qed.

Lemma no_tree_sound m s ino : extent_tree_root s !! ino = None -> tree_sound m s ino.
Proof.
  intros Hn. assert (Ht : tree_of s ino = empty_tree) by (unfold tree_of; by rewrite Hn).
  split; rewrite ?(no_tree_view _ _ Hn), ?Ht; [apply view_nil|by constructor| |done].
  split; [done|by left].
Qed.

(** Without a tree and not in memory: nothing is known of the inode. *)
Lemma gone_ok m s ino : map_ok m -> extent_tree_root s !! ino = None -> xinodes s !! ino = None -> ino ∉ zombie_list s -> one_ok m s ino.
Proof.
  intros Hm Ht Hi Hz. split; [done|by apply no_tree_sound| | | | |].
  - rewrite Ht. split; [done|]. by intros ([] & _).
  - rewrite Hi. by intros [].
  - intros Hmay%may_present. rewrite Hi in Hmay. by destruct Hmay.
  - rewrite Ht. by intros [].
  - unfold inode_of. by rewrite Hi.
Qed.

Lemma filter_away (i : Z) (l : list Z) : i ∉ l -> filter (fun j => j <> i) l = l.
Proof.
  induction l as [|j l IH]; [done|]. intros (H1 & H2)%not_elem_of_cons.
  rewrite filter_cons_True by naive_solver. by rewrite IH.
Qed.

Lemma drop_head (i : Z) (l : list Z) : NoDup (i :: l) -> filter (fun j => j <> i) (i :: l) = l.
Proof. intros (Hi & _)%NoDup_cons. rewrite filter_cons_False by naive_solver. by apply filter_away. Qed.

Lemma cnt_view s ino : xs_ok s -> is_Some (extent_tree_root s !! ino) ->
  c_true (node_cnt (tree_of s ino)) = false <-> view s ino = [].
Proof.
  intros Hok Ht. rewrite c_true_false, (to_cnt _ _ _ (tree_of_ok _ _ Hok Ht)), <- view_length.
  destruct (view s ino); cbn; split; intros; try done; lia.
Qed.

(** A tree emptied, if it is not empty already. *)
Lemma emptied s ino : xs_ok s -> is_Some (extent_tree_root s !! ino) ->
  let s' := (if c_true (node_cnt (tree_of s ino)) then __free_extent_tree ino s else (0, s)).2 in
  xs_ok s' /\ frame ino s s' /\ view s' ino = [] /\ c_true (node_cnt (tree_of s' ino)) = false /\ is_Some (extent_tree_root s' !! ino).
Proof.
  intros Hok Ht. cbv zeta.
  assert (H : exists s', s' = (if c_true (node_cnt (tree_of s ino)) then __free_extent_tree ino s else (0, s)).2 /\
    xs_ok s' /\ frame ino s s' /\ view s' ino = []).
  { eexists. split; [reflexivity|]. destruct (c_true _) eqn:E.
    - destruct (free_tree_eff ino s Hok Ht) as ([F1 F2 F3 F4] & _). done.
    - split; [done|]. split; [done|]. by apply cnt_view. }
  destruct H as (s' & <- & H1 & H2 & H3). assert (Ht' : is_Some (extent_tree_root s' !! ino)) by (by apply (fr_tree _ _ _ H2)).
  split_and!; try done. by apply cnt_view.
Qed.

Definition remove_zombie (ino : Z) (s : ext_state) : ext_state :=
  let s := set_zombie_list (filter (fun i => i <> ino) (zombie_list s)) s in
  let s := set_extent_tree_root (delete ino (extent_tree_root s)) s in
  let s := set_total_ext_tree (total_ext_tree s - 1) s in
  set_total_zombie_tree (total_zombie_tree s - 1) s.

Lemma shrink_zombies_inv M nr l nc tc s : xs_inv M s -> zombie_list s = l -> xs_inv M (shrink_zombies nr l nc tc s).2.
Proof.
  revert nc tc s. induction l as [|ino l IH]; intros nc tc s Hx Hz; cbn [shrink_zombies]; [done|].
  pose proof (xi_ok _ _ Hx) as Hok. destruct (proj1 (xi_zombie _ _ Hx ino)) as (Ht & Hn); [rewrite Hz; left|].
  destruct (emptied s ino Hok Ht) as (E1 & E2 & E3 & E4 & E5). destruct (if c_true _ then _ else _) as [freed s1]. cbn [snd] in *.
  rewrite E4. cbn [f2fs_bug_on]. fold (remove_zombie ino s1).
  assert (Hl1 : zombie_list s1 = ino :: l) by (by rewrite (fr_zombie _ _ _ E2)).
  pose proof (proj1 (ok_zombie _ E1)) as Hnd. rewrite Hl1 in Hnd.
  assert (Hr : tree_removed ino s1 (remove_zombie ino s1)).
  { split; try done. cbn. rewrite (ok_zombies _ E1), Hl1, drop_head by done. cbn. lia. }
  assert (Hn1 : xinodes s1 !! ino = None) by (apply eq_None_not_Some; by rewrite (fr_inodes _ _ _ E2), <- eq_None_not_Some).
  assert (Hx2 : xs_inv M (remove_zombie ino s1)).
  { apply (inv_local M M ino s); [done|by eapply removed_ok| |done|].
    - etrans; [by apply wframe_oframe, frame_wframe|]. by apply removed_oframe.
    - apply gone_ok; [apply Hx|cbn; by rewrite lookup_delete_eq|done|]. cbn. rewrite list_elem_of_filter. by intros (? & _). }
  case_if; [done|]. apply IH; [done|]. cbn. by rewrite Hl1, drop_head.
Qed.

Lemma shrink_inv M nr lock1 lock2 trylock s : xs_inv M s -> xs_inv M (f2fs_shrink_extent_tree nr lock1 lock2 trylock s).2.
Proof.
  intros Hx. unfold f2fs_shrink_extent_tree. cbv zeta. case_if; [done|].
  assert (Hfree : forall a b s, xs_inv M s ->
    xs_inv M (if negb lock2 then (u32 (a + b), s) else
      let '(c, s) := shrink_lru (Z.to_nat (s32 (nr - u32 (a + b)))) trylock a s in (u32 (c + b), s)).2).
  { intros a b s0 Hx0. destruct (negb lock2); [done|].
    pose proof (shrink_lru_inv M (Z.to_nat (s32 (nr - u32 (a + b)))) trylock a s0 Hx0) as H.
    by destruct (shrink_lru _ _ _ _). }
  case_if; [apply (Hfree 0 0 s Hx)|]. case_if; [done|].
  pose proof (shrink_zombies_inv M nr (zombie_list s) 0 0 s Hx eq_refl) as H.
  destruct (shrink_zombies _ _ _ _ _) as [[[enough a] b] s1]. cbn [snd] in H. destruct enough; [done|]. by apply Hfree.
Qed.

(** ** Inodes that enter and leave the memory *)

(** An inode is read or made: it has no tree yet, then its cache is set up. *)
Definition enter_inode (ino : Z) (reg bad : bool) (nlink : Z) (s : ext_state) : ext_state :=
  set_xinodes (<[ino := mk_xi false false reg nlink bad false]> (xinodes s)) s.

(** The extent an inode has on disk. *)
Definition raw_ok (m : file_map) (i_ext : option (Z * Z * Z)) : Prop :=
  match i_ext with
  | Some (f, b, l) => l = 0 \/ ei_ok (mk_ei f l b) /\ ext_sound m (mk_ei f l b)
  | None => True
  end.

Lemma enter_inode_of ino reg bad nlink s i :
  inode_of (enter_inode ino reg bad nlink s) i = if decide (i = ino) then mk_xi false false reg nlink bad false else inode_of s i.
Proof.
  unfold inode_of, enter_inode. cbn. case_decide; subst; [by rewrite lookup_insert_eq|by rewrite lookup_insert_ne].
Qed.

Lemma grab_ok ino s : xs_ok s -> (is_Some (extent_tree_root s !! ino) -> ino ∈ zombie_list s) -> xs_ok (__grab_extent_tree ino s).
Proof.
  intros Hok Hz. unfold __grab_extent_tree. pose proof Hok as [O1 O2 O3 O4 O5 O6 O7 O8].
  destruct (extent_tree_root s !! ino) as [t|] eqn:Et; cbv zeta.
  - specialize (Hz ltac:(by eexists)). destruct O7 as (O7 & O7').
    split; try done; cbn.
    + intros i t' Hi. by destruct (O1 _ _ Hi) as [T1 T2 T3 T4].
    + rewrite O6. pose proof Hz as (l1 & l2 & Hl)%list_elem_of_split. rewrite Hl in *.
      apply NoDup_app in O7 as (_ & D & (Hn & _)%NoDup_cons).
      rewrite list.filter_app, filter_cons_False by naive_solver.
      rewrite !length_app. cbn. rewrite !filter_away; [lia|done|]. intros Hx. apply (D _ Hx). left.
    + split; [by apply NoDup_filter|]. intros i (_ & Hi)%list_elem_of_filter. by apply O7'.
  - split; try done; cbn.
    + intros i t'. rewrite lookup_insert_Some. intros [(<- & <-)|(Hi & Ht)].
      * split; cbn; [constructor| |done|done]. intros p. rewrite elem_of_nil. split; [done|]. intros (e & He).
        apply O2 in He. cbn in He. rewrite Et in He. by destruct He.
      * by destruct (O1 _ _ Ht) as [T1 T2 T3 T4].
    + intros p n Hn. destruct (decide (et n = ino)) as [->|]; [rewrite lookup_insert_eq; by eexists|].
      rewrite lookup_insert_ne by done. by eapply O2.
    + rewrite map_size_insert, Et, O5. lia.
    + destruct O7 as (O7 & O7'). split; [done|]. intros i Hi. destruct (decide (i = ino)) as [->|]; [rewrite lookup_insert_eq; by eexists|].
      rewrite lookup_insert_ne by done. by apply O7'.
Qed.

Lemma inodes_ok x s : xs_ok s -> xs_ok (set_xinodes x s).
Proof.
  intros [O1 O2 O3 O4 O5 O6 O7 O8]. split; auto. intros i t Ht. destruct (O1 _ _ Ht) as [T1 T2 T3 T4]. by split.
Qed.

Lemma grab_tree ino s : extent_tree_root (__grab_extent_tree ino s) = <[ino := tree_of s ino]> (extent_tree_root s) /\
  nodes (__grab_extent_tree ino s) = nodes s /\ extent_cache_opt (__grab_extent_tree ino s) = extent_cache_opt s /\
  xinodes (__grab_extent_tree ino s) = alter (set_x_extent_tree true) ino (xinodes s) /\
  (forall i, i ∈ zombie_list (__grab_extent_tree ino s) <-> i ∈ zombie_list s /\ (i <> ino \/ extent_tree_root s !! ino = None)).
Proof.
  unfold __grab_extent_tree, tree_of. destruct (extent_tree_root s !! ino) as [t|] eqn:E; cbn; split_and!; try done.
  - by rewrite insert_id.
  - intros i. rewrite list_elem_of_filter. naive_solver.
  - naive_solver.
Qed.

Lemma enter_grab_inv M s ino reg bad nlink : xs_inv M s -> xinodes s !! ino = None ->
  f2fs_may_extent_tree (enter_inode ino reg bad nlink s) ino = true ->
  let s1 := __grab_extent_tree ino (enter_inode ino reg bad nlink s) in
  xs_inv M s1 /\ is_Some (extent_tree_root s1 !! ino) /\ x_extent_tree (inode_of s1 ino) = true.
Proof.
  intros Hx Hn Hmay s1. pose proof Hx as [X1 X2 X3 X4 X5 X6 X7 X8]. set (s0 := enter_inode ino reg bad nlink s) in *.
  destruct (grab_tree ino s0) as (G1 & G2 & G3 & G4 & G5). fold s1 in G1, G2, G3, G4, G5.
  change (tree_of s0) with (tree_of s) in G1. change (extent_tree_root s0) with (extent_tree_root s) in *.
  change (nodes s0) with (nodes s) in G2. change (zombie_list s0) with (zombie_list s) in G5.
  assert (Hto : forall i, tree_of s1 i = tree_of s i).
  { intros i. unfold tree_of at 1. rewrite G1. destruct (decide (i = ino)) as [->|]; [by rewrite lookup_insert_eq|by rewrite lookup_insert_ne]. }
  assert (Hvw : forall i, view s1 i = view s i).
  { intros i. unfold view. rewrite Hto. apply view_of_ext. intros p _. unfold node_ei. by rewrite G2. }
  assert (Hin : inode_of s1 ino = mk_xi true false reg nlink bad false).
  { unfold inode_of. rewrite G4, lookup_alter_eq. cbn. by rewrite lookup_insert_eq. }
  assert (Hot : forall i, i <> ino -> inode_of s1 i = inode_of s i /\ (is_Some (xinodes s1 !! i) <-> is_Some (xinodes s !! i))).
  { intros i Hi. unfold inode_of. rewrite G4, lookup_alter_ne by done. cbn. by rewrite lookup_insert_ne. }
  assert (Hopt : extent_cache_opt s = true).
  { unfold f2fs_may_extent_tree in Hmay. change (extent_cache_opt s0) with (extent_cache_opt s) in Hmay. by destruct (extent_cache_opt s). }
  assert (Ht1 : is_Some (extent_tree_root s1 !! ino)) by (rewrite G1, lookup_insert_eq; by eexists).
  split; [|split; [done|by rewrite Hin]].
  apply (inv_local M M ino s); [done| | |done|].
  - apply grab_ok; [by apply inodes_ok|]. intros Ht. apply X4. done.
  - split; [intros i _; apply Hvw|intros i _; by rewrite Hto| | |by rewrite G3|intros i Hi; apply (Hot i Hi)|].
    + intros i Hi. by rewrite G1, lookup_insert_ne.
    + intros i Hi. rewrite G5. naive_solver.
    + intros i Hi. by destruct (Hot i Hi) as (-> & _).
  - split; [done| | | | |by rewrite G3|].
    + destruct (X3 ino) as [T1 T2 T3 T4]. split; rewrite ?Hvw, ?Hto; try done. unfold no_extent_flag. by rewrite Hin.
    + rewrite G5, G4, lookup_alter_eq. cbn. rewrite lookup_insert_eq. cbn.
      split; [|by intros (_ & ?)]. intros (Hz & [|Hz']); [done|]. apply X4 in Hz as (Hz & _). rewrite Hz' in Hz. by destruct Hz.
    + intros _. by rewrite Hin.
    + by rewrite Hin.
    + rewrite Hin. cbn. unfold f2fs_may_extent_tree in Hmay. unfold s0 in Hmay. rewrite enter_inode_of, decide_True in Hmay by done.
      by destruct (_ || _).
Qed.

Lemma set_largest_xs_ok ino e s : xs_ok s -> is_Some (extent_tree_root s !! ino) -> xs_ok (upd_tree ino (set_largest e) s).
Proof.
  intros Hok Ht. pose proof Hok as [O1 O2 O3 O4 O5 O6 O7 O8]. pose proof (tree_of_ok _ _ Hok Ht) as [U1 U2 U3 U4].
  split; try done; cbn.
  - intros i t. rewrite lookup_insert_Some. intros [(<- & <-)|(_ & Hi)]; [by split|]. by destruct (O1 _ _ Hi) as [T1 T2 T3 T4].
  - intros p n Hp. rewrite lookup_insert_is_Some'. right. by eapply O2.
  - by rewrite map_size_insert_Some.
  - destruct O7 as (O7 & O7'). split; [done|]. intros i Hi. rewrite lookup_insert_is_Some'. right. by apply O7'.
Qed.

(** The extent from disk becomes the only one of an empty tree. *)
Lemma first_extent_inv M s ino e : xs_inv M s -> is_Some (extent_tree_root s !! ino) -> view s ino = [] ->
  no_extent_flag s ino = false -> ei_ok e -> ext_sound (M ino) e ->
  let r := __init_extent_tree kmem_cache_alloc ino e s in
  xs_inv M (match r with (Some en, s') => list_add_tail en s' | (None, s') => s' end).
Proof.
  intros Hx Ht Hv Hfl He Hs. unfold __init_extent_tree.
  destruct (kmem_cache_alloc s) as [en|] eqn:Ea; [|unfold __attach_extent_node; by rewrite Ea].
  rewrite (attach_eq _ _ _ _ _ _ Ea). cbv zeta.
  pose proof (xi_ok _ _ Hx) as Hok. set (s0 := upd_tree ino (set_largest e) s).
  assert (Hok0 : xs_ok s0) by (by apply set_largest_xs_ok).
  assert (Ht0 : is_Some (extent_tree_root s0 !! ino)) by (cbn; rewrite lookup_insert_eq; by eexists).
  assert (Hto : tree_of s0 ino = set_largest e (tree_of s ino)) by apply tree_upd.
  assert (Hroot : root (tree_of s ino) = Leaf).
  { apply map_eq_nil in Hv. destruct (root (tree_of s ino)) as [|l p r]; [done|]. cbn in Hv. by destruct (inorder l). }
  assert (Hp0 : place s0 ino None [] []).
  { exists [], []. split; [done|]. split; [done|]. rewrite Hto. cbn. rewrite Hroot. by split. }
  set (s2 := set_total_ext_node _ _).
  assert (Hn2 : node_ei s2 en = e) by (unfold node_ei, s2; cbn; by rewrite lookup_insert_eq).
  assert (Hl2 : tree_of s2 ino = attached_tree en None (tree_of s ino)) by (unfold tree_of at 1, s2; cbn; by rewrite lookup_insert_eq).
  rewrite Hn2. set (s3 := list_add_tail en _).
  assert (E : eff ino s0 s3 [(en, e)] e).
  { apply (attach_eff ino e None s0 [] [] en s3 e Hok0 Ht0 Hp0); [exact (alloc_fresh _ _ Ea)|done..|].
    split; try done; try (by left); try (by right).
    - unfold s3, list_add_tail, upd_tree. cbn. rewrite Hl2, Hto, !insert_insert_eq. done.
    - intros p. unfold s3. cbn. destruct (decide (p = en)) as [->|]; [right|left; by rewrite lookup_insert_ne].
      rewrite (alloc_fresh _ _ Ea), lookup_insert_eq. split; by intros x [= <-].
    - left. by rewrite Hto. }
  pose proof Hx as [X1 X2 X3 X4 X5 X6 X7 X8].
  apply (inv_local M M ino s); [done|apply E| |done|].
  - etrans; [|apply wframe_oframe, frame_wframe, E]. split; try done; intros i Hi.
    + unfold view, s0, tree_of. cbn. rewrite lookup_insert_ne by done. done.
    + unfold s0, tree_of. cbn. by rewrite lookup_insert_ne.
    + cbn. by rewrite lookup_insert_ne.
  - pose proof (ef_frame _ _ _ _ _ E) as F. pose proof (fr_tree _ _ _ F ino) as Hft.
    split; [done| | | | |intros _; by apply (X7 ino)|exact (X8 ino)].
    + split; rewrite ?(ef_view _ _ _ _ _ E), ?(ef_largest _ _ _ _ _ E).
      * apply view_cons. split; [done|]. split; [apply view_nil|]. by intros b Hb%elem_of_nil.
      * apply Forall_singleton. done.
      * split; [|by right]. destruct He as (A & B & C). unfold ei_end in C. lia.
      * change (no_extent_flag s3 ino) with (no_extent_flag s ino). by rewrite Hfl.
    + change (zombie_list s3) with (zombie_list s). change (xinodes s3) with (xinodes s). rewrite Hft. rewrite X4. naive_solver.
    + change (inode_of s3 ino) with (inode_of s ino). change (xinodes s3) with (xinodes s). intros Hin. rewrite Hft, X5 by done. by split.
    + exact (X6 ino).
Qed.

(** Reading an inode, or making one. *)
Definition read_inode_cache (ino : Z) (reg bad : bool) (nlink : Z) (i_ext : option (Z * Z * Z)) (s : ext_state) : ext_state :=
  (f2fs_init_extent_tree kmem_cache_alloc ino i_ext (enter_inode ino reg bad nlink s)).2.

Lemma set_no_extent_inv M s ino : xs_inv M s -> extent_tree_root s !! ino = None -> xs_inv M (set_no_extent ino s).
Proof.
  intros Hx Ht. eapply (inv_tree M M); [exact Hx|by apply set_no_extent_ok, Hx|apply set_no_extent_wframe|done|apply Hx|].
  by apply no_tree_sound.
Qed.

Lemma init_tree_inv M s ino reg bad nlink i_ext : xs_inv M s -> xinodes s !! ino = None -> raw_ok (M ino) i_ext ->
  f2fs_may_extent_tree (enter_inode ino reg bad nlink s) ino = true ->
  let s' := (__f2fs_init_extent_tree kmem_cache_alloc ino i_ext (enter_inode ino reg bad nlink s)).2 in
  xs_inv M s' /\ x_extent_tree (inode_of s' ino) = true.
Proof.
  intros Hx Hn Hraw Hmay. cbv zeta. unfold __f2fs_init_extent_tree. rewrite Hmay. cbn [negb].
  destruct (enter_grab_inv M s ino reg bad nlink Hx Hn Hmay) as (Hx1 & Ht1 & Hp1).
  assert (Hf1 : no_extent_flag (__grab_extent_tree ino (enter_inode ino reg bad nlink s)) ino = false).
  { destruct (grab_tree ino (enter_inode ino reg bad nlink s)) as (_ & _ & _ & G4 & _). unfold no_extent_flag, inode_of.
    rewrite G4, lookup_alter_eq. cbn. by rewrite lookup_insert_eq. }
  set (s1 := __grab_extent_tree ino _) in *. clearbody s1.
  destruct i_ext as [[[f b] l]|]; [|done]. destruct (c_true l) eqn:El; [|done].
  destruct (c_true (node_cnt (tree_of s1 ino))) eqn:Ec; [done|].
  destruct Hraw as [Hz|(He & Hs)]; [apply c_true_true in El; done|].
  pose proof (first_extent_inv M s1 ino (mk_ei f l b) Hx1 Ht1 (proj1 (cnt_view s1 ino (xi_ok _ _ Hx1) Ht1) Ec) Hf1 He Hs) as Hfi.
  cbv zeta in Hfi. cbn [get_extent_info]. 
  assert (Hin : x_extent_tree (inode_of (__init_extent_tree kmem_cache_alloc ino (mk_ei f l b) s1).2 ino) = true).
  { unfold __init_extent_tree. destruct (kmem_cache_alloc s1) as [en|] eqn:Ea.
    - by rewrite (attach_eq _ _ _ _ _ _ Ea).
    - unfold __attach_extent_node. by rewrite Ea. }
  destruct (__init_extent_tree _ _ _ _) as [[en|] s2]; done.
Qed.

Lemma read_inode_inv M s ino reg bad nlink i_ext : xs_inv M s -> xinodes s !! ino = None ->
  (is_Some (extent_tree_root s !! ino) -> reg = true) -> raw_ok (M ino) i_ext ->
  xs_inv M (read_inode_cache ino reg bad nlink i_ext s).
Proof.
  intros Hx Hn Hreg Hraw. unfold read_inode_cache, f2fs_init_extent_tree.
  destruct (f2fs_may_extent_tree (enter_inode ino reg bad nlink s) ino) eqn:Hmay.
  - pose proof (init_tree_inv M s ino reg bad nlink i_ext Hx Hn Hraw Hmay) as (Hx' & Hp).
    destruct (__f2fs_init_extent_tree _ _ _ _) as [[ret ie] s1]. cbn in *. by rewrite Hp.
  - assert (Hs : (__f2fs_init_extent_tree kmem_cache_alloc ino i_ext (enter_inode ino reg bad nlink s)).2 = enter_inode ino reg bad nlink s).
    { unfold __f2fs_init_extent_tree. rewrite Hmay. cbn. destruct i_ext as [[[f b] l]|]; [|done]. by destruct (c_true l). }
    destruct (__f2fs_init_extent_tree _ _ _ _) as [[ret ie] s1]. cbn in *. subst s1.
    rewrite enter_inode_of, decide_True by done. cbn [x_extent_tree].
    assert (Ht : extent_tree_root s !! ino = None).
    { apply eq_None_not_Some. intros Ht. specialize (Hreg Ht). pose proof (xi_opt _ _ Hx _ Ht) as Ho.
      unfold f2fs_may_extent_tree, no_extent_flag in Hmay. rewrite enter_inode_of, decide_True in Hmay by done. cbn in Hmay.
      rewrite Ho, Hreg in Hmay. done. }
    pose proof Hx as [X1 X2 X3 X4 X5 X6 X7 X8].
    set (s0 := enter_inode ino reg bad nlink s).
    assert (Hz : ino ∉ zombie_list s) by (rewrite X4, Ht; by intros ([] & _)).
    assert (Hx0 : xs_inv M (set_no_extent ino s0)); [|done].
    apply (inv_local M M ino s); [done|by apply set_no_extent_ok, inodes_ok| |done|].
    + etrans; [|apply wframe_oframe, set_no_extent_wframe]. split; try done; intros i Hi.
      * unfold s0. cbn. by rewrite lookup_insert_ne.
      * unfold s0. by rewrite enter_inode_of, decide_False.
    + assert (Hi : inode_of (set_no_extent ino s0) ino = mk_xi false true reg nlink bad false).
      { rewrite set_no_extent_inode, decide_True by done. unfold s0. cbn. by rewrite lookup_insert_eq. }
      split; [done|by apply no_tree_sound| | | | |by rewrite Hi].
      * split; [done|]. cbn. rewrite Ht. by intros ([] & _).
      * intros _. rewrite Hi. cbn. rewrite Ht. split; [done|]. by intros [].
      * unfold f2fs_may_extent_tree, no_extent_flag. rewrite Hi. cbn. by rewrite orb_true_r.
      * cbn. rewrite Ht. by intros [].
Qed.

(** An inode leaves the memory (f2fs_evict_inode). *)
Definition evict_inode_cache (ino : Z) (s : ext_state) : ext_state :=
  let s := f2fs_destroy_extent_tree ino s in
  set_xinodes (delete ino (xinodes s)) s.

Lemma evict_inv M s ino : xs_inv M s -> is_Some (xinodes s !! ino) -> xs_inv M (evict_inode_cache ino s).
Proof.
  intros Hx Hin. pose proof Hx as [X1 X2 X3 X4 X5 X6 X7 X8]. unfold evict_inode_cache, f2fs_destroy_extent_tree.
  assert (Hz : ino ∉ zombie_list s) by (rewrite X4; intros (_ & Hn); rewrite Hn in Hin; by destruct Hin).
  assert (Hdel : forall s1, oframe ino s1 (set_xinodes (delete ino (xinodes s1)) s1)).
  { intros s1. split; try done; intros i Hi; cbn; [by rewrite lookup_delete_ne|]. unfold inode_of. cbn. by rewrite lookup_delete_ne. }
  destruct (x_extent_tree (inode_of s ino)) eqn:Hp; cbn [negb].
  2: { assert (Ht : extent_tree_root s !! ino = None).
       { apply eq_None_not_Some. intros Ht. apply (X5 _ Hin) in Ht. congruence. }
       apply (inv_local M M ino s); [done|by apply inodes_ok|apply Hdel|done|].
       apply gone_ok; [done|done|cbn; by rewrite lookup_delete_eq|done]. }
  pose proof (proj1 (X5 _ Hin) Hp) as Ht. case_if.
  - pose proof X2 as [O1 O2 O3 O4 O5 O6 (O7 & O7') O8]. set (s1 := set_total_zombie_tree _ _). cbv zeta.
    assert (Hs1 : forall i, i ∈ zombie_list s1 <-> i ∈ zombie_list s \/ i = ino).
    { intros i. unfold s1. cbn. by rewrite elem_of_app, list_elem_of_singleton. }
    apply (inv_local M M ino s); [done| | |done|].
    + apply inodes_ok. split; try done.
      * intros i t Hi. by destruct (O1 _ _ Hi) as [T1 T2 T3 T4].
      * unfold s1. cbn. rewrite O6, length_app. cbn. lia.
      * split; [|intros i [Hi|Hi]%Hs1; [by apply O7'|by subst]]. unfold s1. cbn. apply NoDup_app. split; [done|].
        split; [|apply NoDup_singleton]. by intros i Hi ->%list_elem_of_singleton.
    + etrans; [|apply Hdel]. split; try done. intros i Hi. rewrite Hs1. naive_solver.
    + pose proof (X3 ino) as [T1 T2 T3 T4]. split; [done| | | | | |].
      * split; try done. unfold no_extent_flag, inode_of. cbn. by rewrite lookup_delete_eq.
      * change (zombie_list (set_xinodes ?x s1)) with (zombie_list s1). rewrite Hs1. cbn. rewrite lookup_delete_eq. naive_solver.
      * cbn. rewrite lookup_delete_eq. by intros [].
      * intros Hmay%may_present. cbn in Hmay. rewrite lookup_delete_eq in Hmay. by destruct Hmay.
      * apply (X7 ino).
      * unfold inode_of. cbn. by rewrite lookup_delete_eq.
  - unfold f2fs_destroy_extent_node. rewrite Hp. cbn [negb orb].
    replace (if negb (c_true (node_cnt (tree_of s ino))) then (0, s) else __free_extent_tree ino s)
      with (if c_true (node_cnt (tree_of s ino)) then __free_extent_tree ino s else (0, s)) by (by destruct (c_true (node_cnt (tree_of s ino)))).
    destruct (emptied s ino X2 Ht) as (E1 & E2 & E3 & E4 & E5). destruct (if c_true _ then _ else _) as [freed s1]. cbn [snd] in *.
    rewrite E4. cbn [f2fs_bug_on].
    set (s2 := set_total_ext_tree (total_ext_tree s1 - 1) (set_extent_tree_root (delete ino (extent_tree_root s1)) s1)).
    change (set_total_ext_tree _ _) with s2.
    assert (Hz1 : ino ∉ zombie_list s1) by (by rewrite (fr_zombie _ _ _ E2)).
    assert (Hr : tree_removed ino s1 s2).
    { split; try done; unfold s2; cbn; [by rewrite filter_away|by rewrite (ok_zombies _ E1)]. }
    apply (inv_local M M ino s); [done| | |done|].
    + apply inodes_ok, inodes_ok. by eapply removed_ok.
    + etrans; [by apply wframe_oframe, frame_wframe|]. etrans; [by apply removed_oframe|].
      etrans; [|apply Hdel]. split; try done; intros i Hi; unfold upd_inode, inode_of; cbn; by rewrite lookup_alter_ne.
    + apply gone_ok; [done|cbn; by rewrite lookup_delete_eq|cbn; by rewrite lookup_delete_eq|done].
Qed.
End operations.
