(* ===== verification/ExtentReach.v ===== *)
(** * The extent cache: every sequence of operations

    The steps of the cache together with the maps of the files it caches, from
    the state at mount; what a lookup answers in a reachable state, what an
    update leaves, and what f2fs_drop_extent_tree does without a cache. *)

From stdpp Require Import base numbers option gmap list sorting fin_maps.
From S2P Require Import Prelude Inode NodePath RbTree Extent ExtentWf ExtentUpdate ExtentSafe.

Section reach.
Context `{Hrb : !RbOps}.
Context (kmem_cache_alloc : ext_state -> option positive).

(** The links and the state of an inode change as files are removed. *)
Definition set_links (ino nlink : Z) (bad : bool) : ext_state -> ext_state :=
  upd_inode ino (fun x => mk_xi (x_extent_tree x) (x_no_extent x) (x_reg x) nlink bad (x_dirty x)).

Inductive ext_step (M : files) (s : ext_state) : files -> ext_state -> Prop :=
| es_read ino reg bad nlink i_ext : xinodes s !! ino = None -> (is_Some (extent_tree_root s !! ino) -> reg = true) ->
    raw_ok (M ino) i_ext -> ext_step M s M (read_inode_cache kmem_cache_alloc ino reg bad nlink i_ext s)
| es_lookup ino o : 0 <= o < 2 ^ 32 -> ext_step M s M (f2fs_lookup_extent_cache ino o s).2
| es_update ino f b l : is_Some (xinodes s !! ino) -> map_ok (write_range (M ino) f b l) -> 0 <= f -> 0 < l -> f + l < 2 ^ 32 ->
    ext_step M s (set_file ino (write_range (M ino) f b l) M) (f2fs_update_extent_cache_range kmem_cache_alloc ino f b l s)
| es_update_block i ofs_of_node ofs_in_node data_blkaddr :
    let f := start_bidx_of_node ofs_of_node i + ofs_in_node in
    let b := if data_blkaddr =? NEW_ADDR then NULL_ADDR else data_blkaddr in
    is_Some (xinodes s !! i_ino i) -> map_ok (write_range (M (i_ino i)) f b 1) -> 0 <= f -> f + 1 < 2 ^ 32 ->
    ext_step M s (set_file (i_ino i) (write_range (M (i_ino i)) f b 1) M)
      (f2fs_update_extent_cache kmem_cache_alloc i ofs_of_node ofs_in_node data_blkaddr s)
| es_drop ino : is_Some (xinodes s !! ino) -> x_extent_tree (inode_of s ino) = true -> ext_step M s M (f2fs_drop_extent_tree ino s)
| es_exchange ino m : is_Some (xinodes s !! ino) -> no_extent_flag s ino = true -> map_ok m -> ext_step M s (set_file ino m M) s
| es_shrink nr lock1 lock2 trylock : ext_step M s M (f2fs_shrink_extent_tree nr lock1 lock2 trylock s).2
| es_links ino nlink bad : ext_step M s M (set_links ino nlink bad s)
| es_evict ino : is_Some (xinodes s !! ino) -> ext_step M s M (evict_inode_cache ino s)
| es_reuse ino m : xinodes s !! ino = None -> extent_tree_root s !! ino = None -> map_ok m -> ext_step M s (set_file ino m M) s.

Inductive ext_reach (opt : bool) : files -> ext_state -> Prop :=
| er_mount M : (forall i, map_ok (M i)) -> ext_reach opt M (init_extent_cache_info opt)
| er_step M s M' s' : ext_reach opt M s -> ext_step M s M' s' -> ext_reach opt M' s'.

Context `{Hrl : !RbLaws}.
Context (alloc_fresh : forall s p, kmem_cache_alloc s = Some p -> nodes s !! p = None).

Lemma mount_inv opt M : (forall i, map_ok (M i)) -> xs_inv M (init_extent_cache_info opt).
Proof.
  intros Hm. split; try done.
  - split; try done; (split; [constructor|]); intros p; cbn; rewrite elem_of_nil; [|done]. split; [done|]. by intros [].
  - intros i. by apply no_tree_sound.
  - intros i. cbn. rewrite elem_of_nil. split; [done|]. by intros ([] & _).
  - intros i. cbn. by intros [].
  - intros i. by intros Hmay%may_present%is_Some_None.
  - intros i. cbn. by intros [].
Qed.

Lemma links_inv M s ino nlink bad : xs_inv M s -> xs_inv M (set_links ino nlink bad s).
Proof.
  intros Hx. pose proof Hx as [X1 X2 X3 X4 X5 X6 X7 X8].
  assert (Hi : let x := inode_of s ino in let y := inode_of (set_links ino nlink bad s) ino in
    x_extent_tree y = x_extent_tree x /\ x_no_extent y = x_no_extent x /\ x_reg y = x_reg x).
  { unfold inode_of, set_links, upd_inode. cbn. rewrite lookup_alter_eq. by destruct (xinodes s !! ino). }
  destruct Hi as (H1 & H2 & H3).
  assert (Hs : forall i, is_Some (xinodes (set_links ino nlink bad s) !! i) <-> is_Some (xinodes s !! i)).
  { intros i. unfold set_links, upd_inode. cbn. by rewrite lookup_alter_is_Some. }
  apply (inv_local M M ino s); [done|by apply inodes_ok| |done|].
  - split; try done; intros i Hi; unfold set_links, upd_inode, inode_of; cbn; by rewrite lookup_alter_ne.
  - split; try done.
    + destruct (X3 ino) as [T1 T2 T3 T4]. split; try done. unfold no_extent_flag. by rewrite H2.
    + rewrite eq_None_not_Some, Hs, <- eq_None_not_Some. apply X4.
    + rewrite Hs, H1. apply X5.
    + unfold f2fs_may_extent_tree, no_extent_flag. rewrite H1, H2, H3. apply X6.
    + apply (X7 ino).
    + rewrite H1, H3. apply X8.
Qed.

(** An update of an inode without a usable cache changes the map only. *)
Lemma unused_inv M s ino m : xs_inv M s -> f2fs_may_extent_tree s ino = false -> is_Some (xinodes s !! ino) -> map_ok m ->
  xs_inv (set_file ino m M) s.
Proof.
  intros Hx Hmay Hin Hm. apply no_cache_empty; [done..|].
  destruct (no_extent_flag s ino) eqn:Ef; [by left|right]. apply eq_None_not_Some. intros Ht.
  unfold f2fs_may_extent_tree in Hmay. rewrite Ef, (xi_opt _ _ Hx _ Ht) in Hmay. cbn in Hmay.
  pose proof (xi_reg _ _ Hx _ (proj2 (xi_pointer _ _ Hx _ Hin) Ht)). congruence.
Qed.

Lemma update_step M s ino f b l : xs_inv M s -> is_Some (xinodes s !! ino) -> map_ok (write_range (M ino) f b l) ->
  0 <= f -> 0 < l -> f + l < 2 ^ 32 ->
  xs_inv (set_file ino (write_range (M ino) f b l) M) (f2fs_update_extent_cache_range kmem_cache_alloc ino f b l s).
Proof.
  intros Hx Hin Hm Hf Hl Hfl. destruct (f2fs_may_extent_tree s ino) eqn:Hmay.
  - by apply (update_inv kmem_cache_alloc alloc_fresh).
  - unfold f2fs_update_extent_cache_range. rewrite Hmay. cbn. by apply unused_inv.
Qed.

Lemma step_inv M s M' s' : xs_inv M s -> ext_step M s M' s' -> xs_inv M' s'.
Proof.
  intros Hx Hst. destruct Hst.
  - by apply read_inode_inv.
  - unfold f2fs_lookup_extent_cache. destruct (f2fs_may_extent_tree s ino) eqn:Hmay; cbn; [|done].
    by apply (lookup_tree_ok M s ino o Hx Hmay).
  - by apply update_step.
  - unfold f2fs_update_extent_cache. fold b f.
    assert (E : (if negb (f2fs_may_extent_tree s (i_ino i)) then s else f2fs_update_extent_tree_range kmem_cache_alloc (i_ino i) f b 1 s) =
      f2fs_update_extent_cache_range kmem_cache_alloc (i_ino i) f b 1 s) by done.
    rewrite E. by apply update_step.
  - by apply drop_inv.
  - apply unused_inv; [done| |done|done]. unfold f2fs_may_extent_tree. by rewrite H0, orb_true_r.
  - by apply shrink_inv.
  - by apply links_inv.
  - by apply evict_inv.
  - eapply (inv_local M); [exact Hx|apply Hx|reflexivity|intros; by apply set_file_ne|]. rewrite set_file_eq.
    apply gone_ok; [done..|]. rewrite (xi_zombie _ _ Hx), H0. by intros ([] & _).
Qed.

Lemma reach_inv opt M s : ext_reach opt M s -> xs_inv M s.
Proof. induction 1; [by apply mount_inv|by eapply step_inv]. Qed.

(** C10. Whatever operations have run since the mount, an extent that the cache
    answers with contains the offset, and for every offset in it gives the
    block the map of the file has: the cache is never stale. *)
Theorem cache_never_stale (opt : bool) (M : files) (s : ext_state) (ino o : Z) (e : extent_info) (s' : ext_state) :
  ext_reach opt M s -> 0 <= o < 2 ^ 32 -> f2fs_lookup_extent_cache ino o s = (Some e, s') ->
  fofs e <= o < fofs e + len e /\
  forall o', fofs e <= o' < fofs e + len e -> M ino o' = Some (blk e + (o' - fofs e)).
Proof.
  intros Hr Ho He. pose proof (reach_inv _ _ _ Hr) as Hx. unfold f2fs_lookup_extent_cache in He.
  destruct (f2fs_may_extent_tree s ino) eqn:Hmay; [|done]. cbn in He.
  destruct (lookup_tree_ok M s ino o Hx Hmay Ho) as (_ & Hl). rewrite He in Hl. cbn in Hl.
  destruct Hl as (H1 & (_ & H2)). done.
Qed.

Lemma lookup_covered M s ino o : xs_inv M s -> f2fs_may_extent_tree s ino = true -> 0 <= o < 2 ^ 32 -> covered (view s ino) o ->
  exists e, (f2fs_lookup_extent_cache ino o s).1 = Some e /\ M ino o = Some (blk e + (o - fofs e)).
Proof.
  intros Hx Hmay Ho Hc. unfold f2fs_lookup_extent_cache. rewrite Hmay. cbn [negb].
  destruct (lookup_tree_ok M s ino o Hx Hmay Ho) as (_ & Hl).
  destruct (f2fs_lookup_extent_tree ino o s) as [[e|] s1]; cbn in *; [|tauto].
  exists e. split; [done|]. apply Hl. apply Hl.
Qed.

(** C16. After an update with blocks every offset of the range is found with its
    new block, unless the update gave the cache of the file up or memory ran
    out; the largest extent, which the inode has on disk, has not changed or
    the inode is dirty. *)
Theorem update_is_learned (opt : bool) (M : files) (s : ext_state) (ino f b l o : Z) :
  ext_reach opt M s -> f2fs_may_extent_tree s ino = true -> map_ok (write_range (M ino) f b l) ->
  0 <= f -> f <= o < f + l -> f + l < 2 ^ 32 -> b <> 0 -> (forall s, kmem_cache_alloc s <> None) ->
  let s' := f2fs_update_extent_cache_range kmem_cache_alloc ino f b l s in
  (f2fs_may_extent_tree s' ino = true ->
   exists e, (f2fs_lookup_extent_cache ino o s').1 = Some e /\ blk e + (o - fofs e) = b + (o - f)) /\
  (largest (tree_of s' ino) = largest (tree_of s ino) \/ x_dirty (inode_of s' ino) = true).
Proof.
  intros Hr Hmay Hm Hf Ho Hfl Hb Hal. cbv zeta. pose proof (reach_inv _ _ _ Hr) as Hx.
  destruct (attached_tree_some _ _ _ Hx Hmay) as (Hp & Ht). pose proof (may_present _ _ Hmay) as Hin. split.
  - destruct (update_inv kmem_cache_alloc alloc_fresh M s ino f b l Hx Hmay Hm Hf ltac:(lia) Hfl) as (Hx' & Hc).
    intros Hmay'. destruct (lookup_covered _ _ _ o Hx' Hmay' ltac:(lia) (Hc Hb Hmay' Hal o Ho)) as (e & He & Hs).
    exists e. split; [done|]. rewrite set_file_eq in Hs. unfold write_range in Hs.
    rewrite (proj2 (andb_true_iff _ _)) in Hs by (rewrite Z.leb_le, Z.ltb_lt; lia).
    rewrite (proj2 (c_true_true b)) in Hs by done. injection Hs as Hs. done.
  - unfold f2fs_update_extent_cache_range. rewrite Hmay. cbn [negb].
    assert (Hup : update_pre (M ino) ino f b l s) by (split; [apply Hx|done|lia|done|done|apply Hx]).
    destruct (update_range_ok kmem_cache_alloc alloc_fresh (M ino) ino f b l s (xi_ok _ _ Hx) Hup Hp) as (_ & W & _).
    exact (wf_dirty _ _ _ W Hin).
Qed.

(** C17. In every reachable state no BUG check has failed, the extents of a tree
    are disjoint and in order, the list of the shrinker holds every node of
    every tree once, and the counters of nodes, trees and zombies are exact. *)
Theorem extent_cache_consistent (opt : bool) (M : files) (s : ext_state) :
  ext_reach opt M s ->
  xbug s = false /\ (forall i, view_wf (view s i)) /\
  (forall i t, extent_tree_root s !! i = Some t ->
     node_cnt t = Z.of_nat (length (inorder (root t))) /\
     forall p, p ∈ inorder (root t) <-> p ∈ extent_list s /\ exists e, nodes s !! p = Some (mk_en e i)) /\
  NoDup (extent_list s) /\ total_ext_node s = Z.of_nat (length (extent_list s)) /\
  total_ext_tree s = Z.of_nat (size (extent_tree_root s)) /\ total_zombie_tree s = Z.of_nat (length (zombie_list s)).
Proof.
  intros Hr. pose proof (reach_inv _ _ _ Hr) as [X1 [O1 O2 [O3 O3'] O4 O5 O6 O7 O8] X3 X4 X5 X6 X7 X8].
  split_and!; try done.
  - intros i. apply X3.
  - intros i t Ht. destruct (O1 _ _ Ht) as [T1 T2 T3 T4]. split; [done|]. intros p. rewrite T2, O3'.
    split; [intros (e & He)|by intros (_ & He)]. split; [|by exists e]. by eexists.
  - rewrite O4, <- (size_dom (D := gset positive)), <- (size_list_to_set (C := gset positive) _ O3). f_equal. f_equal.
    apply set_eq. intros p. rewrite elem_of_dom, elem_of_list_to_set. by rewrite O3'.
Qed.
End reach.

(** ** Witnesses *)

(** The first pointer that is not in use. *)
Definition alloc0 (s : ext_state) : option positive :=
  Some (Pos.succ (foldr Pos.max 1%positive (map fst (map_to_list (nodes s))))).

Lemma max_above p l : p ∈ l -> (p <= foldr Pos.max 1 l)%positive.
Proof. induction l as [|q l IH]; [by intros ?%elem_of_nil|]. cbn. intros [->|Hp]%elem_of_cons; [lia|]. specialize (IH Hp). lia. Qed.

Lemma alloc0_fresh s p : alloc0 s = Some p -> nodes s !! p = None.
Proof.
  unfold alloc0. intros [= <-]. apply eq_None_not_Some. intros (n & Hn%elem_of_map_to_list).
  set (l := map_to_list (nodes s)) in *. assert (Hp : forall q, (q, n) ∈ l -> q ∈ map fst l).
  { intros q Hq. apply list_elem_of_fmap. by exists (q, n). }
  apply Hp, max_above in Hn. lia.
Qed.

(** File 7 has blocks 5000.. at the offsets 100..179 on disk; then offset 10 gets
    block 900, and the offsets 120..129 lose their blocks. *)
Definition map0 : file_map := fun o => if (100 <=? o) && (o <? 180) then Some (5000 + (o - 100)) else None.
Definition files0 : files := fun _ => map0.
Definition xs0 : ext_state := read_inode_cache alloc0 7 true false 1 (Some (100, 5000, 80)) (init_extent_cache_info true).
Definition xs1 : ext_state := f2fs_update_extent_cache_range alloc0 7 10 900 1 xs0.

Lemma map0_ok : map_ok map0.
Proof. intros o a. unfold map0. case_if; [|done]. intros [= <-]. lia. Qed.

Lemma write_range_ok m f b l : map_ok m -> 0 <= b -> b + l <= 2 ^ 32 -> map_ok (write_range m f b l).
Proof.
  intros Hm Hb Hl o a. unfold write_range. case_if; [|apply Hm]. destruct (c_true b) eqn:E; [|done].
  apply c_true_true in E. intros [= <-]. lia.
Qed.

Lemma xs0_reach : ext_reach alloc0 true files0 xs0.
Proof.
  eapply er_step; [apply er_mount; intros i; apply map0_ok|]. apply es_read; [done|by intros []|].
  right. split; [unfold ei_ok, ei_end; cbn; lia|]. split; [cbn; lia|]. intros o Ho. unfold ei_end in Ho. cbn in Ho.
  unfold files0, map0. cbn. rewrite (proj2 (andb_true_iff _ _)); [done|]. rewrite Z.leb_le, Z.ltb_lt. lia.
Qed.

Lemma xs1_reach : ext_reach alloc0 true (set_file 7 (write_range map0 10 900 1) files0) xs1.
Proof.
  eapply er_step; [apply xs0_reach|]. apply (es_update alloc0 files0 xs0 7 10 900 1); [by eexists| |lia..].
  apply write_range_ok; [apply map0_ok|lia..].
Qed.

Lemma cache_never_stale_witness :
  exists s', f2fs_lookup_extent_cache 7 130 xs1 = (Some (mk_ei 100 80 5000), s') /\
    100 <= 130 < 180 /\ set_file 7 (write_range map0 10 900 1) files0 7 140 = Some 5040.
Proof.
  eexists. split; [vm_compute; reflexivity|].
  destruct (cache_never_stale alloc0 alloc0_fresh true _ xs1 7 130 (mk_ei 100 80 5000) _ xs1_reach ltac:(lia) ltac:(vm_compute; reflexivity))
    as (H1 & H2).
  split; [exact H1|]. exact (H2 140 ltac:(cbn; lia)).
Defined.

Lemma update_is_learned_witness : exists e, (f2fs_lookup_extent_cache 7 10 xs1).1 = Some e /\ blk e + (10 - fofs e) = 900.
Proof.
  destruct (update_is_learned alloc0 alloc0_fresh true files0 xs0 7 10 900 1 10 xs0_reach) as (H & _); try lia; try done.
  - apply write_range_ok; [apply map0_ok|lia..].
  - exact (H ltac:(vm_compute; reflexivity)).
Defined.

Lemma extent_cache_consistent_witness : xbug xs1 = false /\ total_ext_node xs1 = 2.
Proof.
  destruct (extent_cache_consistent alloc0 alloc0_fresh true _ xs1 xs1_reach) as (H1 & _ & _ & _ & H2 & _).
  split; [exact H1|]. rewrite H2. vm_compute. reflexivity.
Defined.

(** With the mount option off an inode has no extent tree, and collapsing or
    inserting a range follows its null pointer. *)
Lemma drop_without_cache :
  xbug (f2fs_drop_extent_tree 7 (read_inode_cache alloc0 7 true false 1 None (init_extent_cache_info false))) = true.
Proof. vm_compute. reflexivity. Qed.
